(* ===== verification/_CoqProject ===== *)
-Q . S2P
Prelude.v
Words.v
Bus.v
SparcState.v
Windows.v
Isa.v
Traps.v
SparcAlu.v
SparcCtl.v
SparcMem.v
SparcIU.v
SparcDecode.v
AluProps.v
WindowProps.v
CtlProps.v
MulProps.v
Memory.v
MemProps.v
LoadStoreProps.v
ResetProps.v
Leon2.v
Leon2Props.v
SystemProps.v
BoardProps.v
Witnesses.v
ArmState.v
ArmSupp.v
ArmShift.v
ArmExec.v
Thumb.v
ArmMachine.v
ArmTlb.v
ArmCache.v
ArmMmu.v
ArmMem.v
ArmTransfer.v
ArmCopro.v
ArmRun.v
ArmMmuTyped.v
ArmLemmas.v
ArmDPProps.v
ArmMulProps.v
ArmBanks.v
ThumbProps.v
ArmTyped.v
ArmTlbProps.v
ArmMachineTyped.v
ArmRunTyped.v
ArmCoproProps.v
ArmTransferProps.v
ArmStackProps.v
ArmPipeProps.v
ArmExcProps.v
Config.v
ConfigProps.v
ArmWitnesses.v
MipsState.v
MipsLemmas.v
MipsTlb.v
MipsDecode.v
MipsRun.v
MipsTlbSpec.v
MipsAluProps.v
MipsMemProps.v
MipsTyped.v
MipsRunProps.v
MipsWitnesses.v
FlashBoard.v
FlashIntel.v
FlashIntelBus.v
FlashAmd.v
FlashAmdProps.v
FlashWitnesses.v
GdbNet.v
GdbServer.v
GdbPackets.v
GdbSession.v
GdbTargets.v
GdbExec.v
GdbProps.v
