(* ===== verification/Prelude.v ===== *)
(** * Lusimus (SkyEye): a verification library

    The repository is a simulator of embedded boards in C: six processors (the src/arch
    directories), the memory system they share (src/memory), device models (src/device),
    configuration and a debugger stub (src/utils) and a main loop (src/main). This library
    models the SPARC V8 processor with the LEON2 peripherals, the ARM processor with its
    Thumb decoder, memory management unit, co-processors and fetch loop, the MIPS processor
    with its translation buffer, flash memories, the memory system they share, the reading
    of the configuration and the GDB stub, as pure functions on explicit states, and proves
    what makes them correct.

    ** The program and the files

    Shared:

    - [Prelude]: the outcome of C code ([result]), its notation, arrays indexed by
      a C integer, the tactics shared by all files.
    - [Words]: machine words as [Z] with their wrap-around, the macros of
      common/bits.h and instructions/i_utils.c.
    - [Bus]: the interface [Bus] / [BusLaws] between processor and memory;
      [RamBus] in [LoadStoreProps]: the stronger interface of a bus with RAM behind it, for
      programs.
    - [Memory]: src/memory: the bank look-up with its caches (bank_ops.c), RAM
      and ROM (ram.c), device-backed banks (io.c, flash.c), [mem_reset]; the
      interface [Mach] / [MachLaws] to a machine's registers, and the instances of
      [Bus] and [BusLaws] they give.

    SPARC.  One instruction is [sparc_step_once] (sparc_arch_interface.c): fetch the word
    at the program counter through [bus_read], find its descriptor among the registered
    instructions, run [execute], enter a pending trap, and let the machine's
    peripherals have a cycle.

    - [SparcState]: [sparc_state_t] and the access macros of common/iu.h, the
      well-formed states.  [Windows]: [iu_set_cwp], [iu_sub_cwp], [iu_add_cwp]
      (common/iu.c), [memcpy32] (common/helper.c), and the circular file they implement.
    - [Isa]: the instruction descriptor of common/sparc.h, the shared decoder.
      [Traps]: common/traps.c.
    - [SparcAlu], [SparcCtl], [SparcMem]: the files of instructions/, each with its
      [execute], its [disassemble] and its descriptor.  The [static int] fields
      that a [disassemble] leaves for [execute] are a record.
    - [SparcIU]: the instruction table and decoder, the initial state, one step and
      the run (common/iu.c).  [SparcDecode]: the table of the manual, and the proof that
      the scan of the descriptors is it; encoding.
    - [Leon2]: arch_sparc/mach: UART, timers, configuration registers, interrupt
      controller, I/O table; the instance of [Mach], [MachLaws] and [MachIOLaws].
    - [AluProps], [WindowProps], [CtlProps], [MulProps],
      [LoadStoreProps], [MemProps], [ResetProps], [Leon2Props], [SystemProps],
      [BoardProps]: the theorems, by subject.  [Witnesses]: the theorems at concrete
      inputs, and where the code departs from the manual or its comments.

    ARM.  [ARMul_Emulate32] (arch_arm/common/armemu32.c) keeps two prefetched words,
    refills them after a jump, invokes scheduled events, takes exceptions, gives the
    machine its cycle and executes an instruction by a switch on bits 20 to 27.

    - [ArmState]: [ARMul_State] and the macros of armdefs.h and armemu.h.  [ArmSupp]:
      the banked registers and status registers of armsupp.c, the exceptions of arminit.c.
      [ArmShift]: the shifter and the 64-bit multiplications.  [ArmExec]: data processing,
      multiplications, status transfers and branches, and the conditions.
    - [Thumb]: thumbemu.c.
    - [ArmMachine]: the processor with its memory management unit, cache, translation
      buffer and bus.  [ArmTlb]: mmu/tlb.c.  [ArmCache]: mmu/cache.c.  [ArmMmu]:
      mmu/arm7100_mmu.c and the table of operations of armmmu.h.  [ArmMem]: armvirt.c.
    - [ArmTransfer]: loads, stores, multiple and swap transfers and the version 6
      instructions; one instruction of the machine, [machine_step].
    - [ArmCopro]: the whole system state, the event list and co-processor transfers of
      armsupp.c, the validation co-processors of armcopro.c.  [ArmRun]: the fetch loop.
    - [ArmLemmas], [ArmBanks], [ArmTyped], [ArmMmuTyped]: shared lemmas
      and the typing of each operation, over [BusLaws].  [ArmDPProps], [ArmMulProps],
      [ThumbProps], [ArmExcProps], [ArmMachineTyped], [ArmRunTyped], [ArmCoproProps],
      [ArmTlbProps], [ArmTransferProps], [ArmStackProps], [ArmPipeProps]: the theorems.
      [ArmWitnesses]: the theorems at concrete inputs.

    MIPS.  [mips_step_once] (arch_mips/common/mips_arch_interface.c) clears register 0,
    takes a pending interrupt, translates the program counter, fetches and decodes, and
    moves the program counter by the state of the pipeline, in which a branch with its
    delay slot, an exception and a fault of the fetch differ.

    - [MipsState]: the macros of inttypes.h, instr.h and cpu.h, [MIPS_State] and the entry
      of the translation buffer.  [MipsTlb]: exception.c and the exceptions of emul.c,
      tlb.c: the chains of the buffer as links in an array, their search, the translation.
      [MipsDecode]: the access to memory, decoder.c and cp0.c.  [MipsRun]: reset, the
      interrupt request, one step, runs.
    - [MipsLemmas]: lookup and bit lemmas.  [MipsTlbSpec]: the segments of
      a doubly linked chain, and the associative buffer they implement.  [MipsAluProps],
      [MipsMemProps], [MipsTyped], [MipsRunProps]: the theorems.  [MipsWitnesses]: the
      theorems at concrete inputs.

    Flash memories.  A device of src/device/flash answers for a bank of memory and reaches
    the words behind it: the Intel one with the accessors of ram.c, the others through the
    bus, which leads back to them.

    - [FlashBoard]: the structure of a device next to the memory system, and [bus_read] and
      [bus_write] over the two.  [FlashIntel]: dev_flash_intel.c, the write state machine
      with its write buffer and lock bits.  [FlashAmd]: dev_flash_am29.c and
      dev_flash_sst39lvf160.c, the recognition of commands in the last write cycles.
    - [FlashIntelBus]: the invariant of the device, the effect of each
      command on the words of the bank, and runs of bus writes.  [FlashAmdProps]: the bounds
      and the command sequences over any bus.  [FlashWitnesses]: the theorems at concrete
      inputs.

    GDB stub.  [sim_debug] (utils/debugger/gdbserver.c) answers the packets of a connection
    one after the other; a processor serves it through its table of registers, the reads and
    writes of a byte of memory, its program counter and [step_once].

    - [GdbNet]: the connection as a sequence of segments and of moments without one, packets
      and hexadecimal text; what the stub asks of a processor, as the class
      [Target]; words in a block, memory and break points of skyeye2gdb.c.  [GdbServer]:
      gdb_tracepoint.c; the commands, [sim_resume] for the processors with
      [step_once], a connection.  [GdbTargets]: sparc_regdefs.c and mips_regdefs.c, the
      instances of [Target], and the packets of registers.
    - [GdbPackets], [GdbSession]: buffers, packets and exchanges; a session is
      a list of packets with their answers ([talk]); the class [TargetMemory],
      memory that is read and written byte by byte, and its packets.  [GdbExec]:
      break points, execution, trace points.
      [GdbProps]: the theorems, and a SPARC with a RAM bank as a [TargetMemory],
      and the theorems at concrete inputs.

    Configuration:

    - [Config]: parse_mem.c, skyeye_config.c and the options of skyeye_options.c that do
      not open devices; [ConfigProps]: their theorems.

    ** State and effects

    A C function that changes a global is a function from the state to the new
    state; one that can end the simulation or reach undefined behaviour returns a
    [result].  [skyeye_exit] is [Exit], [raise (SIGINT)] is [Sigint] (its handler
    ends the program), and an access outside an array, a null call or a shift by
    too much is [Undef].  A loop that may not end takes fuel and gives [None] without
    it; [wait] is such an outcome.  The processors are parametric in the bus: their
    theorems use [BusLaws] or [LoadStoreProps] only, and [Memory] and [LoadStoreProps] prove those laws
    for the memory system over any [Mach] that has [MachLaws]; [Leon2] proves them for
    the LEON2.  The ARM instructions are parametric in the memory management unit
    ([mmu_ops_t], laws [ops_ok]) and in the co-processors ([cp_ops], laws [cps_ok]); the
    ARM7100 unit and the co-processors of [ARMul_CoProInit] satisfy the laws.

    The pointers [regwptr[0]] and [regwptr[1]] are the array [global] and an offset
    into [regbase].  [bank_ptr]'s static cache is a field of the memory
    configuration.  The callbacks of the I/O table are the names of the five
    register blocks.  A pointer to a cache line or a translation entry is its index or
    its value, since it is not kept across a change.

    ** What the theorems show

    - The whole SPARC machine ([SystemProps], [BoardProps]): every run from a
      well-formed machine stays well formed; %g0 is 0 and no trap pending after
      each step; the decoder is the manual's table on all 2^32 words, and inverts
      the encoding; a program that prints any text prints it on the LEON2 board.
    - SPARC windows and traps ([WindowProps], [CtlProps]): the register array refines a
      circular file of 128 slots; SAVE and RESTORE, trap entry and return, CALL and
      return are inverse; branch targets; trap types; WRPSR.
    - SPARC arithmetic ([AluProps], [MulProps]): results modulo 2^32 of the logic and
      arithmetic instructions, the four condition codes of ADDcc and SUBcc, the
      relations the branches decide after a compare, 32-bit constants, shifts,
      division, and the 33 MULScc steps as a multiplication.
    - Memory ([MemProps], [LoadStoreProps], [ResetProps]): RAM as byte-addressed
      memory in both byte orders, reads and writes through the bus, the look-up and
      its cache, alignment traps, extension of narrow loads, the round trip of a
      word, loading an image.
    - LEON2 peripherals ([Leon2Props]): the period of the timers, the UART, the delivery
      of interrupts, the bounds of every register access.
    - The whole ARM machine ([ArmMachineTyped], [ArmRunTyped], [ArmPipeProps],
      [ArmCoproProps]): every instruction and every run of the loop keeps the state
      typed; the pipeline is invisible to the program; co-processor waits end.
    - ARM instructions ([ArmDPProps], [ArmMulProps], [ArmTransferProps],
      [ArmStackProps]): data processing and single transfers equal one definition that
      decodes the fields; the long multiplications are exact; pushes and pops are inverse.
    - ARM modes ([ArmBanks], [ArmExcProps]): the banked registers refine the physical
      register file; exception entry and return are inverse.
    - ARM translation ([ArmTlbProps]): the translation buffer is transparent.
    - Thumb ([ThumbProps]): each format is the ARM instruction it abbreviates; the
      conditional branches; the pair of BL.
    - MIPS ([MipsTyped], [MipsTlbSpec], [MipsAluProps], [MipsMemProps], [MipsRunProps]):
      every run from reset stays typed; the translation buffer refines an associative one;
      arithmetic equals a table on integers; unaligned stores and loads are inverse; a
      branch with its delay slot; a system call and the return from it.
    - Flash ([FlashIntelBus], [FlashAmdProps]): what is programmed through the bus is read
      back and the rest of the chip is kept; locked sectors do not change; no table or
      buffer is left; the Am29LV command sequences make the accesses of their command.
    - GDB stub ([GdbPackets], [GdbProps]): damaged packets are asked for again; the packets
      for memory, break points and registers are answered as by an array of bytes, a set of
      addresses and a block of words; [c] stops at the first break point reached; a trace
      frame keeps the memory of its moment.
    - Configuration ([ConfigProps]): the bank table is safe whatever the file; a printed
      bank is read back; the split of a line ends.

    Bounds and fuel: [sparc_run] and [emulate_loop] take the number of steps, which is a
    parameter of their theorems.  A busy wait takes as many iterations as the largest
    register of the validation co-processor, a long transfer five, and
    [cp_instructions_terminate] shows that this fuel is enough.  The split of a line takes
    one step per character ([split_line_total]); the searches for a bit of a word take its
    32 bits, the search for the bits of the way of a cache 31.  The other recursions are
    on the data (the banks, the devices, the instruction table, the words of a file, the
    lines of a cache), as the C loops are.
    The search of a chain of the MIPS translation buffer takes the 48 entries of the
    buffer, and [tlb_refines_associative] shows that no chain is longer.  The loops of the
    flash memories run over the sixteen words of a buffer and the 65536 of a sector; an
    erase of an Am29LV has one unit per word of its range, and [am29_cycles_in_bounds]
    shows that it ends.  [am29_bus_at] takes the depth of the stack, and
    [am29_word_read_recurses] shows that no depth is enough.
    The loops of [getpkt] and [putpkt] take a byte of the connection each time and have one
    unit per byte left and one more ([getpkt_retransmission], [talk_packets]); the fields of
    a packet have one per position of the buffer; [gdbserver_cont] has one per event of the
    connection ([continue_stops]); a chain of actions has one per link.

    ** Assumptions

    The host is little endian with a signed [char]; the width of its [long] is
    the field [host_lp64].  [realloc] and [malloc] succeed.  Files are functions
    from a bank to its contents.  In the ARM loop the hooks of the debugger and of the
    logs are off; the cycle of the machine and [ARMul_Debug] are parameters.

    ** Not modelled

    SPARC: tracing output, the shell, statistics, the debugger hooks, [get_dma_addr],
    [io_reset] and [io_do_cycle].  ARM: the other memory management units, the XScale and
    Maverick co-processors, the 26-bit loop, and the boards of arch_arm/mach.  MIPS: the caches, which no
    access goes through, the older memory system of mipsmem.c, the initialisation, whose
    first store is through an unset pointer, and the boards.  The boards of all processors
    are register files and interrupt wiring; LEON2 is modelled as their representative.
    ColdFire, Blackfin and PowerPC are further instruction sets, two of them taken over
    from other projects.  Of the GDB stub, the path of the
    ARM, which runs its own loop, and the opening of sockets are left.  The devices other
    than those above, and the rest of src/utils and src/main connect the simulator to host
    files, sockets and windows.
    BFD is third-party code. *)

From Stdlib Require Import ZArith Lia Bool.
From stdpp Require Import base numbers option list.
Open Scope Z_scope.

Create HintDb words.
Create HintDb sparc.
Create HintDb isa discriminated.
Create HintDb leon2.
Create Rewrite HintDb sparc_simpl.
Create Rewrite HintDb words_simpl.

(** ** Outcome of a piece of C code

    [Val a]    the code ran to its end and produced [a];
    [Exit n]   it called [skyeye_exit (n)] (main/skyeye.c), which never returns;
    [Sigint]   it called [raise (SIGINT)], whose handler (main/skyeye.c,
               [sigint_handler]) ends the simulation;
    [Undef]    it reached a point the C standard gives no meaning to: a call
               through a null function pointer, an access outside an array, a
               shift by at least the width, a read of an unset variable. *)
Inductive result (A : Type) : Type :=
| Val (a : A)
| Exit (code : Z)
| Sigint
| Undef.

Arguments Val {A} a.
Arguments Exit {A} code.
Arguments Sigint {A}.
Arguments Undef {A}.

Definition rbind {A B : Type} (r : result A) (k : A -> result B) : result B :=
  match r with
  | Val a => k a
  | Exit n => Exit n
  | Sigint => Sigint
  | Undef => Undef
  end.

Declare Scope c_scope.
Delimit Scope c_scope with c.
Open Scope c_scope.
Notation "'let!' x := e 'in' k" := (rbind e (fun x => k))
  (at level 10, x pattern, e at level 100, k at level 200) : c_scope.

(** [holds P r]: if [r] is a value it satisfies [P]; the other outcomes end
    the simulation and carry no state. *)
Definition holds {A : Type} (P : A -> Prop) (r : result A) : Prop :=
  match r with Val a => P a | _ => True end.

Lemma holds_bind {A B : Type} (P : A -> Prop) (Q : B -> Prop) r (k : A -> result B) :
  holds P r -> (forall a, P a -> holds Q (k a)) -> holds Q (rbind r k).
Proof. destruct r; cbn; auto. Qed.

Lemma holds_impl {A : Type} (P Q : A -> Prop) r :
  (forall a, P a -> Q a) -> holds P r -> holds Q r.
Proof. destruct r; cbn; auto. Qed.

(** ** Arrays indexed by a C integer

    A read outside the array gives 0 and a write outside changes nothing; the
    components either prove their indices in range or check them and return
    [Undef]. *)
Definition nthZ (l : list Z) (i : Z) : Z :=
  if 0 <=? i then nth (Z.to_nat i) l 0 else 0.

Definition updZ (l : list Z) (i v : Z) : list Z :=
  if 0 <=? i then <[Z.to_nat i := v]> l else l.

#[global] Arguments nthZ : simpl never.
#[global] Arguments updZ : simpl never.

Lemma length_updZ l i v : length (updZ l i v) = length l.
Proof. unfold updZ. case_match; [apply length_insert | done]. Qed.

Lemma nth_lookup_Z (l : list Z) n : nth n l 0 = default 0 (l !! n).
Proof. revert n. induction l as [|a l IH]; intros [|n]; cbn; auto. Qed.

Lemma nthZ_updZ l i j v :
  0 <= i < Z.of_nat (length l) -> 0 <= j ->
  nthZ (updZ l i v) j = if j =? i then v else nthZ l j.
Proof.
  intros Hi Hj. unfold nthZ, updZ.
  rewrite (proj2 (Z.leb_le 0 i)), (proj2 (Z.leb_le 0 j)) by lia.
  rewrite !nth_lookup_Z. destruct (Z.eqb_spec j i) as [->|Hne].
  - rewrite list_lookup_insert_eq by lia. done.
  - rewrite list_lookup_insert_ne by lia. done.
Qed.

Lemma nthZ_Forall (P : Z -> Prop) l i : P 0 -> Forall P l -> P (nthZ l i).
Proof.
  intros H0 HF. unfold nthZ. case_match; [|done].
  rewrite nth_lookup_Z. destruct (l !! Z.to_nat i) eqn:E; cbn; [|done].
  by eapply Forall_lookup_1.
Qed.

Lemma updZ_Forall (P : Z -> Prop) l i v : P v -> Forall P l -> Forall P (updZ l i v).
Proof. intros. unfold updZ. case_match; [by apply Forall_insert | done]. Qed.

Lemma nthZ_inj l l' :
  length l = length l' ->
  (forall i, 0 <= i < Z.of_nat (length l) -> nthZ l i = nthZ l' i) -> l = l'.
Proof.
  intros Hlen H. apply list_eq. intros n.
  destruct (decide (n < length l)%nat) as [Hn|Hn].
  - specialize (H (Z.of_nat n) ltac:(lia)). unfold nthZ in H.
    rewrite (proj2 (Z.leb_le 0 (Z.of_nat n))), !Nat2Z.id, !nth_lookup_Z in H by lia.
    destruct (lookup_lt_is_Some_2 l n Hn) as [a Ha].
    destruct (lookup_lt_is_Some_2 l' n ltac:(lia)) as [b Hb].
    rewrite Ha, Hb in H |- *. cbn in H. by f_equal.
  - rewrite !lookup_ge_None_2 by lia. done.
Qed.

(** ** Tactics *)

(** Case analysis on the tests of a definition, with the test turned into an
    arithmetic fact. *)
Ltac case_tests :=
  repeat match goal with
  | |- context [if ?a =? ?b then _ else _] => destruct (Z.eqb_spec a b)
  | |- context [if ?a <? ?b then _ else _] => destruct (Z.ltb_spec a b)
  | |- context [if ?a <=? ?b then _ else _] => destruct (Z.leb_spec a b)
  | |- context [if ?a >? ?b then _ else _] => destruct (Z.gtb_spec a b)
  end.

(** All the integers of an interval with literal bounds, one goal each. *)
Ltac enum_Z x lo hi :=
  let rec go k :=
    lazymatch eval compute in (k <? hi) with
    | true =>
        let H := fresh "Hx" in
        destruct (Z.eq_dec x k) as [H|H];
        [ subst x | let k' := eval compute in (k + 1) in go k' ]
    | false => try (exfalso; lia)
    end in
  go lo.
