(* ===== verification/Words.v ===== *)
(** * Machine words and the bit macros

    C integers at their width, as [Z] with the wrap-around written out, and the
    macros of src/arch_sparc/common/bits.h with the helpers of
    src/arch_sparc/instructions/i_utils.c.  The lemmas relate each macro to
    [Z.testbit] and to division by powers of two. *)

From Stdlib Require Import ZArith Lia Bool.
From stdpp Require Import base numbers option list.
From S2P Require Import Prelude.

(** ** C conversions *)

Definition u8 (z : Z) : Z := z mod 256.
Definition u16 (z : Z) : Z := z mod 65536.
Definition u32 (z : Z) : Z := z mod 4294967296.
Definition u64 (z : Z) : Z := z mod 18446744073709551616.

(** [(int) z]: the two's complement value of the low 32 bits. *)
Definition s32 (z : Z) : Z :=
  if u32 z <? 2147483648 then u32 z else u32 z - 4294967296.

Definition is_u32 (z : Z) : Prop := 0 <= z < 4294967296.

#[export] Instance is_u32_dec z : Decision (is_u32 z).
Proof. unfold is_u32. apply _. Defined.

Lemma u32_range z : is_u32 (u32 z).
Proof. unfold is_u32, u32. apply Z.mod_pos_bound. lia. Qed.

Lemma u32_id z : is_u32 z -> u32 z = z.
Proof. apply Z.mod_small. Qed.

Lemma u32_idem z : u32 (u32 z) = u32 z.
Proof. apply u32_id, u32_range. Qed.

Lemma u32_add_l a b : u32 (u32 a + b) = u32 (a + b).
Proof. unfold u32. apply Zplus_mod_idemp_l. Qed.

Lemma u32_add_r a b : u32 (a + u32 b) = u32 (a + b).
Proof. unfold u32. apply Zplus_mod_idemp_r. Qed.

Lemma u32_s32 z : u32 (s32 z) = u32 z.
Proof. unfold s32, u32. case_tests; Z.div_mod_to_equations; lia. Qed.

Lemma s32_range z : -2147483648 <= s32 z < 2147483648.
Proof. pose proof (u32_range z). unfold s32, is_u32 in *. case_tests; lia. Qed.

Lemma s32_congr z : exists k, s32 z = z + k * 4294967296.
Proof.
  unfold s32, u32. case_tests.
  - exists (- (z / 4294967296)). Z.div_mod_to_equations; lia.
  - exists (- (z / 4294967296) - 1). Z.div_mod_to_equations; lia.
Qed.

Lemma s32_id z : -2147483648 <= z < 2147483648 -> s32 z = z.
Proof. intros. unfold s32, u32. case_tests; Z.div_mod_to_equations; lia. Qed.

#[export] Hint Resolve u32_range : words.
#[export] Hint Extern 2 (is_u32 _) => (unfold is_u32; lia) : words.

(** ** The macros of bits.h *)

(** [bitsmask(n, m)]: [(~0u >> m) << (31 - n + m) >> (31 - n)]. *)
Definition bitsmask (n m : Z) : Z :=
  Z.shiftr (u32 (Z.shiftl (Z.shiftr 0xFFFFFFFF m) (31 - n + m))) (31 - n).

(** [bit(x, n)]: [(x >> n) & 1]. *)
Definition bit (x n : Z) : Z := Z.land (Z.shiftr x n) 1.

(** [bits(x, n, m)]: [uint32 y = x; y << (31 - n) >> (31 - n + m)]. *)
Definition bits (x n m : Z) : Z :=
  Z.shiftr (u32 (Z.shiftl (u32 x) (31 - n))) (31 - n + m).

Definition set_bits (x n m : Z) : Z := Z.lor x (bitsmask n m).
Definition set_bit (x b : Z) : Z := set_bits x b b.
Definition clear_bits (x n m : Z) : Z := Z.land x (u32 (Z.lnot (bitsmask n m))).
Definition clear_bit (x b : Z) : Z := clear_bits x b b.

(** [sign_ext(x, nbits)] of i_utils.c: [(x << n) >> n] on a signed int, with
    [n = 32 - nbits]. *)
Definition sign_ext (x nbits : Z) : Z :=
  let n := 32 - nbits in Z.shiftr (s32 (Z.shiftl x n)) n.

Definition sign_ext13 (x : Z) : Z := sign_ext x 13.
Definition sign_ext22 (x : Z) : Z := sign_ext x 22.

#[global] Arguments u8 : simpl never.
#[global] Arguments u16 : simpl never.
#[global] Arguments u32 : simpl never.
#[global] Arguments u64 : simpl never.
#[global] Arguments s32 : simpl never.
#[global] Arguments bit : simpl never.
#[global] Arguments bits : simpl never.
#[global] Arguments set_bits : simpl never.
#[global] Arguments clear_bits : simpl never.
#[global] Arguments set_bit : simpl never.
#[global] Arguments clear_bit : simpl never.
#[global] Arguments sign_ext : simpl never.
#[global] Arguments sign_ext13 : simpl never.

(** ** Lemmas *)

Lemma pow2_pos n : 0 <= n -> 0 < 2 ^ n.
Proof. intros. apply Z.pow_pos_nonneg; lia. Qed.

Lemma u32_pow z : u32 z = z mod 2 ^ 32.
Proof. reflexivity. Qed.

Lemma testbit_u32 z i : 0 <= i -> Z.testbit (u32 z) i = Z.testbit z i && (i <? 32).
Proof.
  intros Hi. rewrite u32_pow. destruct (Z.ltb_spec i 32).
  - rewrite Z.mod_pow2_bits_low by lia. by rewrite andb_true_r.
  - rewrite Z.mod_pow2_bits_high by lia. by rewrite andb_false_r.
Qed.

Lemma testbit_above_32 z i : is_u32 z -> 32 <= i -> Z.testbit z i = false.
Proof.
  intros Hz Hi. rewrite <- (u32_id z Hz), testbit_u32 by lia.
  rewrite (proj2 (Z.ltb_ge i 32)) by lia. apply andb_false_r.
Qed.

Lemma is_u32_testbit z :
  0 <= z -> (forall i, 32 <= i -> Z.testbit z i = false) -> is_u32 z.
Proof.
  intros Hz H. rewrite <- (Z.mod_small z (2 ^ 32)).
  - apply u32_range.
  - split; [done|]. destruct (Z.eq_dec z 0) as [->|Hne]; [lia|].
    apply Z.log2_lt_pow2; [lia|].
    destruct (Z.lt_ge_cases (Z.log2 z) 32) as [|Hge]; [done|].
    specialize (H _ Hge). rewrite Z.bit_log2 in H by lia. done.
Qed.

Lemma u32_inj_testbit a b :
  is_u32 a -> is_u32 b ->
  (forall i, 0 <= i < 32 -> Z.testbit a i = Z.testbit b i) -> a = b.
Proof.
  intros Ha Hb H. apply Z.bits_inj'. intros i Hi.
  destruct (Z.lt_ge_cases i 32); [apply H; lia|].
  rewrite !testbit_above_32; auto.
Qed.

Lemma land_u32 a b : is_u32 a -> 0 <= b -> is_u32 (Z.land a b).
Proof.
  intros Ha Hb. apply is_u32_testbit; [apply Z.land_nonneg; auto|].
  intros i Hi. by rewrite Z.land_spec, testbit_above_32.
Qed.

Lemma lor_u32 a b : is_u32 a -> is_u32 b -> is_u32 (Z.lor a b).
Proof.
  intros Ha Hb. apply is_u32_testbit; [apply Z.lor_nonneg; split; [apply Ha|apply Hb]|].
  intros i Hi. by rewrite Z.lor_spec, !testbit_above_32.
Qed.

Lemma shiftr_u32 a n : is_u32 a -> 0 <= n -> is_u32 (Z.shiftr a n).
Proof.
  intros Ha Hn. apply is_u32_testbit; [apply Z.shiftr_nonneg, Ha|].
  intros i Hi. rewrite Z.shiftr_spec, testbit_above_32; auto; lia.
Qed.

#[export] Hint Resolve land_u32 lor_u32 shiftr_u32 : words.

Lemma bit_testbit x n : 0 <= n -> bit x n = Z.b2z (Z.testbit x n).
Proof.
  intros Hn. unfold bit. rewrite (Z.land_ones _ 1) by lia.
  rewrite Z.testbit_spec' by lia. rewrite Z.shiftr_div_pow2 by lia. reflexivity.
Qed.

Lemma bit_1_iff x n : 0 <= n -> bit x n = 1 <-> Z.testbit x n = true.
Proof. intros Hn. rewrite bit_testbit by lia. destruct (Z.testbit x n); cbn; lia. Qed.

(** The top bit of a 32-bit word is its sign. *)
Lemma bit31 x : is_u32 x -> bit x 31 = if 2147483648 <=? x then 1 else 0.
Proof.
  intros Hx. unfold bit, is_u32 in *. rewrite (Z.land_ones _ 1), Z.shiftr_div_pow2 by lia.
  change (2 ^ 31) with 2147483648. change (2 ^ 1) with 2.
  case_tests; Z.div_mod_to_equations; lia.
Qed.

Lemma bits_spec x n m :
  0 <= m <= n -> n <= 31 -> bits x n m = (x / 2 ^ m) mod 2 ^ (n - m + 1).
Proof.
  intros Hm Hn. unfold bits. apply Z.bits_inj'. intros i Hi.
  rewrite Z.shiftr_spec, testbit_u32, Z.shiftl_spec by lia.
  replace (i + (31 - n + m) - (31 - n)) with (i + m) by lia.
  rewrite testbit_u32 by lia.
  destruct (Z.lt_ge_cases i (n - m + 1)).
  - rewrite Z.mod_pow2_bits_low, Z.div_pow2_bits by lia.
    rewrite (proj2 (Z.ltb_lt _ 32)), (proj2 (Z.ltb_lt _ 32)) by lia.
    by rewrite !andb_true_r.
  - rewrite Z.mod_pow2_bits_high by lia.
    rewrite (proj2 (Z.ltb_ge (i + (31 - n + m)) 32)) by lia. apply andb_false_r.
Qed.

Lemma bits_range x n m : 0 <= m <= n -> n <= 31 -> 0 <= bits x n m < 2 ^ (n - m + 1).
Proof. intros. rewrite bits_spec by done. apply Z.mod_pos_bound, pow2_pos. lia. Qed.

Lemma bits_u32 x n m : 0 <= m <= n -> n <= 31 -> is_u32 (bits x n m).
Proof.
  intros. pose proof (bits_range x n m ltac:(done) ltac:(done)). unfold is_u32.
  split; [lia|]. apply Z.lt_le_trans with (2 ^ (n - m + 1)); [lia|].
  apply (Z.pow_le_mono_r 2 (n - m + 1) 32); lia.
Qed.

Lemma testbit_bitsmask n m i :
  0 <= m <= n -> n <= 31 -> 0 <= i ->
  Z.testbit (bitsmask n m) i = (m <=? i) && (i <=? n).
Proof.
  intros Hm Hn Hi. unfold bitsmask.
  rewrite Z.shiftr_spec, testbit_u32 by lia.
  destruct (Z.leb_spec m i), (Z.leb_spec i n); cbn.
  - rewrite Z.shiftl_spec, Z.shiftr_spec by lia.
    replace (0xFFFFFFFF) with (Z.ones 32) by reflexivity.
    rewrite Z.ones_spec_low by lia. rewrite (proj2 (Z.ltb_lt _ 32)) by lia. done.
  - rewrite (proj2 (Z.ltb_ge _ 32)) by lia. apply andb_false_r.
  - rewrite Z.shiftl_spec_low by lia. done.
  - rewrite Z.shiftl_spec_low by lia. done.
Qed.

Lemma bitsmask_u32 n m : 0 <= m <= n -> n <= 31 -> is_u32 (bitsmask n m).
Proof.
  intros. unfold bitsmask. apply shiftr_u32; [apply u32_range | lia].
Qed.

Lemma testbit_set_bits x n m i :
  0 <= m <= n -> n <= 31 -> 0 <= i ->
  Z.testbit (set_bits x n m) i = Z.testbit x i || ((m <=? i) && (i <=? n)).
Proof. intros. unfold set_bits. by rewrite Z.lor_spec, testbit_bitsmask. Qed.

Lemma testbit_clear_bits x n m i :
  0 <= m <= n -> n <= 31 -> 0 <= i -> is_u32 x ->
  Z.testbit (clear_bits x n m) i = Z.testbit x i && negb ((m <=? i) && (i <=? n)).
Proof.
  intros Hm Hn Hi Hx. unfold clear_bits.
  rewrite Z.land_spec, testbit_u32, Z.lnot_spec, testbit_bitsmask by lia.
  destruct (Z.ltb_spec i 32); [by rewrite andb_true_r|].
  rewrite testbit_above_32; auto.
Qed.

Lemma set_bits_u32 x n m : 0 <= m <= n -> n <= 31 -> is_u32 x -> is_u32 (set_bits x n m).
Proof. intros. apply lor_u32; [done | by apply bitsmask_u32]. Qed.

Lemma clear_bits_u32 x n m : is_u32 x -> is_u32 (clear_bits x n m).
Proof. intros. apply land_u32; [done | apply u32_range]. Qed.

Lemma leb_antisym_eqb b i : ((b <=? i) && (i <=? b)) = (i =? b).
Proof. destruct (Z.leb_spec b i), (Z.leb_spec i b), (Z.eqb_spec i b); cbn; lia. Qed.

Lemma testbit_set_bit x b i :
  0 <= b <= 31 -> 0 <= i -> Z.testbit (set_bit x b) i = Z.testbit x i || (i =? b).
Proof. intros. unfold set_bit. by rewrite testbit_set_bits, leb_antisym_eqb by lia. Qed.

Lemma testbit_clear_bit x b i :
  0 <= b <= 31 -> 0 <= i -> is_u32 x ->
  Z.testbit (clear_bit x b) i = Z.testbit x i && negb (i =? b).
Proof. intros. unfold clear_bit. by rewrite testbit_clear_bits, leb_antisym_eqb by (auto; lia). Qed.

Lemma set_bit_u32 x b : 0 <= b <= 31 -> is_u32 x -> is_u32 (set_bit x b).
Proof. intros. apply set_bits_u32; auto; lia. Qed.

Lemma clear_bit_u32 x b : is_u32 x -> is_u32 (clear_bit x b).
Proof. apply clear_bits_u32. Qed.

#[export] Hint Resolve bits_u32 set_bit_u32 clear_bit_u32 clear_bits_u32 set_bits_u32 : words.
#[export] Hint Extern 1 (_ <= _ <= _) => lia : words.
#[export] Hint Extern 1 (_ <= _) => lia : words.

(** The value of a sign extension, and that it is the two's complement value of
    the low [nbits] bits. *)
Lemma sign_ext_spec x nbits :
  0 < nbits <= 32 -> 0 <= x < 2 ^ nbits ->
  sign_ext x nbits = if x <? 2 ^ (nbits - 1) then x else x - 2 ^ nbits.
Proof.
  intros Hn Hx. unfold sign_ext.
  rewrite Z.shiftl_mul_pow2, Z.shiftr_div_pow2 by lia.
  assert (HP : 2 ^ 32 = 2 ^ nbits * 2 ^ (32 - nbits))
    by (rewrite <- Z.pow_add_r by lia; f_equal; lia).
  assert (HQ : 2 ^ nbits = 2 * 2 ^ (nbits - 1))
    by (rewrite <- Z.pow_succ_r by lia; f_equal; lia).
  pose proof (pow2_pos (32 - nbits) ltac:(lia)) as Hq.
  pose proof (pow2_pos (nbits - 1) ltac:(lia)) as Hh.
  assert (Hu : u32 (x * 2 ^ (32 - nbits)) = x * 2 ^ (32 - nbits)).
  { apply u32_id. unfold is_u32. change 4294967296 with (2 ^ 32). nia. }
  unfold s32. rewrite Hu.
  change 4294967296 with (2 ^ 32). rewrite HP.
  assert (Hhalf : 2147483648 = 2 ^ (nbits - 1) * 2 ^ (32 - nbits))
    by (change 2147483648 with (2 ^ 31); rewrite <- Z.pow_add_r by lia; f_equal; lia).
  rewrite Hhalf.
  destruct (Z.ltb_spec x (2 ^ (nbits - 1))).
  - rewrite (proj2 (Z.ltb_lt _ _)) by nia. by rewrite Z.div_mul by lia.
  - rewrite (proj2 (Z.ltb_ge _ _)) by nia.
    rewrite <- Z.mul_sub_distr_r. by rewrite Z.div_mul by lia.
Qed.

Lemma sign_ext13_spec x :
  0 <= x < 8192 -> sign_ext13 x = if x <? 4096 then x else x - 8192.
Proof. intros. by apply (sign_ext_spec x 13). Qed.

Lemma sign_ext13_range x : 0 <= x < 8192 -> -4096 <= sign_ext13 x < 4096.
Proof. intros. rewrite sign_ext13_spec by done. case_tests; lia. Qed.

Lemma testbit_small z n i : 0 <= n -> 0 <= z < 2 ^ n -> n <= i -> Z.testbit z i = false.
Proof.
  intros. rewrite <- (Z.mod_small z (2 ^ n)) by lia. by rewrite Z.mod_pow2_bits_high by lia.
Qed.

Lemma land_small_u32 a n : 0 <= n < 4294967296 -> is_u32 (Z.land a n).
Proof. intros. rewrite Z.land_comm. apply is_u32_testbit.
  - apply Z.land_nonneg. lia.
  - intros i Hi. rewrite Z.land_spec, testbit_above_32; auto.
Qed.

#[export] Hint Extern 1 (is_u32 (Z.land _ _)) => apply land_small_u32; lia : words.

(** A word of two parts that do not overlap. *)
Lemma lor_low q s b : 0 <= s -> 0 <= b < 2 ^ s -> Z.lor (q * 2 ^ s) b = q * 2 ^ s + b.
Proof.
  intros Hs Hb. rewrite <- Z.shiftl_mul_pow2 by lia. symmetry. rewrite Z.add_nocarry_lxor.
  - rewrite Z.lxor_lor; [done|]. apply Z.bits_inj'. intros i Hi. rewrite Z.land_spec, Z.bits_0.
    destruct (Z.lt_ge_cases i s) as [Hlt|Hge]; [by rewrite Z.shiftl_spec_low|].
    rewrite (testbit_small b s i) by lia. apply andb_false_r.
  - apply Z.bits_inj'. intros i Hi. rewrite Z.land_spec, Z.bits_0.
    destruct (Z.lt_ge_cases i s) as [Hlt|Hge]; [by rewrite Z.shiftl_spec_low|].
    rewrite (testbit_small b s i) by lia. apply andb_false_r.
Qed.
