(* ===== verification/Bus.v ===== *)
(** * The bus between a processor and the memory system

    The interface [bus_read] and [bus_write] of src/memory/bank_ops.c and
    src/memory/bank_defs.h, against which the processors are modelled and
    their theorems proved; [Memory] implements it. *)

From Stdlib Require Import ZArith.
From stdpp Require Import base.
From S2P Require Import Prelude Words.

(** [bus_read size addr] returns the status, the value stored through the
    result pointer if one was stored, and the new bus state; [bus_write]
    returns the status. *)
Class Bus (B : Type) : Type := {
  bus_read : Z -> Z -> B -> result (Z * option Z * B);
  bus_write : Z -> Z -> Z -> B -> result (Z * B)
}.

(** What the processor may rely on. *)
Class BusLaws (B : Type) `{Bus B} : Type := {
  bus_inv : B -> Prop;
  bus_read_law : forall size addr b, bus_inv b ->
    holds (fun '(st, v, b') =>
             st = 0 /\ (forall w, v = Some w -> is_u32 w) /\ bus_inv b') (bus_read size addr b);
  bus_write_law : forall size addr v b, bus_inv b ->
    holds (fun '(st, b') => st = 0 /\ bus_inv b') (bus_write size addr v b)
}.
