(* ===== verification/SparcState.v ===== *)
(** * The processor state

    [sparc_state_t] of src/arch_sparc/common/iu.h with its access macros
    (REG, CWP, the PSR condition codes), [clear_icc] of
    src/arch_sparc/instructions/i_utils.c, and the well-formedness of a
    state: array lengths, 32-bit contents, a current window below [N_WINDOWS]
    and the window pointer that matches it. *)

From Stdlib Require Import ZArith Lia Bool.
From stdpp Require Import base numbers option list.
From S2P Require Import Prelude Words.

Definition N_WINDOWS : Z := 8.
Definition MAX_NWINDOWS : Z := 32.

(** ** Processor State Register fields *)
Definition PSR_impl_last := 31.
Definition PSR_ver_first := 24.
Definition PSR_icc_N := 23.
Definition PSR_icc_Z := 22.
Definition PSR_icc_V := 21.
Definition PSR_icc_C := 20.
Definition PSR_reserved_last := 19.
Definition PSR_reserved_first := 14.
Definition PSR_EF := 12.
Definition PSR_S := 7.
Definition PSR_PS := 6.
Definition PSR_ET := 5.
Definition PSR_CWP_last := 4.
Definition PSR_CWP_first := 0.

(** ** Register names (enum regnames) *)
Definition G0 := 0.
Definition SP := 14.
Definition O7 := 15.
Definition L1 := 17.
Definition L2 := 18.
Definition FP := 30.
Definition I7 := 31.

Record sparc_state : Type := mk_sparc_state {
  global : list Z;  (* %g0-%g7 *)
  regbase : list Z;  (* the windowed registers, MAX_NWINDOWS * 16 + 8 words *)
  regwptr1 : Z;  (* regwptr[1] as an offset into regbase; regwptr[0] always points to global *)
  fp_regs : list Z;  (* FPU registers *)
  YREG : Z;  (* multiply/divide register *)
  PSRREG : Z;  (* processor state register *)
  WIMREG : Z;  (* window invalid mask *)
  TBRREG : Z;  (* trap base register *)
  PCREG : Z;  (* program counter *)
  NPCREG : Z;  (* next program counter *)
  FPSRREG : Z;  (* floating point status register *)
  CPSRREG : Z;  (* coprocessor status register *)
  cwp : Z;  (* never used: the window pointer is read from the PSR *)
  mode : Z;  (* never used *)
  pipeline : Z;  (* never used *)
  irq_pending : Z;  (* trap pending flag *)
  cycle_counter : Z   (* 64-bit cycle counter *)
}.

(** ** Field updates *)
Definition set_global (s : sparc_state) (v : list Z) : sparc_state :=
  {| global := v; regbase := regbase s; regwptr1 := regwptr1 s; fp_regs := fp_regs s;
     YREG := YREG s; PSRREG := PSRREG s; WIMREG := WIMREG s; TBRREG := TBRREG s;
     PCREG := PCREG s; NPCREG := NPCREG s; FPSRREG := FPSRREG s; CPSRREG := CPSRREG s;
     cwp := cwp s; mode := mode s; pipeline := pipeline s; irq_pending := irq_pending s;
     cycle_counter := cycle_counter s |}.

Definition set_regbase (s : sparc_state) (v : list Z) : sparc_state :=
  {| global := global s; regbase := v; regwptr1 := regwptr1 s; fp_regs := fp_regs s;
     YREG := YREG s; PSRREG := PSRREG s; WIMREG := WIMREG s; TBRREG := TBRREG s;
     PCREG := PCREG s; NPCREG := NPCREG s; FPSRREG := FPSRREG s; CPSRREG := CPSRREG s;
     cwp := cwp s; mode := mode s; pipeline := pipeline s; irq_pending := irq_pending s;
     cycle_counter := cycle_counter s |}.

Definition set_regwptr1 (s : sparc_state) (v : Z) : sparc_state :=
  {| global := global s; regbase := regbase s; regwptr1 := v; fp_regs := fp_regs s;
     YREG := YREG s; PSRREG := PSRREG s; WIMREG := WIMREG s; TBRREG := TBRREG s;
     PCREG := PCREG s; NPCREG := NPCREG s; FPSRREG := FPSRREG s; CPSRREG := CPSRREG s;
     cwp := cwp s; mode := mode s; pipeline := pipeline s; irq_pending := irq_pending s;
     cycle_counter := cycle_counter s |}.

Definition set_fp_regs (s : sparc_state) (v : list Z) : sparc_state :=
  {| global := global s; regbase := regbase s; regwptr1 := regwptr1 s; fp_regs := v;
     YREG := YREG s; PSRREG := PSRREG s; WIMREG := WIMREG s; TBRREG := TBRREG s;
     PCREG := PCREG s; NPCREG := NPCREG s; FPSRREG := FPSRREG s; CPSRREG := CPSRREG s;
     cwp := cwp s; mode := mode s; pipeline := pipeline s; irq_pending := irq_pending s;
     cycle_counter := cycle_counter s |}.

Definition set_YREG (s : sparc_state) (v : Z) : sparc_state :=
  {| global := global s; regbase := regbase s; regwptr1 := regwptr1 s;
     fp_regs := fp_regs s; YREG := v; PSRREG := PSRREG s; WIMREG := WIMREG s;
     TBRREG := TBRREG s; PCREG := PCREG s; NPCREG := NPCREG s; FPSRREG := FPSRREG s;
     CPSRREG := CPSRREG s; cwp := cwp s; mode := mode s; pipeline := pipeline s;
     irq_pending := irq_pending s; cycle_counter := cycle_counter s |}.

Definition set_PSRREG (s : sparc_state) (v : Z) : sparc_state :=
  {| global := global s; regbase := regbase s; regwptr1 := regwptr1 s;
     fp_regs := fp_regs s; YREG := YREG s; PSRREG := v; WIMREG := WIMREG s;
     TBRREG := TBRREG s; PCREG := PCREG s; NPCREG := NPCREG s; FPSRREG := FPSRREG s;
     CPSRREG := CPSRREG s; cwp := cwp s; mode := mode s; pipeline := pipeline s;
     irq_pending := irq_pending s; cycle_counter := cycle_counter s |}.

Definition set_WIMREG (s : sparc_state) (v : Z) : sparc_state :=
  {| global := global s; regbase := regbase s; regwptr1 := regwptr1 s;
     fp_regs := fp_regs s; YREG := YREG s; PSRREG := PSRREG s; WIMREG := v;
     TBRREG := TBRREG s; PCREG := PCREG s; NPCREG := NPCREG s; FPSRREG := FPSRREG s;
     CPSRREG := CPSRREG s; cwp := cwp s; mode := mode s; pipeline := pipeline s;
     irq_pending := irq_pending s; cycle_counter := cycle_counter s |}.

Definition set_TBRREG (s : sparc_state) (v : Z) : sparc_state :=
  {| global := global s; regbase := regbase s; regwptr1 := regwptr1 s;
     fp_regs := fp_regs s; YREG := YREG s; PSRREG := PSRREG s; WIMREG := WIMREG s;
     TBRREG := v; PCREG := PCREG s; NPCREG := NPCREG s; FPSRREG := FPSRREG s;
     CPSRREG := CPSRREG s; cwp := cwp s; mode := mode s; pipeline := pipeline s;
     irq_pending := irq_pending s; cycle_counter := cycle_counter s |}.

Definition set_PCREG (s : sparc_state) (v : Z) : sparc_state :=
  {| global := global s; regbase := regbase s; regwptr1 := regwptr1 s;
     fp_regs := fp_regs s; YREG := YREG s; PSRREG := PSRREG s; WIMREG := WIMREG s;
     TBRREG := TBRREG s; PCREG := v; NPCREG := NPCREG s; FPSRREG := FPSRREG s;
     CPSRREG := CPSRREG s; cwp := cwp s; mode := mode s; pipeline := pipeline s;
     irq_pending := irq_pending s; cycle_counter := cycle_counter s |}.

Definition set_NPCREG (s : sparc_state) (v : Z) : sparc_state :=
  {| global := global s; regbase := regbase s; regwptr1 := regwptr1 s;
     fp_regs := fp_regs s; YREG := YREG s; PSRREG := PSRREG s; WIMREG := WIMREG s;
     TBRREG := TBRREG s; PCREG := PCREG s; NPCREG := v; FPSRREG := FPSRREG s;
     CPSRREG := CPSRREG s; cwp := cwp s; mode := mode s; pipeline := pipeline s;
     irq_pending := irq_pending s; cycle_counter := cycle_counter s |}.

Definition set_FPSRREG (s : sparc_state) (v : Z) : sparc_state :=
  {| global := global s; regbase := regbase s; regwptr1 := regwptr1 s;
     fp_regs := fp_regs s; YREG := YREG s; PSRREG := PSRREG s; WIMREG := WIMREG s;
     TBRREG := TBRREG s; PCREG := PCREG s; NPCREG := NPCREG s; FPSRREG := v;
     CPSRREG := CPSRREG s; cwp := cwp s; mode := mode s; pipeline := pipeline s;
     irq_pending := irq_pending s; cycle_counter := cycle_counter s |}.

Definition set_CPSRREG (s : sparc_state) (v : Z) : sparc_state :=
  {| global := global s; regbase := regbase s; regwptr1 := regwptr1 s;
     fp_regs := fp_regs s; YREG := YREG s; PSRREG := PSRREG s; WIMREG := WIMREG s;
     TBRREG := TBRREG s; PCREG := PCREG s; NPCREG := NPCREG s; FPSRREG := FPSRREG s;
     CPSRREG := v; cwp := cwp s; mode := mode s; pipeline := pipeline s;
     irq_pending := irq_pending s; cycle_counter := cycle_counter s |}.

Definition set_irq_pending (s : sparc_state) (v : Z) : sparc_state :=
  {| global := global s; regbase := regbase s; regwptr1 := regwptr1 s;
     fp_regs := fp_regs s; YREG := YREG s; PSRREG := PSRREG s; WIMREG := WIMREG s;
     TBRREG := TBRREG s; PCREG := PCREG s; NPCREG := NPCREG s; FPSRREG := FPSRREG s;
     CPSRREG := CPSRREG s; cwp := cwp s; mode := mode s; pipeline := pipeline s;
     irq_pending := v; cycle_counter := cycle_counter s |}.

Definition set_cycle_counter (s : sparc_state) (v : Z) : sparc_state :=
  {| global := global s; regbase := regbase s; regwptr1 := regwptr1 s;
     fp_regs := fp_regs s; YREG := YREG s; PSRREG := PSRREG s; WIMREG := WIMREG s;
     TBRREG := TBRREG s; PCREG := PCREG s; NPCREG := NPCREG s; FPSRREG := FPSRREG s;
     CPSRREG := CPSRREG s; cwp := cwp s; mode := mode s; pipeline := pipeline s;
     irq_pending := irq_pending s; cycle_counter := v |}.

(** ** REG, FPREG, CWP *)

(** [REG(x)]: [sparc_state.regwptr[(x > 7)][x - 8*(x > 7)]]. *)
Definition REG (s : sparc_state) (x : Z) : Z :=
  if x >? 7 then nthZ (regbase s) (regwptr1 s + (x - 8)) else nthZ (global s) x.

(** Assignment to [REG(x)]; the store converts to uint32. *)
Definition set_REG (s : sparc_state) (x v : Z) : sparc_state :=
  if x >? 7 then set_regbase s (updZ (regbase s) (regwptr1 s + (x - 8)) (u32 v))
  else set_global s (updZ (global s) x (u32 v)).

Definition FPREG (s : sparc_state) (x : Z) : Z := nthZ (fp_regs s) x.
Definition set_FPREG (s : sparc_state) (x v : Z) : sparc_state :=
  set_fp_regs s (updZ (fp_regs s) x (u32 v)).

Definition CWP (s : sparc_state) : Z := bits (PSRREG s) PSR_CWP_last PSR_CWP_first.

(** ** The condition codes *)
Definition psr_get_carry (s : sparc_state) : Z := bit (PSRREG s) PSR_icc_C.
Definition psr_get_overflow (s : sparc_state) : Z := bit (PSRREG s) PSR_icc_V.
Definition psr_get_zero (s : sparc_state) : Z := bit (PSRREG s) PSR_icc_Z.
Definition psr_get_neg (s : sparc_state) : Z := bit (PSRREG s) PSR_icc_N.
Definition psr_set_carry (s : sparc_state) := set_PSRREG s (set_bit (PSRREG s) PSR_icc_C).
Definition psr_set_overflow (s : sparc_state) := set_PSRREG s (set_bit (PSRREG s) PSR_icc_V).
Definition psr_set_zero (s : sparc_state) := set_PSRREG s (set_bit (PSRREG s) PSR_icc_Z).
Definition psr_set_neg (s : sparc_state) := set_PSRREG s (set_bit (PSRREG s) PSR_icc_N).

(** [clear_icc] of i_utils.c: the four bits in the order of the source. *)
Definition clear_icc (s : sparc_state) : sparc_state :=
  let s := set_PSRREG s (clear_bit (PSRREG s) PSR_icc_Z) in
  let s := set_PSRREG s (clear_bit (PSRREG s) PSR_icc_N) in
  let s := set_PSRREG s (clear_bit (PSRREG s) PSR_icc_V) in
  set_PSRREG s (clear_bit (PSRREG s) PSR_icc_C).

(** [if (b) f ();] *)
Definition when (b : bool) (f : sparc_state -> sparc_state) (s : sparc_state) : sparc_state :=
  if b then f s else s.

(** C's truth value of an integer. *)
Definition tst (z : Z) : bool := negb (z =? 0).

(** [PCREG = NPCREG; NPCREG += 4;], the tail of almost every instruction. *)
Definition step_pc (s : sparc_state) : sparc_state :=
  let s := set_PCREG s (NPCREG s) in
  set_NPCREG s (u32 (NPCREG s + 4)).

#[global] Arguments REG : simpl never.
#[global] Arguments set_REG : simpl never.
#[global] Arguments CWP : simpl never.

(** ** Well-formed states *)
Record state_wf (s : sparc_state) : Prop := {
  wf_global_len : length (global s) = 8%nat;
  wf_regbase_len : length (regbase s) = 520%nat;
  wf_fp_len : length (fp_regs s) = 32%nat;
  wf_global : Forall is_u32 (global s);
  wf_regbase : Forall is_u32 (regbase s);
  wf_fp : Forall is_u32 (fp_regs s);
  wf_y : is_u32 (YREG s);
  wf_psr : is_u32 (PSRREG s);
  wf_wim : is_u32 (WIMREG s);
  wf_tbr : is_u32 (TBRREG s);
  wf_pc : is_u32 (PCREG s);
  wf_npc : is_u32 (NPCREG s);
  wf_fpsr : is_u32 (FPSRREG s);
  wf_cwp : CWP s < N_WINDOWS;
  wf_regwptr1 : regwptr1 s = 16 * CWP s
}.

#[export] Hint Resolve wf_global wf_regbase wf_fp wf_y wf_psr wf_wim wf_tbr wf_pc wf_npc
  wf_fpsr wf_global_len wf_regbase_len wf_fp_len : sparc.

Lemma CWP_nonneg s : 0 <= CWP s.
Proof. apply (bits_range (PSRREG s) 4 0); lia. Qed.

Lemma CWP_set_PSRREG s v : CWP (set_PSRREG s v) = bits v 4 0.
Proof. reflexivity. Qed.

Lemma REG_u32 s x : state_wf s -> is_u32 (REG s x).
Proof.
  intros Hwf. unfold REG. case_match; apply nthZ_Forall; auto with sparc words.
Qed.

Lemma FPREG_u32 s x : state_wf s -> is_u32 (FPREG s x).
Proof. intros Hwf. unfold FPREG. apply nthZ_Forall; auto with sparc words. Qed.

#[export] Hint Resolve REG_u32 FPREG_u32 : sparc words.

(** Reading back a register: distinct register numbers never alias inside a
    window. *)
Lemma REG_set_REG s x y v :
  state_wf s -> 0 <= x < 32 -> 0 <= y < 32 ->
  REG (set_REG s x v) y = if y =? x then u32 v else REG s y.
Proof.
  intros Hwf Hx Hy. destruct Hwf. pose proof (CWP_nonneg s). unfold N_WINDOWS in *.
  unfold REG, set_REG.
  destruct (Z.gtb_spec x 7), (Z.gtb_spec y 7); cbn.
  - rewrite nthZ_updZ by lia. case_tests; lia || done.
  - case_tests; lia || done.
  - case_tests; lia || done.
  - rewrite nthZ_updZ by lia. done.
Qed.

Lemma FPREG_set_FPREG s x y v :
  state_wf s -> 0 <= x < 32 -> 0 <= y < 32 ->
  FPREG (set_FPREG s x v) y = if y =? x then u32 v else FPREG s y.
Proof. intros [] Hx Hy. unfold FPREG, set_FPREG; cbn. by rewrite nthZ_updZ by lia. Qed.

(** ** Projections of updates *)
Section proj.
Context (s : sparc_state).

Ltac t := intros; unfold set_REG; case_match; reflexivity.
Lemma PSRREG_set_REG x v : PSRREG (set_REG s x v) = PSRREG s. Proof. t. Qed.
Lemma WIMREG_set_REG x v : WIMREG (set_REG s x v) = WIMREG s. Proof. t. Qed.
Lemma TBRREG_set_REG x v : TBRREG (set_REG s x v) = TBRREG s. Proof. t. Qed.
Lemma YREG_set_REG x v : YREG (set_REG s x v) = YREG s. Proof. t. Qed.
Lemma PCREG_set_REG x v : PCREG (set_REG s x v) = PCREG s. Proof. t. Qed.
Lemma NPCREG_set_REG x v : NPCREG (set_REG s x v) = NPCREG s. Proof. t. Qed.
Lemma irq_pending_set_REG x v : irq_pending (set_REG s x v) = irq_pending s. Proof. t. Qed.
Lemma regwptr1_set_REG x v : regwptr1 (set_REG s x v) = regwptr1 s. Proof. t. Qed.
Lemma fp_regs_set_REG x v : fp_regs (set_REG s x v) = fp_regs s. Proof. t. Qed.
Lemma FPSRREG_set_REG x v : FPSRREG (set_REG s x v) = FPSRREG s. Proof. t. Qed.
Lemma CWP_set_REG x v : CWP (set_REG s x v) = CWP s.
Proof. unfold CWP. by rewrite PSRREG_set_REG. Qed.
End proj.

#[export] Hint Rewrite PSRREG_set_REG WIMREG_set_REG TBRREG_set_REG YREG_set_REG PCREG_set_REG
  NPCREG_set_REG irq_pending_set_REG regwptr1_set_REG fp_regs_set_REG FPSRREG_set_REG
  CWP_set_REG : sparc_simpl.

(** ** Well-formedness is preserved by every update *)
Lemma wf_set_REG s x v : state_wf s -> state_wf (set_REG s x v).
Proof.
  intros []. unfold set_REG.
  case_match; split; cbn; rewrite ?length_updZ; auto using updZ_Forall with words.
Qed.

Lemma wf_set_FPREG s x v : state_wf s -> state_wf (set_FPREG s x v).
Proof. intros []. split; cbn; rewrite ?length_updZ; auto using updZ_Forall with words. Qed.

Lemma wf_set_YREG s v : is_u32 v -> state_wf s -> state_wf (set_YREG s v).
Proof. intros ? []. by split. Qed.
Lemma wf_set_WIMREG s v : is_u32 v -> state_wf s -> state_wf (set_WIMREG s v).
Proof. intros ? []. by split. Qed.
Lemma wf_set_TBRREG s v : is_u32 v -> state_wf s -> state_wf (set_TBRREG s v).
Proof. intros ? []. by split. Qed.
Lemma wf_set_PCREG s v : is_u32 v -> state_wf s -> state_wf (set_PCREG s v).
Proof. intros ? []. by split. Qed.
Lemma wf_set_NPCREG s v : is_u32 v -> state_wf s -> state_wf (set_NPCREG s v).
Proof. intros ? []. by split. Qed.
Lemma wf_set_irq_pending s v : state_wf s -> state_wf (set_irq_pending s v).
Proof. intros []. by split. Qed.
Lemma wf_set_cycle_counter s v : state_wf s -> state_wf (set_cycle_counter s v).
Proof. intros []. by split. Qed.

(** A new PSR value keeps the state well formed as long as it keeps the
    current window. *)
Lemma wf_set_PSRREG s v :
  is_u32 v -> bits v 4 0 = CWP s -> state_wf s -> state_wf (set_PSRREG s v).
Proof. intros ? Hc []. split; cbn; rewrite ?CWP_set_PSRREG, ?Hc; auto. Qed.

Lemma wf_step_pc s : state_wf s -> state_wf (step_pc s).
Proof.
  intros H. apply wf_set_NPCREG; [apply u32_range|]. apply wf_set_PCREG; [apply H|done].
Qed.

Lemma wf_when b f s : (state_wf s -> state_wf (f s)) -> state_wf s -> state_wf (when b f s).
Proof. destruct b; cbn; auto. Qed.

#[export] Hint Resolve wf_set_REG wf_set_FPREG wf_set_YREG wf_set_WIMREG wf_set_TBRREG wf_set_PCREG
  wf_set_NPCREG wf_set_irq_pending wf_set_cycle_counter wf_step_pc : sparc.

(** ** PSR bits other than the window pointer *)
Lemma bits_4_0_testbit a b :
  (forall i, 0 <= i < 5 -> Z.testbit a i = Z.testbit b i) -> bits a 4 0 = bits b 4 0.
Proof.
  intros H. rewrite !bits_spec by lia. change (2 ^ (4 - 0 + 1)) with (2 ^ 5).
  rewrite !Z.div_1_r. apply Z.bits_inj'. intros i Hi.
  destruct (Z.lt_ge_cases i 5).
  - rewrite !Z.mod_pow2_bits_low by lia. apply H. lia.
  - rewrite !Z.mod_pow2_bits_high by lia. done.
Qed.

Lemma cwp_set_bit p k : 5 <= k <= 31 -> bits (set_bit p k) 4 0 = bits p 4 0.
Proof.
  intros. apply bits_4_0_testbit. intros i Hi.
  rewrite testbit_set_bit by lia. destruct (Z.eqb_spec i k); [lia|]. apply orb_false_r.
Qed.

Lemma cwp_clear_bit p k : is_u32 p -> 5 <= k <= 31 -> bits (clear_bit p k) 4 0 = bits p 4 0.
Proof.
  intros. apply bits_4_0_testbit. intros i Hi.
  rewrite testbit_clear_bit by (auto; lia).
  destruct (Z.eqb_spec i k); [lia|]. apply andb_true_r.
Qed.

Lemma wf_psr_set_bit s k :
  5 <= k <= 31 -> state_wf s -> state_wf (set_PSRREG s (set_bit (PSRREG s) k)).
Proof.
  intros Hk H. apply wf_set_PSRREG; [| by apply cwp_set_bit | done].
  apply set_bit_u32; [lia | apply H].
Qed.

Lemma wf_psr_clear_bit s k :
  5 <= k <= 31 -> state_wf s -> state_wf (set_PSRREG s (clear_bit (PSRREG s) k)).
Proof.
  intros Hk H. apply wf_set_PSRREG; [| by apply cwp_clear_bit; [apply H|] | done].
  apply clear_bit_u32, H.
Qed.

Lemma wf_clear_icc s : state_wf s -> state_wf (clear_icc s).
Proof. intros. unfold clear_icc. repeat (apply wf_psr_clear_bit; [unfold PSR_icc_Z, PSR_icc_N, PSR_icc_V, PSR_icc_C; lia|]). done. Qed.

Lemma wf_psr_set_carry s : state_wf s -> state_wf (psr_set_carry s).
Proof. apply wf_psr_set_bit. unfold PSR_icc_C; lia. Qed.
Lemma wf_psr_set_overflow s : state_wf s -> state_wf (psr_set_overflow s).
Proof. apply wf_psr_set_bit. unfold PSR_icc_V; lia. Qed.
Lemma wf_psr_set_zero s : state_wf s -> state_wf (psr_set_zero s).
Proof. apply wf_psr_set_bit. unfold PSR_icc_Z; lia. Qed.
Lemma wf_psr_set_neg s : state_wf s -> state_wf (psr_set_neg s).
Proof. apply wf_psr_set_bit. unfold PSR_icc_N; lia. Qed.

#[export] Hint Resolve wf_clear_icc wf_psr_set_carry wf_psr_set_overflow wf_psr_set_zero
  wf_psr_set_neg wf_when wf_psr_set_bit wf_psr_clear_bit : sparc.
