(* ===== verification/Windows.v ===== *)
(** * Register windows

    [memcpy32] (src/arch_sparc/common/helper.c) and [iu_set_cwp], [iu_sub_cwp],
    [iu_add_cwp] (src/arch_sparc/common/iu.c).

    The architecture promises a circular file of 128 windowed registers in
    which the outs of window [w] are the ins of window [w - 1 mod 8].  The code
    keeps the windows in a flat array and lets window 7 spill over its end, into
    a private copy of the outs of window 0 that it brings up to date when the
    window pointer enters or leaves window 7.  [window_file] is the circular
    file, [abs_windows] the abstraction, and the lemmas show that register
    accesses and window moves of the flat array implement those of the
    circular file. *)

From Stdlib Require Import ZArith Lia Bool.
From stdpp Require Import base numbers option list.
From S2P Require Import Prelude Words SparcState.

(** ** The code *)

(** [memcpy32(d, s)]: eight words, in order, inside [regbase]. *)
Fixpoint copy_words (n : nat) (l : list Z) (d s : Z) : list Z :=
  match n with
  | O => l
  | S k => let l := copy_words k l d s in updZ l (d + Z.of_nat k) (nthZ l (s + Z.of_nat k))
  end.

Definition memcpy32 (l : list Z) (d s : Z) : list Z := copy_words 8 l d s.

Definition iu_set_cwp (env : sparc_state) (new_cwp : Z) : sparc_state :=
  let env := when (CWP env =? N_WINDOWS - 1)
    (fun env => set_regbase env (memcpy32 (regbase env) 0 (N_WINDOWS * 16))) env in
  let env := set_PSRREG env (clear_bits (PSRREG env) PSR_CWP_last PSR_CWP_first) in
  let env := set_PSRREG env (Z.lor (PSRREG env) new_cwp) in
  let env := when (new_cwp =? N_WINDOWS - 1)
    (fun env => set_regbase env (memcpy32 (regbase env) (N_WINDOWS * 16) 0)) env in
  set_regwptr1 env (new_cwp * 16).

(** Both return the new window pointer. *)
Definition iu_sub_cwp (s : sparc_state) : Z * sparc_state :=
  let s := set_REG s 0 0 in
  let cwp := CWP s in
  let cwp := Z.land (u32 (cwp - 1)) (N_WINDOWS - 1) in
  (cwp, iu_set_cwp s cwp).

Definition iu_add_cwp (s : sparc_state) : Z * sparc_state :=
  let s := set_REG s 0 0 in
  let cwp := CWP s in
  let cwp := Z.land (u32 (cwp + 1)) (N_WINDOWS - 1) in
  (cwp, iu_set_cwp s cwp).

#[global] Arguments iu_set_cwp : simpl never.
#[global] Arguments iu_sub_cwp : simpl never.
#[global] Arguments iu_add_cwp : simpl never.

(** ** The circular file *)

Record window_file : Type := { win_current : Z; win_slots : list Z }.

(** The slot of register [x] (8 to 31) of window [w]. *)
Definition win_slot (w x : Z) : Z := (16 * w + (x - 8)) mod 128.

Definition win_get (f : window_file) (x : Z) : Z :=
  nthZ (win_slots f) (win_slot (win_current f) x).
Definition win_put (f : window_file) (x v : Z) : window_file :=
  {| win_current := win_current f;
     win_slots := updZ (win_slots f) (win_slot (win_current f) x) v |}.
Definition win_rotate (f : window_file) (w : Z) : window_file :=
  {| win_current := w; win_slots := win_slots f |}.

(** Where the flat array keeps a slot: the outs of window 0 live in the spill
    area while window 7 is current. *)
Definition slot_index (s : sparc_state) (i : Z) : Z :=
  if (CWP s =? N_WINDOWS - 1) && (i <? 8) then N_WINDOWS * 16 + i else i.

Definition abs_windows (s : sparc_state) : window_file :=
  {| win_current := CWP s;
     win_slots := (fun i => nthZ (regbase s) (slot_index s (Z.of_nat i))) <$> seq 0 128 |}.

(** ** Lemmas on the flat array *)

Lemma length_copy_words n l d s : length (copy_words n l d s) = length l.
Proof. induction n as [|k IH]; cbn; [done|]. by rewrite length_updZ. Qed.

Lemma nthZ_copy_words n l d s j :
  0 <= d -> 0 <= s -> 0 <= j -> d + Z.of_nat n <= Z.of_nat (length l) ->
  (s + Z.of_nat n <= d \/ d + Z.of_nat n <= s) ->
  nthZ (copy_words n l d s) j
  = if (d <=? j) && (j <? d + Z.of_nat n) then nthZ l (s + (j - d)) else nthZ l j.
Proof.
  intros Hd Hs Hj. revert j Hj. induction n as [|k IH]; intros j Hj Hlen Hsep; cbn -[Z.of_nat].
  - destruct (Z.leb_spec d j), (Z.ltb_spec j (d + Z.of_nat 0)); cbn; lia || done.
  - rewrite nthZ_updZ by (rewrite ?length_copy_words; lia).
    rewrite !IH by lia.
    destruct (Z.eqb_spec j (d + Z.of_nat k)) as [->|].
    + rewrite (proj2 (Z.leb_le d (d + _))), (proj2 (Z.ltb_lt (d + _) _)) by lia. cbn.
      replace ((d <=? s + Z.of_nat k) && (s + Z.of_nat k <? d + Z.of_nat k)) with false
        by (symmetry; apply andb_false_iff; rewrite Z.leb_gt, Z.ltb_ge; lia).
      f_equal. lia.
    + destruct (Z.leb_spec d j), (Z.ltb_spec j (d + Z.of_nat k)),
        (Z.ltb_spec j (d + Z.of_nat (S k))); cbn; lia || done.
Qed.

Lemma copy_words_Forall (P : Z -> Prop) n l d s :
  P 0 -> Forall P l -> Forall P (copy_words n l d s).
Proof.
  intros H0 Hl. induction n as [|k IH]; cbn; [done|].
  apply updZ_Forall; [by apply nthZ_Forall | done].
Qed.

Lemma nthZ_memcpy32 l d s j :
  0 <= d -> 0 <= s -> 0 <= j -> d + 8 <= Z.of_nat (length l) -> (s + 8 <= d \/ d + 8 <= s) ->
  nthZ (memcpy32 l d s) j
  = if (d <=? j) && (j <? d + 8) then nthZ l (s + (j - d)) else nthZ l j.
Proof. intros. by apply (nthZ_copy_words 8). Qed.

#[global] Arguments memcpy32 : simpl never.

(** ** The PSR after a window move *)

Lemma bits_low_disjoint_or p n :
  is_u32 p -> 0 <= n < 32 ->
  bits (Z.lor (clear_bits p 4 0) n) 4 0 = n.
Proof.
  intros Hp Hn. rewrite bits_spec by lia. rewrite Z.div_1_r.
  change (4 - 0 + 1) with 5. apply Z.bits_inj'. intros i Hi.
  destruct (Z.lt_ge_cases i 5).
  - rewrite Z.mod_pow2_bits_low, Z.lor_spec, testbit_clear_bits by (auto; lia).
    rewrite (proj2 (Z.leb_le 0 i)), (proj2 (Z.leb_le i 4)) by lia. cbn.
    by rewrite andb_false_r.
  - rewrite Z.mod_pow2_bits_high by lia.
    rewrite <- (Z.mod_small n (2 ^ 5)) by lia. by rewrite Z.mod_pow2_bits_high by lia.
Qed.

Lemma PSRREG_iu_set_cwp s n :
  PSRREG (iu_set_cwp s n) = Z.lor (clear_bits (PSRREG s) 4 0) n.
Proof. unfold iu_set_cwp. destruct (CWP s =? N_WINDOWS - 1), (n =? N_WINDOWS - 1); reflexivity. Qed.

Lemma CWP_iu_set_cwp s n : state_wf s -> 0 <= n < 8 -> CWP (iu_set_cwp s n) = n.
Proof.
  intros Hwf Hn. unfold CWP. rewrite PSRREG_iu_set_cwp.
  apply bits_low_disjoint_or; [apply Hwf | lia].
Qed.

(** Bits of the PSR above the window pointer do not move. *)
Lemma testbit_iu_set_cwp s n i :
  state_wf s -> 0 <= n < 8 -> 5 <= i ->
  Z.testbit (PSRREG (iu_set_cwp s n)) i = Z.testbit (PSRREG s) i.
Proof.
  intros Hwf Hn Hi. rewrite PSRREG_iu_set_cwp, Z.lor_spec, testbit_clear_bits
    by (try apply Hwf; lia).
  rewrite (proj2 (Z.leb_gt i 4)), andb_false_r by lia. cbn. rewrite andb_true_r.
  rewrite <- (Z.mod_small n (2 ^ 5)) by lia. rewrite Z.mod_pow2_bits_high by lia.
  apply orb_false_r.
Qed.

Lemma regbase_iu_set_cwp s n :
  regbase (iu_set_cwp s n) =
    let l := if CWP s =? 7 then memcpy32 (regbase s) 0 128 else regbase s in
    if n =? 7 then memcpy32 l 128 0 else l.
Proof.
  unfold iu_set_cwp. change (N_WINDOWS - 1) with 7. change (N_WINDOWS * 16) with 128.
  destruct (CWP s =? 7), (n =? 7); reflexivity.
Qed.

Lemma wf_iu_set_cwp s n : state_wf s -> 0 <= n < 8 -> state_wf (iu_set_cwp s n).
Proof.
  intros Hwf Hn. pose proof (CWP_iu_set_cwp s n Hwf Hn) as HC. destruct Hwf.
  assert (Hp : regwptr1 (iu_set_cwp s n) = n * 16).
  { unfold iu_set_cwp. destruct (CWP s =? N_WINDOWS - 1), (n =? N_WINDOWS - 1); reflexivity. }
  split; rewrite ?HC, ?Hp; unfold N_WINDOWS; try lia;
    rewrite ?regbase_iu_set_cwp, ?PSRREG_iu_set_cwp.
  2, 5: cbv zeta; destruct (CWP s =? 7), (n =? 7); unfold memcpy32;
    rewrite ?length_copy_words; repeat apply copy_words_Forall; auto with words.
  6: apply lor_u32; auto with words.
  all: unfold iu_set_cwp; destruct (CWP s =? N_WINDOWS - 1), (n =? N_WINDOWS - 1); assumption.
Qed.

(** A window move touches nothing but the PSR, the window pointer and the
    spill area. *)
Section frame.
Context (s : sparc_state) (n : Z).
Ltac t := unfold iu_set_cwp; destruct (CWP s =? N_WINDOWS - 1), (n =? N_WINDOWS - 1); reflexivity.
Lemma global_iu_set_cwp : global (iu_set_cwp s n) = global s. Proof. t. Qed.
Lemma fp_regs_iu_set_cwp : fp_regs (iu_set_cwp s n) = fp_regs s. Proof. t. Qed.
Lemma YREG_iu_set_cwp : YREG (iu_set_cwp s n) = YREG s. Proof. t. Qed.
Lemma WIMREG_iu_set_cwp : WIMREG (iu_set_cwp s n) = WIMREG s. Proof. t. Qed.
Lemma TBRREG_iu_set_cwp : TBRREG (iu_set_cwp s n) = TBRREG s. Proof. t. Qed.
Lemma PCREG_iu_set_cwp : PCREG (iu_set_cwp s n) = PCREG s. Proof. t. Qed.
Lemma NPCREG_iu_set_cwp : NPCREG (iu_set_cwp s n) = NPCREG s. Proof. t. Qed.
Lemma irq_pending_iu_set_cwp : irq_pending (iu_set_cwp s n) = irq_pending s. Proof. t. Qed.
End frame.

#[export] Hint Rewrite global_iu_set_cwp fp_regs_iu_set_cwp YREG_iu_set_cwp WIMREG_iu_set_cwp
  TBRREG_iu_set_cwp PCREG_iu_set_cwp NPCREG_iu_set_cwp irq_pending_iu_set_cwp : sparc_simpl.

(** ** The three simulation steps *)

Lemma nthZ_abs_slots s i :
  0 <= i < 128 -> nthZ (win_slots (abs_windows s)) i = nthZ (regbase s) (slot_index s i).
Proof.
  intros Hi. unfold abs_windows, win_slots, nthZ at 1.
  rewrite (proj2 (Z.leb_le 0 i)) by lia.
  rewrite nth_lookup_Z, list_lookup_fmap, lookup_seq_lt by lia. cbn.
  by rewrite Z2Nat.id by lia.
Qed.

Lemma length_abs_slots s : length (win_slots (abs_windows s)) = 128%nat.
Proof. cbn [win_slots abs_windows]. by rewrite length_fmap, length_seq. Qed.

(** Registers of a window sit in the flat array where the window pointer says. *)
Lemma slot_index_win_slot s x :
  state_wf s -> 8 <= x < 32 -> slot_index s (win_slot (CWP s) x) = regwptr1 s + (x - 8).
Proof.
  intros [] Hx. pose proof (CWP_nonneg s). unfold N_WINDOWS in *.
  unfold slot_index, win_slot, N_WINDOWS. rewrite wf_regwptr1.
  destruct (Z.eqb_spec (CWP s) (8 - 1)); cbn;
    [destruct (Z.ltb_spec ((16 * CWP s + (x - 8)) mod 128) 8)|];
    Z.div_mod_to_equations; lia.
Qed.

Lemma win_slot_range w x : 0 <= win_slot w x < 128.
Proof. unfold win_slot. apply Z.mod_pos_bound. lia. Qed.

Lemma abs_get s x : state_wf s -> 8 <= x < 32 -> win_get (abs_windows s) x = REG s x.
Proof.
  intros Hwf Hx. unfold win_get. cbn [win_current abs_windows].
  rewrite nthZ_abs_slots by apply win_slot_range.
  rewrite slot_index_win_slot by done. unfold REG. destruct (Z.gtb_spec x 7); [done|lia].
Qed.

Lemma slot_index_inj s i j :
  0 <= i < 128 -> 0 <= j < 128 -> slot_index s i = slot_index s j -> i = j.
Proof.
  intros Hi Hj. unfold slot_index, N_WINDOWS.
  destruct (CWP s =? 8 - 1); cbn; [|done].
  destruct (Z.ltb_spec i 8), (Z.ltb_spec j 8); lia.
Qed.

Lemma slot_index_range s i : 0 <= i < 128 -> 0 <= slot_index s i < 136.
Proof.
  intros. unfold slot_index, N_WINDOWS. destruct (CWP s =? 8 - 1); cbn; [|lia].
  destruct (Z.ltb_spec i 8); lia.
Qed.

Lemma abs_put s x v :
  state_wf s -> 8 <= x < 32 -> is_u32 v ->
  abs_windows (set_REG s x v) = win_put (abs_windows s) x v.
Proof.
  intros Hwf Hx Hv. unfold win_put. cbn [win_current abs_windows].
  assert (HC : CWP (set_REG s x v) = CWP s) by apply CWP_set_REG.
  destruct (abs_windows (set_REG s x v)) as [c l] eqn:E.
  assert (c = CWP (set_REG s x v)) as -> by (by injection E).
  rewrite HC. f_equal.
  assert (l = win_slots (abs_windows (set_REG s x v))) as -> by (by rewrite E).
  apply nthZ_inj; [by rewrite length_updZ, !length_abs_slots|].
  rewrite length_abs_slots. intros i Hi.
  rewrite nthZ_updZ by (rewrite ?length_abs_slots; pose proof (win_slot_range (CWP s) x); lia).
  rewrite !nthZ_abs_slots by lia.
  assert (HS : slot_index (set_REG s x v) i = slot_index s i)
    by (unfold slot_index; by rewrite HC).
  rewrite HS. unfold set_REG. destruct (Z.gtb_spec x 7); [|lia]. cbn [regbase set_regbase].
  rewrite <- (slot_index_win_slot s x) by done. rewrite (u32_id v Hv).
  pose proof (slot_index_range s (win_slot (CWP s) x) (win_slot_range _ _)).
  pose proof (slot_index_range s i ltac:(lia)).
  rewrite nthZ_updZ by (rewrite ?wf_regbase_len by done; lia).
  destruct (Z.eqb_spec i (win_slot (CWP s) x)) as [->|Hne]; [by rewrite Z.eqb_refl|].
  destruct (Z.eqb_spec (slot_index s i) (slot_index s (win_slot (CWP s) x))) as [He|]; [|done].
  apply slot_index_inj in He; [done | lia | apply win_slot_range].
Qed.

Lemma slot_iu_set_cwp s n i :
  state_wf s -> 0 <= n < 8 -> 0 <= i < 128 ->
  nthZ (regbase (iu_set_cwp s n)) (slot_index (iu_set_cwp s n) i)
  = nthZ (regbase s) (slot_index s i).
Proof.
  intros Hwf Hn Hi. unfold slot_index. rewrite CWP_iu_set_cwp, regbase_iu_set_cwp by done.
  change (N_WINDOWS - 1) with 7. change (N_WINDOWS * 16) with 128. cbv zeta.
  pose proof (wf_regbase_len s Hwf) as Hl.
  assert (Hl' : length (memcpy32 (regbase s) 0 128) = 520%nat)
    by (unfold memcpy32; by rewrite length_copy_words).
  destruct (CWP s =? 7), (n =? 7), (Z.ltb_spec i 8); cbn [andb];
    repeat first
    [ rewrite nthZ_memcpy32 by (rewrite ?Hl, ?Hl'; lia)
    | match goal with
      | |- context [?a <=? ?b] => destruct (Z.leb_spec a b)
      | |- context [?a <? ?b] => destruct (Z.ltb_spec a b)
      end; cbn [andb]; try lia ];
    f_equal; lia.
Qed.

Lemma abs_rotate s n :
  state_wf s -> 0 <= n < 8 -> abs_windows (iu_set_cwp s n) = win_rotate (abs_windows s) n.
Proof.
  intros Hwf Hn.
  assert (Hs : win_slots (abs_windows (iu_set_cwp s n)) = win_slots (abs_windows s)).
  { apply nthZ_inj; [by rewrite !length_abs_slots|]. rewrite length_abs_slots. intros i Hi.
    rewrite !nthZ_abs_slots by lia. by apply slot_iu_set_cwp. }
  unfold win_rotate. rewrite <- Hs. unfold abs_windows at 1. by rewrite CWP_iu_set_cwp.
Qed.

(** ** Registers across a window move *)

Lemma REG_global s x : x <= 7 -> REG s x = nthZ (global s) x.
Proof. intros. unfold REG. destruct (Z.gtb_spec x 7); [lia|done]. Qed.

Lemma REG_iu_set_cwp_global s n x : x <= 7 -> REG (iu_set_cwp s n) x = REG s x.
Proof. intros. rewrite !REG_global by done. by rewrite global_iu_set_cwp. Qed.

(** Two registers that share a slot of the circular file are the same storage. *)
Lemma REG_iu_set_cwp_slot s n x y :
  state_wf s -> 0 <= n < 8 -> 8 <= x < 32 -> 8 <= y < 32 ->
  win_slot n x = win_slot (CWP s) y -> REG (iu_set_cwp s n) x = REG s y.
Proof.
  intros Hwf Hn Hx Hy He.
  rewrite <- (abs_get (iu_set_cwp s n)) by (auto using wf_iu_set_cwp).
  rewrite <- (abs_get s) by done. rewrite abs_rotate by done.
  unfold win_get, win_rotate. cbn [win_current win_slots]. by rewrite He.
Qed.

(** [iu_sub_cwp] and [iu_add_cwp] move by one window, modulo [N_WINDOWS]. *)
Lemma cwp_step_mod c d :
  Z.land (u32 (c + d)) (N_WINDOWS - 1) = (c + d) mod 8.
Proof.
  change (N_WINDOWS - 1) with (Z.ones 3). rewrite Z.land_ones by lia.
  change (2 ^ 3) with 8. unfold u32. Z.div_mod_to_equations. lia.
Qed.

Lemma iu_sub_cwp_eq s :
  state_wf s ->
  iu_sub_cwp s = ((CWP s - 1) mod 8, iu_set_cwp (set_REG s 0 0) ((CWP s - 1) mod 8)).
Proof.
  intros Hwf. unfold iu_sub_cwp. rewrite CWP_set_REG.
  change (CWP s - 1) with (CWP s + -1). by rewrite cwp_step_mod.
Qed.

Lemma iu_add_cwp_eq s :
  state_wf s ->
  iu_add_cwp s = ((CWP s + 1) mod 8, iu_set_cwp (set_REG s 0 0) ((CWP s + 1) mod 8)).
Proof. intros Hwf. unfold iu_add_cwp. rewrite CWP_set_REG. by rewrite cwp_step_mod. Qed.

Lemma mod8_range z : 0 <= z mod 8 < 8.
Proof. apply Z.mod_pos_bound. lia. Qed.

#[export] Hint Resolve mod8_range : sparc.

Lemma wf_iu_sub_cwp s : state_wf s -> state_wf (iu_sub_cwp s).2.
Proof. intros. rewrite iu_sub_cwp_eq by done. apply wf_iu_set_cwp; auto with sparc. Qed.

Lemma wf_iu_add_cwp s : state_wf s -> state_wf (iu_add_cwp s).2.
Proof. intros. rewrite iu_add_cwp_eq by done. apply wf_iu_set_cwp; auto with sparc. Qed.

#[export] Hint Resolve wf_iu_set_cwp wf_iu_sub_cwp wf_iu_add_cwp : sparc.
