(* ===== verification/Isa.v ===== *)
(** * SPARC machines and instructions

    The state of the simulated machine on a bus ([Bus]), the instruction
    descriptor [sparc_instruction_t] of src/arch_sparc/common/sparc.h, and the
    decoding helpers shared by the files of src/arch_sparc/instructions/.

    Each instruction file keeps the fields it decoded in [static int]
    variables that its [disassemble] sets and its [execute] reads; the
    descriptor therefore carries the type of those variables, [statics], and
    [disassemble] returns their new values. *)

From Stdlib Require Import ZArith Lia Bool.
From stdpp Require Import base numbers option list.
From S2P Require Import Prelude Words Bus SparcState.

(** ** Machines and instructions *)

Record machine (B : Type) : Type := Machine { cpu : sparc_state; bus : B }.
Arguments Machine {B} cpu bus.
Arguments cpu {B} m.
Arguments bus {B} m.

Definition set_cpu {B} (m : machine B) (s : sparc_state) : machine B := Machine s (bus m).
Definition set_bus {B} (m : machine B) (b : B) : machine B := Machine (cpu m) b.

(** [execute] returns the number of cycles it took. *)
Record sparc_instruction (B : Type) : Type := {
  statics : Type;
  execute : statics -> machine B -> result (Z * machine B);
  disassemble : Z -> option statics;
  opcode_mask : Z;
  priviledge : Z;
  format : Z
}.
Arguments statics {B} i : rename.
Arguments execute {B} i o m : rename.
Arguments disassemble {B} i instr : rename.
Arguments opcode_mask {B} i : rename.
Arguments priviledge {B} i : rename.
Arguments format {B} i : rename.

(** An instruction that only touches the processor. *)
Definition lift_cpu {B S : Type} (f : S -> sparc_state -> Z * sparc_state)
    (o : S) (m : machine B) : result (Z * machine B) :=
  let '(c, s) := f o (cpu m) in Val (c, set_cpu m s).

(** The same when the C code may reach undefined behaviour. *)
Definition lift_cpu_res {B S : Type} (f : S -> sparc_state -> result (Z * sparc_state))
    (o : S) (m : machine B) : result (Z * machine B) :=
  let! (c, s) := f o (cpu m) in Val (c, set_cpu m s).

(** ** Format 3: [static int rd, rs1, rs2, imm;] *)
Record f3 : Type := { rd : Z; rs1 : Z; rs2 : Z; imm : Z }.

(** The common body of the [disassemble] functions of format 3; [rs2_last] is
    RS2_OFF_last, 4 everywhere but in i_st.c, i_stf.c and i_stfsr.c. *)
Definition disas_f3 (mask op_ op3_ rs2_last : Z) (instr : Z) : option f3 :=
  let op := bits instr 31 30 in
  let op3 := bits instr 24 19 in
  if tst (Z.land instr mask) && (op =? op_) && (op3 =? op3_) then
    let i := bit instr 13 in
    Some (if tst i
          then {| rd := bits instr 29 25; rs1 := bits instr 18 14; rs2 := -1;
                  imm := bits instr 12 0 |}
          else {| rd := bits instr 29 25; rs1 := bits instr 18 14;
                  rs2 := bits instr rs2_last 0; imm := -1 |})
  else None.

(** Fields in range: exactly one of [rs2] and [imm] is set. *)
Definition f3_wf (o : f3) : Prop :=
  0 <= rd o < 32 /\ 0 <= rs1 o < 32 /\
  ((imm o = -1 /\ 0 <= rs2 o < 32) \/ (rs2 o = -1 /\ 0 <= imm o < 8192)).

Lemma disas_f3_wf mask op op3 instr o : disas_f3 mask op op3 4 instr = Some o -> f3_wf o.
Proof.
  unfold disas_f3. case_match; [|done]. intros [= <-].
  pose proof (bits_range instr 29 25 ltac:(lia) ltac:(lia)).
  pose proof (bits_range instr 18 14 ltac:(lia) ltac:(lia)).
  pose proof (bits_range instr 12 0 ltac:(lia) ltac:(lia)).
  pose proof (bits_range instr 4 0 ltac:(lia) ltac:(lia)).
  unfold f3_wf. case_match; cbn; lia.
Qed.

(** The second operand, as the architecture reads it: a register, or the
    sign-extended 13-bit immediate. *)
Definition operand2 (o : f3) (s : sparc_state) : Z :=
  if imm o <? 0 then REG s (rs2 o) else u32 (sign_ext13 (imm o)).

Lemma operand2_u32 o s : state_wf s -> is_u32 (operand2 o s).
Proof. intros. unfold operand2. case_match; auto with sparc words. Qed.

#[export] Hint Resolve operand2_u32 : sparc words.

(** ** Preservation of a machine invariant by an instruction *)
Definition preserves {B} (P : machine B -> Prop) (i : sparc_instruction B) : Prop :=
  forall instr o m, is_u32 instr -> disassemble i instr = Some o -> P m ->
    holds (fun '(_, m') => P m') (execute i o m).

(** The machine invariant: a well-formed processor on a well-formed bus. *)
Definition machine_wf {B} `{BusLaws B} (m : machine B) : Prop :=
  state_wf (cpu m) /\ bus_inv (bus m).

Section preservation.
Context {B : Type} `{BusLaws B}.

Lemma lift_cpu_wf {S : Type} (f : S -> sparc_state -> Z * sparc_state) o (m : machine B) :
  machine_wf m -> (state_wf (cpu m) -> state_wf (f o (cpu m)).2) ->
  holds (fun '(_, m') => machine_wf m') (lift_cpu f o m).
Proof.
  intros [Hs Hb] Hf. unfold lift_cpu. destruct (f o (cpu m)) as [c s]. split; cbn; auto.
Qed.

Lemma lift_cpu_res_wf {S : Type} (f : S -> sparc_state -> result (Z * sparc_state)) o
    (m : machine B) :
  machine_wf m ->
  (state_wf (cpu m) -> holds (fun '(_, s) => state_wf s) (f o (cpu m))) ->
  holds (fun '(_, m') => machine_wf m') (lift_cpu_res f o m).
Proof.
  intros [Hs Hb] Hf. unfold lift_cpu_res. eapply holds_bind; [by apply Hf|].
  intros [c s] ?. split; cbn; auto.
Qed.
End preservation.
