(* ===== verification/Traps.v ===== *)
(** * Traps

    src/arch_sparc/common/traps.c: the trap table, [signal], which records a
    pending trap and its type, and [trigger], which enters the handler. *)

From Stdlib Require Import ZArith Lia Bool.
From stdpp Require Import base numbers option list.
From S2P Require Import Prelude Words SparcState Windows.

(** ** Trap numbers (enum of traps.h): indices of the table *)
Definition RESET := 0.
Definition DATA_STORE_ERROR := 1.
Definition PRIVILEGED_INSTR := 6.
Definition ILLEGAL_INSTR := 7.
Definition FP_DISABLED := 8.
Definition WOF := 12.
Definition WUF := 13.
Definition MEM_ADDR_NOT_ALIGNED := 14.
Definition DIV_BY_ZERO := 21.

Definition TBR_BASE_MASK : Z := 0xFFFFF000.
Definition TBR_TT_MASK : Z := 0x00000FF0.

Definition SPARC_SUCCESS : Z := 0.
Definition SPARC_ERROR : Z := -1.

(** [tt_table], the [tt] and [priority] columns (the mode is NOTRAP in every
    row). *)
Definition tt_table : list (Z * Z) :=
  [(0x00, 1); (0x2B, 2); (0x3C, 2); (0x21, 3); (0x20, 4); (0x01, 5); (0x03, 6); (0x02, 7);
   (0x04, 8); (0x24, 8); (0x25, 8); (0x0B, 8); (0x05, 9); (0x06, 9); (0x07, 10); (0x08, 11);
   (0x28, 11); (0x29, 12); (0x2C, 12); (0x09, 13); (0x0A, 14); (0x2A, 15)].

Definition tt_table_elem : Z := Z.of_nat (length tt_table).

(** [tbr_set_tt(uint16 tt)]. *)
Definition tbr_set_tt (state : sparc_state) (tt : Z) : sparc_state :=
  let tbr := Z.land (Z.shiftl (u16 tt) 4) TBR_TT_MASK in
  let state := set_TBRREG state (Z.land (TBRREG state) TBR_BASE_MASK) in
  set_TBRREG state (Z.lor (TBRREG state) tbr).

(** [signal]: the callers ignore the status, [traps_signal] is what they see.
    [pstate] is the processor state from [init] on. *)
Definition signal (s : sparc_state) (trap : Z) : Z * sparc_state :=
  if trap <? 0 then (SPARC_ERROR, s)
  else
    let s :=
      if trap >=? tt_table_elem then tbr_set_tt s trap
      else if (trap >? 0) || (trap <? tt_table_elem)
           then tbr_set_tt s (nth (Z.to_nat trap) (tt_table.*1) 0)
           else s in
    (SPARC_SUCCESS, set_irq_pending s 1).

Definition traps_signal (s : sparc_state) (trap : Z) : sparc_state := (signal s trap).2.

(** [trigger]: with traps disabled the simulator exits. *)
Definition trigger (s : sparc_state) : result sparc_state :=
  let et := bit (PSRREG s) PSR_ET in
  if tst et then
    let s := set_PSRREG s (clear_bit (PSRREG s) PSR_ET) in
    let S := bit (PSRREG s) PSR_S in
    let s := if tst S then set_PSRREG s (set_bit (PSRREG s) PSR_PS)
             else set_PSRREG s (clear_bit (PSRREG s) PSR_PS) in
    let s := set_PSRREG s (set_bit (PSRREG s) PSR_S) in
    let s := (iu_sub_cwp s).2 in
    let s := set_REG s L1 (PCREG s) in
    let s := set_REG s L2 (NPCREG s) in
    let s := set_PCREG s (TBRREG s) in
    Val (set_NPCREG s (u32 (TBRREG s + 4)))
  else Exit 1.

(** ** Well-formedness *)

Lemma wf_tbr_set_tt s tt : state_wf s -> state_wf (tbr_set_tt s tt).
Proof.
  intros Hwf. unfold tbr_set_tt.
  apply wf_set_TBRREG; [|apply wf_set_TBRREG; [|done]].
  - cbn. apply lor_u32; [apply land_u32; [apply Hwf | unfold TBR_BASE_MASK; lia]|].
    rewrite Z.land_comm. apply land_u32; [unfold is_u32, TBR_TT_MASK; lia|].
    apply Z.shiftl_nonneg. unfold u16. apply Z.mod_pos_bound. lia.
  - apply land_u32; [apply Hwf | unfold TBR_BASE_MASK; lia].
Qed.

Lemma wf_traps_signal s trap : state_wf s -> state_wf (traps_signal s trap).
Proof.
  intros Hwf. unfold traps_signal, signal. repeat case_match; cbn;
    auto using wf_tbr_set_tt, wf_set_irq_pending.
Qed.

#[export] Hint Resolve wf_tbr_set_tt wf_traps_signal : sparc.

(** The PSR and window part of [trigger], before the registers are saved. *)
Definition trap_psr (s : sparc_state) : sparc_state :=
  let s := set_PSRREG s (clear_bit (PSRREG s) PSR_ET) in
  let s := if tst (bit (PSRREG s) PSR_S) then set_PSRREG s (set_bit (PSRREG s) PSR_PS)
           else set_PSRREG s (clear_bit (PSRREG s) PSR_PS) in
  set_PSRREG s (set_bit (PSRREG s) PSR_S).

Lemma wf_trap_psr s : state_wf s -> state_wf (trap_psr s).
Proof.
  intros Hwf. unfold trap_psr. apply wf_psr_set_bit; [unfold PSR_S; lia|].
  assert (Hc : state_wf (set_PSRREG s (clear_bit (PSRREG s) PSR_ET)))
    by (apply wf_psr_clear_bit; [unfold PSR_ET; lia | done]).
  case_match; [apply wf_psr_set_bit | apply wf_psr_clear_bit]; auto; unfold PSR_PS; lia.
Qed.

Lemma trigger_eq s :
  trigger s =
  if tst (bit (PSRREG s) PSR_ET) then
    let s := (iu_sub_cwp (trap_psr s)).2 in
    let s := set_REG s L1 (PCREG s) in
    let s := set_REG s L2 (NPCREG s) in
    let s := set_PCREG s (TBRREG s) in
    Val (set_NPCREG s (u32 (TBRREG s + 4)))
  else Exit 1.
Proof. reflexivity. Qed.

Lemma wf_trigger s : state_wf s -> holds state_wf (trigger s).
Proof.
  intros Hwf. rewrite trigger_eq. case_match; [|done]. cbv zeta. unfold holds.
  pose proof (wf_iu_sub_cwp _ (wf_trap_psr s Hwf)) as Hs.
  apply wf_set_NPCREG; [apply u32_range|].
  apply wf_set_PCREG; [rewrite !TBRREG_set_REG; apply Hs|]. by do 2 apply wf_set_REG.
Qed.

(** A signal changes nothing but the trap type and the pending flag. *)
Section frame.
Context (s : sparc_state) (t : Z).
Ltac go := unfold traps_signal, signal; repeat case_match; reflexivity.
Lemma PCREG_traps_signal : PCREG (traps_signal s t) = PCREG s. Proof. go. Qed.
Lemma NPCREG_traps_signal : NPCREG (traps_signal s t) = NPCREG s. Proof. go. Qed.
Lemma PSRREG_traps_signal : PSRREG (traps_signal s t) = PSRREG s. Proof. go. Qed.
Lemma global_traps_signal : global (traps_signal s t) = global s. Proof. go. Qed.
Lemma regbase_traps_signal : regbase (traps_signal s t) = regbase s. Proof. go. Qed.
Lemma regwptr1_traps_signal : regwptr1 (traps_signal s t) = regwptr1 s. Proof. go. Qed.
Lemma REG_traps_signal x : REG (traps_signal s t) x = REG s x. Proof. go. Qed.
End frame.

#[export] Hint Rewrite PCREG_traps_signal NPCREG_traps_signal PSRREG_traps_signal
  global_traps_signal regbase_traps_signal regwptr1_traps_signal REG_traps_signal : sparc_simpl.
