(* ===== verification/SparcAlu.v ===== *)
(** * Arithmetic, logic, shift and multiply instructions

    The [execute] and [disassemble] functions of the files of
    src/arch_sparc/instructions/ that compute on registers: ADD to XNOR, the
    shifts, UMUL, SMUL, UDIV, MULSCC, SETHI and NOP.  A register is written
    through [set_REG], whose conversion to uint32 is the wrap-around of the C
    expression; a C [int] that receives a register is [s32] of it. *)

From Stdlib Require Import ZArith Lia Bool.
From stdpp Require Import base numbers option list.
From S2P Require Import Prelude Words SparcState Windows Bus Isa Traps.

(** ** i_add.c, i_addx.c, i_sub.c, i_subx.c *)

Definition i_add_execute (o : f3) (s : sparc_state) : Z * sparc_state :=
  let s := if imm o <? 0
    then set_REG s (rd o) (REG s (rs1 o) + REG s (rs2 o))
    else set_REG s (rd o) (REG s (rs1 o) + sign_ext13 (imm o)) in
  (1, step_pc s).
Definition i_add_disassemble : Z -> option f3 := disas_f3 0x80000000 0x2 0x00 4.
Definition i_add {B} : sparc_instruction B :=
  {| statics := f3; execute := lift_cpu i_add_execute; disassemble := i_add_disassemble;
     opcode_mask := 0x80000000; priviledge := 0; format := 0x2 |}.

Definition i_addx_execute (o : f3) (s : sparc_state) : Z * sparc_state :=
  let c := psr_get_carry s in
  let s := if imm o <? 0
    then set_REG s (rd o) (REG s (rs1 o) + REG s (rs2 o) + c)
    else set_REG s (rd o) (REG s (rs1 o) + sign_ext13 (imm o) + c) in
  (1, step_pc s).
Definition i_addx_disassemble : Z -> option f3 := disas_f3 0x80400000 0x2 0x08 4.
Definition i_addx {B} : sparc_instruction B :=
  {| statics := f3; execute := lift_cpu i_addx_execute; disassemble := i_addx_disassemble;
     opcode_mask := 0x80400000; priviledge := 0; format := 0x2 |}.

Definition i_sub_execute (o : f3) (s : sparc_state) : Z * sparc_state :=
  let s := if imm o <? 0
    then set_REG s (rd o) (REG s (rs1 o) - REG s (rs2 o))
    else set_REG s (rd o) (REG s (rs1 o) - sign_ext13 (imm o)) in
  (1, step_pc s).
Definition i_sub_disassemble : Z -> option f3 := disas_f3 0x80200000 0x2 0x04 4.
Definition i_sub {B} : sparc_instruction B :=
  {| statics := f3; execute := lift_cpu i_sub_execute; disassemble := i_sub_disassemble;
     opcode_mask := 0x80200000; priviledge := 0; format := 0x2 |}.

Definition i_subx_execute (o : f3) (s : sparc_state) : Z * sparc_state :=
  let c := psr_get_carry s in
  let s := if imm o <? 0
    then set_REG s (rd o) (REG s (rs1 o) - REG s (rs2 o) - c)
    else set_REG s (rd o) (REG s (rs1 o) - sign_ext13 (imm o) - c) in
  (1, step_pc s).
Definition i_subx_disassemble : Z -> option f3 := disas_f3 0x80600000 0x2 0x0c 4.
Definition i_subx {B} : sparc_instruction B :=
  {| statics := f3; execute := lift_cpu i_subx_execute; disassemble := i_subx_disassemble;
     opcode_mask := 0x80600000; priviledge := 0; format := 0x2 |}.

(** ** i_addcc.c, i_addxcc.c: the condition codes from the three sign bits *)

(** C's tests on the top bits of the operands and of the result. *)
Definition add_carry_bits (Sm Dm Rm : bool) : bool := (Sm && Dm) || (negb Rm && (Dm || Sm)).
Definition add_overflow_bits (Sm Dm Rm : bool) : bool :=
  (Sm && Dm && negb Rm) || (negb Sm && negb Dm && Rm).
Definition sub_carry_bits (Sm Dm Rm : bool) : bool := (negb Sm && Dm) || (Rm && (negb Sm || Dm)).
Definition sub_overflow_bits (Sm Dm Rm : bool) : bool :=
  (Sm && negb Dm && negb Rm) || (negb Sm && Dm && Rm).

Definition i_addcc_execute (o : f3) (s : sparc_state) : Z * sparc_state :=
  let x := REG s (rs1 o) in
  let '(y, z, s) := if imm o <? 0
    then let y := REG s (rs2 o) in
         let z := u32 (REG s (rs1 o) + REG s (rs2 o)) in (y, z, set_REG s (rd o) z)
    else let y := u32 (sign_ext13 (imm o)) in
         let z := u32 (REG s (rs1 o) + sign_ext13 (imm o)) in (y, z, set_REG s (rd o) z) in
  let Sm := tst (bit x 31) in
  let Dm := tst (bit y 31) in
  let Rm := tst (bit z 31) in
  let s := clear_icc s in
  let s := when (add_carry_bits Sm Dm Rm) psr_set_carry s in
  let s := when (add_overflow_bits Sm Dm Rm) psr_set_overflow s in
  let s := when (z =? 0) psr_set_zero s in
  let s := when (tst (bit z 31)) psr_set_neg s in
  (1, step_pc s).
Definition i_addcc_disassemble : Z -> option f3 := disas_f3 0x80800000 0x2 0x10 4.
Definition i_addcc {B} : sparc_instruction B :=
  {| statics := f3; execute := lift_cpu i_addcc_execute; disassemble := i_addcc_disassemble;
     opcode_mask := 0x80800000; priviledge := 0; format := 0x2 |}.

(** Registered nowhere ([iu_isa_register] has it commented out); the carry is
    taken from a comparison with the old contents of the destination. *)
Definition i_addxcc_execute (o : f3) (s : sparc_state) : Z * sparc_state :=
  let c := psr_get_carry s in
  let x := REG s (rs1 o) in
  let src1 := s32 (REG s (rd o)) in
  let '(y, z, s) := if imm o <? 0
    then let y := REG s (rs2 o) in
         let z := u32 (REG s (rs1 o) + REG s (rs2 o) + c) in (y, z, set_REG s (rd o) z)
    else let y := u32 (sign_ext13 (imm o)) in
         let z := u32 (REG s (rs1 o) + sign_ext13 (imm o) + c) in (y, z, set_REG s (rd o) z) in
  let s := clear_icc s in
  let s := when (tst (bit z 31)) psr_set_neg s in
  let s := when (z =? 0) psr_set_zero s in
  let Sm := tst (bit x 31) in
  let Dm := tst (bit y 31) in
  let Rm := tst (bit z 31) in
  let s := when (add_overflow_bits Sm Dm Rm) psr_set_overflow s in
  let s := when (z <=? u32 src1) psr_set_carry s in
  (1, step_pc s).
Definition i_addxcc_disassemble : Z -> option f3 := disas_f3 0x80c00000 0x2 0x18 4.
Definition i_addxcc {B} : sparc_instruction B :=
  {| statics := f3; execute := lift_cpu i_addxcc_execute; disassemble := i_addxcc_disassemble;
     opcode_mask := 0x80c00000; priviledge := 0; format := 0x2 |}.

(** ** i_subcc.c, i_subxcc.c: the second operand is read again after the result is stored *)

Definition i_subcc_execute (o : f3) (s : sparc_state) : Z * sparc_state :=
  let x := s32 (REG s (rs1 o)) in
  let '(y, z, s) := if imm o <? 0
    then let z := s32 (REG s (rs1 o) - REG s (rs2 o)) in
         let s := set_REG s (rd o) z in
         let y := s32 (REG s (rs2 o)) in (y, z, s)
    else let z := s32 (REG s (rs1 o) - sign_ext13 (imm o)) in
         let s := set_REG s (rd o) z in
         let y := sign_ext13 (imm o) in (y, z, s) in
  let s := clear_icc s in
  let s := when (tst (bit z 31)) psr_set_neg s in
  let s := when (z =? 0) psr_set_zero s in
  let Sm := tst (bit x 31) in
  let Dm := tst (bit y 31) in
  let Rm := tst (bit z 31) in
  let s := when (sub_overflow_bits Sm Dm Rm) psr_set_overflow s in
  let s := when (sub_carry_bits Sm Dm Rm) psr_set_carry s in
  (1, step_pc s).
Definition i_subcc_disassemble : Z -> option f3 := disas_f3 0x80a00000 0x2 0x14 4.
Definition i_subcc {B} : sparc_instruction B :=
  {| statics := f3; execute := lift_cpu i_subcc_execute; disassemble := i_subcc_disassemble;
     opcode_mask := 0x80a00000; priviledge := 0; format := 0x2 |}.

Definition i_subxcc_execute (o : f3) (s : sparc_state) : Z * sparc_state :=
  let c := psr_get_carry s in
  let x := s32 (REG s (rs1 o)) in
  let '(y, z, s) := if imm o <? 0
    then let z := s32 (REG s (rs1 o) - REG s (rs2 o) - c) in
         let s := set_REG s (rd o) z in
         let y := s32 (REG s (rs2 o)) in (y, z, s)
    else let z := s32 (REG s (rs1 o) - sign_ext13 (imm o) - c) in
         let s := set_REG s (rd o) z in
         let y := sign_ext13 (imm o) in (y, z, s) in
  let s := clear_icc s in
  let s := when (tst (bit z 31)) psr_set_neg s in
  let s := when (z =? 0) psr_set_zero s in
  let Sm := tst (bit x 31) in
  let Dm := tst (bit y 31) in
  let Rm := tst (bit z 31) in
  let s := when (sub_overflow_bits Sm Dm Rm) psr_set_overflow s in
  let s := when (sub_carry_bits Sm Dm Rm) psr_set_carry s in
  (1, step_pc s).
Definition i_subxcc_disassemble : Z -> option f3 := disas_f3 0x80e00000 0x2 0x1c 4.
Definition i_subxcc {B} : sparc_instruction B :=
  {| statics := f3; execute := lift_cpu i_subxcc_execute; disassemble := i_subxcc_disassemble;
     opcode_mask := 0x80e00000; priviledge := 0; format := 0x2 |}.

(** ** i_and.c, i_andn.c, i_or.c, i_orn.c, i_xor.c, i_xnor.c *)

Definition i_and_execute (o : f3) (s : sparc_state) : Z * sparc_state :=
  let s := if imm o <? 0
    then set_REG s (rd o) (Z.land (REG s (rs1 o)) (REG s (rs2 o)))
    else set_REG s (rd o) (Z.land (REG s (rs1 o)) (u32 (sign_ext13 (imm o)))) in
  (1, step_pc s).
Definition i_and_disassemble : Z -> option f3 := disas_f3 0x80080000 0x2 0x01 4.
Definition i_and {B} : sparc_instruction B :=
  {| statics := f3; execute := lift_cpu i_and_execute; disassemble := i_and_disassemble;
     opcode_mask := 0x80080000; priviledge := 0; format := 0x2 |}.

Definition i_andn_execute (o : f3) (s : sparc_state) : Z * sparc_state :=
  let s := if imm o <? 0
    then set_REG s (rd o) (Z.land (REG s (rs1 o)) (u32 (Z.lnot (REG s (rs2 o)))))
    else set_REG s (rd o) (Z.land (REG s (rs1 o)) (u32 (Z.lnot (sign_ext13 (imm o))))) in
  (1, step_pc s).
Definition i_andn_disassemble : Z -> option f3 := disas_f3 0x80280000 0x2 0x05 4.
Definition i_andn {B} : sparc_instruction B :=
  {| statics := f3; execute := lift_cpu i_andn_execute; disassemble := i_andn_disassemble;
     opcode_mask := 0x80280000; priviledge := 0; format := 0x2 |}.

Definition i_or_execute (o : f3) (s : sparc_state) : Z * sparc_state :=
  let s := if imm o <? 0
    then set_REG s (rd o) (Z.lor (REG s (rs1 o)) (REG s (rs2 o)))
    else set_REG s (rd o) (Z.lor (REG s (rs1 o)) (u32 (sign_ext13 (imm o)))) in
  (1, step_pc s).
Definition i_or_disassemble : Z -> option f3 := disas_f3 0x80100000 0x2 0x02 4.
Definition i_or {B} : sparc_instruction B :=
  {| statics := f3; execute := lift_cpu i_or_execute; disassemble := i_or_disassemble;
     opcode_mask := 0x80100000; priviledge := 0; format := 0x2 |}.

Definition i_orn_execute (o : f3) (s : sparc_state) : Z * sparc_state :=
  let s := if imm o <? 0
    then set_REG s (rd o) (Z.lor (REG s (rs1 o)) (u32 (Z.lnot (REG s (rs2 o)))))
    else set_REG s (rd o) (Z.lor (REG s (rs1 o)) (u32 (Z.lnot (sign_ext13 (imm o))))) in
  (1, step_pc s).
Definition i_orn_disassemble : Z -> option f3 := disas_f3 0x80300000 0x2 0x06 4.
Definition i_orn {B} : sparc_instruction B :=
  {| statics := f3; execute := lift_cpu i_orn_execute; disassemble := i_orn_disassemble;
     opcode_mask := 0x80300000; priviledge := 0; format := 0x2 |}.

Definition i_xor_execute (o : f3) (s : sparc_state) : Z * sparc_state :=
  let s := if imm o <? 0
    then set_REG s (rd o) (Z.lxor (REG s (rs1 o)) (REG s (rs2 o)))
    else set_REG s (rd o) (Z.lxor (REG s (rs1 o)) (u32 (sign_ext13 (imm o)))) in
  (1, step_pc s).
Definition i_xor_disassemble : Z -> option f3 := disas_f3 0x80180000 0x2 0x03 4.
Definition i_xor {B} : sparc_instruction B :=
  {| statics := f3; execute := lift_cpu i_xor_execute; disassemble := i_xor_disassemble;
     opcode_mask := 0x80180000; priviledge := 0; format := 0x2 |}.

Definition i_xnor_execute (o : f3) (s : sparc_state) : Z * sparc_state :=
  let s := if imm o <? 0
    then set_REG s (rd o) (Z.lxor (REG s (rs1 o)) (u32 (Z.lnot (REG s (rs2 o)))))
    else set_REG s (rd o) (Z.lxor (REG s (rs1 o)) (u32 (Z.lnot (sign_ext13 (imm o))))) in
  (1, step_pc s).
Definition i_xnor_disassemble : Z -> option f3 := disas_f3 0x80380000 0x2 0x07 4.
Definition i_xnor {B} : sparc_instruction B :=
  {| statics := f3; execute := lift_cpu i_xnor_execute; disassemble := i_xnor_disassemble;
     opcode_mask := 0x80380000; priviledge := 1; format := 0x2 |}.

(** ** i_andcc.c, i_andncc.c, i_orcc.c *)

Definition i_andcc_execute (o : f3) (s : sparc_state) : Z * sparc_state :=
  let '(z, s) := if imm o <? 0
    then let z := s32 (Z.land (REG s (rs1 o)) (REG s (rs2 o))) in (z, set_REG s (rd o) z)
    else let z := s32 (Z.land (REG s (rs1 o)) (u32 (sign_ext13 (imm o)))) in (z, set_REG s (rd o) z) in
  let s := clear_icc s in
  let s := when (z =? 0) psr_set_zero s in
  let s := when (tst (bit z 31)) psr_set_neg s in
  (1, step_pc s).
Definition i_andcc_disassemble : Z -> option f3 := disas_f3 0x80880000 0x2 0x11 4.
Definition i_andcc {B} : sparc_instruction B :=
  {| statics := f3; execute := lift_cpu i_andcc_execute; disassemble := i_andcc_disassemble;
     opcode_mask := 0x80880000; priviledge := 0; format := 0x2 |}.

Definition i_andncc_execute (o : f3) (s : sparc_state) : Z * sparc_state :=
  let '(z, s) := if imm o <? 0
    then let z := u32 (Z.land (REG s (rs1 o)) (u32 (Z.lnot (REG s (rs2 o))))) in (z, set_REG s (rd o) z)
    else let z := u32 (Z.land (REG s (rs1 o)) (u32 (Z.lnot (sign_ext13 (imm o))))) in (z, set_REG s (rd o) z) in
  let s := clear_icc s in
  let s := when (z =? 0) psr_set_zero s in
  let s := when (tst (bit z 31)) psr_set_neg s in
  (1, step_pc s).
Definition i_andncc_disassemble : Z -> option f3 := disas_f3 0x80A80000 0x2 0x15 4.
Definition i_andncc {B} : sparc_instruction B :=
  {| statics := f3; execute := lift_cpu i_andncc_execute; disassemble := i_andncc_disassemble;
     opcode_mask := 0x80A80000; priviledge := 0; format := 0x2 |}.

(** With a register operand the assignment is commented out: [z] stays 0 and
    the destination is not written. *)
Definition i_orcc_execute (o : f3) (s : sparc_state) : Z * sparc_state :=
  let z := 0 in
  let '(z, s) := if imm o <? 0
    then (z, s)
    else let z := s32 (Z.lor (REG s (rs1 o)) (u32 (sign_ext13 (imm o)))) in
         (z, set_REG s (rd o) z) in
  let s := clear_icc s in
  let s := when (z =? 0) psr_set_zero s in
  let s := when (tst (bit z 31)) psr_set_neg s in
  (1, step_pc s).
Definition i_orcc_disassemble : Z -> option f3 := disas_f3 0x80900000 0x2 0x12 4.
Definition i_orcc {B} : sparc_instruction B :=
  {| statics := f3; execute := lift_cpu i_orcc_execute; disassemble := i_orcc_disassemble;
     opcode_mask := 0x80900000; priviledge := 0; format := 0x2 |}.

(** ** i_sll.c, i_srl.c, i_sra.c *)

(** [disassemble] of the shifts: the immediate is the 5-bit SHCNT, kept in a
    (signed) [char]. *)
Definition disas_shift (mask op_ op3_ : Z) (instr : Z) : option f3 :=
  let op := bits instr 31 30 in
  let op3 := bits instr 24 19 in
  if tst (Z.land instr mask) && (op =? op_) && (op3 =? op3_) then
    Some (if tst (bit instr 13)
          then {| rd := bits instr 29 25; rs1 := bits instr 18 14; rs2 := -1;
                  imm := bits instr 4 0 |}
          else {| rd := bits instr 29 25; rs1 := bits instr 18 14; rs2 := bits instr 4 0;
                  imm := -1 |})
  else None.

(** C shifts of a uint32: undefined from a count of 32 on. *)
Definition shl32 (x n : Z) : result Z :=
  if (0 <=? n) && (n <? 32) then Val (u32 (Z.shiftl x n)) else Undef.
Definition shr32 (x n : Z) : result Z :=
  if (0 <=? n) && (n <? 32) then Val (Z.shiftr x n) else Undef.

Definition i_sll_execute (o : f3) (s : sparc_state) : result (Z * sparc_state) :=
  let value := if imm o <? 0 then REG s (rs2 o) else imm o in
  let! v := shl32 (REG s (rs1 o)) value in
  let s := set_REG s (rd o) v in
  Val (1, step_pc s).
Definition i_sll_disassemble : Z -> option f3 := disas_shift 0x81280000 0x2 0x25.
Definition i_sll {B} : sparc_instruction B :=
  {| statics := f3; execute := lift_cpu_res i_sll_execute; disassemble := i_sll_disassemble;
     opcode_mask := 0x81280000; priviledge := 0; format := 0x2 |}.

Definition i_srl_execute (o : f3) (s : sparc_state) : result (Z * sparc_state) :=
  let! value := if imm o <? 0
    then shr32 (REG s (rs1 o)) (REG s (rs2 o))
    else shr32 (REG s (rs1 o)) (imm o) in
  let s := set_REG s (rd o) value in
  Val (1, step_pc s).
Definition i_srl_disassemble : Z -> option f3 := disas_shift 0x81300000 0x2 0x26.
Definition i_srl {B} : sparc_instruction B :=
  {| statics := f3; execute := lift_cpu_res i_srl_execute; disassemble := i_srl_disassemble;
     opcode_mask := 0x81300000; priviledge := 0; format := 0x2 |}.

(** With a register operand the count [s] is read back after the destination
    is written. *)
Definition i_sra_execute (o : f3) (st : sparc_state) : result (Z * sparc_state) :=
  let sign_bit := Z.shiftr (REG st (rs1 o)) 31 in
  let! (s, st) := if imm o <? 0
    then let! v := shr32 (REG st (rs1 o)) (REG st (rs2 o)) in
         let st := set_REG st (rd o) v in
         Val (s32 (REG st (rs2 o)), st)
    else let! v := shr32 (REG st (rs1 o)) (imm o) in
         let st := set_REG st (rd o) v in
         Val (imm o, st) in
  let! st := if tst sign_bit
    then let x := REG st (rd o) in
         let! ones := shr32 0xFFFFFFFF s in
         let sign_bits := Z.land 0xFFFFFFFF (u32 (Z.lnot ones)) in
         Val (set_REG st (rd o) (Z.lor sign_bits x))
    else Val st in
  Val (1, step_pc st).
Definition i_sra_disassemble : Z -> option f3 := disas_shift 0x81380000 0x2 0x27.
Definition i_sra {B} : sparc_instruction B :=
  {| statics := f3; execute := lift_cpu_res i_sra_execute; disassemble := i_sra_disassemble;
     opcode_mask := 0x81380000; priviledge := 0; format := 0x2 |}.

(** ** i_umul.c, i_smul.c, i_udiv.c *)

(** The product is a uint32 product, widened after it has wrapped. *)
Definition i_umul_execute (o : f3) (s : sparc_state) : Z * sparc_state :=
  let result := if imm o <? 0
    then u64 (u32 (REG s (rs1 o) * REG s (rs2 o)))
    else u64 (u32 (REG s (rs1 o) * u32 (sign_ext13 (imm o)))) in
  let s := set_REG s (rd o) (u32 result) in
  let s := set_YREG s (u32 (Z.shiftr result 32)) in
  (1, step_pc s).
Definition i_umul_disassemble : Z -> option f3 := disas_f3 0x80500000 0x2 0x0a 4.
Definition i_umul {B} : sparc_instruction B :=
  {| statics := f3; execute := lift_cpu i_umul_execute; disassemble := i_umul_disassemble;
     opcode_mask := 0x80500000; priviledge := 0; format := 0x2 |}.

(** [int64 result] of an unsigned product: the conversion zero-extends. *)
Definition i_smul_execute (o : f3) (s : sparc_state) : Z * sparc_state :=
  let result := if imm o <? 0
    then u32 (REG s (rs1 o) * REG s (rs2 o))
    else u32 (REG s (rs1 o) * u32 (sign_ext13 (imm o))) in
  let s := set_REG s (rd o) (s32 result) in
  let s := set_YREG s (u32 (s32 (Z.shiftr result 32))) in
  (1, step_pc s).
Definition i_smul_disassemble : Z -> option f3 := disas_f3 0x80580000 0x2 0x0b 4.
Definition i_smul {B} : sparc_instruction B :=
  {| statics := f3; execute := lift_cpu i_smul_execute; disassemble := i_smul_disassemble;
     opcode_mask := 0x80580000; priviledge := 0; format := 0x2 |}.

(** A zero divisor signals DIV_BY_ZERO and then falls through to the
    advance of the program counters; a negative immediate divides as the
    uint64 it converts to. *)
Definition i_udiv_execute (o : f3) (s : sparc_state) : Z * sparc_state :=
  let dividend := Z.lor (Z.shiftl (YREG s) 32) (REG s (rs1 o)) in
  let s := if imm o <? 0
    then if REG s (rs2 o) =? 0 then traps_signal s DIV_BY_ZERO
         else set_REG s (rd o) (u32 (dividend / REG s (rs2 o)))
    else if imm o =? 0 then traps_signal s DIV_BY_ZERO
         else set_REG s (rd o) (u32 (dividend / u64 (sign_ext13 (imm o)))) in
  (1, step_pc s).
Definition i_udiv_disassemble : Z -> option f3 := disas_f3 0x80700000 0x2 0x0e 4.
Definition i_udiv {B} : sparc_instruction B :=
  {| statics := f3; execute := lift_cpu i_udiv_execute; disassemble := i_udiv_disassemble;
     opcode_mask := 0x80700000; priviledge := 0; format := 0x2 |}.

(** ** i_mulscc.c: one step of a multiplication *)

(** [rrs2 = REG(rs2)] also runs when the operand is an immediate and [rs2] is
    -1; that value is not used, and [REG] gives 0 for it. *)
Definition i_mulscc_execute (o : f3) (s : sparc_state) : Z * sparc_state :=
  let rrs1 := REG s (rs1 o) in
  let rrs2 := REG s (rs2 o) in
  let op1 := bits rrs1 31 1 in
  let op1 := clear_bit op1 31 in
  let N := psr_get_neg s in
  let V := psr_get_overflow s in
  let op1 := if tst (Z.lxor N V) then set_bit op1 31 else op1 in
  let op2 := if bit (YREG s) 0 =? 0 then 0
             else if imm o <? 0 then rrs2 else u32 (sign_ext13 (imm o)) in
  let s := set_REG s (rd o) (op1 + op2) in
  let s := set_YREG s (bits (YREG s) 31 1) in
  let s := if bit rrs1 0 =? 1 then set_YREG s (set_bit (YREG s) 31)
           else set_YREG s (clear_bit (YREG s) 31) in
  let s := clear_icc s in
  let s := when (tst (bit (REG s (rd o)) 31)) psr_set_neg s in
  let s := when (REG s (rd o) =? 0) psr_set_zero s in
  let Sm := tst (bit op1 31) in
  let Dm := tst (bit op2 31) in
  let Rm := tst (bit (REG s (rd o)) 31) in
  let s := when (add_overflow_bits Sm Dm Rm) psr_set_overflow s in
  let s := when (add_carry_bits Sm Dm Rm) psr_set_carry s in
  (1, step_pc s).
Definition i_mulscc_disassemble : Z -> option f3 := disas_f3 0x8120000 0x2 0x24 4.
Definition i_mulscc {B} : sparc_instruction B :=
  {| statics := f3; execute := lift_cpu i_mulscc_execute; disassemble := i_mulscc_disassemble;
     opcode_mask := 0x8120000; priviledge := 0; format := 0x2 |}.

(** ** i_sethi.c, i_nop.c *)

Record sethi_fields : Type := { sethi_rd : Z; imm22 : Z }.

Definition i_sethi_execute (o : sethi_fields) (s : sparc_state) : Z * sparc_state :=
  let s := set_REG s (sethi_rd o) (Z.land (Z.shiftl (imm22 o) 10) 0xFFFFFC00) in
  (1, step_pc s).
Definition i_sethi_disassemble (instr : Z) : option sethi_fields :=
  let op := bits instr 31 30 in
  if tst (Z.land instr 0x01000000) && (op =? 0x0) then
    let op2 := bits instr 24 22 in
    if negb (op2 =? 0x4) then None
    else Some {| sethi_rd := bits instr 29 25; imm22 := bits instr 21 0 |}
  else None.
Definition i_sethi {B} : sparc_instruction B :=
  {| statics := sethi_fields; execute := lift_cpu i_sethi_execute;
     disassemble := i_sethi_disassemble; opcode_mask := 0x01000000; priviledge := 0; format := 0x0 |}.

Definition i_nop_execute (o : unit) (s : sparc_state) : Z * sparc_state := (1, step_pc s).
Definition i_nop_disassemble (instr : Z) : option unit :=
  if Z.lxor instr 0x1000000 =? 0 then Some tt else None.
Definition i_nop {B} : sparc_instruction B :=
  {| statics := unit; execute := lift_cpu i_nop_execute; disassemble := i_nop_disassemble;
     opcode_mask := 0x1000000; priviledge := 0; format := 0x0 |}.

(** ** Well-formedness *)

(** Chains of PSR updates, register writes and the advance of the program
    counters. *)
Ltac wf_chain :=
  repeat first
  [ assumption
  | apply wf_step_pc | apply wf_when; intros | apply wf_psr_set_carry | apply wf_psr_set_overflow
  | apply wf_psr_set_zero | apply wf_psr_set_neg | apply wf_clear_icc | apply wf_set_REG
  | apply wf_traps_signal | apply wf_set_YREG; [auto 6 with sparc words|] ].

(** A processor-only instruction that keeps the state well formed keeps the
    machine well formed. *)
Ltac preserves_cpu :=
  intros instr o m _ _ Hm; cbn [execute statics];
  first [apply lift_cpu_wf | apply lift_cpu_res_wf]; [exact Hm|]; intros Hwf.

Section wf.
Context {B : Type} `{BusLaws B}.

Ltac go f := preserves_cpu; unfold f; cbv zeta;
  repeat case_match; simplify_eq; cbn [snd]; wf_chain.

Lemma i_add_wf : preserves machine_wf i_add. Proof. go i_add_execute. Qed.
Lemma i_addx_wf : preserves machine_wf i_addx. Proof. go i_addx_execute. Qed.
Lemma i_addcc_wf : preserves machine_wf i_addcc. Proof. go i_addcc_execute. Qed.
Lemma i_sub_wf : preserves machine_wf i_sub. Proof. go i_sub_execute. Qed.
Lemma i_subx_wf : preserves machine_wf i_subx. Proof. go i_subx_execute. Qed.
Lemma i_subcc_wf : preserves machine_wf i_subcc. Proof. go i_subcc_execute. Qed.
Lemma i_subxcc_wf : preserves machine_wf i_subxcc. Proof. go i_subxcc_execute. Qed.
Lemma i_and_wf : preserves machine_wf i_and. Proof. go i_and_execute. Qed.
Lemma i_andn_wf : preserves machine_wf i_andn. Proof. go i_andn_execute. Qed.
Lemma i_or_wf : preserves machine_wf i_or. Proof. go i_or_execute. Qed.
Lemma i_orn_wf : preserves machine_wf i_orn. Proof. go i_orn_execute. Qed.
Lemma i_xor_wf : preserves machine_wf i_xor. Proof. go i_xor_execute. Qed.
Lemma i_xnor_wf : preserves machine_wf i_xnor. Proof. go i_xnor_execute. Qed.
Lemma i_andcc_wf : preserves machine_wf i_andcc. Proof. go i_andcc_execute. Qed.
Lemma i_andncc_wf : preserves machine_wf i_andncc. Proof. go i_andncc_execute. Qed.
Lemma i_orcc_wf : preserves machine_wf i_orcc. Proof. go i_orcc_execute. Qed.
Lemma i_umul_wf : preserves machine_wf i_umul. Proof. go i_umul_execute. Qed.
Lemma i_smul_wf : preserves machine_wf i_smul. Proof. go i_smul_execute. Qed.
Lemma i_udiv_wf : preserves machine_wf i_udiv. Proof. go i_udiv_execute. Qed.
Lemma i_sethi_wf : preserves machine_wf i_sethi. Proof. go i_sethi_execute. Qed.
Lemma i_nop_wf : preserves machine_wf i_nop. Proof. go i_nop_execute. Qed.

Lemma i_mulscc_wf : preserves machine_wf i_mulscc.
Proof.
  preserves_cpu. unfold i_mulscc_execute; cbv zeta. cbn [snd].
  wf_chain.
  case_match; apply wf_set_YREG; cbn; auto 6 with sparc words;
    apply wf_set_YREG; auto with sparc words.
Qed.

Ltac go_res := repeat (unfold shl32, shr32; case_match; cbn [rbind holds]); simplify_eq; wf_chain; try done.

Lemma i_sll_wf : preserves machine_wf i_sll.
Proof. preserves_cpu. unfold i_sll_execute; cbv zeta. go_res. Qed.
Lemma i_srl_wf : preserves machine_wf i_srl.
Proof. preserves_cpu. unfold i_srl_execute; cbv zeta. go_res. Qed.
Lemma i_sra_wf : preserves machine_wf i_sra.
Proof. preserves_cpu. unfold i_sra_execute; cbv zeta. go_res. Qed.
End wf.

#[export] Hint Resolve i_add_wf i_addx_wf i_addcc_wf i_sub_wf i_subx_wf i_subcc_wf
  i_subxcc_wf i_and_wf i_andn_wf i_or_wf i_orn_wf i_xor_wf i_xnor_wf i_andcc_wf i_andncc_wf
  i_orcc_wf i_umul_wf i_smul_wf i_udiv_wf i_sethi_wf i_nop_wf i_mulscc_wf i_sll_wf i_srl_wf
  i_sra_wf : isa.
