(* ===== verification/SparcCtl.v ===== *)
(** * Control transfer, window, trap and state-register instructions

    The branches on the integer condition codes, CALL, JMPL, SAVE, RESTORE,
    RETT, TA, FLUSH and the reads and writes of Y, PSR, WIM and TBR, from the
    files of src/arch_sparc/instructions/. *)

From Stdlib Require Import ZArith Lia Bool.
From stdpp Require Import base numbers option list.
From S2P Require Import Prelude Words SparcState Windows Bus Isa Traps SparcAlu.

(** ** Branches (i_ba.c to i_bvs.c) *)

(** [static int disp22, annul]. *)
Record bicc : Type := { annul : Z; disp22 : Z }.

(** [int32 addr = (disp22 << 10) >> 8;] *)
Definition bicc_addr (o : bicc) : Z := Z.shiftr (s32 (Z.shiftl (disp22 o) 10)) 8.

(** The two ends every conditional branch has: the branch not taken, with its
    delay slot annulled or not, and the delayed transfer. *)
Definition bicc_not_taken (o : bicc) (s : sparc_state) : sparc_state :=
  if tst (annul o) then
    let s := set_PCREG s (u32 (NPCREG s + 4)) in
    set_NPCREG s (u32 (NPCREG s + 8))
  else step_pc s.

Definition bicc_taken (o : bicc) (s : sparc_state) : sparc_state :=
  let addr := s32 (bicc_addr o + PCREG s) in
  let s := set_PCREG s (NPCREG s) in
  set_NPCREG s (u32 addr).

(** [disassemble]: [op2] is not looked at. *)
Definition disas_bicc (mask cond_ : Z) (instr : Z) : option bicc :=
  let op := bits instr 31 30 in
  let annul := bit instr 29 in
  let cond := bits instr 28 25 in
  if tst (Z.land instr mask) && (op =? 0x0) && (cond =? cond_) then
    Some {| annul := annul; disp22 := bits instr 21 0 |}
  else None.

Definition i_ba_execute (o : bicc) (s : sparc_state) : Z * sparc_state :=
  let addr := bicc_addr o in
  if tst (annul o) then
    let s := set_PCREG s (u32 (PCREG s + addr)) in
    let s := set_NPCREG s (u32 (PCREG s + 4)) in
    (1, s)
  else
    let npcaux := NPCREG s in
    let s := set_NPCREG s (u32 (PCREG s + addr)) in
    let s := set_PCREG s npcaux in
    (1, s).
Definition i_ba_disassemble : Z -> option bicc := disas_bicc 0x10800000 0x8.
Definition i_ba {B} : sparc_instruction B :=
  {| statics := bicc; execute := lift_cpu i_ba_execute; disassemble := i_ba_disassemble;
     opcode_mask := 0x10800000; priviledge := 0; format := 0x0 |}.

(** BN has its own [disassemble], whose condition field is a mask that does not
    contain the bits of the condition. *)
Definition i_bn_execute (o : bicc) (s : sparc_state) : Z * sparc_state :=
  if tst (annul o) then
    let s := set_PCREG s (u32 (NPCREG s + 8)) in
    let s := set_NPCREG s (u32 (NPCREG s + 8)) in
    (1, s)
  else (1, step_pc s).
Definition i_bn_disassemble (instr : Z) : option bicc :=
  let op := Z.shiftr (Z.land instr 0xc0000000) 30 in
  let annul := bit instr 29 in
  let cond := Z.shiftr (Z.land instr 0x01f80000) 25 in
  if tst (Z.land instr 0x0080000) && (op =? 0x0) && (cond =? 0x8) then
    Some {| annul := annul; disp22 := Z.shiftr (Z.land instr 0x003fffff) 0 |}
  else None.
Definition i_bn {B} : sparc_instruction B :=
  {| statics := bicc; execute := lift_cpu i_bn_execute; disassemble := i_bn_disassemble;
     opcode_mask := 0x0080000; priviledge := 0; format := 0x0 |}.

Definition i_bne_execute (o : bicc) (s : sparc_state) : Z * sparc_state :=
  let z := psr_get_zero s in
  (1, if z =? 1 then bicc_not_taken o s else bicc_taken o s).
Definition i_bne_disassemble : Z -> option bicc := disas_bicc 0x12800000 0x9.
Definition i_bne {B} : sparc_instruction B :=
  {| statics := bicc; execute := lift_cpu i_bne_execute; disassemble := i_bne_disassemble;
     opcode_mask := 0x12800000; priviledge := 0; format := 0x0 |}.

Definition i_be_execute (o : bicc) (s : sparc_state) : Z * sparc_state :=
  let z := psr_get_zero s in
  (1, if negb (tst z) then bicc_not_taken o s else bicc_taken o s).
Definition i_be_disassemble : Z -> option bicc := disas_bicc 0x02800000 0x1.
Definition i_be {B} : sparc_instruction B :=
  {| statics := bicc; execute := lift_cpu i_be_execute; disassemble := i_be_disassemble;
     opcode_mask := 0x02800000; priviledge := 0; format := 0x0 |}.

Definition i_bg_execute (o : bicc) (s : sparc_state) : Z * sparc_state :=
  let N := psr_get_neg s in let V := psr_get_overflow s in
  let z := psr_get_zero s in let icc := negb (tst z || tst (Z.lxor N V)) in
  (1, if negb icc then bicc_not_taken o s else bicc_taken o s).
Definition i_bg_disassemble : Z -> option bicc := disas_bicc 0x14800000 0xa.
Definition i_bg {B} : sparc_instruction B :=
  {| statics := bicc; execute := lift_cpu i_bg_execute; disassemble := i_bg_disassemble;
     opcode_mask := 0x14800000; priviledge := 0; format := 0x0 |}.

Definition i_ble_execute (o : bicc) (s : sparc_state) : Z * sparc_state :=
  let N := psr_get_neg s in let V := psr_get_overflow s in
  let z := psr_get_zero s in let icc := tst z || tst (Z.lxor N V) in
  (1, if negb icc then bicc_not_taken o s else bicc_taken o s).
Definition i_ble_disassemble : Z -> option bicc := disas_bicc 0x04800000 0x2.
Definition i_ble {B} : sparc_instruction B :=
  {| statics := bicc; execute := lift_cpu i_ble_execute; disassemble := i_ble_disassemble;
     opcode_mask := 0x04800000; priviledge := 0; format := 0x0 |}.

Definition i_bge_execute (o : bicc) (s : sparc_state) : Z * sparc_state :=
  let N := psr_get_neg s in let V := psr_get_overflow s in
  let icc := negb (tst (Z.lxor N V)) in
  (1, if negb icc then bicc_not_taken o s else bicc_taken o s).
Definition i_bge_disassemble : Z -> option bicc := disas_bicc 0x16800000 0xb.
Definition i_bge {B} : sparc_instruction B :=
  {| statics := bicc; execute := lift_cpu i_bge_execute; disassemble := i_bge_disassemble;
     opcode_mask := 0x16800000; priviledge := 0; format := 0x0 |}.

Definition i_bl_execute (o : bicc) (s : sparc_state) : Z * sparc_state :=
  let N := psr_get_neg s in let V := psr_get_overflow s in
  let icc := tst (Z.lxor N V) in
  (1, if negb icc then bicc_not_taken o s else bicc_taken o s).
Definition i_bl_disassemble : Z -> option bicc := disas_bicc 0x06800000 0x3.
Definition i_bl {B} : sparc_instruction B :=
  {| statics := bicc; execute := lift_cpu i_bl_execute; disassemble := i_bl_disassemble;
     opcode_mask := 0x06800000; priviledge := 0; format := 0x0 |}.

Definition i_bgu_execute (o : bicc) (s : sparc_state) : Z * sparc_state :=
  let c := psr_get_carry s in let z := psr_get_zero s in
  let icc := negb (tst c || tst z) in
  (1, if negb icc then bicc_not_taken o s else bicc_taken o s).
Definition i_bgu_disassemble : Z -> option bicc := disas_bicc 0x18800000 0xc.
Definition i_bgu {B} : sparc_instruction B :=
  {| statics := bicc; execute := lift_cpu i_bgu_execute; disassemble := i_bgu_disassemble;
     opcode_mask := 0x18800000; priviledge := 0; format := 0x0 |}.

Definition i_bleu_execute (o : bicc) (s : sparc_state) : Z * sparc_state :=
  let c := psr_get_carry s in let z := psr_get_zero s in
  let icc := tst c || tst z in
  (1, if negb icc then bicc_not_taken o s else bicc_taken o s).
Definition i_bleu_disassemble : Z -> option bicc := disas_bicc 0x08800000 0x4.
Definition i_bleu {B} : sparc_instruction B :=
  {| statics := bicc; execute := lift_cpu i_bleu_execute; disassemble := i_bleu_disassemble;
     opcode_mask := 0x08800000; priviledge := 0; format := 0x0 |}.

Definition i_bcc_execute (o : bicc) (s : sparc_state) : Z * sparc_state :=
  let c := psr_get_carry s in
  (1, if tst c then bicc_not_taken o s else bicc_taken o s).
Definition i_bcc_disassemble : Z -> option bicc := disas_bicc 0x1a800000 0xd.
Definition i_bcc {B} : sparc_instruction B :=
  {| statics := bicc; execute := lift_cpu i_bcc_execute; disassemble := i_bcc_disassemble;
     opcode_mask := 0x1a800000; priviledge := 0; format := 0x0 |}.

Definition i_bcs_execute (o : bicc) (s : sparc_state) : Z * sparc_state :=
  let c := psr_get_carry s in
  (1, if negb (tst c) then bicc_not_taken o s else bicc_taken o s).
Definition i_bcs_disassemble : Z -> option bicc := disas_bicc 0x0a800000 0x5.
Definition i_bcs {B} : sparc_instruction B :=
  {| statics := bicc; execute := lift_cpu i_bcs_execute; disassemble := i_bcs_disassemble;
     opcode_mask := 0x0a800000; priviledge := 0; format := 0x0 |}.

Definition i_bpos_execute (o : bicc) (s : sparc_state) : Z * sparc_state :=
  let N := psr_get_neg s in
  (1, if N =? 1 then bicc_not_taken o s else bicc_taken o s).
Definition i_bpos_disassemble : Z -> option bicc := disas_bicc 0x1c800000 0xe.
Definition i_bpos {B} : sparc_instruction B :=
  {| statics := bicc; execute := lift_cpu i_bpos_execute; disassemble := i_bpos_disassemble;
     opcode_mask := 0x1c800000; priviledge := 0; format := 0x0 |}.

Definition i_bneg_execute (o : bicc) (s : sparc_state) : Z * sparc_state :=
  let N := psr_get_neg s in
  (1, if N =? 0 then bicc_not_taken o s else bicc_taken o s).
Definition i_bneg_disassemble : Z -> option bicc := disas_bicc 0x0c800000 0x6.
Definition i_bneg {B} : sparc_instruction B :=
  {| statics := bicc; execute := lift_cpu i_bneg_execute; disassemble := i_bneg_disassemble;
     opcode_mask := 0x0c800000; priviledge := 0; format := 0x0 |}.

Definition i_bvc_execute (o : bicc) (s : sparc_state) : Z * sparc_state :=
  let v := psr_get_overflow s in
  (1, if v =? 1 then bicc_not_taken o s else bicc_taken o s).
Definition i_bvc_disassemble : Z -> option bicc := disas_bicc 0x1e800000 0xf.
Definition i_bvc {B} : sparc_instruction B :=
  {| statics := bicc; execute := lift_cpu i_bvc_execute; disassemble := i_bvc_disassemble;
     opcode_mask := 0x1e800000; priviledge := 0; format := 0x0 |}.

Definition i_bvs_execute (o : bicc) (s : sparc_state) : Z * sparc_state :=
  let v := psr_get_overflow s in
  (1, if v =? 0 then bicc_not_taken o s else bicc_taken o s).
Definition i_bvs_disassemble : Z -> option bicc := disas_bicc 0x0e800000 0x7.
Definition i_bvs {B} : sparc_instruction B :=
  {| statics := bicc; execute := lift_cpu i_bvs_execute; disassemble := i_bvs_disassemble;
     opcode_mask := 0x0e800000; priviledge := 0; format := 0x0 |}.

(** ** CALL and JMPL *)

Definition i_call_execute (disp30 : Z) (s : sparc_state) : Z * sparc_state :=
  let addr := u32 (Z.shiftl disp30 2) in
  let s := set_REG s O7 (PCREG s) in
  let addr := u32 (addr + PCREG s) in
  let s := set_PCREG s (NPCREG s) in
  let s := set_NPCREG s addr in
  (1, s).
Definition i_call_disassemble (instr : Z) : option Z :=
  let op := bits instr 31 30 in
  let disp30 := bits instr 29 0 in
  if op =? 0x01 then Some disp30 else None.
Definition i_call {B} : sparc_instruction B :=
  {| statics := Z; execute := lift_cpu i_call_execute; disassemble := i_call_disassemble;
     opcode_mask := 0x1000000; priviledge := 0; format := 0x01 |}.

Definition i_jmpl_execute (o : f3) (s : sparc_state) : Z * sparc_state :=
  let daddr := if imm o <? 0
    then u32 (REG s (rs1 o) + REG s (rs2 o))
    else u32 (REG s (rs1 o) + sign_ext13 (imm o)) in
  if tst (Z.land daddr 0x00000003) then (1, traps_signal s MEM_ADDR_NOT_ALIGNED)
  else
    let s := set_REG s (rd o) (PCREG s) in
    let s := set_PCREG s (NPCREG s) in
    let s := set_NPCREG s daddr in
    (1, s).
Definition i_jmpl_disassemble : Z -> option f3 := disas_f3 0x81c00000 0x2 0x38 4.
Definition i_jmpl {B} : sparc_instruction B :=
  {| statics := f3; execute := lift_cpu i_jmpl_execute; disassemble := i_jmpl_disassemble;
     opcode_mask := 0x81c00000; priviledge := 0; format := 0x2 |}.

(** ** SAVE, RESTORE, RETT *)

Definition i_save_execute (o : f3) (s : sparc_state) : Z * sparc_state :=
  let sum := if imm o <? 0
    then s32 (REG s (rs1 o) + REG s (rs2 o))
    else s32 (REG s (rs1 o) + sign_ext13 (imm o)) in
  let wim := WIMREG s in
  let cwp := CWP s in
  let ncwp := Z.land (u32 (cwp - 1)) (N_WINDOWS - 1) in
  if tst (Z.land (Z.shiftl 1 ncwp) wim) then (1, traps_signal s WOF)
  else
    let '(ncwp, s) := iu_sub_cwp s in
    let s := set_REG s (rd o) sum in
    (1, step_pc s).
Definition i_save_disassemble : Z -> option f3 := disas_f3 0x81e00000 0x2 0x3c 4.
Definition i_save {B} : sparc_instruction B :=
  {| statics := f3; execute := lift_cpu i_save_execute; disassemble := i_save_disassemble;
     opcode_mask := 0x81e00000; priviledge := 0; format := 0x2 |}.

Definition i_restore_execute (o : f3) (s : sparc_state) : Z * sparc_state :=
  let sum := if imm o <? 0
    then s32 (REG s (rs1 o) + REG s (rs2 o))
    else s32 (REG s (rs1 o) + sign_ext13 (imm o)) in
  let wim := WIMREG s in
  let cwp := CWP s in
  let ncwp := Z.land (u32 (cwp + 1)) (N_WINDOWS - 1) in
  if tst (Z.land (Z.shiftl 1 ncwp) wim) then (1, traps_signal s WUF)
  else
    let '(ncwp, s) := iu_add_cwp s in
    let s := set_REG s (rd o) sum in
    (1, step_pc s).
Definition i_restore_disassemble : Z -> option f3 := disas_f3 0x81e80000 0x2 0x3d 4.
Definition i_restore {B} : sparc_instruction B :=
  {| statics := f3; execute := lift_cpu i_restore_execute; disassemble := i_restore_disassemble;
     opcode_mask := 0x81e80000; priviledge := 0; format := 0x2 |}.

Definition i_rett_execute (o : f3) (s : sparc_state) : Z * sparc_state :=
  let S := bit (PSRREG s) PSR_S in
  let ET := bit (PSRREG s) PSR_ET in
  let daddr := if imm o <? 0
    then u32 (REG s (rs1 o) + REG s (rs2 o))
    else u32 (REG s (rs1 o) + sign_ext13 (imm o)) in
  if (ET =? 1) && (S =? 0) then (2, traps_signal s PRIVILEGED_INSTR)
  else if (ET =? 1) && (S =? 1) then (2, traps_signal s ILLEGAL_INSTR)
  else
    let ncwp := (CWP s + 1) mod N_WINDOWS in
    let wim := WIMREG s in
    if (ET =? 0) && (S =? 0) then (2, traps_signal s PRIVILEGED_INSTR)
    else if (ET =? 0) && tst (Z.land (Z.shiftl 1 ncwp) wim) then (2, traps_signal s WUF)
    else if (ET =? 0) && tst (Z.land daddr 0x00000003)
      then (2, traps_signal s MEM_ADDR_NOT_ALIGNED)
    else
      let s := (iu_add_cwp s).2 in
      let s := set_PCREG s (NPCREG s) in
      let s := set_NPCREG s daddr in
      let PS := bit (PSRREG s) PSR_PS in
      let s := if PS =? 1 then set_PSRREG s (set_bit (PSRREG s) PSR_S)
               else set_PSRREG s (clear_bit (PSRREG s) PSR_S) in
      let s := set_PSRREG s (set_bit (PSRREG s) PSR_ET) in
      (2, s).
Definition i_rett_disassemble : Z -> option f3 := disas_f3 0x81c80000 0x2 0x39 4.
Definition i_rett {B} : sparc_instruction B :=
  {| statics := f3; execute := lift_cpu i_rett_execute; disassemble := i_rett_disassemble;
     opcode_mask := 0x81c80000; priviledge := 1; format := 0x2 |}.

(** ** TA and FLUSH *)

Record ticc : Type := { t_rs1 : Z; t_rs2 : Z; imm7 : Z }.

Definition i_ta_execute (o : ticc) (s : sparc_state) : Z * sparc_state :=
  let tt := 0 in
  let tt := if imm7 o <? 0
    then 128 + bits (REG s (t_rs1 o)) 6 0 + bits (REG s (t_rs2 o)) 6 0
    else if t_rs2 o <? 0 then 128 + bits (REG s (t_rs1 o)) 6 0 + imm7 o
    else tt in
  (1, traps_signal s tt).
(** The condition field is decoded but not tested. *)
Definition i_ta_disassemble (instr : Z) : option ticc :=
  let op := bits instr 31 30 in
  let fixed := bits instr 24 19 in
  if tst (Z.land instr 0x91d00000) && (op =? 0x2) && (fixed =? 0x3a) then
    Some (if tst (bit instr 13)
          then {| t_rs1 := bits instr 18 14; t_rs2 := -1; imm7 := bits instr 6 0 |}
          else {| t_rs1 := bits instr 18 14; t_rs2 := bits instr 4 0; imm7 := -1 |})
  else None.
Definition i_ta {B} : sparc_instruction B :=
  {| statics := ticc; execute := lift_cpu i_ta_execute; disassemble := i_ta_disassemble;
     opcode_mask := 0x91d00000; priviledge := 0; format := 0x2 |}.

(** The address is computed and dropped. *)
Definition i_flush_execute (o : f3) (s : sparc_state) : Z * sparc_state := (1, step_pc s).
Definition i_flush_disassemble : Z -> option f3 := disas_f3 0x81d80000 0x2 0x3b 4.
Definition i_flush {B} : sparc_instruction B :=
  {| statics := f3; execute := lift_cpu i_flush_execute; disassemble := i_flush_disassemble;
     opcode_mask := 0x81d80000; priviledge := 0; format := 0x2 |}.

(** ** State registers *)

Definition i_rdy_execute (o : f3) (s : sparc_state) : Z * sparc_state :=
  let value := YREG s in
  let s := set_REG s (rd o) value in
  (1, step_pc s).
Definition i_rdy_disassemble : Z -> option f3 := disas_f3 0x81400000 0x2 0x28 4.
Definition i_rdy {B} : sparc_instruction B :=
  {| statics := f3; execute := lift_cpu i_rdy_execute; disassemble := i_rdy_disassemble;
     opcode_mask := 0x81400000; priviledge := 0; format := 0x2 |}.

(** [disassemble] of RDPSR, RDWIM and RDTBR: fields by mask and shift, and
    [static int rd] only. *)
Definition disas_rd (mask op3_ : Z) (instr : Z) : option Z :=
  let op := Z.shiftr (Z.land instr 0xc0000000) 30 in
  if tst (Z.land instr mask) && (op =? 0x2) then
    let op3 := Z.shiftr (Z.land instr 0x01f80000) 19 in
    if negb (op3 =? op3_) then None
    else Some (Z.shiftr (Z.land instr 0x3e000000) 25)
  else None.

Definition i_rdpsr_execute (rd : Z) (s : sparc_state) : Z * sparc_state :=
  if negb (bit (PSRREG s) PSR_S =? 1) then (1, traps_signal s PRIVILEGED_INSTR)
  else
    let value := PSRREG s in
    let s := set_REG s rd value in
    (1, step_pc s).
Definition i_rdpsr_disassemble : Z -> option Z := disas_rd 0x81480000 0x29.
Definition i_rdpsr {B} : sparc_instruction B :=
  {| statics := Z; execute := lift_cpu i_rdpsr_execute; disassemble := i_rdpsr_disassemble;
     opcode_mask := 0x81480000; priviledge := 1; format := 0x2 |}.

Definition i_rdwim_execute (rd : Z) (s : sparc_state) : Z * sparc_state :=
  if negb (bit (PSRREG s) PSR_S =? 1) then (1, traps_signal s PRIVILEGED_INSTR)
  else
    let value := WIMREG s in
    let s := set_REG s rd value in
    (1, step_pc s).
Definition i_rdwim_disassemble : Z -> option Z := disas_rd 0x81500000 0x2A.
Definition i_rdwim {B} : sparc_instruction B :=
  {| statics := Z; execute := lift_cpu i_rdwim_execute; disassemble := i_rdwim_disassemble;
     opcode_mask := 0x81500000; priviledge := 1; format := 0x2 |}.

Definition i_rdtbr_execute (rd : Z) (s : sparc_state) : Z * sparc_state :=
  if negb (bit (PSRREG s) PSR_S =? 1) then (1, traps_signal s PRIVILEGED_INSTR)
  else
    let value := TBRREG s in
    let s := set_REG s rd value in
    (1, step_pc s).
Definition i_rdtbr_disassemble : Z -> option Z := disas_rd 0x81580000 0x2B.
Definition i_rdtbr {B} : sparc_instruction B :=
  {| statics := Z; execute := lift_cpu i_rdtbr_execute; disassemble := i_rdtbr_disassemble;
     opcode_mask := 0x81580000; priviledge := 1; format := 0x2 |}.

Definition i_wry_execute (o : f3) (s : sparc_state) : Z * sparc_state :=
  let value := if imm o <? 0
    then Z.lxor (REG s (rs1 o)) (REG s (rs2 o))
    else Z.lxor (REG s (rs1 o)) (u32 (sign_ext13 (imm o))) in
  let s := set_YREG s value in
  (1, step_pc s).
Definition i_wry_disassemble : Z -> option f3 := disas_f3 0x81800000 0x2 0x30 4.
Definition i_wry {B} : sparc_instruction B :=
  {| statics := f3; execute := lift_cpu i_wry_execute; disassemble := i_wry_disassemble;
     opcode_mask := 0x81800000; priviledge := 1; format := 0x2 |}.

(** i_wrpsr.c and i_wrwim.c keep no [rd]; the field is ignored here. *)
Definition i_wrpsr_execute (o : f3) (s : sparc_state) : Z * sparc_state :=
  if negb (bit (PSRREG s) PSR_S =? 1) then (1, traps_signal s PRIVILEGED_INSTR) else
  let value := if imm o <? 0
    then Z.lxor (REG s (rs1 o)) (REG s (rs2 o))
    else Z.lxor (REG s (rs1 o)) (u32 (sign_ext13 (imm o))) in
  let ncwp := bits value PSR_CWP_last PSR_CWP_first in
  if ncwp >=? N_WINDOWS then (0, traps_signal s ILLEGAL_INSTR) else
  let value := clear_bits value PSR_reserved_last PSR_reserved_first in
  let value := clear_bits value PSR_impl_last PSR_ver_first in
  let s := set_PSRREG s value in
  let s := iu_set_cwp s ncwp in
  (1, step_pc s).
Definition i_wrpsr_disassemble : Z -> option f3 := disas_f3 0x81880000 0x2 0x31 4.
Definition i_wrpsr {B} : sparc_instruction B :=
  {| statics := f3; execute := lift_cpu i_wrpsr_execute; disassemble := i_wrpsr_disassemble;
     opcode_mask := 0x81880000; priviledge := 1; format := 0x2 |}.

Definition i_wrwim_execute (o : f3) (s : sparc_state) : Z * sparc_state :=
  if negb (bit (PSRREG s) PSR_S =? 1) then (1, traps_signal s PRIVILEGED_INSTR) else
  let value := if imm o <? 0
    then Z.lxor (REG s (rs1 o)) (REG s (rs2 o))
    else Z.lxor (REG s (rs1 o)) (u32 (sign_ext13 (imm o))) in
  let s := set_WIMREG s (bits value (N_WINDOWS - 1) 0) in
  (1, step_pc s).
Definition i_wrwim_disassemble : Z -> option f3 := disas_f3 0x81900000 0x2 0x32 4.
Definition i_wrwim {B} : sparc_instruction B :=
  {| statics := f3; execute := lift_cpu i_wrwim_execute; disassemble := i_wrwim_disassemble;
     opcode_mask := 0x81900000; priviledge := 1; format := 0x2 |}.

(** The immediate is not sign-extended. *)
Definition i_wrtbr_execute (o : f3) (s : sparc_state) : Z * sparc_state :=
  if negb (bit (PSRREG s) PSR_S =? 1) then (1, traps_signal s PRIVILEGED_INSTR) else
  let value := if imm o <? 0
    then Z.lxor (REG s (rs1 o)) (REG s (rs2 o))
    else Z.lxor (REG s (rs1 o)) (imm o) in
  let s := set_TBRREG s value in
  (1, step_pc s).
Definition i_wrtbr_disassemble : Z -> option f3 := disas_f3 0x81980000 0x2 0x33 4.
Definition i_wrtbr {B} : sparc_instruction B :=
  {| statics := f3; execute := lift_cpu i_wrtbr_execute; disassemble := i_wrtbr_disassemble;
     opcode_mask := 0x81980000; priviledge := 1; format := 0x2 |}.

(** ** Well-formedness *)

Lemma lxor_u32 a b : is_u32 a -> is_u32 b -> is_u32 (Z.lxor a b).
Proof.
  intros Ha Hb. apply is_u32_testbit.
  - apply Z.lxor_nonneg. split; intros _; [apply Hb | apply Ha].
  - intros i Hi. by rewrite Z.lxor_spec, !testbit_above_32.
Qed.

#[export] Hint Resolve lxor_u32 : words.

Ltac wf_ctl :=
  repeat first
  [ progress wf_chain
  | apply wf_set_PCREG; [solve [auto 6 with sparc words]|]
  | apply wf_set_NPCREG; [solve [auto 6 with sparc words]|]
  | apply wf_iu_add_cwp | apply wf_iu_sub_cwp
  | apply wf_psr_set_bit; [unfold PSR_S, PSR_PS, PSR_ET; lia|]
  | apply wf_psr_clear_bit; [unfold PSR_S, PSR_PS, PSR_ET; lia|] ].

Lemma wf_bicc_taken o s : state_wf s -> state_wf (bicc_taken o s).
Proof. intros. unfold bicc_taken. wf_ctl. Qed.

Lemma wf_bicc_not_taken o s : state_wf s -> state_wf (bicc_not_taken o s).
Proof. intros. unfold bicc_not_taken. case_match; wf_ctl. Qed.

Section wf.
Context {B : Type} `{BusLaws B}.

Ltac go_br f := preserves_cpu; unfold f; cbv zeta; cbn [snd];
  case_match; auto using wf_bicc_taken, wf_bicc_not_taken.

Lemma i_ba_wf : preserves machine_wf i_ba.
Proof. preserves_cpu. unfold i_ba_execute. case_match; cbn [snd]; wf_ctl. Qed.
Lemma i_bn_wf : preserves machine_wf i_bn.
Proof. preserves_cpu. unfold i_bn_execute. case_match; cbn [snd]; wf_ctl. Qed.
Lemma i_bne_wf : preserves machine_wf i_bne. Proof. go_br i_bne_execute. Qed.
Lemma i_be_wf : preserves machine_wf i_be. Proof. go_br i_be_execute. Qed.
Lemma i_bg_wf : preserves machine_wf i_bg. Proof. go_br i_bg_execute. Qed.
Lemma i_ble_wf : preserves machine_wf i_ble. Proof. go_br i_ble_execute. Qed.
Lemma i_bge_wf : preserves machine_wf i_bge. Proof. go_br i_bge_execute. Qed.
Lemma i_bl_wf : preserves machine_wf i_bl. Proof. go_br i_bl_execute. Qed.
Lemma i_bgu_wf : preserves machine_wf i_bgu. Proof. go_br i_bgu_execute. Qed.
Lemma i_bleu_wf : preserves machine_wf i_bleu. Proof. go_br i_bleu_execute. Qed.
Lemma i_bcc_wf : preserves machine_wf i_bcc. Proof. go_br i_bcc_execute. Qed.
Lemma i_bcs_wf : preserves machine_wf i_bcs. Proof. go_br i_bcs_execute. Qed.
Lemma i_bpos_wf : preserves machine_wf i_bpos. Proof. go_br i_bpos_execute. Qed.
Lemma i_bneg_wf : preserves machine_wf i_bneg. Proof. go_br i_bneg_execute. Qed.
Lemma i_bvc_wf : preserves machine_wf i_bvc. Proof. go_br i_bvc_execute. Qed.
Lemma i_bvs_wf : preserves machine_wf i_bvs. Proof. go_br i_bvs_execute. Qed.

Ltac go f := preserves_cpu; unfold f; cbv zeta; repeat case_match; simplify_eq; cbn [snd]; wf_ctl.

Lemma i_call_wf : preserves machine_wf i_call. Proof. go i_call_execute. Qed.
Lemma i_jmpl_wf : preserves machine_wf i_jmpl. Proof. go i_jmpl_execute. Qed.
Lemma i_ta_wf : preserves machine_wf i_ta. Proof. go i_ta_execute. Qed.
Lemma i_flush_wf : preserves machine_wf i_flush. Proof. go i_flush_execute. Qed.
Lemma i_rdy_wf : preserves machine_wf i_rdy. Proof. go i_rdy_execute. Qed.
Lemma i_rdpsr_wf : preserves machine_wf i_rdpsr. Proof. go i_rdpsr_execute. Qed.
Lemma i_rdwim_wf : preserves machine_wf i_rdwim. Proof. go i_rdwim_execute. Qed.
Lemma i_rdtbr_wf : preserves machine_wf i_rdtbr. Proof. go i_rdtbr_execute. Qed.
Lemma i_wry_wf : preserves machine_wf i_wry. Proof. go i_wry_execute. Qed.

Lemma i_save_wf : preserves machine_wf i_save.
Proof.
  preserves_cpu. unfold i_save_execute; cbv zeta. case_match; cbn [snd]; [wf_ctl|].
  rewrite iu_sub_cwp_eq by done. cbn [snd]. wf_chain.
  apply wf_iu_set_cwp; auto with sparc.
Qed.
Lemma i_restore_wf : preserves machine_wf i_restore.
Proof.
  preserves_cpu. unfold i_restore_execute; cbv zeta. case_match; cbn [snd]; [wf_ctl|].
  rewrite iu_add_cwp_eq by done. cbn [snd]. wf_chain.
  apply wf_iu_set_cwp; auto with sparc.
Qed.
Lemma i_rett_wf : preserves machine_wf i_rett.
Proof.
  preserves_cpu. unfold i_rett_execute; cbv zeta.
  set (daddr := if imm o <? 0 then _ else _).
  assert (is_u32 daddr) by (subst daddr; case_match; auto with words).
  pose proof (wf_iu_add_cwp _ Hwf) as Hadd. pose proof (wf_npc _ Hadd).
  generalize dependent ((iu_add_cwp (cpu m)).2). intros s' Hs' Hnpc.
  do 5 (case_match; [apply wf_traps_signal; exact Hwf|]). clearbody daddr. cbn [snd].
  apply wf_psr_set_bit; [unfold PSR_ET; lia|].
  case_match; [apply wf_psr_set_bit | apply wf_psr_clear_bit];
    try (unfold PSR_S; lia); apply wf_set_NPCREG; auto using wf_set_PCREG.
Qed.
Lemma i_wrwim_wf : preserves machine_wf i_wrwim.
Proof.
  preserves_cpu. unfold i_wrwim_execute; cbv zeta. repeat case_match; cbn [snd]; wf_chain.
  all: apply wf_set_WIMREG; [apply bits_u32; unfold N_WINDOWS; lia | done].
Qed.

Lemma i_wrtbr_wf : preserves machine_wf i_wrtbr.
Proof.
  intros instr o m _ Hdis Hm. apply lift_cpu_wf; [done|]. intros Hwf.
  apply disas_f3_wf in Hdis as (_ & _ & Himm).
  unfold i_wrtbr_execute; cbv zeta. repeat case_match; cbn [snd]; wf_chain;
    (apply wf_set_TBRREG; [apply lxor_u32; auto with sparc words | done]).
  all: unfold is_u32; lia.
Qed.

(** The PSR that WRPSR stores has the new window in its CWP field already
    when [iu_set_cwp] looks at it. *)
Lemma wf_set_PSRREG_any s v n :
  state_wf s -> is_u32 v -> 0 <= n < 8 -> state_wf (iu_set_cwp (set_PSRREG s v) n).
Proof.
  intros Hwf Hv Hn.
  assert (HC : CWP (iu_set_cwp (set_PSRREG s v) n) = n).
  { unfold CWP. rewrite PSRREG_iu_set_cwp. apply bits_low_disjoint_or; [done|lia]. }
  assert (Hp : regwptr1 (iu_set_cwp (set_PSRREG s v) n) = n * 16).
  { unfold iu_set_cwp. destruct (_ =? N_WINDOWS - 1), (n =? N_WINDOWS - 1); reflexivity. }
  destruct Hwf.
  split; rewrite ?HC, ?Hp, ?PSRREG_iu_set_cwp; unfold N_WINDOWS; try lia;
    rewrite ?regbase_iu_set_cwp; cbv zeta; cbn [regbase set_PSRREG PSRREG].
  2, 5: destruct (CWP _ =? 7), (n =? 7); unfold memcpy32; rewrite ?length_copy_words;
    repeat apply copy_words_Forall; auto with words.
  6: apply lor_u32; auto with words.
  all: autorewrite with sparc_simpl; try assumption.
  all: unfold iu_set_cwp; destruct (CWP _ =? N_WINDOWS - 1), (n =? N_WINDOWS - 1); assumption.
Qed.

Lemma i_wrpsr_wf : preserves machine_wf i_wrpsr.
Proof.
  preserves_cpu. unfold i_wrpsr_execute; cbv zeta.
  set (value := if imm o <? 0 then _ else _).
  assert (is_u32 value) by (subst value; case_match; auto with sparc words).
  pose proof (bits_range value 4 0 ltac:(lia) ltac:(lia)).
  case_match; cbn [snd]; [wf_ctl|].
  destruct (Z.geb_spec (bits value PSR_CWP_last PSR_CWP_first) N_WINDOWS) as [|Hlt];
    cbn [snd]; [wf_ctl|].
  apply wf_step_pc. apply wf_set_PSRREG_any; [done | auto with words |].
  unfold PSR_CWP_last, PSR_CWP_first, N_WINDOWS in *. lia.
Qed.
End wf.

#[export] Hint Resolve i_ba_wf i_bn_wf i_bne_wf i_be_wf i_bg_wf i_ble_wf i_bge_wf i_bl_wf
  i_bgu_wf i_bleu_wf i_bcc_wf i_bcs_wf i_bpos_wf i_bneg_wf i_bvc_wf i_bvs_wf i_call_wf
  i_jmpl_wf i_ta_wf i_flush_wf i_rdy_wf i_rdpsr_wf i_rdwim_wf i_rdtbr_wf i_wry_wf i_save_wf
  i_restore_wf i_rett_wf i_wrwim_wf i_wrtbr_wf i_wrpsr_wf : isa.
