(* ===== verification/SparcMem.v ===== *)
(** * Load and store instructions

    The fifteen files of src/arch_sparc/instructions/ that use the bus:
    LD to LDDF and ST to STFSR.  The bus is the interface of Isa; the status it
    returns selects the DATA_STORE_ERROR branch. *)

From Stdlib Require Import ZArith Lia Bool.
From stdpp Require Import base numbers option list.
From S2P Require Import Prelude Words SparcState Windows Bus Isa Traps SparcAlu SparcCtl.

Definition upd_cpu {B} (f : sparc_state -> sparc_state) (m : machine B) : machine B :=
  set_cpu m (f (cpu m)).

(** [status = sparc_memory_read_*(&value, addr)] with [value] holding [init]:
    a read that reaches no bank leaves the variable alone. *)
Definition mem_load {B} `{Bus B} (size addr init : Z) (m : machine B)
    : result (Z * Z * machine B) :=
  let! (status, v, b) := bus_read size addr (bus m) in
  Val (status, default init v, set_bus m b).

Definition mem_store {B} `{Bus B} (size addr value : Z) (m : machine B)
    : result (Z * machine B) :=
  let! (status, b) := bus_write size addr value (bus m) in
  Val (status, set_bus m b).

(** The tail of the loads and stores. *)
Definition mem_done {B} (status : Z) (m : machine B) : result (Z * machine B) :=
  if status <? 0 then Val (1, upd_cpu (fun s => traps_signal s DATA_STORE_ERROR) m)
  else Val (1, upd_cpu step_pc m).

Definition mem_trap {B} (trap : Z) (m : machine B) : result (Z * machine B) :=
  Val (1, upd_cpu (fun s => traps_signal s trap) m).

(** [uint32 addr]. *)
Definition ls_addr (o : f3) (s : sparc_state) : Z :=
  if imm o <? 0 then u32 (REG s (rs1 o) + REG s (rs2 o))
  else u32 (REG s (rs1 o) + sign_ext13 (imm o)).

(** The same where [rs2] was decoded as nine bits: [REG(rs2)] may lie past the
    end of [regbase]. *)
Definition ls_addr9 (o : f3) (s : sparc_state) : result Z :=
  if (imm o <? 0) && (MAX_NWINDOWS * 16 + 8 <=? regwptr1 s + (rs2 o - 8)) then Undef
  else Val (ls_addr o s).

Section execute.
  Context {B : Type} `{Bus B}.

(** ** Loads *)

Definition i_ld_execute (o : f3) (m : machine B) : result (Z * machine B) :=
  let addr := ls_addr o (cpu m) in
  if tst (Z.land addr 0x3) then mem_trap MEM_ADDR_NOT_ALIGNED m
  else
    let! (status, value, m) := mem_load 32 addr 0 m in
    let m := upd_cpu (fun s => set_REG s (rd o) value) m in
    mem_done status m.

Definition i_ldd_execute (o : f3) (m : machine B) : result (Z * machine B) :=
  let addr := ls_addr o (cpu m) in
  if tst (Z.land addr 0x7) then mem_trap MEM_ADDR_NOT_ALIGNED m
  else if tst (Z.land (rd o) 0x1) then mem_trap ILLEGAL_INSTR m
  else
    let! (status, value, m) := mem_load 32 addr 0 m in
    let m := upd_cpu (fun s => set_REG s (rd o) value) m in
    let! (status, value, m) := mem_load 32 (u32 (addr + 4)) value m in
    let m := upd_cpu (fun s => set_REG s (rd o + 1) value) m in
    mem_done status m.

Definition i_ldub_execute (o : f3) (m : machine B) : result (Z * machine B) :=
  let addr := ls_addr o (cpu m) in
  let! (status, value, m) := mem_load 8 addr 0 m in
  let m := upd_cpu (fun s => set_REG s (rd o) value) m in
  mem_done status m.

Definition i_lduh_execute (o : f3) (m : machine B) : result (Z * machine B) :=
  let addr := ls_addr o (cpu m) in
  if tst (Z.land addr 0x1) then mem_trap MEM_ADDR_NOT_ALIGNED m
  else
    let! (status, value, m) := mem_load 16 addr 0 m in
    let m := upd_cpu (fun s => set_REG s (rd o) value) m in
    mem_done status m.

Definition i_ldsb_execute (o : f3) (m : machine B) : result (Z * machine B) :=
  let addr := ls_addr o (cpu m) in
  let! (status, value, m) := mem_load 8 addr 0 m in
  let value := if tst (Z.shiftr value 7) then Z.lor value 0xffffff00 else value in
  let m := upd_cpu (fun s => set_REG s (rd o) value) m in
  mem_done status m.

Definition i_ldsh_execute (o : f3) (m : machine B) : result (Z * machine B) :=
  let addr := ls_addr o (cpu m) in
  if tst (Z.land addr 0x1) then mem_trap MEM_ADDR_NOT_ALIGNED m
  else
    let! (status, value, m) := mem_load 16 addr 0 m in
    let value := if tst (Z.shiftr value 15) then Z.lor value 0xffff0000 else value in
    let m := upd_cpu (fun s => set_REG s (rd o) value) m in
    mem_done status m.

Definition i_ldf_execute (o : f3) (m : machine B) : result (Z * machine B) :=
  if negb (tst (bit (PSRREG (cpu m)) PSR_EF)) then mem_trap FP_DISABLED m
  else
    let addr := ls_addr o (cpu m) in
    if tst (Z.land addr 0x3) then mem_trap MEM_ADDR_NOT_ALIGNED m
    else
      let! (status, value, m) := mem_load 32 addr 0 m in
      let m := upd_cpu (fun s => set_FPREG s (rd o) value) m in
      mem_done status m.

Definition i_lddf_execute (o : f3) (m : machine B) : result (Z * machine B) :=
  if negb (tst (bit (PSRREG (cpu m)) PSR_EF)) then mem_trap FP_DISABLED m
  else
    let addr := ls_addr o (cpu m) in
    if tst (Z.land addr 0x7) then mem_trap MEM_ADDR_NOT_ALIGNED m
    else if tst (Z.land (rd o) 0x1) then mem_trap ILLEGAL_INSTR m
    else
      let! (status, value, m) := mem_load 32 addr 0 m in
      let m := upd_cpu (fun s => set_FPREG s (rd o) value) m in
      let! (status, value, m) := mem_load 32 (u32 (addr + 4)) value m in
      let m := upd_cpu (fun s => set_FPREG s (rd o + 1) value) m in
      mem_done status m.

(** ** Stores *)

Definition i_st_execute (o : f3) (m : machine B) : result (Z * machine B) :=
  let! addr := ls_addr9 o (cpu m) in
  if tst (Z.land addr 0x3) then mem_trap MEM_ADDR_NOT_ALIGNED m
  else
    let! (status, m) := mem_store 32 addr (Z.land (REG (cpu m) (rd o)) 0xffffffff) m in
    mem_done status m.

Definition i_stb_execute (o : f3) (m : machine B) : result (Z * machine B) :=
  let addr := ls_addr o (cpu m) in
  let! (status, m) := mem_store 8 addr (Z.land (REG (cpu m) (rd o)) 0x000000ff) m in
  mem_done status m.

Definition i_sth_execute (o : f3) (m : machine B) : result (Z * machine B) :=
  let addr := ls_addr o (cpu m) in
  if tst (Z.land addr 0x1) then mem_trap MEM_ADDR_NOT_ALIGNED m
  else
    let! (status, m) := mem_store 16 addr (Z.land (REG (cpu m) (rd o)) 0x0000ffff) m in
    mem_done status m.

(** In the immediate form [uint32 addr] is declared again inside the block, so
    that the stores use the outer variable, which is still 0. *)
Definition i_std_execute (o : f3) (m : machine B) : result (Z * machine B) :=
  if tst (Z.land (rd o) 0x00000001) then mem_trap ILLEGAL_INSTR m
  else
    let addr := ls_addr o (cpu m) in
    if tst (Z.land addr 0x7) then mem_trap MEM_ADDR_NOT_ALIGNED m
    else
      let addr := if imm o <? 0 then addr else 0 in
      let! (status, m) := mem_store 32 addr (Z.land (REG (cpu m) (rd o)) 0xffffffff) m in
      let! (status, m) :=
        mem_store 32 (u32 (addr + 4)) (Z.land (REG (cpu m) (rd o + 1)) 0xffffffff) m in
      mem_done status m.

(** The floating-point stores trap when the FPU is enabled. *)
Definition i_stf_execute (o : f3) (m : machine B) : result (Z * machine B) :=
  if tst (bit (PSRREG (cpu m)) PSR_EF) then mem_trap FP_DISABLED m
  else
    let! addr := ls_addr9 o (cpu m) in
    if tst (Z.land addr 0x3) then mem_trap MEM_ADDR_NOT_ALIGNED m
    else
      let! (status, m) := mem_store 32 addr (Z.land (FPREG (cpu m) (rd o)) 0xffffffff) m in
      mem_done status m.

Definition i_stdf_execute (o : f3) (m : machine B) : result (Z * machine B) :=
  if tst (bit (PSRREG (cpu m)) PSR_EF) then mem_trap FP_DISABLED m
  else if tst (Z.land (rd o) 0x00000001) then mem_trap ILLEGAL_INSTR m
  else
    let addr := ls_addr o (cpu m) in
    if tst (Z.land addr 0x7) then mem_trap MEM_ADDR_NOT_ALIGNED m
    else
      let! (status, m) := mem_store 32 addr (Z.land (FPREG (cpu m) (rd o)) 0xffffffff) m in
      let! (status, m) :=
        mem_store 32 (u32 (addr + 4)) (Z.land (FPREG (cpu m) (rd o + 1)) 0xffffffff) m in
      mem_done status m.

Definition i_stfsr_execute (o : f3) (m : machine B) : result (Z * machine B) :=
  if tst (bit (PSRREG (cpu m)) PSR_EF) then mem_trap FP_DISABLED m
  else
    let! addr := ls_addr9 o (cpu m) in
    if tst (Z.land addr 0x3) then mem_trap MEM_ADDR_NOT_ALIGNED m
    else
      let! (status, m) := mem_store 32 addr (Z.land (FPSRREG (cpu m)) 0xffffffff) m in
      mem_done status m.

End execute.

(** ** Decoders and descriptors *)

Definition i_ld_disassemble : Z -> option f3 := disas_f3 0xc0000000 0x3 0x0 4.
Definition i_ld {B} `{Bus B} : sparc_instruction B :=
  {| statics := f3; execute := i_ld_execute; disassemble := i_ld_disassemble;
     opcode_mask := 0xc0000000; priviledge := 0; format := 0x3 |}.

Definition i_ldd_disassemble : Z -> option f3 := disas_f3 0xc0180000 0x3 0x03 4.
Definition i_ldd {B} `{Bus B} : sparc_instruction B :=
  {| statics := f3; execute := i_ldd_execute; disassemble := i_ldd_disassemble;
     opcode_mask := 0xc0180000; priviledge := 0; format := 0x3 |}.

Definition i_ldub_disassemble : Z -> option f3 := disas_f3 0xc0080000 0x3 0x01 4.
Definition i_ldub {B} `{Bus B} : sparc_instruction B :=
  {| statics := f3; execute := i_ldub_execute; disassemble := i_ldub_disassemble;
     opcode_mask := 0xc0080000; priviledge := 0; format := 0x3 |}.

Definition i_lduh_disassemble : Z -> option f3 := disas_f3 0xc0100000 0x3 0x02 4.
Definition i_lduh {B} `{Bus B} : sparc_instruction B :=
  {| statics := f3; execute := i_lduh_execute; disassemble := i_lduh_disassemble;
     opcode_mask := 0xc0100000; priviledge := 0; format := 0x3 |}.

Definition i_ldsb_disassemble : Z -> option f3 := disas_f3 0xc0480000 0x3 0x09 4.
Definition i_ldsb {B} `{Bus B} : sparc_instruction B :=
  {| statics := f3; execute := i_ldsb_execute; disassemble := i_ldsb_disassemble;
     opcode_mask := 0xc0480000; priviledge := 0; format := 0x3 |}.

Definition i_ldsh_disassemble : Z -> option f3 := disas_f3 0xc0500000 0x3 0x0a 4.
Definition i_ldsh {B} `{Bus B} : sparc_instruction B :=
  {| statics := f3; execute := i_ldsh_execute; disassemble := i_ldsh_disassemble;
     opcode_mask := 0xc0500000; priviledge := 0; format := 0x3 |}.

Definition i_ldf_disassemble : Z -> option f3 := disas_f3 0xc1000000 0x3 0x20 4.
Definition i_ldf {B} `{Bus B} : sparc_instruction B :=
  {| statics := f3; execute := i_ldf_execute; disassemble := i_ldf_disassemble;
     opcode_mask := 0xc1000000; priviledge := 0; format := 0x3 |}.

Definition i_lddf_disassemble : Z -> option f3 := disas_f3 0xc1180000 0x3 0x23 4.
Definition i_lddf {B} `{Bus B} : sparc_instruction B :=
  {| statics := f3; execute := i_lddf_execute; disassemble := i_lddf_disassemble;
     opcode_mask := 0xc1180000; priviledge := 0; format := 0x3 |}.

Definition i_st_disassemble : Z -> option f3 := disas_f3 0xc0200000 0x3 0x04 8.
Definition i_st {B} `{Bus B} : sparc_instruction B :=
  {| statics := f3; execute := i_st_execute; disassemble := i_st_disassemble;
     opcode_mask := 0xc0200000; priviledge := 0; format := 0x3 |}.

Definition i_stb_disassemble : Z -> option f3 := disas_f3 0xc0280000 0x3 0x05 4.
Definition i_stb {B} `{Bus B} : sparc_instruction B :=
  {| statics := f3; execute := i_stb_execute; disassemble := i_stb_disassemble;
     opcode_mask := 0xc0280000; priviledge := 0; format := 0x3 |}.

Definition i_sth_disassemble : Z -> option f3 := disas_f3 0xc0300000 0x3 0x06 4.
Definition i_sth {B} `{Bus B} : sparc_instruction B :=
  {| statics := f3; execute := i_sth_execute; disassemble := i_sth_disassemble;
     opcode_mask := 0xc0300000; priviledge := 0; format := 0x3 |}.

Definition i_std_disassemble : Z -> option f3 := disas_f3 0xc0380000 0x3 0x07 4.
Definition i_std {B} `{Bus B} : sparc_instruction B :=
  {| statics := f3; execute := i_std_execute; disassemble := i_std_disassemble;
     opcode_mask := 0xc0380000; priviledge := 0; format := 0x3 |}.

Definition i_stf_disassemble : Z -> option f3 := disas_f3 0xc1200000 0x3 0x24 8.
Definition i_stf {B} `{Bus B} : sparc_instruction B :=
  {| statics := f3; execute := i_stf_execute; disassemble := i_stf_disassemble;
     opcode_mask := 0xc1200000; priviledge := 0; format := 0x3 |}.

Definition i_stdf_disassemble : Z -> option f3 := disas_f3 0xc1380000 0x3 0x27 4.
Definition i_stdf {B} `{Bus B} : sparc_instruction B :=
  {| statics := f3; execute := i_stdf_execute; disassemble := i_stdf_disassemble;
     opcode_mask := 0xc1380000; priviledge := 0; format := 0x3 |}.

Definition i_stfsr_disassemble : Z -> option f3 := disas_f3 0xc1280000 0x3 0x25 8.
Definition i_stfsr {B} `{Bus B} : sparc_instruction B :=
  {| statics := f3; execute := i_stfsr_execute; disassemble := i_stfsr_disassemble;
     opcode_mask := 0xc1280000; priviledge := 0; format := 0x3 |}.

(** ** Well-formedness *)

Section wf.
Context {B : Type} `{BusLaws B}.

Lemma mem_load_wf size addr init (m : machine B) :
  is_u32 init -> machine_wf m ->
  holds (fun '(st, v, m') => st = 0 /\ is_u32 v /\ cpu m' = cpu m /\ machine_wf m')
    (mem_load size addr init m).
Proof.
  intros Hi [Hs Hb]. unfold mem_load.
  eapply holds_bind; [apply bus_read_law, Hb|]. intros [[st v] b] (-> & Hv & Hb'). cbn.
  refine (conj eq_refl (conj _ (conj eq_refl (conj Hs Hb')))). destruct v; cbn; auto.
Qed.

Lemma mem_store_wf size addr v (m : machine B) :
  machine_wf m ->
  holds (fun '(st, m') => st = 0 /\ cpu m' = cpu m /\ machine_wf m') (mem_store size addr v m).
Proof.
  intros [Hs Hb]. unfold mem_store.
  eapply holds_bind; [apply bus_write_law, Hb|]. intros [st b] (-> & Hb').
  exact (conj eq_refl (conj eq_refl (conj Hs Hb'))).
Qed.

Lemma upd_cpu_wf f (m : machine B) :
  (state_wf (cpu m) -> state_wf (f (cpu m))) -> machine_wf m -> machine_wf (upd_cpu f m).
Proof. intros Hf [Hs Hb]. split; cbn; auto. Qed.

Lemma mem_done_wf status (m : machine B) :
  machine_wf m -> holds (fun '(_, m') => machine_wf m') (mem_done status m).
Proof. intros. unfold mem_done. case_match; apply upd_cpu_wf; auto with sparc. Qed.

Lemma mem_trap_wf t (m : machine B) :
  machine_wf m -> holds (fun '(_, m') => machine_wf m') (mem_trap t m).
Proof. intros. apply upd_cpu_wf; auto with sparc. Qed.

(** One access, then a tail that keeps machines well formed. *)
Lemma mem_load_then {A : Type} (Q : A -> Prop) size addr init (m : machine B) k :
  is_u32 init -> machine_wf m ->
  (forall st v m', is_u32 v -> machine_wf m' -> holds Q (k (st, v, m'))) ->
  holds Q (rbind (mem_load size addr init m) k).
Proof.
  intros Hi Hm Hk. eapply holds_bind; [by apply mem_load_wf|].
  intros [[st v] m'] (_ & Hv & _ & Hm'). by apply Hk.
Qed.

Lemma mem_store_then {A : Type} (Q : A -> Prop) size addr v (m : machine B) k :
  machine_wf m -> (forall st m', machine_wf m' -> holds Q (k (st, m'))) ->
  holds Q (rbind (mem_store size addr v m) k).
Proof.
  intros Hm Hk. eapply holds_bind; [by apply mem_store_wf|].
  intros [st m'] (_ & _ & Hm'). by apply Hk.
Qed.

Ltac go i f :=
  intros instr o m _ _ Hm; unfold i; cbn [execute statics]; unfold f; cbv zeta;
  repeat first
  [ match goal with
    | |- holds _ (if ?b then _ else _) => destruct b
    | |- holds _ (rbind (ls_addr9 _ _) _) => unfold ls_addr9
    | |- holds _ (rbind (if ?b then _ else _) _) => destruct b; cbn [rbind]; [exact I|]
    end
  | apply mem_trap_wf; assumption
  | apply mem_done_wf
  | apply mem_load_then; [auto with words | auto | intros ? ? ? ? ?; cbv beta iota zeta]
  | apply mem_store_then; [auto | intros ? ? ?; cbv beta iota zeta]
  | assumption
  | apply upd_cpu_wf; [intros; first [apply wf_set_REG | apply wf_set_FPREG]; assumption | ] ].

Lemma i_ld_wf : preserves machine_wf i_ld. Proof. go @i_ld @i_ld_execute. Qed.
Lemma i_ldd_wf : preserves machine_wf i_ldd. Proof. go @i_ldd @i_ldd_execute. Qed.
Lemma i_ldub_wf : preserves machine_wf i_ldub. Proof. go @i_ldub @i_ldub_execute. Qed.
Lemma i_lduh_wf : preserves machine_wf i_lduh. Proof. go @i_lduh @i_lduh_execute. Qed.
Lemma i_ldsb_wf : preserves machine_wf i_ldsb. Proof. go @i_ldsb @i_ldsb_execute. Qed.
Lemma i_ldsh_wf : preserves machine_wf i_ldsh. Proof. go @i_ldsh @i_ldsh_execute. Qed.
Lemma i_ldf_wf : preserves machine_wf i_ldf. Proof. go @i_ldf @i_ldf_execute. Qed.
Lemma i_lddf_wf : preserves machine_wf i_lddf. Proof. go @i_lddf @i_lddf_execute. Qed.
Lemma i_st_wf : preserves machine_wf i_st. Proof. go @i_st @i_st_execute. Qed.
Lemma i_stb_wf : preserves machine_wf i_stb. Proof. go @i_stb @i_stb_execute. Qed.
Lemma i_sth_wf : preserves machine_wf i_sth. Proof. go @i_sth @i_sth_execute. Qed.
Lemma i_std_wf : preserves machine_wf i_std. Proof. go @i_std @i_std_execute. Qed.
Lemma i_stf_wf : preserves machine_wf i_stf. Proof. go @i_stf @i_stf_execute. Qed.
Lemma i_stdf_wf : preserves machine_wf i_stdf. Proof. go @i_stdf @i_stdf_execute. Qed.
Lemma i_stfsr_wf : preserves machine_wf i_stfsr. Proof. go @i_stfsr @i_stfsr_execute. Qed.
End wf.

#[export] Hint Resolve i_ld_wf i_ldd_wf i_ldub_wf i_lduh_wf i_ldsb_wf i_ldsh_wf i_ldf_wf
  i_lddf_wf i_st_wf i_stb_wf i_sth_wf i_std_wf i_stf_wf i_stdf_wf i_stfsr_wf : isa.
