(* ===== verification/SparcIU.v ===== *)
(** * The integer unit

    src/arch_sparc/common/iu.c: the instruction set table ([iu_i_register],
    [iu_isa_register]), the decoder [iu_get_instr], the initial state, the
    execution of one instruction and the trap cycle; and [sparc_step_once],
    [sparc_set_pc] and [sparc_get_pc] of sparc_arch_interface.c. *)

From Stdlib Require Import ZArith Lia Bool.
From stdpp Require Import base numbers option list.
From S2P Require Import Prelude Words SparcState Windows Bus Isa Traps SparcAlu SparcCtl SparcMem.

Definition FORMAT_TYPES : Z := 4.

(** The machine's periodic work, [mach_io_do_cycle], and its law. *)
Class MachIO (B : Type) : Type := { mach_io_do_cycle : B -> result B }.
Class MachIOLaws (B : Type) `{BusLaws B} `{MachIO B} : Prop := {
  mach_io_do_cycle_law : forall b, bus_inv b -> holds bus_inv (mach_io_do_cycle b)
}.

(** ** The instruction set table *)

(** [i_set[format]] with [i_count[format]] entries. *)
Definition iset (B : Type) : Type := Z -> list (sparc_instruction B).

Definition iset_empty {B} : iset B := fun _ => [].

(** [realloc] is taken to succeed. *)
Definition iu_i_register {B} (i_set : iset B) (i_new : sparc_instruction B) : iset B :=
  fun f => if f =? format i_new then i_set f ++ [i_new] else i_set f.

(** The registrations, in the order of the source. *)
Definition iu_isa {B} `{Bus B} : list (sparc_instruction B) :=
  [i_nop; i_or; i_and; i_andn; i_orn; i_xor; i_xnor; i_orcc; i_andcc; i_andncc; i_sll;
   i_srl; i_sra; i_add; i_addx; i_addcc; i_sub; i_subx; i_subcc; i_subxcc; i_stb; i_sth;
   i_st; i_std; i_sethi; i_jmpl; i_wry; i_wrpsr; i_wrwim; i_wrtbr; i_rdy; i_rdpsr; i_rdwim;
   i_rdtbr; i_ldsb; i_ldsh; i_ldub; i_lduh; i_ld; i_ldd; i_ba; i_bn; i_bne; i_be; i_bg;
   i_ble; i_bge; i_bl; i_bgu; i_bleu; i_bcc; i_bcs; i_bpos; i_bneg; i_bvc; i_bvs; i_flush;
   i_save; i_restore; i_ldf; i_lddf; i_call; i_rett; i_ta; i_stf; i_stdf; i_stfsr; i_udiv;
   i_smul; i_umul; i_mulscc].

Definition iu_isa_register {B} `{Bus B} (i_set : iset B) : iset B :=
  fold_left iu_i_register iu_isa i_set.

(** A decoded instruction: its descriptor and the fields [disassemble] left in
    the static variables of its file. *)
Definition decoded (B : Type) : Type := {i : sparc_instruction B & statics i}.

Fixpoint scan {B} (l : list (sparc_instruction B)) (instr : Z) : option (decoded B) :=
  match l with
  | [] => None
  | i :: l =>
      match disassemble i instr with
      | Some o => Some (existT i o)
      | None => scan l instr
      end
  end.

Definition iu_get_instr {B} (i_set : iset B) (instr : Z) : option (decoded B) :=
  let format := bits instr 31 30 in
  if (format <? 0) || (format >? FORMAT_TYPES) then None
  else scan (i_set format) instr.

(** ** Initial state and program counter *)

(** The counts are reset before the registrations, so that the table is the one
    [iu_isa_register] builds from nothing. *)
Definition iu_init_state (state : sparc_state) : sparc_state :=
  let state := set_irq_pending state 0 in
  let state := set_cycle_counter state 0 in
  let state := set_regwptr1 state (0 * 16) in
  let state := set_PSRREG state 0x0 in
  let state := set_WIMREG state 0x2 in
  let state := set_PSRREG state (set_bit (PSRREG state) PSR_S) in
  let state := set_PSRREG state (set_bit (PSRREG state) PSR_PS) in
  let state := set_PSRREG state (set_bit (PSRREG state) PSR_ET) in
  let state := set_PSRREG state (set_bit (PSRREG state) PSR_EF) in
  let state := set_REG state FP (Z.land (0x40000000 + 0x040000) 0xFFFFFFF0) in
  set_REG state SP (REG state FP - 0x180).

Definition iu_i_set {B} `{Bus B} : iset B := iu_isa_register iset_empty.

Definition iu_set_pc (s : sparc_state) (addr : Z) : sparc_state :=
  let s := set_PCREG s (u32 addr) in set_NPCREG s (u32 (PCREG s + 4)).

Definition iu_get_pc (s : sparc_state) : Z := PCREG s.

(** The static storage the simulator starts from: all zeros. *)
Definition sparc_state_zero : sparc_state :=
  {| global := replicate 8 0; regbase := replicate 520 0; regwptr1 := 0;
     fp_regs := replicate 32 0; YREG := 0; PSRREG := 0; WIMREG := 0; TBRREG := 0; PCREG := 0;
     NPCREG := 0; FPSRREG := 0; CPSRREG := 0; cwp := 0; mode := 0; pipeline := 0;
     irq_pending := 0; cycle_counter := 0 |}.

(** ** One step *)

Section step.
Context {B : Type} `{Bus B} `{MachIO B}.

(** The fetch leaves [instr] unset when no bank answers. *)
Definition iu_cycle_step (m : machine B) : result (Z * machine B) :=
  let pc := iu_get_pc (cpu m) in
  let! (status, v, b) := bus_read 32 pc (bus m) in
  let m := set_bus m b in
  match v with
  | None => Undef
  | Some instr =>
      match iu_get_instr iu_i_set instr with
      | None => Exit 1
      | Some (existT pi o) =>
          let! (cycles, m) := execute pi o m in
          let m := if cycles >? 0
            then upd_cpu (fun s => set_cycle_counter s (u64 (cycle_counter s + cycles))) m
            else m in
          Val (cycles, upd_cpu (fun s => set_REG s G0 0) m)
      end
  end.

Definition iu_trap_cycle (m : machine B) : result (machine B) :=
  if tst (irq_pending (cpu m)) then
    let! s := trigger (cpu m) in
    Val (set_cpu m (set_irq_pending s 0))
  else Val m.

Definition sparc_step_once (m : machine B) : result (machine B) :=
  let! (cycles, m) := iu_cycle_step m in
  let! m := iu_trap_cycle m in
  let! b := mach_io_do_cycle (bus m) in
  Val (set_bus m b).

(** The main loop, for a given number of instructions. *)
Fixpoint sparc_run (n : nat) (m : machine B) : result (machine B) :=
  match n with
  | O => Val m
  | S n => let! m := sparc_step_once m in sparc_run n m
  end.
End step.

(** ** Lemmas on the table *)

Lemma register_all {B} (l : list (sparc_instruction B)) (set : iset B) f :
  fold_left iu_i_register l set f = set f ++ filter (fun i => format i = f) l.
Proof.
  revert set. induction l as [|i l IH]; intros set; cbn [fold_left]; [by rewrite app_nil_r|].
  rewrite IH. unfold iu_i_register. rewrite filter_cons.
  destruct (Z.eqb_spec f (format i)) as [->|Hne].
  - rewrite decide_True by done. by rewrite <- app_assoc.
  - by rewrite decide_False by auto.
Qed.

Lemma iu_i_set_filter {B} `{Bus B} f :
  iu_i_set (B := B) f = filter (fun i => format i = f) iu_isa.
Proof. unfold iu_i_set, iu_isa_register. by rewrite register_all. Qed.

Lemma scan_Some {B} (l : list (sparc_instruction B)) instr d :
  scan l instr = Some d -> projT1 d ∈ l /\ disassemble (projT1 d) instr = Some (projT2 d).
Proof.
  induction l as [|i l IH]; cbn; [done|].
  case_match eqn:E; [intros [= <-]; cbn; split; [left|done]|].
  intros [? ?]%IH. split; [by right|done].
Qed.

Lemma iu_get_instr_Some {B} `{Bus B} instr d :
  iu_get_instr (B := B) iu_i_set instr = Some d ->
  projT1 d ∈ iu_isa (B := B) /\ disassemble (projT1 d) instr = Some (projT2 d).
Proof.
  unfold iu_get_instr. case_match; [done|]. intros [Hin Hd]%scan_Some.
  rewrite iu_i_set_filter in Hin. split; [|done]. by apply list_elem_of_filter in Hin as [_ Hin].
Qed.

(** ** Well-formedness of the steps *)

Section wf.
Context {B : Type} `{BusLaws B} `{MachIO B} `{!MachIOLaws B}.

Lemma iu_isa_wf : Forall (preserves machine_wf) (iu_isa (B := B)).
Proof.
  unfold iu_isa.
  repeat (apply Forall_cons_2; [solve [eauto with isa typeclass_instances]|]). apply Forall_nil_2.
Qed.

Lemma iu_cycle_step_wf (m : machine B) :
  machine_wf m -> holds (fun '(_, m') => machine_wf m') (iu_cycle_step m).
Proof.
  intros [Hs Hb]. unfold iu_cycle_step.
  eapply holds_bind; [apply bus_read_law, Hb|]. intros [[st v] b] (_ & Hv & Hb').
  destruct v as [instr|]; [|done].
  destruct (iu_get_instr iu_i_set instr) as [[pi o]|] eqn:Ed; [|done].
  apply iu_get_instr_Some in Ed as [Hin Hdis]. cbn [projT1 projT2] in *.
  pose proof iu_isa_wf as Hall. rewrite Forall_forall in Hall.
  eapply holds_bind.
  { apply (Hall _ Hin instr o (set_bus m b)); [by apply Hv | exact Hdis | by split]. }
  intros [cycles m'] Hm'. cbn [holds].
  apply upd_cpu_wf; [apply wf_set_REG|]. case_match; [|done].
  apply upd_cpu_wf; [apply wf_set_cycle_counter | done].
Qed.

Lemma iu_trap_cycle_wf (m : machine B) :
  machine_wf m -> holds machine_wf (iu_trap_cycle m).
Proof.
  intros [Hs Hb]. unfold iu_trap_cycle. case_match; [|by split].
  eapply holds_bind; [by apply wf_trigger|]. intros s Hs'. split; cbn; auto with sparc.
Qed.

Lemma sparc_step_once_wf (m : machine B) :
  machine_wf m -> holds machine_wf (sparc_step_once m).
Proof.
  intros Hm. unfold sparc_step_once.
  eapply holds_bind; [by apply iu_cycle_step_wf|]. intros [c m1] Hm1.
  eapply holds_bind; [by apply iu_trap_cycle_wf|]. intros m2 [Hs2 Hb2].
  eapply holds_bind; [by apply mach_io_do_cycle_law|]. intros b Hb. by split.
Qed.
End wf.

(** The zero storage is initialised into a well-formed state, with window 0
    current and interrupts, supervisor mode and the FPU on. *)
Lemma iu_init_state_wf : state_wf (iu_init_state sparc_state_zero).
Proof.
  unfold iu_init_state, set_REG.
  split; try (apply (bool_decide_unpack _); vm_compute; exact I); try (vm_compute; done).
Qed.
