(* ===== verification/SparcDecode.v ===== *)
(** * Decoding

    The decoder of iu.c tries the [disassemble] function of every registered
    instruction in turn.  [decode_ref] is the table of the architecture manual:
    one look at the op, op2, op3 and condition fields.  The theorems show that
    the two agree on every 32-bit word, and that the field extraction inverts
    the encoding. *)

From Stdlib Require Import ZArith Lia Bool.
From stdpp Require Import base numbers option list.
From S2P Require Import Prelude Words SparcState Bus Isa SparcAlu SparcCtl SparcMem SparcIU.

(** ** The reference decoder *)

Definition decode_f3 (rs2_last instr : Z) : f3 :=
  if tst (bit instr 13)
  then {| rd := bits instr 29 25; rs1 := bits instr 18 14; rs2 := -1; imm := bits instr 12 0 |}
  else {| rd := bits instr 29 25; rs1 := bits instr 18 14; rs2 := bits instr rs2_last 0;
          imm := -1 |}.

(** The shifts keep a 5-bit immediate count. *)
Definition decode_shift (instr : Z) : f3 :=
  if tst (bit instr 13)
  then {| rd := bits instr 29 25; rs1 := bits instr 18 14; rs2 := -1; imm := bits instr 4 0 |}
  else {| rd := bits instr 29 25; rs1 := bits instr 18 14; rs2 := bits instr 4 0; imm := -1 |}.

Definition decode_bicc (instr : Z) : bicc :=
  {| annul := bit instr 29; disp22 := bits instr 21 0 |}.

Definition decode_ticc (instr : Z) : ticc :=
  if tst (bit instr 13)
  then {| t_rs1 := bits instr 18 14; t_rs2 := -1; imm7 := bits instr 6 0 |}
  else {| t_rs1 := bits instr 18 14; t_rs2 := bits instr 4 0; imm7 := -1 |}.

Section reference.
Context {B : Type} `{Bus B}.

Definition on {S : Type} (i : sparc_instruction B) (e : S = statics i) (o : S)
    : option (decoded B) :=
  Some (existT i (eq_rect _ (fun T => T) o _ e)).

(** Format 0: SETHI when op2 is 4 (the all-zero SETHI is NOP), otherwise a
    branch on the condition, whatever op2 is; "branch never" has no decoder. *)
Definition decode_ref0 (instr : Z) : option (decoded B) :=
  let b := decode_bicc instr in
  if bits instr 24 22 =? 4 then
    if instr =? 0x01000000 then on i_nop eq_refl tt
    else on i_sethi eq_refl {| sethi_rd := bits instr 29 25; imm22 := bits instr 21 0 |}
  else
    match bits instr 28 25 with
    | 1 => on i_be eq_refl b
    | 2 => on i_ble eq_refl b
    | 3 => on i_bl eq_refl b
    | 4 => on i_bleu eq_refl b
    | 5 => on i_bcs eq_refl b
    | 6 => on i_bneg eq_refl b
    | 7 => on i_bvs eq_refl b
    | 8 => on i_ba eq_refl b
    | 9 => on i_bne eq_refl b
    | 10 => on i_bg eq_refl b
    | 11 => on i_bge eq_refl b
    | 12 => on i_bgu eq_refl b
    | 13 => on i_bcc eq_refl b
    | 14 => on i_bpos eq_refl b
    | 15 => on i_bvc eq_refl b
    | _ => None
    end.

(** Format 2, on op3. *)
Definition decode_ref2 (instr : Z) : option (decoded B) :=
  let f := decode_f3 4 instr in
  match bits instr 24 19 with
  | 0 => on i_add eq_refl f
  | 1 => on i_and eq_refl f
  | 2 => on i_or eq_refl f
  | 3 => on i_xor eq_refl f
  | 4 => on i_sub eq_refl f
  | 5 => on i_andn eq_refl f
  | 6 => on i_orn eq_refl f
  | 7 => on i_xnor eq_refl f
  | 8 => on i_addx eq_refl f
  | 10 => on i_umul eq_refl f
  | 11 => on i_smul eq_refl f
  | 12 => on i_subx eq_refl f
  | 14 => on i_udiv eq_refl f
  | 16 => on i_addcc eq_refl f
  | 17 => on i_andcc eq_refl f
  | 18 => on i_orcc eq_refl f
  | 20 => on i_subcc eq_refl f
  | 21 => on i_andncc eq_refl f
  | 28 => on i_subxcc eq_refl f
  | 36 => if tst (Z.land instr 0x8120000) then on i_mulscc eq_refl f else None
  | 37 => on i_sll eq_refl (decode_shift instr)
  | 38 => on i_srl eq_refl (decode_shift instr)
  | 39 => on i_sra eq_refl (decode_shift instr)
  | 40 => on i_rdy eq_refl f
  | 41 => on i_rdpsr eq_refl (bits instr 29 25)
  | 42 => on i_rdwim eq_refl (bits instr 29 25)
  | 43 => on i_rdtbr eq_refl (bits instr 29 25)
  | 48 => on i_wry eq_refl f
  | 49 => on i_wrpsr eq_refl f
  | 50 => on i_wrwim eq_refl f
  | 51 => on i_wrtbr eq_refl f
  | 56 => on i_jmpl eq_refl f
  | 57 => on i_rett eq_refl f
  | 58 => on i_ta eq_refl (decode_ticc instr)
  | 59 => on i_flush eq_refl f
  | 60 => on i_save eq_refl f
  | 61 => on i_restore eq_refl f
  | _ => None
  end.

(** Format 3, on op3; the 9-bit rs2 field of three stores is as decoded. *)
Definition decode_ref3 (instr : Z) : option (decoded B) :=
  let f := decode_f3 4 instr in
  match bits instr 24 19 with
  | 0 => on i_ld eq_refl f
  | 1 => on i_ldub eq_refl f
  | 2 => on i_lduh eq_refl f
  | 3 => on i_ldd eq_refl f
  | 4 => on i_st eq_refl (decode_f3 8 instr)
  | 5 => on i_stb eq_refl f
  | 6 => on i_sth eq_refl f
  | 7 => on i_std eq_refl f
  | 9 => on i_ldsb eq_refl f
  | 10 => on i_ldsh eq_refl f
  | 32 => on i_ldf eq_refl f
  | 35 => on i_lddf eq_refl f
  | 36 => on i_stf eq_refl (decode_f3 8 instr)
  | 37 => on i_stfsr eq_refl (decode_f3 8 instr)
  | 39 => on i_stdf eq_refl f
  | _ => None
  end.

Definition decode_ref (instr : Z) : option (decoded B) :=
  match bits instr 31 30 with
  | 0 => decode_ref0 instr
  | 1 => on i_call eq_refl (bits instr 29 0)
  | 2 => decode_ref2 instr
  | 3 => decode_ref3 instr
  | _ => None
  end.

(** ** The table by format *)
Lemma iu_i_set_0 : iu_i_set (B := B) 0 =
  [i_nop; i_sethi; i_ba; i_bn; i_bne; i_be; i_bg; i_ble; i_bge; i_bl; i_bgu; i_bleu;
   i_bcc; i_bcs; i_bpos; i_bneg; i_bvc; i_bvs].
Proof. reflexivity. Qed.
Lemma iu_i_set_1 : iu_i_set (B := B) 1 =
  [i_call].
Proof. reflexivity. Qed.
Lemma iu_i_set_2 : iu_i_set (B := B) 2 =
  [i_or; i_and; i_andn; i_orn; i_xor; i_xnor; i_orcc; i_andcc; i_andncc; i_sll; i_srl;
   i_sra; i_add; i_addx; i_addcc; i_sub; i_subx; i_subcc; i_subxcc; i_jmpl; i_wry;
   i_wrpsr; i_wrwim; i_wrtbr; i_rdy; i_rdpsr; i_rdwim; i_rdtbr; i_flush; i_save;
   i_restore; i_rett; i_ta; i_udiv; i_smul; i_umul; i_mulscc].
Proof. reflexivity. Qed.
Lemma iu_i_set_3 : iu_i_set (B := B) 3 =
  [i_stb; i_sth; i_st; i_std; i_ldsb; i_ldsh; i_ldub; i_lduh; i_ld; i_ldd; i_ldf; i_lddf;
   i_stf; i_stdf; i_stfsr].
Proof. reflexivity. Qed.
End reference.

(** ** Field and mask lemmas *)

(** The older files extract a field by mask and shift. *)
Lemma mask_shift_bits x n m :
  0 <= m <= n -> n <= 31 -> Z.shiftr (Z.land x (bitsmask n m)) m = bits x n m.
Proof.
  intros Hm Hn. rewrite bits_spec by lia. apply Z.bits_inj'. intros i Hi.
  rewrite Z.shiftr_spec, Z.land_spec, testbit_bitsmask by lia.
  destruct (Z.lt_ge_cases i (n - m + 1)).
  - rewrite Z.mod_pow2_bits_low, Z.div_pow2_bits by lia.
    rewrite (proj2 (Z.leb_le m (i + m))), (proj2 (Z.leb_le (i + m) n)) by lia.
    apply andb_true_r.
  - rewrite Z.mod_pow2_bits_high by lia. rewrite (proj2 (Z.leb_gt (i + m) n)) by lia.
    by rewrite !andb_false_r.
Qed.

Lemma testbit_bits x n m i :
  0 <= m <= n -> n <= 31 -> 0 <= i <= n - m ->
  Z.testbit (bits x n m) i = Z.testbit x (i + m).
Proof.
  intros. rewrite bits_spec by lia. rewrite Z.mod_pow2_bits_low, Z.div_pow2_bits by lia. done.
Qed.

(** A word and a mask that share a bit. *)
Lemma mask_hit instr mask k :
  0 <= k -> Z.testbit instr k = true -> Z.testbit mask k = true ->
  tst (Z.land instr mask) = true.
Proof.
  intros Hk Hi Hm. unfold tst. destruct (Z.eqb_spec (Z.land instr mask) 0) as [H0|]; [|done].
  assert (Hb : Z.testbit (Z.land instr mask) k = true) by (by rewrite Z.land_spec, Hi, Hm).
  rewrite H0, Z.bits_0 in Hb. done.
Qed.

(** The op field is in the mask of every instruction of formats 2 and 3. *)
Lemma mask_hit_op instr mask op :
  bits instr 31 30 = op -> op = 2 \/ op = 3 -> Z.testbit mask 31 = true ->
  tst (Z.land instr mask) = true.
Proof.
  intros Ho Hop Hm. apply (mask_hit _ _ 31); [lia | | done].
  change 31 with (1 + 30) at 1. rewrite <- (testbit_bits instr 31 30 1), Ho by lia.
  by destruct Hop as [-> | ->].
Qed.

Lemma disas_f3_eq mask op op3 rs2_last instr :
  bits instr 31 30 = op -> op = 2 \/ op = 3 -> Z.testbit mask 31 = true ->
  disas_f3 mask op op3 rs2_last instr
  = if bits instr 24 19 =? op3 then Some (decode_f3 rs2_last instr) else None.
Proof.
  intros Ho Hop Hm. unfold disas_f3, decode_f3.
  rewrite (mask_hit_op _ _ op), Ho, Z.eqb_refl by done. cbn [andb].
  by destruct (bits instr 24 19 =? op3), (tst (bit instr 13)).
Qed.

Lemma disas_shift_eq mask op3 instr :
  bits instr 31 30 = 2 -> Z.testbit mask 31 = true ->
  disas_shift mask 2 op3 instr
  = if bits instr 24 19 =? op3 then Some (decode_shift instr) else None.
Proof.
  intros Ho Hm. unfold disas_shift, decode_shift.
  rewrite (mask_hit_op _ _ 2), Ho by auto. cbn [andb Z.eqb Pos.eqb].
  by destruct (bits instr 24 19 =? op3), (tst (bit instr 13)).
Qed.

Lemma disas_rd_eq mask op3 instr :
  bits instr 31 30 = 2 -> Z.testbit mask 31 = true ->
  disas_rd mask op3 instr = if bits instr 24 19 =? op3 then Some (bits instr 29 25) else None.
Proof.
  intros Ho Hm. unfold disas_rd.
  change 0xc0000000 with (bitsmask 31 30). change 0x01f80000 with (bitsmask 24 19).
  change 0x3e000000 with (bitsmask 29 25). rewrite !mask_shift_bits by lia.
  rewrite (mask_hit_op _ _ 2), Ho by auto. cbn. by destruct (bits instr 24 19 =? op3).
Qed.

Lemma disas_ta_eq instr :
  bits instr 31 30 = 2 ->
  i_ta_disassemble instr = if bits instr 24 19 =? 0x3a then Some (decode_ticc instr) else None.
Proof.
  intros Ho. unfold i_ta_disassemble, decode_ticc.
  rewrite (mask_hit_op _ _ 2), Ho by auto. cbn [andb Z.eqb Pos.eqb].
  by destruct (bits instr 24 19 =? 0x3a), (tst (bit instr 13)).
Qed.

Lemma disas_mulscc_eq instr :
  bits instr 31 30 = 2 ->
  i_mulscc_disassemble instr
  = if tst (Z.land instr 0x8120000) && (bits instr 24 19 =? 0x24)
    then Some (decode_f3 4 instr) else None.
Proof.
  intros Ho. unfold i_mulscc_disassemble, disas_f3, decode_f3. rewrite Ho.
  rewrite andb_true_r.
  by destruct (tst (Z.land instr 0x8120000)), (bits instr 24 19 =? 0x24), (tst (bit instr 13)).
Qed.

(** A condition and a mask that share one of the four condition bits. *)
Definition cond_in_mask (mask c : Z) : bool :=
  existsb (fun k => Z.testbit mask (k + 25) && Z.testbit c k) [0; 1; 2; 3].

Lemma disas_bicc_eq mask c instr :
  bits instr 31 30 = 0 -> cond_in_mask mask c = true ->
  disas_bicc mask c instr
  = if bits instr 28 25 =? c then Some (decode_bicc instr) else None.
Proof.
  intros Ho Hc. unfold disas_bicc, decode_bicc. rewrite Ho. cbn [Z.eqb]. rewrite andb_true_r.
  destruct (Z.eqb_spec (bits instr 28 25) c) as [<-|]; [|by rewrite andb_false_r].
  unfold cond_in_mask in Hc. apply existsb_exists in Hc as (k & Hk & [Hm Hb]%andb_true_iff).
  assert (0 <= k <= 3) by (cbn in Hk; lia).
  rewrite testbit_bits in Hb by lia. by rewrite (mask_hit instr mask (k + 25)) by (auto; lia).
Qed.

(** BN: the condition is compared with a field that is always 0. *)
Lemma disas_bn_eq instr : i_bn_disassemble instr = None.
Proof.
  unfold i_bn_disassemble. rewrite (Z.shiftr_land instr 0x01f80000 25), Z.land_0_r.
  by rewrite andb_false_r.
Qed.

Lemma disas_sethi_eq instr :
  bits instr 31 30 = 0 ->
  i_sethi_disassemble instr
  = if bits instr 24 22 =? 4
    then Some {| sethi_rd := bits instr 29 25; imm22 := bits instr 21 0 |} else None.
Proof.
  intros Ho. unfold i_sethi_disassemble. rewrite Ho. cbn [Z.eqb]. rewrite andb_true_r.
  destruct (Z.eqb_spec (bits instr 24 22) 4) as [H4|]; [|by case_match].
  rewrite (mask_hit instr _ 24); [done | lia | | done].
  change 24 with (2 + 22) at 1. by rewrite <- (testbit_bits instr 24 22), H4 by lia.
Qed.

Lemma disas_nop_eq instr :
  i_nop_disassemble instr = if instr =? 0x1000000 then Some tt else None.
Proof.
  unfold i_nop_disassemble. destruct (Z.eqb_spec (Z.lxor instr 0x1000000) 0) as [H|H].
  - apply Z.lxor_eq in H as ->. done.
  - destruct (Z.eqb_spec instr 0x1000000) as [->|]; [by rewrite Z.lxor_nilpotent in H | done].
Qed.

(** ** The scan is the table *)

Section agree.
Context {B : Type} `{Bus B} (instr : Z).

Lemma scan_cons (i : sparc_instruction B) l :
  scan (i :: l) instr
  = match disassemble i instr with Some o => Some (existT i o) | None => scan l instr end.
Proof. reflexivity. Qed.

(** Show the decoder behind each [disassemble i instr] of the goal. *)
Ltac expose :=
  repeat match goal with
  | |- context [disassemble ?i instr] =>
      let t := eval cbv beta iota delta [disassemble
    i_nop i_or i_and i_andn i_orn i_xor i_xnor i_orcc i_andcc i_andncc i_sll i_srl
    i_sra i_add i_addx i_addcc i_sub i_subx i_subcc i_subxcc i_stb i_sth i_st
    i_std i_sethi i_jmpl i_wry i_wrpsr i_wrwim i_wrtbr i_rdy i_rdpsr i_rdwim
    i_rdtbr i_ldsb i_ldsh i_ldub i_lduh i_ld i_ldd i_ba i_bn i_bne i_be i_bg i_ble
    i_bge i_bl i_bgu i_bleu i_bcc i_bcs i_bpos i_bneg i_bvc i_bvs i_flush i_save
    i_restore i_ldf i_lddf i_call i_rett i_ta i_stf i_stdf i_stfsr i_udiv i_smul
    i_umul i_mulscc i_or_disassemble i_and_disassemble i_andn_disassemble
    i_orn_disassemble i_xor_disassemble i_xnor_disassemble i_orcc_disassemble
    i_andcc_disassemble i_andncc_disassemble i_sll_disassemble i_srl_disassemble
    i_sra_disassemble i_add_disassemble i_addx_disassemble i_addcc_disassemble
    i_sub_disassemble i_subx_disassemble i_subcc_disassemble i_subxcc_disassemble
    i_stb_disassemble i_sth_disassemble i_st_disassemble i_std_disassemble
    i_jmpl_disassemble i_wry_disassemble i_wrpsr_disassemble i_wrwim_disassemble
    i_wrtbr_disassemble i_rdy_disassemble i_rdpsr_disassemble i_rdwim_disassemble
    i_rdtbr_disassemble i_ldsb_disassemble i_ldsh_disassemble i_ldub_disassemble
    i_lduh_disassemble i_ld_disassemble i_ldd_disassemble i_ba_disassemble
    i_bne_disassemble i_be_disassemble i_bg_disassemble i_ble_disassemble
    i_bge_disassemble i_bl_disassemble i_bgu_disassemble i_bleu_disassemble
    i_bcc_disassemble i_bcs_disassemble i_bpos_disassemble i_bneg_disassemble
    i_bvc_disassemble i_bvs_disassemble i_flush_disassemble i_save_disassemble
    i_restore_disassemble i_ldf_disassemble i_lddf_disassemble i_call_disassemble
    i_rett_disassemble i_stf_disassemble i_stdf_disassemble i_stfsr_disassemble
    i_udiv_disassemble i_smul_disassemble i_umul_disassemble] in (disassemble i instr) in
      change (disassemble i instr) with t
  end.

Lemma scan_0 : bits instr 31 30 = 0 -> scan (iu_i_set (B := B) 0) instr = decode_ref0 instr.
Proof.
  intros Ho. rewrite iu_i_set_0, !scan_cons. unfold decode_ref0. expose.
  rewrite disas_nop_eq, disas_sethi_eq, disas_bn_eq by done.
  destruct (Z.eqb_spec instr 0x1000000) as [->|]; [reflexivity|].
  destruct (bits instr 24 22 =? 4); [reflexivity|].
  rewrite !(disas_bicc_eq _ _ instr Ho) by reflexivity.
  pose proof (bits_range instr 28 25 ltac:(lia) ltac:(lia)).
  generalize dependent (bits instr 28 25). intros c Hc. change (2 ^ _) with 16 in Hc.
  enum_Z c 0 16; reflexivity.
Qed.

Lemma scan_1 : bits instr 31 30 = 1 ->
  scan (iu_i_set (B := B) 1) instr = on i_call eq_refl (bits instr 29 0).
Proof.
  intros Ho. rewrite iu_i_set_1, !scan_cons. expose. unfold i_call_disassemble.
  by rewrite Ho.
Qed.

Lemma scan_2 : bits instr 31 30 = 2 -> scan (iu_i_set (B := B) 2) instr = decode_ref2 instr.
Proof.
  intros Ho. rewrite iu_i_set_2, !scan_cons. unfold decode_ref2. expose.
  rewrite disas_ta_eq, disas_mulscc_eq by done.
  rewrite !(disas_f3_eq _ _ _ _ instr Ho), !(disas_rd_eq _ _ instr Ho),
    !(disas_shift_eq _ _ instr Ho) by auto.
  pose proof (bits_range instr 24 19 ltac:(lia) ltac:(lia)).
  generalize dependent (bits instr 24 19). intros op3 H3. change (2 ^ _) with 64 in H3.
  destruct (tst (Z.land instr 0x8120000)); enum_Z op3 0 64; reflexivity.
Qed.

Lemma scan_3 : bits instr 31 30 = 3 -> scan (iu_i_set (B := B) 3) instr = decode_ref3 instr.
Proof.
  intros Ho. rewrite iu_i_set_3, !scan_cons. unfold decode_ref3. expose.
  rewrite !(disas_f3_eq _ _ _ _ instr Ho) by auto.
  pose proof (bits_range instr 24 19 ltac:(lia) ltac:(lia)).
  generalize dependent (bits instr 24 19). intros op3 H3. change (2 ^ _) with 64 in H3.
  enum_Z op3 0 64; reflexivity.
Qed.

Lemma get_instr_ref : iu_get_instr (B := B) iu_i_set instr = decode_ref instr.
Proof.
  unfold iu_get_instr, decode_ref.
  pose proof (bits_range instr 31 30 ltac:(lia) ltac:(lia)) as Hf.
  destruct (Z.eq_dec (bits instr 31 30) 0) as [E|?]; [rewrite E; by apply scan_0|].
  destruct (Z.eq_dec (bits instr 31 30) 1) as [E|?]; [rewrite E; by apply scan_1|].
  destruct (Z.eq_dec (bits instr 31 30) 2) as [E|?]; [rewrite E; by apply scan_2|].
  destruct (Z.eq_dec (bits instr 31 30) 3) as [E|?]; [rewrite E; by apply scan_3|].
  change (2 ^ _) with 4 in Hf. lia.
Qed.
End agree.

(** ** Encoding *)

(** The word of a format 2 or 3 instruction with the fields [o]. *)
Definition encode_f3 (op op3 : Z) (o : f3) : Z :=
  op * 2 ^ 30 + rd o * 2 ^ 25 + op3 * 2 ^ 19 + rs1 o * 2 ^ 14
  + (if imm o <? 0 then rs2 o else 2 ^ 13 + imm o).

Lemma bits_of x n m q r h :
  0 <= m <= n -> n <= 31 -> x = (h * 2 ^ (n - m + 1) + q) * 2 ^ m + r ->
  0 <= r < 2 ^ m -> 0 <= q < 2 ^ (n - m + 1) -> bits x n m = q.
Proof.
  intros Hm Hn -> Hr Hq. rewrite bits_spec by lia.
  rewrite Z.div_add_l by lia. rewrite (Z.div_small r) by lia. rewrite Z.add_0_r.
  rewrite Z.add_comm, Z_mod_plus_full. by apply Z.mod_small.
Qed.

Lemma encode_fields op op3 o :
  0 <= op < 4 -> 0 <= op3 < 64 -> f3_wf o ->
  let w := encode_f3 op op3 o in
  is_u32 w /\ bits w 31 30 = op /\ bits w 24 19 = op3 /\ decode_f3 4 w = o /\ decode_f3 8 w = o.
Proof.
  intros Hop Hop3 (Hrd & Hrs1 & Ho). destruct o as [d a b i]. cbn [rd rs1 rs2 imm] in *.
  cbv zeta. unfold encode_f3. cbn [rd rs1 rs2 imm].
  set (low := if i <? 0 then b else 2 ^ 13 + i).
  assert (Hlow : 0 <= low < 2 ^ 14)
    by (subst low; destruct (Z.ltb_spec i 0); lia).
  set (w := _ + low).
  assert (H1 : bits w 31 30 = op)
    by (apply (bits_of _ _ _ _ (w - op * 2 ^ 30) 0); subst w; lia).
  assert (H2 : bits w 29 25 = d)
    by (apply (bits_of _ _ _ _ (w - op * 2 ^ 30 - d * 2 ^ 25) op); subst w; lia).
  assert (H3 : bits w 24 19 = op3)
    by (apply (bits_of _ _ _ _ (a * 2 ^ 14 + low) (op * 2 ^ 5 + d)); subst w; lia).
  assert (H4 : bits w 18 14 = a)
    by (apply (bits_of _ _ _ _ low ((op * 2 ^ 5 + d) * 2 ^ 6 + op3)); subst w; lia).
  split; [unfold is_u32; subst w; lia|]. split; [done|]. split; [done|].
  set (h := (((op * 2 ^ 5 + d) * 2 ^ 6 + op3) * 2 ^ 5 + a)).
  assert (Hw : w = h * 2 ^ 14 + low) by (subst w h; lia).
  assert (Hi : bit w 13 = bits w 13 13).
  { rewrite bits_spec by lia. unfold bit. by rewrite (Z.land_ones _ 1), Z.shiftr_div_pow2 by lia. }
  unfold decode_f3. rewrite Hi, H2, H4. subst low.
  destruct Ho as [[-> Hb]|[-> Hi']]; cbn [Z.ltb] in *.
  - cbn in Hw. rewrite (bits_of w 13 13 0 b h) by lia. cbn [tst Z.eqb negb].
    rewrite (bits_of w 4 0 b 0 (h * 2 ^ 9)), (bits_of w 8 0 b 0 (h * 2 ^ 5)) by lia. done.
  - destruct (Z.ltb_spec i 0); [lia|].
    rewrite (bits_of w 13 13 1 i h) by lia. cbn [tst Z.eqb negb].
    by rewrite (bits_of w 12 0 i 0 (h * 2 + 1)) by lia.
Qed.
