(* ===== verification/AluProps.v ===== *)
(** * Lemmas on the effect of the register-to-register instructions

    What a state looks like after an instruction that writes one register and
    advances ([wrote]), the value of the condition codes after the chains of
    PSR updates the code uses, and the meaning of its sign-bit formulas; then the theorems on
    arithmetic and logic instructions. *)

From Stdlib Require Import ZArith Lia Bool.
From stdpp Require Import base numbers option list.
From S2P Require Import Prelude Words Bus SparcState Windows Isa Traps SparcAlu SparcCtl.

(** ** One register written, program counters advanced *)
Record wrote (r v : Z) (s s' : sparc_state) : Prop := {
  wrote_reg : forall x, 0 <= x < 32 -> REG s' x = if x =? r then u32 v else REG s x;
  wrote_pc : PCREG s' = NPCREG s;
  wrote_npc : NPCREG s' = u32 (NPCREG s + 4);
  wrote_win : CWP s' = CWP s /\ WIMREG s' = WIMREG s;
  wrote_rest : TBRREG s' = TBRREG s /\ irq_pending s' = irq_pending s /\ fp_regs s' = fp_regs s
}.

Lemma wrote_ext r v v' s s' : u32 v = u32 v' -> wrote r v s s' -> wrote r v' s s'.
Proof. intros Hv []. split; [rewrite <- Hv|..]; done. Qed.

(** [step_pc], then a PSR or Y update, over a register write. *)
Lemma wrote_step s r v :
  state_wf s -> 0 <= r < 32 -> wrote r v s (step_pc (set_REG s r v)).
Proof.
  intros Hwf Hr. split; cbn; autorewrite with sparc_simpl; try done.
  - intros x Hx. change (REG (step_pc ?s)) with (REG s). by rewrite REG_set_REG.
  - unfold CWP; cbn. autorewrite with sparc_simpl. done.
Qed.

Lemma wrote_step_psr s r v p :
  state_wf s -> 0 <= r < 32 -> bits p 4 0 = CWP s ->
  wrote r v s (step_pc (set_PSRREG (set_REG s r v) p)).
Proof.
  intros Hwf Hr Hp. destruct (wrote_step s r v Hwf Hr) as [Hreg Hpc Hnpc [_ Hwim] Hrest].
  split; try done.
Qed.

(** ** Chains of PSR updates *)

Lemma when_set_bit b k s p :
  when b (fun s => set_PSRREG s (set_bit (PSRREG s) k)) (set_PSRREG s p)
  = set_PSRREG s (if b then set_bit p k else p).
Proof. by destruct b. Qed.

(** The PSR with its four condition bits cleared. *)
Definition icc_cleared (p : Z) : Z :=
  clear_bit (clear_bit (clear_bit (clear_bit p PSR_icc_Z) PSR_icc_N) PSR_icc_V) PSR_icc_C.

Lemma clear_icc_eq s : clear_icc s = set_PSRREG s (icc_cleared (PSRREG s)).
Proof. reflexivity. Qed.

Lemma testbit_icc_cleared p i :
  is_u32 p -> 0 <= i ->
  Z.testbit (icc_cleared p) i = Z.testbit p i && negb ((20 <=? i) && (i <=? 23)).
Proof.
  intros Hp Hi. unfold icc_cleared, PSR_icc_Z, PSR_icc_N, PSR_icc_V, PSR_icc_C.
  rewrite !testbit_clear_bit by (auto with words; lia).
  destruct (Z.testbit p i); cbn; [|done].
  destruct (Z.eqb_spec i 22), (Z.eqb_spec i 23), (Z.eqb_spec i 21), (Z.eqb_spec i 20),
    (Z.leb_spec 20 i), (Z.leb_spec i 23); cbn; lia.
Qed.

(** The four bits set where the flags say. *)
Definition with_icc (n z v c : bool) (p : Z) : Z :=
  let p := icc_cleared p in
  let p := if n then set_bit p PSR_icc_N else p in
  let p := if z then set_bit p PSR_icc_Z else p in
  let p := if v then set_bit p PSR_icc_V else p in
  if c then set_bit p PSR_icc_C else p.

Lemma testbit_if_set (b : bool) p k i :
  0 <= k <= 31 -> 0 <= i ->
  Z.testbit (if b then set_bit p k else p) i = Z.testbit p i || (b && (i =? k)).
Proof. intros. destruct b; cbn; [by apply testbit_set_bit | by rewrite orb_false_r]. Qed.

Lemma testbit_with_icc n z v c p i :
  is_u32 p -> 0 <= i ->
  Z.testbit (with_icc n z v c p) i
  = (Z.testbit p i && negb ((20 <=? i) && (i <=? 23)))
    || (n && (i =? 23)) || (z && (i =? 22)) || (v && (i =? 21)) || (c && (i =? 20)).
Proof.
  intros. unfold with_icc, PSR_icc_N, PSR_icc_Z, PSR_icc_V, PSR_icc_C; cbv zeta.
  rewrite !testbit_if_set by lia. by rewrite testbit_icc_cleared.
Qed.

Lemma with_icc_u32 n z v c p : is_u32 p -> is_u32 (with_icc n z v c p).
Proof.
  intros. unfold with_icc, icc_cleared, PSR_icc_N, PSR_icc_Z, PSR_icc_V, PSR_icc_C.
  destruct n, z, v, c; auto 10 with words.
Qed.

(** What the condition codes of a state read. *)
Record flags (s : sparc_state) (n z v c : bool) : Prop := {
  flag_n : psr_get_neg s = Z.b2z n;
  flag_z : psr_get_zero s = Z.b2z z;
  flag_v : psr_get_overflow s = Z.b2z v;
  flag_c : psr_get_carry s = Z.b2z c
}.

Lemma flags_with_icc s n z v c p :
  is_u32 p -> PSRREG s = with_icc n z v c p -> flags s n z v c.
Proof.
  intros Hp Hs. split; unfold psr_get_neg, psr_get_zero, psr_get_overflow, psr_get_carry;
    rewrite Hs, bit_testbit, testbit_with_icc by (done || (compute; done));
    f_equal; unfold PSR_icc_N, PSR_icc_Z, PSR_icc_V, PSR_icc_C;
    cbn [Z.leb Z.eqb Z.compare Pos.compare Pos.compare_cont Pos.eqb andb negb];
    rewrite ?andb_false_r, ?andb_true_r, ?orb_false_l, ?orb_false_r; done.
Qed.

(** Collapse a chain of updates into one PSR value. *)
Ltac icc_chain :=
  unfold psr_set_carry, psr_set_overflow, psr_set_zero, psr_set_neg;
  rewrite clear_icc_eq, !when_set_bit.

(** The order in which the bits are set does not matter. *)
Ltac icc_sort Hp :=
  apply Z.bits_inj'; intros i Hi;
  rewrite testbit_with_icc by (exact Hp || exact Hi);
  repeat (rewrite testbit_if_set by (unfold PSR_icc_N, PSR_icc_Z, PSR_icc_V, PSR_icc_C; lia));
  rewrite testbit_icc_cleared by (exact Hp || exact Hi);
  unfold PSR_icc_N, PSR_icc_Z, PSR_icc_V, PSR_icc_C;
  repeat match goal with |- context [(?a && ?b)] => destruct (a && b) end; reflexivity.

Lemma cwp_with_icc n z v c p : is_u32 p -> bits (with_icc n z v c p) 4 0 = bits p 4 0.
Proof.
  intros Hp. apply bits_4_0_testbit. intros i Hi. rewrite testbit_with_icc by (done || lia).
  destruct (Z.leb_spec 20 i), (Z.eqb_spec i 23), (Z.eqb_spec i 22), (Z.eqb_spec i 21),
    (Z.eqb_spec i 20); try lia. cbn. by rewrite !andb_false_r, !orb_false_r, andb_true_r.
Qed.

(** ** The sign-bit formulas *)

Lemma tst_bit31 x : is_u32 x -> tst (bit x 31) = (2147483648 <=? x).
Proof. intros Hx. rewrite bit31 by done. by destruct (_ <=? x). Qed.

Lemma bit_s32 z : bit (s32 z) 31 = bit (u32 z) 31.
Proof.
  rewrite !bit_testbit by lia. f_equal.
  transitivity (Z.testbit (u32 (s32 z)) 31); [|by rewrite u32_s32].
  rewrite testbit_u32 by lia. by rewrite andb_true_r.
Qed.

Lemma s32_zero z : (s32 z =? 0) = (u32 z =? 0).
Proof. unfold s32, u32. case_tests; Z.div_mod_to_equations; lia. Qed.

Lemma s32_of_u32 z : s32 (u32 z) = s32 z.
Proof. unfold s32. by rewrite u32_idem. Qed.

(** Two's complement value of a 32-bit word. *)
Lemma s32_val x : is_u32 x -> s32 x = if 2147483648 <=? x then x - 4294967296 else x.
Proof. intros Hx. unfold s32. rewrite u32_id by done. case_tests; lia. Qed.

Definition signed_overflow (z : Z) : bool := (z <? -2147483648) || (2147483648 <=? z).

Lemma add_carry_spec x y :
  is_u32 x -> is_u32 y ->
  add_carry_bits (tst (bit x 31)) (tst (bit y 31)) (tst (bit (u32 (x + y)) 31))
  = (4294967296 <=? x + y).
Proof.
  intros Hx Hy. rewrite !tst_bit31 by auto with words. unfold add_carry_bits, is_u32, u32 in *.
  destruct (Z.leb_spec 2147483648 x), (Z.leb_spec 2147483648 y),
    (Z.leb_spec 2147483648 ((x + y) mod 4294967296)), (Z.leb_spec 4294967296 (x + y));
    cbn; Z.div_mod_to_equations; lia.
Qed.

Lemma add_overflow_spec x y :
  is_u32 x -> is_u32 y ->
  add_overflow_bits (tst (bit x 31)) (tst (bit y 31)) (tst (bit (u32 (x + y)) 31))
  = signed_overflow (s32 x + s32 y).
Proof.
  intros Hx Hy. rewrite !tst_bit31, !s32_val by auto with words.
  unfold add_overflow_bits, signed_overflow, is_u32, u32 in *.
  destruct (Z.leb_spec 2147483648 x), (Z.leb_spec 2147483648 y),
    (Z.leb_spec 2147483648 ((x + y) mod 4294967296));
    repeat match goal with
    | |- context [?a <? ?b] => destruct (Z.ltb_spec a b)
    | |- context [?a <=? ?b] => destruct (Z.leb_spec a b)
    end; cbn; Z.div_mod_to_equations; lia.
Qed.

Lemma sub_carry_spec x y :
  is_u32 x -> is_u32 y ->
  sub_carry_bits (tst (bit x 31)) (tst (bit y 31)) (tst (bit (u32 (x - y)) 31)) = (x <? y).
Proof.
  intros Hx Hy. rewrite !tst_bit31 by auto with words. unfold sub_carry_bits, is_u32, u32 in *.
  destruct (Z.leb_spec 2147483648 x), (Z.leb_spec 2147483648 y),
    (Z.leb_spec 2147483648 ((x - y) mod 4294967296)), (Z.ltb_spec x y);
    cbn; Z.div_mod_to_equations; lia.
Qed.

Lemma sub_overflow_spec x y :
  is_u32 x -> is_u32 y ->
  sub_overflow_bits (tst (bit x 31)) (tst (bit y 31)) (tst (bit (u32 (x - y)) 31))
  = signed_overflow (s32 x - s32 y).
Proof.
  intros Hx Hy. rewrite !tst_bit31, !s32_val by auto with words.
  unfold sub_overflow_bits, signed_overflow, is_u32, u32 in *.
  destruct (Z.leb_spec 2147483648 x), (Z.leb_spec 2147483648 y),
    (Z.leb_spec 2147483648 ((x - y) mod 4294967296));
    repeat match goal with
    | |- context [?a <? ?b] => destruct (Z.ltb_spec a b)
    | |- context [?a <=? ?b] => destruct (Z.leb_spec a b)
    end; cbn; Z.div_mod_to_equations; lia.
Qed.

Lemma lxor_b2z a b : tst (Z.lxor (Z.b2z a) (Z.b2z b)) = xorb a b.
Proof. by destruct a, b. Qed.

Lemma tst_b2z a : tst (Z.b2z a) = a.
Proof. by destruct a. Qed.

(** N xor V after an addition is the sign of the exact sum. *)
Lemma add_sign x y :
  is_u32 x -> is_u32 y ->
  xorb (2147483648 <=? u32 (x + y)) (signed_overflow (s32 x + s32 y)) = (s32 x + s32 y <? 0).
Proof.
  intros Hx Hy. rewrite !s32_val by done. unfold signed_overflow, is_u32, u32 in *.
  destruct (Z.leb_spec 2147483648 x), (Z.leb_spec 2147483648 y),
    (Z.leb_spec 2147483648 ((x + y) mod 4294967296));
    repeat match goal with
    | |- context [?a <? ?b] => destruct (Z.ltb_spec a b)
    | |- context [?a <=? ?b] => destruct (Z.leb_spec a b)
    end; cbn; Z.div_mod_to_equations; lia.
Qed.

(** * Properties of the arithmetic and logic instructions

    The values computed against unbounded arithmetic and the bitwise operations
    on integers, the condition codes against signed and unsigned overflow, and
    the conditional branches after a comparison. *)

(** ** Values *)

(** The function each register-to-register instruction computes, of the first
    operand, the second and the carry. *)
Definition alu_table : list ((f3 -> sparc_state -> Z * sparc_state) * (Z -> Z -> Z -> Z)) :=
  [(i_add_execute, fun a b c => a + b);
   (i_addx_execute, fun a b c => a + b + c);
   (i_sub_execute, fun a b c => a - b);
   (i_subx_execute, fun a b c => a - b - c);
   (i_and_execute, fun a b c => Z.land a b);
   (i_andn_execute, fun a b c => Z.land a (Z.lnot b));
   (i_or_execute, fun a b c => Z.lor a b);
   (i_orn_execute, fun a b c => Z.lor a (Z.lnot b));
   (i_xor_execute, fun a b c => Z.lxor a b);
   (i_xnor_execute, fun a b c => Z.lnot (Z.lxor a b))].

Lemma u32_sub_r a b : u32 (a - u32 b) = u32 (a - b).
Proof. unfold u32. apply Zminus_mod_idemp_r. Qed.

Lemma u32_lnot_u32 b : u32 (Z.lnot (u32 b)) = u32 (Z.lnot b).
Proof.
  apply Z.bits_inj'. intros i Hi. rewrite !testbit_u32, !Z.lnot_spec, testbit_u32 by lia.
  by destruct (Z.testbit b i), (i <? 32).
Qed.

Lemma u32_land a b : u32 (Z.land a (u32 b)) = u32 (Z.land a b).
Proof.
  apply Z.bits_inj'. intros i Hi. rewrite !testbit_u32, !Z.land_spec, testbit_u32 by lia.
  by destruct (Z.testbit a i), (Z.testbit b i), (i <? 32).
Qed.

Lemma u32_lor a b : u32 (Z.lor a (u32 b)) = u32 (Z.lor a b).
Proof.
  apply Z.bits_inj'. intros i Hi. rewrite !testbit_u32, !Z.lor_spec, testbit_u32 by lia.
  by destruct (Z.testbit a i), (Z.testbit b i), (i <? 32).
Qed.

Lemma u32_lxor a b : u32 (Z.lxor a (u32 b)) = u32 (Z.lxor a b).
Proof.
  apply Z.bits_inj'. intros i Hi. rewrite !testbit_u32, !Z.lxor_spec, testbit_u32 by lia.
  by destruct (Z.testbit a i), (Z.testbit b i), (i <? 32).
Qed.

Lemma u32_lxor_lnot a b : u32 (Z.lxor a (Z.lnot b)) = u32 (Z.lnot (Z.lxor a b)).
Proof.
  f_equal. apply Z.bits_inj'. intros i Hi. rewrite Z.lnot_spec, !Z.lxor_spec, Z.lnot_spec by lia.
  by destruct (Z.testbit a i), (Z.testbit b i).
Qed.

Lemma u32_land_lnot a b : u32 (Z.land a (Z.lnot (u32 b))) = u32 (Z.land a (Z.lnot b)).
Proof. by rewrite <- u32_land, u32_lnot_u32, u32_land. Qed.

Lemma u32_lor_lnot a b : u32 (Z.lor a (Z.lnot (u32 b))) = u32 (Z.lor a (Z.lnot b)).
Proof. by rewrite <- u32_lor, u32_lnot_u32, u32_lor. Qed.

Lemma u32_lnot_lxor a b : u32 (Z.lnot (Z.lxor a (u32 b))) = u32 (Z.lnot (Z.lxor a b)).
Proof. by rewrite <- u32_lnot_u32, u32_lxor, u32_lnot_u32. Qed.

Lemma u32_add_mid a b c : u32 (a + u32 b + c) = u32 (a + b + c).
Proof.
  replace (a + u32 b + c) with (a + c + u32 b) by ring. rewrite u32_add_r. f_equal. ring.
Qed.

Lemma u32_sub_mid a b c : u32 (a - u32 b - c) = u32 (a - b - c).
Proof.
  replace (a - u32 b - c) with (a - c - u32 b) by ring. rewrite u32_sub_r. f_equal. ring.
Qed.

(** The destination's conversion to uint32 absorbs the ones of the operands. *)
#[local] Hint Rewrite u32_idem u32_land u32_lor u32_lxor u32_lnot_u32 u32_add_r u32_sub_r
  u32_add_mid u32_sub_mid u32_land_lnot u32_lor_lnot u32_lnot_lxor u32_lxor_lnot : words_simpl.

(** every instruction of the table writes the function of its operands,
    modulo 2^32, into the destination and nothing into any other register,
    advances the program counters, takes one cycle, and leaves the PSR alone. *)
Theorem alu_functional :
  Forall (fun '(ex, f) => forall o s, f3_wf o -> state_wf s ->
    let v := f (REG s (rs1 o)) (operand2 o s) (psr_get_carry s) in
    (ex o s).1 = 1 /\ wrote (rd o) v s (ex o s).2 /\ PSRREG (ex o s).2 = PSRREG s) alu_table.
Proof.
  repeat apply Forall_cons_2; try apply Forall_nil_2.
  all: intros o s (Hrd & _ & _) Hwf v; subst v; cbv zeta; split; [done|].
  all: unfold i_add_execute, i_addx_execute, i_sub_execute, i_subx_execute, i_and_execute,
    i_andn_execute, i_or_execute, i_orn_execute, i_xor_execute, i_xnor_execute, operand2;
    cbv zeta; cbn [snd]; destruct (imm o <? 0).
  all: split; [| cbn; by autorewrite with sparc_simpl].
  all: eapply wrote_ext; [| apply wrote_step; done].
  all: autorewrite with words_simpl; done.
Qed.

(** ** Condition codes *)

(** The state after a condition-code instruction: the register write, then one
    new PSR. *)
Lemma cc_post s r v w n z o c s' :
  state_wf s -> 0 <= r < 32 -> v = u32 w ->
  s' = step_pc (set_PSRREG (set_REG s r v) (with_icc n z o c (PSRREG s))) ->
  wrote r w s s' /\ flags s' n z o c /\
  (forall i, 0 <= i < 20 \/ 24 <= i -> Z.testbit (PSRREG s') i = Z.testbit (PSRREG s) i).
Proof.
  intros Hwf Hr -> ->. pose proof (wf_psr _ Hwf) as Hp. split; [|split].
  - eapply wrote_ext; [apply u32_idem|].
    apply wrote_step_psr; [done..|]. by rewrite cwp_with_icc.
  - by apply (flags_with_icc _ _ _ _ _ (PSRREG s)).
  - intros i Hi. cbn. rewrite testbit_with_icc by (done || lia).
    destruct (Z.leb_spec 20 i), (Z.leb_spec i 23), (Z.eqb_spec i 23), (Z.eqb_spec i 22),
      (Z.eqb_spec i 21), (Z.eqb_spec i 20); try lia;
      cbn; by rewrite ?andb_false_r, ?orb_false_r, ?andb_true_r.
Qed.

Lemma i_addcc_eq o s :
  state_wf s ->
  let x := REG s (rs1 o) in let y := operand2 o s in let z := u32 (x + y) in
  i_addcc_execute o s
  = (1, step_pc (set_PSRREG (set_REG s (rd o) z)
       (with_icc (2147483648 <=? z) (z =? 0) (signed_overflow (s32 x + s32 y))
          (4294967296 <=? x + y) (PSRREG s)))).
Proof.
  intros Hwf x y z. unfold i_addcc_execute; cbv zeta.
  assert (E : (if imm o <? 0
    then (REG s (rs2 o), u32 (x + REG s (rs2 o)), set_REG s (rd o) (u32 (x + REG s (rs2 o))))
    else (u32 (sign_ext13 (imm o)), u32 (x + sign_ext13 (imm o)),
          set_REG s (rd o) (u32 (x + sign_ext13 (imm o))))) = (y, z, set_REG s (rd o) z)).
  { subst y z. unfold operand2. destruct (imm o <? 0); [done|]. by rewrite u32_add_r. }
  fold x. rewrite E. f_equal.
  assert (is_u32 x) by (subst x; auto with words).
  assert (is_u32 y) by (subst y; auto with words).
  subst z. rewrite add_carry_spec, add_overflow_spec, tst_bit31 by auto with words.
  icc_chain. autorewrite with sparc_simpl. do 2 f_equal.
  pose proof (wf_psr _ Hwf) as Hp. icc_sort Hp.
Qed.

(** ADDcc writes the sum and sets C to the carry out of 32 bits, V to
    signed overflow, Z and N to the result's; no other PSR bit changes. *)
Theorem addcc_flags o s :
  f3_wf o -> state_wf s ->
  let x := REG s (rs1 o) in let y := operand2 o s in let s' := (i_addcc_execute o s).2 in
  wrote (rd o) (x + y) s s' /\
  flags s' (2147483648 <=? u32 (x + y)) (u32 (x + y) =? 0) (signed_overflow (s32 x + s32 y))
    (4294967296 <=? x + y) /\
  (forall i, 0 <= i < 20 \/ 24 <= i -> Z.testbit (PSRREG s') i = Z.testbit (PSRREG s) i).
Proof.
  intros (Hrd & _ & _) Hwf x y s'. subst s'. rewrite (i_addcc_eq o s Hwf). cbn [snd].
  by eapply cc_post.
Qed.

(** The second operand of SUBcc is read again after the result is stored; it
    is the same as long as the destination is another register. *)
Definition operand2_kept (o : f3) : Prop := imm o < 0 -> rs2 o <> rd o.

Lemma i_subcc_eq o s :
  f3_wf o -> operand2_kept o -> state_wf s ->
  let x := REG s (rs1 o) in let y := operand2 o s in let z := u32 (x - y) in
  i_subcc_execute o s
  = (1, step_pc (set_PSRREG (set_REG s (rd o) z)
       (with_icc (2147483648 <=? z) (z =? 0) (signed_overflow (s32 x - s32 y))
          (x <? y) (PSRREG s)))).
Proof.
  intros (Hrd & _ & Ho) Hk Hwf x y z. unfold i_subcc_execute; cbv zeta. fold x.
  assert (is_u32 x) by (subst x; auto with words).
  assert (is_u32 y) by (subst y; auto with words).
  assert (Hset : forall v w, u32 v = u32 w -> set_REG s (rd o) v = set_REG s (rd o) w)
    by (intros v w E; unfold set_REG; by rewrite E).
  assert (E : (if imm o <? 0
    then (s32 (REG (set_REG s (rd o) (s32 (x - REG s (rs2 o)))) (rs2 o)), s32 (x - REG s (rs2 o)),
          set_REG s (rd o) (s32 (x - REG s (rs2 o))))
    else (sign_ext13 (imm o), s32 (x - sign_ext13 (imm o)),
          set_REG s (rd o) (s32 (x - sign_ext13 (imm o)))))
    = (s32 y, s32 (x - y), set_REG s (rd o) z)).
  { subst y z. unfold operand2 in *. destruct (Z.ltb_spec (imm o) 0).
    - rewrite REG_set_REG by (done || lia).
      rewrite (proj2 (Z.eqb_neq (rs2 o) (rd o))) by (by apply Hk).
      f_equal. apply Hset. by rewrite u32_s32, u32_idem.
    - assert (Hs : s32 (x - u32 (sign_ext13 (imm o))) = s32 (x - sign_ext13 (imm o)))
        by (rewrite <- s32_of_u32, u32_sub_r; apply s32_of_u32).
      rewrite s32_of_u32, Hs. pose proof (sign_ext13_range (imm o) ltac:(lia)).
      rewrite (s32_id (sign_ext13 (imm o))) by lia. f_equal.
      apply Hset. by rewrite u32_s32, u32_idem, u32_sub_r. }
  rewrite E. f_equal. rewrite s32_zero, !bit_s32.
  subst z. rewrite (u32_id x), (u32_id y) by done.
  rewrite sub_carry_spec, sub_overflow_spec, tst_bit31 by auto with words.
  icc_chain. autorewrite with sparc_simpl. reflexivity.
Qed.

(** SUBcc writes the difference and sets C to the unsigned borrow, V to
    signed overflow, Z and N to the result's; no other PSR bit changes. *)
Theorem subcc_flags o s :
  f3_wf o -> operand2_kept o -> state_wf s ->
  let x := REG s (rs1 o) in let y := operand2 o s in let s' := (i_subcc_execute o s).2 in
  wrote (rd o) (x - y) s s' /\
  flags s' (2147483648 <=? u32 (x - y)) (u32 (x - y) =? 0) (signed_overflow (s32 x - s32 y))
    (x <? y) /\
  (forall i, 0 <= i < 20 \/ 24 <= i -> Z.testbit (PSRREG s') i = Z.testbit (PSRREG s) i).
Proof.
  intros Ho Hk Hwf x y s'. subst s'. rewrite (i_subcc_eq o s Ho Hk Hwf). cbn [snd].
  eapply cc_post; [done | apply Ho | done | done].
Qed.

(** ** Branches after a comparison *)

(** The relation each branch tests, between the operands of a SUBcc. *)
Definition branch_table (x y : Z)
    : list ((bicc -> sparc_state -> Z * sparc_state) * bool) :=
  [(i_be_execute, x =? y); (i_bne_execute, negb (x =? y));
   (i_bl_execute, s32 x <? s32 y); (i_ble_execute, s32 x <=? s32 y);
   (i_bg_execute, s32 y <? s32 x); (i_bge_execute, s32 y <=? s32 x);
   (i_bcs_execute, x <? y); (i_bcc_execute, y <=? x);
   (i_bleu_execute, x <=? y); (i_bgu_execute, y <? x);
   (i_bneg_execute, 2147483648 <=? u32 (x - y)); (i_bpos_execute, u32 (x - y) <? 2147483648);
   (i_bvs_execute, signed_overflow (s32 x - s32 y));
   (i_bvc_execute, negb (signed_overflow (s32 x - s32 y)))].

Lemma u32_sub_zero x y : is_u32 x -> is_u32 y -> (u32 (x - y) =? 0) = (x =? y).
Proof. unfold is_u32, u32. intros. case_tests; Z.div_mod_to_equations; lia. Qed.

(** N xor V after a subtraction is the signed order. *)
Lemma signed_less x y :
  is_u32 x -> is_u32 y ->
  xorb (2147483648 <=? u32 (x - y)) (signed_overflow (s32 x - s32 y)) = (s32 x <? s32 y).
Proof.
  intros Hx Hy. rewrite !s32_val by done. unfold signed_overflow, is_u32, u32 in *.
  destruct (Z.leb_spec 2147483648 x), (Z.leb_spec 2147483648 y),
    (Z.leb_spec 2147483648 ((x - y) mod 4294967296));
    repeat match goal with
    | |- context [?a <? ?b] => destruct (Z.ltb_spec a b)
    | |- context [?a <=? ?b] => destruct (Z.leb_spec a b)
    end; cbn; Z.div_mod_to_equations; lia.
Qed.

Lemma s32_eqb x y : is_u32 x -> is_u32 y -> (s32 x =? s32 y) = (x =? y).
Proof. intros. rewrite !s32_val by done. unfold is_u32 in *. case_tests; lia. Qed.

Lemma leb_or a b : (a <=? b) = (a =? b) || (a <? b).
Proof. destruct (Z.leb_spec a b), (Z.eqb_spec a b), (Z.ltb_spec a b); cbn; lia. Qed.

Lemma branch_on_flags s n z v c :
  flags s n z v c ->
  Forall2 (fun '(ex, _) taken => forall b, ex b s
             = (1, if (taken : bool) then bicc_taken b s else bicc_not_taken b s))
    (branch_table 0 0)
    [z; negb z; xorb n v; z || xorb n v; negb (z || xorb n v); negb (xorb n v); c; negb c;
     c || z; negb (c || z); n; negb n; v; negb v].
Proof.
  intros [Hn Hz Hv Hc]. repeat apply Forall2_cons_2; try apply Forall2_nil_2.
  all: intros b; unfold i_be_execute, i_bne_execute, i_bl_execute, i_ble_execute, i_bg_execute,
    i_bge_execute, i_bcs_execute, i_bcc_execute, i_bleu_execute, i_bgu_execute, i_bneg_execute,
    i_bpos_execute, i_bvs_execute, i_bvc_execute; cbv zeta;
    rewrite ?Hn, ?Hz, ?Hv, ?Hc, ?lxor_b2z, ?tst_b2z; f_equal.
  all: by destruct n, z, v, c.
Qed.

(** after SUBcc on [x] and [y] every conditional branch is taken exactly
    when its relation holds: BL, BLE, BG, BGE compare as signed, BCS, BCC,
    BLEU, BGU as unsigned numbers. *)
Theorem branch_after_cmp o s :
  f3_wf o -> operand2_kept o -> state_wf s ->
  let x := REG s (rs1 o) in let y := operand2 o s in let s' := (i_subcc_execute o s).2 in
  Forall (fun '(ex, rel) => forall b, ex b s'
            = (1, if (rel : bool) then bicc_taken b s' else bicc_not_taken b s'))
    (branch_table x y).
Proof.
  intros Ho Hk Hwf x y s'.
  assert (Hf : flags s' (2147483648 <=? u32 (x - y)) (u32 (x - y) =? 0)
    (signed_overflow (s32 x - s32 y)) (x <? y)).
  { subst s'. rewrite (i_subcc_eq o s Ho Hk Hwf). cbn [snd].
    by apply (flags_with_icc _ _ _ _ _ (PSRREG s)); [apply Hwf|]. }
  assert (is_u32 x) by (subst x; auto with words).
  assert (is_u32 y) by (subst y; auto with words).
  apply branch_on_flags in Hf. rewrite u32_sub_zero, signed_less in Hf by done.
  unfold branch_table. rewrite (Z.ltb_antisym (s32 x) (s32 y)), (Z.leb_antisym (s32 x) (s32 y)),
    (Z.ltb_antisym x y), (Z.leb_antisym x y), (Z.ltb_antisym 2147483648 (u32 (x - y))).
  rewrite (leb_or (s32 x)), s32_eqb, (leb_or x), (orb_comm (x =? y) (x <? y)) by done.
  unfold branch_table in Hf.
  repeat match goal with
  | H : Forall2 _ (_ :: _) _ |- _ =>
      apply Forall2_cons in H as [Hh H]; apply Forall_cons_2; [exact Hh | clear Hh]
  end. apply Forall_nil_2.
Qed.

(** ** Constants *)

(** SETHI of the high 22 bits followed by OR of the low 10 loads any
    32-bit constant, and touches no other register. *)
Theorem sethi_or_constant r c s :
  0 <= r < 32 -> is_u32 c -> state_wf s ->
  let s1 := (i_sethi_execute {| sethi_rd := r; imm22 := Z.shiftr c 10 |} s).2 in
  let s2 := (i_or_execute {| rd := r; rs1 := r; rs2 := -1; imm := Z.land c 0x3ff |} s1).2 in
  REG s2 r = c /\ forall x, 0 <= x < 32 -> x <> r -> REG s2 x = REG s x.
Proof.
  intros Hr Hc Hwf s1 s2.
  set (hi := Z.land (Z.shiftl (Z.shiftr c 10) 10) 0xFFFFFC00).
  assert (H1 : wrote r hi s s1) by (by apply wrote_step).
  assert (Hwf1 : state_wf s1) by (apply wf_step_pc, wf_set_REG, Hwf).
  assert (Hlow : 0 <= Z.land c 0x3ff < 1024)
    by (change 0x3ff with (Z.ones 10); rewrite Z.land_ones by lia; apply Z.mod_pos_bound; lia).
  assert (H2 : wrote r (Z.lor (REG s1 r) (Z.land c 0x3ff)) s1 s2).
  { subst s2. unfold i_or_execute; cbv zeta. cbn [imm rs1 rd snd].
    rewrite (proj2 (Z.ltb_ge (Z.land c 0x3ff) 0)) by lia.
    rewrite sign_ext13_spec, (proj2 (Z.ltb_lt _ 4096)), u32_id by (auto with words; lia).
    by apply wrote_step. }
  split.
  - rewrite (wrote_reg _ _ _ _ H2), (wrote_reg _ _ _ _ H1), Z.eqb_refl by done.
    apply u32_inj_testbit; [apply u32_range | done |]. intros i Hi. subst hi.
    change 0xFFFFFC00 with (bitsmask 31 10). change 0x3ff with (Z.ones 10).
    rewrite testbit_u32, Z.lor_spec, testbit_u32, !Z.land_spec, testbit_bitsmask by lia.
    rewrite (proj2 (Z.ltb_lt i 32)) by lia.
    destruct (Z.lt_ge_cases i 10).
    + rewrite Z.shiftl_spec_low, Z.ones_spec_low by lia.
      by rewrite andb_false_l, orb_false_l, !andb_true_r.
    + rewrite Z.shiftl_spec, Z.shiftr_spec, Z.ones_spec_high by lia.
      replace (i - 10 + 10) with i by lia.
      rewrite (proj2 (Z.leb_le 10 i)), (proj2 (Z.leb_le i 31)) by lia.
      by rewrite andb_false_r, orb_false_r, !andb_true_r.
  - intros x Hx Hne. apply Z.eqb_neq in Hne.
    by rewrite (wrote_reg _ _ _ _ H2), Hne, (wrote_reg _ _ _ _ H1), Hne by done.
Qed.

(** ** Shifts *)

Definition shift_count (o : f3) (s : sparc_state) : Z :=
  if imm o <? 0 then REG s (rs2 o) else imm o.

Definition shift_table
    : list ((f3 -> sparc_state -> result (Z * sparc_state)) * (Z -> Z -> Z)) :=
  [(i_sll_execute, fun a n => a * 2 ^ n);
   (i_srl_execute, fun a n => a / 2 ^ n);
   (i_sra_execute, fun a n => s32 a / 2 ^ n)].

Lemma testbit_s32_high a i : is_u32 a -> 2147483648 <= a -> 31 <= i -> Z.testbit (s32 a) i = true.
Proof.
  intros Ha Hs Hi. rewrite s32_val by done. rewrite (proj2 (Z.leb_le _ a)) by lia.
  unfold is_u32 in *.
  replace (a - 4294967296) with (Z.lnot (4294967295 - a)) by (unfold Z.lnot; lia).
  rewrite Z.lnot_spec by lia.
  rewrite <- (Z.mod_small (4294967295 - a) (2 ^ 31)) by lia.
  by rewrite Z.mod_pow2_bits_high by lia.
Qed.

Lemma testbit_s32_low a i : 0 <= i < 32 -> Z.testbit (s32 a) i = Z.testbit a i.
Proof.
  intros Hi. transitivity (Z.testbit (u32 (s32 a)) i).
  - rewrite testbit_u32 by lia. rewrite (proj2 (Z.ltb_lt i 32)) by lia. by rewrite andb_true_r.
  - rewrite u32_s32, testbit_u32 by lia. rewrite (proj2 (Z.ltb_lt i 32)) by lia.
    by rewrite andb_true_r.
Qed.

(** SRA's mask of sign bits over the logical shift. *)
Lemma sra_value a n :
  is_u32 a -> 0 <= n < 32 -> 2147483648 <= a ->
  u32 (Z.lor (Z.land 0xFFFFFFFF (u32 (Z.lnot (Z.shiftr 0xFFFFFFFF n)))) (Z.shiftr a n))
  = u32 (s32 a / 2 ^ n).
Proof.
  intros Ha Hn Hs. apply u32_inj_testbit; try apply u32_range. intros i Hi.
  rewrite !testbit_u32, Z.lor_spec, Z.land_spec, testbit_u32, Z.lnot_spec, !Z.shiftr_spec by lia.
  rewrite (proj2 (Z.ltb_lt i 32)), !andb_true_r by lia.
  rewrite <- Z.shiftr_div_pow2, Z.shiftr_spec by lia.
  change 0xFFFFFFFF with (Z.ones 32). rewrite Z.ones_spec_low by lia.
  destruct (Z.lt_ge_cases (i + n) 32).
  - rewrite Z.ones_spec_low, testbit_s32_low by lia. done.
  - rewrite Z.ones_spec_high, testbit_s32_high by (done || lia). done.
Qed.

Lemma sra_value_pos a : is_u32 a -> a < 2147483648 -> s32 a = a.
Proof. intros Ha Hs. rewrite s32_val by done. by rewrite (proj2 (Z.leb_gt _ a)) by lia. Qed.

Lemma wrote_twice s r v w :
  state_wf s -> 0 <= r < 32 -> wrote r w s (step_pc (set_REG (set_REG s r v) r w)).
Proof.
  intros Hwf Hr. assert (Hwf1 : state_wf (set_REG s r v)) by auto with sparc.
  destruct (wrote_step (set_REG s r v) r w Hwf1 Hr) as [Hreg Hpc Hnpc Hwin Hrest].
  revert Hpc Hnpc Hwin Hrest. autorewrite with sparc_simpl. intros. split; try done.
  intros x Hx. rewrite Hreg, REG_set_REG by done. by destruct (x =? r).
Qed.

(** SRA: the logical shift with the sign bits put back. *)
Lemma sra_shifts o s :
  0 <= rd o < 32 -> 0 <= rs2 o < 32 \/ 0 <= imm o -> operand2_kept o -> state_wf s ->
  let n := shift_count o s in 0 <= n < 32 ->
  exists s', i_sra_execute o s = Val (1, s') /\
    wrote (rd o) (s32 (REG s (rs1 o)) / 2 ^ n) s s' /\ PSRREG s' = PSRREG s.
Proof.
  intros Hrd Hrs2 Hk Hwf n Hn.
  assert (Ha : is_u32 (REG s (rs1 o))) by auto with words.
  assert (E : (if imm o <? 0
    then let! v := shr32 (REG s (rs1 o)) (REG s (rs2 o)) in
         let st := set_REG s (rd o) v in Val (s32 (REG st (rs2 o)), st)
    else let! v := shr32 (REG s (rs1 o)) (imm o) in
         let st := set_REG s (rd o) v in Val (imm o, st))
    = Val (n, set_REG s (rd o) (Z.shiftr (REG s (rs1 o)) n))).
  { subst n. unfold shift_count, shr32 in *. destruct (Z.ltb_spec (imm o) 0);
      rewrite (proj2 (Z.leb_le 0 _)), (proj2 (Z.ltb_lt _ 32)) by lia; cbn [andb rbind];
      [|done].
    rewrite REG_set_REG by (done || lia). rewrite (proj2 (Z.eqb_neq (rs2 o) (rd o))) by auto.
    rewrite s32_id by lia. done. }
  unfold i_sra_execute; cbv zeta in E |- *. rewrite E. cbn [rbind].
  rewrite Z.shiftr_div_pow2 by lia. change (2 ^ 31) with 2147483648.
  set (a := REG s (rs1 o)) in *. unfold is_u32 in Ha.
  destruct (Z.lt_ge_cases a 2147483648) as [Hp|Hneg].
  + rewrite (Z.div_small a) by lia. cbn [tst Z.eqb negb]. eexists. split; [done|].
    split; [|cbn; by autorewrite with sparc_simpl].
    eapply wrote_ext; [|by apply wrote_step].
    by rewrite sra_value_pos, Z.shiftr_div_pow2 by (done || lia).
  + replace (a / 2147483648) with 1 by (Z.div_mod_to_equations; lia).
    unfold shr32. rewrite (proj2 (Z.leb_le 0 n)), (proj2 (Z.ltb_lt n 32)) by lia.
    cbn [tst Z.eqb negb andb rbind]. eexists. split; [done|].
    split; [|cbn; by autorewrite with sparc_simpl].
    eapply wrote_ext; [|by apply wrote_twice].
    rewrite REG_set_REG, Z.eqb_refl by done.
    rewrite (u32_id (Z.shiftr a n)) by (apply shiftr_u32; [done|lia]). by apply sra_value.
Qed.

(** with a count below 32, SLL, SRL and SRA multiply, divide, and divide
    with sign by the power of two; SRA needs its count register to differ from
    its destination. *)
Theorem shifts_functional :
  Forall (fun '(ex, f) => forall o s, 0 <= rd o < 32 -> 0 <= rs2 o < 32 \/ 0 <= imm o ->
    operand2_kept o -> state_wf s ->
    let n := shift_count o s in 0 <= n < 32 ->
    exists s', ex o s = Val (1, s') /\ wrote (rd o) (f (REG s (rs1 o)) n) s s' /\
               PSRREG s' = PSRREG s) shift_table.
Proof.
  repeat apply Forall_cons_2; try apply Forall_nil_2; intros o s Hrd Hrs2 Hk Hwf n Hn.
  - unfold i_sll_execute; cbv zeta. fold (shift_count o s). fold n. unfold shl32.
    rewrite (proj2 (Z.leb_le 0 n)), (proj2 (Z.ltb_lt n 32)) by lia. cbn [andb rbind].
    eexists. split; [done|]. split; [|cbn; by autorewrite with sparc_simpl].
    eapply wrote_ext; [|by apply wrote_step]. by rewrite u32_idem, Z.shiftl_mul_pow2 by lia.
  - unfold i_srl_execute; cbv zeta.
    replace (if imm o <? 0 then shr32 (REG s (rs1 o)) (REG s (rs2 o))
             else shr32 (REG s (rs1 o)) (imm o)) with (shr32 (REG s (rs1 o)) n)
      by (subst n; unfold shift_count; by destruct (imm o <? 0)).
    unfold shr32. rewrite (proj2 (Z.leb_le 0 n)), (proj2 (Z.ltb_lt n 32)) by lia.
    cbn [andb rbind]. eexists. split; [done|].
    split; [|cbn; by autorewrite with sparc_simpl].
    eapply wrote_ext; [|by apply wrote_step]. by rewrite Z.shiftr_div_pow2 by lia.
  - by apply sra_shifts.
Qed.

(** ** Division *)

Lemma lor_shiftl_add y x : is_u32 x -> 0 <= y -> Z.lor (Z.shiftl y 32) x = y * 4294967296 + x.
Proof.
  intros Hx Hy. assert (Hl : Z.land (Z.shiftl y 32) x = 0).
  { apply Z.bits_inj'. intros i Hi. rewrite Z.land_spec, Z.bits_0.
    destruct (Z.lt_ge_cases i 32); [by rewrite Z.shiftl_spec_low by lia|].
    rewrite (testbit_above_32 x) by done. apply andb_false_r. }
  rewrite <- Z.lxor_lor, <- Z.add_nocarry_lxor by done. by rewrite Z.shiftl_mul_pow2 by lia.
Qed.

(** UDIV with a non-zero divisor (a register or a non-negative immediate)
    writes the low 32 bits of the quotient of Y:rs1; with a zero divisor it
    writes nothing and signals a division by zero, yet advances. *)
Theorem udiv_functional o s :
  f3_wf o -> imm o < 4096 -> state_wf s ->
  let y := operand2 o s in let s' := (i_udiv_execute o s).2 in
  (y <> 0 -> wrote (rd o) ((YREG s * 4294967296 + REG s (rs1 o)) / y) s s') /\
  (y = 0 -> (forall x, REG s' x = REG s x) /\ irq_pending s' = 1 /\ PCREG s' = NPCREG s).
Proof.
  intros (Hrd & _ & Ho) Hi Hwf y s'.
  assert (Hr : is_u32 (REG s (rs1 o))) by auto with words.
  assert (Hs' : s' = step_pc (if y =? 0 then traps_signal s DIV_BY_ZERO
    else set_REG s (rd o) (u32 ((YREG s * 4294967296 + REG s (rs1 o)) / y)))).
  { subst s' y. unfold i_udiv_execute, operand2; cbv zeta. cbn [snd].
    rewrite lor_shiftl_add by (done || apply Hwf). f_equal.
    destruct (Z.ltb_spec (imm o) 0); [done|].
    rewrite sign_ext13_spec, (proj2 (Z.ltb_lt _ 4096)), (u32_id (imm o)) by (auto with words; lia).
    unfold u64. by rewrite (Z.mod_small (imm o)) by lia. }
  rewrite Hs'. split; intros Hy.
  - rewrite (proj2 (Z.eqb_neq y 0)) by done.
    eapply wrote_ext; [|by apply wrote_step]. apply u32_idem.
  - rewrite Hy. cbn [Z.eqb]. split; [|by split]. intros x.
    change (REG (step_pc ?s) x) with (REG s x). apply REG_traps_signal.
Qed.
