(* ===== verification/WindowProps.v ===== *)
(** * Properties of register windows and traps

    The flat register array against the circular file, SAVE and RESTORE, the
    round trip through a trap handler, the entry into a trap, the recording of
    one, and what WRPSR does to the windows. *)

From Stdlib Require Import ZArith Lia Bool.
From stdpp Require Import base numbers option list.
From S2P Require Import Prelude Words SparcState Windows Bus Isa Traps SparcAlu SparcCtl AluProps.
From S2P Require Import SparcIU.

(** ** Lemmas *)

Lemma set_REG_u32 s x v : set_REG s x (u32 v) = set_REG s x v.
Proof. unfold set_REG. by rewrite u32_idem. Qed.

Lemma abs_put_any s x v :
  state_wf s -> 8 <= x < 32 ->
  abs_windows (set_REG s x v) = win_put (abs_windows s) x (u32 v).
Proof. intros. rewrite <- set_REG_u32. apply abs_put; auto with words. Qed.

Lemma abs_global s x v : x <= 7 -> abs_windows (set_REG s x v) = abs_windows s.
Proof. intros. unfold set_REG. by destruct (Z.gtb_spec x 7); [lia|]. Qed.

Lemma abs_set_PSRREG s v : bits v 4 0 = CWP s -> abs_windows (set_PSRREG s v) = abs_windows s.
Proof.
  intros Hv. unfold abs_windows, slot_index. rewrite !CWP_set_PSRREG, Hv. done.
Qed.

Lemma abs_sub s :
  state_wf s -> abs_windows (iu_sub_cwp s).2 = win_rotate (abs_windows s) ((CWP s - 1) mod 8).
Proof.
  intros Hwf. rewrite iu_sub_cwp_eq by done. cbn [snd].
  rewrite abs_rotate by auto with sparc. by rewrite abs_global.
Qed.

Lemma abs_add s :
  state_wf s -> abs_windows (iu_add_cwp s).2 = win_rotate (abs_windows s) ((CWP s + 1) mod 8).
Proof.
  intros Hwf. rewrite iu_add_cwp_eq by done. cbn [snd].
  rewrite abs_rotate by auto with sparc. by rewrite abs_global.
Qed.

Lemma CWP_abs s : CWP s = win_current (abs_windows s).
Proof. done. Qed.

(** Reading a slot after a write of another one. *)
Lemma win_get_put f r v w x :
  length (win_slots f) = 128%nat ->
  win_get (win_rotate (win_put f r v) w) x
  = if win_slot w x =? win_slot (win_current f) r then v else win_get (win_rotate f w) x.
Proof.
  intros Hl. unfold win_get, win_rotate, win_put. cbn [win_current win_slots].
  pose proof (win_slot_range (win_current f) r). pose proof (win_slot_range w x).
  by rewrite nthZ_updZ by lia.
Qed.

(** The outs and locals of a window are invisible in the one above it. *)
Lemma callee_slot w r x :
  0 <= w < 8 -> 8 <= r < 24 -> 8 <= x < 32 ->
  (win_slot w x =? win_slot ((w - 1) mod 8) r) = false.
Proof.
  intros. apply Z.eqb_neq. unfold win_slot. Z.div_mod_to_equations; lia.
Qed.

Lemma win_get_rotate_self s x : state_wf s -> 8 <= x < 32 ->
  win_get (win_rotate (abs_windows s) (CWP s)) x = REG s x.
Proof. intros. by rewrite <- abs_get. Qed.

(** The WIM test of SAVE, RESTORE and RETT. *)
Lemma wim_test wim n : 0 <= n -> tst (Z.land (Z.shiftl 1 n) wim) = Z.testbit wim n.
Proof.
  intros Hn. rewrite Z.shiftl_1_l, Z.land_comm. unfold tst.
  destruct (Z.testbit wim n) eqn:E.
  - destruct (Z.eqb_spec (Z.land wim (2 ^ n)) 0) as [H|]; [|done].
    assert (Ht : Z.testbit (Z.land wim (2 ^ n)) n = true)
      by (by rewrite Z.land_spec, E, Z.pow2_bits_true).
    by rewrite H, Z.bits_0 in Ht.
  - replace (Z.land wim (2 ^ n)) with 0; [done|]. symmetry.
    apply Z.bits_inj'. intros i Hi. rewrite Z.land_spec, Z.bits_0, Z.pow2_bits_eqb by lia.
    destruct (Z.eqb_spec n i) as [<-|]; [by rewrite E | apply andb_false_r].
Qed.

(** ** The refinement *)

(** C29: the register window array, with its spill area for window 7, is a
    circular file of 128 slots: reading and writing a register are reading and
    writing its slot, and moving the window pointer rotates the file without
    changing any slot. *)
Theorem windows_refinement s :
  state_wf s ->
  (forall x, 8 <= x < 32 -> REG s x = win_get (abs_windows s) x) /\
  (forall x v, 8 <= x < 32 ->
     abs_windows (set_REG s x v) = win_put (abs_windows s) x (u32 v)) /\
  abs_windows (iu_sub_cwp s).2 = win_rotate (abs_windows s) ((CWP s - 1) mod 8) /\
  abs_windows (iu_add_cwp s).2 = win_rotate (abs_windows s) ((CWP s + 1) mod 8) /\
  (forall n, 0 <= n < 8 -> abs_windows (iu_set_cwp s n) = win_rotate (abs_windows s) n).
Proof.
  intros Hwf. split; [intros; by rewrite abs_get|]. split; [intros; by apply abs_put_any|].
  split; [by apply abs_sub|]. split; [by apply abs_add|]. intros. by apply abs_rotate.
Qed.

(** ** SAVE and RESTORE *)

Definition window_valid (s : sparc_state) (w : Z) : Prop := Z.testbit (WIMREG s) w = false.

Lemma sum_operand2 o s :
  u32 (if imm o <? 0 then s32 (REG s (rs1 o) + REG s (rs2 o))
       else s32 (REG s (rs1 o) + sign_ext13 (imm o)))
  = u32 (REG s (rs1 o) + operand2 o s).
Proof. unfold operand2. destruct (imm o <? 0); rewrite u32_s32; [done|]. by rewrite u32_add_r. Qed.

Lemma i_save_eq o s :
  state_wf s ->
  i_save_execute o s =
  if Z.testbit (WIMREG s) ((CWP s - 1) mod 8) then (1, traps_signal s WOF)
  else (1, step_pc (set_REG (iu_sub_cwp s).2 (rd o) (REG s (rs1 o) + operand2 o s))).
Proof.
  intros Hwf. unfold i_save_execute; cbv zeta.
  change (CWP s - 1) with (CWP s + -1) at 1. rewrite cwp_step_mod, wim_test by apply mod8_range.
  change (CWP s + -1) with (CWP s - 1). case_match; [done|].
  destruct (iu_sub_cwp s) as [n t] eqn:E. cbn [snd]. do 2 f_equal.
  rewrite <- set_REG_u32, sum_operand2. by rewrite set_REG_u32.
Qed.

Lemma i_restore_eq o s :
  state_wf s ->
  i_restore_execute o s =
  if Z.testbit (WIMREG s) ((CWP s + 1) mod 8) then (1, traps_signal s WUF)
  else (1, step_pc (set_REG (iu_add_cwp s).2 (rd o) (REG s (rs1 o) + operand2 o s))).
Proof.
  intros Hwf. unfold i_restore_execute; cbv zeta.
  rewrite cwp_step_mod, wim_test by apply mod8_range. case_match; [done|].
  destruct (iu_add_cwp s) as [n t] eqn:E. cbn [snd]. do 2 f_equal.
  rewrite <- set_REG_u32, sum_operand2. by rewrite set_REG_u32.
Qed.

Lemma REG_step_pc s x : REG (step_pc s) x = REG s x.
Proof. done. Qed.

Lemma REG_sub_cwp_out s x : state_wf s -> 8 <= x < 16 -> REG (iu_sub_cwp s).2 (x + 16) = REG s x.
Proof.
  intros Hwf Hx. pose proof (CWP_nonneg s). pose proof (wf_cwp _ Hwf).
  rewrite iu_sub_cwp_eq by done. cbn [snd].
  rewrite (REG_iu_set_cwp_slot _ _ (x + 16) x) by
    (auto with sparc; try lia; rewrite CWP_set_REG; unfold win_slot, N_WINDOWS in *;
     Z.div_mod_to_equations; lia).
  rewrite REG_set_REG by (done || lia). by rewrite (proj2 (Z.eqb_neq x 0)) by lia.
Qed.

Lemma REG_cwp_global s x :
  state_wf s -> 0 < x < 8 -> REG (iu_sub_cwp s).2 x = REG s x /\ REG (iu_add_cwp s).2 x = REG s x.
Proof.
  intros Hwf Hx. rewrite iu_sub_cwp_eq, iu_add_cwp_eq by done. cbn [snd].
  rewrite !REG_iu_set_cwp_global, !REG_set_REG by (done || lia).
  by rewrite (proj2 (Z.eqb_neq x 0)) by lia.
Qed.

Lemma CWP_sub s : state_wf s -> CWP (iu_sub_cwp s).2 = (CWP s - 1) mod 8.
Proof.
  intros. rewrite iu_sub_cwp_eq by done. apply CWP_iu_set_cwp; auto with sparc.
Qed.
Lemma CWP_add s : state_wf s -> CWP (iu_add_cwp s).2 = (CWP s + 1) mod 8.
Proof.
  intros. rewrite iu_add_cwp_eq by done. apply CWP_iu_set_cwp; auto with sparc.
Qed.

(** a SAVE into a valid window makes the caller's outs the callee's ins,
    keeps the globals, and writes the sum of operands read in the old window
    into a register of the new one. *)
Theorem save_passes_arguments o s :
  f3_wf o -> state_wf s -> window_valid s ((CWP s - 1) mod 8) ->
  let s' := (i_save_execute o s).2 in
  CWP s' = (CWP s - 1) mod 8 /\
  (forall x, 8 <= x < 16 -> x + 16 <> rd o -> REG s' (x + 16) = REG s x) /\
  (forall x, 0 < x < 8 -> x <> rd o -> REG s' x = REG s x) /\
  REG s' (rd o) = u32 (REG s (rs1 o) + operand2 o s) /\ PCREG s' = NPCREG s.
Proof.
  intros (Hrd & _ & _) Hwf Hv s'. unfold window_valid in Hv. subst s'. rewrite i_save_eq, Hv by done. cbn [snd].
  pose proof (wf_iu_sub_cwp _ Hwf) as Hwf'.
  split; [rewrite CWP_abs; change (abs_windows (step_pc ?t)) with (abs_windows t);
    rewrite <- CWP_abs, CWP_set_REG; by apply CWP_sub|].
  split; [|split; [|split]].
  - intros x Hx Hne. rewrite REG_step_pc, REG_set_REG, (proj2 (Z.eqb_neq _ _) Hne) by (done || lia).
    by apply REG_sub_cwp_out.
  - intros x Hx Hne. rewrite REG_step_pc, REG_set_REG, (proj2 (Z.eqb_neq _ _) Hne) by (done || lia).
    by apply REG_cwp_global.
  - by rewrite REG_step_pc, REG_set_REG, Z.eqb_refl by done.
  - cbn. autorewrite with sparc_simpl. rewrite iu_sub_cwp_eq by done. cbn [snd].
    by autorewrite with sparc_simpl.
Qed.

(** C34: SAVE then RESTORE is the identity on the caller's window: every
    register of it but RESTORE's destination, provided SAVE's own destination
    is not an in of the new window (which is an out of the caller). *)
Theorem save_restore_roundtrip o1 o2 s :
  f3_wf o1 -> f3_wf o2 -> state_wf s -> rd o1 < 24 ->
  window_valid s ((CWP s - 1) mod 8) -> window_valid s (CWP s) ->
  let s2 := (i_restore_execute o2 (i_save_execute o1 s).2).2 in
  CWP s2 = CWP s /\ forall x, 8 <= x < 32 -> x <> rd o2 -> REG s2 x = REG s x.
Proof.
  intros (Hrd1 & _) (Hrd2 & _) Hwf H24 Hv1 Hv2 s2. unfold window_valid in *.
  pose proof (CWP_nonneg s) as Hc0. pose proof (wf_cwp _ Hwf) as Hc8. unfold N_WINDOWS in Hc8.
  set (s1 := (i_save_execute o1 s).2) in *.
  pose proof (wf_iu_sub_cwp _ Hwf) as Hwfs.
  assert (Hs1 : s1 = step_pc (set_REG (iu_sub_cwp s).2 (rd o1) (REG s (rs1 o1) + operand2 o1 s)))
    by (subst s1; by rewrite i_save_eq, Hv1 by done).
  assert (Hwf1 : state_wf s1) by (rewrite Hs1; auto with sparc).
  assert (Hcwp1 : CWP s1 = (CWP s - 1) mod 8)
    by (rewrite Hs1; change (CWP (step_pc ?t)) with (CWP t); rewrite CWP_set_REG; by apply CWP_sub).
  assert (Hwim1 : WIMREG s1 = WIMREG s).
  { rewrite Hs1. cbn. autorewrite with sparc_simpl. rewrite iu_sub_cwp_eq by done. cbn [snd].
    by autorewrite with sparc_simpl. }
  assert (Hback : (CWP s1 + 1) mod 8 = CWP s) by (rewrite Hcwp1; Z.div_mod_to_equations; lia).
  subst s2. rewrite i_restore_eq, Hwim1, Hback, Hv2 by done. cbn [snd].
  assert (Hcwp2 : CWP (iu_add_cwp s1).2 = CWP s) by (rewrite CWP_add by done; exact Hback).
  split; [change (CWP (step_pc ?t)) with (CWP t); by rewrite CWP_set_REG|].
  intros x Hx Hne. rewrite REG_step_pc, REG_set_REG, (proj2 (Z.eqb_neq _ _) Hne)
    by (lia || by apply wf_iu_add_cwp).
  rewrite <- abs_get, abs_add, Hback by (try apply wf_iu_add_cwp; done).
  rewrite Hs1. change (abs_windows (step_pc ?t)) with (abs_windows t).
  destruct (Z.lt_ge_cases (rd o1) 8).
  - rewrite abs_global, abs_sub by (done || lia).
    change (win_rotate (win_rotate ?f ?a) ?b) with (win_rotate f b).
    by apply win_get_rotate_self.
  - rewrite abs_put_any, abs_sub by (done || lia).
    rewrite win_get_put by apply length_abs_slots. cbn [win_current win_rotate].
    rewrite callee_slot by lia. by apply win_get_rotate_self.
Qed.

(** ** Traps *)

Lemma testbit_psr_at s i : 0 <= i < 5 -> Z.testbit (PSRREG s) i = Z.testbit (CWP s) i.
Proof.
  intros Hi. unfold CWP. rewrite bits_spec by (compute; intuition discriminate || lia).
  unfold PSR_CWP_first, PSR_CWP_last. rewrite Z.div_1_r. change (4 - 0 + 1) with 5.
  by rewrite Z.mod_pow2_bits_low by lia.
Qed.

Lemma bit_tst p i : 0 <= i -> tst (bit p i) = Z.testbit p i.
Proof. intros. rewrite bit_testbit by done. by destruct (Z.testbit p i). Qed.

Lemma testbit_trap_psr s i :
  state_wf s -> 0 <= i ->
  Z.testbit (PSRREG (trap_psr s)) i
  = if i =? 5 then false else if i =? 6 then Z.testbit (PSRREG s) 7
    else if i =? 7 then true else Z.testbit (PSRREG s) i.
Proof.
  intros Hwf Hi. pose proof (wf_psr _ Hwf) as Hp.
  unfold trap_psr, PSR_S, PSR_PS, PSR_ET. cbn [PSRREG set_PSRREG].
  rewrite bit_tst, (testbit_clear_bit _ _ 7) by (done || lia). cbn [Z.eqb Pos.eqb negb].
  rewrite andb_true_r.
  assert (Hc : is_u32 (clear_bit (PSRREG s) 5)) by auto with words.
  destruct (Z.testbit (PSRREG s) 7); cbn [PSRREG set_PSRREG];
    rewrite testbit_set_bit by lia;
    [rewrite testbit_set_bit by lia | rewrite testbit_clear_bit by (done || lia)];
    rewrite testbit_clear_bit by (done || lia);
    destruct (Z.eqb_spec i 5), (Z.eqb_spec i 6), (Z.eqb_spec i 7); try lia; cbn;
    rewrite ?andb_true_r, ?andb_false_r, ?orb_false_r, ?orb_true_r; done.
Qed.

Lemma cwp_trap_psr s : state_wf s -> CWP (trap_psr s) = CWP s.
Proof.
  intros Hwf. unfold CWP, PSR_CWP_first, PSR_CWP_last. apply bits_4_0_testbit. intros i Hi.
  rewrite testbit_trap_psr by (done || lia).
  destruct (Z.eqb_spec i 5), (Z.eqb_spec i 6), (Z.eqb_spec i 7); lia || done.
Qed.

(** Everything but the PSR. *)
Lemma trap_psr_form s : exists p, trap_psr s = set_PSRREG s p.
Proof. unfold trap_psr. destruct (tst _); eexists; reflexivity. Qed.

Lemma abs_trap_psr s : state_wf s -> abs_windows (trap_psr s) = abs_windows s.
Proof.
  intros Hwf. pose proof (cwp_trap_psr s Hwf) as Hc. destruct (trap_psr_form s) as [p Hp].
  rewrite Hp in *. by apply abs_set_PSRREG.
Qed.

(** The state [trigger] leaves. *)
Definition in_handler (s : sparc_state) : sparc_state :=
  let t := (iu_sub_cwp (trap_psr s)).2 in
  set_NPCREG (set_PCREG (set_REG (set_REG t L1 (PCREG s)) L2 (NPCREG s)) (TBRREG s))
    (u32 (TBRREG s + 4)).

Lemma trigger_handler s :
  state_wf s ->
  trigger s = if Z.testbit (PSRREG s) 5 then Val (in_handler s) else Exit 1.
Proof.
  intros Hwf. rewrite trigger_eq, bit_tst by (compute; discriminate).
  change PSR_ET with 5. destruct (Z.testbit (PSRREG s) 5); [|done]. apply (f_equal Val).
  assert (Hf : PCREG (iu_sub_cwp (trap_psr s)).2 = PCREG s /\
    NPCREG (iu_sub_cwp (trap_psr s)).2 = NPCREG s /\
    TBRREG (iu_sub_cwp (trap_psr s)).2 = TBRREG s).
  { rewrite iu_sub_cwp_eq by (by apply wf_trap_psr). cbn [snd]. autorewrite with sparc_simpl.
    by destruct (trap_psr_form s) as [p ->]. }
  unfold in_handler; cbv zeta. generalize dependent ((iu_sub_cwp (trap_psr s)).2).
  intros t (HP & HN & HT). cbn [TBRREG set_PCREG]. autorewrite with sparc_simpl.
  by rewrite HP, HN, HT.
Qed.

Lemma wf_in_handler s : state_wf s -> state_wf (in_handler s).
Proof.
  intros Hwf. unfold in_handler; cbv zeta. apply wf_set_NPCREG; [apply u32_range|].
  apply wf_set_PCREG; [apply Hwf|]. do 2 apply wf_set_REG. by apply wf_iu_sub_cwp, wf_trap_psr.
Qed.

(** What setting the program counters leaves alone. *)
Section pcs.
Context (t : sparc_state) (a b : Z).
Lemma CWP_pcs : CWP (set_NPCREG (set_PCREG t a) b) = CWP t. Proof. done. Qed.
Lemma PSRREG_pcs : PSRREG (set_NPCREG (set_PCREG t a) b) = PSRREG t. Proof. done. Qed.
Lemma WIMREG_pcs : WIMREG (set_NPCREG (set_PCREG t a) b) = WIMREG t. Proof. done. Qed.
Lemma REG_pcs x : REG (set_NPCREG (set_PCREG t a) b) x = REG t x. Proof. done. Qed.
Lemma abs_pcs : abs_windows (set_NPCREG (set_PCREG t a) b) = abs_windows t. Proof. done. Qed.
End pcs.

Lemma PSRREG_in_handler s : PSRREG (in_handler s) = PSRREG (iu_sub_cwp (trap_psr s)).2.
Proof. unfold in_handler; cbv zeta. by rewrite PSRREG_pcs, !PSRREG_set_REG. Qed.

Lemma testbit_in_handler s i :
  state_wf s -> 5 <= i -> Z.testbit (PSRREG (in_handler s)) i = Z.testbit (PSRREG (trap_psr s)) i.
Proof.
  intros Hwf Hi. pose proof (wf_trap_psr s Hwf) as Hwft.
  rewrite PSRREG_in_handler, iu_sub_cwp_eq by done. cbn [snd].
  rewrite testbit_iu_set_cwp by auto with sparc. by rewrite PSRREG_set_REG.
Qed.

Lemma CWP_in_handler s : state_wf s -> CWP (in_handler s) = (CWP s - 1) mod 8.
Proof.
  intros Hwf. unfold in_handler; cbv zeta.
  rewrite CWP_pcs, !CWP_set_REG, CWP_sub, cwp_trap_psr by auto using wf_trap_psr. done.
Qed.

Lemma REG_set_two t a b x :
  state_wf t -> 0 <= x < 32 ->
  REG (set_REG (set_REG t L1 a) L2 b) x
  = if x =? L2 then u32 b else if x =? L1 then u32 a else REG t x.
Proof.
  intros Ht Hx. pose proof (wf_set_REG t L1 a Ht).
  by rewrite !REG_set_REG by (done || (unfold L1, L2; lia)).
Qed.

Lemma REG_in_handler s x :
  state_wf s -> 0 <= x < 32 ->
  REG (in_handler s) x
  = if x =? L2 then NPCREG s else if x =? L1 then PCREG s
    else REG (iu_sub_cwp (trap_psr s)).2 x.
Proof.
  intros Hwf Hx. pose proof (wf_iu_sub_cwp _ (wf_trap_psr s Hwf)).
  unfold in_handler; cbv zeta. rewrite REG_pcs, REG_set_two by done.
  by rewrite (u32_id _ (wf_pc _ Hwf)), (u32_id _ (wf_npc _ Hwf)).
Qed.

(** a trap with traps disabled ends the simulation; otherwise it disables
    them, saves S in PS and enters supervisor mode, rotates to the next window,
    keeps the return addresses in its %l1 and %l2, and goes to the address in
    TBR. *)
Theorem trigger_enters_handler s :
  state_wf s ->
  (Z.testbit (PSRREG s) PSR_ET = false -> trigger s = Exit 1) /\
  (Z.testbit (PSRREG s) PSR_ET = true -> exists s', trigger s = Val s' /\
     PCREG s' = TBRREG s /\ NPCREG s' = u32 (TBRREG s + 4) /\
     REG s' L1 = PCREG s /\ REG s' L2 = NPCREG s /\ CWP s' = (CWP s - 1) mod 8 /\
     forall i, 5 <= i -> Z.testbit (PSRREG s') i
       = if i =? PSR_ET then false else if i =? PSR_PS then Z.testbit (PSRREG s) PSR_S
         else if i =? PSR_S then true else Z.testbit (PSRREG s) i).
Proof.
  intros Hwf. unfold PSR_ET, PSR_PS, PSR_S. rewrite trigger_handler by done.
  split; intros HE; rewrite HE; [done|]. exists (in_handler s).
  pose proof (wf_iu_sub_cwp _ (wf_trap_psr _ Hwf)) as Hwft.
  split; [done|]. split; [done|]. split; [done|]. 
  rewrite !REG_in_handler by (done || (unfold L1, L2; lia)). split; [done|]. split; [done|].
  split; [by apply CWP_in_handler|]. intros i Hi.
  rewrite testbit_in_handler, testbit_trap_psr by (done || lia). done.
Qed.

Lemma land3_aligned z : 0 <= z -> z mod 4 = 0 -> tst (Z.land z 0x00000003) = false.
Proof. intros Hz Hm. change 3 with (Z.ones 2). rewrite Z.land_ones by lia. change (2 ^ 2) with 4. by rewrite Hm. Qed.

Lemma abs_in_handler s :
  state_wf s ->
  abs_windows (in_handler s)
  = win_put (win_put (win_rotate (abs_windows s) ((CWP s - 1) mod 8)) L1 (PCREG s)) L2 (NPCREG s).
Proof.
  intros Hwf. pose proof (wf_iu_sub_cwp _ (wf_trap_psr _ Hwf)) as Hwft.
  unfold in_handler; cbv zeta.
  pose proof (wf_set_REG _ L1 (PCREG s) Hwft).
  rewrite abs_pcs, !abs_put_any by (done || (unfold L1, L2; lia)).
  rewrite abs_sub, abs_trap_psr, cwp_trap_psr by auto using wf_trap_psr.
  by rewrite !u32_id by apply Hwf.
Qed.

(** The handler's exit, JMPL %l1 with RETT %l2 in its delay slot. *)
Definition jmpl_l1 (s : sparc_state) : sparc_state :=
  (i_jmpl_execute {| rd := 0; rs1 := L1; rs2 := -1; imm := 0 |} s).2.
Definition rett_l2 (s : sparc_state) : sparc_state :=
  (i_rett_execute {| rd := 0; rs1 := L2; rs2 := -1; imm := 0 |} s).2.

Lemma jmpl_l1_eq s :
  state_wf s -> REG s L1 mod 4 = 0 ->
  jmpl_l1 s = set_NPCREG (set_PCREG (set_REG s 0 (PCREG s)) (NPCREG s)) (REG s L1).
Proof.
  intros Hwf Hal. unfold jmpl_l1, i_jmpl_execute. cbn [imm rs1 rd Z.ltb Z.compare].
  change (sign_ext13 0) with 0. pose proof (REG_u32 s L1 Hwf).
  rewrite Z.add_0_r, u32_id, land3_aligned by (done || apply H). cbn [snd].
  by autorewrite with sparc_simpl.
Qed.

(** RETT with traps disabled, in supervisor mode, to a valid window. *)
Lemma rett_l2_eq s :
  state_wf s -> REG s L2 mod 4 = 0 ->
  Z.testbit (PSRREG s) 5 = false -> Z.testbit (PSRREG s) 7 = true ->
  window_valid s ((CWP s + 1) mod 8) ->
  let t := (iu_add_cwp s).2 in
  let p := if Z.testbit (PSRREG t) 6 then set_bit (PSRREG t) 7 else clear_bit (PSRREG t) 7 in
  rett_l2 s = set_PSRREG (set_NPCREG (set_PCREG t (NPCREG t)) (REG s L2)) (set_bit p 5).
Proof.
  intros Hwf Hal HET HS Hv t p. unfold rett_l2, i_rett_execute.
  cbn [imm rs1 rd Z.ltb Z.compare]. change (sign_ext13 0) with 0.
  pose proof (REG_u32 s L2 Hwf) as HL2.
  rewrite !bit_testbit by (compute; discriminate).
  change PSR_ET with 5. change PSR_S with 7. change PSR_PS with 6. rewrite HET, HS.
  cbn [Z.b2z Z.eqb andb]. rewrite wim_test by apply mod8_range. unfold N_WINDOWS.
  unfold window_valid in Hv. rewrite Hv, Z.add_0_r, u32_id, land3_aligned by (done || apply HL2).
  cbn [andb snd]. fold t. cbn [PSRREG set_NPCREG set_PCREG]. subst p.
  by destruct (Z.testbit (PSRREG t) 6).
Qed.

(** The state RETT finds. *)
Lemma jmpl_in_handler s :
  state_wf s -> PCREG s mod 4 = 0 ->
  let t := jmpl_l1 (in_handler s) in
  state_wf t /\ NPCREG t = PCREG s /\ REG t L2 = NPCREG s /\ WIMREG t = WIMREG s /\
  CWP t = (CWP s - 1) mod 8 /\ abs_windows t = abs_windows (in_handler s) /\
  PSRREG t = PSRREG (in_handler s) /\ (forall x, 0 < x < 8 -> REG t x = REG s x).
Proof.
  intros Hwf Hal t. pose proof (wf_in_handler s Hwf) as Hwfh.
  pose proof (wf_trap_psr s Hwf) as Hwft. pose proof (wf_iu_sub_cwp _ Hwft) as Hwfi.
  assert (HL1 : REG (in_handler s) L1 = PCREG s).
  { by rewrite REG_in_handler by (done || (unfold L1, L2; lia)). }
  assert (HL2 : REG (in_handler s) L2 = NPCREG s).
  { by rewrite REG_in_handler by (done || (unfold L1, L2; lia)). }
  assert (Ht : t = set_NPCREG (set_PCREG (set_REG (in_handler s) 0 (PCREG (in_handler s)))
    (NPCREG (in_handler s))) (PCREG s))
    by (subst t; rewrite jmpl_l1_eq by (rewrite ?HL1; done); by rewrite HL1).
  assert (HW : WIMREG (in_handler s) = WIMREG s).
  { unfold in_handler; cbv zeta. rewrite WIMREG_pcs, !WIMREG_set_REG, iu_sub_cwp_eq by done.
    cbn [snd]. autorewrite with sparc_simpl. by destruct (trap_psr_form s) as [p ->]. }
  rewrite Ht. clear Ht t. rewrite WIMREG_pcs, CWP_pcs, abs_pcs, PSRREG_pcs, REG_pcs.
  rewrite (REG_set_REG (in_handler s) 0 L2) by (exact Hwfh || (unfold L2; lia)).
  change (L2 =? 0) with false. cbv iota.
  rewrite WIMREG_set_REG, CWP_set_REG, PSRREG_set_REG, abs_global by lia.
  split; [apply wf_set_NPCREG; [exact (wf_pc _ Hwf)|]; apply wf_set_PCREG;
    [exact (wf_npc _ Hwfh) | exact (wf_set_REG _ _ _ Hwfh)]|].
  repeat (split; [first [done | by apply CWP_in_handler]|]).
  intros x Hx. rewrite REG_pcs, (REG_set_REG (in_handler s)), (proj2 (Z.eqb_neq x 0))
    by (exact Hwfh || lia).
  rewrite REG_in_handler by (done || lia).
  unfold L1, L2. rewrite (proj2 (Z.eqb_neq x 18)), (proj2 (Z.eqb_neq x 17)) by lia.
  rewrite (proj1 (REG_cwp_global _ x Hwft Hx)). by destruct (trap_psr_form s) as [p ->].
Qed.

(** The PSR after RETT: ET set and S taken from PS, above the window field. *)
Lemma testbit_rett p i :
  is_u32 p -> 0 <= i ->
  Z.testbit (set_bit (if Z.testbit p 6 then set_bit p 7 else clear_bit p 7) 5) i
  = if i =? 5 then true else if i =? 7 then Z.testbit p 6 else Z.testbit p i.
Proof.
  intros Hp Hi. rewrite testbit_set_bit by lia.
  destruct (Z.testbit p 6); [rewrite testbit_set_bit by lia | rewrite testbit_clear_bit by (done || lia)];
    destruct (Z.eqb_spec i 5), (Z.eqb_spec i 7); cbn;
    by rewrite ?orb_true_r, ?orb_false_r, ?andb_true_r, ?andb_false_r.
Qed.

(** The state RETT leaves, above the PSR: the interrupted window is current. *)
Lemma add_cwp_after_handler s t :
  state_wf s -> state_wf t -> CWP t = (CWP s - 1) mod 8 -> NPCREG t = PCREG s ->
  abs_windows t = abs_windows (in_handler s) ->
  (forall x, 0 < x < 8 -> REG t x = REG s x) ->
  (forall i, 5 <= i -> Z.testbit (PSRREG t) i = Z.testbit (PSRREG (trap_psr s)) i) ->
  let a := (iu_add_cwp t).2 in
  state_wf a /\ CWP a = CWP s /\ NPCREG a = PCREG s /\
  (forall x, 0 < x < 32 -> REG a x = REG s x) /\
  (forall i, 5 <= i -> Z.testbit (PSRREG a) i = Z.testbit (PSRREG (trap_psr s)) i).
Proof.
  intros Hwf Hwt HC HN Habs HG HPt.
  pose proof (CWP_nonneg s). pose proof (wf_cwp _ Hwf). unfold N_WINDOWS in *.
  assert (Hback : (CWP t + 1) mod 8 = CWP s) by (rewrite HC; Z.div_mod_to_equations; lia).
  pose proof (wf_iu_add_cwp _ Hwt) as Hwa.
  pose proof (CWP_add t Hwt) as HCa. rewrite Hback in HCa. cbv zeta. split_and!; [done..| | |].
  - rewrite iu_add_cwp_eq by done. cbn [snd]. by autorewrite with sparc_simpl.
  - intros x Hx. destruct (Z.lt_ge_cases x 8).
    { rewrite (proj2 (REG_cwp_global t x Hwt ltac:(lia))). apply HG. lia. }
    rewrite <- abs_get, abs_add, Hback, Habs, abs_in_handler by (done || lia).
    rewrite !win_get_put by (cbn [win_put win_slots win_rotate]; rewrite ?length_updZ;
      apply length_abs_slots).
    cbn [win_put win_rotate win_current]. rewrite !callee_slot by (unfold L1, L2; lia).
    apply win_get_rotate_self; [done|lia].
  - intros i Hi. rewrite iu_add_cwp_eq by done. cbn [snd].
    rewrite testbit_iu_set_cwp, PSRREG_set_REG by auto with sparc. by apply HPt.
Qed.

(** C35: taking a trap and returning from it with JMPL %l1; RETT %l2 restores
    the program counters, the window, every register of the interrupted window
    and the PSR, except that PS holds the mode before the trap. *)
Theorem trap_rett_roundtrip s s1 :
  state_wf s -> trigger s = Val s1 -> window_valid s (CWP s) ->
  PCREG s mod 4 = 0 -> NPCREG s mod 4 = 0 ->
  let s' := rett_l2 (jmpl_l1 s1) in
  PCREG s' = PCREG s /\ NPCREG s' = NPCREG s /\ CWP s' = CWP s /\
  (forall x, 0 < x < 32 -> REG s' x = REG s x) /\
  (forall i, 0 <= i -> Z.testbit (PSRREG s') i
     = if i =? PSR_PS then Z.testbit (PSRREG s) PSR_S else Z.testbit (PSRREG s) i).
Proof.
  intros Hwf Ht Hv Hpc Hnpc s'. subst s'. unfold window_valid in Hv.
  rewrite trigger_handler in Ht by done.
  destruct (Z.testbit (PSRREG s) 5) eqn:HET; [|done]. injection Ht as <-.
  destruct (jmpl_in_handler s Hwf Hpc) as (Hwt & HN & HL2 & HW & HC & Habs & HP & HG).
  assert (HPt : forall i, 5 <= i -> Z.testbit (PSRREG (jmpl_l1 (in_handler s))) i
    = Z.testbit (PSRREG (trap_psr s)) i) by (intros; by rewrite HP, testbit_in_handler).
  generalize dependent (jmpl_l1 (in_handler s)). intros t Hwt HN HL2 HW HC Habs _ HG HPt.
  destruct (add_cwp_after_handler s t Hwf Hwt HC HN Habs HG HPt) as (Hwa & HCa & HNa & HGa & HPa).
  rewrite rett_l2_eq; [|done|by rewrite HL2| | |].
  2, 3: by rewrite HPt, testbit_trap_psr by (done || lia).
  2: { unfold window_valid. by rewrite HW, <- CWP_add, HCa. }
  generalize dependent ((iu_add_cwp t).2). intros a Hwa HCa HNa HGa HPa.
  set (p := set_bit _ 5).
  assert (Hbits : forall i, 0 <= i -> Z.testbit p i
    = if i =? 5 then true else if i =? 7 then Z.testbit (PSRREG a) 6 else Z.testbit (PSRREG a) i)
    by (intros; apply testbit_rett; [apply Hwa | done]).
  assert (Hcwp : bits p 4 0 = CWP a).
  { apply bits_4_0_testbit. intros i Hi. rewrite Hbits by lia.
    by rewrite (proj2 (Z.eqb_neq i 5)), (proj2 (Z.eqb_neq i 7)) by lia. }
  split; [exact HNa|]. split; [exact HL2|]. split; [by rewrite CWP_set_PSRREG, Hcwp|].
  split; [exact HGa|].
  intros i Hi. cbn [PSRREG set_PSRREG]. rewrite Hbits by done. unfold PSR_PS, PSR_S.
  destruct (Z.lt_ge_cases i 5).
  - rewrite (proj2 (Z.eqb_neq i 5)), (proj2 (Z.eqb_neq i 7)), (proj2 (Z.eqb_neq i 6)) by lia.
    by rewrite !testbit_psr_at, HCa by lia.
  - rewrite !HPa, !testbit_trap_psr by (done || lia). cbn [Z.eqb Pos.eqb].
    destruct (Z.eqb_spec i 5) as [->|]; [done|]. destruct (Z.eqb_spec i 7) as [->|]; [done|].
    by destruct (i =? 6).
Qed.
