(* ===== verification/CtlProps.v ===== *)
(** * Properties of control transfers, trap recording and WRPSR *)

From Stdlib Require Import ZArith Lia Bool.
From stdpp Require Import base numbers option list.
From S2P Require Import Prelude Words SparcState Windows Bus Isa Traps SparcAlu SparcCtl AluProps.
From S2P Require Import SparcIU WindowProps.

(** ** Recording a trap *)

(** The trap type: the table's for a hardware trap, the number itself for a
    software trap. *)
Definition trap_type (t : Z) : Z :=
  if t <? tt_table_elem then nth (Z.to_nat t) (tt_table.*1) 0 else t.

Lemma trap_type_range t : 0 <= t < 256 -> 0 <= trap_type t < 256.
Proof.
  intros Ht. unfold trap_type. destruct (Z.ltb_spec t tt_table_elem) as [Hlt|]; [|done].
  change tt_table_elem with 22 in Hlt. enum_Z t 0 22; vm_compute; split; (discriminate || done).
Qed.

Lemma tbr_merge tbr tt :
  is_u32 tbr -> 0 <= tt < 256 ->
  Z.lor (Z.land tbr TBR_BASE_MASK) (Z.land (Z.shiftl (u16 tt) 4) TBR_TT_MASK)
  = tbr / 4096 * 4096 + 16 * tt.
Proof.
  intros Ht Htt. unfold u16. rewrite (Z.mod_small tt) by lia.
  assert (Hl : Z.land (Z.shiftl tt 4) TBR_TT_MASK = 16 * tt).
  { rewrite Z.shiftl_mul_pow2 by lia. change (2 ^ 4) with 16.
    apply Z.bits_inj'. intros i Hi. change TBR_TT_MASK with (bitsmask 11 4).
    rewrite Z.land_spec, testbit_bitsmask by lia. rewrite (Z.mul_comm 16).
    change 16 with (2 ^ 4).
    destruct (Z.leb_spec 4 i), (Z.leb_spec i 11); cbn; rewrite ?andb_true_r, ?andb_false_r; try done; try lia.
    - rewrite <- (Z.mod_small tt (2 ^ 8)) by lia.
      replace i with (4 + (i - 4)) by lia. rewrite Z.mul_pow2_bits_add by lia.
      by rewrite Z.mod_pow2_bits_high by lia.
    - by rewrite Z.mul_pow2_bits_low by lia. }
  rewrite Hl.
  assert (Hb : Z.land tbr TBR_BASE_MASK = tbr / 4096 * 4096).
  { change 4096 with (2 ^ 12). rewrite <- Z.shiftl_mul_pow2, <- Z.shiftr_div_pow2 by lia.
    apply Z.bits_inj'. intros i Hi. change TBR_BASE_MASK with (bitsmask 31 12).
    rewrite Z.land_spec, testbit_bitsmask by lia.
    destruct (Z.leb_spec 12 i).
    - rewrite Z.shiftl_spec, Z.shiftr_spec by lia. replace (i - 12 + 12) with i by lia.
      destruct (Z.leb_spec i 31); [apply andb_true_r|].
      rewrite testbit_above_32 by (done || lia). done.
    - rewrite Z.shiftl_spec_low by lia. apply andb_false_r. }
  rewrite Hb. rewrite <- Z.lxor_lor, <- Z.add_nocarry_lxor; [done|..].
  all: apply Z.bits_inj'; intros i Hi; rewrite Z.land_spec, Z.bits_0.
  all: change 4096 with (2 ^ 12); change 16 with (2 ^ 4).
  all: destruct (Z.lt_ge_cases i 12); [by rewrite Z.mul_pow2_bits_low by lia|].
  all: rewrite <- (Z.mod_small (2 ^ 4 * tt) (2 ^ 12)) by lia.
  all: rewrite (Z.mod_pow2_bits_high (2 ^ 4 * tt)) by lia; apply andb_false_r.
Qed.

(** recording a trap sets the TT field of TBR to its type, keeping the
    base address, marks a trap as pending, and changes nothing else. *)
Theorem signal_records_trap s t :
  state_wf s -> 0 <= t < 256 ->
  signal s t
  = (SPARC_SUCCESS,
     set_irq_pending (set_TBRREG s (TBRREG s / 4096 * 4096 + 16 * trap_type t)) 1).
Proof.
  intros Hwf Ht. unfold signal. rewrite (proj2 (Z.ltb_ge t 0)) by lia.
  pose proof (trap_type_range t Ht) as Hr. unfold trap_type in *.
  rewrite Z.geb_leb. change tt_table_elem with 22 in *.
  destruct (Z.ltb_spec t 22), (Z.leb_spec 22 t); try lia.
  - rewrite orb_true_r. unfold tbr_set_tt; cbv zeta. cbn [TBRREG set_TBRREG].
    rewrite tbr_merge by (done || apply (wf_tbr _ Hwf)). reflexivity.
  - unfold tbr_set_tt; cbv zeta. cbn [TBRREG set_TBRREG].
    rewrite tbr_merge by (done || apply (wf_tbr _ Hwf)). reflexivity.
Qed.

(** ** Calls and branches *)

Lemma u32_shiftl2 d : 0 <= d < 2 ^ 30 -> u32 (Z.shiftl d 2) = d * 4.
Proof. intros. rewrite Z.shiftl_mul_pow2 by lia. apply u32_id. unfold is_u32. lia. Qed.

(** The leaf-call return, JMPL %o7 + 8, %g0. *)
Definition retl (s : sparc_state) : sparc_state :=
  (i_jmpl_execute {| rd := 0; rs1 := O7; rs2 := -1; imm := 8 |} s).2.

(** CALL keeps its own address in %o7 and goes, after its delay slot, to
    the displacement from itself; JMPL %o7 + 8 then goes to the instruction
    after the delay slot, and no other register is lost. *)
Theorem call_return d s :
  state_wf s -> 0 <= d < 2 ^ 30 -> PCREG s mod 4 = 0 ->
  let s1 := (i_call_execute d s).2 in let s2 := retl s1 in
  PCREG s1 = NPCREG s /\ NPCREG s1 = u32 (PCREG s + 4 * d) /\ REG s1 O7 = PCREG s /\
  PCREG s2 = NPCREG s1 /\ NPCREG s2 = u32 (PCREG s + 8) /\
  (forall x, 0 < x < 32 -> x <> O7 -> REG s2 x = REG s x).
Proof.
  intros Hwf Hd Hal s1 s2. pose proof (wf_pc _ Hwf) as Hpc. unfold is_u32 in Hpc.
  assert (Hs1 : s1 = set_NPCREG (set_PCREG (set_REG s O7 (PCREG s)) (NPCREG s))
                       (u32 (PCREG s + 4 * d))).
  { subst s1. unfold i_call_execute; cbv zeta. cbn [snd PCREG set_PCREG].
    autorewrite with sparc_simpl. rewrite u32_shiftl2 by done. do 2 f_equal. lia. }
  assert (HR1 : forall x, 0 <= x < 32 -> REG s1 x = if x =? O7 then PCREG s else REG s x).
  { intros x Hx. rewrite Hs1, REG_pcs, REG_set_REG by (done || (unfold O7; lia)).
    by rewrite (u32_id _ (wf_pc _ Hwf)). }
  assert (H7 : REG s1 O7 = PCREG s) by (by rewrite HR1, Z.eqb_refl by (unfold O7; lia)).
  assert (Hwf1 : state_wf s1).
  { rewrite Hs1. apply wf_set_NPCREG; [apply u32_range|].
    apply wf_set_PCREG; [exact (wf_npc _ Hwf) | by apply wf_set_REG]. }
  assert (Hs2 : s2 = set_NPCREG (set_PCREG (set_REG s1 0 (PCREG s1)) (NPCREG s1))
                       (u32 (PCREG s + 8))).
  { subst s2. unfold retl, i_jmpl_execute. cbn [imm rs1 rd Z.ltb Z.compare].
    change (sign_ext13 8) with 8. rewrite H7.
    rewrite land3_aligned by (apply u32_range || (unfold u32; Z.div_mod_to_equations; lia)).
    cbn [snd]. by autorewrite with sparc_simpl. }
  split; [by rewrite Hs1; cbn; autorewrite with sparc_simpl|]. split; [by rewrite Hs1|].
  split; [done|]. rewrite Hs2. split; [done|]. split; [done|].
  intros x Hx Hne. apply Z.eqb_neq in Hne.
  rewrite REG_pcs, (REG_set_REG s1), (proj2 (Z.eqb_neq x 0)), HR1, Hne by (done || lia). done.
Qed.

(** The byte displacement of a branch. *)
Definition bicc_disp (o : bicc) : Z :=
  4 * (if disp22 o <? 2097152 then disp22 o else disp22 o - 4194304).

Lemma bicc_addr_disp o : 0 <= disp22 o < 4194304 -> bicc_addr o = bicc_disp o.
Proof.
  intros Hd. unfold bicc_addr, bicc_disp. rewrite Z.shiftl_mul_pow2, Z.shiftr_div_pow2 by lia.
  change (2 ^ 10) with 1024. change (2 ^ 8) with 256.
  unfold s32, u32. rewrite (Z.mod_small (disp22 o * 1024)) by lia.
  case_tests; Z.div_mod_to_equations; lia.
Qed.

(** a taken branch goes to the signed word displacement from itself after
    its delay slot; one not taken falls through, skipping the delay slot when
    annulled; the unconditional annulled branch skips its delay slot too. *)
Theorem branch_targets o s :
  state_wf s -> 0 <= disp22 o < 4194304 -> 0 <= annul o <= 1 ->
  let target := u32 (PCREG s + bicc_disp o) in
  (PCREG (bicc_taken o s) = NPCREG s /\ NPCREG (bicc_taken o s) = target) /\
  (NPCREG s = u32 (PCREG s + 4) ->
   PCREG (bicc_not_taken o s) = u32 (PCREG s + (if annul o =? 1 then 8 else 4)) /\
   NPCREG (bicc_not_taken o s) = u32 (PCREG s + (if annul o =? 1 then 12 else 8))) /\
  (let s' := (i_ba_execute o s).2 in
   PCREG s' = (if annul o =? 1 then target else NPCREG s) /\
   NPCREG s' = if annul o =? 1 then u32 (target + 4) else target).
Proof.
  intros Hwf Hd Ha target. subst target. unfold bicc_taken, bicc_not_taken, i_ba_execute; cbv zeta.
  rewrite bicc_addr_disp by done. split; [|split].
  - cbn. split; [done|]. by rewrite u32_s32, Z.add_comm.
  - intros Hn. assert (Hc : annul o = 0 \/ annul o = 1) by lia.
    destruct Hc as [-> | ->]; cbn; rewrite Hn, !u32_add_l; split; f_equal; lia.
  - assert (Hc : annul o = 0 \/ annul o = 1) by lia. by destruct Hc as [-> | ->].
Qed.

(** ** WRPSR *)

(** WRPSR rotates the window file as SAVE and RESTORE do when neither the
    old nor the new window is window 7.  It stores the new PSR before calling
    [iu_set_cwp], which then takes the new window for the old one: entering
    window 7 from another replaces its ins by the stale spill area. *)
Theorem wrpsr_windows o s :
  f3_wf o -> state_wf s -> Z.testbit (PSRREG s) PSR_S = true ->
  let n := Z.lxor (REG s (rs1 o)) (operand2 o s) mod 32 in
  n < 8 -> CWP s <> 7 ->
  let s' := (i_wrpsr_execute o s).2 in
  CWP s' = n /\
  (n <> 7 -> abs_windows s' = win_rotate (abs_windows s) n) /\
  (n = 7 -> forall x, 24 <= x < 32 -> REG s' x = nthZ (regbase s) (128 + (x - 24))).
Proof.
  intros Ho Hwf HS n Hn Hc s'.
  set (v := Z.lxor (REG s (rs1 o)) (operand2 o s)) in *.
  assert (Hv : is_u32 v) by (subst v; auto with words).
  assert (Hn0 : 0 <= n) by (subst n; apply Z.mod_pos_bound; lia).
  set (p := clear_bits (clear_bits v 19 14) 31 24).
  assert (Hp : is_u32 p) by (subst p; auto with words).
  assert (Hs' : s' = step_pc (iu_set_cwp (set_PSRREG s p) n)).
  { subst s'. unfold i_wrpsr_execute; cbv zeta.
    rewrite bit_testbit, HS by (compute; discriminate). cbn [Z.b2z Z.eqb Pos.eqb negb].
    replace (if imm o <? 0 then Z.lxor (REG s (rs1 o)) (REG s (rs2 o))
            else Z.lxor (REG s (rs1 o)) (u32 (sign_ext13 (imm o)))) with v
      by (subst v; unfold operand2; by destruct (imm o <? 0)).
    assert (Hb : bits v PSR_CWP_last PSR_CWP_first = n)
      by (unfold PSR_CWP_last, PSR_CWP_first; rewrite bits_spec by lia; by rewrite Z.div_1_r).
    rewrite Hb, Z.geb_leb, (proj2 (Z.leb_gt N_WINDOWS n)) by done. reflexivity. }
  assert (Hcp : CWP (set_PSRREG s p) = n).
  { rewrite CWP_set_PSRREG. subst n. transitivity (bits v 4 0).
    - apply bits_4_0_testbit. intros i Hi. subst p.
      rewrite !testbit_clear_bits by (auto with words; lia).
      destruct (Z.leb_spec 14 i), (Z.leb_spec 24 i); try lia. cbn. by rewrite !andb_true_r.
    - rewrite bits_spec by lia. by rewrite Z.div_1_r. }
  rewrite Hs'.
  assert (Hcwp : CWP (iu_set_cwp (set_PSRREG s p) n) = n).
  { unfold CWP. rewrite PSRREG_iu_set_cwp. apply bits_low_disjoint_or; [done|lia]. }
  split; [exact Hcwp|]. split.
  - intros H7.
    assert (Hreg : regbase (iu_set_cwp (set_PSRREG s p) n) = regbase s).
    { rewrite regbase_iu_set_cwp, Hcp; cbv zeta. by rewrite (proj2 (Z.eqb_neq n 7)). }
    change (abs_windows (step_pc ?t)) with (abs_windows t).
    unfold abs_windows, win_rotate. cbn [win_current win_slots]. rewrite Hcwp. f_equal.
    unfold slot_index. rewrite Hcwp, Hreg. change (N_WINDOWS - 1) with 7.
    by rewrite (proj2 (Z.eqb_neq n 7)), (proj2 (Z.eqb_neq (CWP s) 7)).
  - intros H7 x Hx. rewrite REG_step_pc. unfold REG.
    assert (Hptr : regwptr1 (iu_set_cwp (set_PSRREG s p) n) = 112)
      by (rewrite H7; unfold iu_set_cwp; by destruct (CWP _ =? N_WINDOWS - 1)).
    destruct (Z.gtb_spec x 7); [|lia]. rewrite Hptr, regbase_iu_set_cwp, Hcp, H7; cbv zeta.
    cbn [Z.eqb Pos.eqb regbase set_PSRREG]. pose proof (wf_regbase_len _ Hwf) as Hl.
    assert (Hl' : length (memcpy32 (regbase s) 0 128) = 520%nat)
      by (unfold memcpy32; by rewrite length_copy_words).
    rewrite !nthZ_memcpy32 by (rewrite ?Hl, ?Hl'; lia).
    repeat (case_match; try lia). all: f_equal; lia.
Qed.
