(* ===== verification/MulProps.v ===== *)
(** * Multiplication by MULScc

    i_mulscc.c computes one step of a shift-and-add multiplication.  The
    accumulator of a step is the destination register extended by the sign that
    N xor V gives it; the theorem is that the usual sequence of 32 steps and a
    last one with a zero operand leaves the exact 64-bit product in the
    destination and Y. *)

From Stdlib Require Import ZArith Lia Bool.
From stdpp Require Import base numbers option list.
From S2P Require Import Prelude Words SparcState Windows Bus Isa Traps SparcAlu SparcCtl AluProps.

(** The 33-bit signed accumulator. *)
Definition accumulator (r : Z) (s : sparc_state) : Z :=
  REG s r - (if tst (Z.lxor (psr_get_neg s) (psr_get_overflow s)) then 4294967296 else 0).

(** One step on integers. *)
Definition mul_step (m : Z) (ay : Z * Z) : Z * Z :=
  let '(a, y) := ay in
  (a / 2 + (if y mod 2 =? 0 then 0 else m), y / 2 + 2147483648 * (a mod 2)).

Lemma bit0_mod x : bit x 0 = x mod 2.
Proof. unfold bit. by rewrite (Z.land_ones _ 1), Z.shiftr_0_r by lia. Qed.

Lemma bits_31_1 x : is_u32 x -> bits x 31 1 = x / 2.
Proof.
  intros Hx. rewrite bits_spec by lia. apply Z.mod_small.
  unfold is_u32 in Hx. change (2 ^ 1) with 2. change (2 ^ (31 - 1 + 1)) with 2147483648.
  Z.div_mod_to_equations; lia.
Qed.

Lemma set_bit31 x : 0 <= x < 2147483648 -> set_bit x 31 = x + 2147483648.
Proof.
  intros Hx. unfold set_bit, set_bits. change (bitsmask 31 31) with (2 ^ 31).
  assert (Hl : Z.land x (2 ^ 31) = 0).
  { apply Z.bits_inj'. intros i Hi. rewrite Z.land_spec, Z.bits_0, Z.pow2_bits_eqb by lia.
    destruct (Z.eqb_spec 31 i) as [<-|]; [|apply andb_false_r].
    rewrite <- (Z.mod_small x (2 ^ 31)) by lia. by rewrite Z.mod_pow2_bits_high by lia. }
  by rewrite <- Z.lxor_lor, <- Z.add_nocarry_lxor.
Qed.

Lemma clear_bit31 x : 0 <= x < 2147483648 -> clear_bit x 31 = x.
Proof.
  intros Hx. apply Z.bits_inj'. intros i Hi.
  rewrite testbit_clear_bit by (try done; try lia; unfold is_u32; lia).
  destruct (Z.eqb_spec i 31) as [->|]; [|apply andb_true_r].
  rewrite <- (Z.mod_small x (2 ^ 31)) by lia. by rewrite Z.mod_pow2_bits_high by lia.
Qed.

(** A state whose REG and Y are as [mul_step] says. *)
Lemma mulscc_step r m i s :
  state_wf s -> 0 <= r < 32 -> 0 <= m < 32 -> m <> r -> i = -1 \/ i = 0 ->
  let o := {| rd := r; rs1 := r; rs2 := if i <? 0 then m else -1; imm := i |} in
  let s' := (i_mulscc_execute o s).2 in
  let op := if i <? 0 then s32 (REG s m) else 0 in
  state_wf s' /\ REG s' m = REG s m /\
  -4294967296 <= accumulator r s < 4294967296 /\
  (accumulator r s', YREG s') = mul_step op (accumulator r s, YREG s).
Proof.
  intros Hwf Hr Hm Hmr Hi o s' op.
  pose proof (REG_u32 s r Hwf) as Hx. pose proof (wf_y _ Hwf) as Hy.
  pose proof (REG_u32 s m Hwf) as Hmu. pose proof (wf_psr _ Hwf) as Hp.
  unfold accumulator at 1 2 4.
  set (T := tst (Z.lxor (psr_get_neg s) (psr_get_overflow s))).
  set (x := REG s r) in *. set (y := YREG s) in *.
  set (op1 := x / 2 + (if T then 2147483648 else 0)).
  set (op2 := if y mod 2 =? 0 then 0 else u32 op).
  assert (Ha : -2147483648 <= s32 op1 < 2147483648) by apply s32_range.
  assert (Hop1 : is_u32 op1)
    by (subst op1; unfold is_u32 in *; destruct T; Z.div_mod_to_equations; lia).
  assert (Hop2 : is_u32 op2) by (subst op2; case_match; auto with words).
  set (z := u32 (op1 + op2)).
  set (y' := y / 2 + 2147483648 * (x mod 2)).
  assert (Hs' : s' = step_pc (set_PSRREG (set_YREG (set_REG s r z) y')
    (with_icc (2147483648 <=? z) (z =? 0) (signed_overflow (s32 op1 + s32 op2))
       (4294967296 <=? op1 + op2) (PSRREG s)))).
  { subst s' o. unfold i_mulscc_execute; cbv zeta. cbn [rd rs1 rs2 imm snd].
    autorewrite with sparc_simpl. fold x y T.
    rewrite bits_31_1, !bit0_mod, (bits_31_1 y), clear_bit31
      by (done || (unfold is_u32 in *; Z.div_mod_to_equations; lia)).
    replace (if T then set_bit (x / 2) 31 else x / 2) with op1
      by (subst op1; unfold is_u32 in *; destruct T; [|lia];
          rewrite set_bit31 by (Z.div_mod_to_equations; lia); done).
    replace (if y mod 2 =? 0 then 0 else
      if i <? 0 then REG s (if i <? 0 then m else -1) else u32 (sign_ext13 i)) with op2
      by (subst op2 op; destruct Hi as [-> | ->]; [cbn [Z.ltb Z.compare]; by rewrite u32_s32, u32_id | done]).
    match goal with
    | |- context [clear_icc ?S] => replace S with (set_YREG (set_REG s r (op1 + op2)) y')
    end.
    2: { subst y'. destruct (Z.eqb_spec (x mod 2) 1) as [E|E]; cbn [YREG set_YREG].
         - by rewrite E, set_bit31 by (unfold is_u32 in *; Z.div_mod_to_equations; lia).
         - replace (x mod 2) with 0 by (Z.div_mod_to_equations; lia).
           rewrite clear_bit31 by (unfold is_u32 in *; Z.div_mod_to_equations; lia).
           cbn [Z.mul]. by rewrite Z.add_0_r. }
    assert (Hset : set_REG s r (op1 + op2) = set_REG s r z)
      by (subst z; unfold set_REG; by rewrite u32_idem).
    rewrite Hset.
    assert (Hz : forall f, (forall t, REG (f t) r = REG t r) -> forall b t, REG (when b f t) r = REG t r)
      by (intros f Hf b t; destruct b; [apply Hf | done]).
    rewrite !Hz by reflexivity.
    change (REG (clear_icc ?S) r) with (REG S r). change (REG (set_YREG ?S y') r) with (REG S r).
    rewrite REG_set_REG, Z.eqb_refl, (u32_id z) by (done || (subst z; auto with words)).
    subst z. rewrite add_carry_spec, add_overflow_spec, tst_bit31 by auto with words.
    icc_chain. cbn [PSRREG set_YREG]. by autorewrite with sparc_simpl. }
  assert (Hwf' : state_wf s').
  { rewrite Hs'. apply wf_step_pc, wf_set_PSRREG; [by apply with_icc_u32 | |].
    - cbn [PSRREG set_YREG]. unfold CWP; cbn [PSRREG set_YREG].
      autorewrite with sparc_simpl. by apply cwp_with_icc.
    - apply wf_set_YREG; [|auto with sparc]. subst y'. unfold is_u32 in *.
      Z.div_mod_to_equations; lia. }
  assert (HR : forall k, 0 <= k < 32 -> REG s' k = if k =? r then z else REG s k).
  { intros k Hk. rewrite Hs'. transitivity (REG (set_REG s r z) k); [reflexivity|].
    rewrite REG_set_REG by done. case_match; [|done]. apply u32_id. subst z. auto with words. }
  split; [done|]. split; [rewrite HR by done; by rewrite (proj2 (Z.eqb_neq m r))|].
  split; [subst T; unfold is_u32 in Hx; case_match; lia|].
  destruct (flags_with_icc s' _ _ _ _ _ Hp (f_equal PSRREG Hs')) as [HN _ HV _].
  assert (HY : YREG s' = y') by (by rewrite Hs'). rewrite HY.
  unfold accumulator, mul_step. fold x T.
  rewrite HN, HV, HR, Z.eqb_refl, lxor_b2z by done. subst z. rewrite add_sign by done.
  assert (Hs1 : s32 op1 = (x - (if T then 4294967296 else 0)) / 2).
  { rewrite s32_val by done. subst op1. unfold is_u32 in *.
    destruct T; case_tests; Z.div_mod_to_equations; lia. }
  assert (Hs2 : s32 op2 = if y mod 2 =? 0 then 0 else op).
  { subst op2. destruct (y mod 2 =? 0); [reflexivity|]. rewrite s32_of_u32. subst op.
    destruct (i <? 0); [|done]. apply s32_id, s32_range. }
  assert (Hsum : u32 (op1 + op2) - (if s32 op1 + s32 op2 <? 0 then 4294967296 else 0)
                 = s32 op1 + s32 op2).
  { rewrite !s32_val by done. unfold is_u32, u32 in *. case_tests; Z.div_mod_to_equations; lia. }
  f_equal.
  - rewrite Hsum, Hs1, Hs2. done.
  - subst y'. unfold is_u32 in *. destruct T; Z.div_mod_to_equations; lia.
Qed.

(** ** The sequence *)

Fixpoint iter_state (n : nat) (f : sparc_state -> sparc_state) (s : sparc_state) : sparc_state :=
  match n with O => s | S n => f (iter_state n f s) end.

Definition mulscc_reg (r m : Z) (s : sparc_state) : sparc_state :=
  (i_mulscc_execute {| rd := r; rs1 := r; rs2 := m; imm := -1 |} s).2.
Definition mulscc_zero (r : Z) (s : sparc_state) : sparc_state :=
  (i_mulscc_execute {| rd := r; rs1 := r; rs2 := -1; imm := 0 |} s).2.

(** After [k] steps on integers: the bits shifted out of the accumulator are
    the top of Y, what is left of the multiplier its bottom. *)
Lemma mul_steps_inv (m y0 : Z) (k : nat) a y c :
  0 <= y0 < 4294967296 -> Z.of_nat k < 32 -> 0 <= c < 2 ^ Z.of_nat k ->
  2 ^ Z.of_nat k * a + c = 2 * m * (y0 mod 2 ^ Z.of_nat k) ->
  y = y0 / 2 ^ Z.of_nat k + c * 2 ^ (32 - Z.of_nat k) ->
  let '(a', y') := mul_step m (a, y) in
  exists c', 0 <= c' < 2 ^ Z.of_nat (S k) /\
    2 ^ Z.of_nat (S k) * a' + c' = 2 * m * (y0 mod 2 ^ Z.of_nat (S k)) /\
    y' = y0 / 2 ^ Z.of_nat (S k) + c' * 2 ^ (32 - Z.of_nat (S k)).
Proof.
  intros Hy0 Hk Hc Hinv Hy. unfold mul_step.
  set (P := 2 ^ Z.of_nat k) in *.
  assert (HP : 0 < P) by (subst P; apply pow2_pos; lia).
  assert (HS : 2 ^ Z.of_nat (S k) = 2 * P)
    by (subst P; rewrite Nat2Z.inj_succ, Z.pow_succ_r by lia; done).
  set (Q := 2 ^ (32 - Z.of_nat (S k))).
  assert (HQ : 2 ^ (32 - Z.of_nat k) = 2 * Q).
  { subst Q. rewrite <- Z.pow_succ_r by lia. f_equal. lia. }
  assert (HPQ : P * Q = 2147483648).
  { subst P Q. rewrite <- Z.pow_add_r by lia.
    replace (Z.of_nat k + (32 - Z.of_nat (S k))) with 31 by lia. done. }
  rewrite HS. rewrite HQ in Hy.
  set (u := y0 / P) in *.
  assert (Hu : y0 = P * u + y0 mod P) by (apply Z.div_mod; lia).
  assert (Hmod : y0 mod (2 * P) = y0 mod P + P * (u mod 2)).
  { rewrite (Z.mul_comm 2 P), Z.rem_mul_r by lia. done. }
  assert (Hdiv : y0 / (2 * P) = u / 2).
  { subst u. rewrite Z.div_div by lia. f_equal. lia. }
  assert (Hyodd : y mod 2 = u mod 2).
  { rewrite Hy. replace (c * (2 * Q)) with (c * Q * 2) by ring. apply Z_mod_plus_full. }
  assert (Hydiv : y / 2 = u / 2 + c * Q).
  { rewrite Hy. replace (c * (2 * Q)) with (c * Q * 2) by ring. by rewrite Z_div_plus_full by lia. }
  exists (c + P * (a mod 2)).
  pose proof (Z.mod_pos_bound a 2 ltac:(lia)) as Ha. pose proof (Z.div_mod a 2 ltac:(lia)) as Hda.
  split; [nia|]. split.
  - rewrite Hyodd, Hmod.
    pose proof (Z.mod_pos_bound u 2 ltac:(lia)) as Hub.
    destruct (Z.eqb_spec (u mod 2) 0) as [->|Hne]; [nia|].
    replace (u mod 2) with 1 by lia. nia.
  - rewrite Hydiv, Hdiv. nia.
Qed.

(** The last step halves the accumulator once more. *)
Lemma mul_last (m y0 a y c : Z) :
  0 <= y0 < 4294967296 -> 0 <= c < 2 ^ Z.of_nat 32 ->
  2 ^ Z.of_nat 32 * a + c = 2 * m * (y0 mod 2 ^ Z.of_nat 32) ->
  y = y0 / 2 ^ Z.of_nat 32 + c * 2 ^ (32 - Z.of_nat 32) ->
  m * y0 = (mul_step 0 (a, y)).1 * 4294967296 + (mul_step 0 (a, y)).2.
Proof.
  change (2 ^ Z.of_nat 32) with 4294967296. change (2 ^ (32 - Z.of_nat 32)) with 1.
  intros Hy0 Hc Hinv Hy. rewrite Z.mod_small in Hinv by lia. rewrite Z.div_small in Hy by lia.
  replace (2 * m * y0) with (2 * (m * y0)) in Hinv by ring.
  unfold mul_step. cbn [fst snd]. generalize dependent (m * y0). intros w Hw.
  case_match; Z.div_mod_to_equations; lia.
Qed.

Lemma accumulator_small r s a y :
  is_u32 (REG s r) -> -4294967296 <= a < 4294967296 ->
  accumulator r s = a / 2 + (if y mod 2 =? 0 then 0 else 0) ->
  s32 (REG s r) = accumulator r s.
Proof.
  intros Hx Ha HA. assert (HA' : accumulator r s = a / 2) by (rewrite HA; case_match; lia).
  rewrite HA'. unfold accumulator in HA'. rewrite s32_val by done. unfold is_u32 in Hx.
  destruct (tst _); case_tests; Z.div_mod_to_equations; lia.
Qed.

(** C39: 32 MULScc steps of a cleared accumulator, with the multiplier in Y,
    and a last step with a zero operand leave in the destination and Y the
    exact product of the signed multiplicand and the unsigned multiplier. *)
Theorem mulscc_multiplies r m s :
  state_wf s -> 0 <= r < 32 -> 0 <= m < 32 -> m <> r -> accumulator r s = 0 ->
  let s' := mulscc_zero r (iter_state 32 (mulscc_reg r m) s) in
  s32 (REG s' r) * 4294967296 + YREG s' = s32 (REG s m) * YREG s.
Proof.
  intros Hwf Hr Hm Hmr H0 s'. set (M := s32 (REG s m)). set (y0 := YREG s).
  pose proof (wf_y _ Hwf) as Hy0. fold y0 in Hy0. unfold is_u32 in Hy0.
  assert (HI : forall k, (k <= 32)%nat ->
    let t := iter_state k (mulscc_reg r m) s in
    state_wf t /\ REG t m = REG s m /\ exists c, 0 <= c < 2 ^ Z.of_nat k /\
      2 ^ Z.of_nat k * accumulator r t + c = 2 * M * (y0 mod 2 ^ Z.of_nat k) /\
      YREG t = y0 / 2 ^ Z.of_nat k + c * 2 ^ (32 - Z.of_nat k)).
  { induction k as [|k IH]; intros Hk t.
    - split; [done|]. split; [done|]. exists 0. cbn. rewrite H0, Z.mod_1_r, Z.div_1_r.
      subst y0. split; [lia|]. split; lia.
    - destruct (IH ltac:(lia)) as (Hwt & HRt & c & Hc & Hinv & Hy).
      subst t. cbn [iter_state]. set (t := iter_state k (mulscc_reg r m) s) in *.
      destruct (mulscc_step r m (-1) t Hwt Hr Hm Hmr ltac:(by left)) as (Hw' & HR' & _ & Hstep).
      fold (mulscc_reg r m t) in *. cbn [Z.ltb Z.compare] in *. 
      split; [exact Hw'|]. split; [rewrite <- HRt; exact HR'|].
      pose proof (mul_steps_inv M y0 k _ _ c Hy0 ltac:(lia) Hc Hinv Hy) as Hs.
      rewrite HRt in Hstep. fold M in Hstep. rewrite <- Hstep in Hs. exact Hs. }
  specialize (HI 32%nat (le_n 32)). cbv zeta in HI.
  set (t := iter_state 32 (mulscc_reg r m) s) in *. clearbody t.
  destruct HI as (Hwt & _ & c & Hc & Hinv & Hy).
  destruct (mulscc_step r m 0 t Hwt Hr Hm Hmr ltac:(by right)) as (Hw' & _ & Hb & Hstep).
  cbn [Z.ltb Z.compare] in Hstep, Hw'. fold (mulscc_zero r t) in Hstep, Hw'. fold s' in Hstep, Hw'.
  clearbody s'.
  rewrite (mul_last M y0 (accumulator r t) (YREG t) c Hy0 Hc Hinv Hy).
  rewrite <- Hstep. cbn [fst snd]. f_equal. f_equal.
  unfold mul_step in Hstep. apply pair_eq in Hstep as [HA _].
  apply (accumulator_small r s' (accumulator r t) (YREG t)); [auto with words | exact Hb | exact HA].
Qed.
