(* ===== verification/Memory.v ===== *)
(** * The memory system

    src/memory: the bank table and its lookup (bank_ops.c), RAM and ROM banks
    (ram.c), banks backed by devices (io.c, flash.c), and the instance of the
    processor's [Bus] they make.

    The host is little endian with a signed [char] (x86); whether its [long] is
    64 bits wide is the field [host_lp64], because mem_write_halfword goes
    through an [unsigned long *]. *)

From Stdlib Require Import ZArith Lia Bool.
From stdpp Require Import base numbers option list.
From S2P Require Import Prelude Words Bus Isa.

Definition MAX_BANK : Z := 32.
Definition ADDR_NOHIT : Z := 0.
Definition MEMTYPE_IO : Z := 0.
Definition MEMTYPE_RAM : Z := 1.
Definition MEMTYPE_ROM : Z := 2.
Definition MEMTYPE_FLASH : Z := 3.

(** ** Banks (bank_defs.h) *)

(** The functions the pointers [bank_read] and [bank_write] are set to. *)
Inductive bank_reader : Type := mem_read_fn | io_read_fn | flash_read_fn.
Inductive bank_writer : Type := mem_write_fn | io_write_fn | flash_write_fn | warn_write_fn.

Record mem_bank : Type := {
  bank_addr : Z;
  bank_len : Z;
  bank_write_op : option bank_writer;
  bank_read_op : option bank_reader;
  has_filename : bool;  (* filename[0] != '\0' *)
  bank_type : Z
}.

(** The part of [mem_config_t] and of the static variables of bank_ops.c that
    the look-up uses. *)
Record mem_config : Type := {
  current_num : Z;
  mem_banks : list mem_bank;
  mbp : option nat;  (* [static mem_bank_t *mbp] of bank_ptr *)
  insn_mbp : option nat  (* the one of insn_bank_ptr *)
}.

Definition bank_hit (b : mem_bank) (addr : Z) : bool :=
  (bank_addr b <=? addr) && (u32 (addr - bank_addr b) <? bank_len b).

(** [for (mbp = mem_banks; mbp->len; mbp++)]: the bank found, if any, and
    where [mbp] ends; past the array there is nothing to read. *)
Fixpoint bank_search (l : list mem_bank) (i : nat) (addr : Z) : result (option nat * nat) :=
  match l with
  | [] => Undef
  | b :: l =>
      if bank_len b =? 0 then Val (None, i)
      else if bank_hit b addr then Val (Some i, i)
      else bank_search l (S i) addr
  end.

(** The look-up with its one-entry cache: the result and the new cache. *)
Definition bank_lookup (banks : list mem_bank) (cache : option nat) (addr : Z)
    : result (option nat * option nat) :=
  let search := let! (r, i) := bank_search banks 0 addr in Val (r, Some i) in
  match cache with
  | None => search
  | Some i =>
      match banks !! i with
      | None => Undef
      | Some b => if bank_hit b addr then Val (Some i, Some i) else search
      end
  end.

Definition bank_ptr (addr : Z) (mc : mem_config) : result (option nat * mem_config) :=
  let! (r, c) := bank_lookup (mem_banks mc) (mbp mc) addr in
  Val (r, {| current_num := current_num mc; mem_banks := mem_banks mc; mbp := c;
             insn_mbp := insn_mbp mc |}).

Definition insn_bank_ptr (addr : Z) (mc : mem_config) : result (option nat * mem_config) :=
  let! (r, c) := bank_lookup (mem_banks mc) (insn_mbp mc) addr in
  Val (r, {| current_num := current_num mc; mem_banks := mem_banks mc; mbp := mbp mc;
             insn_mbp := c |}).

(** ** Devices (skyeye_device.h) and the machine's own registers *)

(** A device's accessors; a null pointer is [None].  A read returns its status
    and what it stored through the result pointer. *)
Record device_desc (W : Type) : Type := {
  dev_base : Z;
  dev_size : Z;
  dev_read_byte : option (Z -> W -> result (Z * option Z * W));
  dev_read_halfword : option (Z -> W -> result (Z * option Z * W));
  dev_read_word : option (Z -> W -> result (Z * option Z * W));
  dev_write_byte : option (Z -> Z -> W -> result (Z * W));
  dev_write_halfword : option (Z -> Z -> W -> result (Z * W));
  dev_write_word : option (Z -> Z -> W -> result (Z * W))
}.
Arguments dev_base {W} d : rename.
Arguments dev_size {W} d : rename.
Arguments dev_read_byte {W} d : rename.
Arguments dev_read_halfword {W} d : rename.
Arguments dev_read_word {W} d : rename.
Arguments dev_write_byte {W} d : rename.
Arguments dev_write_halfword {W} d : rename.
Arguments dev_write_word {W} d : rename.

(** [skyeye_config.mach]: the devices and the machine's accessors. *)
Class Mach (W : Type) : Type := {
  devices : list (device_desc W);
  mach_io_read_byte : Z -> W -> result (Z * W);
  mach_io_read_halfword : Z -> W -> result (Z * W);
  mach_io_read_word : Z -> W -> result (Z * W);
  mach_io_write_byte : Z -> Z -> W -> result W;
  mach_io_write_halfword : Z -> Z -> W -> result W;
  mach_io_write_word : Z -> Z -> W -> result W
}.

(** ** State of the memory system *)

Record memsys (W : Type) : Type := {
  memmap : mem_config;
  rom : list (option (list Z));  (* global_memory.rom, each bank as words *)
  big_endian : Z;  (* arch_instance->big_endian *)
  host_lp64 : bool;
  mach : W
}.
Arguments memmap {W} st : rename.
Arguments rom {W} st : rename.
Arguments big_endian {W} st : rename.
Arguments host_lp64 {W} st : rename.
Arguments mach {W} st : rename.

Definition set_memmap {W} (st : memsys W) v : memsys W :=
  {| memmap := v; rom := rom st; big_endian := big_endian st; host_lp64 := host_lp64 st;
     mach := mach st |}.
Definition set_rom {W} (st : memsys W) v : memsys W :=
  {| memmap := memmap st; rom := v; big_endian := big_endian st; host_lp64 := host_lp64 st;
     mach := mach st |}.
Definition set_mach {W} (st : memsys W) v : memsys W :=
  {| memmap := memmap st; rom := rom st; big_endian := big_endian st;
     host_lp64 := host_lp64 st; mach := v |}.

(** A look-up whose result is dereferenced: no bank is a null pointer. *)
Definition mem_bank_ptr {W} (addr : Z) (st : memsys W)
    : result (nat * mem_bank * memsys W) :=
  let! (r, mc) := bank_ptr addr (memmap st) in
  let st := set_memmap st mc in
  match r with
  | None => Undef
  | Some i => match mem_banks mc !! i with None => Undef | Some b => Val (i, b, st) end
  end.

(** [global_memory.rom[bank][idx]]. *)
Definition rom_get {W} (st : memsys W) (bank : nat) (idx : Z) : result Z :=
  match rom st !! bank with
  | Some (Some words) =>
      if (0 <=? idx) && (idx <? Z.of_nat (length words)) then Val (nthZ words idx) else Undef
  | _ => Undef
  end.

Definition rom_set {W} (st : memsys W) (bank : nat) (idx v : Z) : result (memsys W) :=
  match rom st !! bank with
  | Some (Some words) =>
      if (0 <=? idx) && (idx <? Z.of_nat (length words))
      then Val (set_rom st (<[bank := Some (updZ words idx (u32 v))]> (rom st)))
      else Undef
  | _ => Undef
  end.

(** ** ram.c *)

(** Bit offset of a byte and of a halfword in its word. *)
Definition byte_offset (be addr : Z) : Z := Z.shiftl (Z.lxor (u32 (be * 3)) (Z.land addr 3)) 3.
Definition half_offset (be addr : Z) : Z := Z.shiftl (Z.lxor (u32 (be * 2)) (Z.land addr 2)) 3.

Definition word_index (b : mem_bank) (addr : Z) : Z := Z.shiftr (u32 (addr - bank_addr b)) 2.

Section ram.
Context {W : Type}.

Definition mem_read_byte (addr : Z) (st : memsys W) : result (Z * memsys W) :=
  let! (i, b, st) := mem_bank_ptr addr st in
  let! data := rom_get st i (word_index b addr) in
  let offset := byte_offset (big_endian st) addr in
  Val (Z.land (Z.shiftr data offset) 0xff, st).

Definition mem_read_halfword (addr : Z) (st : memsys W) : result (Z * memsys W) :=
  let! (i, b, st) := mem_bank_ptr addr st in
  let! data := rom_get st i (word_index b addr) in
  let offset := half_offset (big_endian st) addr in
  Val (Z.land (Z.shiftr data offset) 0xffff, st).

Definition mem_read_word (addr : Z) (st : memsys W) : result (Z * memsys W) :=
  let! (i, b, st) := mem_bank_ptr addr st in
  let! data := rom_get st i (word_index b addr) in
  Val (data, st).

Definition mem_write_byte (addr data : Z) (st : memsys W) : result (memsys W) :=
  let! (i, b, st) := mem_bank_ptr addr st in
  let! temp := rom_get st i (word_index b addr) in
  let offset := byte_offset (big_endian st) addr in
  rom_set st i (word_index b addr)
    (Z.lor (Z.land temp (Z.lnot (Z.shiftl 0xff offset)))
       (Z.shiftl (Z.land data 0xff) offset)).

(** With a 64-bit [long] the access covers the next word too, which keeps its
    value but has to exist. *)
Definition mem_write_halfword (addr data : Z) (st : memsys W) : result (memsys W) :=
  let! (i, b, st) := mem_bank_ptr addr st in
  let! temp := rom_get st i (word_index b addr) in
  let! next := if host_lp64 st then rom_get st i (word_index b addr + 1) else Val 0 in
  let offset := half_offset (big_endian st) addr in
  rom_set st i (word_index b addr)
    (Z.lor (Z.land temp (Z.lnot (Z.shiftl 0xffff offset)))
       (Z.shiftl (Z.land data 0xffff) offset)).

Definition mem_write_word (addr data : Z) (st : memsys W) : result (memsys W) :=
  let! (i, b, st) := mem_bank_ptr addr st in
  rom_set st i (word_index b addr) data.

(** Status, value stored through the result pointer, state. *)
Definition mem_read (size offset : Z) (st : memsys W) : result (Z * option Z * memsys W) :=
  if size =? 8 then let! (v, st) := mem_read_byte offset st in Val (0, Some (u8 v), st)
  else if size =? 16 then
    let! (v, st) := mem_read_halfword offset st in Val (0, Some (u16 v), st)
  else if size =? 32 then let! (v, st) := mem_read_word offset st in Val (0, Some v, st)
  else Val (-1, None, st).

Definition mem_write (size offset value : Z) (st : memsys W) : result (Z * memsys W) :=
  if size =? 8 then
    let! st := mem_write_byte offset (Z.land value 0xff) st in Val (0, st)
  else if size =? 16 then
    let! st := mem_write_halfword offset (Z.land value 0xffff) st in Val (0, st)
  else if size =? 32 then let! st := mem_write_word offset value st in Val (0, st)
  else Val (-1, st).

Definition warn_write (size offset value : Z) (st : memsys W) : result (Z * memsys W) :=
  Val (-1, st).
End ram.

(** ** io.c and flash.c: the devices in turn *)

(** Whether a device is asked for an address; a size of 0 means always. *)
Definition dev_range {W} (dev : device_desc W) (addr : Z) : bool :=
  (dev_size dev =? 0)
  || ((dev_base dev <=? addr) && (addr <? u32 (dev_base dev + dev_size dev))).

(** The loop of the read functions: [Some v] when a device hit, and the
    variable [data] otherwise. *)
Fixpoint dev_read {W} (sel : device_desc W -> option (Z -> W -> result (Z * option Z * W)))
    (l : list (device_desc W)) (addr : Z) (data : option Z) (w : W)
    : result (option Z * option Z * W) :=
  match l with
  | [] => Val (None, data, w)
  | dev :: l =>
      match sel dev with
      | None => dev_read sel l addr data w
      | Some f =>
          if dev_range dev addr then
            let! (st, v, w) := f addr w in
            let data := match v with Some _ => v | None => data end in
            if negb (st =? ADDR_NOHIT)
            then match data with Some d => Val (Some d, data, w) | None => Undef end
            else dev_read sel l addr data w
          else dev_read sel l addr data w
      end
  end.

(** The loop of the write functions: whether a device took the write. *)
Fixpoint dev_write {W} (sel : device_desc W -> option (Z -> Z -> W -> result (Z * W)))
    (l : list (device_desc W)) (addr data : Z) (w : W) : result (bool * W) :=
  match l with
  | [] => Val (false, w)
  | dev :: l =>
      match sel dev with
      | None => dev_write sel l addr data w
      | Some f =>
          if dev_range dev addr then
            let! (st, w) := f addr data w in
            if negb (st =? ADDR_NOHIT) then Val (true, w) else dev_write sel l addr data w
          else dev_write sel l addr data w
      end
  end.

Section io.
Context {W : Type} `{Mach W}.

Definition io_read_byte (addr : Z) (w : W) : result (Z * W) :=
  let! (r, data, w) := dev_read dev_read_byte devices addr None w in
  match r with Some v => Val (Z.land v 0xff, w) | None => mach_io_read_byte addr w end.

Definition io_read_halfword (addr : Z) (w : W) : result (Z * W) :=
  let! (r, data, w) := dev_read dev_read_halfword devices addr None w in
  match r with Some v => Val (Z.land v 0xffff, w) | None => mach_io_read_halfword addr w end.

Definition io_read_word (addr : Z) (w : W) : result (Z * W) :=
  let! (r, data, w) := dev_read dev_read_word devices addr None w in
  match r with Some v => Val (u32 v, w) | None => mach_io_read_word addr w end.

Definition io_write_byte (addr data : Z) (w : W) : result W :=
  let! (hit, w) := dev_write dev_write_byte devices addr (u8 data) w in
  if (hit : bool) then Val w else mach_io_write_byte addr data w.

Definition io_write_halfword (addr data : Z) (w : W) : result W :=
  let! (hit, w) := dev_write dev_write_halfword devices addr (u16 data) w in
  if (hit : bool) then Val w else mach_io_write_halfword addr data w.

Definition io_write_word (addr data : Z) (w : W) : result W :=
  let! (hit, w) := dev_write dev_write_word devices addr data w in
  if (hit : bool) then Val w else mach_io_write_word addr data w.

Definition io_read (size addr : Z) (w : W) : result (Z * option Z * W) :=
  if size =? 8 then let! (v, w) := io_read_byte addr w in Val (0, Some v, w)
  else if size =? 16 then let! (v, w) := io_read_halfword addr w in Val (0, Some v, w)
  else if size =? 32 then let! (v, w) := io_read_word addr w in Val (0, Some v, w)
  else Val (-1, None, w).

Definition io_write (size addr value : Z) (w : W) : result (Z * W) :=
  if size =? 8 then let! w := io_write_byte addr value w in Val (0, w)
  else if size =? 16 then let! w := io_write_halfword addr value w in Val (0, w)
  else if size =? 32 then let! w := io_write_word addr value w in Val (0, w)
  else Val (-1, w).

(** Flash has no machine to fall back on: the functions return their
    variable [data], of which a byte or halfword device sets a part only. *)
Definition flash_read_byte (addr : Z) (w : W) : result (Z * W) :=
  let! (r, data, w) := dev_read dev_read_byte devices addr None w in
  match r with Some v => Val (Z.land v 0xff, w) | None => Undef end.

Definition flash_read_halfword (addr : Z) (w : W) : result (Z * W) :=
  let! (r, data, w) := dev_read dev_read_halfword devices addr None w in
  match r with Some v => Val (Z.land v 0xffff, w) | None => Undef end.

Definition flash_read_word (addr : Z) (w : W) : result (Z * W) :=
  let! (r, data, w) := dev_read dev_read_word devices addr None w in
  match r with
  | Some v => Val (u32 v, w)
  | None => match data with Some d => Val (u32 d, w) | None => Undef end
  end.

Definition flash_write_byte (addr data : Z) (w : W) : result W :=
  let! (hit, w) := dev_write dev_write_byte devices addr (u8 data) w in Val w.

Definition flash_write_halfword (addr data : Z) (w : W) : result W :=
  let! (hit, w) := dev_write dev_write_halfword devices addr (u16 data) w in Val w.

Definition flash_write_word (addr data : Z) (w : W) : result W :=
  let! (hit, w) := dev_write dev_write_word devices addr data w in Val w.

Definition flash_read (size offset : Z) (w : W) : result (Z * option Z * W) :=
  if size =? 8 then let! (v, w) := flash_read_byte offset w in Val (0, Some v, w)
  else if size =? 16 then let! (v, w) := flash_read_halfword offset w in Val (0, Some v, w)
  else if size =? 32 then let! (v, w) := flash_read_word offset w in Val (0, Some v, w)
  else Val (-1, None, w).

Definition flash_write (size offset value : Z) (w : W) : result (Z * W) :=
  if size =? 8 then let! w := flash_write_byte offset value w in Val (0, w)
  else if size =? 16 then let! w := flash_write_halfword offset value w in Val (0, w)
  else if size =? 32 then let! w := flash_write_word offset value w in Val (0, w)
  else Val (-1, w).

(** ** bank_ops.c: dispatch *)

Definition run_reader (f : bank_reader) (size addr : Z) (st : memsys W)
    : result (Z * option Z * memsys W) :=
  match f with
  | mem_read_fn => mem_read size addr st
  | io_read_fn =>
      let! (s, v, w) := io_read size addr (mach st) in Val (s, v, set_mach st w)
  | flash_read_fn =>
      let! (s, v, w) := flash_read size addr (mach st) in Val (s, v, set_mach st w)
  end.

Definition run_writer (f : bank_writer) (size addr value : Z) (st : memsys W)
    : result (Z * memsys W) :=
  match f with
  | mem_write_fn => mem_write size addr value st
  | io_write_fn =>
      let! (s, w) := io_write size addr value (mach st) in Val (s, set_mach st w)
  | flash_write_fn =>
      let! (s, w) := flash_write size addr value (mach st) in Val (s, set_mach st w)
  | warn_write_fn => warn_write size addr value st
  end.

(** The status of the bank is dropped and 0 returned in every case. *)
Definition mem_bus_read (size addr : Z) (st : memsys W) : result (Z * option Z * memsys W) :=
  let! (r, mc) := bank_ptr (u32 addr) (memmap st) in
  let st := set_memmap st mc in
  match r with
  | None => Val (0, None, st)
  | Some i =>
      match mem_banks mc !! i with
      | None => Undef
      | Some b =>
          match bank_read_op b with
          | None => Val (0, None, st)
          | Some f => let! (s, v, st) := run_reader f size (u32 addr) st in Val (0, v, st)
          end
      end
  end.

Definition mem_bus_write (size addr value : Z) (st : memsys W) : result (Z * memsys W) :=
  let! (r, mc) := bank_ptr (u32 addr) (memmap st) in
  let st := set_memmap st mc in
  match r with
  | None => Val (0, st)
  | Some i =>
      match mem_banks mc !! i with
      | None => Undef
      | Some b =>
          match bank_write_op b with
          | None => Undef
          | Some f => let! (s, st) := run_writer f size (u32 addr) value st in Val (0, st)
          end
      end
  end.
End io.

#[export] Instance memsys_bus {W} `{Mach W} : Bus (memsys W) :=
  {| bus_read := mem_bus_read; bus_write := mem_bus_write |}.

(** ** mem_reset *)

(** One byte of a host file read through a [char *]. *)
Definition char_word (b : Z) : Z := u32 (if b <? 128 then b else b - 256).

(** The word built from the four characters at [p]. *)
Definition swap_word (be p0 p1 p2 p3 : Z) : Z :=
  if be =? 1 then
    Z.lor (Z.lor (Z.lor (char_word p3) (u32 (Z.shiftl (char_word p2) 8)))
      (u32 (Z.shiftl (char_word p1) 16))) (u32 (Z.shiftl (char_word p0) 24))
  else
    Z.lor (Z.lor (Z.lor (char_word p0) (u32 (Z.shiftl (char_word p1) 8)))
      (u32 (Z.shiftl (char_word p2) 16))) (u32 (Z.shiftl (char_word p3) 24)).

(** The loop over the buffer; a last word that sticks out of it is not there to
    read. *)
Fixpoint swap_words (be : Z) (p : list Z) : result (list Z) :=
  match p with
  | [] => Val []
  | p0 :: p1 :: p2 :: p3 :: p =>
      let! l := swap_words be p in Val (swap_word be p0 p1 p2 p3 :: l)
  | _ => Undef
  end.

(** [files i]: the contents of the file of bank [i], if it can be opened. *)
Definition mem_reset_bank {W} (files : nat -> option (list Z)) (b : mem_bank) (i : nat)
    (st : memsys W) : result (memsys W) :=
  if bank_type b =? MEMTYPE_IO then Val (set_rom st (<[i := None]> (rom st)))
  else
    match files i with
    | Some content =>
        let len := Z.to_nat (bank_len b) in
        let got := take len content in
        if (length got =? 0)%nat then Exit (-1)
        else
          let! words := swap_words (big_endian st) (got ++ replicate (len - length got) 0) in
          Val (set_rom st (<[i := Some words]> (rom st)))
    | None =>
        if has_filename b then Exit (-1)
        else Val (set_rom st
               (<[i := Some (replicate (Z.to_nat (bank_len b / 4)) 0)]> (rom st)))
    end.

Fixpoint mem_reset_from {W} (files : nat -> option (list Z)) (l : list mem_bank) (i : nat)
    (st : memsys W) : result (memsys W) :=
  match l with
  | [] => Val st
  | b :: l => let! st := mem_reset_bank files b i st in mem_reset_from files l (S i) st
  end.

Definition mem_reset {W} (files : nat -> option (list Z)) (st : memsys W) : result (memsys W) :=
  mem_reset_from files (take (Z.to_nat (current_num (memmap st))) (mem_banks (memmap st))) 0 st.

(** ** Lemmas on the look-up *)

Definition bank_at (banks : list mem_bank) (addr : Z) (i : nat) : Prop :=
  exists b, banks !! i = Some b /\ bank_hit b addr = true.

Lemma bank_search_spec l i addr r j :
  bank_search l i addr = Val (r, j) ->
  (i <= j < i + length l)%nat /\
  (forall k, r = Some k -> k = j /\ exists b, l !! (k - i)%nat = Some b /\ bank_hit b addr = true) /\
  (r = None -> exists b, l !! (j - i)%nat = Some b /\ bank_len b = 0).
Proof.
  revert i. induction l as [|b l IH]; intros i; cbn [bank_search]; [done|].
  destruct (Z.eqb_spec (bank_len b) 0) as [Hz|Hz].
  { intros [= <- <-]. rewrite Nat.sub_diag. split; [cbn; lia|]. split; [done|].
    intros _. by exists b. }
  destruct (bank_hit b addr) eqn:Hh.
  { intros [= <- <-]. split; [cbn; lia|]. split; [|done]. intros k [= <-].
    rewrite Nat.sub_diag. split; [done|]. by exists b. }
  intros (Hlt & Hs & Hn)%IH. cbn [length]. split; [lia|]. split.
  - intros k Hk. destruct (Hs k Hk) as (-> & b' & Hb & Hh'). split; [done|].
    exists b'. by replace (j - i)%nat with (S (j - S i)) by lia.
  - intros Hr. destruct (Hn Hr) as (b' & Hb & Hl). exists b'.
    by replace (j - i)%nat with (S (j - S i)) by lia.
Qed.

Definition cache_ok (banks : list mem_bank) (c : option nat) : Prop :=
  forall i, c = Some i -> (i < length banks)%nat.

Lemma bank_lookup_spec banks c addr r c' :
  cache_ok banks c -> bank_lookup banks c addr = Val (r, c') ->
  cache_ok banks c' /\ forall k, r = Some k -> c' = Some k /\ bank_at banks addr k.
Proof.
  intros Hc. unfold bank_lookup.
  assert (Hs : (let! (r, i) := bank_search banks 0 addr in Val (r, Some i)) = Val (r, c') ->
    cache_ok banks c' /\ forall k, r = Some k -> c' = Some k /\ bank_at banks addr k).
  { destruct (bank_search banks 0 addr) as [[r0 j]| | |] eqn:E; cbn; try done.
    intros [= <- <-]. apply bank_search_spec in E as (Hlt & Hk & _).
    split; [intros i [= ->]; lia|]. intros k Hr. destruct (Hk k Hr) as (-> & b & Hb & Hh).
    split; [done|]. exists b. by rewrite Nat.sub_0_r in Hb. }
  destruct c as [i|]; [|exact Hs]. destruct (banks !! i) as [b|] eqn:Eb; [|done].
  destruct (bank_hit b addr) eqn:Eh; [|exact Hs].
  intros [= <- <-]. split; [exact Hc|]. intros k [= <-]. split; [done|]. by exists b.
Qed.

(** A second look-up at the same address is answered by the cache. *)
Lemma bank_lookup_again banks c addr k c' :
  cache_ok banks c -> bank_lookup banks c addr = Val (Some k, c') ->
  bank_lookup banks c' addr = Val (Some k, c').
Proof.
  intros Hc Hl. destruct (bank_lookup_spec _ _ _ _ _ Hc Hl) as [_ Hk].
  destruct (Hk k eq_refl) as (-> & b & Hb & Hh). unfold bank_lookup. by rewrite Hb, Hh.
Qed.

(** ** The memory system is a lawful bus *)

(** What a device's accessors have to keep. *)
Definition dev_read_ok {W} (I : W -> Prop) (f : option (Z -> W -> result (Z * option Z * W))) :=
  forall g addr w, f = Some g -> I w -> holds (fun '(_, _, w') => I w') (g addr w).
Definition dev_write_ok {W} (I : W -> Prop) (f : option (Z -> Z -> W -> result (Z * W))) :=
  forall g addr v w, f = Some g -> I w -> holds (fun '(_, w') => I w') (g addr v w).

Record dev_ok {W} (I : W -> Prop) (d : device_desc W) : Prop := {
  ok_read_byte : dev_read_ok I (dev_read_byte d);
  ok_read_halfword : dev_read_ok I (dev_read_halfword d);
  ok_read_word : dev_read_ok I (dev_read_word d);
  ok_write_byte : dev_write_ok I (dev_write_byte d);
  ok_write_halfword : dev_write_ok I (dev_write_halfword d);
  ok_write_word : dev_write_ok I (dev_write_word d)
}.

Class MachLaws (W : Type) `{Mach W} : Type := {
  mach_inv : W -> Prop;
  devices_ok : Forall (dev_ok mach_inv) devices;
  mach_read_byte_law : forall addr w, mach_inv w ->
    holds (fun '(v, w') => is_u32 v /\ mach_inv w') (mach_io_read_byte addr w);
  mach_read_halfword_law : forall addr w, mach_inv w ->
    holds (fun '(v, w') => is_u32 v /\ mach_inv w') (mach_io_read_halfword addr w);
  mach_read_word_law : forall addr w, mach_inv w ->
    holds (fun '(v, w') => is_u32 v /\ mach_inv w') (mach_io_read_word addr w);
  mach_write_byte_law : forall addr v w, mach_inv w -> holds mach_inv (mach_io_write_byte addr v w);
  mach_write_halfword_law : forall addr v w, mach_inv w ->
    holds mach_inv (mach_io_write_halfword addr v w);
  mach_write_word_law : forall addr v w, mach_inv w -> holds mach_inv (mach_io_write_word addr v w)
}.

Definition rom_ok (r : option (list Z)) : Prop :=
  match r with Some words => Forall is_u32 words | None => True end.

Record memsys_wf {W} `{MachLaws W} (st : memsys W) : Prop := {
  wf_cache : cache_ok (mem_banks (memmap st)) (mbp (memmap st));
  wf_rom : Forall rom_ok (rom st);
  wf_mach : mach_inv (mach st)
}.

Section laws.
Context {W : Type} `{MachLaws W}.

Lemma dev_read_inv I sel l addr data (w : W) :
  Forall (fun d => dev_read_ok I (sel d)) l -> I w ->
  holds (fun '(_, _, w') => I w') (dev_read sel l addr data w).
Proof.
  intros Hl. revert data w. induction Hl as [|d l Hd Hl IH]; intros data w Hw; cbn; [done|].
  destruct (sel d) as [f|] eqn:Ef; [|auto]. destruct (dev_range d addr); [|auto].
  eapply holds_bind; [by apply (Hd f)|]. intros [[st v] w'] Hw'. cbn beta iota zeta.
  destruct (negb _); [|auto]. by destruct v, data.
Qed.

Lemma dev_write_inv I sel l addr v (w : W) :
  Forall (fun d => dev_write_ok I (sel d)) l -> I w ->
  holds (fun '(_, w') => I w') (dev_write sel l addr v w).
Proof.
  intros Hl. revert w. induction Hl as [|d l Hd Hl IH]; intros w Hw; cbn; [done|].
  destruct (sel d) as [f|] eqn:Ef; [|auto]. destruct (dev_range d addr); [|auto].
  eapply holds_bind; [by apply (Hd f)|]. intros [st w'] Hw'. cbn beta iota zeta.
  destruct (negb _); auto.
Qed.

Ltac devs := eapply Forall_impl; [apply devices_ok | by intros ? []].

(** Reads give 32-bit values, and reads and writes keep the invariant. *)
Definition read_good (r : result (Z * W)) : Prop :=
  holds (fun '(v, w') => is_u32 v /\ mach_inv w') r.

Ltac rd law :=
  eapply holds_bind; [apply (dev_read_inv mach_inv); [devs | assumption]|];
  intros [[r d] w'] Hw'; cbn beta iota zeta;
  destruct r as [v|]; [split; auto with words | first [by apply law | exact I | idtac]].

Lemma io_read_byte_good addr w : mach_inv w -> read_good (io_read_byte addr w).
Proof. intros. unfold io_read_byte. rd mach_read_byte_law. Qed.
Lemma io_read_halfword_good addr w : mach_inv w -> read_good (io_read_halfword addr w).
Proof. intros. unfold io_read_halfword. rd mach_read_halfword_law. Qed.
Lemma io_read_word_good addr w : mach_inv w -> read_good (io_read_word addr w).
Proof. intros. unfold io_read_word. rd mach_read_word_law. Qed.
Lemma flash_read_byte_good addr w : mach_inv w -> read_good (flash_read_byte addr w).
Proof. intros. unfold flash_read_byte. rd I. Qed.
Lemma flash_read_halfword_good addr w : mach_inv w -> read_good (flash_read_halfword addr w).
Proof. intros. unfold flash_read_halfword. rd I. Qed.
Lemma flash_read_word_good addr w : mach_inv w -> read_good (flash_read_word addr w).
Proof.
  intros. unfold flash_read_word. rd I. destruct d; [|exact I]. split; auto with words.
Qed.

Ltac wr law :=
  eapply holds_bind; [apply (dev_write_inv mach_inv); [devs | assumption]|];
  intros [hit w'] Hw'; cbn beta iota zeta;
  first [exact Hw' | destruct hit; [exact Hw' | by apply law]].

Lemma io_write_byte_good addr v w : mach_inv w -> holds mach_inv (io_write_byte addr v w).
Proof. intros. unfold io_write_byte. wr mach_write_byte_law. Qed.
Lemma io_write_halfword_good addr v w :
  mach_inv w -> holds mach_inv (io_write_halfword addr v w).
Proof. intros. unfold io_write_halfword. wr mach_write_halfword_law. Qed.
Lemma io_write_word_good addr v w : mach_inv w -> holds mach_inv (io_write_word addr v w).
Proof. intros. unfold io_write_word. wr mach_write_word_law. Qed.
Lemma flash_write_byte_good addr v w : mach_inv w -> holds mach_inv (flash_write_byte addr v w).
Proof. intros. unfold flash_write_byte. wr I. Qed.
Lemma flash_write_halfword_good addr v w :
  mach_inv w -> holds mach_inv (flash_write_halfword addr v w).
Proof. intros. unfold flash_write_halfword. wr I. Qed.
Lemma flash_write_word_good addr v w : mach_inv w -> holds mach_inv (flash_write_word addr v w).
Proof. intros. unfold flash_write_word. wr I. Qed.

Lemma bank_ptr_wf addr (st : memsys W) :
  memsys_wf st ->
  holds (fun '(r, mc) => memsys_wf (set_memmap st mc) /\ mem_banks mc = mem_banks (memmap st)
           /\ forall k, r = Some k -> bank_at (mem_banks mc) addr k)
    (bank_ptr addr (memmap st)).
Proof.
  intros [Hc Hr Hm]. unfold bank_ptr.
  destruct (bank_lookup _ _ addr) as [[r c]| | |] eqn:E; cbn; try done.
  destruct (bank_lookup_spec _ _ _ _ _ Hc E) as [Hc' Hk].
  split; [by split|]. split; [done|]. intros k Hr'. by apply Hk.
Qed.

Lemma mem_bank_ptr_wf addr (st : memsys W) :
  memsys_wf st -> holds (fun '(i, b, st') => memsys_wf st') (mem_bank_ptr addr st).
Proof.
  intros Hwf. unfold mem_bank_ptr. eapply holds_bind; [by apply bank_ptr_wf|].
  intros [r mc] (Hwf' & _). cbn beta iota zeta. destruct r as [i|]; [|done].
  by destruct (mem_banks mc !! i).
Qed.

Lemma rom_get_u32 (st : memsys W) i idx :
  memsys_wf st -> holds is_u32 (rom_get st i idx).
Proof.
  intros [_ Hr _]. unfold rom_get. destruct (rom st !! i) as [[words|]|] eqn:E; try done.
  case_match; [|done]. change (is_u32 (nthZ words idx)).
  apply nthZ_Forall; [auto with words|].
  by apply (Forall_lookup_1 _ _ _ _ Hr E).
Qed.

Lemma rom_set_wf (st : memsys W) i idx v :
  memsys_wf st -> holds memsys_wf (rom_set st i idx v).
Proof.
  intros [Hc Hr Hm]. unfold rom_set. destruct (rom st !! i) as [[words|]|] eqn:E; try done.
  case_match; [|done]. split; [done | | done]. apply Forall_insert; [done|].
  apply updZ_Forall; [auto with words|]. by apply (Forall_lookup_1 _ _ _ _ Hr E).
Qed.

Lemma mem_read_good size addr (st : memsys W) :
  memsys_wf st ->
  holds (fun '(_, v, st') => (forall w, v = Some w -> is_u32 w) /\ memsys_wf st')
    (mem_read size addr st).
Proof.
  intros Hwf. unfold mem_read, mem_read_byte, mem_read_halfword, mem_read_word, u8, u16.
  repeat case_match; try done.
  all: eapply holds_bind; [eapply holds_bind; [by apply mem_bank_ptr_wf|];
    intros [[i b] st'] Hst'; eapply holds_bind; [by apply rom_get_u32|];
    intros data Hd; instantiate (1 := fun '(v, st') => is_u32 v /\ memsys_wf st');
    (split; [solve [auto with words] | exact Hst'])|].
  all: intros [v st'] [Hv Hst']; cbn; split; [|done]; intros w [= <-]; try done;
    unfold is_u32; Z.div_mod_to_equations; lia.
Qed.

Lemma mem_write_good size addr v (st : memsys W) :
  memsys_wf st -> holds (fun '(_, st') => memsys_wf st') (mem_write size addr v st).
Proof.
  intros Hwf. unfold mem_write, mem_write_byte, mem_write_halfword, mem_write_word.
  repeat case_match; try done.
  all: eapply holds_bind; [eapply holds_bind; [by apply mem_bank_ptr_wf|];
    intros [[i b] st'] Hst' | by intros].
  - eapply holds_bind; [by apply rom_get_u32|]. intros. by apply rom_set_wf.
  - eapply holds_bind; [by apply rom_get_u32|]. intros.
    eapply holds_bind; [|intros; by apply rom_set_wf].
    instantiate (1 := fun _ => True). destruct (host_lp64 st'); [|done].
    by eapply holds_impl; [|by apply rom_get_u32].
  - by apply rom_set_wf.
Qed.

Lemma set_mach_wf (st : memsys W) w : memsys_wf st -> mach_inv w -> memsys_wf (set_mach st w).
Proof. intros [] ?. by split. Qed.

Lemma run_reader_good f size addr (st : memsys W) :
  memsys_wf st ->
  holds (fun '(_, v, st') => (forall w, v = Some w -> is_u32 w) /\ memsys_wf st')
    (run_reader f size addr st).
Proof.
  intros Hwf. pose proof (wf_mach _ Hwf) as Hm. destruct f; cbn [run_reader].
  - by apply mem_read_good.
  - unfold io_read. repeat case_match; cbn [rbind holds]; try (by split; [|apply set_mach_wf]).
    all: eapply holds_bind; [eapply holds_bind;
      [first [by apply io_read_byte_good | by apply io_read_halfword_good
             | by apply io_read_word_good]|];
      intros [v w] Hv; instantiate (1 := fun '(_, o, w) =>
        (forall z, o = Some z -> is_u32 z) /\ mach_inv w);
      split; [intros z [= <-]; apply Hv | apply Hv]|].
    all: intros [[s o] w] [Ho Hw]; split; [done | by apply set_mach_wf].
  - unfold flash_read. repeat case_match; cbn [rbind holds];
      try (by split; [|apply set_mach_wf]).
    all: eapply holds_bind; [eapply holds_bind;
      [first [by apply flash_read_byte_good | by apply flash_read_halfword_good
             | by apply flash_read_word_good]|];
      intros [v w] Hv; instantiate (1 := fun '(_, o, w) =>
        (forall z, o = Some z -> is_u32 z) /\ mach_inv w);
      split; [intros z [= <-]; apply Hv | apply Hv]|].
    all: intros [[s o] w] [Ho Hw]; split; [done | by apply set_mach_wf].
Qed.

Lemma run_writer_good f size addr v (st : memsys W) :
  memsys_wf st -> holds (fun '(_, st') => memsys_wf st') (run_writer f size addr v st).
Proof.
  intros Hwf. pose proof (wf_mach _ Hwf) as Hm. destruct f; cbn [run_writer].
  - by apply mem_write_good.
  - unfold io_write. eapply holds_bind with (P := fun '(_, w) => mach_inv w);
      [|intros [s w] Hw; by apply set_mach_wf].
    repeat case_match; try done; (eapply holds_bind;
      [first [by apply io_write_byte_good | by apply io_write_halfword_good
             | by apply io_write_word_good] | by intros]).
  - unfold flash_write. eapply holds_bind with (P := fun '(_, w) => mach_inv w);
      [|intros [s w] Hw; by apply set_mach_wf].
    repeat case_match; try done; (eapply holds_bind;
      [first [by apply flash_write_byte_good | by apply flash_write_halfword_good
             | by apply flash_write_word_good] | by intros]).
  - done.
Qed.

Lemma mem_bus_read_law size addr (st : memsys W) :
  memsys_wf st ->
  holds (fun '(s, v, st') => s = 0 /\ (forall w, v = Some w -> is_u32 w) /\ memsys_wf st')
    (mem_bus_read size addr st).
Proof.
  intros Hwf. unfold mem_bus_read. eapply holds_bind; [by apply bank_ptr_wf|].
  intros [r mc] (Hwf' & _ & _). cbn beta iota zeta. destruct r as [i|]; [|done].
  destruct (mem_banks mc !! i) as [b|]; [|done]. destruct (bank_read_op b) as [f|]; [|done].
  eapply holds_bind; [by apply run_reader_good|]. intros [[s v] st'] Hst'. by split.
Qed.

Lemma mem_bus_write_law size addr v (st : memsys W) :
  memsys_wf st -> holds (fun '(s, st') => s = 0 /\ memsys_wf st') (mem_bus_write size addr v st).
Proof.
  intros Hwf. unfold mem_bus_write. eapply holds_bind; [by apply bank_ptr_wf|].
  intros [r mc] (Hwf' & _ & _). cbn beta iota zeta. destruct r as [i|]; [|done].
  destruct (mem_banks mc !! i) as [b|]; [|done]. destruct (bank_write_op b) as [f|]; [|done].
  eapply holds_bind; [by apply run_writer_good|]. intros [s st'] Hst'. by split.
Qed.
End laws.

#[export] Instance memsys_bus_laws {W} `{MachLaws W} : BusLaws (memsys W) :=
  {| bus_inv := memsys_wf; bus_read_law := mem_bus_read_law; bus_write_law := mem_bus_write_law |}.
