(* ===== verification/MemProps.v ===== *)
(** * Properties of the memory system

    The one-entry cache of the bank look-up, RAM banks as byte-addressed memory
    in the simulated machine's byte order, and the loading of images. *)

From Stdlib Require Import ZArith Lia Bool.
From stdpp Require Import base numbers option list.
From S2P Require Import Prelude Words SparcState Bus Isa Memory.

(** ** The look-up *)

(** The bank an address belongs to: the first one before the empty entry that
    ends the table. *)
Fixpoint bank_find (l : list mem_bank) (i : nat) (addr : Z) : option nat :=
  match l with
  | [] => None
  | b :: l => if bank_len b =? 0 then None
              else if bank_hit b addr then Some i else bank_find l (S i) addr
  end.

Definition disjoint_banks (l : list mem_bank) : Prop :=
  forall i j b c addr, l !! i = Some b -> l !! j = Some c ->
    bank_hit b addr = true -> bank_hit c addr = true -> i = j.

(** The table ends with an empty entry. *)
Definition terminated (l : list mem_bank) : Prop := exists b, b ∈ l /\ bank_len b = 0.

(** A cached bank lies before the end of the table, or at it. *)
Definition cache_valid (l : list mem_bank) (c : option nat) : Prop :=
  forall i, c = Some i -> (i < length l)%nat /\
    forall k b, (k < i)%nat -> l !! k = Some b -> bank_len b <> 0.

Lemma bank_search_find l i addr :
  terminated l -> exists j, bank_search l i addr = Val (bank_find l i addr, (i + j)%nat) /\
    (j < length l)%nat /\ forall k b, (k < j)%nat -> l !! k = Some b -> bank_len b <> 0.
Proof.
  revert i. induction l as [|b l IH]; intros i Ht.
  { destruct Ht as (b & Hin & _). by apply elem_of_nil in Hin. }
  cbn [bank_search bank_find length].
  destruct (Z.eqb_spec (bank_len b) 0) as [Hz|Hz].
  { exists 0%nat. rewrite Nat.add_0_r. split; [done|]. split; [lia|]. lia. }
  destruct (bank_hit b addr).
  { exists 0%nat. rewrite Nat.add_0_r. split; [done|]. split; [lia|]. lia. }
  destruct (IH (S i)) as (j & Hs & Hj & Hk).
  { destruct Ht as (b' & Hin & Hb'). exists b'. split; [|done].
    apply elem_of_cons in Hin as [->|]; [done|done]. }
  exists (S j). rewrite Hs. replace (i + S j)%nat with (S i + j)%nat by lia.
  split; [done|]. split; [lia|]. intros [|k] b' Hlt Hb'; cbn in Hb'; [by injection Hb' as ->|].
  apply (Hk k); [lia | done].
Qed.

Lemma bank_find_hit l i addr j b :
  l !! j = Some b -> bank_hit b addr = true -> disjoint_banks l ->
  (forall k c, (k < j)%nat -> l !! k = Some c -> bank_len c <> 0) ->
  bank_find l i addr = Some (i + j)%nat.
Proof.
  revert i j. induction l as [|a l IH]; intros i j Hj Hh Hd Hk; [done|]. cbn [bank_find].
  assert (Hlen : forall c, bank_hit c addr = true -> bank_len c <> 0).
  { intros c Hc. unfold bank_hit in Hc. apply andb_true_iff in Hc as [_ Hc%Z.ltb_lt].
    pose proof (u32_range (addr - bank_addr c)). unfold is_u32 in *. lia. }
  destruct j as [|j].
  - cbn in Hj. injection Hj as ->. rewrite (proj2 (Z.eqb_neq _ _) (Hlen b Hh)), Hh.
    by rewrite Nat.add_0_r.
  - rewrite (proj2 (Z.eqb_neq (bank_len a) 0)) by (apply (Hk 0%nat); [lia|done]).
    destruct (bank_hit a addr) eqn:Ha; [by specialize (Hd 0%nat (S j) a b addr eq_refl Hj Ha Hh)|].
    rewrite (IH (S i) j Hj Hh); [f_equal; lia | |].
    + intros x y b1 b2 ad H1 H2 H3 H4. specialize (Hd (S x) (S y) b1 b2 ad H1 H2 H3 H4). lia.
    + intros k c Hlt Hc. apply (Hk (S k) c); [lia|done].
Qed.

Lemma bank_ptr_find addr mc :
  disjoint_banks (mem_banks mc) -> terminated (mem_banks mc) -> cache_valid (mem_banks mc) (mbp mc) ->
  exists mc', bank_ptr addr mc = Val (bank_find (mem_banks mc) 0 addr, mc') /\
    mem_banks mc' = mem_banks mc /\ cache_valid (mem_banks mc') (mbp mc').
Proof.
  intros Hd Ht Hc. unfold bank_ptr.
  assert (Hl : exists c', bank_lookup (mem_banks mc) (mbp mc) addr
    = Val (bank_find (mem_banks mc) 0 addr, c') /\ cache_valid (mem_banks mc) c').
  { destruct (bank_search_find (mem_banks mc) 0 addr Ht) as (j & Hs & Hj & Hk).
    assert (Hsearch : cache_valid (mem_banks mc) (Some j)) by (intros i [= <-]; by split).
    unfold bank_lookup. rewrite Hs. cbn [rbind Nat.add].
    destruct (mbp mc) as [i|] eqn:Ec; [|by exists (Some j)].
    destruct (Hc i eq_refl) as [Hi Hik]. destruct (lookup_lt_is_Some_2 _ _ Hi) as [b Hb].
    rewrite Hb. destruct (bank_hit b addr) eqn:Eh; [|by exists (Some j)].
    exists (Some i). rewrite (bank_find_hit _ 0 addr i b) by done. by split. }
  destruct Hl as (c' & -> & Hc'). cbn [rbind]. by eexists.
Qed.

(** ** Lanes of a word *)

Lemma land3_mod a : Z.land a 3 = a mod 4.
Proof. by apply (Z.land_ones a 2). Qed.

Lemma byte_offset_be a : byte_offset 1 a = 8 * (3 - a mod 4).
Proof.
  unfold byte_offset. change (u32 (1 * 3)) with 3. rewrite land3_mod.
  pose proof (Z.mod_pos_bound a 4 ltac:(lia)). generalize dependent (a mod 4). intros r Hr.
  enum_Z r 0 4; reflexivity.
Qed.

Lemma byte_offset_le a : byte_offset 0 a = 8 * (a mod 4).
Proof.
  unfold byte_offset. change (u32 (0 * 3)) with 0. rewrite land3_mod.
  pose proof (Z.mod_pos_bound a 4 ltac:(lia)). generalize dependent (a mod 4). intros r Hr.
  enum_Z r 0 4; reflexivity.
Qed.

Lemma land2_mod a : a mod 2 = 0 -> Z.land a 2 = a mod 4.
Proof.
  intros Ha. assert (H : Z.land a 2 = Z.land (a mod 4) 2)
    by (rewrite <- land3_mod, <- Z.land_assoc; done).
  rewrite H. assert (Hr : a mod 4 = 0 \/ a mod 4 = 2) by (Z.div_mod_to_equations; lia).
  by destruct Hr as [-> | ->].
Qed.

(** Where the [n] bytes from position [r] of a word are. *)
Definition lane (be n r : Z) : Z := 8 * (if be =? 1 then 4 - n - r else r).

Lemma byte_lane be a : be = 0 \/ be = 1 -> byte_offset be a = lane be 1 (a mod 4).
Proof.
  intros [-> | ->]; [rewrite byte_offset_le | rewrite byte_offset_be]; unfold lane; cbn; lia.
Qed.

Lemma half_lane be a :
  be = 0 \/ be = 1 -> a mod 2 = 0 -> half_offset be a = lane be 2 (a mod 4).
Proof.
  intros Hbe Ha. unfold half_offset, lane. rewrite land2_mod by done.
  assert (Hr : a mod 4 = 0 \/ a mod 4 = 2) by (Z.div_mod_to_equations; lia).
  by destruct Hr as [-> | ->], Hbe as [-> | ->].
Qed.

(** The read-modify-write of a word. *)
Definition put_bits (t d off n : Z) : Z :=
  Z.lor (Z.land t (Z.lnot (Z.shiftl (Z.ones n) off))) (Z.shiftl (Z.land d (Z.ones n)) off).

Lemma testbit_ones n i : 0 <= n -> 0 <= i -> Z.testbit (Z.ones n) i = (i <? n).
Proof.
  intros Hn Hi. destruct (Z.ltb_spec i n); [by apply Z.ones_spec_low | by apply Z.ones_spec_high].
Qed.

Lemma testbit_put t d off n p :
  0 <= off -> 0 <= n -> 0 <= p ->
  Z.testbit (put_bits t d off n) p
  = if (off <=? p) && (p <? off + n) then Z.testbit d (p - off) else Z.testbit t p.
Proof.
  intros Ho Hn Hp. unfold put_bits. rewrite Z.lor_spec, Z.land_spec, Z.lnot_spec by lia.
  destruct (Z.leb_spec off p); cbn [andb].
  - rewrite !Z.shiftl_spec, Z.land_spec, !testbit_ones by lia.
    destruct (Z.ltb_spec (p - off) n), (Z.ltb_spec p (off + n)); try lia; cbn;
      by rewrite ?andb_false_r, ?andb_true_r, ?orb_false_r.
  - rewrite !Z.shiftl_spec_low by lia. cbn. by rewrite andb_true_r, orb_false_r.
Qed.

(** Byte [k] of an [n]-byte value in memory order. *)
Definition value_byte (be n v k : Z) : Z :=
  Z.land (Z.shiftr v (8 * (if be =? 1 then n - 1 - k else k))) 255.

(** Byte [r] of a word. *)
Definition word_byte (be w r : Z) : Z := Z.land (Z.shiftr w (lane be 1 r)) 255.

Lemma land255_ext a b :
  (forall i, 0 <= i < 8 -> Z.testbit a i = Z.testbit b i) -> Z.land a 255 = Z.land b 255.
Proof.
  intros H. change 255 with (Z.ones 8). apply Z.bits_inj'. intros i Hi.
  rewrite !Z.land_spec, testbit_ones by lia. destruct (Z.ltb_spec i 8); [|by rewrite !andb_false_r].
  by rewrite H by lia.
Qed.

Lemma word_byte_put be w v n r k :
  be = 0 \/ be = 1 -> (n = 1 \/ n = 2 \/ n = 4) -> 0 <= r -> r + n <= 4 -> 0 <= k < 4 ->
  word_byte be (u32 (put_bits w v (lane be n r) (8 * n))) k
  = if (r <=? k) && (k <? r + n) then value_byte be n v (k - r) else word_byte be w k.
Proof.
  intros Hbe Hn Hr Hrn Hk. unfold word_byte, value_byte, lane.
  set (f := (r <=? k) && (k <? r + n)).
  assert (E : Z.land (Z.shiftr (u32 (put_bits w v (8 * (if be =? 1 then 4 - n - r else r)) (8 * n)))
      (8 * (if be =? 1 then 4 - 1 - k else k))) 255
    = Z.land (if f then Z.shiftr v (8 * (if be =? 1 then n - 1 - (k - r) else k - r))
              else Z.shiftr w (8 * (if be =? 1 then 4 - 1 - k else k))) 255).
  { apply land255_ext. intros i Hi. subst f.
    rewrite Z.shiftr_spec, testbit_u32 by (destruct Hbe as [-> | ->]; cbn; lia).
    rewrite testbit_put by (destruct Hbe as [-> | ->]; cbn; lia).
    destruct Hbe as [-> | ->]; cbn [Z.eqb Pos.eqb].
    all: rewrite (proj2 (Z.ltb_lt _ 32)), andb_true_r by lia.
    all: destruct (Z.leb_spec r k), (Z.ltb_spec k (r + n)); cbn [andb];
      match goal with |- (if ?b then _ else _) = _ =>
        first [replace b with true by (symmetry; apply andb_true_iff; rewrite Z.leb_le, Z.ltb_lt; lia)
              | replace b with false by (symmetry; apply andb_false_iff; rewrite Z.leb_gt, Z.ltb_ge; lia)]
      end; rewrite Z.shiftr_spec by lia; f_equal; lia. }
  rewrite E. by destruct f.
Qed.

(** Reading the bytes back. *)
Lemma value_byte_read be w n r k :
  be = 0 \/ be = 1 -> (n = 1 \/ n = 2 \/ n = 4) -> 0 <= r -> r + n <= 4 -> 0 <= k < n ->
  value_byte be n (Z.land (Z.shiftr w (lane be n r)) (Z.ones (8 * n))) k = word_byte be w (r + k).
Proof.
  intros Hbe Hn Hr Hrn Hk. unfold word_byte, value_byte, lane. apply land255_ext. intros i Hi.
  destruct Hbe as [-> | ->]; cbn [Z.eqb Pos.eqb].
  all: rewrite !Z.shiftr_spec, Z.land_spec, testbit_ones, Z.shiftr_spec by lia.
  all: rewrite (proj2 (Z.ltb_lt _ (8 * n))), andb_true_r by lia; f_equal; lia.
Qed.

(** ** RAM banks as byte-addressed memory *)

(** A bank backed by memory: found by the look-up, word aligned, allocated.  The functions
    that answer for it on the bus may be any. *)
Record backed_bank {W} (st : memsys W) (i : nat) (b : mem_bank) : Prop := {
  rb_bank : mem_banks (memmap st) !! i = Some b;
  rb_before : forall k c, (k < i)%nat -> mem_banks (memmap st) !! k = Some c -> bank_len c <> 0;
  rb_disjoint : disjoint_banks (mem_banks (memmap st));
  rb_terminated : terminated (mem_banks (memmap st));
  rb_cache : cache_valid (mem_banks (memmap st)) (mbp (memmap st));
  rb_addr : 0 <= bank_addr b /\ bank_addr b mod 4 = 0 /\ bank_addr b + bank_len b <= 4294967296;
  rb_be : big_endian st = 0 \/ big_endian st = 1;
  rb_rom : exists words, rom st !! i = Some (Some words) /\ Forall is_u32 words /\
             bank_len b = 4 * Z.of_nat (length words)
}.

(** One that ram.c answers for. *)
Record ram_bank {W} (st : memsys W) (i : nat) (b : mem_bank) : Prop := {
  rb_backed :> backed_bank st i b;
  rb_read : bank_read_op b = Some mem_read_fn;
  rb_write : bank_write_op b = Some mem_write_fn
}.

Lemma backed_ram {W} (st st' : memsys W) i b :
  ram_bank st i b -> backed_bank st' i b -> ram_bank st' i b.
Proof. intros [_ Hr Hw] Hb. by split. Qed.

Definition ram_words {W} (st : memsys W) (i : nat) : list Z :=
  match rom st !! i with Some (Some words) => words | _ => [] end.

(** The byte at an address. *)
Definition ram_byte {W} (st : memsys W) (i : nat) (b : mem_bank) (a : Z) : Z :=
  word_byte (big_endian st) (nthZ (ram_words st i) ((a - bank_addr b) / 4)) (a mod 4).

Definition in_bank (b : mem_bank) (a n : Z) : Prop :=
  bank_addr b <= a /\ a + n <= bank_addr b + bank_len b.

Lemma put_bits_land t d off n : put_bits t (Z.land d (Z.ones n)) off n = put_bits t d off n.
Proof. unfold put_bits. by rewrite <- Z.land_assoc, Z.land_diag. Qed.

Lemma put_bits_all t d : u32 (put_bits t d 0 32) = u32 d.
Proof.
  apply u32_inj_testbit; try apply u32_range. intros i Hi.
  rewrite !testbit_u32, testbit_put by lia.
  rewrite (proj2 (Z.leb_le 0 i)), (proj2 (Z.ltb_lt i _)) by lia. cbn [andb]. by rewrite Z.sub_0_r.
Qed.

Section ram_lemmas.
Context {W : Type} `{Mach W}.

Lemma in_bank_hit (st : memsys W) i b a : backed_bank (W := W) st i b -> in_bank b a 1 -> bank_hit b a = true.
Proof.
  intros [] [H1 H2]. unfold bank_hit. rewrite (proj2 (Z.leb_le _ _) H1). cbn [andb].
  apply Z.ltb_lt. rewrite u32_id by (unfold is_u32; lia). lia.
Qed.

Lemma ram_bank_ptr (st : memsys W) i b a :
  backed_bank (W := W) st i b -> in_bank b a 1 ->
  exists mc, bank_ptr a (memmap st) = Val (Some i, mc) /\ mem_banks mc !! i = Some b /\
    backed_bank (set_memmap st mc) i b.
Proof.
  intros Hr Ha. pose proof (in_bank_hit _ _ _ _ Hr Ha) as Hh. destruct Hr.
  destruct (bank_ptr_find a (memmap st) rb_disjoint0 rb_terminated0 rb_cache0)
    as (mc & Hp & Hm & Hc).
  rewrite (bank_find_hit _ 0 a i b) in Hp by done.
  exists mc. split; [exact Hp|]. rewrite Hm. split; [done|].
  split; cbn [memmap set_memmap]; rewrite ?Hm; try done. by rewrite Hm in Hc.
Qed.

Lemma ram_mem_bank_ptr (st : memsys W) i b a :
  backed_bank (W := W) st i b -> in_bank b a 1 ->
  exists mc, mem_bank_ptr a st = Val (i, b, set_memmap st mc) /\ backed_bank (set_memmap st mc) i b.
Proof.
  intros Hr Ha. destruct (ram_bank_ptr st i b a Hr Ha) as (mc & Hp & Hb & Hr').
  exists mc. split; [|done]. unfold mem_bank_ptr. rewrite Hp. cbn [rbind]. by rewrite Hb.
Qed.

Lemma ram_index (st : memsys W) i b a :
  backed_bank (W := W) st i b -> in_bank b a 1 ->
  word_index b a = (a - bank_addr b) / 4 /\
  0 <= (a - bank_addr b) / 4 < Z.of_nat (length (ram_words st i)).
Proof.
  intros [] [H1 H2]. destruct rb_rom0 as (words & Hw & _ & Hl).
  unfold word_index, ram_words. rewrite Hw, u32_id by (unfold is_u32; lia).
  rewrite Z.shiftr_div_pow2 by lia. change (2 ^ 2) with 4.
  split; [done|]. Z.div_mod_to_equations; lia.
Qed.

Lemma ram_get (st : memsys W) i b a :
  backed_bank (W := W) st i b -> in_bank b a 1 ->
  rom_get st i (word_index b a) = Val (nthZ (ram_words st i) ((a - bank_addr b) / 4)).
Proof.
  intros Hr Ha. destruct (ram_index st i b a Hr Ha) as [-> Hi]. unfold rom_get, ram_words in *.
  destruct (rb_rom _ _ _ Hr) as (words & Hw & _). rewrite Hw in *.
  by rewrite (proj2 (Z.leb_le _ _)), (proj2 (Z.ltb_lt _ _)) by lia.
Qed.

(** Storing a word: the bank stays one, and one word of it changes. *)
Lemma ram_set (st : memsys W) i b a v :
  backed_bank (W := W) st i b -> in_bank b a 1 ->
  exists st', rom_set st i (word_index b a) v = Val st' /\ backed_bank st' i b /\
    mach st' = mach st /\ big_endian st' = big_endian st /\
    ram_words st' i = updZ (ram_words st i) ((a - bank_addr b) / 4) (u32 v).
Proof.
  intros Hr Ha. destruct (ram_index st i b a Hr Ha) as [-> Hi]. unfold rom_set, ram_words in *.
  destruct (rb_rom _ _ _ Hr) as (words & Hw & Hu & Hl). rewrite Hw in *.
  rewrite (proj2 (Z.leb_le _ _)), (proj2 (Z.ltb_lt _ _)) by lia. cbn [andb].
  eexists. split; [done|]. cbn [rom set_rom mach big_endian].
  assert (Hlt : (i < length (rom st))%nat) by (by eapply lookup_lt_Some).
  rewrite list_lookup_insert_eq by done. split; [|done].
  destruct Hr. split; try done. cbn [rom set_rom].
  rewrite list_lookup_insert_eq by done. eexists. split; [done|].
  rewrite length_updZ. split; [|done]. apply updZ_Forall; [auto with words | done].
Qed.

(** Where an aligned access of [n] bytes sits in its word. *)
Lemma aligned_in_word a n : n = 1 \/ n = 2 \/ n = 4 -> a mod n = 0 -> a mod 4 + n <= 4.
Proof. intros [-> |[-> | ->]] Ha; Z.div_mod_to_equations; lia. Qed.

(** Both the byte of the stored word and the others, by address. *)
Lemma ram_byte_updated (st st' : memsys W) i b a n v w :
  backed_bank (W := W) st i b -> in_bank b a n ->
  n = 1 \/ n = 2 \/ n = 4 -> a mod n = 0 ->
  w = u32 (put_bits (nthZ (ram_words st i) ((a - bank_addr b) / 4)) v
             (lane (big_endian st) n (a mod 4)) (8 * n)) ->
  big_endian st' = big_endian st ->
  ram_words st' i = updZ (ram_words st i) ((a - bank_addr b) / 4) w ->
  forall a', in_bank b a' 1 ->
    ram_byte st' i b a'
    = if (a <=? a') && (a' <? a + n) then value_byte (big_endian st) n v (a' - a)
      else ram_byte st i b a'.
Proof.
  intros Hr Ha Hn Hal -> Hbe Hws a' Ha'. unfold ram_byte. rewrite Hbe, Hws.
  destruct (ram_index st i b a Hr ltac:(unfold in_bank in *; lia)) as [_ Hi].
  destruct (ram_index st i b a' Hr Ha') as [_ Hi'].
  pose proof (aligned_in_word a n Hn Hal) as Hw. pose proof (rb_be _ _ _ Hr) as Hb.
  destruct (rb_addr _ _ _ Hr) as (H0 & H4 & _).
  pose proof (Z.mod_pos_bound a 4 ltac:(lia)). pose proof (Z.mod_pos_bound a' 4 ltac:(lia)).
  rewrite nthZ_updZ by lia.
  destruct (Z.eqb_spec ((a' - bank_addr b) / 4) ((a - bank_addr b) / 4)) as [He|He].
  - rewrite word_byte_put by (done || lia). rewrite He.
    assert (Hd : a' mod 4 - a mod 4 = a' - a) by (Z.div_mod_to_equations; lia).
    rewrite Hd.
    replace ((a mod 4 <=? a' mod 4) && (a' mod 4 <? a mod 4 + n))
      with ((a <=? a') && (a' <? a + n)); [done|].
    destruct (Z.leb_spec a a'), (Z.leb_spec (a mod 4) (a' mod 4)), (Z.ltb_spec a' (a + n)),
      (Z.ltb_spec (a' mod 4) (a mod 4 + n)); cbn; lia.
  - destruct (Z.leb_spec a a'), (Z.ltb_spec a' (a + n)); cbn; try done.
    exfalso. apply He. Z.div_mod_to_equations; lia.
Qed.
(** One read-modify-write of a word. *)
Lemma ram_store (st : memsys W) i b a n v w :
  backed_bank (W := W) st i b -> in_bank b a n -> n = 1 \/ n = 2 \/ n = 4 -> a mod n = 0 ->
  u32 w = u32 (put_bits (nthZ (ram_words st i) ((a - bank_addr b) / 4)) v
             (lane (big_endian st) n (a mod 4)) (8 * n)) ->
  exists st', rom_set st i (word_index b a) w = Val st' /\ backed_bank st' i b /\
    mach st' = mach st /\ big_endian st' = big_endian st /\
    forall a', in_bank b a' 1 ->
      ram_byte st' i b a'
      = if (a <=? a') && (a' <? a + n) then value_byte (big_endian st) n v (a' - a)
        else ram_byte st i b a'.
Proof.
  intros Hr Ha Hn Hal Hw.
  destruct (ram_set st i b a w Hr ltac:(unfold in_bank in *; lia))
    as (st' & Hs & Hr' & Hm & Hbe & Hws).
  exists st'. do 4 (split; [done|]). rewrite Hw in Hws.
  intros a' Ha'. eapply ram_byte_updated; [exact Hr | exact Ha | exact Hn | exact Hal | reflexivity | exact Hbe | exact Hws | exact Ha'].
Qed.

(** The three write functions are such a store. *)
Lemma mem_write_store (st : memsys W) i b a n v :
  backed_bank (W := W) st i b -> in_bank b a n -> n = 1 \/ n = 2 \/ n = 4 -> a mod n = 0 ->
  (n = 2 -> host_lp64 st = true -> in_bank b (a + 4) 1) ->
  exists mc w, backed_bank (set_memmap st mc) i b /\
    mem_write (8 * n) a v st
    = (let! st' := rom_set (set_memmap st mc) i (word_index b a) w in Val (0, st')) /\
    u32 w = u32 (put_bits (nthZ (ram_words st i) ((a - bank_addr b) / 4)) v
               (lane (big_endian st) n (a mod 4)) (8 * n)).
Proof.
  intros Hr Ha Hn Hal Hlp. pose proof (rb_be _ _ _ Hr) as Hbe.
  assert (Ha1 : in_bank b a 1) by (unfold in_bank in *; lia).
  destruct (ram_mem_bank_ptr st i b a Hr Ha1) as (mc & Hp & Hr'). exists mc.
  pose proof (ram_get _ i b a Hr' Ha1) as Hg. set (t := nthZ (ram_words st i) _).
  change (nthZ (ram_words (set_memmap st mc) i) ((a - bank_addr b) / 4)) with t in Hg.
  destruct Hn as [-> |[-> | ->]].
  - exists (put_bits t v (byte_offset (big_endian st) a) 8). split; [done|]. split.
    + unfold mem_write, mem_write_byte. cbn [Z.mul Pos.mul Z.eqb Pos.eqb].
      rewrite Hp. cbn [rbind]. rewrite Hg. cbn [rbind big_endian set_memmap].
      change 0xff with (Z.ones 8). rewrite <- put_bits_land. reflexivity.
    + by rewrite byte_lane.
  - exists (put_bits t v (half_offset (big_endian st) a) 16). split; [done|]. split.
    + unfold mem_write, mem_write_halfword. cbn [Z.mul Pos.mul Z.eqb Pos.eqb].
      rewrite Hp. cbn [rbind]. rewrite Hg. cbn [rbind big_endian host_lp64 set_memmap].
      assert (Hx : exists x, (if host_lp64 st then rom_get (set_memmap st mc) i (word_index b a + 1)
        else Val 0) = Val x).
      { destruct (host_lp64 st); [|by eexists].
        pose proof (ram_get _ i b (a + 4) Hr' (Hlp eq_refl eq_refl)) as Hg4.
        destruct (ram_index _ i b (a + 4) Hr' (Hlp eq_refl eq_refl)) as [He _].
        destruct (ram_index _ i b a Hr' Ha1) as [He' _].
        assert (Hi : word_index b a + 1 = word_index b (a + 4))
          by (rewrite He, He'; Z.div_mod_to_equations; lia).
        rewrite Hi. by eexists. }
      destruct Hx as [x ->]. cbn [rbind].
      change 0xffff with (Z.ones 16). rewrite <- put_bits_land. reflexivity.
    + by rewrite half_lane by done.
  - exists v. split; [done|]. split.
    + unfold mem_write, mem_write_word. cbn [Z.mul Pos.mul Z.eqb Pos.eqb].
      rewrite Hp. reflexivity.
    + rewrite Hal. unfold lane.
      replace (8 * (if big_endian st =? 1 then 4 - 4 - 0 else 0)) with 0
        by (by destruct (_ =? 1)).
      by rewrite put_bits_all.
Qed.

(** The word accesses that the other users of ram.c make. *)
Lemma backed_read_word (st : memsys W) i b a :
  backed_bank (W := W) st i b -> in_bank b a 1 ->
  exists mc, mem_read 32 a st
      = Val (0, Some (nthZ (ram_words st i) ((a - bank_addr b) / 4)), set_memmap st mc)
    /\ backed_bank (set_memmap st mc) i b.
Proof.
  intros Hr Ha. destruct (ram_mem_bank_ptr st i b a Hr Ha) as (mc & Hp & Hr').
  exists mc. split; [|done]. unfold mem_read, mem_read_word. cbn [Z.eqb Pos.eqb].
  rewrite Hp. cbn [rbind]. by rewrite (ram_get _ i b a Hr' Ha).
Qed.

Lemma backed_write_word (st : memsys W) i b a v :
  backed_bank (W := W) st i b -> in_bank b a 1 ->
  exists st', mem_write 32 a v st = Val (0, st') /\ backed_bank st' i b
    /\ mach st' = mach st /\ big_endian st' = big_endian st
    /\ ram_words st' i = updZ (ram_words st i) ((a - bank_addr b) / 4) (u32 v).
Proof.
  intros Hr Ha. destruct (ram_mem_bank_ptr st i b a Hr Ha) as (mc & Hp & Hr').
  destruct (ram_set _ i b a v Hr' Ha) as (st' & Hs & Hst').
  exists st'. split; [|exact Hst']. unfold mem_write, mem_write_word. cbn [Z.eqb Pos.eqb].
  rewrite Hp. cbn [rbind]. by rewrite Hs.
Qed.
End ram_lemmas.

Section ram_bus.
  Context {W : Type} `{Mach W}.

Lemma ram_bus_write (st : memsys W) i b a n v :
  ram_bank st i b -> in_bank b a n -> n = 1 \/ n = 2 \/ n = 4 -> a mod n = 0 ->
  (n = 2 -> host_lp64 st = true -> in_bank b (a + 4) 1) ->
  exists st', mem_bus_write (8 * n) a v st = Val (0, st') /\ ram_bank st' i b /\
    mach st' = mach st /\ big_endian st' = big_endian st /\
    forall a', in_bank b a' 1 ->
      ram_byte st' i b a'
      = if (a <=? a') && (a' <? a + n) then value_byte (big_endian st) n v (a' - a)
        else ram_byte st i b a'.
Proof.
  intros Hr Ha Hn Hal Hlp.
  assert (Ha1 : in_bank b a 1) by (unfold in_bank in *; lia).
  assert (Hau : is_u32 a) by (destruct (rb_addr _ _ _ Hr); unfold in_bank, is_u32 in *; lia).
  destruct (ram_bank_ptr st i b a Hr Ha1) as (mc & Hp & Hb & Hr1).
  destruct (mem_write_store _ i b a n v Hr1 Ha Hn Hal Hlp) as (mc2 & w & Hr2 & Hmw & Hw).
  destruct (ram_store _ i b a n v w Hr2 Ha Hn Hal Hw) as (st' & Hset & Hr' & Hm & Hbe & Hbytes).
  exists st'. unfold mem_bus_write. rewrite (u32_id a), Hp by done. cbn [rbind].
  rewrite Hb, (rb_write _ _ _ Hr). cbn [run_writer]. rewrite Hmw, Hset.
  split; [reflexivity|]. split; [by apply (backed_ram st)|]. split; [exact Hm|].
  split; [exact Hbe | exact Hbytes].
Qed.

Lemma ram_bus_read (st : memsys W) i b a n :
  ram_bank st i b -> in_bank b a n -> n = 1 \/ n = 2 \/ n = 4 -> a mod n = 0 ->
  exists v st', mem_bus_read (8 * n) a st = Val (0, Some v, st') /\ ram_bank st' i b /\
    mach st' = mach st /\ big_endian st' = big_endian st /\ rom st' = rom st /\
    0 <= v < 2 ^ (8 * n) /\
    forall k, 0 <= k < n -> value_byte (big_endian st) n v k = ram_byte st i b (a + k).
Proof.
  intros Hr Ha Hn Hal. pose proof (rb_be _ _ _ Hr) as Hbe.
  assert (Ha1 : in_bank b a 1) by (unfold in_bank in *; lia).
  assert (Hau : is_u32 a) by (destruct (rb_addr _ _ _ Hr); unfold in_bank, is_u32 in *; lia).
  destruct (ram_bank_ptr st i b a Hr Ha1) as (mc & Hp & Hb & Hr1).
  destruct (ram_mem_bank_ptr _ i b a Hr1 Ha1) as (mc2 & Hp2 & Hr2).
  pose proof (ram_get _ i b a Hr2 Ha1) as Hg.
  set (t := nthZ _ _) in Hg.
  assert (Ht : is_u32 t).
  { subst t. apply nthZ_Forall; [auto with words|].
    destruct (rb_rom _ _ _ Hr) as (words & Hw & Hu & _). unfold ram_words.
    cbn [rom set_memmap]. by rewrite Hw. }
  pose proof (aligned_in_word a n Hn Hal). pose proof (Z.mod_pos_bound a 4 ltac:(lia)).
  set (v := Z.land (Z.shiftr t (lane (big_endian st) n (a mod 4))) (Z.ones (8 * n))).
  exists v, (set_memmap (set_memmap st mc) mc2).
  split; [|split; [by apply (backed_ram st)|split; [done|split; [done|split; [done|split]]]]].
  - unfold mem_bus_read. rewrite (u32_id a), Hp by done. cbn [rbind].
    rewrite Hb, (rb_read _ _ _ Hr). cbn [run_reader].
    unfold mem_read, mem_read_byte, mem_read_halfword, mem_read_word. subst v.
    destruct Hn as [-> |[-> | ->]];
      [change (8 * 1) with 8 | change (8 * 2) with 16 | change (8 * 4) with 32];
      cbn [Z.eqb Pos.eqb]; rewrite Hp2; cbn [rbind]; rewrite Hg; cbn [rbind big_endian set_memmap].
    + rewrite byte_lane by done. change 0xff with (Z.ones 8). unfold u8.
      rewrite Z.land_ones by lia. change (2 ^ 8) with 256. by rewrite Z.mod_mod by lia.
    + rewrite half_lane by done. change 0xffff with (Z.ones 16). unfold u16.
      rewrite Z.land_ones by lia. change (2 ^ 16) with 65536. by rewrite Z.mod_mod by lia.
    + rewrite Hal. unfold lane.
      replace (8 * (if big_endian st =? 1 then 4 - 4 - 0 else 0)) with 0 by (by destruct (_ =? 1)).
      rewrite Z.shiftr_0_r, Z.land_ones by lia. by rewrite Z.mod_small by exact Ht.
  - subst v. rewrite Z.land_ones by lia. apply Z.mod_pos_bound, pow2_pos. lia.
  - intros k Hk. subst v. rewrite value_byte_read by (done || lia).
    unfold ram_byte. destruct (rb_addr _ _ _ Hr) as (_ & H4 & _).
    replace ((a + k - bank_addr b) / 4) with ((a - bank_addr b) / 4)
      by (Z.div_mod_to_equations; lia).
    replace ((a + k) mod 4) with (a mod 4 + k) by (Z.div_mod_to_equations; lia). done.
Qed.
End ram_bus.

(** ** Properties *)

(** with banks that do not overlap and a table that ends, [bank_ptr]
    always terminates and returns the bank of the address, whatever bank is
    cached, and leaves a valid cache. *)
Theorem bank_ptr_correct addr mc :
  disjoint_banks (mem_banks mc) -> terminated (mem_banks mc) -> cache_valid (mem_banks mc) (mbp mc) ->
  exists mc', bank_ptr addr mc = Val (bank_find (mem_banks mc) 0 addr, mc') /\
    mem_banks mc' = mem_banks mc /\ cache_valid (mem_banks mc') (mbp mc').
Proof. apply bank_ptr_find. Qed.

Section ram_props.
Context {W : Type} `{Mach W}.


(** reading 1, 2 or 4 bytes at an aligned address of a RAM bank through
    the bus gives the number whose bytes, in the simulated machine's byte order,
    are those of the bank, and changes no byte. *)
Theorem ram_read_bytes (st : memsys W) i b a n :
  ram_bank st i b -> in_bank b a n -> n = 1 \/ n = 2 \/ n = 4 -> a mod n = 0 ->
  exists v st', mem_bus_read (8 * n) a st = Val (0, Some v, st') /\ ram_bank st' i b /\
    mach st' = mach st /\ big_endian st' = big_endian st /\ rom st' = rom st /\
    0 <= v < 2 ^ (8 * n) /\
    forall k, 0 <= k < n -> value_byte (big_endian st) n v k = ram_byte st i b (a + k).
Proof. apply ram_bus_read. Qed.
End ram_props.
