(* ===== verification/LoadStoreProps.v ===== *)
(** * Properties of the load and store instructions

    Alignment traps before any bus access, the extension of narrow loads, and
    the round trip of a word through a RAM bank; then [RamBus], the bus with RAM behind it. *)

From Stdlib Require Import ZArith Lia Bool.
From stdpp Require Import base numbers option list.
From S2P Require Import Prelude Words Bus SparcState Windows Isa Traps SparcAlu SparcCtl.
From S2P Require Import SparcMem SparcIU AluProps Memory MemProps.

(** ** Addresses *)

Lemma ls_addr_spec o s : ls_addr o s = u32 (REG s (rs1 o) + operand2 o s).
Proof. unfold ls_addr, operand2. destruct (imm o <? 0); [done|]. by rewrite u32_add_r. Qed.

(** With a 5-bit rs2 the 9-bit decoders read a register that exists. *)
Lemma ls_addr9_wf o s : f3_wf o -> state_wf s -> ls_addr9 o s = Val (ls_addr o s).
Proof.
  intros (_ & _ & Ho) []. pose proof (CWP_nonneg s). unfold ls_addr9, N_WINDOWS, MAX_NWINDOWS in *.
  destruct (Z.ltb_spec (imm o) 0); cbn [andb]; [|done].
  destruct (Z.leb_spec (32 * 16 + 8) (regwptr1 s + (rs2 o - 8))); [lia|done].
Qed.

Section access.
  Context {B : Type} `{Bus B}.

(** The instructions with an alignment requirement, and the size of it. *)
Definition align_table : list ((f3 -> machine B -> result (Z * machine B)) * Z) :=
  [(i_ld_execute, 4); (i_ldd_execute, 8); (i_lduh_execute, 2); (i_ldsh_execute, 2);
   (i_st_execute, 4); (i_sth_execute, 2)].

Lemma land_ones_mod z k : 0 <= k -> tst (Z.land z (Z.ones k)) = negb (z mod 2 ^ k =? 0).
Proof. intros. by rewrite Z.land_ones. Qed.

(** a load or store whose address is not a multiple of the size of the
    access raises the alignment trap and does nothing else: the bus is not
    touched, no register is written and the program counters stay. *)
Theorem misaligned_access_traps :
  Forall (fun '(ex, size) => forall o (m : machine B), f3_wf o -> state_wf (cpu m) ->
    (REG (cpu m) (rs1 o) + operand2 o (cpu m)) mod size <> 0 ->
    ex o m = Val (1, Machine (traps_signal (cpu m) MEM_ADDR_NOT_ALIGNED) (bus m))) align_table.
Proof.
  assert (Ha : forall o s k c, c = Z.ones k -> 0 <= k <= 32 -> (REG s (rs1 o) + operand2 o s) mod 2 ^ k <> 0 ->
    tst (Z.land (ls_addr o s) c) = true).
  { intros o s k c -> Hk Hne. rewrite land_ones_mod, ls_addr_spec by lia.
    unfold u32. change 4294967296 with (2 ^ 32).
    rewrite Z.mod_mod_divide; [by rewrite (proj2 (Z.eqb_neq _ 0))|].
    exists (2 ^ (32 - k)). rewrite <- Z.pow_add_r by lia. f_equal. lia. }
  repeat apply Forall_cons_2; try apply Forall_nil_2; intros o m Ho Hwf Hne.
  - unfold i_ld_execute; cbv zeta. by rewrite (Ha o (cpu m) 2 3 eq_refl) by (done || lia).
  - unfold i_ldd_execute; cbv zeta. by rewrite (Ha o (cpu m) 3 7 eq_refl) by (done || lia).
  - unfold i_lduh_execute; cbv zeta. by rewrite (Ha o (cpu m) 1 1 eq_refl) by (done || lia).
  - unfold i_ldsh_execute; cbv zeta. by rewrite (Ha o (cpu m) 1 1 eq_refl) by (done || lia).
  - unfold i_st_execute. rewrite ls_addr9_wf by done. cbn [rbind].
    by rewrite (Ha o (cpu m) 2 3 eq_refl) by (done || lia).
  - unfold i_sth_execute; cbv zeta. by rewrite (Ha o (cpu m) 1 1 eq_refl) by (done || lia).
Qed.

(** ** Narrow loads *)

(** Each narrow load with its size in bits and the number it makes of the
    value on the bus. *)
Definition narrow_table : list ((f3 -> machine B -> result (Z * machine B)) * Z * (Z -> Z)) :=
  [(i_ldub_execute, 8, fun v => v); (i_lduh_execute, 16, fun v => v);
   (i_ldsb_execute, 8, fun v => if v <? 128 then v else v - 256);
   (i_ldsh_execute, 16, fun v => if v <? 32768 then v else v - 65536)].

Lemma lor_high v n c :
  0 <= n <= 32 -> 0 <= v < 2 ^ n -> c = u32 (- 2 ^ n) -> Z.lor v c = u32 (v - 2 ^ n).
Proof.
  intros Hn Hv ->. pose proof (pow2_pos n ltac:(lia)).
  assert (Hle : 2 ^ n <= 2 ^ 32) by (apply Z.pow_le_mono_r; lia).
  apply u32_inj_testbit; [apply lor_u32; auto with words; unfold is_u32; lia | auto with words |].
  intros i Hi. rewrite Z.lor_spec, !testbit_u32 by lia.
  rewrite (proj2 (Z.ltb_lt i 32)), !andb_true_r by lia.
  destruct (Z.lt_ge_cases i n).
  - rewrite <- (Z.mod_pow2_bits_low (- 2 ^ n) n i), <- (Z.mod_pow2_bits_low (v - 2 ^ n) n i) by lia.
    replace (- 2 ^ n) with (0 + -1 * 2 ^ n) by lia.
    replace (v - 2 ^ n) with (v + -1 * 2 ^ n) by lia.
    rewrite !Z_mod_plus_full, Z.mod_0_l, Z.bits_0, orb_false_r by lia. by rewrite Z.mod_small.
  - replace (- 2 ^ n) with (Z.lnot (2 ^ n - 1)) by (unfold Z.lnot; lia).
    replace (v - 2 ^ n) with (Z.lnot (2 ^ n - 1 - v)) by (unfold Z.lnot; lia).
    rewrite !Z.lnot_spec by lia.
    by rewrite !(testbit_small _ n) by lia.
Qed.

(** the byte and halfword loads write the zero- or sign-extension of what
    the bus gives for their size at the address, and advance. *)
Theorem narrow_loads :
  Forall (fun '(ex, size, f) => forall o (m : machine B) v b', f3_wf o -> state_wf (cpu m) ->
    let addr := u32 (REG (cpu m) (rs1 o) + operand2 o (cpu m)) in
    addr mod (size / 8) = 0 -> 0 <= v < 2 ^ size ->
    bus_read size addr (bus m) = Val (0, Some v, b') ->
    exists s', ex o m = Val (1, Machine s' b') /\ wrote (rd o) (f v) (cpu m) s') narrow_table.
Proof.
  assert (Hgo : forall o (m : machine B) v w b',
    f3_wf o -> state_wf (cpu m) -> u32 w = u32 v ->
    exists s', mem_done 0 (upd_cpu (fun s => set_REG s (rd o) w) (set_bus m b'))
      = Val (1, Machine s' b') /\ wrote (rd o) v (cpu m) s').
  { intros o m v w b' Ho Hwf Hw. eexists. split; [reflexivity|].
    eapply wrote_ext; [exact Hw|]. by apply wrote_step; [|apply Ho]. }
  assert (Hal : forall o s, ls_addr o s mod 2 = 0 -> tst (Z.land (ls_addr o s) 1) = false).
  { intros o s Hm. change 1 with (Z.ones 1). rewrite land_ones_mod by lia.
    change (2 ^ 1) with 2. by rewrite Hm. }
  repeat apply Forall_cons_2; try apply Forall_nil_2; intros o m v b' Ho Hwf addr Hm Hv Hb;
    subst addr; rewrite <- ls_addr_spec in *.
  - unfold i_ldub_execute, mem_load; cbv zeta. rewrite Hb. by apply Hgo.
  - unfold i_lduh_execute, mem_load; cbv zeta. rewrite Hal, Hb by exact Hm. by apply Hgo.
  - unfold i_ldsb_execute, mem_load; cbv zeta. rewrite Hb. cbn [rbind].
    apply Hgo; [done..|]. change (default 0 (Some v)) with v. unfold tst. rewrite Z.shiftr_div_pow2 by lia.
    change (2 ^ 7) with 128. change (2 ^ 8) with 256 in Hv.
    destruct (Z.ltb_spec v 128); [by rewrite (Z.div_small v 128) by lia|].
    replace (v / 128) with 1 by (Z.div_mod_to_equations; lia). cbn [Z.eqb negb].
    rewrite (lor_high v 8) by first [reflexivity | lia]. apply u32_idem.
  - unfold i_ldsh_execute, mem_load; cbv zeta. rewrite Hal, Hb by exact Hm. cbn [rbind].
    apply Hgo; [done..|]. change (default 0 (Some v)) with v. unfold tst. rewrite Z.shiftr_div_pow2 by lia.
    change (2 ^ 15) with 32768. change (2 ^ 16) with 65536 in Hv.
    destruct (Z.ltb_spec v 32768); [by rewrite (Z.div_small v 32768) by lia|].
    replace (v / 32768) with 1 by (Z.div_mod_to_equations; lia). cbn [Z.eqb negb].
    rewrite (lor_high v 16) by first [reflexivity | lia]. apply u32_idem.
Qed.
End access.

(** ** Through memory *)

Lemma value_bytes_inj be n v w :
  be = 0 \/ be = 1 -> 0 <= n -> 0 <= v < 2 ^ (8 * n) -> 0 <= w < 2 ^ (8 * n) ->
  (forall k, 0 <= k < n -> value_byte be n v k = value_byte be n w k) -> v = w.
Proof.
  intros Hbe Hn Hv Hw H. apply Z.bits_inj'. intros p Hp.
  destruct (Z.lt_ge_cases p (8 * n)) as [Hlt|Hge].
  2: by rewrite !(testbit_small _ (8 * n)) by lia.
  set (j := p / 8). assert (Hj : 0 <= j < n) by (subst j; Z.div_mod_to_equations; lia).
  specialize (H (if be =? 1 then n - 1 - j else j) ltac:(destruct Hbe as [-> | ->]; cbn; lia)).
  apply (f_equal (fun z => Z.testbit z (p - 8 * j))) in H. revert H. unfold value_byte.
  replace (if be =? 1 then n - 1 - (if be =? 1 then n - 1 - j else j)
           else if be =? 1 then n - 1 - j else j) with j
    by (destruct Hbe as [-> | ->]; cbn; lia).
  change 255 with (Z.ones 8).
  rewrite !Z.land_spec, testbit_ones by (subst j; Z.div_mod_to_equations; lia).
  rewrite (proj2 (Z.ltb_lt (p - 8 * j) 8)), !andb_true_r by (subst j; Z.div_mod_to_equations; lia).
  rewrite !Z.shiftr_spec by (subst j; Z.div_mod_to_equations; lia).
  by replace (p - 8 * j + 8 * j) with p by lia.
Qed.

Section memory.
  Context {W : Type} `{Mach W}.

(** a word stored by ST into a RAM bank is what LD from the same address
    loads, through the bus, whatever the two destination and address registers
    are; both advance the program counters. *)
Theorem st_ld_roundtrip o1 o2 (m : machine (memsys W)) i b :
  f3_wf o1 -> f3_wf o2 -> state_wf (cpu m) -> ram_bank (bus m) i b ->
  let a := u32 (REG (cpu m) (rs1 o1) + operand2 o1 (cpu m)) in
  in_bank b a 4 -> a mod 4 = 0 ->
  u32 (REG (cpu m) (rs1 o2) + operand2 o2 (cpu m)) = a ->
  exists m1 m2, i_st_execute o1 m = Val (1, m1) /\ i_ld_execute o2 m1 = Val (1, m2) /\
    REG (cpu m2) (rd o2) = REG (cpu m) (rd o1) /\
    (forall x, 0 <= x < 32 -> x <> rd o2 -> REG (cpu m2) x = REG (cpu m) x) /\
    ram_bank (bus m2) i b.
Proof.
  intros Ho1 Ho2 Hwf Hr a Ha Hal Haddr.
  pose proof (rb_be _ _ _ Hr) as Hbe. pose proof (REG_u32 (cpu m) (rd o1) Hwf) as Hd.
  assert (Htst : tst (Z.land a 3) = false).
  { change 3 with (Z.ones 2). rewrite land_ones_mod by lia. change (2 ^ 2) with 4. by rewrite Hal. }
  set (v := REG (cpu m) (rd o1)) in *.
  assert (Hv : Z.land v 0xffffffff = v).
  { change 0xffffffff with (Z.ones 32). rewrite Z.land_ones by lia. by apply Z.mod_small. }
  destruct (ram_bus_write (bus m) i b a 4 v Hr Ha ltac:(auto) Hal ltac:(lia))
    as (st1 & Hw & Hr1 & _ & Hbe1 & Hbytes).
  destruct (ram_bus_read st1 i b a 4 Hr1 Ha ltac:(auto) Hal)
    as (w & st2 & Hrd & Hr2 & _ & _ & _ & Hwr & Hwb).
  change (8 * 4) with 32 in *.
  assert (Hwv : w = v).
  { apply (value_bytes_inj (big_endian st1) 4); try done; [by rewrite Hbe1|].
    intros k Hk. rewrite Hwb by done. rewrite Hbytes by (unfold in_bank in *; lia).
    rewrite (proj2 (Z.leb_le a _)), (proj2 (Z.ltb_lt _ (a + 4))) by lia. cbn [andb].
    rewrite Hbe1. f_equal. lia. }
  subst w.
  pose proof (wrote_step (step_pc (cpu m)) (rd o2) v (wf_step_pc _ Hwf) (proj1 Ho2)) as Hst.
  eexists _, _. split; [|split; [|split; [|split]]].
  - unfold i_st_execute. rewrite ls_addr9_wf, ls_addr_spec by done. fold a. cbn [rbind].
    rewrite Htst. fold v. rewrite Hv. unfold mem_store. cbn [bus_write memsys_bus].
    rewrite Hw. reflexivity.
  - unfold i_ld_execute; cbv zeta. cbn [cpu set_cpu set_bus upd_cpu].
    assert (Haddr' : ls_addr o2 (step_pc (cpu m)) = a) 
      by (rewrite <- Haddr, <- ls_addr_spec; reflexivity).
    rewrite Haddr', Htst. unfold mem_load. cbn [bus bus_read memsys_bus set_cpu set_bus upd_cpu].
    rewrite Hrd. reflexivity.
  - etransitivity; [apply (wrote_reg _ _ _ _ Hst); apply Ho2|]. rewrite Z.eqb_refl.
    by apply u32_id.
  - intros x Hx Hne. etransitivity; [by apply (wrote_reg _ _ _ _ Hst)|].
    by rewrite (proj2 (Z.eqb_neq _ _) Hne).
  - exact Hr2.
Qed.
End memory.

(** * Memory behind the bus

    What a program relies on at the addresses where a RAM bank answers: a word read is
    the word stored last, and other words keep theirs.  The RAM bank of
    src/memory/ram.c, found through the bank table, gives it. *)

(** The word addresses that are RAM, and the word at each. *)
Class RamBus (B : Type) `{Bus B} : Type := {
  ram_at : B -> Z -> Prop;
  word_at : B -> Z -> Z;
  ram_read : forall b a, ram_at b a ->
    is_u32 (word_at b a)
    /\ exists b', bus_read 32 a b = Val (0, Some (word_at b a), b')
       /\ forall a', ram_at b a' -> ram_at b' a' /\ word_at b' a' = word_at b a';
  ram_write : forall b a v, ram_at b a -> is_u32 v ->
    exists b', bus_write 32 a v b = Val (0, b')
       /\ forall a', ram_at b a' ->
            ram_at b' a' /\ word_at b' a' = if a' =? a then v else word_at b a'
}.

(** The same memory. *)
Definition ram_same {B} `{RamBus B} (b b' : B) : Prop :=
  forall a, ram_at b a -> ram_at b' a /\ word_at b' a = word_at b a.

#[export] Instance ram_same_preorder {B} `{RamBus B} : PreOrder (ram_same (B := B)).
Proof.
  split; [by intros b a|]. intros b1 b2 b3 H12 H23 a Ha.
  destruct (H12 a Ha) as [Ha2 E2]. destruct (H23 a Ha2) as [Ha3 E3]. split; [done|congruence].
Qed.

(** ** A RAM bank *)

Section bank.
Context {W : Type} `{Mach W} (i : nat) (b : mem_bank).

Definition bank_at_word (st : memsys W) (a : Z) : Prop :=
  ram_bank st i b /\ in_bank b a 4 /\ a mod 4 = 0.

Definition bank_word (st : memsys W) (a : Z) : Z :=
  nthZ (ram_words st i) ((a - bank_addr b) / 4).

Lemma bank_word_u32 (st : memsys W) a : bank_at_word st a -> is_u32 (bank_word st a).
Proof.
  intros (Hr & _). unfold bank_word. apply nthZ_Forall; [unfold is_u32; lia|].
  destruct (rb_rom _ _ _ Hr) as (ws & Hw & Hu & _). unfold ram_words. by rewrite Hw.
Qed.

(** The bytes of the word. *)
Lemma bank_word_byte (st : memsys W) a k :
  bank_at_word st a -> 0 <= k < 4 ->
  value_byte (big_endian st) 4 (bank_word st a) k = ram_byte st i b (a + k).
Proof.
  intros (Hr & _ & Hal) Hk. destruct (rb_addr _ _ _ Hr) as (_ & H4 & _).
  unfold ram_byte, bank_word, word_byte, value_byte, lane.
  replace ((a + k - bank_addr b) / 4) with ((a - bank_addr b) / 4)
    by (Z.div_mod_to_equations; lia).
  replace ((a + k) mod 4) with k by (Z.div_mod_to_equations; lia).
  done.
Qed.

Lemma bank_word_eq (st : memsys W) a v :
  bank_at_word st a -> is_u32 v ->
  (forall k, 0 <= k < 4 -> value_byte (big_endian st) 4 v k = ram_byte st i b (a + k)) ->
  v = bank_word st a.
Proof.
  intros Ha Hv Hk. pose proof (bank_word_u32 st a Ha) as Hw.
  apply (value_bytes_inj (big_endian st) 4); try done; [apply (rb_be st i b), Ha|].
  intros k Hk4. by rewrite Hk, bank_word_byte.
Qed.

Lemma bank_read_word (st : memsys W) a :
  bank_at_word st a ->
  exists st', mem_bus_read 32 a st = Val (0, Some (bank_word st a), st')
    /\ forall a', bank_at_word st a' -> bank_at_word st' a' /\ bank_word st' a' = bank_word st a'.
Proof.
  intros Hat. pose proof Hat as (Hr & Ha & Hal).
  destruct (ram_bus_read st i b a 4 Hr Ha ltac:(auto) Hal)
    as (v & st' & Hv & Hr' & _ & _ & Hrom & Hv32 & Hk).
  rewrite (bank_word_eq st a v Hat Hv32 Hk) in Hv. exists st'. split; [exact Hv|].
  intros a' (_ & Ha' & Hal'). split; [done|]. unfold bank_word, ram_words. by rewrite Hrom.
Qed.

Lemma bank_write_word (st : memsys W) a v :
  bank_at_word st a -> is_u32 v ->
  exists st', mem_bus_write 32 a v st = Val (0, st')
    /\ forall a', bank_at_word st a' ->
         bank_at_word st' a' /\ bank_word st' a' = if a' =? a then v else bank_word st a'.
Proof.
  intros (Hr & Ha & Hal) Hv.
  destruct (ram_bus_write st i b a 4 v Hr Ha ltac:(auto) Hal ltac:(lia))
    as (st' & Hw & Hr' & _ & Hbe & Hbytes).
  exists st'. split; [exact Hw|]. intros a' Hat'. pose proof Hat' as (_ & Ha' & Hal').
  assert (Hat1 : bank_at_word st' a') by done. split; [done|]. symmetry.
  apply bank_word_eq; [done|case_match; [done|by apply bank_word_u32]|].
  intros k Hk. rewrite Hbe, Hbytes by (unfold in_bank in *; lia).
  destruct (Z.eqb_spec a' a) as [->|Hne].
  - rewrite (proj2 (Z.leb_le a _)), (proj2 (Z.ltb_lt _ (a + 4))) by lia. cbn [andb].
    f_equal. lia.
  - rewrite bank_word_byte by done.
    destruct (Z.leb_spec a (a' + k)), (Z.ltb_spec (a' + k) (a + 4)); try done.
    exfalso. Z.div_mod_to_equations. lia.
Qed.

Definition bank_ram_bus : RamBus (memsys W) :=
  {| ram_at := bank_at_word; word_at := bank_word;
     ram_read st a Ha := conj (bank_word_u32 st a Ha) (bank_read_word st a Ha);
     ram_write st a v Ha Hv := bank_write_word st a v Ha Hv |}.
End bank.
