(* ===== verification/ResetProps.v ===== *)
(** * Loading the memory

    [mem_reset] (src/memory/ram.c): the image of a bank, byte by byte, in the
    byte order of the simulated machine, and what its [char] buffer does to bytes
    from 128 on. *)

From Stdlib Require Import ZArith Lia Bool.
From stdpp Require Import base numbers option list.
From S2P Require Import Prelude Words SparcState Bus Isa Memory MemProps LoadStoreProps.

Definition byte7 (z : Z) : Prop := 0 <= z < 128.

Lemma char_word_small p : byte7 p -> char_word p = p.
Proof.
  unfold byte7, char_word. intros. rewrite (proj2 (Z.ltb_lt p 128)) by lia.
  apply u32_id. unfold is_u32. lia.
Qed.

Lemma nthZ_four a b c d j :
  0 <= j < 4 ->
  nthZ [a; b; c; d] j = if j =? 0 then a else if j =? 1 then b else if j =? 2 then c else d.
Proof. intros Hj. enum_Z j 0 4; reflexivity. Qed.

(** Byte [j] from the low end of four bytes put together. *)
Lemma four_bytes a b c d j :
  byte7 a -> byte7 b -> byte7 c -> byte7 d -> 0 <= j < 4 ->
  Z.land (Z.shiftr (Z.lor (Z.lor (Z.lor a (u32 (Z.shiftl b 8))) (u32 (Z.shiftl c 16)))
    (u32 (Z.shiftl d 24))) (8 * j)) 255 = nthZ [a; b; c; d] j.
Proof.
  unfold byte7. intros Ha Hb Hc Hd Hj.
  rewrite !u32_id by (unfold is_u32; rewrite Z.shiftl_mul_pow2 by lia; lia).
  apply Z.bits_inj'. intros i Hi. change 255 with (Z.ones 8).
  rewrite Z.land_spec, testbit_ones, Z.shiftr_spec, !Z.lor_spec, !Z.shiftl_spec by lia.
  assert (Hx : forall x k, 0 <= x < 128 -> k < 0 \/ 8 <= k -> Z.testbit x k = false).
  { intros x k Hx [Hk|Hk]; [by apply Z.testbit_neg_r | by apply (testbit_small x 8); lia]. }
  destruct (Z.ltb_spec i 8).
  - rewrite andb_true_r. enum_Z j 0 4; rewrite nthZ_four by lia; cbn;
      repeat match goal with
      | |- context [Z.testbit ?x ?k] => rewrite (Hx x k) by lia
      end; rewrite ?orb_false_r, ?orb_false_l; f_equal; lia.
  - rewrite andb_false_r. symmetry. apply Hx; [|lia]. rewrite nthZ_four by done. case_tests; lia.
Qed.

Lemma swap_word_bytes be p0 p1 p2 p3 r :
  be = 0 \/ be = 1 -> byte7 p0 -> byte7 p1 -> byte7 p2 -> byte7 p3 -> 0 <= r < 4 ->
  word_byte be (swap_word be p0 p1 p2 p3) r = nthZ [p0; p1; p2; p3] r.
Proof.
  intros Hbe H0 H1 H2 H3 Hr. unfold word_byte, lane, swap_word. rewrite !char_word_small by done.
  destruct Hbe as [-> | ->]; cbn [Z.eqb Pos.eqb].
  - by apply four_bytes.
  - rewrite four_bytes by (done || lia). enum_Z r 0 4; reflexivity.
Qed.

Lemma nthZ_app_r l1 l2 i :
  Z.of_nat (length l1) <= i -> nthZ (l1 ++ l2) i = nthZ l2 (i - Z.of_nat (length l1)).
Proof.
  intros Hi. unfold nthZ. rewrite (proj2 (Z.leb_le 0 i)), (proj2 (Z.leb_le 0 _)) by lia.
  rewrite app_nth2 by lia. f_equal. lia.
Qed.

Lemma nthZ_app_l l1 l2 i : i < Z.of_nat (length l1) -> nthZ (l1 ++ l2) i = nthZ l1 i.
Proof. intros Hi. unfold nthZ. case_match; [|done]. by rewrite app_nth1 by lia. Qed.

Lemma nthZ_replicate0 n i : nthZ (replicate n 0) i = 0.
Proof.
  unfold nthZ. case_match; [|done]. generalize (Z.to_nat i). clear.
  induction n as [|n IH]; intros [|k]; cbn; auto.
Qed.

Lemma swap_words_bytes be n p :
  be = 0 \/ be = 1 -> length p = (4 * n)%nat -> Forall byte7 p ->
  exists words, swap_words be p = Val words /\ length words = n /\
    forall k, 0 <= k < 4 * Z.of_nat n -> word_byte be (nthZ words (k / 4)) (k mod 4) = nthZ p k.
Proof.
  intros Hbe. revert p. induction n as [|n IH]; intros p Hl Hp.
  { destruct p; [|done]. exists []. split_and!; [done..|lia]. }
  destruct p as [|p0 [|p1 [|p2 [|p3 p]]]]; cbn in Hl; try lia.
  apply Forall_cons in Hp as [Hp0 Hp]. apply Forall_cons in Hp as [Hp1 Hp].
  apply Forall_cons in Hp as [Hp2 Hp]. apply Forall_cons in Hp as [Hp3 Hp].
  destruct (IH p) as (words & Hs & Hlen & Hw); [lia | done |].
  exists (swap_word be p0 p1 p2 p3 :: words). cbn [swap_words]. rewrite Hs.
  split_and!; [done | cbn; by rewrite Hlen |]. intros k Hk.
  change (p0 :: p1 :: p2 :: p3 :: p) with ([p0; p1; p2; p3] ++ p).
  change (swap_word be p0 p1 p2 p3 :: words) with ([swap_word be p0 p1 p2 p3] ++ words).
  destruct (Z.lt_ge_cases k 4).
  - rewrite (Z.div_small k 4), (Z.mod_small k 4), !nthZ_app_l by (cbn; lia).
    change (nthZ [?w] 0) with w. apply swap_word_bytes; (done || lia).
  - rewrite !nthZ_app_r by (cbn; Z.div_mod_to_equations; lia). cbn [length].
    change (Z.of_nat 4) with 4. change (Z.of_nat 1) with 1.
    rewrite <- (Hw (k - 4)) by lia.
    replace (k / 4 - 1) with ((k - 4) / 4) by (Z.div_mod_to_equations; lia).
    by replace (k mod 4) with ((k - 4) mod 4) by (Z.div_mod_to_equations; lia).
Qed.

(** loading a bank from a file of 7-bit bytes allocates the bank and makes
    each of its bytes, read in the simulated machine's byte order, the byte of the
    file at that offset, and 0 past the end of the file. *)
Theorem mem_reset_loads {W} files b i (st : memsys W) content :
  files i = Some content -> content <> [] -> Forall byte7 content ->
  bank_type b <> MEMTYPE_IO -> 0 < bank_len b -> bank_len b mod 4 = 0 ->
  big_endian st = 0 \/ big_endian st = 1 ->
  exists words, mem_reset_bank files b i st = Val (set_rom st (<[i := Some words]> (rom st))) /\
    4 * Z.of_nat (length words) = bank_len b /\
    forall k, 0 <= k < bank_len b ->
      word_byte (big_endian st) (nthZ words (k / 4)) (k mod 4) = nthZ content k.
Proof.
  intros Hf Hne H7 Hty Hlen H4 Hbe. unfold mem_reset_bank.
  rewrite (proj2 (Z.eqb_neq _ _) Hty), Hf.
  set (len := Z.to_nat (bank_len b)). set (got := take len content).
  assert (Hgot : (length got =? 0)%nat = false).
  { subst got. rewrite length_take. destruct content; [done|]. cbn. apply Nat.eqb_neq. lia. }
  rewrite Hgot.
  assert (Hg : (length got <= len)%nat) by (subst got; rewrite length_take; lia).
  destruct (swap_words_bytes (big_endian st) (Z.to_nat (bank_len b / 4))
    (got ++ replicate (len - length got) 0)) as (words & Hs & Hl & Hw); [done | | |].
  - rewrite length_app, length_replicate. subst len. Z.div_mod_to_equations; lia.
  - apply Forall_app_2; [by apply Forall_take|]. apply Forall_replicate. unfold byte7; lia.
  - exists words. rewrite Hs. split; [done|].
    split; [rewrite Hl; Z.div_mod_to_equations; lia|]. intros k Hk.
    rewrite Hw by (Z.div_mod_to_equations; lia).
    destruct (Z.lt_ge_cases k (Z.of_nat (length got))) as [Hlt|Hge].
    + rewrite nthZ_app_l by done. subst got. unfold nthZ. case_match; [|done].
      rewrite length_take in Hlt. rewrite !nth_lookup_Z, lookup_take_lt by lia. done.
    + rewrite nthZ_app_r, nthZ_replicate0 by done. subst got len. rewrite length_take in Hge.
      unfold nthZ. case_match; [|done]. rewrite nth_overflow by lia. done.
Qed.

(** A byte from 128 on is sign-extended by the [char] buffer and overwrites the
    bytes above it in the word: here the other three. *)
Lemma swap_word_sign_extends p : 128 <= p < 256 -> swap_word 1 0 0 0 p = 0xffffff00 + p.
Proof.
  intros Hp. unfold swap_word, char_word. cbn [Z.eqb Pos.eqb].
  rewrite (proj2 (Z.ltb_ge p 128)) by lia. cbn. unfold u32.
  rewrite !Z.lor_0_r. Z.div_mod_to_equations; lia.
Qed.

Lemma mem_reset_loads_witness :
  exists words, mem_reset_bank (fun _ => Some [1; 2; 3; 4; 5])
      {| bank_addr := 0; bank_len := 8; bank_write_op := None; bank_read_op := None;
         has_filename := true; bank_type := MEMTYPE_RAM |} 0
      {| memmap := {| current_num := 1; mem_banks := []; mbp := None; insn_mbp := None |};
         rom := [None]; big_endian := 1; host_lp64 := true; mach := tt |}
    = Val {| memmap := {| current_num := 1; mem_banks := []; mbp := None; insn_mbp := None |};
         rom := [Some words]; big_endian := 1; host_lp64 := true; mach := tt |} /\
    forall k, 0 <= k < 8 -> word_byte 1 (nthZ words (k / 4)) (k mod 4) = nthZ [1; 2; 3; 4; 5] k.
Proof.
  destruct (mem_reset_loads (fun _ => Some [1; 2; 3; 4; 5])
      {| bank_addr := 0; bank_len := 8; bank_write_op := None; bank_read_op := None;
         has_filename := true; bank_type := MEMTYPE_RAM |} 0
      {| memmap := {| current_num := 1; mem_banks := []; mbp := None; insn_mbp := None |};
         rom := [None]; big_endian := 1; host_lp64 := true; mach := tt |} [1; 2; 3; 4; 5])
    as (words & H1 & _ & H2); try done; [|by right|by exists words].
  repeat (apply Forall_cons_2; [unfold byte7; lia|]). apply Forall_nil_2.
Defined.
