(* ===== verification/Leon2.v ===== *)
(** * The LEON2 peripherals

    src/arch_sparc/mach: the UART, the timer unit, the memory and LEON
    configuration registers, the interrupt controller, the table of I/O areas
    and the dispatch on it.  Each register block is a list of 32-bit words, as
    the code's casts to [uint32 *] treat it; a bit field of a register is its
    bits from the lowest (x86 layout).  [uart_out] is the sequence of bytes
    handed to skyeye_uart_write (src/device/uart), the only output. *)

From Stdlib Require Import ZArith Lia Bool.
From stdpp Require Import base numbers option list.
From S2P Require Import Prelude Words Bus Isa SparcIU Memory.

(** ** Constants *)
Definition TIMER1_ADDR := 0x80000040.
Definition UART1_ADDR := 0x80000070.
Definition MCFG_ADDR := 0x80000000.
Definition CFG_ADDR := 0x80000024.
Definition IRQCTRL_ADDR := 0x80000090.
Definition TIMER1_INT := 9.
Definition TIMER2_INT := 8.
Definition USER_DEFINED_INT1 := 15.
Definition UNDERFLOW := 0xffffffff.

Definition IRQCTRL_MASK_AND_PRIORITY_REGISTER := Z.shiftr 0x0 2.
Definition IRQCTRL_PENDING_REGISTER := Z.shiftr 0x4 2.
Definition IRQCTRL_FORCE_REGISTER := Z.shiftr 0x8 2.
Definition IRQCTRL_CLEAR_REGISTER := Z.shiftr 0xc 2.
Definition IRQCTRL_NREGS := 4.

Definition TIMER_CTRL_EN := 0.
Definition TIMER_CTRL_RL := 1.
Definition TIMER_CTRL_LD := 2.
Definition TIMER1_COUNTER_REGISTER := Z.shiftr 0x00 2.
Definition TIMER1_RELOAD_REGISTER := Z.shiftr 0x04 2.
Definition TIMER1_CONTROL_REGISTER := Z.shiftr 0x08 2.
Definition WATCHDOG_REGISTER := Z.shiftr 0x0C 2.
Definition TIMER2_COUNTER_REGISTER := Z.shiftr 0x10 2.
Definition TIMER2_RELOAD_REGISTER := Z.shiftr 0x14 2.
Definition TIMER2_CONTROL_REGISTER := Z.shiftr 0x18 2.
Definition PRESCALER_COUNTER_REGISTER := Z.shiftr 0x20 2.
Definition PRESCALER_RELOAD_REGISTER := Z.shiftr 0x24 2.
Definition TIMER_NREGS := 10.

Definition UART_DATA_REGISTER := Z.shiftr 0x0 2.
Definition UART_STATUS_REGISTER := Z.shiftr 0x4 2.
Definition UART_CONTROL_REGISTER := Z.shiftr 0x8 2.
Definition UART_SCALER_REGISTER := Z.shiftr 0xc 2.
Definition UART_NREGS := 4.
Definition MCFG_REGS := 3.

(** Bit fields of the UART's status and control registers (leon2_uart.h). *)
Definition data_ready := 0.
Definition transmitter_shift_register_empty := 1.
Definition transmitter_hold_register_empty := 2.
Definition receiver_enable := 0.
Definition transmitter_enable := 1.

(** ** State *)
Record regs_block : Type := { address : Z; regs : list Z }.

(** [io_area_t]: the callbacks are the functions of one of the five blocks. *)
Inductive leon2_dev : Type := Uart | Timer | Mcfg | Cfg | Irqctrl.
#[export] Instance leon2_dev_eq_dec : EqDecision leon2_dev.
Proof. solve_decision. Defined.

Record io_area_t : Type := { io_dev : leon2_dev; io_address : Z; bsize : Z }.

Record leon2 : Type := {
  leon2_uart : regs_block;
  leon2_timer : regs_block;
  leon2_mcfg : regs_block;
  leon2_cfg : Z;
  leon2_irqctrl : regs_block;
  io_area : list io_area_t;
  wdog_enabled : bool;
  uart_out : list Z
}.

Definition set_uart (l : leon2) v : leon2 :=
  {| leon2_uart := v; leon2_timer := leon2_timer l; leon2_mcfg := leon2_mcfg l;
     leon2_cfg := leon2_cfg l; leon2_irqctrl := leon2_irqctrl l; io_area := io_area l;
     wdog_enabled := wdog_enabled l; uart_out := uart_out l |}.
Definition set_timer (l : leon2) v : leon2 :=
  {| leon2_uart := leon2_uart l; leon2_timer := v; leon2_mcfg := leon2_mcfg l;
     leon2_cfg := leon2_cfg l; leon2_irqctrl := leon2_irqctrl l; io_area := io_area l;
     wdog_enabled := wdog_enabled l; uart_out := uart_out l |}.
Definition set_mcfg (l : leon2) v : leon2 :=
  {| leon2_uart := leon2_uart l; leon2_timer := leon2_timer l; leon2_mcfg := v;
     leon2_cfg := leon2_cfg l; leon2_irqctrl := leon2_irqctrl l; io_area := io_area l;
     wdog_enabled := wdog_enabled l; uart_out := uart_out l |}.
Definition set_cfg (l : leon2) v : leon2 :=
  {| leon2_uart := leon2_uart l; leon2_timer := leon2_timer l; leon2_mcfg := leon2_mcfg l;
     leon2_cfg := v; leon2_irqctrl := leon2_irqctrl l; io_area := io_area l;
     wdog_enabled := wdog_enabled l; uart_out := uart_out l |}.
Definition set_irqctrl (l : leon2) v : leon2 :=
  {| leon2_uart := leon2_uart l; leon2_timer := leon2_timer l; leon2_mcfg := leon2_mcfg l;
     leon2_cfg := leon2_cfg l; leon2_irqctrl := v; io_area := io_area l;
     wdog_enabled := wdog_enabled l; uart_out := uart_out l |}.
Definition set_io_area (l : leon2) v : leon2 :=
  {| leon2_uart := leon2_uart l; leon2_timer := leon2_timer l; leon2_mcfg := leon2_mcfg l;
     leon2_cfg := leon2_cfg l; leon2_irqctrl := leon2_irqctrl l; io_area := v;
     wdog_enabled := wdog_enabled l; uart_out := uart_out l |}.
Definition set_uart_out (l : leon2) v : leon2 :=
  {| leon2_uart := leon2_uart l; leon2_timer := leon2_timer l; leon2_mcfg := leon2_mcfg l;
     leon2_cfg := leon2_cfg l; leon2_irqctrl := leon2_irqctrl l; io_area := io_area l;
     wdog_enabled := wdog_enabled l; uart_out := v |}.

(** [regs[reg]] and [regs[reg] = v]. *)
Definition rget (b : regs_block) (reg : Z) : Z := nthZ (regs b) reg.
Definition rset (b : regs_block) (reg v : Z) : regs_block :=
  {| address := address b; regs := updZ (regs b) reg (u32 v) |}.
Definition in_regs (b : regs_block) (reg : Z) : bool :=
  (0 <=? reg) && (reg <? Z.of_nat (length (regs b))).

(** [reg = (addr - address) >> 2]. *)
Definition reg_of (b : regs_block) (addr : Z) : Z := Z.shiftr (u32 (addr - address b)) 2.

(** ** leon2_irqctrl.c *)

Definition leon2_irqctrl_write (addr val : Z) (l : leon2) : result leon2 :=
  let reg := reg_of (leon2_irqctrl l) addr in
  if negb (in_regs (leon2_irqctrl l) reg) then Undef
  else
    let l := set_irqctrl l (rset (leon2_irqctrl l) reg val) in
    if (reg =? IRQCTRL_MASK_AND_PRIORITY_REGISTER) || (reg =? IRQCTRL_PENDING_REGISTER)
       || (reg =? IRQCTRL_FORCE_REGISTER) then Val l
    else if reg =? IRQCTRL_CLEAR_REGISTER then
      let c := rget (leon2_irqctrl l) IRQCTRL_CLEAR_REGISTER in
      Val (set_irqctrl l (rset (leon2_irqctrl l) IRQCTRL_CLEAR_REGISTER (Z.land c (Z.lnot val))))
    else Sigint.

Definition leon2_irqctrl_read (addr : Z) (l : leon2) : result (Z * leon2) :=
  let reg := reg_of (leon2_irqctrl l) addr in
  if reg =? IRQCTRL_CLEAR_REGISTER then Val (0, l)
  else if in_regs (leon2_irqctrl l) reg then Val (rget (leon2_irqctrl l) reg, l) else Undef.

Definition leon2_irqctrl_set_pending (irq : Z) (l : leon2) : leon2 :=
  let r := leon2_irqctrl l in
  set_irqctrl l (rset r IRQCTRL_PENDING_REGISTER
    (Z.lor (rget r IRQCTRL_PENDING_REGISTER) (Z.shiftl 1 irq))).

Definition leon2_irqctrl_reset_pending (irq : Z) (l : leon2) : leon2 :=
  let r := leon2_irqctrl l in
  set_irqctrl l (rset r IRQCTRL_PENDING_REGISTER
    (Z.land (rget r IRQCTRL_PENDING_REGISTER) (Z.lnot (Z.shiftl 1 irq)))).

Definition leon2_irqctrl_pending (l : leon2) : Z :=
  rget (leon2_irqctrl l) IRQCTRL_PENDING_REGISTER.
Definition leon2_irqctrl_mask (l : leon2) : Z :=
  Z.land (rget (leon2_irqctrl l) IRQCTRL_MASK_AND_PRIORITY_REGISTER) 0xfffe.
Definition leon2_irqctrl_forced (l : leon2) : Z :=
  rget (leon2_irqctrl l) IRQCTRL_FORCE_REGISTER.

Definition leon2_irqctrl_reset_forced (irq : Z) (l : leon2) : leon2 :=
  let r := leon2_irqctrl l in
  set_irqctrl l (rset r IRQCTRL_FORCE_REGISTER
    (Z.land (rget r IRQCTRL_FORCE_REGISTER) (Z.lnot (Z.shiftl 1 irq)))).

Definition leon2_set_int (irq : Z) (l : leon2) : leon2 := leon2_irqctrl_set_pending irq l.

(** ** leon2_timer_unit.c *)

Definition tget (l : leon2) (reg : Z) : Z := rget (leon2_timer l) reg.
Definition tset (l : leon2) (reg v : Z) : leon2 := set_timer l (rset (leon2_timer l) reg v).
Definition ltst (z : Z) : bool := negb (z =? 0).

(** One of the two timers when the prescaler underflows: count, if enabled. *)
Definition timer_decrement (counter control : Z) (l : leon2) : leon2 :=
  if ltst (bit (tget l control) TIMER_CTRL_EN) then tset l counter (tget l counter - 1) else l.

(** One of the two timers on an underflow. *)
Definition timer_underflow (counter reload control irq : Z) (l : leon2) : leon2 :=
  if tget l counter =? UNDERFLOW then
    let l := if ltst (bit (tget l control) TIMER_CTRL_RL)
             then tset l counter (tget l reload) else l in
    leon2_set_int irq l
  else l.

Definition leon2_timer_core_cycle (l : leon2) : leon2 :=
  let l := tset l PRESCALER_COUNTER_REGISTER (tget l PRESCALER_COUNTER_REGISTER - 1) in
  if tget l PRESCALER_COUNTER_REGISTER =? UNDERFLOW then
    let l := tset l PRESCALER_COUNTER_REGISTER (tget l PRESCALER_RELOAD_REGISTER) in
    let l := timer_decrement TIMER1_COUNTER_REGISTER TIMER1_CONTROL_REGISTER l in
    let l := timer_decrement TIMER2_COUNTER_REGISTER TIMER2_CONTROL_REGISTER l in
    let l := timer_underflow TIMER1_COUNTER_REGISTER TIMER1_RELOAD_REGISTER
      TIMER1_CONTROL_REGISTER TIMER1_INT l in
    let l := timer_underflow TIMER2_COUNTER_REGISTER TIMER2_RELOAD_REGISTER
      TIMER2_CONTROL_REGISTER TIMER2_INT l in
    let l := if wdog_enabled l
      then tset l WATCHDOG_REGISTER (tget l WATCHDOG_REGISTER - 1) else l in
    if tget l WATCHDOG_REGISTER =? UNDERFLOW then leon2_set_int USER_DEFINED_INT1 l else l
  else l.

Definition leon2_timer_core_write (addr val : Z) (l : leon2) : result leon2 :=
  let val := Z.land val 0x00ffffff in
  let reg := reg_of (leon2_timer l) addr in
  if negb (in_regs (leon2_timer l) reg) then Undef
  else
    let l := tset l reg val in
    if reg =? TIMER1_CONTROL_REGISTER then
      if ltst (bit (tget l TIMER1_CONTROL_REGISTER) TIMER_CTRL_LD) then
        let l := tset l TIMER1_COUNTER_REGISTER (tget l TIMER1_RELOAD_REGISTER) in
        Val (tset l TIMER1_CONTROL_REGISTER
               (clear_bit (tget l TIMER1_CONTROL_REGISTER) TIMER_CTRL_LD))
      else Val l
    else Val l.

Definition leon2_timer_core_read (addr : Z) (l : leon2) : result (Z * leon2) :=
  let reg := reg_of (leon2_timer l) addr in
  if in_regs (leon2_timer l) reg then Val (tget l reg, l) else Undef.

(** ** leon2_uart.c *)

Definition uget (l : leon2) (reg : Z) : Z := rget (leon2_uart l) reg.
Definition uset (l : leon2) (reg v : Z) : leon2 := set_uart l (rset (leon2_uart l) reg v).

Definition leon2_uart_cycle (l : leon2) : leon2 :=
  if ltst (bit (uget l UART_CONTROL_REGISTER) transmitter_enable) then
    if negb (ltst (bit (uget l UART_STATUS_REGISTER) transmitter_hold_register_empty)) then
      let c := u8 (uget l UART_DATA_REGISTER) in
      let l := set_uart_out l (uart_out l ++ [c]) in
      let l := uset l UART_STATUS_REGISTER
        (set_bit (uget l UART_STATUS_REGISTER) transmitter_hold_register_empty) in
      uset l UART_STATUS_REGISTER
        (set_bit (uget l UART_STATUS_REGISTER) transmitter_shift_register_empty)
    else l
  else l.

Definition leon2_uart_write (addr v : Z) (l : leon2) : result leon2 :=
  let reg := reg_of (leon2_uart l) addr in
  if reg =? UART_DATA_REGISTER then
    let l := uset l UART_DATA_REGISTER v in
    Val (uset l UART_STATUS_REGISTER
           (clear_bit (uget l UART_STATUS_REGISTER) transmitter_hold_register_empty))
  else if reg =? UART_STATUS_REGISTER then Val l
  else if in_regs (leon2_uart l) reg then Val (uset l reg v) else Undef.

Definition leon2_uart_read (addr : Z) (l : leon2) : result (Z * leon2) :=
  let reg := reg_of (leon2_uart l) addr in
  if in_regs (leon2_uart l) reg then
    let result := uget l reg in
    let l := if reg =? UART_DATA_REGISTER
      then uset l UART_STATUS_REGISTER (clear_bit (uget l UART_STATUS_REGISTER) data_ready)
      else l in
    Val (result, l)
  else Undef.

(** ** leon2_mcfg.c, leon2_cfg.c *)

Definition leon2_mcfg_write (addr val : Z) (l : leon2) : result leon2 := Val l.
Definition leon2_mcfg_read (addr : Z) (l : leon2) : result (Z * leon2) :=
  let reg := reg_of (leon2_mcfg l) addr in
  if in_regs (leon2_mcfg l) reg then Val (rget (leon2_mcfg l) reg, l) else Undef.

Definition leon2_cfg_write (addr val : Z) (l : leon2) : result leon2 := Val l.
Definition leon2_cfg_read (addr : Z) (l : leon2) : result (Z * leon2) := Val (leon2_cfg l, l).

(** ** mach_leon2_io.c *)

(** [realloc] is taken to succeed. *)
Definition leon2_register_io_memory (address size : Z) (dev : leon2_dev) (l : leon2) : leon2 :=
  set_io_area l (io_area l ++ [{| io_dev := dev; io_address := address; bsize := size |}]).

Definition leon2_uart_init (addr : Z) (l : leon2) : leon2 :=
  let l := set_uart l {| address := addr; regs := replicate 4 0 |} in
  let l := uset l UART_CONTROL_REGISTER (set_bit (uget l UART_CONTROL_REGISTER) transmitter_enable) in
  let l := uset l UART_CONTROL_REGISTER (set_bit (uget l UART_CONTROL_REGISTER) receiver_enable) in
  let l := uset l UART_STATUS_REGISTER
    (set_bit (uget l UART_STATUS_REGISTER) transmitter_hold_register_empty) in
  let l := uset l UART_STATUS_REGISTER
    (set_bit (uget l UART_STATUS_REGISTER) transmitter_shift_register_empty) in
  leon2_register_io_memory addr (UART_NREGS * 4) Uart l.

Definition leon2_timer_core_init (addr : Z) (l : leon2) : leon2 :=
  let l := set_timer l {| address := addr; regs := replicate 10 0 |} in
  leon2_register_io_memory addr (TIMER_NREGS * 4) Timer l.

Definition leon2_mcfg_init (addr : Z) (l : leon2) : leon2 :=
  let l := set_mcfg l {| address := addr; regs := [0x00000233; 0x00001220; 0] |} in
  leon2_register_io_memory addr (MCFG_REGS * 4) Mcfg l.

Definition leon2_cfg_init (addr : Z) (l : leon2) : leon2 :=
  let l := set_cfg l 0x700000 in
  leon2_register_io_memory addr 4 Cfg l.

Definition leon2_irqctrl_init (addr : Z) (l : leon2) : leon2 :=
  let l := set_irqctrl l {| address := addr; regs := replicate 4 0 |} in
  leon2_register_io_memory addr (IRQCTRL_NREGS * 4) Irqctrl l.

Definition leon2_io_reset (l : leon2) : leon2 :=
  let l := set_io_area l [] in
  let l := leon2_uart_init UART1_ADDR l in
  let l := leon2_timer_core_init TIMER1_ADDR l in
  let l := leon2_mcfg_init MCFG_ADDR l in
  let l := leon2_cfg_init CFG_ADDR l in
  leon2_irqctrl_init IRQCTRL_ADDR l.

(** The static storage before the first reset. *)
Definition leon2_zero : leon2 :=
  {| leon2_uart := {| address := 0; regs := replicate 4 0 |};
     leon2_timer := {| address := 0; regs := replicate 10 0 |};
     leon2_mcfg := {| address := 0; regs := replicate 3 0 |};
     leon2_cfg := 0;
     leon2_irqctrl := {| address := 0; regs := replicate 4 0 |};
     io_area := []; wdog_enabled := false; uart_out := [] |}.

Definition handle_irq (l : leon2) : result leon2 :=
  let pending := leon2_irqctrl_pending l in
  let mask := leon2_irqctrl_mask l in
  if Z.land pending mask =? 0 then Val l else Sigint.

Definition leon2_io_do_cycle (l : leon2) : result leon2 :=
  let l := leon2_uart_cycle l in
  let l := leon2_timer_core_cycle l in
  handle_irq l.

(** The loop over the areas. *)
Definition io_area_find (l : list io_area_t) (addr : Z) : option leon2_dev :=
  io_dev <$> head (filter (fun a => u32 (addr - io_address a) < bsize a) l).

Definition io_dev_read (d : leon2_dev) : Z -> leon2 -> result (Z * leon2) :=
  match d with
  | Uart => leon2_uart_read
  | Timer => leon2_timer_core_read
  | Mcfg => leon2_mcfg_read
  | Cfg => leon2_cfg_read
  | Irqctrl => leon2_irqctrl_read
  end.

Definition io_dev_write (d : leon2_dev) : Z -> Z -> leon2 -> result leon2 :=
  match d with
  | Uart => leon2_uart_write
  | Timer => leon2_timer_core_write
  | Mcfg => leon2_mcfg_write
  | Cfg => leon2_cfg_write
  | Irqctrl => leon2_irqctrl_write
  end.

(** Byte and halfword accesses end in IO_ERR. *)
Definition leon2_io_read_byte (addr : Z) (l : leon2) : result (Z * leon2) := Sigint.
Definition leon2_io_read_word (addr : Z) (l : leon2) : result (Z * leon2) := Sigint.
Definition leon2_io_write_byte (addr v : Z) (l : leon2) : result leon2 := Sigint.
Definition leon2_io_write_word (addr v : Z) (l : leon2) : result leon2 := Sigint.

Definition leon2_io_read_long (addr : Z) (l : leon2) : result (Z * leon2) :=
  match io_area_find (io_area l) addr with
  | Some d => io_dev_read d addr l
  | None => Val (0, l)
  end.

Definition leon2_io_write_long (addr v : Z) (l : leon2) : result leon2 :=
  match io_area_find (io_area l) addr with
  | Some d => io_dev_write d addr v l
  | None => Val l
  end.

(** skyeye_mach_leon2.c installs these; no generic device is configured. *)
#[export] Instance leon2_mach_init : Mach leon2 :=
  {| devices := []; mach_io_read_byte := leon2_io_read_byte;
     mach_io_read_halfword := leon2_io_read_word; mach_io_read_word := leon2_io_read_long;
     mach_io_write_byte := leon2_io_write_byte; mach_io_write_halfword := leon2_io_write_word;
     mach_io_write_word := leon2_io_write_long |}.

#[export] Instance leon2_mach_cycle : MachIO (memsys leon2) :=
  {| mach_io_do_cycle := fun st => let! l := leon2_io_do_cycle (mach st) in Val (set_mach st l) |}.

(** ** Well-formedness *)

(** The areas [leon2_io_reset] registers, in its order. *)
Definition leon2_areas : list io_area_t :=
  [{| io_dev := Uart; io_address := UART1_ADDR; bsize := 16 |};
   {| io_dev := Timer; io_address := TIMER1_ADDR; bsize := 40 |};
   {| io_dev := Mcfg; io_address := MCFG_ADDR; bsize := 12 |};
   {| io_dev := Cfg; io_address := CFG_ADDR; bsize := 4 |};
   {| io_dev := Irqctrl; io_address := IRQCTRL_ADDR; bsize := 16 |}].

Record block_wf (b : regs_block) (addr : Z) (n : nat) : Prop := {
  block_address : address b = addr;
  block_length : length (regs b) = n;
  block_u32 : Forall is_u32 (regs b)
}.

Record leon2_wf (l : leon2) : Prop := {
  wf_uart : block_wf (leon2_uart l) UART1_ADDR 4;
  wf_timer : block_wf (leon2_timer l) TIMER1_ADDR 10;
  wf_mcfg : block_wf (leon2_mcfg l) MCFG_ADDR 3;
  wf_irqctrl : block_wf (leon2_irqctrl l) IRQCTRL_ADDR 4;
  wf_cfg : is_u32 (leon2_cfg l);
  wf_areas : io_area l = leon2_areas;
  wf_wdog : wdog_enabled l = false
}.

Lemma rget_u32 b a n reg : block_wf b a n -> is_u32 (rget b reg).
Proof. intros []. unfold rget. apply nthZ_Forall; auto with words. Qed.

Lemma rset_wf b a n reg v : block_wf b a n -> block_wf (rset b reg v) a n.
Proof.
  intros []. split; cbn; rewrite ?length_updZ; auto using updZ_Forall with words.
Qed.

Lemma rget_rset b a n i j v :
  block_wf b a n -> 0 <= i < Z.of_nat n -> 0 <= j ->
  rget (rset b i v) j = if j =? i then u32 v else rget b j.
Proof. intros [_ Hl _] Hi Hj. unfold rget, rset; cbn. by rewrite nthZ_updZ by lia. Qed.

Lemma set_uart_wf l v : leon2_wf l -> block_wf v UART1_ADDR 4 -> leon2_wf (set_uart l v).
Proof. intros [] ?. by split. Qed.
Lemma set_timer_wf l v : leon2_wf l -> block_wf v TIMER1_ADDR 10 -> leon2_wf (set_timer l v).
Proof. intros [] ?. by split. Qed.
Lemma set_irqctrl_wf l v :
  leon2_wf l -> block_wf v IRQCTRL_ADDR 4 -> leon2_wf (set_irqctrl l v).
Proof. intros [] ?. by split. Qed.
Lemma set_uart_out_wf l v : leon2_wf l -> leon2_wf (set_uart_out l v).
Proof. intros []. by split. Qed.

Lemma tset_wf l reg v : leon2_wf l -> leon2_wf (tset l reg v).
Proof. intros H. apply set_timer_wf; [done | apply rset_wf, H]. Qed.
Lemma uset_wf l reg v : leon2_wf l -> leon2_wf (uset l reg v).
Proof. intros H. apply set_uart_wf; [done | apply rset_wf, H]. Qed.
Lemma leon2_set_int_wf l irq : leon2_wf l -> leon2_wf (leon2_set_int irq l).
Proof. intros H. apply set_irqctrl_wf; [done | apply rset_wf, H]. Qed.

Lemma tget_u32 l reg : leon2_wf l -> is_u32 (tget l reg).
Proof. intros H. eapply rget_u32, H. Qed.
Lemma uget_u32 l reg : leon2_wf l -> is_u32 (uget l reg).
Proof. intros H. eapply rget_u32, H. Qed.

#[export] Hint Resolve rset_wf tset_wf uset_wf leon2_set_int_wf set_uart_out_wf set_irqctrl_wf
  wf_irqctrl tget_u32 uget_u32 : leon2.

Lemma timer_underflow_wf c r k i l : leon2_wf l -> leon2_wf (timer_underflow c r k i l).
Proof. intros. unfold timer_underflow. repeat case_match; auto with leon2. Qed.

Lemma timer_decrement_wf c k l : leon2_wf l -> leon2_wf (timer_decrement c k l).
Proof. intros. unfold timer_decrement. repeat case_match; auto with leon2. Qed.

#[export] Hint Resolve timer_underflow_wf timer_decrement_wf : leon2.

Lemma if_wf (b : bool) x y : leon2_wf x -> leon2_wf y -> leon2_wf (if b then x else y).
Proof. by destruct b. Qed.

Lemma leon2_timer_core_cycle_wf l : leon2_wf l -> leon2_wf (leon2_timer_core_cycle l).
Proof.
  intros. unfold leon2_timer_core_cycle; cbv zeta.
  repeat first [assumption | apply if_wf | apply leon2_set_int_wf | apply tset_wf
               | apply timer_underflow_wf | apply timer_decrement_wf].
Qed.

Lemma leon2_uart_cycle_wf l : leon2_wf l -> leon2_wf (leon2_uart_cycle l).
Proof.
  intros. unfold leon2_uart_cycle; cbv zeta. repeat case_match; try done.
  by do 2 apply uset_wf; apply set_uart_out_wf.
Qed.

Lemma leon2_io_do_cycle_wf l : leon2_wf l -> holds leon2_wf (leon2_io_do_cycle l).
Proof.
  intros. unfold leon2_io_do_cycle, handle_irq; cbv zeta. case_match; [|done].
  by apply leon2_timer_core_cycle_wf, leon2_uart_cycle_wf.
Qed.

Lemma io_dev_read_wf d addr l :
  leon2_wf l -> holds (fun '(v, l') => is_u32 v /\ leon2_wf l') (io_dev_read d addr l).
Proof.
  intros Hl. destruct d; cbn [io_dev_read].
  - unfold leon2_uart_read; cbv zeta. case_match; [|done]. split; [by apply uget_u32|].
    case_match; auto with leon2.
  - unfold leon2_timer_core_read; cbv zeta. case_match; [|done]. split; [by apply tget_u32 | done].
  - unfold leon2_mcfg_read; cbv zeta. case_match; [|done].
    split; [eapply rget_u32, Hl | done].
  - split; [apply Hl | done].
  - unfold leon2_irqctrl_read; cbv zeta. case_match; [split; auto with words|].
    case_match; [|done]. split; [eapply rget_u32, Hl | done].
Qed.

Lemma io_dev_write_wf d addr v l : leon2_wf l -> holds leon2_wf (io_dev_write d addr v l).
Proof.
  intros Hl. destruct d; cbn [io_dev_write]; try exact Hl.
  - unfold leon2_uart_write; cbv zeta. repeat case_match; try done; cbn; auto with leon2.
  - unfold leon2_timer_core_write; cbv zeta. repeat case_match; try done; cbn; auto with leon2.
  - unfold leon2_irqctrl_write; cbv zeta. repeat case_match; try done; cbn;
      repeat (apply set_irqctrl_wf; [|apply rset_wf]); auto with leon2; apply Hl.
Qed.

#[export] Instance leon2_mach_laws : MachLaws leon2.
Proof.
  refine {| mach_inv := leon2_wf |}.
  - constructor.
  - done.
  - done.
  - intros addr l Hl. cbn. unfold leon2_io_read_long. case_match; [by apply io_dev_read_wf|].
    split; auto with words.
  - done.
  - done.
  - intros addr v l Hl. cbn. unfold leon2_io_write_long. case_match; [by apply io_dev_write_wf|done].
Defined.

#[export] Instance leon2_cycle_laws : MachIOLaws (memsys leon2).
Proof.
  constructor. intros st Hst. cbn [mach_io_do_cycle leon2_mach_cycle].
  eapply holds_bind; [apply leon2_io_do_cycle_wf, Hst|]. intros l Hl. by apply set_mach_wf.
Qed.

(** A reset gives a well-formed block of peripherals, whatever was there. *)
Lemma leon2_io_reset_wf l : wdog_enabled l = false -> leon2_wf (leon2_io_reset l).
Proof.
  intros Hw. split; try done; try (unfold is_u32; cbn; lia).
  all: split; [done | done |].
  all: repeat (apply Forall_cons_2; [vm_compute; done|]); apply Forall_nil_2.
Qed.
