(* ===== verification/Leon2Props.v ===== *)
(** * Properties of the LEON2 peripherals

    The period of the timers, the transmission of the UART, the delivery of
    interrupts, and the map of the I/O area. *)

From Stdlib Require Import ZArith Lia Bool.
From stdpp Require Import base numbers option list.
From S2P Require Import Prelude Words Bus Isa SparcIU Memory Leon2.

(** ** Registers after an update *)

Lemma tget_tset l i j v :
  leon2_wf l -> 0 <= i < 10 -> 0 <= j ->
  tget (tset l i v) j = if j =? i then u32 v else tget l j.
Proof. intros Hl ? ?. unfold tget, tset; cbn. eapply rget_rset; [apply Hl | lia | lia]. Qed.

Lemma uget_uset l i j v :
  leon2_wf l -> 0 <= i < 4 -> 0 <= j ->
  uget (uset l i v) j = if j =? i then u32 v else uget l j.
Proof. intros Hl ? ?. unfold uget, uset; cbn. eapply rget_rset; [apply Hl | lia | lia]. Qed.

Lemma tget_set_int l i j : tget (leon2_set_int i l) j = tget l j.
Proof. done. Qed.
Lemma pending_tset l i v : leon2_irqctrl_pending (tset l i v) = leon2_irqctrl_pending l.
Proof. done. Qed.

Lemma pending_set_int l i j :
  leon2_wf l -> 0 <= i < 32 -> 0 <= j ->
  Z.testbit (leon2_irqctrl_pending (leon2_set_int i l)) j
  = Z.testbit (leon2_irqctrl_pending l) j || (j =? i).
Proof.
  intros Hl Hi Hj. unfold leon2_irqctrl_pending, leon2_set_int, leon2_irqctrl_set_pending; cbn.
  erewrite rget_rset; [|apply Hl | vm_compute; intuition congruence | vm_compute; congruence].
  rewrite Z.eqb_refl, testbit_u32, Z.lor_spec, Z.shiftl_1_l, Z.pow2_bits_eqb by lia.
  pose proof (rget_u32 _ _ _ IRQCTRL_PENDING_REGISTER (wf_irqctrl _ Hl)) as Hp.
  rewrite (Z.eqb_sym i j). destruct (Z.ltb_spec j 32); [by rewrite andb_true_r|].
  rewrite testbit_above_32 by done. by destruct (Z.eqb_spec j i); [lia|].
Qed.

(** ** The timers *)

Inductive timer_id : Type := T1 | T2.
Definition t_counter (t : timer_id) : Z :=
  match t with T1 => TIMER1_COUNTER_REGISTER | T2 => TIMER2_COUNTER_REGISTER end.
Definition t_reload (t : timer_id) : Z :=
  match t with T1 => TIMER1_RELOAD_REGISTER | T2 => TIMER2_RELOAD_REGISTER end.
Definition t_control (t : timer_id) : Z :=
  match t with T1 => TIMER1_CONTROL_REGISTER | T2 => TIMER2_CONTROL_REGISTER end.
Definition t_int (t : timer_id) : Z := match t with T1 => TIMER1_INT | T2 => TIMER2_INT end.

(** A timer that counts and reloads: EN and RL are set. *)
Definition running (t : timer_id) (l : leon2) : Prop :=
  bit (tget l (t_control t)) TIMER_CTRL_EN = 1 /\ bit (tget l (t_control t)) TIMER_CTRL_RL = 1.

Definition int_pending (irq : Z) (l : leon2) : bool := Z.testbit (leon2_irqctrl_pending l) irq.

(** [UNDERFLOW] is one less than 0. *)
Lemma u32_pred v : is_u32 v -> u32 (v - 1) = if v =? 0 then UNDERFLOW else v - 1.
Proof.
  unfold is_u32, u32, UNDERFLOW. intros. case_tests; Z.div_mod_to_equations; lia.
Qed.

Lemma dec_underflow v : is_u32 v -> (u32 (v - 1) =? UNDERFLOW) = (v =? 0).
Proof.
  intros Hv. rewrite u32_pred by done. unfold is_u32, UNDERFLOW in *.
  destruct (Z.eqb_spec v 0); [done|]. apply Z.eqb_neq. lia.
Qed.

Lemma timer_underflow_get c r k i l j :
  leon2_wf l -> 0 <= c < 10 -> 0 <= j ->
  tget (timer_underflow c r k i l) j
  = if (tget l c =? UNDERFLOW) && ltst (bit (tget l k) TIMER_CTRL_RL) && (j =? c)
    then tget l r else tget l j.
Proof.
  intros Hl Hc Hj. unfold timer_underflow. destruct (_ =? UNDERFLOW); [|done].
  destruct (ltst _); cbn [andb]; [|done]. rewrite tget_set_int, tget_tset by done.
  case_match; [|done]. apply u32_id. auto with leon2.
Qed.

Lemma timer_underflow_pending c r k i l j :
  leon2_wf l -> 0 <= i < 32 -> 0 <= j ->
  int_pending j (timer_underflow c r k i l)
  = int_pending j l || ((tget l c =? UNDERFLOW) && (j =? i)).
Proof.
  intros Hl Hi Hj. unfold timer_underflow, int_pending.
  destruct (_ =? UNDERFLOW); [|by rewrite orb_false_r]. cbn [andb].
  rewrite pending_set_int by (try case_match; auto with leon2). by case_match.
Qed.

Lemma timer_decrement_get c k l j :
  leon2_wf l -> 0 <= c < 10 -> 0 <= j ->
  tget (timer_decrement c k l) j
  = if ltst (bit (tget l k) TIMER_CTRL_EN) && (j =? c) then u32 (tget l c - 1) else tget l j.
Proof.
  intros Hl Hc Hj. unfold timer_decrement. destruct (ltst _); [|done].
  by rewrite tget_tset by done.
Qed.

Lemma timer_decrement_pending c k l : leon2_irqctrl_pending (timer_decrement c k l)
  = leon2_irqctrl_pending l.
Proof. unfold timer_decrement. by case_match. Qed.

(** The state when the prescaler has underflowed and the timers have counted. *)
Definition counted (l : leon2) : leon2 :=
  timer_decrement TIMER2_COUNTER_REGISTER TIMER2_CONTROL_REGISTER
    (timer_decrement TIMER1_COUNTER_REGISTER TIMER1_CONTROL_REGISTER
      (tset (tset l PRESCALER_COUNTER_REGISTER (tget l PRESCALER_COUNTER_REGISTER - 1))
        PRESCALER_COUNTER_REGISTER (tget l PRESCALER_RELOAD_REGISTER))).

Definition underflows (l : leon2) : leon2 :=
  timer_underflow TIMER2_COUNTER_REGISTER TIMER2_RELOAD_REGISTER TIMER2_CONTROL_REGISTER TIMER2_INT
    (timer_underflow TIMER1_COUNTER_REGISTER TIMER1_RELOAD_REGISTER TIMER1_CONTROL_REGISTER
      TIMER1_INT l).

(** The watchdog register is looked at even though it does not count. *)
Definition wdog_check (l : leon2) : leon2 :=
  if tget l WATCHDOG_REGISTER =? UNDERFLOW then leon2_set_int USER_DEFINED_INT1 l else l.

(** A cycle, the watchdog being off. *)
Lemma timer_cycle_eq l :
  leon2_wf l ->
  leon2_timer_core_cycle l
  = if tget l PRESCALER_COUNTER_REGISTER =? 0 then wdog_check (underflows (counted l))
    else tset l PRESCALER_COUNTER_REGISTER (tget l PRESCALER_COUNTER_REGISTER - 1).
Proof.
  intros Hl. unfold leon2_timer_core_cycle; cbv zeta.
  rewrite !tget_tset by (try (vm_compute; intuition congruence); done).
  rewrite Z.eqb_refl. change (PRESCALER_RELOAD_REGISTER =? PRESCALER_COUNTER_REGISTER) with false.
  cbv iota. rewrite dec_underflow by auto with leon2. case_match; [|done].
  change (timer_underflow TIMER2_COUNTER_REGISTER _ _ _ _) with (underflows (counted l)).
  rewrite (wf_wdog (underflows (counted l))) by (unfold underflows, counted; auto 10 with leon2).
  done.
Qed.

Ltac reg_side := solve [done | lia | auto 10 with leon2 | vm_compute; intuition congruence].
Ltac closed_eqbs :=
  repeat match goal with
  | |- context [?a =? ?b] =>
      is_const a; is_const b; let v := eval vm_compute in (a =? b) in change (a =? b) with v
  end; rewrite ?andb_false_r, ?andb_true_r, ?orb_false_r; cbv iota.

Lemma counted_wf l : leon2_wf l -> leon2_wf (counted l).
Proof. unfold counted. auto 10 with leon2. Qed.
Lemma underflows_wf l : leon2_wf l -> leon2_wf (underflows l).
Proof. unfold underflows. auto 10 with leon2. Qed.
#[export] Hint Resolve counted_wf underflows_wf : leon2.

Lemma counted_get l j :
  leon2_wf l -> 0 <= j < 10 ->
  tget (counted l) j =
  if j =? PRESCALER_COUNTER_REGISTER then tget l PRESCALER_RELOAD_REGISTER
  else if ltst (bit (tget l TIMER2_CONTROL_REGISTER) TIMER_CTRL_EN)
          && (j =? TIMER2_COUNTER_REGISTER)
  then u32 (tget l TIMER2_COUNTER_REGISTER - 1)
  else if ltst (bit (tget l TIMER1_CONTROL_REGISTER) TIMER_CTRL_EN)
          && (j =? TIMER1_COUNTER_REGISTER)
  then u32 (tget l TIMER1_COUNTER_REGISTER - 1)
  else tget l j.
Proof.
  intros Hl Hj. unfold counted.
  rewrite !timer_decrement_get, !tget_tset by reg_side. closed_eqbs.
  rewrite (u32_id (tget l PRESCALER_RELOAD_REGISTER)) by reg_side.
  destruct (Z.eqb_spec j PRESCALER_COUNTER_REGISTER) as [->|Hne]; [by closed_eqbs | done].
Qed.

Lemma counted_pending l j : int_pending j (counted l) = int_pending j l.
Proof. unfold int_pending, counted. by rewrite !timer_decrement_pending. Qed.

Lemma underflows_get l j :
  leon2_wf l -> 0 <= j < 10 ->
  tget (underflows l) j =
  if (tget l TIMER2_COUNTER_REGISTER =? UNDERFLOW)
     && ltst (bit (tget l TIMER2_CONTROL_REGISTER) TIMER_CTRL_RL) && (j =? TIMER2_COUNTER_REGISTER)
  then tget l TIMER2_RELOAD_REGISTER
  else if (tget l TIMER1_COUNTER_REGISTER =? UNDERFLOW)
     && ltst (bit (tget l TIMER1_CONTROL_REGISTER) TIMER_CTRL_RL) && (j =? TIMER1_COUNTER_REGISTER)
  then tget l TIMER1_RELOAD_REGISTER
  else tget l j.
Proof.
  intros Hl Hj. unfold underflows. rewrite !timer_underflow_get by reg_side. closed_eqbs. done.
Qed.

Lemma underflows_pending l j :
  leon2_wf l -> 0 <= j ->
  int_pending j (underflows l)
  = int_pending j l || ((tget l TIMER1_COUNTER_REGISTER =? UNDERFLOW) && (j =? TIMER1_INT))
    || ((tget l TIMER2_COUNTER_REGISTER =? UNDERFLOW) && (j =? TIMER2_INT)).
Proof.
  intros Hl Hj. unfold underflows. rewrite !timer_underflow_pending by reg_side.
  rewrite timer_underflow_get by reg_side. closed_eqbs. done.
Qed.

Lemma wdog_check_get l j : tget (wdog_check l) j = tget l j.
Proof. unfold wdog_check. by case_match. Qed.

Lemma wdog_check_pending l j :
  leon2_wf l -> 0 <= j < 15 -> int_pending j (wdog_check l) = int_pending j l.
Proof.
  intros Hl Hj. unfold wdog_check, int_pending. case_match; [|done].
  rewrite pending_set_int by reg_side.
  rewrite (proj2 (Z.eqb_neq j USER_DEFINED_INT1)); [apply orb_false_r|].
  change USER_DEFINED_INT1 with 15. lia.
Qed.

(** One cycle, as seen by a running timer. *)
Lemma timer_tick t l :
  leon2_wf l -> running t l ->
  let l' := leon2_timer_core_cycle l in
  let z := tget l PRESCALER_COUNTER_REGISTER =? 0 in
  let u := z && (tget l (t_counter t) =? 0) in
  tget l' PRESCALER_COUNTER_REGISTER
    = (if z then tget l PRESCALER_RELOAD_REGISTER else tget l PRESCALER_COUNTER_REGISTER - 1) /\
  tget l' PRESCALER_RELOAD_REGISTER = tget l PRESCALER_RELOAD_REGISTER /\
  tget l' (t_reload t) = tget l (t_reload t) /\
  tget l' (t_control t) = tget l (t_control t) /\
  tget l' (t_counter t)
    = (if u then tget l (t_reload t) else tget l (t_counter t) - Z.b2z z) /\
  int_pending (t_int t) l' = int_pending (t_int t) l || u.
Proof.
  intros Hl [HE HR] l' z u. subst l'. rewrite timer_cycle_eq by done.
  pose proof (tget_u32 l (t_counter t) Hl) as Hc.
  pose proof (tget_u32 l PRESCALER_COUNTER_REGISTER Hl) as Hp.
  fold z. destruct z eqn:Hz; subst u; cbn [andb].
  - rewrite !wdog_check_get, wdog_check_pending by (destruct t; reg_side).
    rewrite underflows_pending by (destruct t; reg_side).
    rewrite counted_pending.
    rewrite !underflows_get by (destruct t; reg_side).
    rewrite !counted_get by (destruct t; reg_side).
    destruct t; cbn [t_counter t_reload t_control t_int] in *; closed_eqbs; rewrite HE, ?HR;
      change (ltst 1) with true; cbn [andb]; rewrite dec_underflow by done;
      rewrite andb_true_r; repeat split; rewrite u32_pred by done; by case_match.
  - assert (Hu : u32 (tget l PRESCALER_COUNTER_REGISTER - 1)
                 = tget l PRESCALER_COUNTER_REGISTER - 1).
    { rewrite u32_pred by done. by subst z; rewrite Hz. }
    rewrite !tget_tset by (destruct t; reg_side).
    unfold int_pending. rewrite pending_tset, Hu.
    destruct t; cbn [t_counter t_reload t_control t_int]; closed_eqbs;
      repeat split; cbn [Z.b2z]; lia.
Qed.

Lemma running_tick t l : leon2_wf l -> running t l -> running t (leon2_timer_core_cycle l).
Proof.
  intros Hl Hr. destruct (timer_tick t l Hl Hr) as (_ & _ & _ & Hk & _).
  unfold running in *. by rewrite Hk.
Qed.

Lemma div_mod_succ k m :
  0 <= k -> 0 < m ->
  (k + 1) mod m = (if k mod m =? m - 1 then 0 else k mod m + 1) /\
  (k + 1) / m = k / m + Z.b2z (k mod m =? m - 1).
Proof.
  intros Hk Hm. pose proof (Z.div_mod k m ltac:(lia)). pose proof (Z.mod_pos_bound k m Hm).
  destruct (Z.eqb_spec (k mod m) (m - 1)) as [E|E]; cbn [Z.b2z]; split; symmetry.
  - apply (Z.mod_unique _ _ (k / m + 1)); [lia | nia].
  - apply (Z.div_unique _ _ _ 0); [lia | nia].
  - apply (Z.mod_unique _ _ (k / m)); [lia | nia].
  - rewrite Z.add_0_r. apply (Z.div_unique _ _ _ (k mod m + 1)); [lia | nia].
Qed.

Section period.
Variables (t : timer_id) (l : leon2) (p r : Z).
Hypothesis Hwf : leon2_wf l.
Hypothesis Hrun : running t l.
Hypothesis Hpc : tget l PRESCALER_COUNTER_REGISTER = p.
Hypothesis Hpr : tget l PRESCALER_RELOAD_REGISTER = p.
Hypothesis Hc : tget l (t_counter t) = r.
Hypothesis Hr : tget l (t_reload t) = r.
Hypothesis Hpend : int_pending (t_int t) l = false.

Lemma p_range : 0 <= p.
Proof. rewrite <- Hpr. apply tget_u32, Hwf. Qed.
Lemma r_range : 0 <= r.
Proof. rewrite <- Hr. apply tget_u32, Hwf. Qed.

(** The state after [k] cycles. *)
Lemma timer_state (k : nat) :
  let l' := Nat.iter k leon2_timer_core_cycle l in
  let q := Z.of_nat k / (p + 1) in
  leon2_wf l' /\ running t l' /\
  tget l' PRESCALER_COUNTER_REGISTER = p - Z.of_nat k mod (p + 1) /\
  tget l' PRESCALER_RELOAD_REGISTER = p /\ tget l' (t_reload t) = r /\
  tget l' (t_counter t) = r - q mod (r + 1) /\
  int_pending (t_int t) l' = (r + 1 <=? q).
Proof.
  pose proof p_range. pose proof r_range.
  induction k as [|k (IHw & IHr & IHpc & IHpr & IHrl & IHc & IHp)].
  - cbn [Nat.iter nat_rect]. change (Z.of_nat 0) with 0. rewrite Z.mod_0_l, Z.div_0_l by lia.
    rewrite Z.mod_0_l by lia. rewrite Hpend. split_and!; try lia; done.
  - cbn [Nat.iter nat_rect]. rewrite Nat2Z.inj_succ, <- Z.add_1_r.
    fold (Nat.iter k leon2_timer_core_cycle l).
    destruct (timer_tick t _ IHw IHr) as (-> & -> & -> & _ & -> & ->).
    split; [by apply leon2_timer_core_cycle_wf|]. split; [by apply running_tick|].
    rewrite IHpc, IHpr, IHrl, IHc, IHp.
    destruct (div_mod_succ (Z.of_nat k) (p + 1)) as [-> ->]; try lia.
    pose proof (Z.mod_pos_bound (Z.of_nat k) (p + 1) ltac:(lia)).
    replace (p - Z.of_nat k mod (p + 1) =? 0) with (Z.of_nat k mod (p + 1) =? p + 1 - 1)
      by (apply eq_bool_prop_intro; rewrite !Is_true_true, !Z.eqb_eq; lia).
    assert (0 <= Z.of_nat k / (p + 1)) by (apply Z.div_pos; lia).
    set (q := Z.of_nat k / (p + 1)) in *. clearbody q.
    destruct (div_mod_succ q (r + 1)) as [Hqm _]; try lia.
    pose proof (Z.mod_pos_bound q (r + 1) ltac:(lia)).
    destruct (Z.eqb_spec (Z.of_nat k mod (p + 1)) (p + 1 - 1)); cbn [andb Z.b2z].
    + rewrite Hqm. destruct (Z.eqb_spec (q mod (r + 1)) (r + 1 - 1)) as [E|E].
      * rewrite (proj2 (Z.eqb_eq (r - q mod (r + 1)) 0)) by lia. split_and!; try lia.
        rewrite orb_true_r. symmetry. apply Z.leb_le.
        pose proof (Z.mod_le q (r + 1) ltac:(lia) ltac:(lia)). lia.
      * rewrite (proj2 (Z.eqb_neq (r - q mod (r + 1)) 0)) by lia. split_and!; try lia.
        rewrite orb_false_r. destruct (Z.leb_spec (r + 1) q); symmetry.
        -- apply Z.leb_le. lia.
        -- rewrite Z.mod_small in E by lia. apply Z.leb_gt. lia.
    + rewrite !Z.add_0_r, orb_false_r. split_and!; lia.
Qed.
End period.

(** C40: a LEON2 timer that is enabled and reloads itself, started with full
    counters, makes its interrupt pending after exactly
    [(prescaler reload + 1) * (timer reload + 1)] cycles and not before, and its
    counter goes through its period for ever. *)
Theorem timer_period t l p r (k : nat) :
  leon2_wf l -> running t l -> int_pending (t_int t) l = false ->
  tget l PRESCALER_COUNTER_REGISTER = p -> tget l PRESCALER_RELOAD_REGISTER = p ->
  tget l (t_counter t) = r -> tget l (t_reload t) = r ->
  let l' := Nat.iter k leon2_timer_core_cycle l in
  int_pending (t_int t) l' = ((p + 1) * (r + 1) <=? Z.of_nat k) /\
  tget l' (t_counter t) = r - (Z.of_nat k / (p + 1)) mod (r + 1).
Proof.
  intros Hw Hrun Hpend Hpc Hpr Hc Hr l'.
  destruct (timer_state t l p r Hw Hrun Hpc Hpr Hc Hr Hpend k) as (_ & _ & _ & _ & _ & HC & HP).
  split; [|exact HC]. unfold l'. rewrite HP.
  pose proof (p_range l p Hw Hpr).
  apply eq_bool_prop_intro. rewrite !Is_true_true, !Z.leb_le. split; intros HL.
  - pose proof (Z.mul_div_le (Z.of_nat k) (p + 1) ltac:(lia)). nia.
  - apply Z.div_le_lower_bound; lia.
Qed.

(** ** The map of the I/O area *)

(** The block that answers at an address. *)
Definition io_map (a : Z) : option leon2_dev :=
  if (0x80000070 <=? a) && (a <? 0x80000080) then Some Uart
  else if (0x80000040 <=? a) && (a <? 0x80000068) then Some Timer
  else if (0x80000000 <=? a) && (a <? 0x8000000C) then Some Mcfg
  else if (0x80000024 <=? a) && (a <? 0x80000028) then Some Cfg
  else if (0x80000090 <=? a) && (a <? 0x800000A0) then Some Irqctrl
  else None.

Lemma area_hit base size a :
  is_u32 a -> 0 <= base -> 0 <= size -> base + size < 4294967296 ->
  u32 (a - base) < size <-> (base <=? a) && (a <? base + size) = true.
Proof.
  unfold is_u32, u32. intros. rewrite andb_true_iff, Z.leb_le, Z.ltb_lt.
  Z.div_mod_to_equations. lia.
Qed.

Lemma find_area (d : leon2_dev) base size (l : list io_area_t) a :
  is_u32 a -> 0 <= base -> 0 <= size -> base + size < 4294967296 ->
  io_area_find ({| io_dev := d; io_address := base; bsize := size |} :: l) a
  = if (base <=? a) && (a <? base + size) then Some d else io_area_find l a.
Proof.
  intros Ha ? ? ?. unfold io_area_find at 1. rewrite filter_cons. cbn [io_address bsize].
  pose proof (area_hit base size a Ha) as Hhit.
  destruct (decide _) as [Hd|Hd].
  - cbn. by rewrite (proj1 (Hhit ltac:(done) ltac:(done) ltac:(done)) Hd).
  - destruct (_ && _); [|done]. exfalso. apply Hd, Hhit; done.
Qed.

Lemma io_area_find_map l a : leon2_wf l -> is_u32 a -> io_area_find (io_area l) a = io_map a.
Proof.
  intros Hl Ha. rewrite (wf_areas _ Hl). unfold leon2_areas, io_map.
  rewrite !find_area by (try done; vm_compute; congruence). done.
Qed.

(** A register number computed from an address inside the block. *)
Lemma reg_of_offset b base n a :
  block_wf b base n -> 0 <= base -> base <= a < base + 4 * Z.of_nat n -> is_u32 a ->
  reg_of b a = (a - base) / 4 /\ in_regs b (reg_of b a) = true.
Proof.
  intros [Hb Hn _] ? Ha Hu. unfold reg_of, in_regs. rewrite Hb, Hn.
  rewrite u32_id by (unfold is_u32 in *; lia). rewrite Z.shiftr_div_pow2 by lia.
  change (2 ^ 2) with 4. split; [done|]. apply andb_true_iff.
  rewrite Z.leb_le, Z.ltb_lt. Z.div_mod_to_equations; lia.
Qed.

(** Which block an address belongs to, and the bounds it comes with. *)
Ltac io_bounds H :=
  unfold io_map in H;
  repeat match type of H with
  | (if ?c then _ else _) = _ =>
      let E := fresh "E" in destruct c eqn:E;
      [try discriminate H; try (apply andb_true_iff in E as [?%Z.leb_le ?%Z.ltb_lt]) |]
  end; try discriminate H; simplify_eq.

Lemma io_read_Val l a :
  leon2_wf l -> is_u32 a -> exists v l', leon2_io_read_long a l = Val (v, l') /\ is_u32 v /\ leon2_wf l'.
Proof.
  intros Hl Ha. unfold leon2_io_read_long. rewrite io_area_find_map by done.
  destruct (io_map a) as [d|] eqn:E; [|exists 0, l; auto with words].
  pose proof (io_dev_read_wf d a l Hl) as Hh.
  assert (Hv : exists v l', io_dev_read d a l = Val (v, l')).
  { io_bounds E; cbn [io_dev_read].
    - unfold leon2_uart_read. destruct (reg_of_offset _ _ _ a (wf_uart _ Hl)) as [_ ->];
        [vm_compute; congruence | unfold UART1_ADDR; lia | done | eauto].
    - unfold leon2_timer_core_read. destruct (reg_of_offset _ _ _ a (wf_timer _ Hl)) as [_ ->];
        [vm_compute; congruence | unfold TIMER1_ADDR; lia | done | eauto].
    - unfold leon2_mcfg_read. destruct (reg_of_offset _ _ _ a (wf_mcfg _ Hl)) as [_ ->];
        [vm_compute; congruence | unfold MCFG_ADDR; lia | done | eauto].
    - unfold leon2_cfg_read. eauto.
    - unfold leon2_irqctrl_read. destruct (reg_of_offset _ _ _ a (wf_irqctrl _ Hl)) as [_ ->];
        [vm_compute; congruence | unfold IRQCTRL_ADDR; lia | done |]. case_match; eauto. }
  destruct Hv as (v & l' & Hv). rewrite Hv in Hh |- *. cbn in Hh. exists v, l'. tauto.
Qed.

Lemma io_write_Val l a v :
  leon2_wf l -> is_u32 a -> exists l', leon2_io_write_long a v l = Val l' /\ leon2_wf l'.
Proof.
  intros Hl Ha. unfold leon2_io_write_long. rewrite io_area_find_map by done.
  destruct (io_map a) as [d|] eqn:E; [|eauto].
  pose proof (io_dev_write_wf d a v l Hl) as Hh.
  assert (Hv : exists l', io_dev_write d a v l = Val l').
  { io_bounds E; cbn [io_dev_write].
    - unfold leon2_uart_write. destruct (reg_of_offset _ _ _ a (wf_uart _ Hl)) as [_ ->];
        [vm_compute; congruence | unfold UART1_ADDR; lia | done |]. repeat case_match; eauto.
    - unfold leon2_timer_core_write. destruct (reg_of_offset _ _ _ a (wf_timer _ Hl)) as [_ ->];
        [vm_compute; congruence | unfold TIMER1_ADDR; lia | done |].
      cbn [negb]. repeat case_match; eauto.
    - unfold leon2_mcfg_write. eauto.
    - unfold leon2_cfg_write. eauto.
    - unfold leon2_irqctrl_write. destruct (reg_of_offset _ _ _ a (wf_irqctrl _ Hl)) as [Hr ->];
        [vm_compute; congruence | unfold IRQCTRL_ADDR; lia | done |]. cbn [negb].
      assert (Hc : 0 <= reg_of (leon2_irqctrl l) a < 4).
      { rewrite Hr. change IRQCTRL_ADDR with 2147483792. Z.div_mod_to_equations; lia. }
      clear Hr Hh. set (r := reg_of _ a) in *. clearbody r.
      enum_Z r 0 4; cbn; eauto. }
  destruct Hv as (l' & Hv). rewrite Hv in Hh |- *. eauto.
Qed.

(** every word access to the LEON2 I/O area is in bounds: a read at any
    address gives a 32-bit value and a write succeeds, both keep the register
    blocks well formed, and where [io_map] has no block a read gives 0 and neither
    changes anything. *)
Theorem leon2_io_total l a v :
  leon2_wf l -> is_u32 a ->
  (exists x l', leon2_io_read_long a l = Val (x, l') /\ is_u32 x /\ leon2_wf l') /\
  (exists l', leon2_io_write_long a v l = Val l' /\ leon2_wf l') /\
  (io_map a = None -> leon2_io_read_long a l = Val (0, l) /\ leon2_io_write_long a v l = Val l).
Proof.
  intros Hl Ha. split_and!; [by apply io_read_Val | by apply io_write_Val |].
  intros Hm. unfold leon2_io_read_long, leon2_io_write_long.
  by rewrite io_area_find_map, Hm by done.
Qed.

(** ** The UART *)

(** A program that writes a character to the data register and lets a cycle
    pass, for each of a list of characters. *)
Fixpoint uart_send (cs : list Z) (l : leon2) : result leon2 :=
  match cs with
  | [] => Val l
  | c :: cs =>
      let! l := leon2_io_write_long UART1_ADDR c l in
      uart_send cs (leon2_uart_cycle l)
  end.

Definition uart_ready (l : leon2) : Prop :=
  Z.testbit (uget l UART_STATUS_REGISTER) transmitter_hold_register_empty = true.
Definition uart_enabled (l : leon2) : Prop :=
  Z.testbit (uget l UART_CONTROL_REGISTER) transmitter_enable = true.

Lemma ltst_bit x n : 0 <= n -> ltst (bit x n) = Z.testbit x n.
Proof. intros. unfold ltst. rewrite bit_testbit by done. by destruct (Z.testbit x n). Qed.

Lemma io_write_data c l :
  leon2_wf l -> leon2_io_write_long UART1_ADDR c l = leon2_uart_write UART1_ADDR c l.
Proof.
  intros Hl. unfold leon2_io_write_long.
  by rewrite io_area_find_map by (done || (unfold is_u32; vm_compute; intuition congruence)).
Qed.

Lemma reg_of_data l : leon2_wf l -> reg_of (leon2_uart l) UART1_ADDR = UART_DATA_REGISTER.
Proof. intros Hl. unfold reg_of. by rewrite (block_address _ _ _ (wf_uart _ Hl)). Qed.

Lemma uart_idle l : uart_ready l -> leon2_uart_cycle l = l.
Proof.
  unfold uart_ready, leon2_uart_cycle. intros Hr. case_match; [|done].
  by rewrite (ltst_bit _ transmitter_hold_register_empty), Hr by done.
Qed.

(** One character: what the write and the cycle after it do. *)
Lemma uart_send_1 c l :
  leon2_wf l -> uart_enabled l ->
  exists l1, leon2_io_write_long UART1_ADDR c l = Val l1 /\
    let l2 := leon2_uart_cycle l1 in
    leon2_wf l2 /\ uart_enabled l2 /\ uart_ready l2 /\ uart_out l2 = uart_out l ++ [u8 c].
Proof.
  intros Hl He. rewrite io_write_data by done. unfold leon2_uart_write.
  rewrite reg_of_data, Z.eqb_refl by done. eexists; split; [reflexivity|].
  set (l0 := uset l UART_DATA_REGISTER c). assert (Hl0 : leon2_wf l0) by (by apply uset_wf).
  set (l1 := uset l0 _ _). assert (Hl1 : leon2_wf l1) by (by apply uset_wf).
  cbv zeta. split; [by apply leon2_uart_cycle_wf|].
  assert (Hd : uget l1 UART_DATA_REGISTER = u32 c).
  { unfold l1, l0. rewrite !uget_uset by reg_side. closed_eqbs. done. }
  assert (Hs : Z.testbit (uget l1 UART_STATUS_REGISTER) transmitter_hold_register_empty = false).
  { unfold l1. rewrite uget_uset, Z.eqb_refl, testbit_u32, testbit_clear_bit by reg_side.
    by rewrite Z.eqb_refl, andb_false_r. }
  assert (Hk : uget l1 UART_CONTROL_REGISTER = uget l UART_CONTROL_REGISTER).
  { unfold l1, l0. rewrite !uget_uset by reg_side. closed_eqbs. done. }
  assert (Ho : uart_out l1 = uart_out l) by done. clearbody l1. clear l0 Hl0.
  unfold leon2_uart_cycle, uart_enabled, uart_ready in *. rewrite !ltst_bit by done.
  rewrite Hk, He, Hs. cbn [negb].
  pose proof (set_uart_out_wf _ (uart_out l1 ++ [u8 (uget l1 UART_DATA_REGISTER)]) Hl1) as Hl2.
  rewrite Hd in *. set (l2 := set_uart_out l1 _) in *.
  assert (Hk2 : uget l2 UART_CONTROL_REGISTER = uget l UART_CONTROL_REGISTER) by done.
  assert (Ho2 : uart_out l2 = uart_out l ++ [u8 c]).
  { unfold l2; cbn. rewrite Ho. do 2 f_equal. unfold u8, u32. Z.div_mod_to_equations; lia. }
  clearbody l2. split_and!.
  - rewrite !uget_uset by reg_side. closed_eqbs. by rewrite Hk2.
  - rewrite !uget_uset by reg_side. rewrite !Z.eqb_refl, testbit_u32, testbit_set_bit by done.
    closed_eqbs. rewrite testbit_u32, testbit_set_bit by done. rewrite Z.eqb_refl. by rewrite !orb_true_r.
  - done.
Qed.

Lemma uart_send_out cs l :
  leon2_wf l -> uart_enabled l -> uart_ready l ->
  exists l', uart_send cs l = Val l' /\ uart_out l' = uart_out l ++ map u8 cs /\
    leon2_wf l' /\ uart_enabled l' /\ uart_ready l'.
Proof.
  revert l. induction cs as [|c cs IH]; intros l Hl He Hr; cbn [uart_send map].
  - exists l. by rewrite app_nil_r.
  - destruct (uart_send_1 c l Hl He) as (l1 & -> & Hl2 & He2 & Hr2 & Ho2). cbn [rbind].
    destruct (IH _ Hl2 He2 Hr2) as (l' & -> & Ho & ?). exists l'. split; [done|].
    by rewrite Ho, Ho2, <- app_assoc.
Qed.

(** a program that writes characters to the UART's data register through the
    I/O area, one a cycle, sends exactly their low bytes in order; after it the
    transmitter is ready again and further cycles send nothing more. *)
Theorem uart_transmits cs l :
  leon2_wf l -> uart_enabled l -> uart_ready l ->
  exists l', uart_send cs l = Val l' /\ uart_out l' = uart_out l ++ map u8 cs /\
    uart_ready l' /\ forall n, Nat.iter n leon2_uart_cycle l' = l'.
Proof.
  intros Hl He Hr. destruct (uart_send_out cs l Hl He Hr) as (l' & Hs & Ho & _ & _ & Hr').
  exists l'. split_and!; try done. induction n as [|n IH]; [done|].
  rewrite Nat.iter_succ, IH. by apply uart_idle.
Qed.

(** ** Interrupts *)

Lemma testbit_fffe i : Z.testbit 0xfffe i = (1 <=? i) && (i <? 16).
Proof.
  destruct (Z.lt_ge_cases i 0); [by rewrite Z.testbit_neg_r; [destruct i|]|].
  destruct (Z.lt_ge_cases i 16).
  - enum_Z i 0 16; done.
  - rewrite Z.bits_above_log2 by (try done; change (Z.log2 0xfffe) with 15; lia).
    rewrite (proj2 (Z.ltb_ge i 16)) by done. by rewrite andb_false_r.
Qed.

Lemma land_nonzero a b :
  0 <= a -> Z.land a b <> 0 <-> exists i, 0 <= i /\ Z.testbit a i = true /\ Z.testbit b i = true.
Proof.
  intros Ha. split.
  - intros Hne. assert (0 <= Z.land a b) by (apply Z.land_nonneg; auto).
    pose proof (Z.bit_log2 (Z.land a b) ltac:(lia)) as Hb.
    rewrite Z.land_spec in Hb. apply andb_true_iff in Hb as [? ?].
    eexists; split_and!; [apply Z.log2_nonneg | done | done].
  - intros (i & Hi & Hai & Hbi) H0. apply (f_equal (fun z => Z.testbit z i)) in H0.
    rewrite Z.land_spec, Hai, Hbi, Z.testbit_0_l in H0. done.
Qed.

(** An interrupt the controller holds pending and the mask register lets through. *)
Definition irq_unmasked (i : Z) (l : leon2) : Prop :=
  1 <= i <= 15 /\ int_pending i l = true /\
  Z.testbit (rget (leon2_irqctrl l) IRQCTRL_MASK_AND_PRIORITY_REGISTER) i = true.

Lemma handle_irq_spec l :
  leon2_wf l ->
  (handle_irq l = Sigint <-> exists i, irq_unmasked i l) /\
  (handle_irq l = Val l <-> forall i, ~ irq_unmasked i l).
Proof.
  intros Hl.
  assert (HI : Z.land (leon2_irqctrl_pending l) (leon2_irqctrl_mask l) <> 0
               <-> exists i, irq_unmasked i l).
  { rewrite land_nonzero by (eapply rget_u32, Hl). unfold irq_unmasked, int_pending.
    split; intros (i & H); exists i; unfold leon2_irqctrl_mask in *;
      rewrite Z.land_spec, testbit_fffe in *.
    - destruct H as (? & ? & H). rewrite !andb_true_iff, Z.leb_le, Z.ltb_lt in H.
      split_and!; (tauto || lia).
    - destruct H as (? & ? & ->). rewrite (proj2 (Z.leb_le 1 i)), (proj2 (Z.ltb_lt i 16)) by lia.
      split_and!; (done || lia). }
  unfold handle_irq. destruct (Z.eqb_spec (Z.land (leon2_irqctrl_pending l) (leon2_irqctrl_mask l)) 0)
    as [E|E]; split; split; try done.
  - intros Hx. by apply HI in Hx.
  - intros _ i Hi. apply (proj2 HI); eauto.
  - intros _. by apply HI.
  - intros Hn. apply HI in E as [i Hi]. by destruct (Hn i).
Qed.

(** a cycle of the machine runs the UART and the timers and then ends the
    simulation exactly when one of the interrupts 1 to 15 is both pending and
    enabled in the mask register; interrupt 0 is never delivered, and a masked
    interrupt stays pending while the cycle goes on. *)
Theorem irq_delivery l :
  leon2_wf l ->
  let l' := leon2_timer_core_cycle (leon2_uart_cycle l) in
  (leon2_io_do_cycle l = Sigint <-> exists i, irq_unmasked i l') /\
  (leon2_io_do_cycle l = Val l' <-> forall i, ~ irq_unmasked i l').
Proof. intros Hl. by apply handle_irq_spec, leon2_timer_core_cycle_wf, leon2_uart_cycle_wf. Qed.

(** A write to the clear register leaves the pending interrupts as they were
    (and the register itself reads back as 0). *)
Theorem irqctrl_clear_keeps_pending l v :
  leon2_wf l -> exists l', leon2_io_write_long (IRQCTRL_ADDR + 0xc) v l = Val l' /\
    leon2_irqctrl_pending l' = leon2_irqctrl_pending l /\
    rget (leon2_irqctrl l') IRQCTRL_CLEAR_REGISTER = 0.
Proof.
  intros Hl. unfold leon2_io_write_long.
  rewrite io_area_find_map by (done || (unfold is_u32; vm_compute; intuition congruence)).
  change (io_map (IRQCTRL_ADDR + 0xc)) with (Some Irqctrl). cbn [io_dev_write].
  unfold leon2_irqctrl_write, reg_of, in_regs.
  rewrite (block_address _ _ _ (wf_irqctrl _ Hl)), (block_length _ _ _ (wf_irqctrl _ Hl)).
  set (reg := Z.shiftr _ 2). vm_compute in reg. subst reg. cbn [negb andb].
  eexists; split; [reflexivity|].
  unfold leon2_irqctrl_pending; cbn [leon2_irqctrl set_irqctrl].
  pose proof (wf_irqctrl _ Hl) as Hb.
  pose proof (rset_wf _ _ _ 3 v Hb) as Hb1.
  split.
  - erewrite !rget_rset by (eauto; vm_compute; intuition congruence). done.
  - change IRQCTRL_CLEAR_REGISTER with 3.
    erewrite !rget_rset by (eauto; lia). rewrite !Z.eqb_refl.
    apply Z.bits_inj'. intros i Hi. rewrite Z.testbit_0_l, testbit_u32, Z.land_spec, testbit_u32,
      Z.lnot_spec by done.
    by destruct (Z.testbit v i), (i <? 32).
Qed.
