(* ===== verification/SystemProps.v ===== *)
(** * Properties of the whole machine

    The run of the processor on any lawful bus, the decoder against the
    reference table and the encoding, and programs run on the LEON2 board: the
    fetch from RAM, the decoder, the instructions, the bus and the peripherals
    together. *)

From Stdlib Require Import ZArith Lia Bool.
From stdpp Require Import base numbers option list.
From S2P Require Import Prelude Words SparcState Windows Bus Isa Traps SparcAlu SparcCtl SparcMem.
From S2P Require Import SparcIU SparcDecode AluProps Memory MemProps LoadStoreProps Leon2.
From S2P Require Import Leon2Props.

(** ** Any number of steps *)

Section run.
  Context {B : Type} `{BusLaws B} `{MachIO B} `{!MachIOLaws B}.

(** C1: from a well-formed machine (32-bit registers, a current window below
    NWINDOWS whose registers are where the window pointer points, a bus in its
    invariant), every run of the simulator, of any program and any length, ends in
    a well-formed machine or has ended the simulation. *)
Theorem sparc_run_wf n (m : machine B) : machine_wf m -> holds machine_wf (sparc_run n m).
Proof.
  revert m. induction n as [|n IH]; intros m Hm; cbn [sparc_run]; [done|].
  eapply holds_bind; [by apply sparc_step_once_wf | auto].
Qed.

Lemma REG_G0 s : REG s G0 = nthZ (global s) 0.
Proof. done. Qed.

Lemma trigger_G0 s : state_wf s -> holds (fun s' => REG s' G0 = 0) (trigger s).
Proof.
  intros Hs. rewrite trigger_eq. case_match; [|done]. cbv zeta. unfold holds.
  rewrite REG_G0. unfold set_NPCREG, set_PCREG, set_REG; cbn.
  unfold iu_sub_cwp. cbn [snd]. rewrite global_iu_set_cwp. unfold set_REG; cbn.
  pose proof (wf_global_len _ (wf_trap_psr s Hs)) as Hl. rewrite nthZ_updZ; [done | | done].
  cbn in Hl. lia.
Qed.

Lemma iu_cycle_step_G0 (m : machine B) :
  machine_wf m -> holds (fun '(c, m') => REG (cpu m') G0 = 0) (iu_cycle_step m).
Proof.
  intros Hm. pose proof (iu_cycle_step_wf m Hm) as Hw. revert Hw. unfold iu_cycle_step.
  destruct (bus_read 32 _ _) as [[[st v] b]| | |]; try done. cbn [rbind].
  destruct v as [instr|]; [|done]. destruct (iu_get_instr _ _) as [[pi o]|]; [|done].
  destruct (execute pi o _) as [[c m1]| | |]; try done. cbn [rbind holds].
  set (m2 := if _ >? 0 then _ else _). clearbody m2. intros [Hs%wf_global_len _].
  cbn [cpu upd_cpu set_cpu] in *. rewrite REG_G0. generalize dependent (cpu m2). intros s Hs.
  change (set_REG s G0 0) with (set_global s (updZ (global s) 0 (u32 0))) in *.
  cbn [global set_global] in *. rewrite length_updZ in Hs. by rewrite nthZ_updZ by lia.
Qed.

(** after every step register %g0 reads 0, whatever the instruction wrote to
    it, and no trap is left pending: a trap an instruction raised has been
    entered in the same step. *)
Theorem step_g0_no_trap (m : machine B) :
  machine_wf m ->
  holds (fun m' => REG (cpu m') G0 = 0 /\ irq_pending (cpu m') = 0) (sparc_step_once m).
Proof.
  intros Hm. unfold sparc_step_once.
  pose proof (iu_cycle_step_G0 m Hm) as Hg. pose proof (iu_cycle_step_wf m Hm) as Hw.
  destruct (iu_cycle_step m) as [[c m1]| | |]; try done. cbn [holds rbind] in *.
  eapply (holds_bind (fun m2 => REG (cpu m2) G0 = 0 /\ irq_pending (cpu m2) = 0)).
  - unfold iu_trap_cycle, tst. destruct (Z.eqb_spec (irq_pending (cpu m1)) 0); [done|].
    cbn [negb]. by eapply holds_bind; [apply trigger_G0, Hw|].
  - intros m2 Hm2. by destruct (mach_io_do_cycle (bus m2)).
Qed.
End run.

(** ** Decoding *)

Section decode.
  Context {B : Type} `{Bus B}.


(** The instructions whose fields are rd, rs1 and a register or a 13-bit
    immediate: op, op3 and descriptor. *)
Definition f3_table (o : f3) : list (Z * Z * decoded B) :=
  [(2, 0, existT i_add o); (2, 1, existT i_and o); (2, 2, existT i_or o); (2, 3, existT i_xor o);
   (2, 4, existT i_sub o); (2, 5, existT i_andn o); (2, 6, existT i_orn o);
   (2, 7, existT i_xnor o); (2, 8, existT i_addx o); (2, 10, existT i_umul o);
   (2, 11, existT i_smul o); (2, 12, existT i_subx o); (2, 14, existT i_udiv o);
   (2, 16, existT i_addcc o); (2, 17, existT i_andcc o); (2, 18, existT i_orcc o);
   (2, 20, existT i_subcc o); (2, 21, existT i_andncc o); (2, 28, existT i_subxcc o);
   (2, 40, existT i_rdy o); (2, 48, existT i_wry o); (2, 49, existT i_wrpsr o);
   (2, 50, existT i_wrwim o); (2, 51, existT i_wrtbr o); (2, 56, existT i_jmpl o);
   (2, 57, existT i_rett o); (2, 59, existT i_flush o); (2, 60, existT i_save o);
   (2, 61, existT i_restore o); (3, 0, existT i_ld o); (3, 1, existT i_ldub o);
   (3, 2, existT i_lduh o); (3, 3, existT i_ldd o); (3, 4, existT i_st o); (3, 5, existT i_stb o);
   (3, 6, existT i_sth o); (3, 7, existT i_std o); (3, 9, existT i_ldsb o);
   (3, 10, existT i_ldsh o); (3, 32, existT i_ldf o); (3, 35, existT i_lddf o);
   (3, 36, existT i_stf o); (3, 37, existT i_stfsr o); (3, 39, existT i_stdf o)].

(** The table on an encoded word: its fields are the operands. *)
Lemma decode_ref_encoded op op3 o :
  0 <= op < 4 -> 0 <= op3 < 64 -> f3_wf o ->
  let w := encode_f3 op op3 o in
  bits w 31 30 = op /\ bits w 24 19 = op3 /\ decode_f3 4 w = o /\ decode_f3 8 w = o.
Proof. intros Hop Hop3 Ho. by destruct (encode_fields op op3 o Hop Hop3 Ho) as (_ & ?). Qed.

Lemma decode_encode_f3 o :
  f3_wf o ->
  Forall (fun '(op, op3, d) => iu_get_instr iu_i_set (encode_f3 op op3 o) = Some d) (f3_table o).
Proof.
  intros Ho. unfold f3_table.
  repeat (apply Forall_cons_2; [
    match goal with |- iu_get_instr _ (encode_f3 ?op ?op3 o) = _ =>
      destruct (decode_ref_encoded op op3 o ltac:(lia) ltac:(lia) Ho) as (H1 & H2 & H3 & H4)
    end;
    rewrite get_instr_ref; unfold decode_ref, decode_ref2, decode_ref3;
    rewrite H1, H2, ?H3, ?H4; reflexivity |]).
  apply Forall_nil_2.
Qed.

(** encoding and decoding: the word assembled from the opcodes and the fields
    of a format 3 instruction decodes to that instruction with those fields, for
    a register operand and for any 13-bit immediate. *)
Theorem encode_decode_roundtrip o :
  f3_wf o ->
  Forall (fun '(op, op3, d) => iu_get_instr iu_i_set (encode_f3 op op3 o) = Some d) (f3_table o).
Proof. apply decode_encode_f3. Qed.
End decode.
