(* ===== verification/BoardProps.v ===== *)
(** * Programs on a LEON2 board

    A board with one RAM bank at 0 and the peripherals at 0x80000000, the fetch
    of an instruction from it, and a program that prints a text: the decoder, the
    instructions, the bus, the bank look-up, the UART and the interrupt check
    run together. *)

From Stdlib Require Import ZArith Lia Bool.
From stdpp Require Import base numbers option list.
From S2P Require Import Prelude Words SparcState Windows Bus Isa Traps SparcAlu SparcCtl SparcMem.
From S2P Require Import SparcIU SparcDecode AluProps Memory MemProps LoadStoreProps Leon2.
From S2P Require Import Leon2Props.

(** ** The board *)

Definition ram_at_0 (len : Z) : mem_bank :=
  {| bank_addr := 0; bank_len := len; bank_write_op := Some mem_write_fn;
     bank_read_op := Some mem_read_fn; has_filename := false; bank_type := MEMTYPE_RAM |}.
Definition io_at_2G : mem_bank :=
  {| bank_addr := 0x80000000; bank_len := 0x10000000; bank_write_op := Some io_write_fn;
     bank_read_op := Some io_read_fn; has_filename := false; bank_type := MEMTYPE_IO |}.
Definition no_bank : mem_bank :=
  {| bank_addr := 0; bank_len := 0; bank_write_op := None; bank_read_op := None;
     has_filename := false; bank_type := 0 |}.

(** The memory system with the words [prog] in RAM, the peripherals [l] and the
    look-up cache [c]. *)
Definition board (prog : list Z) (l : leon2) (c : option nat) : memsys leon2 :=
  {| memmap := {| current_num := 2;
                  mem_banks := [ram_at_0 (4 * Z.of_nat (length prog)); io_at_2G; no_bank];
                  mbp := c; insn_mbp := None |};
     rom := [Some prog; None]; big_endian := 1; host_lp64 := true; mach := l |}.

Definition ram_size_ok (prog : list Z) : Prop := 0 < 4 * Z.of_nat (length prog) <= 0x80000000.
Definition cache_2 (c : option nat) : Prop := c = None \/ c = Some 0%nat \/ c = Some 1%nat.

Definition board_config (prog : list Z) (c : option nat) : mem_config :=
  {| current_num := 2; mem_banks := [ram_at_0 (4 * Z.of_nat (length prog)); io_at_2G; no_bank];
     mbp := c; insn_mbp := None |}.

Lemma ram_hit prog a :
  ram_size_ok prog -> is_u32 a ->
  bank_hit (ram_at_0 (4 * Z.of_nat (length prog))) a = (a <? 4 * Z.of_nat (length prog)).
Proof.
  intros Hp Ha. unfold bank_hit, is_u32 in *; cbn [bank_addr bank_len ram_at_0].
  rewrite Z.sub_0_r, u32_id by done. rewrite (proj2 (Z.leb_le 0 a)) by lia. done.
Qed.

Lemma io_hit a : is_u32 a -> bank_hit io_at_2G a = (0x80000000 <=? a) && (a <? 0x90000000).
Proof.
  intros Ha. unfold bank_hit, is_u32 in *; cbn [bank_addr bank_len io_at_2G].
  destruct (Z.leb_spec 0x80000000 a); cbn [andb]; [|done].
  rewrite u32_id by (unfold is_u32; lia).
  destruct (Z.ltb_spec (a - 0x80000000) 0x10000000), (Z.ltb_spec a 0x90000000); (done || lia).
Qed.

(** The look-up on the board, whatever is cached. *)
Lemma board_ptr prog c a :
  ram_size_ok prog -> cache_2 c -> is_u32 a ->
  a < 4 * Z.of_nat (length prog) \/ 0x80000000 <= a < 0x90000000 ->
  let i := if a <? 4 * Z.of_nat (length prog) then 0%nat else 1%nat in
  bank_ptr a (board_config prog c) = Val (Some i, board_config prog (Some i)).
Proof.
  intros Hp Hc Ha Hr. pose proof (ram_hit prog a Hp Ha) as H0. pose proof (io_hit a Ha) as H1.
  unfold ram_size_ok in Hp. unfold bank_ptr, bank_lookup.
  cbn [board_config mem_banks mbp bank_search].
  change (bank_len (ram_at_0 _)) with (4 * Z.of_nat (length prog)).
  change (bank_len io_at_2G) with 0x10000000.
  rewrite (proj2 (Z.eqb_neq (4 * Z.of_nat (length prog)) 0)) by lia. cbn [Z.eqb].
  assert (E : (0x80000000 <=? a) && (a <? 0x90000000) = negb (a <? 4 * Z.of_nat (length prog))).
  { destruct (Z.leb_spec 0x80000000 a), (Z.ltb_spec a 0x90000000),
      (Z.ltb_spec a (4 * Z.of_nat (length prog))); (done || lia). }
  rewrite E in H1.
  destruct Hc as [-> | [-> | ->]]; cbn [lookup list_lookup]; rewrite ?H0, ?H1;
    destruct (a <? _); reflexivity.
Qed.

Section access.
Context (prog : list Z) (l : leon2) (c : option nat).
Hypothesis Hp : ram_size_ok prog.
Hypothesis Hc : cache_2 c.

(** A word of the program. *)
Lemma board_fetch j :
  0 <= j < Z.of_nat (length prog) -> Forall is_u32 prog ->
  mem_bus_read 32 (4 * j) (board prog l c) = Val (0, Some (nthZ prog j), board prog l (Some 0%nat)).
Proof.
  intros Hj Hu. unfold ram_size_ok in Hp.
  assert (Ha : is_u32 (4 * j)) by (unfold is_u32; lia).
  assert (Hr : 4 * j < 4 * Z.of_nat (length prog) \/ 0x80000000 <= 4 * j < 0x90000000) by lia.
  pose proof (board_ptr prog c (4 * j) Hp Hc Ha Hr) as H1.
  pose proof (board_ptr prog (Some 0%nat) (4 * j) Hp ltac:(right; by left) Ha Hr) as H2.
  cbv zeta in H1, H2. rewrite (proj2 (Z.ltb_lt _ _)) in H1, H2 by lia.
  unfold mem_bus_read. rewrite u32_id by done.
  change (memmap (board prog l c)) with (board_config prog c). rewrite H1. cbn [rbind].
  cbn [board_config mem_banks lookup list_lookup bank_read_op ram_at_0 run_reader].
  unfold mem_read; cbn [Z.eqb Pos.eqb]. unfold mem_read_word, mem_bank_ptr.
  change (memmap (set_memmap _ _)) with (board_config prog (Some 0%nat)). rewrite H2. cbn [rbind].
  cbn [board_config mem_banks lookup list_lookup rbind].
  unfold rom_get, word_index. cbn [rom set_memmap board lookup list_lookup bank_addr ram_at_0].
  rewrite Z.sub_0_r, u32_id, Z.shiftr_div_pow2 by (done || lia). change (2 ^ 2) with 4.
  rewrite Z.mul_comm, Z.div_mul by lia.
  rewrite (proj2 (Z.leb_le _ _)), (proj2 (Z.ltb_lt _ _)) by lia. reflexivity.
Qed.

(** A word written to the peripherals. *)
Lemma board_io_write a v :
  0x80000000 <= a < 0x90000000 ->
  mem_bus_write 32 a v (board prog l c)
  = let! l' := leon2_io_write_long a v l in Val (0, board prog l' (Some 1%nat)).
Proof.
  intros Hr. unfold ram_size_ok in Hp. assert (Ha : is_u32 a) by (unfold is_u32; lia).
  pose proof (board_ptr prog c a Hp Hc Ha (or_intror Hr)) as H1.
  cbv zeta in H1. rewrite (proj2 (Z.ltb_ge _ _)) in H1 by lia.
  unfold mem_bus_write. rewrite u32_id by done.
  change (memmap (board prog l c)) with (board_config prog c). rewrite H1. cbn [rbind].
  cbn [board_config mem_banks lookup list_lookup bank_write_op io_at_2G run_writer].
  unfold io_write, io_write_word. cbn [Z.eqb Pos.eqb devices leon2_mach_init dev_write rbind].
  cbn [mach_io_write_word leon2_mach_init mach set_memmap board].
  by destruct (leon2_io_write_long a v l).
Qed.
End access.

(** ** The peripherals during a step *)

(** The timers do not touch the UART, its output or the interrupt mask. *)
Definition untouched (l l' : leon2) : Prop :=
  leon2_uart l' = leon2_uart l /\ uart_out l' = uart_out l /\
  leon2_irqctrl_mask l' = leon2_irqctrl_mask l.

#[export] Instance untouched_preorder : PreOrder untouched.
Proof.
  split; [by intros l | intros l1 l2 l3 (H1 & H2 & H3) (H4 & H5 & H6)].
  unfold untouched. by rewrite H4, H5, H6.
Qed.

Lemma untouched_tset l r v : untouched l (tset l r v).
Proof. done. Qed.

Lemma untouched_set_int l i : untouched l (leon2_set_int i l).
Proof.
  split; [done|]. split; [done|].
  unfold leon2_irqctrl_mask, leon2_set_int, leon2_irqctrl_set_pending; cbn.
  f_equal. unfold rget, rset; cbn. unfold nthZ, updZ; cbn. by destruct (regs _).
Qed.

Lemma untouched_decrement c k l : untouched l (timer_decrement c k l).
Proof. unfold timer_decrement. by case_match. Qed.

Lemma untouched_underflow c r k i l : untouched l (timer_underflow c r k i l).
Proof.
  unfold timer_underflow. case_match; [|done].
  etransitivity; [|apply untouched_set_int]. by case_match.
Qed.

Lemma untouched_if (b : bool) l x y : untouched l x -> untouched l y -> untouched l (if b then x else y).
Proof. by destruct b. Qed.

Lemma timer_cycle_untouched l : untouched l (leon2_timer_core_cycle l).
Proof.
  unfold leon2_timer_core_cycle; cbv zeta.
  repeat first
    [ done | apply untouched_if
    | etransitivity; [|apply untouched_set_int] | etransitivity; [|apply untouched_underflow]
    | etransitivity; [|apply untouched_decrement] | etransitivity; [|apply untouched_tset] ].
Qed.

(** A machine whose interrupts are all masked and whose UART is on. *)
Record quiet (l : leon2) : Prop := {
  quiet_wf : leon2_wf l;
  quiet_enabled : uart_enabled l;
  quiet_mask : leon2_irqctrl_mask l = 0
}.

Lemma mask_uart_cycle l : leon2_irqctrl_mask (leon2_uart_cycle l) = leon2_irqctrl_mask l.
Proof. unfold leon2_uart_cycle. by repeat case_match. Qed.

Lemma io_cycle_quiet l :
  leon2_wf (leon2_uart_cycle l) -> uart_enabled (leon2_uart_cycle l) -> leon2_irqctrl_mask l = 0 ->
  exists l', leon2_io_do_cycle l = Val l' /\ quiet l' /\
    leon2_uart l' = leon2_uart (leon2_uart_cycle l) /\ uart_out l' = uart_out (leon2_uart_cycle l).
Proof.
  intros Hwf He Hm. unfold leon2_io_do_cycle, handle_irq; cbv zeta.
  destruct (timer_cycle_untouched (leon2_uart_cycle l)) as (Hu & Ho & Hmask).
  rewrite Hmask, mask_uart_cycle, Hm, Z.land_0_r. cbn [Z.eqb].
  eexists; split; [reflexivity|]. split; [|done].
  split; [by apply leon2_timer_core_cycle_wf | | by rewrite Hmask, mask_uart_cycle].
  unfold uart_enabled, uget. by rewrite Hu.
Qed.

(** ** One step of the machine *)

Lemma step_once_Val (m m1 : machine (memsys leon2)) w pi o s' prog l1 c1 l2 :
  mem_bus_read 32 (PCREG (cpu m)) (bus m) = Val (0, Some w, bus m1) -> cpu m1 = cpu m ->
  iu_get_instr iu_i_set w = Some (existT pi o) ->
  execute pi o m1 = Val (1, Machine s' (board prog l1 c1)) ->
  irq_pending s' = 0 -> leon2_io_do_cycle l1 = Val l2 ->
  sparc_step_once m
  = Val (Machine (set_REG (set_cycle_counter s' (u64 (cycle_counter s' + 1))) G0 0)
           (board prog l2 c1)).
Proof.
  intros Hf Hc Hd He Hirq Hio. unfold sparc_step_once, iu_cycle_step. cbn [bus_read memsys_bus].
  unfold iu_get_pc. rewrite Hf. cbn [rbind]. rewrite Hd.
  replace (set_bus m (bus m1)) with m1 by (destruct m1; unfold set_bus; cbn in *; by rewrite Hc).
  rewrite He. cbn [rbind Z.gtb Z.compare].
  unfold iu_trap_cycle. cbn [cpu upd_cpu set_cpu]. rewrite irq_pending_set_REG. cbn [irq_pending set_cycle_counter].
  rewrite Hirq. cbn [tst Z.eqb negb rbind mach_io_do_cycle leon2_mach_cycle bus set_cpu upd_cpu mach board].
  rewrite Hio. reflexivity.
Qed.

(** ** A program that prints *)

Definition or_imm (c : Z) : f3 := {| rd := 2; rs1 := 0; rs2 := -1; imm := c |}.
Definition st_uart : f3 := {| rd := 2; rs1 := 1; rs2 := -1; imm := 0x70 |}.

(** [sethi %hi(0x80000000), %g1], then for each character
    [or %g0, c, %g2; st %g2, [%g1 + 0x70]]. *)
Definition print_char (c : Z) : list Z :=
  [encode_f3 2 2 (or_imm c); encode_f3 3 4 st_uart].
Definition print_program (cs : list Z) : list Z := 0x03200000 :: concat (map print_char cs).

Lemma or_imm_wf c : 0 <= c < 256 -> f3_wf (or_imm c).
Proof. unfold f3_wf, or_imm; cbn. lia. Qed.
Lemma st_uart_wf : f3_wf st_uart.
Proof. unfold f3_wf, st_uart; cbn. lia. Qed.

Lemma decode_or c :
  0 <= c < 256 ->
  iu_get_instr (B := memsys leon2) iu_i_set (encode_f3 2 2 (or_imm c)) = Some (existT i_or (or_imm c)).
Proof.
  intros Hc. destruct (encode_fields 2 2 (or_imm c)) as (_ & H1 & H2 & H3 & _);
    [lia | lia | by apply or_imm_wf |].
  rewrite get_instr_ref. unfold decode_ref, decode_ref2. by rewrite H1, H2, H3.
Qed.

Lemma decode_st :
  iu_get_instr (B := memsys leon2) iu_i_set (encode_f3 3 4 st_uart) = Some (existT i_st st_uart).
Proof. rewrite get_instr_ref. reflexivity. Qed.

Lemma decode_sethi :
  iu_get_instr (B := memsys leon2) iu_i_set 0x03200000
  = Some (existT i_sethi {| sethi_rd := 1; imm22 := 0x200000 |}).
Proof. rewrite get_instr_ref. reflexivity. Qed.

Lemma print_program_length cs :
  Z.of_nat (length (print_program cs)) = 1 + 2 * Z.of_nat (length cs).
Proof.
  unfold print_program. cbn [length]. induction cs as [|c cs IH]; [done|].
  cbn [map concat print_char app length] in *. lia.
Qed.

Lemma print_program_u32 cs :
  Forall (fun c => 0 <= c < 256) cs -> Forall is_u32 (print_program cs).
Proof.
  intros Hcs. unfold print_program. apply Forall_cons_2; [unfold is_u32; lia|].
  induction Hcs as [|c cs Hc _ IH]; [apply Forall_nil_2|].
  cbn [map concat print_char app].
  apply Forall_cons_2; [apply (encode_fields 2 2 (or_imm c)); [lia | lia | by apply or_imm_wf]|].
  apply Forall_cons_2; [apply (encode_fields 3 4 st_uart); [lia | lia | apply st_uart_wf]|].
  exact IH.
Qed.

(** The words of the character at position [k]. *)
Lemma nthZ_cons a l i : 0 <= i -> nthZ (a :: l) (1 + i) = nthZ l i.
Proof.
  intros Hi. unfold nthZ. rewrite (proj2 (Z.leb_le 0 i)), (proj2 (Z.leb_le 0 (1 + i))) by lia.
  by replace (Z.to_nat (1 + i)) with (S (Z.to_nat i)) by lia.
Qed.

Lemma print_words cs1 c cs2 :
  let k := Z.of_nat (length cs1) in
  nthZ (print_program (cs1 ++ c :: cs2)) (1 + 2 * k) = encode_f3 2 2 (or_imm c) /\
  nthZ (print_program (cs1 ++ c :: cs2)) (2 + 2 * k) = encode_f3 3 4 st_uart.
Proof.
  cbv zeta. unfold print_program.
  assert (H : nthZ (concat (map print_char (cs1 ++ c :: cs2))) (2 * Z.of_nat (length cs1))
      = encode_f3 2 2 (or_imm c) /\
    nthZ (concat (map print_char (cs1 ++ c :: cs2))) (1 + 2 * Z.of_nat (length cs1))
      = encode_f3 3 4 st_uart).
  { induction cs1 as [|a cs1 [IH1 IH2]]; [done|].
    cbn [app map concat print_char length]. rewrite Nat2Z.inj_succ.
    replace (2 * Z.succ (Z.of_nat (length cs1))) with (1 + (1 + 2 * Z.of_nat (length cs1))) by lia.
    by rewrite !nthZ_cons by lia. }
  replace (2 + 2 * Z.of_nat (length cs1)) with (1 + (1 + 2 * Z.of_nat (length cs1))) by lia.
  by rewrite !nthZ_cons by lia.
Qed.

(** ** The run *)

(** Between two characters: the program counter is at the [k]-th one and the
    base of the peripherals is in %g1. *)
Record printing (k : Z) (s : sparc_state) : Prop := {
  pr_wf : state_wf s;
  pr_pc : PCREG s = 4 * (1 + 2 * k);
  pr_npc : NPCREG s = 4 * (2 + 2 * k);
  pr_irq : irq_pending s = 0;
  pr_g0 : REG s G0 = 0;
  pr_g1 : REG s 1 = 0x80000000
}.

(** What [sparc_step_once] leaves of the state [s'] of the instruction. *)
Definition stepped (s' : sparc_state) : sparc_state :=
  set_REG (set_cycle_counter s' (u64 (cycle_counter s' + 1))) G0 0.

Lemma stepped_REG s' x :
  state_wf s' -> 0 <= x < 32 -> REG (stepped s') x = if x =? 0 then 0 else REG s' x.
Proof.
  intros Hs Hx. unfold stepped. rewrite REG_set_REG; [done | | done | done].
  by apply wf_set_cycle_counter.
Qed.

Lemma stepped_rest s' :
  PCREG (stepped s') = PCREG s' /\ NPCREG (stepped s') = NPCREG s' /\
  irq_pending (stepped s') = irq_pending s' /\ (state_wf s' -> state_wf (stepped s')).
Proof.
  unfold stepped. autorewrite with sparc_simpl. split_and!; try done.
  intros. by apply wf_set_REG, wf_set_cycle_counter.
Qed.

Section steps.
Context (prog : list Z) (j : Z).
Hypothesis Hsize : ram_size_ok prog.
Hypothesis Hu32 : Forall is_u32 prog.
Hypothesis Hj : 0 <= j < Z.of_nat (length prog).

(** An instruction that leaves the bus alone. *)
Lemma step_quiet s s' l c pi o :
  cache_2 c -> PCREG s = 4 * j -> iu_get_instr iu_i_set (nthZ prog j) = Some (existT pi o) ->
  execute pi o (Machine s (board prog l (Some 0%nat)))
    = Val (1, Machine s' (board prog l (Some 0%nat))) ->
  irq_pending s' = 0 -> quiet l -> uart_ready l ->
  exists l', sparc_step_once (Machine s (board prog l c))
      = Val (Machine (stepped s') (board prog l' (Some 0%nat))) /\
    quiet l' /\ uart_ready l' /\ uart_out l' = uart_out l.
Proof.
  intros Hc Hpc Hd He Hirq [Hwf Hen Hm] Hr.
  destruct (io_cycle_quiet l) as (l' & Hio & Hq & Hu & Ho);
    [by rewrite uart_idle | by rewrite uart_idle | done |].
  rewrite uart_idle in Hu, Ho by done. exists l'. split_and!; try done.
  - eapply step_once_Val; [| |exact Hd|exact He|exact Hirq|exact Hio]; [|done].
    cbn [cpu bus]. rewrite Hpc. by apply board_fetch.
  - unfold uart_ready, uget. by rewrite Hu.
Qed.

(** A store to the data register of the UART. *)
Lemma step_print s s' l c pi o v :
  cache_2 c -> PCREG s = 4 * j -> iu_get_instr iu_i_set (nthZ prog j) = Some (existT pi o) ->
  (forall l1, leon2_io_write_long UART1_ADDR v l = Val l1 ->
    execute pi o (Machine s (board prog l (Some 0%nat)))
      = Val (1, Machine s' (board prog l1 (Some 1%nat)))) ->
  irq_pending s' = 0 -> quiet l ->
  exists l', sparc_step_once (Machine s (board prog l c))
      = Val (Machine (stepped s') (board prog l' (Some 1%nat))) /\
    quiet l' /\ uart_ready l' /\ uart_out l' = uart_out l ++ [u8 v].
Proof.
  intros Hc Hpc Hd He Hirq [Hwf Hen Hm].
  destruct (uart_send_1 v l Hwf Hen) as (l1 & Hw & Hwf1 & Hen1 & Hr1 & Ho1).
  destruct (io_cycle_quiet l1 Hwf1 Hen1) as (l' & Hio & Hq & Hu & Ho).
  { rewrite io_write_data in Hw by done. unfold leon2_uart_write in Hw.
    rewrite reg_of_data, Z.eqb_refl in Hw by done. by injection Hw as <-. }
  exists l'. split_and!; [|done| |by rewrite Ho].
  - eapply step_once_Val; [| |exact Hd|by apply He|exact Hirq|exact Hio]; [|done].
    cbn [cpu bus]. rewrite Hpc. by apply board_fetch.
  - unfold uart_ready, uget. by rewrite Hu.
Qed.
End steps.

(** The two instructions of a character. *)
Lemma or_step s l prog cc c k :
  0 <= c < 256 -> printing k s ->
  let s' := step_pc (set_REG s 2 c) in
  execute i_or (or_imm c) (Machine s (board prog l cc)) = Val (1, Machine s' (board prog l cc)) /\
  state_wf s' /\ PCREG s' = 4 * (2 + 2 * k) /\ irq_pending s' = 0 /\ REG s' 1 = 0x80000000 /\
  REG s' 2 = c.
Proof.
  intros Hc [Hwf Hpc Hnpc Hirq H0 H1] s'.
  pose proof (wrote_step s 2 c Hwf ltac:(lia)) as Hst. fold s' in Hst. split_and!.
  - cbn [execute i_or]. unfold lift_cpu, i_or_execute. cbn [cpu imm or_imm rd rs1].
    rewrite (proj2 (Z.ltb_ge c 0)) by lia. change 0 with G0 at 1. rewrite H0, Z.lor_0_l.
    rewrite sign_ext13_spec, (proj2 (Z.ltb_lt c 4096)), u32_id by (unfold is_u32; lia). done.
  - by apply wf_step_pc, wf_set_REG.
  - by rewrite (wrote_pc _ _ _ _ Hst).
  - destruct (wrote_rest _ _ _ _ Hst) as (_ & -> & _). done.
  - by rewrite (wrote_reg _ _ _ _ Hst) by lia.
  - rewrite (wrote_reg _ _ _ _ Hst) by lia. cbn. apply u32_id. unfold is_u32. lia.
Qed.

Lemma st_step s l prog c l1 :
  ram_size_ok prog -> state_wf s -> REG s 1 = 0x80000000 -> REG s 2 = c -> 0 <= c < 256 ->
  leon2_io_write_long UART1_ADDR c l = Val l1 ->
  execute i_st st_uart (Machine s (board prog l (Some 0%nat)))
  = Val (1, Machine (step_pc s) (board prog l1 (Some 1%nat))).
Proof.
  intros Hp Hwf H1 H2 Hc Hw. cbn [execute i_st]. unfold i_st_execute. cbn [cpu].
  rewrite ls_addr9_wf by (done || apply st_uart_wf). cbn [rbind].
  replace (ls_addr st_uart s) with UART1_ADDR by (unfold ls_addr; cbn; by rewrite H1).
  change (tst (Z.land UART1_ADDR 3)) with false. cbv iota. unfold mem_store.
  cbn [cpu rd st_uart bus]. rewrite H2. change 0xffffffff with (Z.ones 32).
  rewrite Z.land_ones, Z.mod_small by lia. cbn [bus_write memsys_bus].
  rewrite board_io_write by (done || (right; by left) || (unfold UART1_ADDR; lia)).
  rewrite Hw. reflexivity.
Qed.

Lemma print_step k s l c cs1 cs2 cc :
  let prog := print_program (cs1 ++ c :: cs2) in
  k = Z.of_nat (length cs1) -> ram_size_ok prog -> Forall (fun c => 0 <= c < 256) (cs1 ++ c :: cs2) ->
  printing k s -> quiet l -> uart_ready l -> cache_2 cc ->
  exists s' l', sparc_run 2 (Machine s (board prog l cc)) = Val (Machine s' (board prog l' (Some 1%nat)))
    /\ printing (k + 1) s' /\ quiet l' /\ uart_ready l' /\ uart_out l' = uart_out l ++ [c].
Proof.
  intros prog -> Hsize Hcs Hpr Hq Hr Hcc. set (k := Z.of_nat (length cs1)) in *.
  pose proof (print_program_u32 _ Hcs) as Hu. fold prog in Hu.
  assert (Hc : 0 <= c < 256) by (apply Forall_app in Hcs as [_ Hcs]; by inversion Hcs).
  destruct (print_words cs1 c cs2) as [Hw1 Hw2]. fold prog k in Hw1, Hw2.
  assert (Hlen : Z.of_nat (length prog) = 1 + 2 * (k + 1 + Z.of_nat (length cs2))).
  { unfold prog. rewrite print_program_length, length_app. cbn [length]. lia. }
  set (s1 := step_pc (set_REG s 2 c)).
  destruct (or_step s l prog (Some 0%nat) c k Hc Hpr) as (He1 & Hwf1 & Hpc1 & Hirq1 & H11 & H21).
  fold s1 in He1, Hwf1, Hpc1, Hirq1, H11, H21.
  assert (Hnpc1 : NPCREG s1 = u32 (NPCREG s + 4))
    by (unfold s1, step_pc; cbn; by autorewrite with sparc_simpl).
  destruct (step_quiet prog (1 + 2 * k) Hsize Hu ltac:(lia) s s1 l cc i_or (or_imm c))
    as (l1 & Hs1 & Hq1 & Hr1 & Ho1); try done; [apply Hpr | rewrite Hw1; by apply decode_or |].
  destruct (stepped_rest s1) as (Hp & Hn & Hi & Hw). specialize (Hw Hwf1).
  pose proof (stepped_REG s1 1 Hwf1 ltac:(lia)) as G1.
  pose proof (stepped_REG s1 2 Hwf1 ltac:(lia)) as G2.
  cbn [Z.eqb] in G1, G2. clearbody s1. rewrite H11 in G1. rewrite H21 in G2.
  destruct (step_print prog (2 + 2 * k) Hsize Hu ltac:(lia) (stepped s1) (step_pc (stepped s1)) l1
    (Some 0%nat) i_st st_uart c) as (l2 & Hs2 & Hq2 & Hr2 & Ho2).
  { right; by left. } { by rewrite Hp. } { rewrite Hw2. apply decode_st. }
  { intros l3 Hl3. by apply (st_step _ _ _ c). } { cbn. by rewrite Hi. } { done. }
  exists (stepped (step_pc (stepped s1))), l2. split_and!; [| |done|done|].
  - cbn [sparc_run]. rewrite Hs1. cbn [rbind]. rewrite Hs2. reflexivity.
  - destruct (stepped_rest (step_pc (stepped s1))) as (Hp' & Hn' & Hi' & Hw').
    unfold ram_size_ok in Hsize. pose proof (pr_npc _ _ Hpr) as Hnpc.
    assert (En : NPCREG s1 = 4 * (3 + 2 * k)) by (rewrite Hnpc1, Hnpc, u32_id by (unfold is_u32; lia); lia).
    split; [by apply Hw', wf_step_pc | rewrite Hp' | rewrite Hn' | rewrite Hi' | |].
    + cbn. rewrite Hn, En. lia.
    + cbn. rewrite Hn, En, u32_id by (unfold is_u32; lia). lia.
    + cbn. by rewrite Hi.
    + by rewrite stepped_REG by (done || by apply wf_step_pc).
    + rewrite stepped_REG by (done || by apply wf_step_pc). cbn [Z.eqb].
      by change (REG (step_pc ?s) 1) with (REG s 1).
  - rewrite Ho2, Ho1. do 2 f_equal. unfold u8. by apply Z.mod_small.
Qed.

Lemma run_app {B} `{Bus B} `{MachIO B} n1 n2 (m : machine B) :
  sparc_run (n1 + n2) m = let! m := sparc_run n1 m in sparc_run n2 m.
Proof.
  revert m. induction n1 as [|n1 IH]; intros m; cbn [sparc_run Nat.add]; [done|].
  destruct (sparc_step_once m); cbn [rbind]; auto.
Qed.

Lemma print_rest cs2 : forall cs1 s l cc,
  let prog := print_program (cs1 ++ cs2) in
  ram_size_ok prog -> Forall (fun c => 0 <= c < 256) (cs1 ++ cs2) ->
  printing (Z.of_nat (length cs1)) s -> quiet l -> uart_ready l -> cache_2 cc ->
  exists m', sparc_run (2 * length cs2) (Machine s (board prog l cc)) = Val m' /\
    uart_out (mach (bus m')) = uart_out l ++ cs2.
Proof.
  induction cs2 as [|c cs2 IH]; intros cs1 s l cc prog Hsize Hcs Hpr Hq Hr Hcc.
  { eexists. split; [reflexivity|]. by rewrite app_nil_r. }
  subst prog.
  destruct (print_step _ s l c cs1 cs2 cc eq_refl Hsize Hcs Hpr Hq Hr Hcc)
    as (s' & l' & Hrun & Hpr' & Hq' & Hr' & Ho').
  replace (2 * length (c :: cs2))%nat with (2 + 2 * length cs2)%nat by (cbn; lia).
  rewrite run_app, Hrun. cbn [rbind].
  specialize (IH (cs1 ++ [c]) s' l' (Some 1%nat)). rewrite <- app_assoc in IH. cbn [app] in IH.
  destruct IH as (m' & Hm & Ho); try done.
  - rewrite length_app, Nat2Z.inj_add. exact Hpr'.
  - right; by right.
  - exists m'. split; [exact Hm|]. by rewrite Ho, Ho', <- app_assoc.
Qed.

(** The processor at the first instruction of a program at address 0. *)
Record at_reset (s : sparc_state) : Prop := {
  ar_wf : state_wf s;
  ar_pc : PCREG s = 0;
  ar_npc : NPCREG s = 4;
  ar_irq : irq_pending s = 0
}.

Lemma sethi_step s l prog cc :
  let s' := step_pc (set_REG s 1 0x80000000) in
  execute i_sethi {| sethi_rd := 1; imm22 := 0x200000 |} (Machine s (board prog l cc))
  = Val (1, Machine s' (board prog l cc)).
Proof. reflexivity. Qed.

(** C2: a program on the LEON2 board that sets up the address of the UART and
    writes the characters of a text to it, loaded at 0 in RAM, runs to its last
    instruction and has then sent exactly the text: fetch, decoding, SETHI, OR,
    ST, the bank look-up, the I/O dispatch, the UART and the interrupt check work
    together, for every text that fits. *)
Theorem program_prints cs s l c :
  ram_size_ok (print_program cs) -> Forall (fun c => 0 <= c < 256) cs ->
  at_reset s -> quiet l -> uart_ready l -> cache_2 c ->
  exists m', sparc_run (1 + 2 * length cs) (Machine s (board (print_program cs) l c)) = Val m' /\
    uart_out (mach (bus m')) = uart_out l ++ cs.
Proof.
  intros Hsize Hcs [Hwf Hpc Hnpc Hirq] Hq Hr Hc.
  set (s1 := step_pc (set_REG s 1 0x80000000)).
  pose proof (wrote_step s 1 0x80000000 Hwf ltac:(lia)) as Hst. fold s1 in Hst.
  assert (Hwf1 : state_wf s1) by (by apply wf_step_pc, wf_set_REG).
  destruct (step_quiet (print_program cs) 0 Hsize (print_program_u32 _ Hcs)
    ltac:(rewrite print_program_length; lia) s s1 l c i_sethi {| sethi_rd := 1; imm22 := 0x200000 |})
    as (l1 & Hs & Hq1 & Hr1 & Ho1); try done.
  destruct (print_rest cs [] (stepped s1) l1 (Some 0%nat)) as (m' & Hm & Ho); try done.
  - destruct (stepped_rest s1) as (Hp & Hn & Hi & Hw). cbn [length].
    split; [by apply Hw | rewrite Hp | rewrite Hn | rewrite Hi | |].
    + by rewrite (wrote_pc _ _ _ _ Hst), Hnpc.
    + by rewrite (wrote_npc _ _ _ _ Hst), Hnpc.
    + by destruct (wrote_rest _ _ _ _ Hst) as (_ & ? & _).
    + by rewrite stepped_REG by done.
    + rewrite stepped_REG, (wrote_reg _ _ _ _ Hst) by (done || lia). done.
  - right; by left.
  - exists m'. rewrite run_app. cbn [sparc_run]. rewrite Hs. cbn [rbind].
    split; [exact Hm|]. by rewrite Ho, Ho1.
Qed.

Lemma program_prints_witness :
  exists m', sparc_run 5 (Machine (iu_set_pc (iu_init_state sparc_state_zero) 0)
      (board (print_program [72; 105]) (leon2_io_reset leon2_zero) None)) = Val m' /\
    uart_out (mach (bus m')) = [72; 105].
Proof.
  apply (program_prints [72; 105]).
  - vm_compute. intuition congruence.
  - repeat constructor; lia.
  - split; [|done..]. apply wf_set_NPCREG; [done|]. apply wf_set_PCREG; [done|]. apply iu_init_state_wf.
  - split; [by apply leon2_io_reset_wf | done..].
  - done.
  - by left.
Defined.
