(* ===== verification/Witnesses.v ===== *)
(** * The theorems at concrete inputs

    Each property applied to a machine that can be computed: the state the
    simulator starts from, a board with a small program, a few words of RAM.
    The end of the file shows where the code departs from the manual or its comments. *)

From Stdlib Require Import ZArith Lia Bool.
From stdpp Require Import base numbers option list.
From S2P Require Import Prelude Words Bus SparcState Windows Isa Traps SparcAlu SparcCtl SparcMem SparcIU SparcDecode AluProps WindowProps CtlProps MulProps Memory MemProps LoadStoreProps Leon2 Leon2Props SystemProps BoardProps.

(** ** States *)

Definition s0 : sparc_state := iu_init_state sparc_state_zero.
Definition s_regs : sparc_state := set_YREG (set_REG (set_REG s0 9 5) 10 7) 3.
Definition s_ram : sparc_state := set_REG s0 9 0xCAFE.
Definition l0 : leon2 := leon2_io_reset leon2_zero.
Definition ram4 : memsys leon2 := board [0; 0; 0; 0] l0 None.
Definition reg_op (d a b : Z) : f3 := {| rd := d; rs1 := a; rs2 := b; imm := -1 |}.
Definition imm_op (d a i : Z) : f3 := {| rd := d; rs1 := a; rs2 := -1; imm := i |}.

Lemma s0_wf : state_wf s0.
Proof. exact iu_init_state_wf. Qed.
Lemma s_regs_wf : state_wf s_regs.
Proof. apply wf_set_YREG; [unfold is_u32; lia|]. apply wf_set_REG, wf_set_REG, s0_wf. Qed.
Lemma s_ram_wf : state_wf s_ram.
Proof. apply wf_set_REG, s0_wf. Qed.
Lemma l0_wf : leon2_wf l0.
Proof. by apply leon2_io_reset_wf. Qed.

Lemma board_banks_disjoint prog : ram_size_ok prog -> disjoint_banks (mem_banks (board_config prog None)).
Proof.
  intros Hp i j b c a Hi Hj Hb Hc. unfold ram_size_ok in Hp. cbn [board_config mem_banks] in *.
  pose proof (lookup_lt_Some _ _ _ Hi). pose proof (lookup_lt_Some _ _ _ Hj). cbn [length] in *.
  unfold bank_hit in *. pose proof (u32_range a) as Ha. unfold is_u32, u32 in *.
  destruct i as [|[|[|i]]], j as [|[|[|j]]]; try lia; cbn in Hi, Hj; simplify_eq; try done;
    cbn [bank_addr bank_len ram_at_0 io_at_2G no_bank] in *;
    rewrite !andb_true_iff, !Z.leb_le, !Z.ltb_lt in *; Z.div_mod_to_equations; lia.
Qed.

Lemma board_ram_bank prog l :
  ram_size_ok prog -> Forall is_u32 prog ->
  ram_bank (board prog l None) 0 (ram_at_0 (4 * Z.of_nat (length prog))).
Proof.
  intros Hp Hu. split; [split|done|done]; try done.
  - intros k c Hk. lia.
  - by apply board_banks_disjoint.
  - exists no_bank. split; [|done]. apply list_elem_of_In; cbn; auto.
  - unfold ram_size_ok in Hp. cbn [ram_at_0 bank_addr bank_len]. split_and!; (done || lia).
  - by right.
  - by exists prog.
Qed.

Lemma ram4_bank : ram_bank ram4 0 (ram_at_0 16).
Proof.
  apply (board_ram_bank [0; 0; 0; 0]); [unfold ram_size_ok; cbn; lia|].
  repeat (apply Forall_cons_2; [unfold is_u32; lia|]). apply Forall_nil_2.
Qed.

Ltac f3_ok := unfold f3_wf, reg_op, imm_op; cbn; lia.

(** ** The whole machine *)

Definition hello : machine (memsys leon2) :=
  Machine (iu_set_pc s0 0) (board (print_program [72; 105]) l0 None).

Lemma hello_wf : machine_wf hello.
Proof.
  split.
  - apply wf_set_NPCREG; [apply u32_range|]. apply wf_set_PCREG; [apply u32_range | exact s0_wf].
  - split; [done | | exact l0_wf]. apply Forall_cons_2; [|by apply Forall_cons_2].
    apply print_program_u32. repeat (apply Forall_cons_2; [lia|]). apply Forall_nil_2.
Qed.

Lemma sparc_run_wf_witness : machine_wf hello /\ holds machine_wf (sparc_run 5 hello).
Proof. split; [exact hello_wf | apply sparc_run_wf; exact hello_wf]. Defined.

Lemma step_g0_no_trap_witness :
  holds (fun m' => REG (cpu m') G0 = 0 /\ irq_pending (cpu m') = 0) (sparc_step_once hello).
Proof. apply step_g0_no_trap. exact hello_wf. Defined.

Lemma encode_decode_roundtrip_witness :
  Forall (fun '(op, op3, d) =>
    iu_get_instr (B := memsys leon2) iu_i_set (encode_f3 op op3 (imm_op 8 9 8191)) = Some d)
    (f3_table (imm_op 8 9 8191)).
Proof. apply (encode_decode_roundtrip (imm_op 8 9 8191)). f3_ok. Defined.

(** ** Windows and traps *)

Lemma windows_refinement_witness :
  abs_windows (iu_sub_cwp s0).2 = win_rotate (abs_windows s0) ((CWP s0 - 1) mod 8).
Proof. destruct (windows_refinement s0 s0_wf) as (_ & _ & H & _). exact H. Defined.

Lemma save_restore_roundtrip_witness :
  let s2 := (i_restore_execute (reg_op 0 0 0) (i_save_execute (imm_op 14 14 8096) s_regs).2).2 in
  CWP s2 = CWP s_regs /\ forall x, 8 <= x < 32 -> x <> 0 -> REG s2 x = REG s_regs x.
Proof.
  apply (save_restore_roundtrip (imm_op 14 14 8096) (reg_op 0 0 0) s_regs);
    [f3_ok | f3_ok | exact s_regs_wf | cbn; lia | reflexivity | reflexivity].
Defined.

Lemma trap_rett_roundtrip_witness :
  exists s1, trigger s_regs = Val s1 /\
    let s' := rett_l2 (jmpl_l1 s1) in
    PCREG s' = PCREG s_regs /\ NPCREG s' = NPCREG s_regs /\ CWP s' = CWP s_regs /\
    (forall x, 0 < x < 32 -> REG s' x = REG s_regs x) /\
    (forall i, 0 <= i -> Z.testbit (PSRREG s') i
       = if i =? PSR_PS then Z.testbit (PSRREG s_regs) PSR_S else Z.testbit (PSRREG s_regs) i).
Proof.
  exists (in_handler s_regs). split; [vm_compute; reflexivity|].
  apply (trap_rett_roundtrip s_regs (in_handler s_regs)); [exact s_regs_wf | vm_compute; reflexivity..].
Defined.

Lemma save_passes_arguments_witness :
  let s' := (i_save_execute (imm_op 14 14 8096) s_regs).2 in
  CWP s' = 7 /\ REG s' 25 = 5 /\ REG s' 26 = 7.
Proof.
  destruct (save_passes_arguments (imm_op 14 14 8096) s_regs) as (H1 & H2 & _);
    [f3_ok | exact s_regs_wf | reflexivity |].
  split; [exact H1|]. split; [apply (H2 9); cbn; lia | apply (H2 10); cbn; lia].
Defined.

Lemma trigger_enters_handler_witness :
  exists s', trigger s_regs = Val s' /\ PCREG s' = TBRREG s_regs /\ CWP s' = 7.
Proof.
  destruct (trigger_enters_handler s_regs s_regs_wf) as [_ H].
  destruct (H eq_refl) as (s' & H1 & H2 & _ & _ & _ & H3 & _).
  exists s'. split; [exact H1|]. split; [exact H2 | exact H3].
Defined.

Lemma signal_records_trap_witness :
  signal s_regs MEM_ADDR_NOT_ALIGNED
  = (SPARC_SUCCESS, set_irq_pending (set_TBRREG s_regs 0x70) 1).
Proof.
  etransitivity; [apply (signal_records_trap s_regs MEM_ADDR_NOT_ALIGNED);
    [exact s_regs_wf | unfold MEM_ADDR_NOT_ALIGNED; lia] | reflexivity].
Defined.

Lemma call_return_witness :
  let s2 := retl (i_call_execute 16 (iu_set_pc s_regs 0x1000)).2 in
  NPCREG s2 = 0x1008 /\ REG s2 9 = 5.
Proof.
  destruct (call_return 16 (iu_set_pc s_regs 0x1000)) as (_ & _ & _ & _ & H1 & H2);
    [ | lia | reflexivity |].
  - apply wf_set_NPCREG; [apply u32_range|]. apply wf_set_PCREG; [apply u32_range | exact s_regs_wf].
  - split; [exact H1 | apply (H2 9); unfold O7; lia].
Defined.

Lemma branch_targets_witness :
  let o := {| annul := 1; disp22 := 4194300 |} in
  PCREG (i_ba_execute o (iu_set_pc s_regs 0x1000)).2 = 0xff0.
Proof.
  destruct (branch_targets {| annul := 1; disp22 := 4194300 |} (iu_set_pc s_regs 0x1000))
    as (_ & _ & H & _); [ | cbn; lia | cbn; lia | exact H].
  apply wf_set_NPCREG; [apply u32_range|]. apply wf_set_PCREG; [apply u32_range | exact s_regs_wf].
Defined.

Lemma wrpsr_windows_witness : CWP (i_wrpsr_execute (imm_op 0 0 3) s_regs).2 = 3.
Proof.
  apply (wrpsr_windows (imm_op 0 0 3) s_regs);
    [f3_ok | exact s_regs_wf | reflexivity | vm_compute; reflexivity | vm_compute; discriminate].
Defined.

(** ** Arithmetic *)

Lemma alu_functional_witness :
  wrote 8 12 s_regs (i_add_execute (reg_op 8 9 10) s_regs).2.
Proof.
  pose proof alu_functional as H. apply Forall_inv in H.
  apply (H (reg_op 8 9 10) s_regs); [f3_ok | exact s_regs_wf].
Defined.

Lemma addcc_flags_witness :
  let s' := (i_addcc_execute (imm_op 8 9 8191) s_regs).2 in
  wrote 8 (5 + 0xffffffff) s_regs s' /\ flags s' false false false true.
Proof.
  destruct (addcc_flags (imm_op 8 9 8191) s_regs) as (H1 & H2 & _);
    [f3_ok | exact s_regs_wf | split; [exact H1 | exact H2]].
Defined.

Lemma subcc_flags_witness :
  let s' := (i_subcc_execute (reg_op 8 9 10) s_regs).2 in
  wrote 8 (5 - 7) s_regs s' /\ flags s' true false false true.
Proof.
  destruct (subcc_flags (reg_op 8 9 10) s_regs) as (H1 & H2 & _);
    [f3_ok | unfold operand2_kept; cbn; lia | exact s_regs_wf | split; [exact H1 | exact H2]].
Defined.

Lemma branch_after_cmp_witness :
  let s' := (i_subcc_execute (reg_op 0 9 10) s_regs).2 in
  let b := {| annul := 0; disp22 := 4 |} in
  i_be_execute b s' = (1, bicc_not_taken b s').
Proof.
  pose proof (branch_after_cmp (reg_op 0 9 10) s_regs ltac:(f3_ok)
    ltac:(unfold operand2_kept; cbn; lia) s_regs_wf) as H.
  apply Forall_inv in H. apply H.
Defined.

Lemma sethi_or_constant_witness :
  let s1 := (i_sethi_execute {| sethi_rd := 11; imm22 := Z.shiftr 0xDEADBEEF 10 |} s_regs).2 in
  let s2 := (i_or_execute {| rd := 11; rs1 := 11; rs2 := -1; imm := Z.land 0xDEADBEEF 0x3ff |} s1).2 in
  REG s2 11 = 0xDEADBEEF.
Proof.
  apply (sethi_or_constant 11 0xDEADBEEF s_regs); [lia | unfold is_u32; lia | exact s_regs_wf].
Defined.

Lemma shifts_functional_witness :
  exists s', i_sll_execute (imm_op 8 9 4) s_regs = Val (1, s') /\ wrote 8 (5 * 2 ^ 4) s_regs s'.
Proof.
  pose proof shifts_functional as H. apply Forall_inv in H.
  destruct (H (imm_op 8 9 4) s_regs) as (s' & H1 & H2 & _); cbn;
    [lia | lia | unfold operand2_kept; cbn; lia | exact s_regs_wf | unfold shift_count; cbn; lia |].
  exists s'. split; [exact H1 | exact H2].
Defined.

Lemma udiv_functional_witness :
  wrote 8 ((3 * 4294967296 + 5) / 7) s_regs (i_udiv_execute (reg_op 8 9 10) s_regs).2.
Proof.
  destruct (udiv_functional (reg_op 8 9 10) s_regs) as [H _];
    [f3_ok | cbn; lia | exact s_regs_wf | apply H; vm_compute; discriminate].
Defined.

Lemma mulscc_multiplies_witness :
  let s' := mulscc_zero 8 (iter_state 32 (mulscc_reg 8 9) s_regs) in
  s32 (REG s' 8) * 4294967296 + YREG s' = 5 * 3.
Proof.
  etransitivity; [apply (mulscc_multiplies 8 9 s_regs);
    [exact s_regs_wf | lia | lia | lia | vm_compute; reflexivity] | vm_compute; reflexivity].
Defined.

(** ** Memory *)

Lemma bank_ptr_correct_witness :
  exists mc', bank_ptr 0x80000070 (board_config [0; 0] None) = Val (Some 1%nat, mc') /\
    mem_banks mc' = mem_banks (board_config [0; 0] None).
Proof.
  destruct (bank_ptr_correct 0x80000070 (board_config [0; 0] None)) as (mc' & H1 & H2 & _);
    [ | | done | exists mc'; split; [exact H1 | exact H2]].
  - apply board_banks_disjoint. unfold ram_size_ok; cbn; lia.
  - exists no_bank. split; [|done]. apply list_elem_of_In; cbn; auto.
Defined.


Lemma ram_read_bytes_witness :
  exists v st', mem_bus_read 32 4 ram4 = Val (0, Some v, st') /\
    forall k, 0 <= k < 4 -> value_byte 1 4 v k = ram_byte ram4 0 (ram_at_0 16) (4 + k).
Proof.
  destruct (ram_read_bytes ram4 0 (ram_at_0 16) 4 4) as (v & st' & H1 & _ & _ & _ & _ & _ & H2);
    [exact ram4_bank | unfold in_bank; cbn; lia | auto | reflexivity |].
  exists v, st'. split; [exact H1 | exact H2].
Defined.

Lemma st_ld_roundtrip_witness :
  exists m1 m2, i_st_execute (imm_op 9 0 8) (Machine s_ram ram4) = Val (1, m1) /\
    i_ld_execute (imm_op 10 0 8) m1 = Val (1, m2) /\ REG (cpu m2) 10 = 0xCAFE.
Proof.
  destruct (st_ld_roundtrip (imm_op 9 0 8) (imm_op 10 0 8) (Machine s_ram ram4) 0 (ram_at_0 16))
    as (m1 & m2 & H1 & H2 & H3 & _);
    [f3_ok | f3_ok | exact s_ram_wf | exact ram4_bank | vm_compute; intuition congruence
    | reflexivity | reflexivity |].
  exists m1, m2. split; [exact H1|]. split; [exact H2 | exact H3].
Defined.

Lemma misaligned_access_traps_witness :
  i_ld_execute (imm_op 8 0 2) (Machine s_regs ram4)
  = Val (1, Machine (traps_signal s_regs MEM_ADDR_NOT_ALIGNED) ram4).
Proof.
  pose proof (misaligned_access_traps (B := memsys leon2)) as H. apply Forall_inv in H.
  apply (H (imm_op 8 0 2) (Machine s_regs ram4)); [f3_ok | exact s_regs_wf | vm_compute; discriminate].
Defined.

Lemma narrow_loads_witness :
  exists s' b', i_ldub_execute (imm_op 8 0 1) (Machine s_regs ram4) = Val (1, Machine s' b') /\
    wrote 8 0 s_regs s'.
Proof.
  pose proof (narrow_loads (B := memsys leon2)) as H. apply Forall_inv in H.
  destruct (H (imm_op 8 0 1) (Machine s_regs ram4) 0
    (board [0; 0; 0; 0] l0 (Some 0%nat))) as (s' & H1 & H2);
    [f3_ok | exact s_regs_wf | reflexivity | lia | vm_compute; reflexivity |].
  exists s', (board [0; 0; 0; 0] l0 (Some 0%nat)). split; [exact H1 | exact H2].
Defined.

(** ** The peripherals *)

(** Timer 1 with prescaler 2 and reload 3, enabled and reloading. *)
Definition l_timer : leon2 :=
  tset (tset (tset (tset (tset l0 PRESCALER_COUNTER_REGISTER 2) PRESCALER_RELOAD_REGISTER 2)
    TIMER1_COUNTER_REGISTER 3) TIMER1_RELOAD_REGISTER 3) TIMER1_CONTROL_REGISTER 3.

Lemma timer_period_witness :
  int_pending TIMER1_INT (Nat.iter 11 leon2_timer_core_cycle l_timer) = false /\
  int_pending TIMER1_INT (Nat.iter 12 leon2_timer_core_cycle l_timer) = true.
Proof.
  assert (Hwf : leon2_wf l_timer) by (do 5 apply tset_wf; exact l0_wf).
  split; (etransitivity; [apply (timer_period T1 l_timer 2 3); (exact Hwf || (by split) || reflexivity)
    | reflexivity]).
Defined.

Lemma uart_transmits_witness :
  exists l', uart_send [72; 105] l0 = Val l' /\ uart_out l' = [72; 105].
Proof.
  destruct (uart_transmits [72; 105] l0) as (l' & H1 & H2 & _);
    [exact l0_wf | reflexivity | reflexivity | exists l'; split; [exact H1 | exact H2]].
Defined.

(** Interrupt 9 unmasked and pending. *)
Definition l_irq : leon2 :=
  leon2_set_int 9 (set_irqctrl l0 (rset (leon2_irqctrl l0) IRQCTRL_MASK_AND_PRIORITY_REGISTER 512)).

Lemma irq_delivery_witness : leon2_io_do_cycle l_irq = Sigint.
Proof.
  apply (irq_delivery l_irq).
  - apply leon2_set_int_wf, set_irqctrl_wf; [exact l0_wf | apply rset_wf, wf_irqctrl, l0_wf].
  - exists 9. split; [lia|]. split; reflexivity.
Defined.

Lemma leon2_io_total_witness :
  leon2_io_read_long 0x80000020 l0 <> Undef /\ leon2_io_read_long 0x80001000 l0 = Val (0, l0).
Proof.
  destruct (leon2_io_total l0 0x80000020 0 l0_wf) as ((x & l' & -> & _) & _ & _); [unfold is_u32; lia|].
  destruct (leon2_io_total l0 0x80001000 0 l0_wf) as (_ & _ & H); [unfold is_u32; lia|].
  split; [discriminate | by apply H].
Defined.

(** * Where the code departs from the architecture

    Theorems and evaluated examples of instructions that do something else than
    the SPARC V8 manual, or than their own comments, say. *)

(** ORcc with two registers computes nothing: no register changes and Z is set
    whatever the operands are (i_orcc.c). *)
Lemma orcc_registers_ignored o s :
  imm o < 0 -> state_wf s ->
  let s' := (i_orcc_execute o s).2 in
  (forall x, REG s' x = REG s x) /\ psr_get_zero s' = 1 /\ psr_get_neg s' = 0.
Proof.
  intros Hi Hwf. unfold i_orcc_execute. rewrite (proj2 (Z.ltb_lt (imm o) 0) Hi).
  cbn [snd]. change (0 =? 0) with true. change (tst (bit 0 31)) with false.
  unfold when, psr_set_zero. rewrite clear_icc_eq. cbn [PSRREG set_PSRREG].
  split; [done|]. unfold psr_get_zero, psr_get_neg, step_pc; cbn.
  rewrite !bit_testbit by (unfold PSR_icc_Z, PSR_icc_N; lia).
  rewrite !testbit_set_bit, !testbit_icc_cleared by (unfold PSR_icc_Z, PSR_icc_N; auto with sparc; lia).
  split; [by rewrite orb_true_r|]. by rewrite andb_false_r.
Qed.

(** UMUL clears Y instead of putting the high word of the product there: the
    product is taken in 32 bits (i_umul.c). *)
Lemma umul_clears_y o s : state_wf s -> YREG (i_umul_execute o s).2 = 0.
Proof.
  intros Hwf. unfold i_umul_execute; cbn [snd]. unfold step_pc; cbn.
  assert (H : forall z, u32 (Z.shiftr (u64 (u32 z)) 32) = 0).
  { intros z. pose proof (u32_range z) as Hz. unfold is_u32 in Hz.
    unfold u64. rewrite Z.mod_small, Z.shiftr_div_pow2 by lia. by rewrite Z.div_small by lia. }
  by case_match; rewrite H.
Qed.

(** SUBcc whose destination is its second source reads it after writing: no
    borrow in 0xffffffff - 1, but the carry is set (i_subcc.c). *)
Lemma subcc_reads_destination :
  let s := set_REG (set_REG s0 9 0xffffffff) 10 1 in
  psr_get_carry (i_subcc_execute (reg_op 8 9 10) s).2 = 0 /\
  psr_get_carry (i_subcc_execute (reg_op 10 9 10) s).2 = 1.
Proof. vm_compute. split; reflexivity. Qed.

(** A shift by a register whose value is 32 or more is a C shift by too much
    (i_sll.c): the architecture uses the low five bits. *)
Lemma sll_large_count o s :
  imm o < 0 -> 32 <= REG s (rs2 o) -> i_sll_execute o s = Undef.
Proof.
  intros Hi Hr. unfold i_sll_execute, shl32. rewrite (proj2 (Z.ltb_lt _ _) Hi).
  rewrite (proj2 (Z.ltb_ge (REG s (rs2 o)) 32)) by lia. by rewrite andb_false_r.
Qed.

(** No word decodes to BN: a program that contains one ends the simulator
    (i_bn.c, iu.c). *)
Lemma bn_undecoded {B} `{Bus B} instr :
  bits instr 31 30 = 0 -> bits instr 24 22 = 2 -> bits instr 28 25 = 0 ->
  iu_get_instr (B := B) iu_i_set instr = None.
Proof.
  intros H1 H2 H3. rewrite get_instr_ref. unfold decode_ref. rewrite H1.
  unfold decode_ref0. by rewrite H2, H3.
Qed.

(** ADDXcc has a file but is not registered, and MULScc is not recognised in half
    of its encodings (iu.c, i_mulscc.c). *)
Lemma addxcc_mulscc_undecoded {B} `{Bus B} :
  iu_get_instr (B := B) iu_i_set (encode_f3 2 0x18 (reg_op 8 9 10)) = None /\
  iu_get_instr (B := B) iu_i_set (encode_f3 2 0x24 (reg_op 8 1 10)) = None.
Proof. split; rewrite get_instr_ref; reflexivity. Qed.

(** The floating-point stores trap exactly when the FPU is enabled (i_stf.c,
    i_stdf.c, i_stfsr.c); it is enabled in the initial state. *)
Lemma stf_traps_when_enabled {B} `{Bus B} o (m : machine B) :
  Z.testbit (PSRREG (cpu m)) PSR_EF = true ->
  i_stf_execute o m = mem_trap FP_DISABLED m /\ i_stdf_execute o m = mem_trap FP_DISABLED m /\
  i_stfsr_execute o m = mem_trap FP_DISABLED m.
Proof.
  intros He. unfold i_stf_execute, i_stdf_execute, i_stfsr_execute.
  rewrite bit_testbit, He by (unfold PSR_EF; lia). done.
Qed.

(** STD with an immediate stores at 0 and 4, not at the address (i_std.c). *)
Lemma std_immediate_stores_at_0 :
  match i_std_execute (imm_op 8 0 8) (Machine (set_REG (set_REG s0 8 0xAA) 9 0xBB) ram4) with
  | Val (_, m) => ram_words (bus m) 0 = [0xAA; 0xBB; 0; 0]
  | _ => False
  end.
Proof. vm_compute. reflexivity. Qed.

(** The bus reports success for an address no bank answers: a load from it
    reads 0, sets no trap and goes on (bank_ops.c, i_ld.c). *)
Lemma unmapped_load_succeeds :
  match i_ld_execute (imm_op 10 0 1024) (Machine s_regs ram4) with
  | Val (_, m) => REG (cpu m) 10 = 0 /\ irq_pending (cpu m) = 0
  | _ => False
  end.
Proof. vm_compute. split; reflexivity. Qed.

(** A halfword written in the last word of a bank reaches past it on a host whose
    [long] is 64 bits (ram.c). *)
Lemma halfword_past_the_end : mem_bus_write 16 12 1 ram4 = Undef.
Proof. reflexivity. Qed.

(** With overlapping banks the answer of the look-up depends on what was looked
    up before (bank_ops.c). *)
Lemma overlapping_banks_stale :
  let banks := [ram_at_0 32; {| bank_addr := 16; bank_len := 32; bank_write_op := None;
    bank_read_op := None; has_filename := false; bank_type := MEMTYPE_RAM |}; no_bank] in
  (exists c, bank_lookup banks None 20 = Val (Some 0%nat, c)) /\
  (exists c, bank_lookup banks (Some 1%nat) 20 = Val (Some 1%nat, c)).
Proof. split; eexists; reflexivity. Qed.

(** A timer that underflows without reload raises its interrupt and stays
    enabled (leon2_timer_unit.c says it stops and clears the enable bit). *)
Lemma timer_without_reload_keeps_running :
  let l := tset (tset l0 TIMER1_CONTROL_REGISTER 1) TIMER1_COUNTER_REGISTER 0 in
  let l1 := leon2_timer_core_cycle l in
  tget l1 TIMER1_COUNTER_REGISTER = UNDERFLOW /\ tget l1 TIMER1_CONTROL_REGISTER = 1 /\
  tget (leon2_timer_core_cycle l1) TIMER1_COUNTER_REGISTER = UNDERFLOW - 1.
Proof. vm_compute. split_and!; reflexivity. Qed.
