(* ===== verification/ArmState.v ===== *)
(** * The ARM processor state

    The part of [struct ARMul_State] (arch_arm/common/armdefs.h) that the
    instruction set uses, and the macros of arch_arm/common/armemu.h.  A field of
    type [ARMword] or [unsigned] is a 32-bit integer.

    armsupp.c, arminit.c, armvirt.c and thumbemu.c are compiled without [MODE32],
    armemu32.c defines it; [MODET] is defined for all of them. *)

From Stdlib Require Import ZArith Lia Bool.
From stdpp Require Import base numbers option list.
From S2P Require Import Prelude Words.

(** ** Constants *)

(** Condition codes. *)
Definition cond_EQ : Z := 0.
Definition cond_NE : Z := 1.
Definition cond_CS : Z := 2.
Definition cond_CC : Z := 3.
Definition cond_MI : Z := 4.
Definition cond_PL : Z := 5.
Definition cond_VS : Z := 6.
Definition cond_VC : Z := 7.
Definition cond_HI : Z := 8.
Definition cond_LS : Z := 9.
Definition cond_GE : Z := 10.
Definition cond_LT : Z := 11.
Definition cond_GT : Z := 12.
Definition cond_LE : Z := 13.
Definition cond_AL : Z := 14.
Definition cond_NV : Z := 15.

(** Bits of the status register and of the 26-bit register 15. *)
Definition NBIT : Z := 0x80000000.
Definition ZBIT : Z := 0x40000000.
Definition CBIT : Z := 0x20000000.
Definition VBIT : Z := 0x10000000.
Definition SBIT : Z := 0x08000000.
Definition IBIT : Z := 0x80.
Definition FBIT : Z := 0x40.
Definition TBIT : Z := 0x20.
Definition CCBITS : Z := 0xf8000000.
Definition INTBITS : Z := 0xc0.
Definition MODEBITS : Z := 0x1f.
Definition R15INTBITS : Z := 0x0c000000.
Definition R15PCBITS : Z := 0x03fffffc.  (* without MODE32 *)
Definition R15MODEBITS : Z := 3.
Definition PCBITS : Z := 0xfffffffc.  (* without MODE32 *)
Definition PCBITS_MODE32 : Z := 0xffffffff.
Definition PSR_FBITS : Z := 0xff000000.
Definition PSR_SBITS : Z := 0x00ff0000.
Definition PSR_XBITS : Z := 0x0000ff00.
Definition PSR_CBITS : Z := 0x000000ff.

(** Modes and register banks. *)
Definition USER26MODE : Z := 0.
Definition FIQ26MODE : Z := 1.
Definition IRQ26MODE : Z := 2.
Definition SVC26MODE : Z := 3.
Definition USER32MODE : Z := 16.
Definition FIQ32MODE : Z := 17.
Definition IRQ32MODE : Z := 18.
Definition SVC32MODE : Z := 19.
Definition ABORT32MODE : Z := 23.
Definition UNDEF32MODE : Z := 27.
Definition SYSTEM32MODE : Z := 31.
Definition USERBANK : Z := 0.
Definition FIQBANK : Z := 1.
Definition IRQBANK : Z := 2.
Definition SVCBANK : Z := 3.
Definition ABORTBANK : Z := 4.
Definition UNDEFBANK : Z := 5.
Definition DUMMYBANK : Z := 6.
Definition SYSTEMBANK : Z := USERBANK.

(** Exception vectors. *)
Definition ARMul_ResetV : Z := 0.
Definition ARMul_UndefinedInstrV : Z := 4.
Definition ARMul_SWIV : Z := 8.
Definition ARMul_PrefetchAbortV : Z := 12.
Definition ARMul_DataAbortV : Z := 16.
Definition ARMul_AddrExceptnV : Z := 20.
Definition ARMul_IRQV : Z := 24.
Definition ARMul_FIQV : Z := 28.

(** Ways to start the next instruction, and the emulator's state. *)
Definition SEQ : Z := 0.
Definition NONSEQ : Z := 1.
Definition PCINCEDSEQ : Z := 2.
Definition PCINCEDNONSEQ : Z := 3.
Definition PRIMEPIPE : Z := 4.
Definition RESUME : Z := 8.
Definition CHANGEMODE : Z := 1.

Definition CONTROL_VECTOR : Z := 0x2000.

(** ** The state *)

Record ARMul_State : Type := {
  Emulate : Z;  (* to start and stop emulation *)
  Reg : list Z;  (* the current register file, 16 words *)
  RegBank : list (list Z);  (* all the registers: 7 banks of 16 words *)
  Cpsr : Z;  (* the current psr *)
  Spsr : list Z;  (* the exception psrs, one per bank *)
  NFlag : Z;
  ZFlag : Z;
  CFlag : Z;
  VFlag : Z;
  IFFlags : Z;  (* the interrupt masks, I in bit 1 and F in bit 0 *)
  SFlag : Z;  (* the saturation flag *)
  TFlag : Z;  (* Thumb state *)
  Bank : Z;  (* the current register bank *)
  Mode : Z;  (* the current mode *)
  NumIcycles : Z;
  NextInstr : Z;  (* pipeline state *)
  NtransSig : Z;
  abortSig : Z;
  Aborted : Z;  (* sticky flag for aborts *)
  AbortAddr : Z;  (* to keep track of prefetch aborts *)
  bigendSig : Z;
  prog32Sig : Z;
  NresetSig : Z;
  NfiqSig : Z;
  NirqSig : Z;
  is_v4 : Z;
  is_v5 : Z;
  is_v5e : Z;
  is_XScale : Z;
  vector_remap_flag : Z;
  vector_remap_addr : Z;
  mmu_control : Z;  (* mmu.control *)
  isize : Z  (* the global of armemu32.c *)
}.

Definition set_Emulate (st : ARMul_State) (v : Z) : ARMul_State :=
  {| Emulate := v; Reg := Reg st; RegBank := RegBank st; Cpsr := Cpsr st; Spsr := Spsr st;
     NFlag := NFlag st; ZFlag := ZFlag st; CFlag := CFlag st; VFlag := VFlag st;
     IFFlags := IFFlags st; SFlag := SFlag st; TFlag := TFlag st; Bank := Bank st;
     Mode := Mode st; NumIcycles := NumIcycles st; NextInstr := NextInstr st;
     NtransSig := NtransSig st; abortSig := abortSig st; Aborted := Aborted st;
     AbortAddr := AbortAddr st; bigendSig := bigendSig st; prog32Sig := prog32Sig st;
     NresetSig := NresetSig st; NfiqSig := NfiqSig st; NirqSig := NirqSig st;
     is_v4 := is_v4 st; is_v5 := is_v5 st; is_v5e := is_v5e st; is_XScale := is_XScale st;
     vector_remap_flag := vector_remap_flag st; vector_remap_addr := vector_remap_addr st;
     mmu_control := mmu_control st; isize := isize st |}.

Definition set_Reg (st : ARMul_State) (v : list Z) : ARMul_State :=
  {| Emulate := Emulate st; Reg := v; RegBank := RegBank st; Cpsr := Cpsr st;
     Spsr := Spsr st; NFlag := NFlag st; ZFlag := ZFlag st; CFlag := CFlag st;
     VFlag := VFlag st; IFFlags := IFFlags st; SFlag := SFlag st; TFlag := TFlag st;
     Bank := Bank st; Mode := Mode st; NumIcycles := NumIcycles st;
     NextInstr := NextInstr st; NtransSig := NtransSig st; abortSig := abortSig st;
     Aborted := Aborted st; AbortAddr := AbortAddr st; bigendSig := bigendSig st;
     prog32Sig := prog32Sig st; NresetSig := NresetSig st; NfiqSig := NfiqSig st;
     NirqSig := NirqSig st; is_v4 := is_v4 st; is_v5 := is_v5 st; is_v5e := is_v5e st;
     is_XScale := is_XScale st; vector_remap_flag := vector_remap_flag st;
     vector_remap_addr := vector_remap_addr st; mmu_control := mmu_control st;
     isize := isize st |}.

Definition set_RegBank (st : ARMul_State) (v : list (list Z)) : ARMul_State :=
  {| Emulate := Emulate st; Reg := Reg st; RegBank := v; Cpsr := Cpsr st; Spsr := Spsr st;
     NFlag := NFlag st; ZFlag := ZFlag st; CFlag := CFlag st; VFlag := VFlag st;
     IFFlags := IFFlags st; SFlag := SFlag st; TFlag := TFlag st; Bank := Bank st;
     Mode := Mode st; NumIcycles := NumIcycles st; NextInstr := NextInstr st;
     NtransSig := NtransSig st; abortSig := abortSig st; Aborted := Aborted st;
     AbortAddr := AbortAddr st; bigendSig := bigendSig st; prog32Sig := prog32Sig st;
     NresetSig := NresetSig st; NfiqSig := NfiqSig st; NirqSig := NirqSig st;
     is_v4 := is_v4 st; is_v5 := is_v5 st; is_v5e := is_v5e st; is_XScale := is_XScale st;
     vector_remap_flag := vector_remap_flag st; vector_remap_addr := vector_remap_addr st;
     mmu_control := mmu_control st; isize := isize st |}.

Definition set_Cpsr (st : ARMul_State) (v : Z) : ARMul_State :=
  {| Emulate := Emulate st; Reg := Reg st; RegBank := RegBank st; Cpsr := v; Spsr := Spsr st;
     NFlag := NFlag st; ZFlag := ZFlag st; CFlag := CFlag st; VFlag := VFlag st;
     IFFlags := IFFlags st; SFlag := SFlag st; TFlag := TFlag st; Bank := Bank st;
     Mode := Mode st; NumIcycles := NumIcycles st; NextInstr := NextInstr st;
     NtransSig := NtransSig st; abortSig := abortSig st; Aborted := Aborted st;
     AbortAddr := AbortAddr st; bigendSig := bigendSig st; prog32Sig := prog32Sig st;
     NresetSig := NresetSig st; NfiqSig := NfiqSig st; NirqSig := NirqSig st;
     is_v4 := is_v4 st; is_v5 := is_v5 st; is_v5e := is_v5e st; is_XScale := is_XScale st;
     vector_remap_flag := vector_remap_flag st; vector_remap_addr := vector_remap_addr st;
     mmu_control := mmu_control st; isize := isize st |}.

Definition set_Spsr (st : ARMul_State) (v : list Z) : ARMul_State :=
  {| Emulate := Emulate st; Reg := Reg st; RegBank := RegBank st; Cpsr := Cpsr st; Spsr := v;
     NFlag := NFlag st; ZFlag := ZFlag st; CFlag := CFlag st; VFlag := VFlag st;
     IFFlags := IFFlags st; SFlag := SFlag st; TFlag := TFlag st; Bank := Bank st;
     Mode := Mode st; NumIcycles := NumIcycles st; NextInstr := NextInstr st;
     NtransSig := NtransSig st; abortSig := abortSig st; Aborted := Aborted st;
     AbortAddr := AbortAddr st; bigendSig := bigendSig st; prog32Sig := prog32Sig st;
     NresetSig := NresetSig st; NfiqSig := NfiqSig st; NirqSig := NirqSig st;
     is_v4 := is_v4 st; is_v5 := is_v5 st; is_v5e := is_v5e st; is_XScale := is_XScale st;
     vector_remap_flag := vector_remap_flag st; vector_remap_addr := vector_remap_addr st;
     mmu_control := mmu_control st; isize := isize st |}.

Definition set_NFlag (st : ARMul_State) (v : Z) : ARMul_State :=
  {| Emulate := Emulate st; Reg := Reg st; RegBank := RegBank st; Cpsr := Cpsr st;
     Spsr := Spsr st; NFlag := v; ZFlag := ZFlag st; CFlag := CFlag st; VFlag := VFlag st;
     IFFlags := IFFlags st; SFlag := SFlag st; TFlag := TFlag st; Bank := Bank st;
     Mode := Mode st; NumIcycles := NumIcycles st; NextInstr := NextInstr st;
     NtransSig := NtransSig st; abortSig := abortSig st; Aborted := Aborted st;
     AbortAddr := AbortAddr st; bigendSig := bigendSig st; prog32Sig := prog32Sig st;
     NresetSig := NresetSig st; NfiqSig := NfiqSig st; NirqSig := NirqSig st;
     is_v4 := is_v4 st; is_v5 := is_v5 st; is_v5e := is_v5e st; is_XScale := is_XScale st;
     vector_remap_flag := vector_remap_flag st; vector_remap_addr := vector_remap_addr st;
     mmu_control := mmu_control st; isize := isize st |}.

Definition set_ZFlag (st : ARMul_State) (v : Z) : ARMul_State :=
  {| Emulate := Emulate st; Reg := Reg st; RegBank := RegBank st; Cpsr := Cpsr st;
     Spsr := Spsr st; NFlag := NFlag st; ZFlag := v; CFlag := CFlag st; VFlag := VFlag st;
     IFFlags := IFFlags st; SFlag := SFlag st; TFlag := TFlag st; Bank := Bank st;
     Mode := Mode st; NumIcycles := NumIcycles st; NextInstr := NextInstr st;
     NtransSig := NtransSig st; abortSig := abortSig st; Aborted := Aborted st;
     AbortAddr := AbortAddr st; bigendSig := bigendSig st; prog32Sig := prog32Sig st;
     NresetSig := NresetSig st; NfiqSig := NfiqSig st; NirqSig := NirqSig st;
     is_v4 := is_v4 st; is_v5 := is_v5 st; is_v5e := is_v5e st; is_XScale := is_XScale st;
     vector_remap_flag := vector_remap_flag st; vector_remap_addr := vector_remap_addr st;
     mmu_control := mmu_control st; isize := isize st |}.

Definition set_CFlag (st : ARMul_State) (v : Z) : ARMul_State :=
  {| Emulate := Emulate st; Reg := Reg st; RegBank := RegBank st; Cpsr := Cpsr st;
     Spsr := Spsr st; NFlag := NFlag st; ZFlag := ZFlag st; CFlag := v; VFlag := VFlag st;
     IFFlags := IFFlags st; SFlag := SFlag st; TFlag := TFlag st; Bank := Bank st;
     Mode := Mode st; NumIcycles := NumIcycles st; NextInstr := NextInstr st;
     NtransSig := NtransSig st; abortSig := abortSig st; Aborted := Aborted st;
     AbortAddr := AbortAddr st; bigendSig := bigendSig st; prog32Sig := prog32Sig st;
     NresetSig := NresetSig st; NfiqSig := NfiqSig st; NirqSig := NirqSig st;
     is_v4 := is_v4 st; is_v5 := is_v5 st; is_v5e := is_v5e st; is_XScale := is_XScale st;
     vector_remap_flag := vector_remap_flag st; vector_remap_addr := vector_remap_addr st;
     mmu_control := mmu_control st; isize := isize st |}.

Definition set_VFlag (st : ARMul_State) (v : Z) : ARMul_State :=
  {| Emulate := Emulate st; Reg := Reg st; RegBank := RegBank st; Cpsr := Cpsr st;
     Spsr := Spsr st; NFlag := NFlag st; ZFlag := ZFlag st; CFlag := CFlag st; VFlag := v;
     IFFlags := IFFlags st; SFlag := SFlag st; TFlag := TFlag st; Bank := Bank st;
     Mode := Mode st; NumIcycles := NumIcycles st; NextInstr := NextInstr st;
     NtransSig := NtransSig st; abortSig := abortSig st; Aborted := Aborted st;
     AbortAddr := AbortAddr st; bigendSig := bigendSig st; prog32Sig := prog32Sig st;
     NresetSig := NresetSig st; NfiqSig := NfiqSig st; NirqSig := NirqSig st;
     is_v4 := is_v4 st; is_v5 := is_v5 st; is_v5e := is_v5e st; is_XScale := is_XScale st;
     vector_remap_flag := vector_remap_flag st; vector_remap_addr := vector_remap_addr st;
     mmu_control := mmu_control st; isize := isize st |}.

Definition set_IFFlags (st : ARMul_State) (v : Z) : ARMul_State :=
  {| Emulate := Emulate st; Reg := Reg st; RegBank := RegBank st; Cpsr := Cpsr st;
     Spsr := Spsr st; NFlag := NFlag st; ZFlag := ZFlag st; CFlag := CFlag st;
     VFlag := VFlag st; IFFlags := v; SFlag := SFlag st; TFlag := TFlag st; Bank := Bank st;
     Mode := Mode st; NumIcycles := NumIcycles st; NextInstr := NextInstr st;
     NtransSig := NtransSig st; abortSig := abortSig st; Aborted := Aborted st;
     AbortAddr := AbortAddr st; bigendSig := bigendSig st; prog32Sig := prog32Sig st;
     NresetSig := NresetSig st; NfiqSig := NfiqSig st; NirqSig := NirqSig st;
     is_v4 := is_v4 st; is_v5 := is_v5 st; is_v5e := is_v5e st; is_XScale := is_XScale st;
     vector_remap_flag := vector_remap_flag st; vector_remap_addr := vector_remap_addr st;
     mmu_control := mmu_control st; isize := isize st |}.

Definition set_SFlag (st : ARMul_State) (v : Z) : ARMul_State :=
  {| Emulate := Emulate st; Reg := Reg st; RegBank := RegBank st; Cpsr := Cpsr st;
     Spsr := Spsr st; NFlag := NFlag st; ZFlag := ZFlag st; CFlag := CFlag st;
     VFlag := VFlag st; IFFlags := IFFlags st; SFlag := v; TFlag := TFlag st;
     Bank := Bank st; Mode := Mode st; NumIcycles := NumIcycles st;
     NextInstr := NextInstr st; NtransSig := NtransSig st; abortSig := abortSig st;
     Aborted := Aborted st; AbortAddr := AbortAddr st; bigendSig := bigendSig st;
     prog32Sig := prog32Sig st; NresetSig := NresetSig st; NfiqSig := NfiqSig st;
     NirqSig := NirqSig st; is_v4 := is_v4 st; is_v5 := is_v5 st; is_v5e := is_v5e st;
     is_XScale := is_XScale st; vector_remap_flag := vector_remap_flag st;
     vector_remap_addr := vector_remap_addr st; mmu_control := mmu_control st;
     isize := isize st |}.

Definition set_TFlag (st : ARMul_State) (v : Z) : ARMul_State :=
  {| Emulate := Emulate st; Reg := Reg st; RegBank := RegBank st; Cpsr := Cpsr st;
     Spsr := Spsr st; NFlag := NFlag st; ZFlag := ZFlag st; CFlag := CFlag st;
     VFlag := VFlag st; IFFlags := IFFlags st; SFlag := SFlag st; TFlag := v;
     Bank := Bank st; Mode := Mode st; NumIcycles := NumIcycles st;
     NextInstr := NextInstr st; NtransSig := NtransSig st; abortSig := abortSig st;
     Aborted := Aborted st; AbortAddr := AbortAddr st; bigendSig := bigendSig st;
     prog32Sig := prog32Sig st; NresetSig := NresetSig st; NfiqSig := NfiqSig st;
     NirqSig := NirqSig st; is_v4 := is_v4 st; is_v5 := is_v5 st; is_v5e := is_v5e st;
     is_XScale := is_XScale st; vector_remap_flag := vector_remap_flag st;
     vector_remap_addr := vector_remap_addr st; mmu_control := mmu_control st;
     isize := isize st |}.

Definition set_Bank (st : ARMul_State) (v : Z) : ARMul_State :=
  {| Emulate := Emulate st; Reg := Reg st; RegBank := RegBank st; Cpsr := Cpsr st;
     Spsr := Spsr st; NFlag := NFlag st; ZFlag := ZFlag st; CFlag := CFlag st;
     VFlag := VFlag st; IFFlags := IFFlags st; SFlag := SFlag st; TFlag := TFlag st;
     Bank := v; Mode := Mode st; NumIcycles := NumIcycles st; NextInstr := NextInstr st;
     NtransSig := NtransSig st; abortSig := abortSig st; Aborted := Aborted st;
     AbortAddr := AbortAddr st; bigendSig := bigendSig st; prog32Sig := prog32Sig st;
     NresetSig := NresetSig st; NfiqSig := NfiqSig st; NirqSig := NirqSig st;
     is_v4 := is_v4 st; is_v5 := is_v5 st; is_v5e := is_v5e st; is_XScale := is_XScale st;
     vector_remap_flag := vector_remap_flag st; vector_remap_addr := vector_remap_addr st;
     mmu_control := mmu_control st; isize := isize st |}.

Definition set_Mode (st : ARMul_State) (v : Z) : ARMul_State :=
  {| Emulate := Emulate st; Reg := Reg st; RegBank := RegBank st; Cpsr := Cpsr st;
     Spsr := Spsr st; NFlag := NFlag st; ZFlag := ZFlag st; CFlag := CFlag st;
     VFlag := VFlag st; IFFlags := IFFlags st; SFlag := SFlag st; TFlag := TFlag st;
     Bank := Bank st; Mode := v; NumIcycles := NumIcycles st; NextInstr := NextInstr st;
     NtransSig := NtransSig st; abortSig := abortSig st; Aborted := Aborted st;
     AbortAddr := AbortAddr st; bigendSig := bigendSig st; prog32Sig := prog32Sig st;
     NresetSig := NresetSig st; NfiqSig := NfiqSig st; NirqSig := NirqSig st;
     is_v4 := is_v4 st; is_v5 := is_v5 st; is_v5e := is_v5e st; is_XScale := is_XScale st;
     vector_remap_flag := vector_remap_flag st; vector_remap_addr := vector_remap_addr st;
     mmu_control := mmu_control st; isize := isize st |}.

Definition set_NumIcycles (st : ARMul_State) (v : Z) : ARMul_State :=
  {| Emulate := Emulate st; Reg := Reg st; RegBank := RegBank st; Cpsr := Cpsr st;
     Spsr := Spsr st; NFlag := NFlag st; ZFlag := ZFlag st; CFlag := CFlag st;
     VFlag := VFlag st; IFFlags := IFFlags st; SFlag := SFlag st; TFlag := TFlag st;
     Bank := Bank st; Mode := Mode st; NumIcycles := v; NextInstr := NextInstr st;
     NtransSig := NtransSig st; abortSig := abortSig st; Aborted := Aborted st;
     AbortAddr := AbortAddr st; bigendSig := bigendSig st; prog32Sig := prog32Sig st;
     NresetSig := NresetSig st; NfiqSig := NfiqSig st; NirqSig := NirqSig st;
     is_v4 := is_v4 st; is_v5 := is_v5 st; is_v5e := is_v5e st; is_XScale := is_XScale st;
     vector_remap_flag := vector_remap_flag st; vector_remap_addr := vector_remap_addr st;
     mmu_control := mmu_control st; isize := isize st |}.

Definition set_NextInstr (st : ARMul_State) (v : Z) : ARMul_State :=
  {| Emulate := Emulate st; Reg := Reg st; RegBank := RegBank st; Cpsr := Cpsr st;
     Spsr := Spsr st; NFlag := NFlag st; ZFlag := ZFlag st; CFlag := CFlag st;
     VFlag := VFlag st; IFFlags := IFFlags st; SFlag := SFlag st; TFlag := TFlag st;
     Bank := Bank st; Mode := Mode st; NumIcycles := NumIcycles st; NextInstr := v;
     NtransSig := NtransSig st; abortSig := abortSig st; Aborted := Aborted st;
     AbortAddr := AbortAddr st; bigendSig := bigendSig st; prog32Sig := prog32Sig st;
     NresetSig := NresetSig st; NfiqSig := NfiqSig st; NirqSig := NirqSig st;
     is_v4 := is_v4 st; is_v5 := is_v5 st; is_v5e := is_v5e st; is_XScale := is_XScale st;
     vector_remap_flag := vector_remap_flag st; vector_remap_addr := vector_remap_addr st;
     mmu_control := mmu_control st; isize := isize st |}.

Definition set_NtransSig (st : ARMul_State) (v : Z) : ARMul_State :=
  {| Emulate := Emulate st; Reg := Reg st; RegBank := RegBank st; Cpsr := Cpsr st;
     Spsr := Spsr st; NFlag := NFlag st; ZFlag := ZFlag st; CFlag := CFlag st;
     VFlag := VFlag st; IFFlags := IFFlags st; SFlag := SFlag st; TFlag := TFlag st;
     Bank := Bank st; Mode := Mode st; NumIcycles := NumIcycles st;
     NextInstr := NextInstr st; NtransSig := v; abortSig := abortSig st;
     Aborted := Aborted st; AbortAddr := AbortAddr st; bigendSig := bigendSig st;
     prog32Sig := prog32Sig st; NresetSig := NresetSig st; NfiqSig := NfiqSig st;
     NirqSig := NirqSig st; is_v4 := is_v4 st; is_v5 := is_v5 st; is_v5e := is_v5e st;
     is_XScale := is_XScale st; vector_remap_flag := vector_remap_flag st;
     vector_remap_addr := vector_remap_addr st; mmu_control := mmu_control st;
     isize := isize st |}.

Definition set_abortSig (st : ARMul_State) (v : Z) : ARMul_State :=
  {| Emulate := Emulate st; Reg := Reg st; RegBank := RegBank st; Cpsr := Cpsr st;
     Spsr := Spsr st; NFlag := NFlag st; ZFlag := ZFlag st; CFlag := CFlag st;
     VFlag := VFlag st; IFFlags := IFFlags st; SFlag := SFlag st; TFlag := TFlag st;
     Bank := Bank st; Mode := Mode st; NumIcycles := NumIcycles st;
     NextInstr := NextInstr st; NtransSig := NtransSig st; abortSig := v;
     Aborted := Aborted st; AbortAddr := AbortAddr st; bigendSig := bigendSig st;
     prog32Sig := prog32Sig st; NresetSig := NresetSig st; NfiqSig := NfiqSig st;
     NirqSig := NirqSig st; is_v4 := is_v4 st; is_v5 := is_v5 st; is_v5e := is_v5e st;
     is_XScale := is_XScale st; vector_remap_flag := vector_remap_flag st;
     vector_remap_addr := vector_remap_addr st; mmu_control := mmu_control st;
     isize := isize st |}.

Definition set_Aborted (st : ARMul_State) (v : Z) : ARMul_State :=
  {| Emulate := Emulate st; Reg := Reg st; RegBank := RegBank st; Cpsr := Cpsr st;
     Spsr := Spsr st; NFlag := NFlag st; ZFlag := ZFlag st; CFlag := CFlag st;
     VFlag := VFlag st; IFFlags := IFFlags st; SFlag := SFlag st; TFlag := TFlag st;
     Bank := Bank st; Mode := Mode st; NumIcycles := NumIcycles st;
     NextInstr := NextInstr st; NtransSig := NtransSig st; abortSig := abortSig st;
     Aborted := v; AbortAddr := AbortAddr st; bigendSig := bigendSig st;
     prog32Sig := prog32Sig st; NresetSig := NresetSig st; NfiqSig := NfiqSig st;
     NirqSig := NirqSig st; is_v4 := is_v4 st; is_v5 := is_v5 st; is_v5e := is_v5e st;
     is_XScale := is_XScale st; vector_remap_flag := vector_remap_flag st;
     vector_remap_addr := vector_remap_addr st; mmu_control := mmu_control st;
     isize := isize st |}.

Definition set_AbortAddr (st : ARMul_State) (v : Z) : ARMul_State :=
  {| Emulate := Emulate st; Reg := Reg st; RegBank := RegBank st; Cpsr := Cpsr st;
     Spsr := Spsr st; NFlag := NFlag st; ZFlag := ZFlag st; CFlag := CFlag st;
     VFlag := VFlag st; IFFlags := IFFlags st; SFlag := SFlag st; TFlag := TFlag st;
     Bank := Bank st; Mode := Mode st; NumIcycles := NumIcycles st;
     NextInstr := NextInstr st; NtransSig := NtransSig st; abortSig := abortSig st;
     Aborted := Aborted st; AbortAddr := v; bigendSig := bigendSig st;
     prog32Sig := prog32Sig st; NresetSig := NresetSig st; NfiqSig := NfiqSig st;
     NirqSig := NirqSig st; is_v4 := is_v4 st; is_v5 := is_v5 st; is_v5e := is_v5e st;
     is_XScale := is_XScale st; vector_remap_flag := vector_remap_flag st;
     vector_remap_addr := vector_remap_addr st; mmu_control := mmu_control st;
     isize := isize st |}.

(** ** Macros *)

(** A C condition: anything but 0. *)
Definition c_true (z : Z) : bool := negb (z =? 0).

(** [a << n] in 32 bits. *)
Definition shl (a n : Z) : Z := u32 (Z.shiftl a n).

(** [BIT(n)] and [BITS(m, n)] of an instruction; the fields. *)
Definition BITS (instr m n : Z) : Z :=
  Z.shiftr (shl instr (31 - n)) (31 - n + m).
Definition BIT (instr n : Z) : bool := Z.testbit instr n.
Definition DESTReg (instr : Z) : Z := BITS instr 12 15.
Definition LHSReg (instr : Z) : Z := BITS instr 16 19.
Definition RHSReg (instr : Z) : Z := BITS instr 0 3.
Definition MULDESTReg (instr : Z) : Z := BITS instr 16 19.
Definition MULLHSReg (instr : Z) : Z := BITS instr 0 3.
Definition MULRHSReg (instr : Z) : Z := BITS instr 8 11.
Definition MULACCReg (instr : Z) : Z := BITS instr 12 15.

(** [POS(i)] and [NEG(i)]: the sign bit, as 0 or 1. *)
Definition POS (i : Z) : Z := Z.shiftr (u32 (Z.lnot i)) 31.
Definition NEG (i : Z) : Z := Z.shiftr i 31.

(** [state->Reg[i]]. *)
Definition reg (st : ARMul_State) (i : Z) : Z := nthZ (Reg st) i.
Definition set_reg (st : ARMul_State) (i v : Z) : ARMul_State :=
  set_Reg st (updZ (Reg st) i v).

(** [state->RegBank[b][i]], [state->Spsr[b]]. *)
Definition bank_row (st : ARMul_State) (b : Z) : list Z := nth (Z.to_nat b) (RegBank st) [].
Definition set_bank_row (st : ARMul_State) (b : Z) (row : list Z) : ARMul_State :=
  set_RegBank st (<[Z.to_nat b := row]> (RegBank st)).
Definition regbank (st : ARMul_State) (b i : Z) : Z := nthZ (bank_row st b) i.
Definition set_regbank (st : ARMul_State) (b i v : Z) : ARMul_State :=
  set_bank_row st b (updZ (bank_row st b) i v).
Definition spsr (st : ARMul_State) (b : Z) : Z := nthZ (Spsr st) b.
Definition set_spsr (st : ARMul_State) (b v : Z) : ARMul_State :=
  set_Spsr st (updZ (Spsr st) b v).

(** The condition flags, the interrupt masks and the mode as they sit in the
    status register, and the register itself. *)
Definition ECC (st : ARMul_State) : Z :=
  Z.lor (Z.lor (Z.lor (Z.lor (shl (NFlag st) 31) (shl (ZFlag st) 30)) (shl (CFlag st) 29))
           (shl (VFlag st) 28)) (shl (SFlag st) 27).
Definition EINT (st : ARMul_State) : Z := shl (IFFlags st) 6.
Definition ER15INT (st : ARMul_State) : Z := shl (IFFlags st) 26.
Definition EMODE (st : ARMul_State) : Z := Mode st.
Definition CPSR (st : ARMul_State) : Z :=
  Z.lor (Z.lor (Z.lor (ECC st) (EINT st)) (EMODE st)) (shl (TFlag st) 5).

(** The parts of a 26-bit register 15. *)
Definition R15PC (st : ARMul_State) : Z := Z.land (reg st 15) R15PCBITS.
Definition R15INT (st : ARMul_State) : Z := Z.land (reg st 15) R15INTBITS.
Definition R15MODE (st : ARMul_State) : Z := Z.land (reg st 15) R15MODEBITS.
Definition R15CCINTMODE (st : ARMul_State) : Z :=
  Z.land (reg st 15) (Z.lor (Z.lor CCBITS R15INTBITS) R15MODEBITS).

Definition ARMul_MODE32BIT (st : ARMul_State) : bool := 3 <? Mode st.
Definition ARMul_MODE26BIT (st : ARMul_State) : bool := Mode st <=? 3.
Definition BANK_CAN_ACCESS_SPSR (bank : Z) : bool :=
  negb (bank =? USERBANK) && negb (bank =? SYSTEMBANK) && negb (bank =? DUMMYBANK).
Definition INSN_SIZE (st : ARMul_State) : Z := if c_true (TFlag st) then 2 else 4.

Definition ASSIGNINT (st : ARMul_State) (res : Z) : ARMul_State :=
  set_IFFlags st (Z.land (Z.shiftr res 6) 3).
Definition ASSIGNR15INT (st : ARMul_State) (res : Z) : ARMul_State :=
  set_IFFlags st (Z.land (Z.shiftr res 26) 3).

(** [SETPSR_F(d, s)] and the others: the new value of [d]. *)
Definition SETPSR (bits d s : Z) : Z := Z.lor (Z.land d (Z.lnot bits)) (Z.land s bits).

Definition FLUSHPIPE (st : ARMul_State) : ARMul_State :=
  set_NextInstr st (Z.lor (NextInstr st) PRIMEPIPE).
Definition NORMALCYCLE (st : ARMul_State) : ARMul_State := set_NextInstr st 0.
Definition INCPC (st : ARMul_State) : ARMul_State :=
  let st := set_reg st 15 (u32 (reg st 15 + isize st)) in
  set_NextInstr st (Z.lor (NextInstr st) 2).

(** ARMul_ABORTWORD. *)
Definition ARMul_ABORTWORD (st : ARMul_State) : Z :=
  if c_true (TFlag st) then 0xefffdfff else 0xefffffff.
