(* ===== verification/ArmSupp.v ===== *)
(** * ARM support routines

    arch_arm/common/armsupp.c: the register banks, the status registers and the
    flags; [ARMul_Abort] of arminit.c and the tables it sets up; [ARMul_Icycles] of
    armvirt.c.  The co-processor transfers and the event list are not here. *)

From Stdlib Require Import ZArith Lia Bool.
From stdpp Require Import base numbers option list.
From S2P Require Import Prelude Words ArmState.

(** ** Register banks *)

Definition bankofmode : list Z :=
  [USERBANK; FIQBANK; IRQBANK; SVCBANK;
   DUMMYBANK; DUMMYBANK; DUMMYBANK; DUMMYBANK;
   DUMMYBANK; DUMMYBANK; DUMMYBANK; DUMMYBANK;
   DUMMYBANK; DUMMYBANK; DUMMYBANK; DUMMYBANK;
   USERBANK; FIQBANK; IRQBANK; SVCBANK;
   DUMMYBANK; DUMMYBANK; DUMMYBANK; ABORTBANK;
   DUMMYBANK; DUMMYBANK; DUMMYBANK; UNDEFBANK;
   DUMMYBANK; DUMMYBANK; DUMMYBANK; SYSTEMBANK].

Definition ModeToBank (mode : Z) : Z :=
  if 32 <=? mode then DUMMYBANK else nthZ bankofmode mode.

(** [for (; n > 0; i++, n--) l[i] = f(i);] *)
Fixpoint assign_regs (n : nat) (i : Z) (f : Z -> Z) (l : list Z) : list Z :=
  match n with
  | O => l
  | S n => assign_regs n (i + 1) f (updZ l i (f i))
  end.

(** The cases of both switches that share a body. *)
Definition ordinary_bank (bank : Z) : bool :=
  (bank =? USERBANK) || (bank =? IRQBANK) || (bank =? SVCBANK) || (bank =? ABORTBANK)
  || (bank =? UNDEFBANK).

(** The two halves of [ARMul_SwitchMode].  A bank comes from [ModeToBank], so
    the default case, [abort ()], is never reached ([ModeToBank_cases]) and the
    last branch is [case DUMMYBANK]. *)
Definition save_bank (st : ARMul_State) (oldbank newbank : Z) : ARMul_State :=
  if ordinary_bank oldbank then
    let st :=
      if newbank =? FIQBANK
      then set_bank_row st USERBANK (assign_regs 5 8 (reg st) (bank_row st USERBANK))
      else st in
    let st := set_regbank st oldbank 13 (reg st 13) in
    set_regbank st oldbank 14 (reg st 14)
  else if oldbank =? FIQBANK then
    set_bank_row st FIQBANK (assign_regs 7 8 (reg st) (bank_row st FIQBANK))
  else set_bank_row st DUMMYBANK (assign_regs 7 8 (fun _ => 0) (bank_row st DUMMYBANK)).

Definition load_bank (st : ARMul_State) (oldbank newbank : Z) : ARMul_State :=
  if ordinary_bank newbank then
    let st :=
      if oldbank =? FIQBANK
      then set_Reg st (assign_regs 5 8 (regbank st USERBANK) (Reg st)) else st in
    let st := set_reg st 13 (regbank st newbank 13) in
    set_reg st 14 (regbank st newbank 14)
  else if newbank =? FIQBANK then
    set_Reg st (assign_regs 7 8 (regbank st FIQBANK) (Reg st))
  else set_Reg st (assign_regs 7 8 (fun _ => 0) (Reg st)).

Definition ARMul_SwitchMode (st : ARMul_State) (oldmode newmode : Z) : Z * ARMul_State :=
  let oldbank := ModeToBank oldmode in
  let newbank := ModeToBank newmode in
  let st := set_Bank st newbank in
  let st :=
    if oldbank =? newbank then st
    else load_bank (save_bank st oldbank newbank) oldbank newbank in
  (newmode, st).

(** [register] is an index of the arrays only below 16. *)
Definition ARMul_GetReg (st : ARMul_State) (mode register : Z) : result Z :=
  let mode := Z.land mode MODEBITS in
  if register <? 16 then
    Val (if mode =? Mode st then reg st register else regbank st (ModeToBank mode) register)
  else Undef.

Definition ARMul_SetReg (st : ARMul_State) (mode register value : Z) : result ARMul_State :=
  let mode := Z.land mode MODEBITS in
  if register <? 16 then
    Val (if mode =? Mode st then set_reg st register value
         else set_regbank st (ModeToBank mode) register value)
  else Undef.

(** ** Status registers *)

Definition ARMul_GetCPSR (st : ARMul_State) : Z := CPSR st.

Definition flag_of (cpsr bits : Z) : Z := Z.b2z (c_true (Z.land cpsr bits)).

Definition ntrans_of (mode : Z) : Z := if c_true (Z.land mode 3) then 1 else 0.

Definition ARMul_CPSRAltered (st : ARMul_State) : ARMul_State :=
  let st :=
    if prog32Sig st =? 0
    then set_Cpsr st (Z.land (Cpsr st) (Z.lor (Z.lor CCBITS INTBITS) R15MODEBITS)) else st in
  let oldmode := Mode st in
  let st :=
    if Mode st =? Z.land (Cpsr st) MODEBITS then st
    else
      let (m, st) := ARMul_SwitchMode st (Mode st) (Z.land (Cpsr st) MODEBITS) in
      let st := set_Mode st m in
      set_NtransSig st (ntrans_of (Mode st)) in
  let st := ASSIGNINT st (Z.land (Cpsr st) INTBITS) in
  let st := set_NFlag st (flag_of (Cpsr st) NBIT) in
  let st := set_ZFlag st (flag_of (Cpsr st) ZBIT) in
  let st := set_CFlag st (flag_of (Cpsr st) CBIT) in
  let st := set_VFlag st (flag_of (Cpsr st) VBIT) in
  let st := set_SFlag st (flag_of (Cpsr st) SBIT) in
  let st := set_TFlag st (flag_of (Cpsr st) TBIT) in
  if SVC26MODE <? oldmode then
    if Mode st <=? SVC26MODE then
      let st := set_Emulate st CHANGEMODE in
      set_reg st 15 (Z.lor (Z.lor (Z.lor (ECC st) (ER15INT st)) (EMODE st)) (R15PC st))
    else st
  else if SVC26MODE <? Mode st then
    let st := set_Emulate st CHANGEMODE in set_reg st 15 (R15PC st)
  else set_reg st 15 (Z.lor (Z.lor (Z.lor (ECC st) (ER15INT st)) (EMODE st)) (R15PC st)).

Definition ARMul_SetCPSR (st : ARMul_State) (value : Z) : ARMul_State :=
  ARMul_CPSRAltered (set_Cpsr st value).

(** One field of a status register, when the bit of the instruction selects it. *)
Definition set_field (instr n bits d s : Z) : Z := if BIT instr n then SETPSR bits d s else d.

Definition ARMul_FixCPSR (st : ARMul_State) (instr rhs : Z) : ARMul_State :=
  let st := set_Cpsr st (ARMul_GetCPSR st) in
  let st :=
    if negb (Mode st =? USER26MODE) && negb (Mode st =? USER32MODE) then
      let d := set_field instr 16 PSR_CBITS (Cpsr st) rhs in
      let d := set_field instr 17 PSR_XBITS d rhs in
      let d := set_field instr 18 PSR_SBITS d rhs in
      set_Cpsr st d
    else st in
  let st := set_Cpsr st (set_field instr 19 PSR_FBITS (Cpsr st) rhs) in
  ARMul_CPSRAltered st.

Definition ARMul_GetSPSR (st : ARMul_State) (mode : Z) : Z :=
  let bank := ModeToBank (Z.land mode MODEBITS) in
  if BANK_CAN_ACCESS_SPSR bank then spsr st bank else ARMul_GetCPSR st.

Definition GETSPSR (st : ARMul_State) : Z := ARMul_GetSPSR st (EMODE st).

Definition ARMul_SetSPSR (st : ARMul_State) (mode value : Z) : ARMul_State :=
  let bank := ModeToBank (Z.land mode MODEBITS) in
  if BANK_CAN_ACCESS_SPSR bank then set_spsr st bank value else st.

Definition ARMul_FixSPSR (st : ARMul_State) (instr rhs : Z) : ARMul_State :=
  if BANK_CAN_ACCESS_SPSR (Bank st) then
    let d := set_field instr 16 PSR_CBITS (spsr st (Bank st)) rhs in
    let d := set_field instr 17 PSR_XBITS d rhs in
    let d := set_field instr 18 PSR_SBITS d rhs in
    set_spsr st (Bank st) (set_field instr 19 PSR_FBITS d rhs)
  else st.

(** ** Register 15 *)

Definition ARMul_GetPC (st : ARMul_State) : Z :=
  if SVC26MODE <? Mode st then reg st 15 else R15PC st.

Definition ARMul_GetNextPC (st : ARMul_State) : Z :=
  if SVC26MODE <? Mode st then u32 (reg st 15 + isize st)
  else Z.land (u32 (reg st 15 + isize st)) R15PCBITS.

Definition ARMul_SetPC (st : ARMul_State) (value : Z) : ARMul_State :=
  FLUSHPIPE
    (if ARMul_MODE32BIT st then set_reg st 15 (Z.land value PCBITS)
     else set_reg st 15 (Z.lor (R15CCINTMODE st) (Z.land value R15PCBITS))).

Definition ARMul_GetR15 (st : ARMul_State) : Z :=
  if SVC26MODE <? Mode st then reg st 15
  else Z.lor (Z.lor (Z.lor (R15PC st) (ECC st)) (ER15INT st)) (EMODE st).

Definition ARMul_R15Altered (st : ARMul_State) : ARMul_State :=
  let st :=
    if Mode st =? R15MODE st then st
    else
      let (m, st) := ARMul_SwitchMode st (Mode st) (R15MODE st) in
      let st := set_Mode st m in
      set_NtransSig st (ntrans_of (Mode st)) in
  let st := if SVC26MODE <? Mode st then set_Emulate st CHANGEMODE else st in
  let st := ASSIGNR15INT st (R15INT st) in
  let st := set_NFlag st (flag_of (reg st 15) NBIT) in
  let st := set_ZFlag st (flag_of (reg st 15) ZBIT) in
  let st := set_CFlag st (flag_of (reg st 15) CBIT) in
  set_VFlag st (flag_of (reg st 15) VBIT).

Definition ARMul_SetR15 (st : ARMul_State) (value : Z) : ARMul_State :=
  FLUSHPIPE
    (if ARMul_MODE32BIT st then set_reg st 15 (Z.land value PCBITS)
     else ARMul_R15Altered (set_reg st 15 value)).

(** ** Flags *)

Definition ARMul_NegZero (st : ARMul_State) (res : Z) : ARMul_State :=
  if c_true (NEG res) then set_ZFlag (set_NFlag st 1) 0
  else if res =? 0 then set_ZFlag (set_NFlag st 0) 1
  else set_ZFlag (set_NFlag st 0) 0.

Definition AddOverflow (a b res : Z) : Z :=
  Z.b2z (c_true (NEG a) && c_true (NEG b) && c_true (POS res)
         || c_true (POS a) && c_true (POS b) && c_true (NEG res)).

Definition SubOverflow (a b res : Z) : Z :=
  Z.b2z (c_true (NEG a) && c_true (POS b) && c_true (POS res)
         || c_true (POS a) && c_true (NEG b) && c_true (NEG res)).

Definition ARMul_AddCarry (st : ARMul_State) (a b res : Z) : ARMul_State :=
  set_CFlag st (Z.b2z (c_true (NEG a) && c_true (NEG b) || c_true (NEG a) && c_true (POS res)
                       || c_true (NEG b) && c_true (POS res))).

Definition ARMul_AddOverflow (st : ARMul_State) (a b res : Z) : ARMul_State :=
  set_VFlag st (AddOverflow a b res).

Definition ARMul_SubCarry (st : ARMul_State) (a b res : Z) : ARMul_State :=
  set_CFlag st (Z.b2z (c_true (NEG a) && c_true (POS b) || c_true (NEG a) && c_true (POS res)
                       || c_true (POS b) && c_true (POS res))).

Definition ARMul_SubOverflow (st : ARMul_State) (a b res : Z) : ARMul_State :=
  set_VFlag st (SubOverflow a b res).

(** ** Register lists and alignment *)

(** [for (bit = 0, upto = 0; upto <= number; bit++) if (BIT(bit)) upto++;]
    over the bits left; behind bit 31 the shift of [BIT] is undefined. *)
Fixpoint nth_reg (n : nat) (bit : Z) (instr upto number : Z) : result Z :=
  if number <? upto then Val (bit - 1)
  else match n with
       | O => Undef
       | S n => nth_reg n (bit + 1) instr (if BIT instr bit then upto + 1 else upto) number
       end.

Definition ARMul_NthReg (instr number : Z) : result Z := nth_reg 32 0 instr 0 number.

(** The shift by [32 - address] needs [address] not to be a multiple of 4. *)
Definition ARMul_Align (address data : Z) : result Z :=
  let address := Z.shiftl (Z.land address 3) 3 in
  if address =? 0 then Undef
  else Val (Z.lor (Z.shiftr data address) (shl data (32 - address))).

(** armvirt.c. *)
Definition ARMul_Icycles (st : ARMul_State) (number : Z) : ARMul_State :=
  set_abortSig (set_NumIcycles st (u32 (NumIcycles st + number))) 0.

(** ** Exceptions (arminit.c) *)

(** armos.c: the operating system takes no exception. *)
Definition ARMul_OSException : bool := false.

(** [SETABORT(i, m, d)]: [temp] is a local of [ARMul_Abort]. *)
Definition SETABORT (st : ARMul_State) (temp i m d : Z) : ARMul_State :=
  let st := ARMul_SetSPSR st m (ARMul_GetCPSR st) in
  let st :=
    ARMul_SetCPSR st
      (Z.lor (Z.lor (Z.land (ARMul_GetCPSR st) (Z.lnot (Z.lor (EMODE st) TBIT))) i) m) in
  set_reg st 14 (u32 (temp - d)).

(** The switch on the vector. *)
Definition abort_switch (st : ARMul_State) (vector temp : Z) : ARMul_State :=
  let isize := INSN_SIZE st in
  let esize := if c_true (TFlag st) then 0 else 4 in
  let e2size := if c_true (TFlag st) then -4 else 0 in
  let sig32 (m32 m26 : Z) := if c_true (prog32Sig st) then m32 else m26 in
  if vector =? ARMul_ResetV then SETABORT st temp INTBITS (sig32 SVC32MODE SVC26MODE) 0
  else if vector =? ARMul_UndefinedInstrV then
    SETABORT st temp IBIT (sig32 UNDEF32MODE SVC26MODE) isize
  else if vector =? ARMul_SWIV then SETABORT st temp IBIT (sig32 SVC32MODE SVC26MODE) isize
  else if vector =? ARMul_PrefetchAbortV then
    SETABORT (set_AbortAddr st 1) temp IBIT (sig32 ABORT32MODE SVC26MODE) esize
  else if vector =? ARMul_DataAbortV then
    SETABORT st temp IBIT (sig32 ABORT32MODE SVC26MODE) e2size
  else if vector =? ARMul_AddrExceptnV then SETABORT st temp IBIT SVC26MODE isize
  else if vector =? ARMul_IRQV then SETABORT st temp IBIT (sig32 IRQ32MODE IRQ26MODE) esize
  else if vector =? ARMul_FIQV then SETABORT st temp INTBITS (sig32 FIQ32MODE FIQ26MODE) esize
  else st.

Definition ARMul_Abort (st : ARMul_State) (vector : Z) : ARMul_State :=
  let st0 := set_Aborted st 0 in
  if ARMul_OSException then st0
  else
    let temp :=
      if c_true (prog32Sig st0) then
        if ARMul_MODE26BIT st0 then R15PC st0 else reg st0 15
      else Z.lor (Z.lor (Z.lor (R15PC st0) (ECC st0)) (ER15INT st0)) (EMODE st0) in
    let st := abort_switch st0 vector temp in
    if ARMul_MODE32BIT st then
      let vector :=
        if c_true (Z.land (mmu_control st) CONTROL_VECTOR) then u32 (vector + 0xffff0000)
        else vector in
      let vector :=
        if c_true (vector_remap_flag st) then u32 (vector + vector_remap_addr st)
        else vector in
      ARMul_SetR15 st vector
    else ARMul_SetR15 st (Z.lor (R15CCINTMODE st) vector).

Definition ARMul_UndefInstr (st : ARMul_State) : ARMul_State :=
  ARMul_Abort st ARMul_UndefinedInstrV.

Definition IFLAG (st : ARMul_State) : Z := Z.shiftr (IFFlags st) 1.
Definition FFLAG (st : ARMul_State) : Z := Z.land (IFFlags st) 1.

Definition IntPending (st : ARMul_State) : bool * ARMul_State :=
  if NresetSig st =? 0 then (true, ARMul_Abort st ARMul_ResetV)
  else if negb (c_true (NfiqSig st)) && negb (c_true (FFLAG st)) then
    (true, ARMul_Abort st ARMul_FIQV)
  else if negb (c_true (NirqSig st)) && negb (c_true (IFLAG st)) then
    (true, ARMul_Abort st ARMul_IRQV)
  else (false, st).

(** ** Tables (ARMul_EmulateInit, arminit.c) *)

(** [ROTATER(n, b)] on a 64-bit [long], stored in an [ARMword]. *)
Definition ROTATER (n b : Z) : Z := u32 (Z.lor (Z.shiftr n b) (u64 (Z.shiftl n (32 - b)))).

Definition ARMul_ImmedTable (i : Z) : Z :=
  ROTATER (Z.land i 0xff) (Z.land (Z.shiftr i 7) 0x1e).

(** One pass of the loop over [j]: entry [i] after the bits [j], [2 j], ... below
    256. *)
Fixpoint bitlist_from (n : nat) (j i count : Z) : Z :=
  match n with
  | O => count
  | S n => bitlist_from n (Z.shiftl j 1) i (if 0 <? Z.land i j then count + 1 else count)
  end.

Definition ARMul_BitList (i : Z) : Z := bitlist_from 8 1 i 0 * 4.

Definition ARMul_MultTable : list Z :=
  [1; 2; 2; 3; 3; 4; 4; 5; 5; 6; 6; 7; 7; 8; 8; 9; 9; 10; 10; 11; 11; 12; 12; 13; 13; 14;
   14; 15; 15; 16; 16; 16].
