(* ===== verification/ArmShift.v ===== *)
(** * Operands of the ARM data processing instructions

    arch_arm/common/armemu32.c: the second operand with its shift, the writes to
    register 15, the 64-bit products; the operand macros of armemu.h as they are
    with [MODE32] and [MODET]. *)

From Stdlib Require Import ZArith Lia Bool.
From stdpp Require Import base numbers option list.
From S2P Require Import Prelude Words ArmState ArmSupp.

Definition LSL : Z := 0.
Definition LSR : Z := 1.
Definition ASR : Z := 2.
Definition ROR : Z := 3.

(** [(ARMword) ((int) base >> n)]. *)
Definition asr (base n : Z) : Z := u32 (Z.shiftr (s32 base) n).

(** [(base << (32 - shamt)) | (base >> shamt)]. *)
Definition ror (base shamt : Z) : Z := Z.lor (shl base (32 - shamt)) (Z.shiftr base shamt).

(** The switches of [GetDPRegRHS] on a shift amount in a register and on a
    constant one; [GetLSRegRHS] has the second one too. *)
Definition shift_by_reg (ty base shamt : Z) : Z :=
  if ty =? LSL then
    if shamt =? 0 then base else if 32 <=? shamt then 0 else shl base shamt
  else if ty =? LSR then
    if shamt =? 0 then base else if 32 <=? shamt then 0 else Z.shiftr base shamt
  else if ty =? ASR then
    if shamt =? 0 then base else if 32 <=? shamt then asr base 31 else asr base shamt
  else
    let shamt := Z.land shamt 0x1f in
    if shamt =? 0 then base else ror base shamt.

Definition shift_by_imm (ty base shamt cflag : Z) : Z :=
  if ty =? LSL then shl base shamt
  else if ty =? LSR then if shamt =? 0 then 0 else Z.shiftr base shamt
  else if ty =? ASR then if shamt =? 0 then asr base 31 else asr base shamt
  else if shamt =? 0 then Z.lor (Z.shiftr base 1) (shl cflag 31)
  else ror base shamt.

Definition GetDPRegRHS (st : ARMul_State) (instr : Z) : Z * ARMul_State :=
  if BIT instr 4 then
    let st := INCPC st in
    let base := reg st (RHSReg instr) in
    let st := ARMul_Icycles st 1 in
    let shamt := Z.land (reg st (BITS instr 8 11)) 0xff in
    (shift_by_reg (BITS instr 5 6) base shamt, st)
  else
    let base := reg st (RHSReg instr) in
    (shift_by_imm (BITS instr 5 6) base (BITS instr 7 11) (CFlag st), st).

(** The same switches in [GetDPSRegRHS]: the value, and the new C flag if it is
    assigned. *)
Definition shift_by_reg_s (ty base shamt : Z) : Z * option Z :=
  if ty =? LSL then
    if shamt =? 0 then (base, None)
    else if shamt =? 32 then (0, Some (Z.land base 1))
    else if 32 <? shamt then (0, Some 0)
    else (shl base shamt, Some (Z.land (Z.shiftr base (32 - shamt)) 1))
  else if ty =? LSR then
    if shamt =? 0 then (base, None)
    else if shamt =? 32 then (0, Some (Z.shiftr base 31))
    else if 32 <? shamt then (0, Some 0)
    else (Z.shiftr base shamt, Some (Z.land (Z.shiftr base (shamt - 1)) 1))
  else if ty =? ASR then
    if shamt =? 0 then (base, None)
    else if 32 <=? shamt then (asr base 31, Some (Z.shiftr base 31))
    else (asr base shamt, Some (Z.land (asr base (shamt - 1)) 1))
  else if shamt =? 0 then (base, None)
  else
    let shamt := Z.land shamt 0x1f in
    if shamt =? 0 then (base, Some (Z.shiftr base 31))
    else (ror base shamt, Some (Z.land (Z.shiftr base (shamt - 1)) 1)).

(** [LSL] by the constant 0 shifts [base] by 32 for its flag. *)
Definition shift_by_imm_s (ty base shamt cflag : Z) : result (Z * option Z) :=
  if ty =? LSL then
    if shamt =? 0 then Undef
    else Val (shl base shamt, Some (Z.land (Z.shiftr base (32 - shamt)) 1))
  else if ty =? LSR then
    if shamt =? 0 then Val (0, Some (Z.shiftr base 31))
    else Val (Z.shiftr base shamt, Some (Z.land (Z.shiftr base (shamt - 1)) 1))
  else if ty =? ASR then
    if shamt =? 0 then Val (asr base 31, Some (Z.shiftr base 31))
    else Val (asr base shamt, Some (Z.land (asr base (shamt - 1)) 1))
  else if shamt =? 0 then
    Val (Z.lor (Z.shiftr base 1) (shl cflag 31), Some (Z.land base 1))
  else Val (ror base shamt, Some (Z.land (Z.shiftr base (shamt - 1)) 1)).

Definition assign_c (st : ARMul_State) (c : option Z) : ARMul_State :=
  match c with Some c => set_CFlag st c | None => st end.

Definition GetDPSRegRHS (st : ARMul_State) (instr : Z) : result (Z * ARMul_State) :=
  if BIT instr 4 then
    let st := INCPC st in
    let base := reg st (RHSReg instr) in
    let st := ARMul_Icycles st 1 in
    let shamt := Z.land (reg st (BITS instr 8 11)) 0xff in
    let (v, c) := shift_by_reg_s (BITS instr 5 6) base shamt in
    Val (v, assign_c st c)
  else
    let base := reg st (RHSReg instr) in
    let! (v, c) := shift_by_imm_s (BITS instr 5 6) base (BITS instr 7 11) (CFlag st) in
    Val (v, assign_c st c).

Definition GetLSRegRHS (st : ARMul_State) (instr : Z) : Z :=
  shift_by_imm (BITS instr 5 6) (reg st (RHSReg instr)) (BITS instr 7 11) (CFlag st).

Definition GetLS7RHS (st : ARMul_State) (instr : Z) : Z :=
  if BIT instr 22 then Z.lor (BITS instr 0 3) (shl (BITS instr 8 11) 4)
  else reg st (RHSReg instr).

(** ** Operand macros *)

Definition LHS (st : ARMul_State) (instr : Z) : Z :=
  if LHSReg instr =? 15 then Z.land (reg st 15) 0xfffffffc else reg st (LHSReg instr).

Definition DPRegRHS (st : ARMul_State) (instr : Z) : result (Z * ARMul_State) :=
  if BITS instr 4 11 =? 0 then Val (reg st (RHSReg instr), st)
  else Val (GetDPRegRHS st instr).

Definition DPSRegRHS (st : ARMul_State) (instr : Z) : result (Z * ARMul_State) :=
  if BITS instr 4 11 =? 0 then Val (reg st (RHSReg instr), st) else GetDPSRegRHS st instr.

Definition DPImmRHS (st : ARMul_State) (instr : Z) : result (Z * ARMul_State) :=
  Val (ARMul_ImmedTable (BITS instr 0 11), st).

Definition DPSImmRHS (st : ARMul_State) (instr : Z) : result (Z * ARMul_State) :=
  let temp := BITS instr 0 11 in
  let rhs := ARMul_ImmedTable temp in
  Val (rhs, if 255 <? temp then set_CFlag st (Z.shiftr rhs 31) else st).

(** ** Writes to register 15 *)

Definition WriteR15 (st : ARMul_State) (src : Z) : ARMul_State :=
  let src :=
    if c_true (TFlag st) then Z.land src 0xfffffffe else Z.land src 0xfffffffc in
  FLUSHPIPE (set_reg st 15 (Z.land src PCBITS_MODE32)).

Definition WriteSR15 (st : ARMul_State) (src : Z) : ARMul_State :=
  let st :=
    if 0 <? Bank st then ARMul_CPSRAltered (set_Cpsr st (spsr st (Bank st))) else st in
  let src :=
    if c_true (TFlag st) then Z.land src 0xfffffffe else Z.land src 0xfffffffc in
  FLUSHPIPE (set_reg st 15 (Z.land src PCBITS_MODE32)).

Definition WriteR15Branch (st : ARMul_State) (src : Z) : ARMul_State :=
  let st :=
    if c_true (Z.land src 1) then set_reg (set_TFlag st 1) 15 (Z.land src 0xfffffffe)
    else set_reg (set_TFlag st 0) 15 (Z.land src 0xfffffffc) in
  FLUSHPIPE (set_Cpsr st (ARMul_GetCPSR st)).

Definition WRITEDEST (st : ARMul_State) (instr d : Z) : ARMul_State :=
  if DESTReg instr =? 15 then WriteR15 st d else set_reg st (DESTReg instr) d.

Definition WRITESDEST (st : ARMul_State) (instr d : Z) : ARMul_State :=
  if DESTReg instr =? 15 then WriteSR15 st d
  else ARMul_NegZero (set_reg st (DESTReg instr) d) d.

(** ** 64-bit products *)

Definition Add32 (a1 a2 : Z) : Z * Z :=
  let res := u32 (a1 + a2) in
  (res, Z.b2z (if res =? a1 then negb (a2 =? 0) else res <? a1)).

(** The product of two words from four 16-bit ones: low and high word. *)
Definition mul64_parts (Rs Rm : Z) : Z * Z :=
  let lo := u32 (Z.land Rs 0xffff * Z.land Rm 0xffff) in
  let mid1 := u32 (Z.land Rs 0xffff * Z.land (Z.shiftr Rm 16) 0xffff) in
  let mid2 := u32 (Z.land (Z.shiftr Rs 16) 0xffff * Z.land Rm 0xffff) in
  let hi := u32 (Z.land (Z.shiftr Rs 16) 0xffff * Z.land (Z.shiftr Rm 16) 0xffff) in
  let (RdLo, carry) := Add32 lo (shl mid1 16) in
  let RdHi := carry in
  let (RdLo, carry) := Add32 RdLo (shl mid2 16) in
  (RdLo, u32 (RdHi + (carry + Z.land (Z.shiftr mid1 16) 0xffff
                      + Z.land (Z.shiftr mid2 16) 0xffff + hi))).

(** [RdLo = ~RdLo; RdHi = ~RdHi; ...] *)
Definition negate64 (RdLo RdHi : Z) : Z * Z :=
  let RdLo := u32 (Z.lnot RdLo) in
  let RdHi := u32 (Z.lnot RdHi) in
  if RdLo =? 0xffffffff then (0, u32 (RdHi + 1)) else (u32 (RdLo + 1), RdHi).

Definition mul64_scount (Rm : Z) : Z :=
  if Z.land Rm 0xffffff00 =? 0 then 1
  else if Z.land Rm 0xffff0000 =? 0 then 2
  else if Z.land Rm 0xff000000 =? 0 then 3 else 4.

(** The test for legal operand registers. *)
Definition mul64_legal (instr : Z) : bool :=
  let nRdHi := BITS instr 16 19 in
  let nRdLo := BITS instr 12 15 in
  let nRs := BITS instr 8 11 in
  let nRm := BITS instr 0 3 in
  negb (nRdHi =? 15) && negb (nRdLo =? 15) && negb (nRs =? 15) && negb (nRm =? 15)
  && negb (nRdHi =? nRdLo) && negb (nRdHi =? nRm) && negb (nRdLo =? nRm).

(** [if (((signed int) Rm) < 0) Rm = -Rm;] *)
Definition abs32 (r : Z) : Z := if s32 r <? 0 then u32 (- r) else r.

(** The cycle count, and the state. *)
Definition Multiply64 (st : ARMul_State) (instr : Z) (msigned scc : bool)
    : Z * ARMul_State :=
  let Rm := reg st (BITS instr 0 3) in
  let '(RdLo, RdHi, Rm, st) :=
    if mul64_legal instr then
      let Rs := reg st (BITS instr 8 11) in
      let sign := msigned && c_true (Z.land (Z.lxor Rm Rs) 0x80000000) in
      let Rm := if msigned then abs32 Rm else Rm in
      let Rs := if msigned then abs32 Rs else Rs in
      let (RdLo, RdHi) := mul64_parts Rs Rm in
      let (RdLo, RdHi) := if sign then negate64 RdLo RdHi else (RdLo, RdHi) in
      (RdLo, RdHi, Rm, set_reg (set_reg st (BITS instr 12 15) RdLo) (BITS instr 16 19) RdHi)
    else (0, 0, Rm, st) in
  let st :=
    if scc
    then ARMul_NegZero st (Z.lor (Z.lor RdHi (Z.shiftr RdLo 16)) (Z.land RdLo 0xffff))
    else st in
  let Rm :=
    if msigned && c_true (Z.land Rm 0x80000000) then u32 (Z.lnot Rm) else Rm in
  (2 + mul64_scount Rm, st).

Definition MultiplyAdd64 (st : ARMul_State) (instr : Z) (msigned scc : bool)
    : Z * ARMul_State :=
  let nRdHi := BITS instr 16 19 in
  let nRdLo := BITS instr 12 15 in
  let RdHi := reg st nRdHi in
  let RdLo := reg st nRdLo in
  let (scount, st) := Multiply64 st instr msigned false in
  let (RdLo, carry) := Add32 RdLo (reg st nRdLo) in
  let RdHi := u32 (u32 (RdHi + reg st nRdHi) + carry) in
  let st := set_reg (set_reg st nRdLo RdLo) nRdHi RdHi in
  let st :=
    if scc
    then ARMul_NegZero st (Z.lor (Z.lor RdHi (Z.shiftr RdLo 16)) (Z.land RdLo 0xffff))
    else st in
  (scount + 1, st).
