(* ===== verification/ArmExec.v ===== *)
(** * ARM data processing, multiplications, status transfers and branches

    The condition check and the main switch of [ARMul_Emulate32]
    (arch_arm/common/armemu32.c), one definition per case.  A case whose encoding
    belongs to a load, a store, a swap, a co-processor transfer or a breakpoint gives
    [None]: that part of the switch is not modelled. *)

From Stdlib Require Import ZArith Lia Bool.
From stdpp Require Import base numbers option list.
From S2P Require Import Prelude Words ArmState ArmSupp ArmShift.

(** What one case of the switch does; [None] is another part of the switch. *)
Definition step : Type := option (result ARMul_State).
Definition done_ (st : ARMul_State) : step := Some (Val st).

(** A second operand: its value and the state after its evaluation. *)
Definition operand : Type := ARMul_State -> Z -> result (Z * ARMul_State).

(** ** The bodies the cases share *)

(** [rhs = ...; dest = f (LHS, rhs); WRITEDEST (dest);] *)
Definition dp (rhs_of : operand) (f : ARMul_State -> Z -> Z -> Z) (st : ARMul_State)
    (instr : Z) : step :=
  Some (let! (rhs, st) := rhs_of st instr in
        Val (WRITEDEST st instr (u32 (f st (LHS st instr) rhs)))).

(** [rhs = ...; dest = f (LHS, rhs); WRITESDEST (dest);] *)
Definition dps (rhs_of : operand) (f : Z -> Z -> Z) (st : ARMul_State) (instr : Z) : step :=
  Some (let! (rhs, st) := rhs_of st instr in
        Val (WRITESDEST st instr (u32 (f (LHS st instr) rhs)))).

(** The flags of [a - b], [lhs] and [rhs] being [a] and [b] in either order. *)
Definition sub_flags (st : ARMul_State) (a b dest : Z) : ARMul_State :=
  if (b <=? a) || c_true (Z.shiftr (Z.lor b a) 31)
  then ARMul_SubOverflow (ARMul_SubCarry st a b dest) a b dest
  else set_VFlag (set_CFlag st 0) 0.

(** The flags of [a + b]. *)
Definition add_flags (st : ARMul_State) (a b dest : Z) : ARMul_State :=
  let st := set_ZFlag st (Z.b2z (dest =? 0)) in
  if c_true (Z.shiftr (Z.lor a b) 30) then
    let st := set_NFlag st (NEG dest) in
    ARMul_AddOverflow (ARMul_AddCarry st a b dest) a b dest
  else set_VFlag (set_CFlag (set_NFlag st 0) 0) 0.

(** The cases that subtract and set the flags: the left operand is evaluated
    before the right one. *)
Definition dps_sub (rhs_of : operand) (borrow : ARMul_State -> Z) (st : ARMul_State)
    (instr : Z) : step :=
  Some (let lhs := LHS st instr in
        let! (rhs, st) := rhs_of st instr in
        let dest := u32 (lhs - rhs - borrow st) in
        Val (WRITESDEST (sub_flags st lhs rhs dest) instr dest)).

Definition dps_rsb (rhs_of : operand) (borrow : ARMul_State -> Z) (st : ARMul_State)
    (instr : Z) : step :=
  Some (let lhs := LHS st instr in
        let! (rhs, st) := rhs_of st instr in
        let dest := u32 (rhs - lhs - borrow st) in
        Val (WRITESDEST (sub_flags st rhs lhs dest) instr dest)).

Definition dps_add (rhs_of : operand) (carry : ARMul_State -> Z) (st : ARMul_State)
    (instr : Z) : step :=
  Some (let lhs := LHS st instr in
        let! (rhs, st) := rhs_of st instr in
        let dest := u32 (lhs + rhs + carry st) in
        Val (WRITESDEST (add_flags st lhs rhs dest) instr dest)).

(** [!CFLAG]. *)
Definition not_c (st : ARMul_State) : Z := Z.b2z (CFlag st =? 0).
Definition no_carry (st : ARMul_State) : Z := 0.

(** [state->Cpsr = GETSPSR (state->Bank); ARMul_CPSRAltered (state);] *)
Definition restore_cpsr (st : ARMul_State) : ARMul_State :=
  ARMul_CPSRAltered (set_Cpsr st (GETSPSR st)).

(** TST and TEQ; CMP; CMN: only the flags, unless the destination is 15. *)
Definition dp_test (rhs_of : operand) (f : Z -> Z -> Z) (st : ARMul_State) (instr : Z)
    : step :=
  if DESTReg instr =? 15 then done_ (restore_cpsr st)
  else Some (let! (rhs, st) := rhs_of st instr in
             Val (ARMul_NegZero st (u32 (f (LHS st instr) rhs)))).

Definition dp_cmp (rhs_of : operand) (st : ARMul_State) (instr : Z) : step :=
  if DESTReg instr =? 15 then done_ (restore_cpsr st)
  else Some (let lhs := LHS st instr in
             let! (rhs, st) := rhs_of st instr in
             let dest := u32 (lhs - rhs) in
             Val (sub_flags (ARMul_NegZero st dest) lhs rhs dest)).

Definition dp_cmn (rhs_of : operand) (st : ARMul_State) (instr : Z) : step :=
  if DESTReg instr =? 15 then done_ (restore_cpsr st)
  else Some (let lhs := LHS st instr in
             let! (rhs, st) := rhs_of st instr in
             Val (add_flags st lhs rhs (u32 (lhs + rhs)))).

(** ** Multiplications *)

(** [for (dest = 0, temp = 0; dest < 32; dest++) if (rhs & (1L << dest)) temp = dest;] *)
Fixpoint highest_bit (n : nat) (dest temp rhs : Z) : Z :=
  match n with
  | O => temp
  | S n => highest_bit n (dest + 1) (if Z.testbit rhs dest then dest else temp) rhs
  end.

Definition mult_cycles (st : ARMul_State) (rhs : Z) : ARMul_State :=
  ARMul_Icycles st (nthZ ARMul_MultTable (highest_bit 32 0 0 rhs)).

(** MUL and MLA: [acc] is what is added, [equal] the result when the destination
    is the left operand. *)
Definition mul_body (acc equal : ARMul_State -> Z) (st : ARMul_State) (instr : Z) : step :=
  let rhs := reg st (MULRHSReg instr) in
  let st :=
    if MULLHSReg instr =? MULDESTReg instr then set_reg st (MULDESTReg instr) (equal st)
    else if negb (MULDESTReg instr =? 15) then
      set_reg st (MULDESTReg instr) (u32 (reg st (MULLHSReg instr) * rhs + acc st))
    else st in
  done_ (mult_cycles st rhs).

Definition muls_body (st : ARMul_State) (instr : Z) : step :=
  let rhs := reg st (MULRHSReg instr) in
  let st :=
    if MULLHSReg instr =? MULDESTReg instr then
      set_ZFlag (set_NFlag (set_reg st (MULDESTReg instr) 0) 0) 1
    else if negb (MULDESTReg instr =? 15) then
      let dest := u32 (reg st (MULLHSReg instr) * rhs) in
      set_reg (ARMul_NegZero st dest) (MULDESTReg instr) dest
    else st in
  done_ (mult_cycles st rhs).

Definition mlas_body (st : ARMul_State) (instr : Z) : step :=
  let rhs := reg st (MULRHSReg instr) in
  let st :=
    if MULLHSReg instr =? MULDESTReg instr then
      let dest := reg st (MULACCReg instr) in
      set_reg (ARMul_NegZero st dest) (MULDESTReg instr) dest
    else if negb (MULDESTReg instr =? 15) then
      let dest := u32 (reg st (MULLHSReg instr) * rhs + reg st (MULACCReg instr)) in
      set_reg (ARMul_NegZero st dest) (MULDESTReg instr) dest
    else st in
  done_ (mult_cycles st rhs).

(** [ARMul_Icycles (state, Multiply64 (...), 0L);] *)
Definition mull (mul : ARMul_State -> Z -> bool -> bool -> Z * ARMul_State)
    (msigned scc : bool) (st : ARMul_State) (instr : Z) : step :=
  let (n, st) := mul st instr msigned scc in done_ (ARMul_Icycles st n).

(** ** Tests for the encodings of the loads and stores *)

(** STRH with a register, and with an immediate offset. *)
Definition is_strh_reg (instr : Z) : bool := BITS instr 4 11 =? 0xB.
Definition is_strh_imm (instr : Z) : bool := BITS instr 4 7 =? 0xB.
(** Handle_Load_Double, Handle_Store_Double. *)
Definition is_double (instr : Z) : bool := (BITS instr 4 7 =? 0xD) || (BITS instr 4 7 =? 0xF).
(** The guards of the [LH...] macros, which leave the case unless bits 5 and 6
    are 0. *)
Definition is_ldrh_reg (instr : Z) : bool :=
  (Z.land (BITS instr 4 11) 0xF9 =? 0x9) && negb (BITS instr 5 6 =? 0).
Definition is_ldrh_imm (instr : Z) : bool :=
  (Z.land (BITS instr 4 7) 0x9 =? 0x9) && negb (BITS instr 5 6 =? 0).
Definition is_mul (instr : Z) : bool := BITS instr 4 7 =? 9.


(** ** Register operands: cases 0x00 to 0x1f *)

Definition case_00 (st : ARMul_State) (instr : Z) : step :=
  if is_strh_reg instr || is_double instr then None
  else if is_mul instr then mul_body (fun _ => 0) (fun _ => 0) st instr
  else dp DPRegRHS (fun _ a b => Z.land a b) st instr.

Definition case_01 (st : ARMul_State) (instr : Z) : step :=
  if is_ldrh_reg instr then None
  else if is_mul instr then muls_body st instr
  else dps DPSRegRHS Z.land st instr.

Definition case_02 (st : ARMul_State) (instr : Z) : step :=
  if is_strh_reg instr then None
  else if is_mul instr then
    let acc := fun st => reg st (MULACCReg instr) in mul_body acc acc st instr
  else dp DPRegRHS (fun _ a b => Z.lxor a b) st instr.

Definition case_03 (st : ARMul_State) (instr : Z) : step :=
  if is_ldrh_reg instr then None
  else if is_mul instr then mlas_body st instr
  else dps DPSRegRHS Z.lxor st instr.

Definition case_04 (st : ARMul_State) (instr : Z) : step :=
  if is_strh_imm instr || is_double instr then None
  else dp DPRegRHS (fun _ a b => a - b) st instr.

Definition case_05 (st : ARMul_State) (instr : Z) : step :=
  if is_ldrh_imm instr then None
  else dps_sub DPRegRHS no_carry st instr.

Definition case_06 (st : ARMul_State) (instr : Z) : step :=
  if is_strh_imm instr then None
  else dp DPRegRHS (fun _ a b => b - a) st instr.

Definition case_07 (st : ARMul_State) (instr : Z) : step :=
  if is_ldrh_imm instr then None
  else dps_rsb DPRegRHS no_carry st instr.

Definition case_08 (st : ARMul_State) (instr : Z) : step :=
  if is_strh_reg instr || is_double instr then None
  else if is_mul instr then mull Multiply64 false false st instr
  else dp DPRegRHS (fun _ a b => a + b) st instr.

Definition case_09 (st : ARMul_State) (instr : Z) : step :=
  if is_ldrh_reg instr then None
  else if is_mul instr then mull Multiply64 false true st instr
  else dps_add DPRegRHS no_carry st instr.

Definition case_0a (st : ARMul_State) (instr : Z) : step :=
  if is_strh_reg instr then None
  else if is_mul instr then mull MultiplyAdd64 false false st instr
  else dp DPRegRHS (fun st a b => a + b + CFlag st) st instr.

Definition case_0b (st : ARMul_State) (instr : Z) : step :=
  if is_ldrh_reg instr then None
  else if is_mul instr then mull MultiplyAdd64 false true st instr
  else dps_add DPRegRHS CFlag st instr.

Definition case_0c (st : ARMul_State) (instr : Z) : step :=
  if is_strh_imm instr || is_double instr then None
  else if is_mul instr then mull Multiply64 true false st instr
  else dp DPRegRHS (fun st a b => a - b - not_c st) st instr.

Definition case_0d (st : ARMul_State) (instr : Z) : step :=
  if is_ldrh_imm instr then None
  else if is_mul instr then mull Multiply64 true true st instr
  else dps_sub DPRegRHS not_c st instr.

Definition case_0e (st : ARMul_State) (instr : Z) : step :=
  if is_strh_imm instr then None
  else if is_mul instr then mull MultiplyAdd64 true false st instr
  else dp DPRegRHS (fun st a b => b - a - not_c st) st instr.

Definition case_0f (st : ARMul_State) (instr : Z) : step :=
  if is_ldrh_imm instr then None
  else if is_mul instr then mull MultiplyAdd64 true true st instr
  else dps_rsb DPRegRHS not_c st instr.

(** ** The miscellaneous instructions: cases 0x10, 0x12, 0x14 and 0x16 *)

(** The 16-bit operand of SMLAxy and the others: [if (BIT) op >>= 16; op &= 0xFFFF;
    if (op & 0x8000) op -= 65536;] on a [w]-bit unsigned type. *)
Definition half_operand (w : Z -> Z) (top : bool) (op : Z) : Z :=
  let op := if top then Z.shiftr op 16 else op in
  let op := Z.land op 0xffff in
  if c_true (Z.land op 0x8000) then w (op - 65536) else op.

(** [if (AddOverflow (a, b, result)) SETS;] *)
Definition sets_if (st : ARMul_State) (overflow : Z) : ARMul_State :=
  if c_true overflow then set_SFlag st 1 else st.

(** [POS (result) ? 0x80000000 : 0x7fffffff] *)
Definition saturated (res : Z) : Z := if c_true (POS res) then 0x80000000 else 0x7fffffff.
Definition saturate (overflow res : Z) : Z := if c_true overflow then saturated res else res.

Definition smla_xy (st : ARMul_State) (instr : Z) : ARMul_State :=
  let op1 := half_operand u32 (BIT instr 5) (reg st (BITS instr 0 3)) in
  let op2 := half_operand u32 (BIT instr 6) (reg st (BITS instr 8 11)) in
  let Rn := reg st (BITS instr 12 15) in
  let op1 := u32 (op1 * op2) in
  let st := sets_if st (AddOverflow op1 Rn (u32 (op1 + Rn))) in
  set_reg st (BITS instr 16 19) (u32 (op1 + Rn)).

Definition qadd (st : ARMul_State) (instr : Z) : ARMul_State :=
  let op1 := reg st (BITS instr 0 3) in
  let op2 := reg st (BITS instr 16 19) in
  let res := u32 (op1 + op2) in
  let v := AddOverflow op1 op2 res in
  set_reg (sets_if st v) (BITS instr 12 15) (saturate v res).

Definition qsub (st : ARMul_State) (instr : Z) : ARMul_State :=
  let op1 := reg st (BITS instr 0 3) in
  let op2 := reg st (BITS instr 16 19) in
  let res := u32 (op1 - op2) in
  let v := SubOverflow op1 op2 res in
  set_reg (sets_if st v) (BITS instr 12 15) (saturate v res).

Definition qdadd (st : ARMul_State) (instr : Z) : ARMul_State :=
  let op1 := reg st (BITS instr 0 3) in
  let op2 := reg st (BITS instr 16 19) in
  let op2d := u32 (op2 + op2) in
  let v2 := AddOverflow op2 op2 op2d in
  let st := sets_if st v2 in
  let op2d := saturate v2 op2d in
  let res := u32 (op1 + op2d) in
  let v := AddOverflow op1 op2d res in
  set_reg (sets_if st v) (BITS instr 12 15) (saturate v res).

Definition qdsub (st : ARMul_State) (instr : Z) : ARMul_State :=
  let op1 := reg st (BITS instr 0 3) in
  let op2 := reg st (BITS instr 16 19) in
  let op2d := u32 (op2 + op2) in
  let v2 := AddOverflow op2 op2 op2d in
  let st := sets_if st v2 in
  let op2d := saturate v2 op2d in
  let res := u32 (op1 - op2d) in
  let v := SubOverflow op1 op2d res in
  set_reg (sets_if st v) (BITS instr 12 15) (saturate v res).

(** SMLAWy and SMULWy, on 64-bit unsigned integers. *)
Definition smlaw_y (st : ARMul_State) (instr : Z) : ARMul_State :=
  let op1 := reg st (BITS instr 0 3) in
  let op1 := if c_true (Z.land op1 0x80000000) then u64 (op1 - 4294967296) else op1 in
  let op2 := half_operand u64 (BIT instr 6) (reg st (BITS instr 8 11)) in
  let res := Z.shiftr (u64 (op1 * op2)) 16 in
  if BIT instr 5 then set_reg st (BITS instr 16 19) (u32 res)
  else
    let Rn := reg st (BITS instr 12 15) in
    let st := sets_if st (AddOverflow (u32 res) Rn (u32 (res + Rn))) in
    set_reg st (BITS instr 16 19) (u32 (res + Rn)).

Definition smlal_xy (st : ARMul_State) (instr : Z) : ARMul_State :=
  let op1 := half_operand u64 (BIT instr 5) (reg st (BITS instr 0 3)) in
  let op2 := half_operand u64 (BIT instr 6) (reg st (BITS instr 8 11)) in
  let dest := Z.lor (u64 (Z.shiftl (reg st (BITS instr 16 19)) 32)) (reg st (BITS instr 12 15)) in
  let dest := u64 (dest + u64 (op1 * op2)) in
  let st := set_reg st (BITS instr 12 15) (u32 dest) in
  set_reg st (BITS instr 16 19) (u32 (Z.shiftr dest 32)).

Definition smul_xy (st : ARMul_State) (instr : Z) : ARMul_State :=
  let op1 := half_operand u32 (BIT instr 5) (reg st (BITS instr 0 3)) in
  let op2 := half_operand u32 (BIT instr 6) (reg st (BITS instr 8 11)) in
  set_reg st (BITS instr 16 19) (u32 (op1 * op2)).

(** [for (result = 0; (op1 & 0x80000000) == 0; op1 <<= 1) result++;] with the
    number of iterations left; a word that is not 0 needs at most 31
    ([clz_correct]). *)
Fixpoint clz_loop (n : nat) (op1 res : Z) : Z :=
  if Z.land op1 0x80000000 =? 0 then
    match n with O => res | S n => clz_loop n (shl op1 1) (res + 1) end
  else res.

Definition clz (op1 : Z) : Z := if c_true op1 then clz_loop 32 op1 0 else 32.

(** TST reg does nothing here; MRS CPSR; the DSP instructions. *)
Definition case_10 (st : ARMul_State) (instr : Z) : step :=
  if c_true (is_v5e st) && negb (BIT instr 4) && BIT instr 7 then done_ (smla_xy st instr)
  else if c_true (is_v5e st) && (BITS instr 4 11 =? 5) then done_ (qadd st instr)
  else if is_strh_reg instr || is_double instr then None
  else if BITS instr 4 11 =? 9 then None
  else if (BITS instr 0 11 =? 0) && (LHSReg instr =? 15) then
    done_ (set_reg st (DESTReg instr) (Z.lor (Z.lor (ECC st) (EINT st)) (EMODE st)))
  else done_ st.

(** BLX(2), BX and MSR CPSR; BKPT is not modelled. *)
Definition case_12 (st : ARMul_State) (instr pc : Z) : step :=
  if c_true (is_v5 st) && (BITS instr 4 7 =? 3) then
    let temp := if c_true (TFlag st) then Z.lor (u32 (pc + 2)) 1 else u32 (pc + 4) in
    done_ (set_reg (WriteR15Branch st (reg st (RHSReg instr))) 14 temp)
  else if c_true (is_v5e st) && negb (BIT instr 4) && BIT instr 7
          && (negb (BIT instr 5) || (BITS instr 12 15 =? 0)) then done_ (smlaw_y st instr)
  else if c_true (is_v5e st) && (BITS instr 4 11 =? 5) then done_ (qsub st instr)
  else if is_strh_reg instr then None
  else if BITS instr 4 27 =? 0x12FFF1 then
    done_ (WriteR15Branch st (reg st (RHSReg instr)))
  else if is_double instr then None
  else if c_true (is_v5 st) && (BITS instr 4 7 =? 7) then None
  else if DESTReg instr =? 15 then
    Some (let! (temp, st) := DPRegRHS st instr in
          Val (ARMul_FixCPSR st instr (Z.land temp (Z.lnot TBIT))))
  else done_ st.

(** MRS SPSR. *)
Definition case_14 (st : ARMul_State) (instr : Z) : step :=
  if c_true (is_v5e st) && negb (BIT instr 4) && BIT instr 7 then done_ (smlal_xy st instr)
  else if c_true (is_v5e st) && (BITS instr 4 11 =? 5) then done_ (qdadd st instr)
  else if is_strh_imm instr || is_double instr then None
  else if BITS instr 4 11 =? 9 then None
  else if (BITS instr 0 11 =? 0) && (LHSReg instr =? 15) then
    done_ (set_reg st (DESTReg instr) (GETSPSR st))
  else done_ st.

(** CLZ and MSR SPSR. *)
Definition case_16 (st : ARMul_State) (instr : Z) : step :=
  if c_true (is_v5e st) && negb (BIT instr 4) && BIT instr 7 && (BITS instr 12 15 =? 0) then
    done_ (smul_xy st instr)
  else if c_true (is_v5e st) && (BITS instr 4 11 =? 5) then done_ (qdsub st instr)
  else if c_true (is_v5 st) && (BITS instr 4 11 =? 0xF1) && (BITS instr 16 19 =? 0xF) then
    done_ (set_reg st (BITS instr 12 15) (clz (reg st (BITS instr 0 3))))
  else if is_strh_imm instr || is_double instr then None
  else if DESTReg instr =? 15 then
    Some (let! (rhs, st) := DPRegRHS st instr in Val (ARMul_FixSPSR st instr rhs))
  else done_ st.

Definition case_11 (st : ARMul_State) (instr : Z) : step :=
  if is_ldrh_reg instr then None
  else dp_test DPSRegRHS Z.land st instr.

Definition case_13 (st : ARMul_State) (instr : Z) : step :=
  if is_ldrh_reg instr then None
  else dp_test DPSRegRHS Z.lxor st instr.

Definition case_15 (st : ARMul_State) (instr : Z) : step :=
  if is_ldrh_imm instr then None
  else dp_cmp DPRegRHS st instr.

Definition case_17 (st : ARMul_State) (instr : Z) : step :=
  if is_ldrh_imm instr then None
  else dp_cmn DPRegRHS st instr.

Definition case_18 (st : ARMul_State) (instr : Z) : step :=
  if is_strh_reg instr || is_double instr then None
  else dp DPRegRHS (fun _ a b => Z.lor a b) st instr.

Definition case_19 (st : ARMul_State) (instr : Z) : step :=
  if is_ldrh_reg instr then None
  else dps DPSRegRHS Z.lor st instr.

Definition case_1a (st : ARMul_State) (instr : Z) : step :=
  if is_strh_reg instr || is_double instr then None
  else dp DPRegRHS (fun _ _ b => b) st instr.

Definition case_1b (st : ARMul_State) (instr : Z) : step :=
  if is_ldrh_reg instr then None
  else dps DPSRegRHS (fun _ b => b) st instr.

Definition case_1c (st : ARMul_State) (instr : Z) : step :=
  if is_strh_imm instr || is_double instr then None
  else dp DPRegRHS (fun _ a b => Z.land a (u32 (Z.lnot b))) st instr.

Definition case_1d (st : ARMul_State) (instr : Z) : step :=
  if is_ldrh_imm instr then None
  else dps DPSRegRHS (fun a b => Z.land a (u32 (Z.lnot b))) st instr.

Definition case_1e (st : ARMul_State) (instr : Z) : step :=
  if is_strh_imm instr || is_double instr then None
  else dp DPRegRHS (fun _ _ b => Z.lnot b) st instr.

Definition case_1f (st : ARMul_State) (instr : Z) : step :=
  if is_ldrh_imm instr then None
  else dps DPSRegRHS (fun _ b => Z.lnot b) st instr.

(** ** Immediate operands: cases 0x20 to 0x3f *)

Definition case_20 (st : ARMul_State) (instr : Z) : step :=
  dp DPImmRHS (fun _ a b => Z.land a b) st instr.

Definition case_21 (st : ARMul_State) (instr : Z) : step :=
  dps DPSImmRHS Z.land st instr.

Definition case_22 (st : ARMul_State) (instr : Z) : step :=
  dp DPImmRHS (fun _ a b => Z.lxor a b) st instr.

Definition case_23 (st : ARMul_State) (instr : Z) : step :=
  dps DPSImmRHS Z.lxor st instr.

Definition case_24 (st : ARMul_State) (instr : Z) : step :=
  dp DPImmRHS (fun _ a b => a - b) st instr.

Definition case_25 (st : ARMul_State) (instr : Z) : step :=
  dps_sub DPImmRHS no_carry st instr.

Definition case_26 (st : ARMul_State) (instr : Z) : step :=
  dp DPImmRHS (fun _ a b => b - a) st instr.

Definition case_27 (st : ARMul_State) (instr : Z) : step :=
  dps_rsb DPImmRHS no_carry st instr.

Definition case_28 (st : ARMul_State) (instr : Z) : step :=
  dp DPImmRHS (fun _ a b => a + b) st instr.

Definition case_29 (st : ARMul_State) (instr : Z) : step :=
  dps_add DPImmRHS no_carry st instr.

Definition case_2a (st : ARMul_State) (instr : Z) : step :=
  dp DPImmRHS (fun st a b => a + b + CFlag st) st instr.

Definition case_2b (st : ARMul_State) (instr : Z) : step :=
  dps_add DPImmRHS CFlag st instr.

Definition case_2c (st : ARMul_State) (instr : Z) : step :=
  dp DPImmRHS (fun st a b => a - b - not_c st) st instr.

Definition case_2d (st : ARMul_State) (instr : Z) : step :=
  dps_sub DPImmRHS not_c st instr.

Definition case_2e (st : ARMul_State) (instr : Z) : step :=
  dp DPImmRHS (fun st a b => b - a - not_c st) st instr.

Definition case_2f (st : ARMul_State) (instr : Z) : step :=
  dps_rsb DPImmRHS not_c st instr.

Definition case_30 (st : ARMul_State) (instr : Z) : step :=
  done_ st.

Definition case_31 (st : ARMul_State) (instr : Z) : step :=
  dp_test DPSImmRHS Z.land st instr.

Definition case_32 (st : ARMul_State) (instr : Z) : step :=
  if DESTReg instr =? 15 then
    Some (let! (rhs, st) := DPImmRHS st instr in Val (ARMul_FixCPSR st instr rhs))
  else done_ st.

Definition case_33 (st : ARMul_State) (instr : Z) : step :=
  dp_test DPSImmRHS Z.lxor st instr.

Definition case_34 (st : ARMul_State) (instr : Z) : step :=
  done_ st.

Definition case_35 (st : ARMul_State) (instr : Z) : step :=
  dp_cmp DPImmRHS st instr.

Definition case_36 (st : ARMul_State) (instr : Z) : step :=
  if DESTReg instr =? 15 then
    Some (let! (rhs, st) := DPImmRHS st instr in Val (ARMul_FixSPSR st instr rhs))
  else done_ st.

Definition case_37 (st : ARMul_State) (instr : Z) : step :=
  dp_cmn DPImmRHS st instr.

Definition case_38 (st : ARMul_State) (instr : Z) : step :=
  dp DPImmRHS (fun _ a b => Z.lor a b) st instr.

Definition case_39 (st : ARMul_State) (instr : Z) : step :=
  dps DPSImmRHS Z.lor st instr.

Definition case_3a (st : ARMul_State) (instr : Z) : step :=
  dp DPImmRHS (fun _ _ b => b) st instr.

Definition case_3b (st : ARMul_State) (instr : Z) : step :=
  dps DPSImmRHS (fun _ b => b) st instr.

Definition case_3c (st : ARMul_State) (instr : Z) : step :=
  dp DPImmRHS (fun _ a b => Z.land a (u32 (Z.lnot b))) st instr.

Definition case_3d (st : ARMul_State) (instr : Z) : step :=
  dps DPSImmRHS (fun a b => Z.land a (u32 (Z.lnot b))) st instr.

Definition case_3e (st : ARMul_State) (instr : Z) : step :=
  dp DPImmRHS (fun _ _ b => Z.lnot b) st instr.

Definition case_3f (st : ARMul_State) (instr : Z) : step :=
  dps DPSImmRHS (fun _ b => Z.lnot b) st instr.

(** ** Branches and SWI *)

Definition POSBRANCH (instr : Z) : Z := shl (Z.land instr 0x7fffff) 2.
Definition NEGBRANCH (instr : Z) : Z := shl (Z.lor 0xff000000 (Z.land instr 0xffffff)) 2.

(** Cases 0xa0 to 0xaf, and 0xb0 to 0xbf. *)
Definition branch_offset (instr : Z) : Z :=
  if BIT instr 23 then NEGBRANCH instr else POSBRANCH instr.

Definition arm_b (st : ARMul_State) (instr pc : Z) : step :=
  done_ (FLUSHPIPE (set_reg st 15 (u32 (pc + 8 + branch_offset instr)))).

Definition arm_bl (st : ARMul_State) (instr pc : Z) : step :=
  let st := set_reg st 14 (u32 (pc + 4)) in
  done_ (FLUSHPIPE (set_reg st 15 (u32 (pc + 8 + branch_offset instr)))).

(** Cases 0xf0 to 0xff; the prefetch abort also writes co-processor 15. *)
Definition arm_swi (st : ARMul_State) (instr pc : Z) : step :=
  if (instr =? ARMul_ABORTWORD st) && (AbortAddr st =? pc) then None
  else done_ (ARMul_Abort st ARMul_SWIV).

(** ** The main switch *)

Definition xscale_double (st : ARMul_State) (instr : Z) : bool :=
  c_true (is_XScale st) && negb (BIT instr 20) && (BITS instr 25 27 =? 0) && is_double instr.

Definition dp_switch (k : Z) (st : ARMul_State) (instr pc : Z) : step :=
  if k =? 0x00 then case_00 st instr
  else if k =? 0x01 then case_01 st instr
  else if k =? 0x02 then case_02 st instr
  else if k =? 0x03 then case_03 st instr
  else if k =? 0x04 then case_04 st instr
  else if k =? 0x05 then case_05 st instr
  else if k =? 0x06 then case_06 st instr
  else if k =? 0x07 then case_07 st instr
  else if k =? 0x08 then case_08 st instr
  else if k =? 0x09 then case_09 st instr
  else if k =? 0x0a then case_0a st instr
  else if k =? 0x0b then case_0b st instr
  else if k =? 0x0c then case_0c st instr
  else if k =? 0x0d then case_0d st instr
  else if k =? 0x0e then case_0e st instr
  else if k =? 0x0f then case_0f st instr
  else if k =? 0x10 then case_10 st instr
  else if k =? 0x11 then case_11 st instr
  else if k =? 0x12 then case_12 st instr pc
  else if k =? 0x13 then case_13 st instr
  else if k =? 0x14 then case_14 st instr
  else if k =? 0x15 then case_15 st instr
  else if k =? 0x16 then case_16 st instr
  else if k =? 0x17 then case_17 st instr
  else if k =? 0x18 then case_18 st instr
  else if k =? 0x19 then case_19 st instr
  else if k =? 0x1a then case_1a st instr
  else if k =? 0x1b then case_1b st instr
  else if k =? 0x1c then case_1c st instr
  else if k =? 0x1d then case_1d st instr
  else if k =? 0x1e then case_1e st instr
  else if k =? 0x1f then case_1f st instr
  else if k =? 0x20 then case_20 st instr
  else if k =? 0x21 then case_21 st instr
  else if k =? 0x22 then case_22 st instr
  else if k =? 0x23 then case_23 st instr
  else if k =? 0x24 then case_24 st instr
  else if k =? 0x25 then case_25 st instr
  else if k =? 0x26 then case_26 st instr
  else if k =? 0x27 then case_27 st instr
  else if k =? 0x28 then case_28 st instr
  else if k =? 0x29 then case_29 st instr
  else if k =? 0x2a then case_2a st instr
  else if k =? 0x2b then case_2b st instr
  else if k =? 0x2c then case_2c st instr
  else if k =? 0x2d then case_2d st instr
  else if k =? 0x2e then case_2e st instr
  else if k =? 0x2f then case_2f st instr
  else if k =? 0x30 then case_30 st instr
  else if k =? 0x31 then case_31 st instr
  else if k =? 0x32 then case_32 st instr
  else if k =? 0x33 then case_33 st instr
  else if k =? 0x34 then case_34 st instr
  else if k =? 0x35 then case_35 st instr
  else if k =? 0x36 then case_36 st instr
  else if k =? 0x37 then case_37 st instr
  else if k =? 0x38 then case_38 st instr
  else if k =? 0x39 then case_39 st instr
  else if k =? 0x3a then case_3a st instr
  else if k =? 0x3b then case_3b st instr
  else if k =? 0x3c then case_3c st instr
  else if k =? 0x3d then case_3d st instr
  else if k =? 0x3e then case_3e st instr
  else if k =? 0x3f then case_3f st instr
  else None.

Definition mainswitch (st : ARMul_State) (instr pc : Z) : step :=
  let k := BITS instr 20 27 in
  if xscale_double st instr then None
  else if k <? 0x40 then dp_switch k st instr pc
  else if (0xa0 <=? k) && (k <? 0xb0) then arm_b st instr pc
  else if (0xb0 <=? k) && (k <? 0xc0) then arm_bl st instr pc
  else if 0xf0 <=? k then arm_swi st instr pc
  else None.

(** ** The condition check *)

(** The condition as a C integer; [NV] is apart. *)
Definition cc_true (st : ARMul_State) (cc : Z) : bool :=
  let n := c_true (NFlag st) in
  let z := c_true (ZFlag st) in
  let c := c_true (CFlag st) in
  let v := c_true (VFlag st) in
  if cc =? cond_EQ then z
  else if cc =? cond_NE then negb z
  else if cc =? cond_VS then v
  else if cc =? cond_VC then negb v
  else if cc =? cond_MI then n
  else if cc =? cond_PL then negb n
  else if cc =? cond_CS then c
  else if cc =? cond_CC then negb c
  else if cc =? cond_HI then c && negb z
  else if cc =? cond_LS then negb c || z
  else if cc =? cond_GE then negb n && negb v || n && v
  else if cc =? cond_LT then n && negb v || negb n && v
  else if cc =? cond_GT then negb n && negb v && negb z || n && v && negb z
  else if cc =? cond_LE then (n && negb v || negb n && v) || z
  else cc =? cond_AL.

(** BLX(1). *)
Definition arm_blx1 (st : ARMul_State) (instr pc : Z) : ARMul_State :=
  let st := set_reg st 14 (u32 (pc + 4)) in
  let h := shl (Z.b2z (BIT instr 24)) 1 in
  WriteR15Branch st (u32 (u32 (pc + 8 + 1) + u32 (branch_offset instr + h))).

(** The condition [NV]. *)
Definition arm_nv (st : ARMul_State) (instr pc : Z) : step :=
  if c_true (is_v5 st) then
    if BITS instr 25 27 =? 5 then done_ (arm_blx1 st instr pc)
    else if Z.land instr 0xFC70F000 =? 0xF450F000 then done_ st
    else if (Z.land instr 0xfe500f00 =? 0xfc100100) || (Z.land instr 0xfe500f00 =? 0xfc000100)
    then mainswitch st instr pc
    else done_ (ARMul_UndefInstr st)
  else done_ st.

(** One ARM instruction, from the condition check to [donext]. *)
Definition arm_execute (st : ARMul_State) (instr pc : Z) : step :=
  let cc := Z.shiftr instr 28 in
  if cc =? cond_NV then arm_nv st instr pc
  else if cc_true st cc then mainswitch st instr pc
  else done_ st.
