(* ===== verification/Thumb.v ===== *)
(** * The Thumb decoder

    [ARMul_ThumbDecode] (arch_arm/common/thumbemu.c): a Thumb instruction becomes
    the ARM instruction that does the same, or is executed here when it is a
    branch.  One definition per format. *)

From Stdlib Require Import ZArith Lia Bool.
From stdpp Require Import base numbers option list.
From S2P Require Import Prelude Words ArmState ArmSupp ArmShift ArmExec.

(** [tdstate]. *)
Inductive tdstate : Type := t_undefined | t_decoded | t_branch.

#[export] Instance tdstate_eq_dec : EqDecision tdstate.
Proof. solve_decision. Defined.

(** [switch] on a subset table. *)
Definition pick (subset : list Z) (i : Z) : Z := nthZ subset i.

Notation "a .| b" := (Z.lor a b) (at level 50, left associativity) : c_scope.
Notation "a .& b" := (Z.land a b) (at level 40, left associativity) : c_scope.
Notation "a .>> n" := (Z.shiftr a n) (at level 39, left associativity) : c_scope.
Notation "a .<< n" := (Z.shiftl a n) (at level 39, left associativity) : c_scope.

(** Formats 1 to 3: shifts, additions and immediates.  The shifts of the fields
    stay below 32 bits. *)
Definition thumb_shift (t : Z) : Z :=
  0xE1B00000 .| ((t .& 0x1800) .>> (11 - 5)) .| ((t .& 0x07C0) .<< (7 - 6))
  .| ((t .& 0x0038) .>> 3) .| ((t .& 0x0007) .<< 12).

Definition thumb_add_sub (t : Z) : Z :=
  pick [0xE0900000; 0xE0500000; 0xE2900000; 0xE2500000] ((t .& 0x0600) .>> 9)
  .| ((t .& 0x01C0) .>> 6) .| ((t .& 0x0038) .<< (16 - 3)) .| ((t .& 0x0007) .<< 12).

Definition thumb_imm8 (t : Z) : Z :=
  pick [0xE3B00000; 0xE3500000; 0xE2900000; 0xE2500000] ((t .& 0x1800) .>> 11)
  .| (t .& 0x00FF) .| ((t .& 0x0700) .<< (16 - 8)) .| ((t .& 0x0700) .<< (12 - 8)).

(** Format 4: the ALU operations, each with the way its operands are placed. *)
Inductive otype : Type := t_norm | t_shift | t_neg | t_mul.

Definition alu_subset : list (Z * otype) :=
  [(0xE0100000, t_norm); (0xE0300000, t_norm); (0xE1B00010, t_shift); (0xE1B00030, t_shift);
   (0xE1B00050, t_shift); (0xE0B00000, t_norm); (0xE0D00000, t_norm); (0xE1B00070, t_shift);
   (0xE1100000, t_norm); (0xE2700000, t_neg); (0xE1500000, t_norm); (0xE1700000, t_norm);
   (0xE1900000, t_norm); (0xE0100090, t_mul); (0xE1D00000, t_norm); (0xE1F00000, t_norm)].

Definition thumb_alu (t : Z) : Z :=
  let (opcode, ty) := nth (Z.to_nat ((t .& 0x03C0) .>> 6)) alu_subset (0, t_norm) in
  match ty with
  | t_norm =>
      opcode .| (((t .& 0x0007) .<< 16) .| ((t .& 0x0007) .<< 12) .| ((t .& 0x0038) .>> 3))
  | t_shift =>
      opcode .| (((t .& 0x0007) .<< 12) .| (t .& 0x0007) .| ((t .& 0x0038) .<< (8 - 3)))
  | t_neg => opcode .| (((t .& 0x0007) .<< 12) .| ((t .& 0x0038) .<< (16 - 3)))
  | t_mul =>
      opcode .| (((t .& 0x0007) .<< 16) .| ((t .& 0x0007) .<< 8) .| ((t .& 0x0038) .>> 3))
  end.

(** Format 5: high registers, BX and BLX; [None] is an undefined instruction. *)
Definition thumb_hireg (is_v5 t : Z) : option Z :=
  let Rd := t .& 0x0007 in
  let Rs := (t .& 0x0038) .>> 3 in
  let Rd := if Z.testbit t 7 then Rd + 8 else Rd in
  let Rs := if Z.testbit t 6 then Rs + 8 else Rs in
  let op := (t .& 0x03C0) .>> 6 in
  if (op =? 0x1) || (op =? 0x2) || (op =? 0x3) then
    Some (0xE0800000 .| (Rd .<< 16) .| (Rd .<< 12) .| Rs)
  else if (op =? 0x5) || (op =? 0x6) || (op =? 0x7) then
    Some (0xE1500000 .| (Rd .<< 16) .| (Rd .<< 12) .| Rs)
  else if (op =? 0x9) || (op =? 0xA) || (op =? 0xB) then
    Some (0xE1A00000 .| (Rd .<< 16) .| (Rd .<< 12) .| Rs)
  else if (op =? 0xC) || (op =? 0xD) then Some (0xE12FFF10 .| ((t .& 0x0078) .>> 3))
  else if (op =? 0xE) || (op =? 0xF) then
    if c_true is_v5 then Some (0xE1200030 .| Rs) else None
  else None.

(** Formats 6 to 11: loads and stores. *)
Definition thumb_ldr_pc (t : Z) : Z :=
  0xE59F0000 .| ((t .& 0x0700) .<< (12 - 8)) .| ((t .& 0x00FF) .<< 2).

Definition thumb_ls_reg (t : Z) : Z :=
  pick (if Z.testbit t 9 then [0xE18000B0; 0xE19000D0; 0xE19000B0; 0xE19000F0]
        else [0xE7800000; 0xE7C00000; 0xE7900000; 0xE7D00000]) ((t .& 0x0C00) .>> 10)
  .| ((t .& 0x0007) .<< 12) .| ((t .& 0x0038) .<< (16 - 3)) .| ((t .& 0x01C0) .>> 6).

Definition thumb_ls_imm (t : Z) : Z :=
  pick [0xE5800000; 0xE5900000; 0xE5C00000; 0xE5D00000] ((t .& 0x1800) .>> 11)
  .| ((t .& 0x0007) .<< 12) .| ((t .& 0x0038) .<< (16 - 3))
  .| ((t .& 0x07C0) .>> (6 - (if Z.testbit t 12 then 0 else 2))).

Definition thumb_lsh_imm (t : Z) : Z :=
  (if Z.testbit t 11 then 0xE1D000B0 else 0xE1C000B0)
  .| ((t .& 0x0007) .<< 12) .| ((t .& 0x0038) .<< (16 - 3))
  .| ((t .& 0x01C0) .>> (6 - 1)) .| ((t .& 0x0600) .>> (9 - 8)).

Definition thumb_ls_sp (t : Z) : Z :=
  (if Z.testbit t 11 then 0xE59D0000 else 0xE58D0000)
  .| ((t .& 0x0700) .<< (12 - 8)) .| ((t .& 0x00FF) .<< 2).

(** Formats 12 to 15. *)
Definition thumb_add_pcsp (t : Z) : Z :=
  (if Z.testbit t 11 then 0xE28D0F00 else 0xE28F0F00)
  .| ((t .& 0x0700) .<< (12 - 8)) .| (t .& 0x00FF).

Definition SWI_Breakpoint : Z := 0x180000.

Definition thumb_sp_stack (t : Z) : Z :=
  if (t .& 0x0F00) =? 0x0000 then
    (if Z.testbit t 7 then 0xE24DDF00 else 0xE28DDF00) .| (t .& 0x007F)
  else if (t .& 0x0F00) =? 0x0e00 then 0xEF000000 .| SWI_Breakpoint
  else
    pick [0xE92D0000; 0xE92D4000; 0xE8BD0000; 0xE8BD8000]
      (((t .& 0x0800) .>> 10) .| ((t .& 0x0100) .>> 8))
    .| (t .& 0x00FF).

Definition thumb_ldm_stm (t : Z) : Z :=
  (if Z.testbit t 11 then 0xE8B00000 else 0xE8A00000)
  .| ((t .& 0x0700) .<< (16 - 8)) .| (t .& 0x00FF).

(** Formats 16 and 17: conditional branches and SWI. *)
Definition thumb_swi (t : Z) : Z :=
  if (t .& 0x00FF) =? 0x18 then 0xEF000000 .| ((t .& 0x00FF) .<< 16)
  else if (t .& 0x00FF) =? 0xFE then 0xEF000000 .| SWI_Breakpoint
  else 0xEF000000 .| (t .& 0x00FF).

(** [doit]. *)
Definition thumb_cond (st : ARMul_State) (cc : Z) : bool :=
  let n := c_true (NFlag st) in
  let z := c_true (ZFlag st) in
  let c := c_true (CFlag st) in
  let v := c_true (VFlag st) in
  if cc =? cond_EQ then z
  else if cc =? cond_NE then negb z
  else if cc =? cond_VS then v
  else if cc =? cond_VC then negb v
  else if cc =? cond_MI then n
  else if cc =? cond_PL then negb n
  else if cc =? cond_CS then c
  else if cc =? cond_CC then negb c
  else if cc =? cond_HI then c && negb z
  else if cc =? cond_LS then negb c || z
  else if cc =? cond_GE then negb n && negb v || n && v
  else if cc =? cond_LT then n && negb v || negb n && v
  else if cc =? cond_GT then negb n && negb v && negb z || n && v && negb z
  else if cc =? cond_LE then (n && negb v || negb n && v) || z
  else false.

Definition thumb_bcc (st : ARMul_State) (pc t : Z) : ARMul_State :=
  if thumb_cond st ((t .& 0x0F00) .>> 8) then
    let off := ((t .& 0x7F) .<< 1) .| (if Z.testbit t 7 then 0xFFFFFF00 else 0) in
    FLUSHPIPE (set_reg st 15 (u32 (pc + 4 + off)))
  else st.

(** Format 18. *)
Definition thumb_b (st : ARMul_State) (pc t : Z) : ARMul_State :=
  let off := ((t .& 0x3FF) .<< 1) .| (if Z.testbit t 10 then 0xFFFFF800 else 0) in
  FLUSHPIPE (set_reg st 15 (u32 (pc + 4 + off))).

(** Format 19: the second half of BL, and the first one, which executes the second
    when it follows. *)
Definition thumb_bl2 (st : ARMul_State) (pc t : Z) : ARMul_State :=
  let tmp := u32 (pc + 2) in
  let st := set_reg st 15 (u32 (reg st 14 + ((t .& 0x07FF) .<< 1))) in
  let st := set_reg st 14 (tmp .| 1) in
  FLUSHPIPE st.

Definition thumb_bl1 (st : ARMul_State) (pc t next_instr : Z) : ARMul_State :=
  let off := ((t .& 0x07FF) .<< 12) .| (if Z.testbit t 10 then 0xFF800000 else 0) in
  let st := set_reg st 14 (u32 (reg st 15 + off)) in
  if (next_instr .& 0xF800) .>> 11 =? 31 then thumb_bl2 st (u32 (pc + 2)) next_instr else st.

(** ** The decoder

    The two halves of the fetched word by the byte order; the switch on the top five
    bits, with the state of the decoding, the ARM instruction and the processor. *)
Definition thumb_halves (bigend tinstr : Z) : Z * Z :=
  if c_true bigend then (tinstr .>> 16, tinstr .& 0xFFFF)
  else (tinstr .& 0xFFFF, tinstr .>> 16).

Definition thumb_decode (st : ARMul_State) (pc t next_instr : Z) : tdstate * Z * ARMul_State :=
  let none := 0xDEADC0DE in
  let decoded a := (t_decoded, a, st) in
  let op := (t .& 0xF800) .>> 11 in
  if op <=? 2 then decoded (thumb_shift t)
  else if op =? 3 then decoded (thumb_add_sub t)
  else if op <=? 7 then decoded (thumb_imm8 t)
  else if op =? 8 then
    if Z.testbit t 10 then
      match thumb_hireg (is_v5 st) t with
      | Some a => decoded a
      | None => (t_undefined, none, st)
      end
    else decoded (thumb_alu t)
  else if op =? 9 then decoded (thumb_ldr_pc t)
  else if op <=? 11 then decoded (thumb_ls_reg t)
  else if op <=? 15 then decoded (thumb_ls_imm t)
  else if op <=? 17 then decoded (thumb_lsh_imm t)
  else if op <=? 19 then decoded (thumb_ls_sp t)
  else if op <=? 21 then decoded (thumb_add_pcsp t)
  else if op <=? 23 then decoded (thumb_sp_stack t)
  else if op <=? 25 then decoded (thumb_ldm_stm t)
  else if op <=? 27 then
    if (t .& 0x0F00) =? 0x0F00 then
      if (t =? ARMul_ABORTWORD st .& 0xffff) && (AbortAddr st =? pc)
      then decoded (ARMul_ABORTWORD st)
      else decoded (thumb_swi t)
    else if (t .& 0x0F00) =? 0x0E00 then (t_undefined, none, st)
    else (t_branch, none, thumb_bcc st pc t)
  else if op =? 28 then (t_branch, none, thumb_b st pc t)
  else if op =? 29 then (t_undefined, none, st)
  else if op =? 30 then (t_branch, none, thumb_bl1 st pc t next_instr)
  else (t_branch, none, thumb_bl2 st pc t).

Definition ARMul_ThumbDecode (st : ARMul_State) (pc tinstr : Z)
    : tdstate * Z * ARMul_State :=
  let (t, next_instr) := thumb_halves (bigendSig st) tinstr in
  thumb_decode st pc t next_instr.

(** ** One instruction in either state (ARMul_Emulate32) *)
Definition execute (st : ARMul_State) (instr pc : Z) : step :=
  if c_true (TFlag st) then
    match ARMul_ThumbDecode st pc instr with
    | (t_undefined, _, st) => done_ (ARMul_UndefInstr st)
    | (t_branch, _, st) => done_ st
    | (t_decoded, new, st) => arm_execute st new pc
    end
  else arm_execute st instr pc.
