(* ===== verification/ArmMachine.v ===== *)
(** * The ARM machine: memory management state and cycle counters

    The translation look-aside buffer and cache of src/arch_arm/common/mmu/tlb.h and
    cache.h, the fields of [mmu_state_t] (armmmu.h) the arm7100 family uses, and the
    machine: the processor ([ArmState]), the memory management unit, the bus ([Bus])
    and the fields of [struct ARMul_State] the loads and stores use.  The control
    register [mmu.control] is a field of the processor, which reads it in
    [ARMul_Abort]. *)

From Stdlib Require Import ZArith Bool.
From stdpp Require Import base numbers option list.
From S2P Require Import Prelude Words Bus ArmState.

(** ** Faults, accesses and control bits *)

Definition NO_FAULT : Z := 0x0.
Definition ALIGNMENT_FAULT : Z := 0x1.
Definition SECTION_TRANSLATION_FAULT : Z := 0x5.
Definition PAGE_TRANSLATION_FAULT : Z := 0x7.
Definition SECTION_DOMAIN_FAULT : Z := 0x9.
Definition PAGE_DOMAIN_FAULT : Z := 0xB.
Definition SECTION_PERMISSION_FAULT : Z := 0xD.
Definition SUBPAGE_PERMISSION_FAULT : Z := 0xF.

Definition CONTROL_MMU : Z := 0x1.
Definition CONTROL_ALIGN_FAULT : Z := 0x2.
Definition CONTROL_CACHE : Z := 0x4.
Definition CONTROL_SYSTEM : Z := 0x100.
Definition CONTROL_ROM : Z := 0x200.

(** ARM_BYTE_TYPE and the others, with the number of bits [bus_read] gets. *)
Inductive datatype : Type := ARM_BYTE_TYPE | ARM_HALFWORD_TYPE | ARM_WORD_TYPE.
Definition access_bits (ty : datatype) : Z :=
  match ty with ARM_BYTE_TYPE => 8 | ARM_HALFWORD_TYPE => 16 | ARM_WORD_TYPE => 32 end.
#[export] Instance datatype_eq_dec : EqDecision datatype.
Proof. solve_decision. Defined.

(** ** The translation look-aside buffer *)

Inductive tlb_mapping_t : Type :=
| TLB_INVALID
| TLB_SMALLPAGE
| TLB_LARGEPAGE
| TLB_SECTION
| TLB_ESMALLPAGE
| TLB_TINYPAGE.
#[export] Instance tlb_mapping_eq_dec : EqDecision tlb_mapping_t.
Proof. solve_decision. Defined.

Record tlb_entry_t : Type := {
  virt_addr : Z;
  phys_addr : Z;
  perms : Z;
  domain : Z;
  mapping : tlb_mapping_t
}.

(** [num] is the length of [entrys]. *)
Record tlb_t : Type := { tlb_cycle : Z; entrys : list tlb_entry_t }.

(** ** The cache *)

Definition TAG_VALID_FLAG : Z := 1.
Definition TAG_FIRST_HALF_DIRTY : Z := 2.
Definition TAG_LAST_HALF_DIRTY : Z := 4.

Record cache_line_t : Type := { tag : Z; line_pa : Z; line_data : list Z }.
Record cache_set_t : Type := { lines : list cache_line_t; set_cycle : Z }.
Inductive w_mode_t : Type := CACHE_WRITE_BACK | CACHE_WRITE_THROUGH.
Record cache_t : Type := {
  width : Z;  (* bytes in a line *)
  way : Z;
  sets_num : Z;  (* the field [set] *)
  w_mode : w_mode_t;
  sets : list cache_set_t
}.

(** ** The memory management unit and the machine *)

Record mmu_state : Type := {
  translation_table_base : Z;
  domain_access_control : Z;
  fault_status : Z;
  fault_address : Z;
  last_domain : Z;
  the_cache : cache_t;  (* u.arm7100_mmu.cache_t *)
  the_tlb : tlb_t  (* u.arm7100_mmu.tlb_t *)
}.

Definition set_translation_table_base (m : mmu_state) (v : Z) : mmu_state :=
  {| translation_table_base := v; domain_access_control := domain_access_control m;
     fault_status := fault_status m; fault_address := fault_address m; last_domain :=
     last_domain m; the_cache := the_cache m; the_tlb := the_tlb m |}.
Definition set_domain_access_control (m : mmu_state) (v : Z) : mmu_state :=
  {| translation_table_base := translation_table_base m; domain_access_control := v;
     fault_status := fault_status m; fault_address := fault_address m; last_domain :=
     last_domain m; the_cache := the_cache m; the_tlb := the_tlb m |}.
Definition set_fault_status (m : mmu_state) (v : Z) : mmu_state :=
  {| translation_table_base := translation_table_base m; domain_access_control :=
     domain_access_control m; fault_status := v; fault_address := fault_address m;
     last_domain := last_domain m; the_cache := the_cache m; the_tlb := the_tlb m |}.
Definition set_fault_address (m : mmu_state) (v : Z) : mmu_state :=
  {| translation_table_base := translation_table_base m; domain_access_control :=
     domain_access_control m; fault_status := fault_status m; fault_address := v;
     last_domain := last_domain m; the_cache := the_cache m; the_tlb := the_tlb m |}.
Definition set_last_domain (m : mmu_state) (v : Z) : mmu_state :=
  {| translation_table_base := translation_table_base m; domain_access_control :=
     domain_access_control m; fault_status := fault_status m; fault_address := fault_address
     m; last_domain := v; the_cache := the_cache m; the_tlb := the_tlb m |}.
Definition set_the_cache (m : mmu_state) (v : cache_t) : mmu_state :=
  {| translation_table_base := translation_table_base m; domain_access_control :=
     domain_access_control m; fault_status := fault_status m; fault_address := fault_address
     m; last_domain := last_domain m; the_cache := v; the_tlb := the_tlb m |}.
Definition set_the_tlb (m : mmu_state) (v : tlb_t) : mmu_state :=
  {| translation_table_base := translation_table_base m; domain_access_control :=
     domain_access_control m; fault_status := fault_status m; fault_address := fault_address
     m; last_domain := last_domain m; the_cache := the_cache m; the_tlb := v |}.

Record arm_machine (B : Type) : Type := {
  core : ARMul_State;
  mmu : mmu_state;
  abus : B;  (* the memory banks *)
  NumScycles : Z;
  NumNcycles : Z;
  lateabtSig : Z;  (* base updated abort model *)
  is_v6 : Z;
  EndCondition : Z;
  cpu_val : Z;  (* cpu->cpu_val *)
  is_armv4 : bool;  (* the prefix of cpu->cpu_arch_name *)
  skyeye_cachetype : Z  (* the global of armmmu.c *)
}.
Arguments core {B} m : rename.
Arguments mmu {B} m : rename.
Arguments abus {B} m : rename.
Arguments NumScycles {B} m : rename.
Arguments NumNcycles {B} m : rename.
Arguments lateabtSig {B} m : rename.
Arguments is_v6 {B} m : rename.
Arguments EndCondition {B} m : rename.
Arguments cpu_val {B} m : rename.
Arguments is_armv4 {B} m : rename.
Arguments skyeye_cachetype {B} m : rename.

Definition set_core {B} (m : arm_machine B) (v : ARMul_State) : arm_machine B :=
  {| core := v; mmu := mmu m; abus := abus m; NumScycles := NumScycles m; NumNcycles :=
     NumNcycles m; lateabtSig := lateabtSig m; is_v6 := is_v6 m; EndCondition :=
     EndCondition m; cpu_val := cpu_val m; is_armv4 := is_armv4 m; skyeye_cachetype :=
     skyeye_cachetype m |}.
Definition set_mmu {B} (m : arm_machine B) (v : mmu_state) : arm_machine B :=
  {| core := core m; mmu := v; abus := abus m; NumScycles := NumScycles m; NumNcycles :=
     NumNcycles m; lateabtSig := lateabtSig m; is_v6 := is_v6 m; EndCondition :=
     EndCondition m; cpu_val := cpu_val m; is_armv4 := is_armv4 m; skyeye_cachetype :=
     skyeye_cachetype m |}.
Definition set_abus {B} (m : arm_machine B) (v : B) : arm_machine B :=
  {| core := core m; mmu := mmu m; abus := v; NumScycles := NumScycles m; NumNcycles :=
     NumNcycles m; lateabtSig := lateabtSig m; is_v6 := is_v6 m; EndCondition :=
     EndCondition m; cpu_val := cpu_val m; is_armv4 := is_armv4 m; skyeye_cachetype :=
     skyeye_cachetype m |}.
Definition set_NumScycles {B} (m : arm_machine B) (v : Z) : arm_machine B :=
  {| core := core m; mmu := mmu m; abus := abus m; NumScycles := v; NumNcycles := NumNcycles
     m; lateabtSig := lateabtSig m; is_v6 := is_v6 m; EndCondition := EndCondition m;
     cpu_val := cpu_val m; is_armv4 := is_armv4 m; skyeye_cachetype := skyeye_cachetype m
     |}.
Definition set_NumNcycles {B} (m : arm_machine B) (v : Z) : arm_machine B :=
  {| core := core m; mmu := mmu m; abus := abus m; NumScycles := NumScycles m; NumNcycles :=
     v; lateabtSig := lateabtSig m; is_v6 := is_v6 m; EndCondition := EndCondition m;
     cpu_val := cpu_val m; is_armv4 := is_armv4 m; skyeye_cachetype := skyeye_cachetype m
     |}.
Definition set_EndCondition {B} (m : arm_machine B) (v : Z) : arm_machine B :=
  {| core := core m; mmu := mmu m; abus := abus m; NumScycles := NumScycles m; NumNcycles :=
     NumNcycles m; lateabtSig := lateabtSig m; is_v6 := is_v6 m; EndCondition := v; cpu_val
     := cpu_val m; is_armv4 := is_armv4 m; skyeye_cachetype := skyeye_cachetype m |}.

(** An operation on the processor alone. *)
Definition on_core {B} (f : ARMul_State -> ARMul_State) (m : arm_machine B) : arm_machine B :=
  set_core m (f (core m)).
Definition on_mmu {B} (f : mmu_state -> mmu_state) (m : arm_machine B) : arm_machine B :=
  set_mmu m (f (mmu m)).
