(* ===== verification/ArmTlb.v ===== *)
(** * Translation and access checks (src/arch_arm/common/mmu/tlb.c)

    The look-up of the translation look-aside buffer, the walk of the translation
    tables on a miss, and the checks of domains and permissions.  A pointer to an entry
    of the buffer is only read through before the next change, so the operations return
    the entry. *)

From Stdlib Require Import ZArith Bool.
From stdpp Require Import base numbers option list.
From S2P Require Import Prelude Words Bus ArmState ArmMachine.

Definition tlb_masks (m : tlb_mapping_t) : Z :=
  match m with
  | TLB_INVALID => 0x00000000
  | TLB_SMALLPAGE => 0xFFFFF000
  | TLB_LARGEPAGE => 0xFFFF0000
  | TLB_SECTION => 0xFFF00000
  | TLB_ESMALLPAGE => 0xFFFFF000
  | TLB_TINYPAGE => 0xFFFFFC00
  end.

(** ** Permissions *)

Definition is_user (st : ARMul_State) : bool :=
  (Mode st =? USER32MODE) || (Mode st =? USER26MODE) || (Mode st =? SYSTEM32MODE).

(** Table 8-2, the AP bits. *)
Definition check_perms (st : ARMul_State) (ap : Z) (read : bool) : bool :=
  let s := c_true (Z.land (mmu_control st) CONTROL_SYSTEM) in
  let r := c_true (Z.land (mmu_control st) CONTROL_ROM) in
  let user := is_user st in
  if ap =? 0 then read && (s && negb user || r)
  else if ap =? 1 then negb user
  else if ap =? 2 then read || negb user
  else ap =? 3.

(** The subpage of an address; [assert (0)] for an entry that is not valid. *)
Definition subpage (va : Z) (m : tlb_mapping_t) : result Z :=
  match m with
  | TLB_ESMALLPAGE | TLB_TINYPAGE => Val 0
  | TLB_SMALLPAGE => Val (Z.land (Z.shiftr va 10) 3)
  | TLB_LARGEPAGE => Val (Z.land (Z.shiftr va 14) 3)
  | TLB_SECTION => Val 3
  | TLB_INVALID => Undef
  end.

(** ** Search and invalidation *)

Definition tlb_hit (va : Z) (e : tlb_entry_t) : bool :=
  match mapping e with
  | TLB_INVALID => false
  | m => Z.land va (tlb_masks m) =? Z.land (virt_addr e) (tlb_masks m)
  end.

(** The index of the first entry that answers. *)
Fixpoint tlb_search_from (n : nat) (va : Z) (l : list tlb_entry_t) : option (nat * tlb_entry_t) :=
  match l with
  | [] => None
  | e :: l => if tlb_hit va e then Some (n, e) else tlb_search_from (S n) va l
  end.

Definition mmu_tlb_search (t : tlb_t) (va : Z) : option (nat * tlb_entry_t) :=
  tlb_search_from 0 va (entrys t).

Definition invalidate (e : tlb_entry_t) : tlb_entry_t :=
  {| virt_addr := virt_addr e; phys_addr := phys_addr e; perms := perms e;
     domain := domain e; mapping := TLB_INVALID |}.

Definition mmu_tlb_invalidate_all (t : tlb_t) : tlb_t :=
  {| tlb_cycle := 0; entrys := map invalidate (entrys t) |}.

Definition mmu_tlb_invalidate_entry (t : tlb_t) (addr : Z) : tlb_t :=
  match mmu_tlb_search t addr with
  | Some (i, e) => {| tlb_cycle := tlb_cycle t; entrys := <[i := invalidate e]> (entrys t) |}
  | None => t
  end.

(** The entries of a new buffer are invalid; the rest of them is what [malloc] gives. *)
Definition mmu_tlb_init (junk : tlb_entry_t) (num : Z) : tlb_t :=
  {| tlb_cycle := 0; entrys := replicate (Z.to_nat num) (invalidate junk) |}.

(** [*tlb = &entrys[cycle]; cycle = (cycle + 1) % num; **tlb = entry;] *)
Definition tlb_place (t : tlb_t) (e : tlb_entry_t) : tlb_t :=
  {| tlb_cycle := (tlb_cycle t + 1) mod Z.of_nat (length (entrys t));
     entrys := <[Z.to_nat (tlb_cycle t) := e]> (entrys t) |}.

(** ** The descriptors *)

Definition l1_address (ttb va : Z) : Z :=
  Z.land (Z.lor (Z.land ttb 0xFFFFC000) (Z.shiftr va 18)) 0xFFFFFFFC.
Definition fine_address (l1desc va : Z) : Z :=
  Z.land (Z.lor (Z.land l1desc 0xFFFFF000) (Z.shiftr (Z.land va 0x000FFC00) 8)) 0xFFFFFFFC.
Definition coarse_address (l1desc va : Z) : Z :=
  Z.land (Z.lor (Z.land l1desc 0xFFFFFC00) (Z.shiftr (Z.land va 0x000FF000) 10)) 0xFFFFFFFC.
Definition l1_domain (l1desc : Z) : Z := Z.land (Z.shiftr l1desc 5) 0xF.

(** The entry of a descriptor, its addresses cut to the page. *)
Definition tlb_entry (va pa p d : Z) (m : tlb_mapping_t) : tlb_entry_t :=
  {| virt_addr := Z.land va (tlb_masks m); phys_addr := Z.land pa (tlb_masks m); perms := p;
     domain := d; mapping := m |}.

(** The mapping of a second-level descriptor of a fine and of a coarse table. *)
Definition fine_mapping (l2desc : Z) : option tlb_mapping_t :=
  let k := Z.land l2desc 3 in
  if k =? 0 then None
  else if k =? 3 then Some TLB_TINYPAGE
  else if k =? 1 then Some TLB_LARGEPAGE
  else Some TLB_SMALLPAGE.
Definition coarse_mapping (xscale : bool) (l2desc : Z) : option tlb_mapping_t :=
  let k := Z.land l2desc 3 in
  if k =? 0 then None
  else if k =? 3 then if xscale then Some TLB_ESMALLPAGE else None
  else if k =? 1 then Some TLB_LARGEPAGE
  else Some TLB_SMALLPAGE.

Section translate.
Context {B : Type} `{Bus B}.

(** [bus_read (32, addr, &desc)] on a local that is not set. *)
Definition read_desc (m : arm_machine B) (addr : Z) : result (Z * arm_machine B) :=
  let! (_, v, b) := bus_read 32 addr (abus m) in
  match v with Some w => Val (w, set_abus m b) | None => Undef end.

Definition set_domain (d : Z) (m : arm_machine B) : arm_machine B :=
  on_mmu (fun u => set_last_domain u d) m.

(** The two kinds of second-level tables. *)
Definition walk_l2 (addr : Z) (mapping_of : Z -> option tlb_mapping_t) (va l1desc : Z)
    (m : arm_machine B) : result (Z * option tlb_entry_t * arm_machine B) :=
  let! (l2desc, m) := read_desc m addr in
  let d := l1_domain l1desc in
  match mapping_of l2desc with
  | None => Val (PAGE_TRANSLATION_FAULT, None, set_domain d m)
  | Some mp => Val (NO_FAULT, Some (tlb_entry va l2desc (Z.land l2desc 0xFFC) d mp), m)
  end.

(** The walk of the translation tables. *)
Definition walk_tables (m : arm_machine B) (va : Z)
    : result (Z * option tlb_entry_t * arm_machine B) :=
  let! (l1desc, m) := read_desc m (l1_address (translation_table_base (mmu m)) va) in
  let k := Z.land l1desc 3 in
  if k =? 0 then Val (PAGE_TRANSLATION_FAULT, None, m)
  else if k =? 3 then walk_l2 (fine_address l1desc va) fine_mapping va l1desc m
  else if k =? 1 then
    walk_l2 (coarse_address l1desc va) (coarse_mapping (c_true (is_XScale (core m)))) va l1desc m
  else Val (NO_FAULT,
            Some (tlb_entry va l1desc (Z.land l1desc 0xC0C) (l1_domain l1desc) TLB_SECTION), m).

(** The fault, and the entry if there is none. *)
Definition translate (m : arm_machine B) (va : Z)
    : result (Z * option tlb_entry_t * arm_machine B) :=
  match mmu_tlb_search (the_tlb (mmu m)) va with
  | Some (_, e) => Val (NO_FAULT, Some e, set_domain (domain e) m)
  | None =>
      let! (fault, e, m) := walk_tables m va in
      match e with
      | None => Val (fault, None, m)
      | Some e =>
          let m := on_mmu (fun u => set_the_tlb u (tlb_place (the_tlb u) e)) m in
          Val (NO_FAULT, Some e, set_domain (domain e) m)
      end
  end.

(** The fault. *)
Definition check_access (m : arm_machine B) (va : Z) (e : tlb_entry_t) (read : bool)
    : result (Z * arm_machine B) :=
  let m := set_domain (domain e) m in
  let access := Z.land (Z.shiftr (domain_access_control (mmu m)) (domain e * 2)) 3 in
  if (access =? 0) || (access =? 2) then Val (SECTION_DOMAIN_FAULT, m)
  else if access =? 1 then
    let! sp := subpage va (mapping e) in
    let ap := Z.land (Z.shiftr (perms e) (sp * 2 + 4)) 3 in
    if check_perms (core m) ap read then Val (NO_FAULT, m)
    else if decide (mapping e = TLB_SECTION) then Val (SECTION_PERMISSION_FAULT, m)
    else Val (SUBPAGE_PERMISSION_FAULT, m)
  else Val (NO_FAULT, m).

(** [tlb_va_to_pa]. *)
Definition tlb_va_to_pa (e : tlb_entry_t) (va : Z) : Z :=
  let mask := tlb_masks (mapping e) in
  Z.lor (Z.land (phys_addr e) mask) (Z.land va (u32 (Z.lnot mask))).
End translate.
