(* ===== verification/ArmCache.v ===== *)
(** * The cache (src/arch_arm/common/mmu/cache.c)

    A set-associative cache with round-robin replacement.  A pointer to a line is the
    pair of the indices of its set and of the line in it; an index outside the arrays
    is [Undef].  A word that no bank stores through [bus_read] keeps its old value. *)

From Stdlib Require Import ZArith Bool.
From stdpp Require Import base numbers option list.
From S2P Require Import Prelude Words Bus ArmState ArmMachine.

Definition WORD_SHT : Z := 2.
Definition WORD_SIZE : Z := 4.

(** The macros of cache.h. *)
Definition va_cache_set (va : Z) (c : cache_t) : Z := Z.land (va / width c) (sets_num c - 1).
Definition va_cache_align (va : Z) (c : cache_t) : Z := Z.land va (u32 (Z.lnot (width c - 1))).
Definition va_cache_index (va : Z) (c : cache_t) : Z :=
  Z.shiftr (Z.land va (width c - 1)) WORD_SHT.
Definition index_cache_set (index : Z) (c : cache_t) : Z :=
  Z.land (index / width c) (sets_num c - 1).

Definition line_ref : Type := nat * nat.

Definition get_line (c : cache_t) (r : line_ref) : option cache_line_t :=
  match sets c !! r.1 with Some s => lines s !! r.2 | None => None end.

Definition set_sets (c : cache_t) (v : list cache_set_t) : cache_t :=
  {| width := width c; way := way c; sets_num := sets_num c; w_mode := w_mode c; sets := v |}.
Definition upd_line (c : cache_t) (r : line_ref) (f : cache_line_t -> cache_line_t) : cache_t :=
  set_sets c (alter (fun s => {| lines := alter f r.2 (lines s); set_cycle := set_cycle s |})
                r.1 (sets c)).
Definition set_tag (v : Z) (l : cache_line_t) : cache_line_t :=
  {| tag := v; line_pa := line_pa l; line_data := line_data l |}.
Definition set_line_pa (v : Z) (l : cache_line_t) : cache_line_t :=
  {| tag := tag l; line_pa := v; line_data := line_data l |}.
Definition set_line_data (v : list Z) (l : cache_line_t) : cache_line_t :=
  {| tag := tag l; line_pa := line_pa l; line_data := v |}.

(** The lines of a new cache are invalid; the rest of them is what [malloc] gives. *)
Definition mmu_cache_init (junk : Z) (width_ way_ set_ : Z) (mode : w_mode_t) : cache_t :=
  let line := {| tag := 0; line_pa := junk;
                 line_data := replicate (Z.to_nat (width_ / 4)) junk |} in
  {| width := width_; way := way_; sets_num := set_; w_mode := mode;
     sets := replicate (Z.to_nat set_)
               {| lines := replicate (Z.to_nat way_) line; set_cycle := 0 |} |}.

(** ** Search *)

Definition line_hit (c : cache_t) (t : Z) (l : cache_line_t) : bool :=
  c_true (Z.land (tag l) TAG_VALID_FLAG) && (t =? va_cache_align (tag l) c).

Fixpoint search_lines (hit : cache_line_t -> bool) (i : nat) (ls : list cache_line_t)
    : option nat :=
  match ls with
  | [] => None
  | l :: ls => if hit l then Some i else search_lines hit (S i) ls
  end.

Definition mmu_cache_search (c : cache_t) (va : Z) : result (option line_ref) :=
  let s := Z.to_nat (va_cache_set va c) in
  match sets c !! s with
  | None => Undef
  | Some cs =>
      Val (option_map (fun i => (s, i)) (search_lines (line_hit c (va_cache_align va c)) 0 (lines cs)))
  end.

(** [while ((way >>= 1) >= 1) i++;], on an [int] of at most 31 bits. *)
Fixpoint way_bits (fuel : nat) (w i : Z) : Z :=
  match fuel with
  | O => i
  | S fuel => let w := Z.shiftr w 1 in if 1 <=? w then way_bits fuel w (i + 1) else i
  end.

(** With one way the shift is by 32. *)
Definition mmu_cache_search_by_index (c : cache_t) (index : Z) : result line_ref :=
  let i := way_bits 31 (way c) 0 in
  if i =? 0 then Undef
  else Val (Z.to_nat (index_cache_set index c), Z.to_nat (Z.shiftr index (32 - i))).

(** ** Transfers between a line and the bus *)

Section transfers.
Context {B : Type} `{Bus B}.

(** [bus_read (32, t, &cache->data[i])] for the words from [i] on. *)
Fixpoint read_line (n : nat) (i : nat) (t : Z) (data : list Z) (b : B) : result (list Z * B) :=
  match n with
  | O => Val (data, b)
  | S n =>
      let! (_, v, b) := bus_read 32 t b in
      let data := match v with Some w => <[i := w]> data | None => data end in
      read_line n (S i) (u32 (t + WORD_SIZE)) data b
  end.

Fixpoint write_words (data : list Z) (pa : Z) (b : B) : result B :=
  match data with
  | [] => Val b
  | w :: data =>
      let! (_, b) := bus_write 32 pa w b in write_words data (u32 (pa + WORD_SIZE)) b
  end.

(** The words of the dirty halves and the address they go to. *)
Definition dirty_words (c : cache_t) (l : cache_line_t) : list Z * Z :=
  let nw := Z.shiftr (width c) WORD_SHT in
  let d := Z.land (tag l) (Z.lor TAG_FIRST_HALF_DIRTY TAG_LAST_HALF_DIRTY) in
  let half := nw / 2 in
  if d =? 0 then ([], line_pa l)
  else if d =? TAG_FIRST_HALF_DIRTY then (take (Z.to_nat half) (line_data l), line_pa l)
  else if d =? TAG_LAST_HALF_DIRTY then
    (take (Z.to_nat half) (drop (Z.to_nat half) (line_data l)),
     u32 (line_pa l + Z.shiftl half WORD_SHT))
  else (take (Z.to_nat nw) (line_data l), line_pa l).

Definition mmu_cache_write_back (c : cache_t) (l : cache_line_t) (b : B)
    : result (cache_line_t * B) :=
  if Z.land (tag l) 1 =? 0 then Val (l, b)
  else
    let (ws, pa) := dirty_words c l in
    let! b := write_words ws pa b in
    let clean := Z.lnot (Z.lor TAG_FIRST_HALF_DIRTY TAG_LAST_HALF_DIRTY) in
    Val (set_tag (Z.land (tag l) clean) l, b).

(** An operation on the line a reference names. *)
Definition on_line (f : cache_line_t -> B -> result (cache_line_t * B)) (c : cache_t)
    (r : line_ref) (b : B) : result (cache_t * B) :=
  match get_line c r with
  | None => Undef
  | Some l => let! (l, b) := f l b in Val (upd_line c r (fun _ => l), b)
  end.

(** ** Allocation *)

(** The line that is replaced next in the set of an address, and the cache with the
    cycle of the set advanced. *)
Definition next_line (c : cache_t) (va : Z) : result (line_ref * cache_t) :=
  let s := Z.to_nat (va_cache_set va c) in
  match sets c !! s with
  | None => Undef
  | Some cs =>
      let i := set_cycle cs in
      let n := if i + 1 =? way c then 0 else i + 1 in
      Val ((s, Z.to_nat i),
           set_sets c (<[s := {| lines := lines cs; set_cycle := n |}]> (sets c)))
  end.

Definition mmu_cache_alloc (c : cache_t) (va pa : Z) (b : B)
    : result (line_ref * cache_t * B) :=
  let va := va_cache_align va c in
  let pa := va_cache_align pa c in
  let! (r, c) := next_line c va in
  let! (c, b) :=
    on_line (fun l b =>
      let! (l, b) :=
        match w_mode c with
        | CACHE_WRITE_BACK =>
            let! (l, b) :=
              if c_true (Z.land (tag l) TAG_VALID_FLAG) then mmu_cache_write_back c l b
              else Val (l, b) in
            let! (data, b) :=
              read_line (Z.to_nat (Z.shiftr (width c) WORD_SHT)) 0 pa (line_data l) b in
            Val (set_line_data data l, b)
        | CACHE_WRITE_THROUGH => Val (l, b)
        end in
      Val (set_line_pa pa (set_tag (Z.lor va TAG_VALID_FLAG) l), b)) c r b in
  Val (r, c, b).

(** ** Cleaning and invalidation *)

Definition clean_line (c : cache_t) : cache_line_t -> B -> result (cache_line_t * B) :=
  mmu_cache_write_back c.
Definition invalidate_line (c : cache_t) (l : cache_line_t) (b : B)
    : result (cache_line_t * B) :=
  let! (l, b) := mmu_cache_write_back c l b in Val (set_tag 0 l, b).

Definition mmu_cache_clean (c : cache_t) (va : Z) (b : B) : result (cache_t * B) :=
  let! r := mmu_cache_search c va in
  match r with Some r => on_line (clean_line c) c r b | None => Val (c, b) end.

Definition mmu_cache_clean_by_index (c : cache_t) (index : Z) (b : B) : result (cache_t * B) :=
  let! r := mmu_cache_search_by_index c index in on_line (clean_line c) c r b.

Definition mmu_cache_invalidate (c : cache_t) (va : Z) (b : B) : result (cache_t * B) :=
  let! r := mmu_cache_search c va in
  match r with Some r => on_line (invalidate_line c) c r b | None => Val (c, b) end.

Definition mmu_cache_invalidate_by_index (c : cache_t) (index : Z) (b : B)
    : result (cache_t * B) :=
  let! r := mmu_cache_search_by_index c index in on_line (invalidate_line c) c r b.

(** The lines of a set, and the sets. *)
Fixpoint invalidate_lines (c : cache_t) (ls : list cache_line_t) (b : B)
    : result (list cache_line_t * B) :=
  match ls with
  | [] => Val ([], b)
  | l :: ls =>
      let! (l, b) := invalidate_line c l b in
      let! (ls, b) := invalidate_lines c ls b in Val (l :: ls, b)
  end.

Fixpoint invalidate_sets (c : cache_t) (ss : list cache_set_t) (b : B)
    : result (list cache_set_t * B) :=
  match ss with
  | [] => Val ([], b)
  | s :: ss =>
      let! (ls, b) := invalidate_lines c (lines s) b in
      let! (ss, b) := invalidate_sets c ss b in
      Val ({| lines := ls; set_cycle := set_cycle s |} :: ss, b)
  end.

Definition mmu_cache_invalidate_all (c : cache_t) (b : B) : result (cache_t * B) :=
  let! (ss, b) := invalidate_sets c (sets c) b in Val (set_sets c ss, b).

Definition mmu_cache_soft_flush (c : cache_t) (pa : Z) (b : B) : result (cache_t * B) :=
  let pa := pa / width c in
  let w := Z.land pa (way c - 1) in
  let s := Z.land (pa / way c) (sets_num c - 1) in
  on_line (invalidate_line c) c (Z.to_nat s, Z.to_nat w) b.
End transfers.
