(* ===== verification/ArmMmu.v ===== *)
(** * The memory management unit of the arm7100 family and the memory interface

    [a71_mmu_read] and the other operations of src/arch_arm/common/mmu/arm7100_mmu.c,
    the table of operations [mmu_ops_t] of armmmu.h, and over such a table the loads and
    stores of armvirt.c with their cycle counts and aborts. *)

From Stdlib Require Import ZArith Bool.
From stdpp Require Import base numbers option list.
From S2P Require Import Prelude Words Bus ArmState ArmMachine ArmTlb ArmCache.

(** ** Parts of a word

    The bit offset of a byte or halfword; [bigendSig] is [HIGH] (1) or [LOW] (0). *)
Definition part_offset (ty : datatype) (bigend va : Z) : Z :=
  match ty with
  | ARM_BYTE_TYPE => Z.shiftl (Z.lxor (bigend * 3) (Z.land va 3)) 3
  | ARM_HALFWORD_TYPE => Z.shiftl (Z.lxor (bigend * 2) (Z.land va 2)) 3
  | ARM_WORD_TYPE => 0
  end.
Definition part_mask (ty : datatype) : Z :=
  match ty with
  | ARM_BYTE_TYPE => 0xff | ARM_HALFWORD_TYPE => 0xffff | ARM_WORD_TYPE => 0xffffffff
  end.
Definition get_part (ty : datatype) (bigend va w : Z) : Z :=
  Z.land (Z.shiftr w (part_offset ty bigend va)) (part_mask ty).
Definition put_part (ty : datatype) (bigend va w data : Z) : Z :=
  let o := part_offset ty bigend va in
  u32 (Z.lor (Z.land w (Z.lnot (Z.shiftl (part_mask ty) o)))
         (Z.shiftl (Z.land data (part_mask ty)) o)).

(** [cache->data[(virt_addr >> 2) & 3]]. *)
Definition line_word (va : Z) : nat := Z.to_nat (Z.land (Z.shiftr va 2) 3).

Section a71.
Context {B : Type} `{Bus B}.

Definition set_cache (c : cache_t) (m : arm_machine B) : arm_machine B :=
  on_mmu (fun u => set_the_cache u c) m.

Definition mmu_on (m : arm_machine B) (bit : Z) : bool :=
  c_true (Z.land (mmu_control (core m)) bit).

Definition align_fault (m : arm_machine B) (va : Z) (ty : datatype) : bool :=
  match ty with
  | ARM_WORD_TYPE => c_true (Z.land va 3) && mmu_on m CONTROL_ALIGN_FAULT
  | ARM_HALFWORD_TYPE => c_true (Z.land va 1) && mmu_on m CONTROL_ALIGN_FAULT
  | ARM_BYTE_TYPE => false
  end.

(** [bus_read (size, addr, data); return NO_FAULT;] *)
Definition phys_read (m : arm_machine B) (ty : datatype) (pa : Z)
    : result (Z * option Z * arm_machine B) :=
  let! (_, v, b) := bus_read (access_bits ty) pa (abus m) in Val (NO_FAULT, v, set_abus m b).
Definition phys_write (m : arm_machine B) (ty : datatype) (pa data : Z)
    : result (Z * arm_machine B) :=
  let! (_, b) := bus_write (access_bits ty) pa data (abus m) in Val (NO_FAULT, set_abus m b).

(** The line that holds an address, if the cache is on. *)
Definition cached (m : arm_machine B) (va : Z) : result (option line_ref) :=
  if mmu_on m CONTROL_CACHE then mmu_cache_search (the_cache (mmu m)) va else Val None.

(** The part of a line an access wants. *)
Definition read_cached (m : arm_machine B) (r : line_ref) (ty : datatype) (va : Z)
    : result (Z * option Z * arm_machine B) :=
  match get_line (the_cache (mmu m)) r with
  | None => Undef
  | Some l =>
      match line_data l !! line_word va with
      | None => Undef
      | Some w => Val (NO_FAULT, Some (get_part ty (bigendSig (core m)) va w), m)
      end
  end.

(** The translated address of an access, or the fault. *)
Definition translated (m : arm_machine B) (va : Z) (read : bool)
    : result (Z * option tlb_entry_t * arm_machine B) :=
  let! (fault, e, m) := translate m va in
  match e with
  | None => Val (fault, None, m)
  | Some e =>
      let! (fault, m) := check_access m va e read in
      Val (fault, if fault =? NO_FAULT then Some e else None, m)
  end.

(** The line of an address filled from memory. *)
Definition fill_line (m : arm_machine B) (va pa : Z) : result (line_ref * arm_machine B) :=
  let! (r, c, b) := mmu_cache_alloc (the_cache (mmu m)) va 0 (abus m) in
  let! (c, b) :=
    on_line (fun l b =>
      let! (data, b) := read_line 4 0 (Z.land pa 0xFFFFFFF0) (line_data l) b in
      Val (set_tag (Z.lor (va_cache_align va c) TAG_VALID_FLAG) (set_line_data data l), b))
      c r b in
  Val (r, set_cache c (set_abus m b)).

Definition a71_mmu_read (m : arm_machine B) (va : Z) (ty : datatype)
    : result (Z * option Z * arm_machine B) :=
  if negb (mmu_on m CONTROL_MMU) then phys_read m ty va
  else if align_fault m va ty then Val (ALIGNMENT_FAULT, None, m)
  else
    let! hit := cached m va in
    match hit with
    | Some r => read_cached m r ty va
    | None =>
        let! (fault, e, m) := translated m va true in
        match e with
        | None => Val (fault, None, m)
        | Some e =>
            let pa := tlb_va_to_pa e va in
            if c_true (Z.land (perms e) 0x08) && mmu_on m CONTROL_CACHE then
              let! (r, m) := fill_line m va pa in read_cached m r ty va
            else phys_read m ty pa
        end
    end.

(** A store into a line that holds the address. *)
Definition write_cached (m : arm_machine B) (r : line_ref) (ty : datatype) (va data : Z)
    : arm_machine B :=
  let put w :=
    match ty with
    | ARM_WORD_TYPE => data
    | _ => put_part ty (bigendSig (core m)) va w data
    end in
  set_cache (upd_line (the_cache (mmu m)) r
               (fun l => set_line_data (alter put (line_word va) (line_data l)) l)) m.

Definition a71_mmu_write (m : arm_machine B) (va data : Z) (ty : datatype)
    : result (Z * arm_machine B) :=
  if negb (mmu_on m CONTROL_MMU) then phys_write m ty va data
  else if align_fault m va ty then Val (ALIGNMENT_FAULT, m)
  else
    let! hit := cached m va in
    let m := match hit with Some r => write_cached m r ty va data | None => m end in
    let! (fault, e, m) := translated m va false in
    match e with
    | None => Val (fault, m)
    | Some e => phys_write m ty (tlb_va_to_pa e va) data
    end.

(** ** The co-processor registers *)

Definition MMU_ID : Z := 0.
Definition MMU_CONTROL : Z := 1.
Definition MMU_TRANSLATION_TABLE_BASE : Z := 2.
Definition MMU_DOMAIN_ACCESS_CONTROL : Z := 3.
Definition MMU_FAULT_STATUS : Z := 5.
Definition MMU_FAULT_ADDRESS : Z := 6.
Definition MMU_V4_CACHE_OPS : Z := 7.
Definition MMU_V4_TLB_OPS : Z := 8.
Definition MMU_V3_FLUSH_TLB : Z := 5.
Definition MMU_V3_FLUSH_TLB_ENTRY : Z := 6.
Definition MMU_V3_FLUSH_CACHE : Z := 7.

Definition a71_mmu_mrc (m : arm_machine B) (instr : Z) : Z :=
  let creg := BITS instr 16 19 in
  if creg =? MMU_ID then cpu_val m
  else if creg =? MMU_CONTROL then mmu_control (core m)
  else if creg =? MMU_TRANSLATION_TABLE_BASE then translation_table_base (mmu m)
  else if creg =? MMU_DOMAIN_ACCESS_CONTROL then domain_access_control (mmu m)
  else if creg =? MMU_FAULT_STATUS then fault_status (mmu m)
  else if creg =? MMU_FAULT_ADDRESS then fault_address (mmu m)
  else 0.

Definition set_control (st : ARMul_State) (v : Z) : ARMul_State :=
  {| Emulate := Emulate st; Reg := Reg st; RegBank := RegBank st; Cpsr := Cpsr st;
     Spsr := Spsr st; NFlag := NFlag st; ZFlag := ZFlag st; CFlag := CFlag st;
     VFlag := VFlag st; IFFlags := IFFlags st; SFlag := SFlag st; TFlag := TFlag st;
     Bank := Bank st; Mode := Mode st; NumIcycles := NumIcycles st;
     NextInstr := NextInstr st; NtransSig := NtransSig st; abortSig := abortSig st;
     Aborted := Aborted st; AbortAddr := AbortAddr st; bigendSig := bigendSig st;
     prog32Sig := prog32Sig st; NresetSig := NresetSig st; NfiqSig := NfiqSig st;
     NirqSig := NirqSig st; is_v4 := is_v4 st; is_v5 := is_v5 st; is_v5e := is_v5e st;
     is_XScale := is_XScale st; vector_remap_flag := vector_remap_flag st;
     vector_remap_addr := vector_remap_addr st; mmu_control := v; isize := isize st |}.

(** The registers that both branches of the function write. *)
Definition mcr_common (m : arm_machine B) (creg value : Z) : option (arm_machine B) :=
  if creg =? MMU_CONTROL then
    Some (on_core (fun st => set_control st (Z.land (Z.lor value 0x70) 0xFFFF)) m)
  else if creg =? MMU_TRANSLATION_TABLE_BASE then
    Some (on_mmu (fun u => set_translation_table_base u (Z.land value 0xFFFFC000)) m)
  else if creg =? MMU_DOMAIN_ACCESS_CONTROL then
    Some (on_mmu (fun u => set_domain_access_control u value) m)
  else None.

Definition flush_tlb (m : arm_machine B) : arm_machine B :=
  on_mmu (fun u => set_the_tlb u (mmu_tlb_invalidate_all (the_tlb u))) m.
Definition flush_tlb_entry (value : Z) (m : arm_machine B) : arm_machine B :=
  on_mmu (fun u => set_the_tlb u (mmu_tlb_invalidate_entry (the_tlb u) value)) m.
Definition flush_cache (m : arm_machine B) : result (arm_machine B) :=
  let! (c, b) := mmu_cache_invalidate_all (the_cache (mmu m)) (abus m) in
  Val (set_cache c (set_abus m b)).

Definition mcr_v4 (m : arm_machine B) (instr creg value : Z) : result (arm_machine B) :=
  if creg =? MMU_FAULT_STATUS then
    Val (on_mmu (fun u => set_fault_status u (Z.land value 0xFF)) m)
  else if creg =? MMU_FAULT_ADDRESS then Val (on_mmu (fun u => set_fault_address u value) m)
  else if creg =? MMU_V4_CACHE_OPS then
    if BITS instr 5 7 =? 0 then flush_cache m else Val m
  else if creg =? MMU_V4_TLB_OPS then
    if BITS instr 5 7 =? 0 then Val (flush_tlb m)
    else if BITS instr 5 7 =? 1 then Val (flush_tlb_entry value m) else Val m
  else Val m.

Definition mcr_v3 (m : arm_machine B) (creg value : Z) : result (arm_machine B) :=
  if creg =? MMU_V3_FLUSH_TLB then Val (flush_tlb m)
  else if creg =? MMU_V3_FLUSH_TLB_ENTRY then Val (flush_tlb_entry value m)
  else if creg =? MMU_V3_FLUSH_CACHE then flush_cache m
  else Val m.

Definition a71_mmu_mcr (m : arm_machine B) (instr value : Z) : result (arm_machine B) :=
  let creg := BITS instr 16 19 in
  match mcr_common m creg value with
  | Some m => Val m
  | None => if is_armv4 m then mcr_v4 m instr creg value else mcr_v3 m creg value
  end.

(** [None] is the return value -1. *)
Definition a71_mmu_v2p_dbct (m : arm_machine B) (va : Z)
    : result (option Z * arm_machine B) :=
  if align_fault m va ARM_WORD_TYPE then Val (None, m)
  else if negb (mmu_on m CONTROL_MMU) then Val (Some va, m)
  else
    let! (_, e, m) := translated m va true in
    Val (option_map (fun e => tlb_va_to_pa e va) e, m).

Definition a71_mmu_init (junk : tlb_entry_t) (junk_word : Z) (m : arm_machine B)
    : arm_machine B :=
  let u := mmu m in
  set_core
    (set_mmu m
       {| translation_table_base := 0xDEADC0DE; domain_access_control := 0xDEADC0DE;
          fault_status := 0; fault_address := 0; last_domain := last_domain u;
          the_cache := mmu_cache_init junk_word 16 4 128 CACHE_WRITE_THROUGH;
          the_tlb := mmu_tlb_init junk 64 |})
    (set_control (core m) 0x70).

(** ** The table of operations (armmmu.h) *)

Record mmu_ops_t : Type := {
  mmu_read_byte : arm_machine B -> Z -> result (Z * option Z * arm_machine B);
  mmu_write_byte : arm_machine B -> Z -> Z -> result (Z * arm_machine B);
  mmu_read_halfword : arm_machine B -> Z -> result (Z * option Z * arm_machine B);
  mmu_write_halfword : arm_machine B -> Z -> Z -> result (Z * arm_machine B);
  mmu_read_word : arm_machine B -> Z -> result (Z * option Z * arm_machine B);
  mmu_write_word : arm_machine B -> Z -> Z -> result (Z * arm_machine B);
  mmu_load_instr : arm_machine B -> Z -> result (Z * option Z * arm_machine B);
  mmu_mcr : arm_machine B -> Z -> Z -> result (arm_machine B);
  mmu_mrc : arm_machine B -> Z -> Z
}.

Definition arm7100_mmu_ops : mmu_ops_t :=
  {| mmu_read_byte m va := a71_mmu_read m va ARM_BYTE_TYPE;
     mmu_write_byte m va data := a71_mmu_write m va data ARM_BYTE_TYPE;
     mmu_read_halfword m va := a71_mmu_read m va ARM_HALFWORD_TYPE;
     mmu_write_halfword m va data := a71_mmu_write m va data ARM_HALFWORD_TYPE;
     mmu_read_word m va := a71_mmu_read m va ARM_WORD_TYPE;
     mmu_write_word m va data := a71_mmu_write m va data ARM_WORD_TYPE;
     mmu_load_instr m va := a71_mmu_read m va ARM_WORD_TYPE;
     mmu_mcr := a71_mmu_mcr;
     mmu_mrc := a71_mmu_mrc |}.
End a71.
Arguments mmu_ops_t B : clear implicits.
