(* ===== verification/ArmMem.v ===== *)
(** * The memory interface of the processor (src/arch_arm/common/armvirt.c)

    Loads, stores and instruction fetches through a table of memory management
    operations, with their cycle counts, the aborts of a fault, and the abort word an
    aborted access returns.  A fault writes the fault status and address registers. *)

From Stdlib Require Import ZArith Bool.
From stdpp Require Import base numbers option list.
From S2P Require Import Prelude Words Bus ArmState ArmSupp ArmMachine ArmTlb ArmCache ArmMmu.

(** ARMul_DATAABORT, ARMul_CLEARABORT and ARMul_PREFETCHABORT. *)
Definition ARMul_DATAABORT (st : ARMul_State) : ARMul_State :=
  set_Aborted (set_abortSig st 1) ARMul_DataAbortV.
Definition ARMul_CLEARABORT (st : ARMul_State) : ARMul_State := set_abortSig st 0.
Definition ARMul_PREFETCHABORT (st : ARMul_State) (address : Z) : ARMul_State :=
  if AbortAddr st =? 1 then
    set_AbortAddr st (Z.land address (if c_true (TFlag st) then 0xFFFFFFFE else 0xFFFFFFFC))
  else st.

Definition INSTCACHE : Z := 2.

Section armvirt.
Context {B : Type} `{Bus B} (ops : mmu_ops_t B).

Definition count_N (m : arm_machine B) : arm_machine B := set_NumNcycles m (u32 (NumNcycles m + 1)).
Definition count_S (m : arm_machine B) : arm_machine B := set_NumScycles m (u32 (NumScycles m + 1)).

(** [state->mmu.fault_status = ...; ARMul_DATAABORT (address);] *)
Definition data_fault (fault address : Z) (m : arm_machine B) : arm_machine B :=
  on_core ARMul_DATAABORT
    (on_mmu (fun u =>
       set_fault_address
         (set_fault_status u (Z.land (Z.lor fault (Z.shiftl (last_domain u) 4)) 0xFF)) address) m).

(** The end of a load: the data, which no bank may have stored, or the abort word. *)
Definition loaded (address : Z) (r : result (Z * option Z * arm_machine B))
    : result (Z * arm_machine B) :=
  let! (fault, v, m) := r in
  if fault =? NO_FAULT then
    match v with Some w => Val (w, on_core ARMul_CLEARABORT m) | None => Undef end
  else
    let m := data_fault fault address m in Val (ARMul_ABORTWORD (core m), m).

Definition stored (address : Z) (r : result (Z * arm_machine B)) : result (arm_machine B) :=
  let! (fault, m) := r in
  if fault =? NO_FAULT then Val (on_core ARMul_CLEARABORT m)
  else Val (data_fault fault address m).

(** ** Loads *)

Definition ARMul_ReadWord (m : arm_machine B) (address : Z) : result (Z * arm_machine B) :=
  loaded address (mmu_read_word ops m address).
Definition ARMul_LoadWordS (m : arm_machine B) (address : Z) : result (Z * arm_machine B) :=
  ARMul_ReadWord (count_S m) address.
Definition ARMul_LoadWordN (m : arm_machine B) (address : Z) : result (Z * arm_machine B) :=
  ARMul_ReadWord (count_N m) address.
Definition ARMul_LoadHalfWord (m : arm_machine B) (address : Z) : result (Z * arm_machine B) :=
  loaded address (mmu_read_halfword ops (count_N m) address).
Definition ARMul_ReadByte (m : arm_machine B) (address : Z) : result (Z * arm_machine B) :=
  loaded address (mmu_read_byte ops m address).
Definition ARMul_LoadByte (m : arm_machine B) (address : Z) : result (Z * arm_machine B) :=
  ARMul_ReadByte (count_N m) address.

(** ** Stores *)

Definition ARMul_WriteWord (m : arm_machine B) (address data : Z) : result (arm_machine B) :=
  stored address (mmu_write_word ops m address data).
Definition ARMul_StoreWordS (m : arm_machine B) (address data : Z) : result (arm_machine B) :=
  ARMul_WriteWord (count_S m) address data.
Definition ARMul_StoreWordN (m : arm_machine B) (address data : Z) : result (arm_machine B) :=
  ARMul_WriteWord (count_N m) address data.
Definition ARMul_StoreHalfWord (m : arm_machine B) (address data : Z) : result (arm_machine B) :=
  stored address (mmu_write_halfword ops (count_N m) address data).
Definition ARMul_WriteByte (m : arm_machine B) (address data : Z) : result (arm_machine B) :=
  stored address (mmu_write_byte ops m address data).
Definition ARMul_StoreByte (m : arm_machine B) (address data : Z) : result (arm_machine B) :=
  ARMul_WriteByte (count_N m) address data.

(** ** Swaps: the fault of the store of a word is dropped *)

Definition ARMul_SwapWord (m : arm_machine B) (address data : Z) : result (Z * arm_machine B) :=
  let! (temp, m) := ARMul_ReadWord (count_N m) address in
  let! (_, m) := mmu_write_word ops (count_N m) address data in
  Val (temp, m).
Definition ARMul_SwapByte (m : arm_machine B) (address data : Z) : result (Z * arm_machine B) :=
  let! (temp, m) := ARMul_LoadByte m address in
  let! m := ARMul_StoreByte m address data in
  Val (temp, m).

(** ** Instruction fetches *)

Definition fetch_word (m : arm_machine B) (address : Z)
    : result (Z * option Z * arm_machine B) :=
  if skyeye_cachetype m =? INSTCACHE then mmu_load_instr ops m address
  else mmu_read_word ops m address.

Definition prefetch_abort (address : Z) (m : arm_machine B) : Z * arm_machine B :=
  let m := on_core (fun st => ARMul_PREFETCHABORT st address) m in
  (ARMul_ABORTWORD (core m), m).

(** A Thumb instruction in the upper half of a word takes its successor from the next. *)
Definition ARMul_ReLoadInstr (m : arm_machine B) (address isize : Z)
    : result (Z * arm_machine B) :=
  if (isize =? 2) && c_true (Z.land address 2) then
    let! (fault, lo, m) := fetch_word m address in
    let! (fault, hi, m) :=
      if fault =? NO_FAULT then fetch_word m (u32 (address + 4)) else Val (fault, None, m) in
    if fault =? NO_FAULT then
      match lo, hi with
      | Some lo, Some hi =>
          let m := on_core ARMul_CLEARABORT m in
          Val (if bigendSig (core m) =? 1 then Z.lor (shl lo 16) (Z.shiftr hi 16)
               else Z.lor (shl (Z.land hi 0xFFFF) 16) (Z.shiftr lo 16), m)
      | _, _ => Undef
      end
    else Val (prefetch_abort address m)
  else
    let! (fault, data, m) := fetch_word m address in
    if fault =? NO_FAULT then
      match data with Some w => Val (w, on_core ARMul_CLEARABORT m) | None => Undef end
    else Val (prefetch_abort address m).

Definition ARMul_LoadInstrS (m : arm_machine B) (address isize : Z)
    : result (Z * arm_machine B) := ARMul_ReLoadInstr (count_S m) address isize.
Definition ARMul_LoadInstrN (m : arm_machine B) (address isize : Z)
    : result (Z * arm_machine B) := ARMul_ReLoadInstr (count_N m) address isize.
End armvirt.

(** [XScale_set_fsr_far] (armcopro.c, mmu/xscale_copro.c). *)
Definition XScale_set_fsr_far {B} (m : arm_machine B) (fsr far : Z) : arm_machine B :=
  if c_true (is_XScale (core m)) then
    on_mmu (fun u => set_fault_address (set_fault_status u (Z.land fsr 0x6FF)) far) m
  else m.

(** The two calls of the operating system interface (armos.c) that are made: [SWI_Breakpoint]
    stops the emulation and answers TRUE. *)
Definition os_breakpoint {B} (m : arm_machine B) : arm_machine B :=
  set_EndCondition (on_core (fun st => set_Emulate st 0) m) 0.
