(* ===== verification/ArmTransfer.v ===== *)
(** * Loads and stores (src/arch_arm/common/armemu32.c)

    The functions [LoadWord] to [StoreSMult] and [handle_v6_insn], the macros for
    halfwords and signed bytes, and the cases 0x40 to 0x9f of the switch of
    [ARMul_Emulate32] with the swaps, the double transfers and the breakpoint
    instruction of the cases below 0x20.  A [break] leaves the switch, so a case is a
    function of the machine.  [base] of a case is written last, after an abort too when
    the base updated abort model is set ([lateabtSig]). *)

From Stdlib Require Import ZArith Bool.
From stdpp Require Import base numbers option list.
From S2P Require Import Prelude Words Bus ArmState ArmSupp ArmShift ArmExec Thumb.
From S2P Require Import ArmMachine ArmTlb ArmCache ArmMmu ArmMem.

(** ** Macros of armemu.h *)

Definition LSImmRHS (instr : Z) : Z := BITS instr 0 11.
Definition LSRegRHS (st : ARMul_State) (instr : Z) : Z :=
  if BITS instr 4 11 =? 0 then reg st (RHSReg instr) else GetLSRegRHS st instr.
Definition LSMNumRegs (instr : Z) : Z :=
  u32 (ARMul_BitList (BITS instr 0 7) + ARMul_BitList (BITS instr 8 15)).

Definition BUSUSEDINCPCS (st : ARMul_State) : ARMul_State :=
  if c_true (is_v4 st) then st
  else set_NextInstr (set_reg st 15 (u32 (reg st 15 + isize st)))
         (Z.lor (Z.land (NextInstr st) 0xff) 2).
Definition BUSUSEDINCPCN (st : ARMul_State) : ARMul_State :=
  if c_true (is_v4 st) then set_NextInstr st (Z.lor (NextInstr st) 1)
  else set_NextInstr (set_reg st 15 (u32 (reg st 15 + isize st))) (Z.lor (NextInstr st) 3).

Definition WRITEDESTB (st : ARMul_State) (instr d : Z) : ARMul_State :=
  if DESTReg instr =? 15 then WriteR15Branch st d else set_reg st (DESTReg instr) d.

(** ** Version 6 instructions

    The rotation of the sign and zero extensions; [None] is another instruction. *)
Definition v6_ror (instr : Z) : option Z :=
  let k := BITS instr 4 11 in
  if k =? 0x07 then Some 0
  else if k =? 0x47 then Some 8
  else if k =? 0x87 then Some 16
  else if k =? 0xc7 then Some 24
  else None.

(** [None] is the return value 0.  The halfword forms test the sign with the decimal
    constant 8000, and SXTAB adds to the destination. *)
Definition handle_v6_insn (st : ARMul_State) (instr : Z) : option ARMul_State :=
  let k := BITS instr 20 27 in
  let Rd := BITS instr 12 15 in
  let Rn := BITS instr 16 19 in
  let Rm mask ror := Z.land (Z.shiftr (reg st (BITS instr 0 3)) ror) mask in
  let put acc v := if Rn =? 0xf then set_reg st Rd v else set_reg st Rd (u32 (reg st acc + v)) in
  match v6_ror instr with
  | None => None
  | Some ror =>
      if k =? 0x6a then
        let v := Rm 0xFF ror in
        Some (put Rd (if c_true (Z.land v 0x80) then Z.lor v 0xffffff00 else v))
      else if k =? 0x6b then
        let v := Rm 0xFFFF ror in
        Some (put Rn (if c_true (Z.land v 8000) then Z.lor v 0xffff0000 else v))
      else if k =? 0x6e then Some (put Rn (Rm 0xFF ror))
      else if k =? 0x6f then Some (put Rn (Rm 0xFFFF ror))
      else None
  end.

Section transfers.
Context {B : Type} `{Bus B} (ops : mmu_ops_t B).

Definition LSBase (m : arm_machine B) (instr : Z) : Z := reg (core m) (LHSReg instr).
Definition set_LSBase (m : arm_machine B) (instr v : Z) : arm_machine B :=
  on_core (fun st => set_reg st (LHSReg instr) v) m.
Definition TAKEABORT (m : arm_machine B) : arm_machine B :=
  on_core (fun st => ARMul_Abort st ARMul_DataAbortV) m.
Definition aborted (m : arm_machine B) : bool := c_true (Aborted (core m)).
Definition icycles (n : Z) (m : arm_machine B) : arm_machine B :=
  on_core (fun st => ARMul_Icycles st n) m.

(** ** One register *)

(** A transfer at an address: the value is whether the base is written. *)
Definition xfer : Type := arm_machine B -> Z -> Z -> result (Z * arm_machine B).

Definition dest_not_base (instr : Z) : Z := Z.b2z (negb (DESTReg instr =? LHSReg instr)).

Definition LoadWord : xfer := fun m instr address =>
  let m := on_core BUSUSEDINCPCS m in
  let! (dest, m) := ARMul_LoadWordN ops m address in
  if aborted m then Val (lateabtSig m, TAKEABORT m)
  else
    let! dest := if c_true (Z.land address 3) then ARMul_Align address dest else Val dest in
    Val (dest_not_base instr, icycles 1 (on_core (fun st => WRITEDESTB st instr dest) m)).

Definition LoadHalfWord (signextend : bool) : xfer := fun m instr address =>
  let m := on_core BUSUSEDINCPCS m in
  let! (dest, m) := ARMul_LoadHalfWord ops m address in
  if aborted m then Val (lateabtSig m, TAKEABORT m)
  else
    let dest :=
      if signextend && c_true (Z.land dest 0x8000) then u32 (Z.land dest 0xffff - 0x10000)
      else dest in
    Val (dest_not_base instr, icycles 1 (on_core (fun st => WRITEDEST st instr dest) m)).

Definition LoadByte (signextend : bool) : xfer := fun m instr address =>
  let m := on_core BUSUSEDINCPCS m in
  let! (dest, m) := ARMul_LoadByte ops m address in
  if aborted m then Val (lateabtSig m, TAKEABORT m)
  else
    let dest :=
      if signextend && c_true (Z.land dest 0x80) then u32 (Z.land dest 0xff - 0x100)
      else dest in
    Val (dest_not_base instr, icycles 1 (on_core (fun st => WRITEDEST st instr dest) m)).
Definition LoadByteU : xfer := LoadByte false.

(** The stores differ in the operation of the memory interface. *)
Definition store_with (f : arm_machine B -> Z -> Z -> result (arm_machine B)) : xfer :=
  fun m instr address =>
  let m := on_core BUSUSEDINCPCN m in
  let! m := f m address (reg (core m) (DESTReg instr)) in
  if aborted m then Val (lateabtSig m, TAKEABORT m) else Val (1, m).
Definition StoreWord : xfer := store_with (ARMul_StoreWordN ops).
Definition StoreHalfWord : xfer := store_with (ARMul_StoreHalfWord ops).
Definition StoreByte : xfer := store_with (ARMul_StoreByte ops).

(** ** Addressing

    The offsets, added or subtracted. *)
Definition add_imm (instr : Z) (st : ARMul_State) (lhs : Z) : Z := u32 (lhs + LSImmRHS instr).
Definition sub_imm (instr : Z) (st : ARMul_State) (lhs : Z) : Z := u32 (lhs - LSImmRHS instr).
Definition add_reg (instr : Z) (st : ARMul_State) (lhs : Z) : Z := u32 (lhs + LSRegRHS st instr).
Definition sub_reg (instr : Z) (st : ARMul_State) (lhs : Z) : Z := u32 (lhs - LSRegRHS st instr).
Definition add_ls7 (instr : Z) (st : ARMul_State) (lhs : Z) : Z := u32 (lhs + GetLS7RHS st instr).
Definition sub_ls7 (instr : Z) (st : ARMul_State) (lhs : Z) : Z := u32 (lhs - GetLS7RHS st instr).

(** Post-indexed: the new base is computed before ([early]) or after the transfer;
    [user] transfers drive NtransSig. *)
Definition post (f : xfer) (early user : bool) (upd : ARMul_State -> Z -> Z)
    (m : arm_machine B) (instr : Z) : result (arm_machine B) :=
  let lhs := LHS (core m) instr in
  let temp := upd (core m) lhs in
  let m := if user then on_core (fun st => set_NtransSig st 0) m else m in
  let! (r, m) := f m instr lhs in
  let m :=
    if c_true r then set_LSBase m instr (if early then temp else upd (core m) lhs) else m in
  Val (if user
       then on_core (fun st => set_NtransSig st (Z.b2z (c_true (Z.land (Mode st) 3)))) m else m).

(** Pre-indexed, with or without write-back. *)
Definition pre (f : xfer) (wb : bool) (upd : ARMul_State -> Z -> Z)
    (m : arm_machine B) (instr : Z) : result (arm_machine B) :=
  let temp := upd (core m) (LHS (core m) instr) in
  let! (r, m) := f m instr temp in
  Val (if wb && c_true r then set_LSBase m instr temp else m).

(** ** Halfwords and signed bytes *)

Definition SHDOWNWB (m : arm_machine B) (instr : Z) : result (arm_machine B) :=
  post StoreHalfWord false false (sub_ls7 instr) m instr.
Definition SHUPWB (m : arm_machine B) (instr : Z) : result (arm_machine B) :=
  post StoreHalfWord false false (add_ls7 instr) m instr.
Definition SHPREDOWN (m : arm_machine B) (instr : Z) : result (arm_machine B) :=
  pre StoreHalfWord false (sub_ls7 instr) m instr.
Definition SHPREDOWNWB (m : arm_machine B) (instr : Z) : result (arm_machine B) :=
  pre StoreHalfWord true (sub_ls7 instr) m instr.
Definition SHPREUP (m : arm_machine B) (instr : Z) : result (arm_machine B) :=
  pre StoreHalfWord false (add_ls7 instr) m instr.
Definition SHPREUPWB (m : arm_machine B) (instr : Z) : result (arm_machine B) :=
  pre StoreHalfWord true (add_ls7 instr) m instr.

(** The switch on bits 5 and 6; the guard leaves out the value 0. *)
Definition half_load (instr : Z) : xfer :=
  let k := BITS instr 5 6 in
  if k =? 1 then LoadHalfWord false else if k =? 2 then LoadByte true else LoadHalfWord true.

Definition LHPOSTDOWN (m : arm_machine B) (instr : Z) : result (arm_machine B) :=
  post (half_load instr) true false (sub_ls7 instr) m instr.
Definition LHPOSTUP (m : arm_machine B) (instr : Z) : result (arm_machine B) :=
  post (half_load instr) true false (add_ls7 instr) m instr.
Definition LHPREDOWN (m : arm_machine B) (instr : Z) : result (arm_machine B) :=
  pre (half_load instr) false (sub_ls7 instr) m instr.
Definition LHPREDOWNWB (m : arm_machine B) (instr : Z) : result (arm_machine B) :=
  pre (half_load instr) true (sub_ls7 instr) m instr.
Definition LHPREUP (m : arm_machine B) (instr : Z) : result (arm_machine B) :=
  pre (half_load instr) false (add_ls7 instr) m instr.
Definition LHPREUPWB (m : arm_machine B) (instr : Z) : result (arm_machine B) :=
  pre (half_load instr) true (add_ls7 instr) m instr.

(** ** Two registers *)

Definition undef_insn (m : arm_machine B) : arm_machine B := on_core ARMul_UndefInstr m.

(** The offset of the double and halfword transfers, and the two addresses. *)
Definition double_offset (m : arm_machine B) (instr : Z) : Z :=
  if BIT instr 22 then Z.lor (shl (BITS instr 8 11) 4) (BITS instr 0 3)
  else reg (core m) (RHSReg instr).
Definition double_sum (m : arm_machine B) (instr : Z) : Z :=
  let base := reg (core m) (LHSReg instr) in
  u32 (if BIT instr 23 then base + double_offset m instr else base - double_offset m instr).

(** The base and the registers of a double transfer overlap. *)
Definition double_overlap (instr : Z) : bool :=
  (negb (BIT instr 24) || BIT instr 21)
  && ((LHSReg instr =? DESTReg instr) || (LHSReg instr =? DESTReg instr + 1)).

Definition double_finish (m : arm_machine B) (instr addr sum : Z) : arm_machine B :=
  let addr := if BIT instr 24 then addr else sum in
  if negb (BIT instr 24) || BIT instr 21 then set_LSBase m instr addr else m.

Definition Handle_Load_Double (m : arm_machine B) (instr : Z) : result (arm_machine B) :=
  let m := on_core BUSUSEDINCPCS m in
  if BIT instr 21 && negb (BIT instr 24) then Val (undef_insn m)
  else if c_true (Z.land (DESTReg instr) 1) || (DESTReg instr =? 14) then Val (undef_insn m)
  else
    let sum := double_sum m instr in
    let addr := if BIT instr 24 then sum else reg (core m) (LHSReg instr) in
    if c_true (Z.land addr 7) then Val (undef_insn m)
    else if double_overlap instr then Val (undef_insn m)
    else
      let! (value1, m) := ARMul_LoadWordN ops m addr in
      let! (value2, m) := ARMul_LoadWordN ops m (u32 (addr + 4)) in
      if aborted m then Val (TAKEABORT m)
      else
        let m := icycles 2 m in
        let m := on_core (fun st => set_reg st (DESTReg instr) value1) m in
        let m := on_core (fun st => set_reg st (DESTReg instr + 1) value2) m in
        Val (double_finish m instr addr sum).

Definition Handle_Store_Double (m : arm_machine B) (instr : Z) : result (arm_machine B) :=
  let m := on_core BUSUSEDINCPCS m in
  if BIT instr 21 && negb (BIT instr 24) then Val (undef_insn m)
  else if LHSReg instr =? 15 then Val (undef_insn m)
  else if c_true (Z.land (DESTReg instr) 1) then Val (undef_insn m)
  else
    let sum := double_sum m instr in
    let addr := if BIT instr 24 then sum else reg (core m) (LHSReg instr) in
    if c_true (Z.land addr 7) then Val (undef_insn m)
    else if double_overlap instr then Val (undef_insn m)
    else
      let! m := ARMul_StoreWordN ops m addr (reg (core m) (DESTReg instr)) in
      let! m := ARMul_StoreWordN ops m (u32 (addr + 4)) (reg (core m) (DESTReg instr + 1)) in
      if aborted m then Val (TAKEABORT m) else Val (double_finish m instr addr sum).

(** The XScale transfers in front of the switch; their aborts are not looked at. *)
Definition xscale_consecutive (load : bool) (m : arm_machine B) (instr : Z)
    : result (arm_machine B) :=
  let st := core m in
  let temp := GetLS7RHS st instr in
  let temp2 := u32 (if BIT instr 23 then LHS st instr + temp else LHS st instr - temp) in
  let addr := if BIT instr 24 then temp2 else LHS st instr in
  let Rd := BITS instr 12 15 in
  if BIT instr 12 then Val (undef_insn m)
  else if c_true (Z.land addr 7) then Val (TAKEABORT m)
  else
    let! m :=
      if load then
        let! (v, m) := ARMul_LoadWordN ops m addr in
        let m := on_core (fun st => set_reg st Rd v) m in
        let! (v, m) := ARMul_LoadWordN ops m (u32 (addr + 4)) in
        Val (on_core (fun st => set_reg st (Rd + 1) v) m)
      else
        let! m := ARMul_StoreWordN ops m addr (reg (core m) Rd) in
        ARMul_StoreWordN ops m (u32 (addr + 4)) (reg (core m) (Rd + 1)) in
    Val (if BIT instr 21 || negb (BIT instr 24) then set_LSBase m instr temp2 else m).

(** ** Lists of registers *)

(** [for (temp = 0; !BIT (temp); temp++);]: an empty list runs into the other fields of the
    instruction, whose top bits are not all 0. *)
Fixpoint first_bit (fuel : nat) (instr temp : Z) : result Z :=
  match fuel with
  | O => Undef
  | S fuel => if BIT instr temp then Val temp else first_bit fuel instr (temp + 1)
  end.

(** The first register; one past the register file is an access outside the array. *)
Definition first_reg (instr : Z) : result Z :=
  let! temp := first_bit 32 instr 0 in if temp <? 16 then Val temp else Undef.

(** [XScale_set_fsr_far (...); state->Aborted = ARMul_DataAbortV;]. *)
Definition align_abort (address : Z) (m : arm_machine B) : arm_machine B :=
  on_core (fun st => set_Aborted st ARMul_DataAbortV) (XScale_set_fsr_far m 1 address).

(** What follows the load of one register of a list: [ok] is the test of the first
    register, which differs between the two functions. *)
Definition loaded_reg (ok : bool) (temp dest address : Z) (m : arm_machine B)
    : arm_machine B :=
  if ok then on_core (fun st => set_reg st temp dest) m
  else if aborted m then m
  else align_abort address m.

Definition no_abort (m : arm_machine B) : bool :=
  negb (c_true (abortSig (core m))) && negb (aborted m).

(** The loop over the registers from [temp] on; an abort leaves it. *)
Fixpoint load_regs (n : nat) (temp instr address : Z) (m : arm_machine B)
    : result (arm_machine B) :=
  match n with
  | O => Val m
  | S n =>
      if BIT instr temp then
        let address := u32 (address + 4) in
        let! (dest, m) := ARMul_LoadWordS ops m address in
        let m := loaded_reg (no_abort m) temp dest address m in
        if aborted m then Val m else load_regs n (temp + 1) instr address m
      else load_regs n (temp + 1) instr address m
  end.

Definition wb_base (instr : Z) : bool := BIT instr 21 && negb (LHSReg instr =? 15).

Definition LoadMult (m : arm_machine B) (instr address WBBase : Z) : result (arm_machine B) :=
  let m := on_core BUSUSEDINCPCS m in
  let! temp := first_reg instr in
  let! (dest, m) := ARMul_LoadWordN ops m address in
  let m := loaded_reg (no_abort m) temp dest address m in
  let! m :=
    if aborted m then Val m
    else
      let! m := load_regs (Z.to_nat (15 - temp)) (temp + 1) instr address m in
      Val (if BIT instr 15 && negb (aborted m)
           then on_core (fun st => WriteR15Branch st (Z.land (reg st 15) PCBITS_MODE32)) m
           else m) in
  let m := icycles 1 m in
  Val (if aborted m then TAKEABORT m
       else if wb_base instr then set_LSBase m instr WBBase else m).

(** [state->Mode != USER26MODE && state->Mode != USER32MODE]. *)
Definition not_user (st : ARMul_State) : bool :=
  negb (Mode st =? USER26MODE) && negb (Mode st =? USER32MODE).

(** The base is kept for an abort without the base updated model. *)
Definition keep_base (m : arm_machine B) : bool :=
  c_true (abortSig (core m)) && aborted m && (lateabtSig m =? 0).

(** [(void) ARMul_SwitchMode (state, state->Mode, USER26MODE)] and back. *)
Definition to_user_bank (st : ARMul_State) : ARMul_State :=
  if Bank st =? USERBANK then st else (ARMul_SwitchMode st (Mode st) USER26MODE).2.
Definition from_user_bank (st : ARMul_State) : ARMul_State :=
  if not_user st then (ARMul_SwitchMode st USER26MODE (Mode st)).2 else st.

Definition LoadSMult (m : arm_machine B) (instr address WBBase : Z) : result (arm_machine B) :=
  let m := on_core BUSUSEDINCPCS m in
  let m := if BIT instr 15 then m else on_core to_user_bank m in
  let! temp := first_reg instr in
  let! (dest, m) := ARMul_LoadWordN ops m address in
  let m := loaded_reg (negb (c_true (abortSig (core m)))) temp dest address m in
  let! m :=
    if aborted m then Val m
    else load_regs (Z.to_nat (15 - temp)) (temp + 1) instr address m in
  let m :=
    if aborted m then
      TAKEABORT (if wb_base instr && negb (keep_base m) then set_LSBase m instr WBBase else m)
    else if wb_base instr then set_LSBase m instr WBBase else m in
  let m :=
    if BIT instr 15 && negb (aborted m) then
      on_core (fun st =>
        let st := if not_user st then ARMul_CPSRAltered (set_Cpsr st (GETSPSR st)) else st in
        WriteR15 st (Z.land (reg st 15) PCBITS_MODE32)) m
    else m in
  let m := if BIT instr 15 then m else on_core from_user_bank m in
  Val (icycles 1 m).

(** [if (state->abortSig && !state->Aborted) ...]. *)
Definition stored_reg (address : Z) (m : arm_machine B) : arm_machine B :=
  if c_true (abortSig (core m)) && negb (aborted m) then align_abort address m else m.

Fixpoint store_regs (n : nat) (temp instr address : Z) (m : arm_machine B)
    : result (arm_machine B) :=
  match n with
  | O => Val m
  | S n =>
      if BIT instr temp then
        let address := u32 (address + 4) in
        let! m := ARMul_StoreWordS ops m address (reg (core m) temp) in
        let m := stored_reg address m in
        if aborted m then Val m else store_regs n (temp + 1) instr address m
      else store_regs n (temp + 1) instr address m
  end.

(** The first register and the loop. *)
Definition store_list (m : arm_machine B) (instr address : Z) : result (arm_machine B) :=
  let! temp := first_reg instr in
  let! m := ARMul_StoreWordN ops m address (reg (core m) temp) in
  let m := stored_reg address m in
  if aborted m then Val m
  else store_regs (Z.to_nat (15 - temp)) (temp + 1) instr address m.

(** The label at the end of both functions. *)
Definition stm_takeabort (m : arm_machine B) (instr WBBase : Z) : arm_machine B :=
  let m := if wb_base instr && negb (keep_base m) then set_LSBase m instr WBBase else m in
  if aborted m then TAKEABORT m else m.

Definition StoreMult (m : arm_machine B) (instr address WBBase : Z) : result (arm_machine B) :=
  let m := if c_true (TFlag (core m)) then m else on_core BUSUSEDINCPCN m in
  let! m := store_list m instr address in
  Val (stm_takeabort m instr WBBase).

(** An abort jumps over the change back to the bank of the mode. *)
Definition StoreSMult (m : arm_machine B) (instr address WBBase : Z) : result (arm_machine B) :=
  let m := on_core BUSUSEDINCPCN m in
  let m := on_core to_user_bank m in
  let! m := store_list m instr address in
  let m := if aborted m then m else on_core from_user_bank m in
  Val (stm_takeabort m instr WBBase).

(** ** The cases *)

(** Bit 4 of a transfer with a register offset: a version 6 instruction where the case
    looks for one, or an undefined one. *)
Definition undef_or_v6 (hook : bool) (m : arm_machine B) (instr : Z) : arm_machine B :=
  if hook && c_true (is_v6 m) then
    match handle_v6_insn (core m) instr with
    | Some st => set_core m st
    | None => undef_insn m
    end
  else undef_insn m.

(** The breakpoint of case 0x7f; [ARMul_OSHandleSWI] answers TRUE. *)
Definition bkpt_7f (m : arm_machine B) (instr : Z) : arm_machine B :=
  if BITS instr 0 19 =? 0xfdefe then os_breakpoint m else undef_insn m.

Definition xfer_40 (m : arm_machine B) (instr : Z) : result (arm_machine B) :=
  post StoreWord false false (sub_imm instr) m instr.

Definition xfer_41 (m : arm_machine B) (instr : Z) : result (arm_machine B) :=
  post LoadWord false false (sub_imm instr) m instr.

Definition xfer_42 (m : arm_machine B) (instr : Z) : result (arm_machine B) :=
  post StoreWord true true (sub_imm instr) m instr.

Definition xfer_43 (m : arm_machine B) (instr : Z) : result (arm_machine B) :=
  post LoadWord false true (sub_imm instr) m instr.

Definition xfer_44 (m : arm_machine B) (instr : Z) : result (arm_machine B) :=
  post StoreByte false false (sub_imm instr) m instr.

Definition xfer_45 (m : arm_machine B) (instr : Z) : result (arm_machine B) :=
  post LoadByteU false false (sub_imm instr) m instr.

Definition xfer_46 (m : arm_machine B) (instr : Z) : result (arm_machine B) :=
  post StoreByte false true (sub_imm instr) m instr.

Definition xfer_47 (m : arm_machine B) (instr : Z) : result (arm_machine B) :=
  post LoadByteU false true (sub_imm instr) m instr.

Definition xfer_48 (m : arm_machine B) (instr : Z) : result (arm_machine B) :=
  post StoreWord false false (add_imm instr) m instr.

Definition xfer_49 (m : arm_machine B) (instr : Z) : result (arm_machine B) :=
  post LoadWord false false (add_imm instr) m instr.

Definition xfer_4a (m : arm_machine B) (instr : Z) : result (arm_machine B) :=
  post StoreWord false true (add_imm instr) m instr.

Definition xfer_4b (m : arm_machine B) (instr : Z) : result (arm_machine B) :=
  post LoadWord false true (add_imm instr) m instr.

Definition xfer_4c (m : arm_machine B) (instr : Z) : result (arm_machine B) :=
  post StoreByte false false (add_imm instr) m instr.

Definition xfer_4d (m : arm_machine B) (instr : Z) : result (arm_machine B) :=
  post LoadByteU false false (add_imm instr) m instr.

Definition xfer_4e (m : arm_machine B) (instr : Z) : result (arm_machine B) :=
  post StoreByte false true (add_imm instr) m instr.

Definition xfer_4f (m : arm_machine B) (instr : Z) : result (arm_machine B) :=
  post LoadByteU false true (add_imm instr) m instr.

Definition xfer_50 (m : arm_machine B) (instr : Z) : result (arm_machine B) :=
  pre StoreWord false (sub_imm instr) m instr.

Definition xfer_51 (m : arm_machine B) (instr : Z) : result (arm_machine B) :=
  pre LoadWord false (sub_imm instr) m instr.

Definition xfer_52 (m : arm_machine B) (instr : Z) : result (arm_machine B) :=
  pre StoreWord true (sub_imm instr) m instr.

Definition xfer_53 (m : arm_machine B) (instr : Z) : result (arm_machine B) :=
  pre LoadWord true (sub_imm instr) m instr.

Definition xfer_54 (m : arm_machine B) (instr : Z) : result (arm_machine B) :=
  pre StoreByte false (sub_imm instr) m instr.

Definition xfer_55 (m : arm_machine B) (instr : Z) : result (arm_machine B) :=
  pre LoadByteU false (sub_imm instr) m instr.

Definition xfer_56 (m : arm_machine B) (instr : Z) : result (arm_machine B) :=
  pre StoreByte true (sub_imm instr) m instr.

Definition xfer_57 (m : arm_machine B) (instr : Z) : result (arm_machine B) :=
  pre LoadByteU true (sub_imm instr) m instr.

Definition xfer_58 (m : arm_machine B) (instr : Z) : result (arm_machine B) :=
  pre StoreWord false (add_imm instr) m instr.

Definition xfer_59 (m : arm_machine B) (instr : Z) : result (arm_machine B) :=
  pre LoadWord false (add_imm instr) m instr.

Definition xfer_5a (m : arm_machine B) (instr : Z) : result (arm_machine B) :=
  pre StoreWord true (add_imm instr) m instr.

Definition xfer_5b (m : arm_machine B) (instr : Z) : result (arm_machine B) :=
  pre LoadWord true (add_imm instr) m instr.

Definition xfer_5c (m : arm_machine B) (instr : Z) : result (arm_machine B) :=
  pre StoreByte false (add_imm instr) m instr.

Definition xfer_5d (m : arm_machine B) (instr : Z) : result (arm_machine B) :=
  pre LoadByteU false (add_imm instr) m instr.

Definition xfer_5e (m : arm_machine B) (instr : Z) : result (arm_machine B) :=
  pre StoreByte true (add_imm instr) m instr.

Definition xfer_5f (m : arm_machine B) (instr : Z) : result (arm_machine B) :=
  pre LoadByteU true (add_imm instr) m instr.

Definition xfer_60 (m : arm_machine B) (instr : Z) : result (arm_machine B) :=
  if BIT instr 4 then Val (undef_or_v6 false m instr)
  else post StoreWord false false (sub_reg instr) m instr.

Definition xfer_61 (m : arm_machine B) (instr : Z) : result (arm_machine B) :=
  if BIT instr 4 then Val (undef_or_v6 true m instr)
  else post LoadWord true false (sub_reg instr) m instr.

Definition xfer_62 (m : arm_machine B) (instr : Z) : result (arm_machine B) :=
  if BIT instr 4 then Val (undef_or_v6 true m instr)
  else post StoreWord false true (sub_reg instr) m instr.

Definition xfer_63 (m : arm_machine B) (instr : Z) : result (arm_machine B) :=
  if BIT instr 4 then Val (undef_or_v6 true m instr)
  else post LoadWord true true (sub_reg instr) m instr.

Definition xfer_64 (m : arm_machine B) (instr : Z) : result (arm_machine B) :=
  if BIT instr 4 then Val (undef_or_v6 false m instr)
  else post StoreByte false false (sub_reg instr) m instr.

Definition xfer_65 (m : arm_machine B) (instr : Z) : result (arm_machine B) :=
  if BIT instr 4 then Val (undef_or_v6 true m instr)
  else post LoadByteU true false (sub_reg instr) m instr.

Definition xfer_66 (m : arm_machine B) (instr : Z) : result (arm_machine B) :=
  if BIT instr 4 then Val (undef_or_v6 true m instr)
  else post StoreByte false true (sub_reg instr) m instr.

Definition xfer_67 (m : arm_machine B) (instr : Z) : result (arm_machine B) :=
  if BIT instr 4 then Val (undef_or_v6 true m instr)
  else post LoadByteU true true (sub_reg instr) m instr.

Definition xfer_68 (m : arm_machine B) (instr : Z) : result (arm_machine B) :=
  if BIT instr 4 then Val (undef_or_v6 true m instr)
  else post StoreWord false false (add_reg instr) m instr.

Definition xfer_69 (m : arm_machine B) (instr : Z) : result (arm_machine B) :=
  if BIT instr 4 then Val (undef_or_v6 false m instr)
  else post LoadWord true false (add_reg instr) m instr.

Definition xfer_6a (m : arm_machine B) (instr : Z) : result (arm_machine B) :=
  if BIT instr 4 then Val (undef_or_v6 true m instr)
  else post StoreWord false true (add_reg instr) m instr.

Definition xfer_6b (m : arm_machine B) (instr : Z) : result (arm_machine B) :=
  if BIT instr 4 then Val (undef_or_v6 true m instr)
  else post LoadWord true true (add_reg instr) m instr.

Definition xfer_6c (m : arm_machine B) (instr : Z) : result (arm_machine B) :=
  if BIT instr 4 then Val (undef_or_v6 true m instr)
  else post StoreByte false false (add_reg instr) m instr.

Definition xfer_6d (m : arm_machine B) (instr : Z) : result (arm_machine B) :=
  if BIT instr 4 then Val (undef_or_v6 false m instr)
  else post LoadByteU true false (add_reg instr) m instr.

Definition xfer_6e (m : arm_machine B) (instr : Z) : result (arm_machine B) :=
  if BIT instr 4 then Val (undef_or_v6 true m instr)
  else post StoreByte false true (add_reg instr) m instr.

Definition xfer_6f (m : arm_machine B) (instr : Z) : result (arm_machine B) :=
  if BIT instr 4 then Val (undef_or_v6 true m instr)
  else post LoadByteU true true (add_reg instr) m instr.

Definition xfer_70 (m : arm_machine B) (instr : Z) : result (arm_machine B) :=
  if BIT instr 4 then Val (undef_or_v6 true m instr)
  else pre StoreWord false (sub_reg instr) m instr.

Definition xfer_71 (m : arm_machine B) (instr : Z) : result (arm_machine B) :=
  if BIT instr 4 then Val (undef_or_v6 false m instr)
  else pre LoadWord false (sub_reg instr) m instr.

Definition xfer_72 (m : arm_machine B) (instr : Z) : result (arm_machine B) :=
  if BIT instr 4 then Val (undef_or_v6 false m instr)
  else pre StoreWord true (sub_reg instr) m instr.

Definition xfer_73 (m : arm_machine B) (instr : Z) : result (arm_machine B) :=
  if BIT instr 4 then Val (undef_or_v6 false m instr)
  else pre LoadWord true (sub_reg instr) m instr.

Definition xfer_74 (m : arm_machine B) (instr : Z) : result (arm_machine B) :=
  if BIT instr 4 then Val (undef_or_v6 true m instr)
  else pre StoreByte false (sub_reg instr) m instr.

Definition xfer_75 (m : arm_machine B) (instr : Z) : result (arm_machine B) :=
  if BIT instr 4 then Val (undef_or_v6 true m instr)
  else pre LoadByteU false (sub_reg instr) m instr.

Definition xfer_76 (m : arm_machine B) (instr : Z) : result (arm_machine B) :=
  if BIT instr 4 then Val (undef_or_v6 false m instr)
  else pre StoreByte true (sub_reg instr) m instr.

Definition xfer_77 (m : arm_machine B) (instr : Z) : result (arm_machine B) :=
  if BIT instr 4 then Val (undef_or_v6 false m instr)
  else pre LoadByteU true (sub_reg instr) m instr.

Definition xfer_78 (m : arm_machine B) (instr : Z) : result (arm_machine B) :=
  if BIT instr 4 then Val (undef_or_v6 true m instr)
  else pre StoreWord false (add_reg instr) m instr.

Definition xfer_79 (m : arm_machine B) (instr : Z) : result (arm_machine B) :=
  if BIT instr 4 then Val (undef_or_v6 false m instr)
  else pre LoadWord false (add_reg instr) m instr.

Definition xfer_7a (m : arm_machine B) (instr : Z) : result (arm_machine B) :=
  if BIT instr 4 then Val (undef_or_v6 true m instr)
  else pre StoreWord true (add_reg instr) m instr.

Definition xfer_7b (m : arm_machine B) (instr : Z) : result (arm_machine B) :=
  if BIT instr 4 then Val (undef_or_v6 false m instr)
  else pre LoadWord true (add_reg instr) m instr.

Definition xfer_7c (m : arm_machine B) (instr : Z) : result (arm_machine B) :=
  if BIT instr 4 then Val (undef_or_v6 true m instr)
  else pre StoreByte false (add_reg instr) m instr.

Definition xfer_7d (m : arm_machine B) (instr : Z) : result (arm_machine B) :=
  if BIT instr 4 then Val (undef_or_v6 false m instr)
  else pre LoadByteU false (add_reg instr) m instr.

Definition xfer_7e (m : arm_machine B) (instr : Z) : result (arm_machine B) :=
  if BIT instr 4 then Val (undef_or_v6 false m instr)
  else pre StoreByte true (add_reg instr) m instr.

Definition xfer_7f (m : arm_machine B) (instr : Z) : result (arm_machine B) :=
  if BIT instr 4 then Val (bkpt_7f m instr)
  else pre LoadByteU true (add_reg instr) m instr.

Definition xfer_80 (m : arm_machine B) (instr : Z) : result (arm_machine B) :=
  StoreMult m instr (u32 (LSBase m instr - LSMNumRegs instr + 4)) 0.

Definition xfer_81 (m : arm_machine B) (instr : Z) : result (arm_machine B) :=
  LoadMult m instr (u32 (LSBase m instr - LSMNumRegs instr + 4)) 0.

Definition xfer_82 (m : arm_machine B) (instr : Z) : result (arm_machine B) :=
  let temp := u32 (LSBase m instr - LSMNumRegs instr) in
  StoreMult m instr (u32 (temp + 4)) temp.

Definition xfer_83 (m : arm_machine B) (instr : Z) : result (arm_machine B) :=
  let temp := u32 (LSBase m instr - LSMNumRegs instr) in
  LoadMult m instr (u32 (temp + 4)) temp.

Definition xfer_84 (m : arm_machine B) (instr : Z) : result (arm_machine B) :=
  StoreSMult m instr (u32 (LSBase m instr - LSMNumRegs instr + 4)) 0.

Definition xfer_85 (m : arm_machine B) (instr : Z) : result (arm_machine B) :=
  LoadSMult m instr (u32 (LSBase m instr - LSMNumRegs instr + 4)) 0.

Definition xfer_86 (m : arm_machine B) (instr : Z) : result (arm_machine B) :=
  let temp := u32 (LSBase m instr - LSMNumRegs instr) in
  StoreSMult m instr (u32 (temp + 4)) temp.

Definition xfer_87 (m : arm_machine B) (instr : Z) : result (arm_machine B) :=
  let temp := u32 (LSBase m instr - LSMNumRegs instr) in
  LoadSMult m instr (u32 (temp + 4)) temp.

Definition xfer_88 (m : arm_machine B) (instr : Z) : result (arm_machine B) :=
  StoreMult m instr (LSBase m instr) 0.

Definition xfer_89 (m : arm_machine B) (instr : Z) : result (arm_machine B) :=
  LoadMult m instr (LSBase m instr) 0.

Definition xfer_8a (m : arm_machine B) (instr : Z) : result (arm_machine B) :=
  let temp := LSBase m instr in
  StoreMult m instr temp (u32 (temp + LSMNumRegs instr)).

Definition xfer_8b (m : arm_machine B) (instr : Z) : result (arm_machine B) :=
  let temp := LSBase m instr in
  LoadMult m instr temp (u32 (temp + LSMNumRegs instr)).

Definition xfer_8c (m : arm_machine B) (instr : Z) : result (arm_machine B) :=
  StoreSMult m instr (LSBase m instr) 0.

Definition xfer_8d (m : arm_machine B) (instr : Z) : result (arm_machine B) :=
  LoadSMult m instr (LSBase m instr) 0.

Definition xfer_8e (m : arm_machine B) (instr : Z) : result (arm_machine B) :=
  let temp := LSBase m instr in
  StoreSMult m instr temp (u32 (temp + LSMNumRegs instr)).

Definition xfer_8f (m : arm_machine B) (instr : Z) : result (arm_machine B) :=
  let temp := LSBase m instr in
  LoadSMult m instr temp (u32 (temp + LSMNumRegs instr)).

Definition xfer_90 (m : arm_machine B) (instr : Z) : result (arm_machine B) :=
  StoreMult m instr (u32 (LSBase m instr - LSMNumRegs instr)) 0.

Definition xfer_91 (m : arm_machine B) (instr : Z) : result (arm_machine B) :=
  LoadMult m instr (u32 (LSBase m instr - LSMNumRegs instr)) 0.

Definition xfer_92 (m : arm_machine B) (instr : Z) : result (arm_machine B) :=
  let temp := u32 (LSBase m instr - LSMNumRegs instr) in
  StoreMult m instr temp temp.

Definition xfer_93 (m : arm_machine B) (instr : Z) : result (arm_machine B) :=
  let temp := u32 (LSBase m instr - LSMNumRegs instr) in
  LoadMult m instr temp temp.

Definition xfer_94 (m : arm_machine B) (instr : Z) : result (arm_machine B) :=
  StoreSMult m instr (u32 (LSBase m instr - LSMNumRegs instr)) 0.

Definition xfer_95 (m : arm_machine B) (instr : Z) : result (arm_machine B) :=
  LoadSMult m instr (u32 (LSBase m instr - LSMNumRegs instr)) 0.

Definition xfer_96 (m : arm_machine B) (instr : Z) : result (arm_machine B) :=
  let temp := u32 (LSBase m instr - LSMNumRegs instr) in
  StoreSMult m instr temp temp.

Definition xfer_97 (m : arm_machine B) (instr : Z) : result (arm_machine B) :=
  let temp := u32 (LSBase m instr - LSMNumRegs instr) in
  LoadSMult m instr temp temp.

Definition xfer_98 (m : arm_machine B) (instr : Z) : result (arm_machine B) :=
  StoreMult m instr (u32 (LSBase m instr + 4)) 0.

Definition xfer_99 (m : arm_machine B) (instr : Z) : result (arm_machine B) :=
  LoadMult m instr (u32 (LSBase m instr + 4)) 0.

Definition xfer_9a (m : arm_machine B) (instr : Z) : result (arm_machine B) :=
  let temp := LSBase m instr in
  StoreMult m instr (u32 (temp + 4)) (u32 (temp + LSMNumRegs instr)).

Definition xfer_9b (m : arm_machine B) (instr : Z) : result (arm_machine B) :=
  let temp := LSBase m instr in
  LoadMult m instr (u32 (temp + 4)) (u32 (temp + LSMNumRegs instr)).

Definition xfer_9c (m : arm_machine B) (instr : Z) : result (arm_machine B) :=
  StoreSMult m instr (u32 (LSBase m instr + 4)) 0.

Definition xfer_9d (m : arm_machine B) (instr : Z) : result (arm_machine B) :=
  LoadSMult m instr (u32 (LSBase m instr + 4)) 0.

Definition xfer_9e (m : arm_machine B) (instr : Z) : result (arm_machine B) :=
  let temp := LSBase m instr in
  StoreSMult m instr (u32 (temp + 4)) (u32 (temp + LSMNumRegs instr)).

Definition xfer_9f (m : arm_machine B) (instr : Z) : result (arm_machine B) :=
  let temp := LSBase m instr in
  LoadSMult m instr (u32 (temp + 4)) (u32 (temp + LSMNumRegs instr)).

(** The switch on bits 20 to 27, from 0x40 to 0x9f. *)
Definition xfer_switch (k : Z) (m : arm_machine B) (instr : Z) : result (arm_machine B) :=
  if k =? 0x40 then xfer_40 m instr
  else if k =? 0x41 then xfer_41 m instr
  else if k =? 0x42 then xfer_42 m instr
  else if k =? 0x43 then xfer_43 m instr
  else if k =? 0x44 then xfer_44 m instr
  else if k =? 0x45 then xfer_45 m instr
  else if k =? 0x46 then xfer_46 m instr
  else if k =? 0x47 then xfer_47 m instr
  else if k =? 0x48 then xfer_48 m instr
  else if k =? 0x49 then xfer_49 m instr
  else if k =? 0x4a then xfer_4a m instr
  else if k =? 0x4b then xfer_4b m instr
  else if k =? 0x4c then xfer_4c m instr
  else if k =? 0x4d then xfer_4d m instr
  else if k =? 0x4e then xfer_4e m instr
  else if k =? 0x4f then xfer_4f m instr
  else if k =? 0x50 then xfer_50 m instr
  else if k =? 0x51 then xfer_51 m instr
  else if k =? 0x52 then xfer_52 m instr
  else if k =? 0x53 then xfer_53 m instr
  else if k =? 0x54 then xfer_54 m instr
  else if k =? 0x55 then xfer_55 m instr
  else if k =? 0x56 then xfer_56 m instr
  else if k =? 0x57 then xfer_57 m instr
  else if k =? 0x58 then xfer_58 m instr
  else if k =? 0x59 then xfer_59 m instr
  else if k =? 0x5a then xfer_5a m instr
  else if k =? 0x5b then xfer_5b m instr
  else if k =? 0x5c then xfer_5c m instr
  else if k =? 0x5d then xfer_5d m instr
  else if k =? 0x5e then xfer_5e m instr
  else if k =? 0x5f then xfer_5f m instr
  else if k =? 0x60 then xfer_60 m instr
  else if k =? 0x61 then xfer_61 m instr
  else if k =? 0x62 then xfer_62 m instr
  else if k =? 0x63 then xfer_63 m instr
  else if k =? 0x64 then xfer_64 m instr
  else if k =? 0x65 then xfer_65 m instr
  else if k =? 0x66 then xfer_66 m instr
  else if k =? 0x67 then xfer_67 m instr
  else if k =? 0x68 then xfer_68 m instr
  else if k =? 0x69 then xfer_69 m instr
  else if k =? 0x6a then xfer_6a m instr
  else if k =? 0x6b then xfer_6b m instr
  else if k =? 0x6c then xfer_6c m instr
  else if k =? 0x6d then xfer_6d m instr
  else if k =? 0x6e then xfer_6e m instr
  else if k =? 0x6f then xfer_6f m instr
  else if k =? 0x70 then xfer_70 m instr
  else if k =? 0x71 then xfer_71 m instr
  else if k =? 0x72 then xfer_72 m instr
  else if k =? 0x73 then xfer_73 m instr
  else if k =? 0x74 then xfer_74 m instr
  else if k =? 0x75 then xfer_75 m instr
  else if k =? 0x76 then xfer_76 m instr
  else if k =? 0x77 then xfer_77 m instr
  else if k =? 0x78 then xfer_78 m instr
  else if k =? 0x79 then xfer_79 m instr
  else if k =? 0x7a then xfer_7a m instr
  else if k =? 0x7b then xfer_7b m instr
  else if k =? 0x7c then xfer_7c m instr
  else if k =? 0x7d then xfer_7d m instr
  else if k =? 0x7e then xfer_7e m instr
  else if k =? 0x7f then xfer_7f m instr
  else if k =? 0x80 then xfer_80 m instr
  else if k =? 0x81 then xfer_81 m instr
  else if k =? 0x82 then xfer_82 m instr
  else if k =? 0x83 then xfer_83 m instr
  else if k =? 0x84 then xfer_84 m instr
  else if k =? 0x85 then xfer_85 m instr
  else if k =? 0x86 then xfer_86 m instr
  else if k =? 0x87 then xfer_87 m instr
  else if k =? 0x88 then xfer_88 m instr
  else if k =? 0x89 then xfer_89 m instr
  else if k =? 0x8a then xfer_8a m instr
  else if k =? 0x8b then xfer_8b m instr
  else if k =? 0x8c then xfer_8c m instr
  else if k =? 0x8d then xfer_8d m instr
  else if k =? 0x8e then xfer_8e m instr
  else if k =? 0x8f then xfer_8f m instr
  else if k =? 0x90 then xfer_90 m instr
  else if k =? 0x91 then xfer_91 m instr
  else if k =? 0x92 then xfer_92 m instr
  else if k =? 0x93 then xfer_93 m instr
  else if k =? 0x94 then xfer_94 m instr
  else if k =? 0x95 then xfer_95 m instr
  else if k =? 0x96 then xfer_96 m instr
  else if k =? 0x97 then xfer_97 m instr
  else if k =? 0x98 then xfer_98 m instr
  else if k =? 0x99 then xfer_99 m instr
  else if k =? 0x9a then xfer_9a m instr
  else if k =? 0x9b then xfer_9b m instr
  else if k =? 0x9c then xfer_9c m instr
  else if k =? 0x9d then xfer_9d m instr
  else if k =? 0x9e then xfer_9e m instr
  else if k =? 0x9f then xfer_9f m instr
  else Undef.

(** The macro of each case of the data processing instructions with a register. *)
Definition half_switch (k : Z) (m : arm_machine B) (instr : Z) : result (arm_machine B) :=
  if k =? 0x00 then SHDOWNWB m instr
  else if k =? 0x01 then LHPOSTDOWN m instr
  else if k =? 0x02 then SHDOWNWB m instr
  else if k =? 0x03 then LHPOSTDOWN m instr
  else if k =? 0x04 then SHDOWNWB m instr
  else if k =? 0x05 then LHPOSTDOWN m instr
  else if k =? 0x06 then SHDOWNWB m instr
  else if k =? 0x07 then LHPOSTDOWN m instr
  else if k =? 0x08 then SHUPWB m instr
  else if k =? 0x09 then LHPOSTUP m instr
  else if k =? 0x0a then SHUPWB m instr
  else if k =? 0x0b then LHPOSTUP m instr
  else if k =? 0x0c then SHUPWB m instr
  else if k =? 0x0d then LHPOSTUP m instr
  else if k =? 0x0e then SHUPWB m instr
  else if k =? 0x0f then LHPOSTUP m instr
  else if k =? 0x10 then SHPREDOWN m instr
  else if k =? 0x11 then LHPREDOWN m instr
  else if k =? 0x12 then SHPREDOWNWB m instr
  else if k =? 0x13 then LHPREDOWNWB m instr
  else if k =? 0x14 then SHPREDOWN m instr
  else if k =? 0x15 then LHPREDOWN m instr
  else if k =? 0x16 then SHPREDOWNWB m instr
  else if k =? 0x17 then LHPREDOWNWB m instr
  else if k =? 0x18 then SHPREUP m instr
  else if k =? 0x19 then LHPREUP m instr
  else if k =? 0x1a then SHPREUPWB m instr
  else if k =? 0x1b then LHPREUPWB m instr
  else if k =? 0x1c then SHPREUP m instr
  else if k =? 0x1d then LHPREUP m instr
  else if k =? 0x1e then SHPREUPWB m instr
  else if k =? 0x1f then LHPREUPWB m instr
  else Undef.

(** ** Swaps and the breakpoint instruction *)

Definition swap_abort (m : arm_machine B) : arm_machine B :=
  if c_true (abortSig (core m)) || aborted m then TAKEABORT m else m.

Definition swp_word (m : arm_machine B) (instr : Z) : result (arm_machine B) :=
  let temp := LHS (core m) instr in
  let m := on_core BUSUSEDINCPCS m in
  let! (dest, m) := ARMul_SwapWord ops m temp (reg (core m) (RHSReg instr)) in
  let! dest := if c_true (Z.land temp 3) then ARMul_Align temp dest else Val dest in
  Val (swap_abort (on_core (fun st => set_reg st (DESTReg instr) dest) m)).

Definition swp_byte (m : arm_machine B) (instr : Z) : result (arm_machine B) :=
  let temp := LHS (core m) instr in
  let m := on_core BUSUSEDINCPCS m in
  let! (dest, m) := ARMul_SwapByte ops m temp (reg (core m) (RHSReg instr)) in
  Val (swap_abort (on_core (fun st => set_reg st (DESTReg instr) dest) m)).

(** BKPT: nothing sets [SWI_vector_installed]. *)
Definition bkpt (m : arm_machine B) : arm_machine B :=
  on_core (fun st => set_NextInstr st RESUME) (os_breakpoint m).

(** The part of the cases below 0x20 that [dp_switch] leaves out, in the order of their
    tests. *)
Definition misc_switch (k : Z) (m : arm_machine B) (instr : Z) : result (arm_machine B) :=
  let strh :=
    if c_true (Z.land k 0x4) then is_strh_imm instr else is_strh_reg instr in
  if c_true (Z.land k 1) then half_switch k m instr
  else if strh then half_switch k m instr
  else if BITS instr 4 7 =? 0xD then Handle_Load_Double m instr
  else if BITS instr 4 7 =? 0xF then Handle_Store_Double m instr
  else if k =? 0x10 then swp_word m instr
  else if k =? 0x14 then swp_byte m instr
  else Val (bkpt m).

(** An SWI with the abort word at the address of a prefetch abort. *)
Definition swi_prefetch (m : arm_machine B) (pc : Z) : arm_machine B :=
  on_core (fun st => ARMul_Abort st ARMul_PrefetchAbortV) (XScale_set_fsr_far m 0x400 pc).

(** ** The main switch on the machine; [None] is a co-processor instruction *)

Definition mstep : Type := option (result (arm_machine B)).

Definition machine_switch (m : arm_machine B) (instr pc : Z) : mstep :=
  let k := BITS instr 20 27 in
  if xscale_double (core m) instr then
    Some (xscale_consecutive (BITS instr 4 7 =? 0xD) m instr)
  else
    match mainswitch (core m) instr pc with
    | Some r => Some (let! st := r in Val (set_core m st))
    | None =>
        if k <? 0x20 then Some (misc_switch k m instr)
        else if (0x40 <=? k) && (k <? 0xa0) then Some (xfer_switch k m instr)
        else if 0xf0 <=? k then Some (Val (swi_prefetch m pc))
        else None
    end.

(** The condition check and the dispatch on the instruction set, as in [arm_execute] and
    [execute]. *)
Definition machine_nv (m : arm_machine B) (instr pc : Z) : mstep :=
  if c_true (is_v5 (core m)) && negb (BITS instr 25 27 =? 5)
     && negb (Z.land instr 0xFC70F000 =? 0xF450F000)
     && ((Z.land instr 0xfe500f00 =? 0xfc100100) || (Z.land instr 0xfe500f00 =? 0xfc000100))
  then machine_switch m instr pc
  else match arm_nv (core m) instr pc with
       | Some r => Some (let! st := r in Val (set_core m st))
       | None => None
       end.

Definition machine_execute (m : arm_machine B) (instr pc : Z) : mstep :=
  let cc := Z.shiftr instr 28 in
  if cc =? cond_NV then machine_nv m instr pc
  else if cc_true (core m) cc then machine_switch m instr pc
  else Some (Val m).

Definition machine_step (m : arm_machine B) (instr pc : Z) : mstep :=
  if c_true (TFlag (core m)) then
    match ARMul_ThumbDecode (core m) pc instr with
    | (t_undefined, _, st) => Some (Val (set_core m (ARMul_UndefInstr st)))
    | (t_branch, _, st) => Some (Val (set_core m st))
    | (t_decoded, new, st) => machine_execute (set_core m st) new pc
    end
  else machine_execute m instr pc.
End transfers.
