(* ===== verification/ArmCopro.v ===== *)
(** * Co-processors (src/arch_arm/common/armsupp.c, armcopro.c, armemu32.c)

    The co-processor instructions with their busy waiting, the validation co-processor
    and the memory management unit as co-processor 15, the events a co-processor
    schedules, the 40-bit accumulator of the XScale, and the cases 0xc0 to 0xef of the
    switch of [ARMul_Emulate32].

    The handlers a processor calls are in tables indexed by the number of the
    co-processor ([cp_ops]); [std_cps] is what [ARMul_CoProInit] installs for a processor
    that is neither an XScale nor an EP9312.  A busy co-processor is asked again until it
    answers: [None] is a wait longer than [fuel]. *)

From Stdlib Require Import ZArith Bool.
From stdpp Require Import base numbers option list.
From S2P Require Import Prelude Words Bus ArmState ArmSupp ArmShift ArmExec.
From S2P Require Import ArmMachine ArmTlb ArmCache ArmMmu ArmMem ArmTransfer.

(** ** Constants (armdefs.h, armemu.h) *)

Definition ARMul_FIRST : Z := 0.
Definition ARMul_TRANSFER : Z := 1.
Definition ARMul_BUSY : Z := 2.
Definition ARMul_DATA : Z := 3.
Definition ARMul_INTERRUPT : Z := 4.
Definition ARMul_DONE : Z := 0.
Definition ARMul_CANT : Z := 1.
Definition ARMul_INC : Z := 3.

Definition EVENTLISTSIZE : Z := 1024.
Definition VECTORS : Z := 0x20.
Definition LEGALADDR : Z := 0x03ffffff.

Definition CPNum (instr : Z) : Z := BITS instr 8 11.
Definition LSCOff (instr : Z) : Z := shl (BITS instr 0 7) 2.

(** ** The state

    The functions the event list holds. *)
Inductive cp_event : Type := DoAFIQ | DoAIRQ.

(** The processor with the static variables of armcopro.c and the fields of
    [struct ARMul_State] that its co-processors, its events and its pipeline use. *)
Record arm_sys (B : Type) : Type := {
  proc : arm_machine B;  (* the processor, the memory management unit and the bus *)
  ValReg : list Z;  (* the registers of the validation co-processor *)
  ldc_words : Z;  (* [words] of ValLDC *)
  stc_words : Z;  (* [words] of ValSTC *)
  val_finish : Z;  (* [finish] of ValCDP *)
  int_finish : Z;  (* [finish] of IntCDP *)
  Accumulator : Z;  (* the 64-bit accumulator of the XScale *)
  Base : Z;  (* extra hand for base writeback *)
  NumCcycles : Z;
  NumFcycles : Z;
  NumInstrs : Z;
  data32Sig : Z;
  copro_access : Z;  (* mmu.copro_access *)
  EventSet : Z;  (* the number of events in the queue *)
  EventPtr : list (list cp_event);  (* the event list, a ring *)
  Now : Z;  (* time to the nearest cycle *)
  s_decoded : Z;  (* the pipeline between two calls *)
  s_loaded : Z;
  s_pc : Z;
  tea_break_ok : Z;
  tea_break_addr : Z;
  prescale : Z;  (* of armio.c, an int *)
  io_cycle_divisor : Z  (* of the machine description *)
}.
Arguments proc {B} s : rename.
Arguments ValReg {B} s : rename.
Arguments ldc_words {B} s : rename.
Arguments stc_words {B} s : rename.
Arguments val_finish {B} s : rename.
Arguments int_finish {B} s : rename.
Arguments Accumulator {B} s : rename.
Arguments Base {B} s : rename.
Arguments NumCcycles {B} s : rename.
Arguments NumFcycles {B} s : rename.
Arguments NumInstrs {B} s : rename.
Arguments data32Sig {B} s : rename.
Arguments copro_access {B} s : rename.
Arguments EventSet {B} s : rename.
Arguments EventPtr {B} s : rename.
Arguments Now {B} s : rename.
Arguments s_decoded {B} s : rename.
Arguments s_loaded {B} s : rename.
Arguments s_pc {B} s : rename.
Arguments tea_break_ok {B} s : rename.
Arguments tea_break_addr {B} s : rename.
Arguments prescale {B} s : rename.
Arguments io_cycle_divisor {B} s : rename.

Definition set_proc {B} (s : arm_sys B) (v : arm_machine B) : arm_sys B :=
  {| proc := v; ValReg := ValReg s; ldc_words := ldc_words s; stc_words := stc_words s;
     val_finish := val_finish s; int_finish := int_finish s; Accumulator := Accumulator
     s; Base := Base s; NumCcycles := NumCcycles s; NumFcycles := NumFcycles s;
     NumInstrs := NumInstrs s; data32Sig := data32Sig s; copro_access := copro_access s;
     EventSet := EventSet s; EventPtr := EventPtr s; Now := Now s; s_decoded :=
     s_decoded s; s_loaded := s_loaded s; s_pc := s_pc s; tea_break_ok := tea_break_ok
     s; tea_break_addr := tea_break_addr s; prescale := prescale s; io_cycle_divisor :=
     io_cycle_divisor s |}.
Definition set_ValReg {B} (s : arm_sys B) (v : list Z) : arm_sys B :=
  {| proc := proc s; ValReg := v; ldc_words := ldc_words s; stc_words := stc_words s;
     val_finish := val_finish s; int_finish := int_finish s; Accumulator := Accumulator
     s; Base := Base s; NumCcycles := NumCcycles s; NumFcycles := NumFcycles s;
     NumInstrs := NumInstrs s; data32Sig := data32Sig s; copro_access := copro_access s;
     EventSet := EventSet s; EventPtr := EventPtr s; Now := Now s; s_decoded :=
     s_decoded s; s_loaded := s_loaded s; s_pc := s_pc s; tea_break_ok := tea_break_ok
     s; tea_break_addr := tea_break_addr s; prescale := prescale s; io_cycle_divisor :=
     io_cycle_divisor s |}.
Definition set_ldc_words {B} (s : arm_sys B) (v : Z) : arm_sys B :=
  {| proc := proc s; ValReg := ValReg s; ldc_words := v; stc_words := stc_words s;
     val_finish := val_finish s; int_finish := int_finish s; Accumulator := Accumulator
     s; Base := Base s; NumCcycles := NumCcycles s; NumFcycles := NumFcycles s;
     NumInstrs := NumInstrs s; data32Sig := data32Sig s; copro_access := copro_access s;
     EventSet := EventSet s; EventPtr := EventPtr s; Now := Now s; s_decoded :=
     s_decoded s; s_loaded := s_loaded s; s_pc := s_pc s; tea_break_ok := tea_break_ok
     s; tea_break_addr := tea_break_addr s; prescale := prescale s; io_cycle_divisor :=
     io_cycle_divisor s |}.
Definition set_stc_words {B} (s : arm_sys B) (v : Z) : arm_sys B :=
  {| proc := proc s; ValReg := ValReg s; ldc_words := ldc_words s; stc_words := v;
     val_finish := val_finish s; int_finish := int_finish s; Accumulator := Accumulator
     s; Base := Base s; NumCcycles := NumCcycles s; NumFcycles := NumFcycles s;
     NumInstrs := NumInstrs s; data32Sig := data32Sig s; copro_access := copro_access s;
     EventSet := EventSet s; EventPtr := EventPtr s; Now := Now s; s_decoded :=
     s_decoded s; s_loaded := s_loaded s; s_pc := s_pc s; tea_break_ok := tea_break_ok
     s; tea_break_addr := tea_break_addr s; prescale := prescale s; io_cycle_divisor :=
     io_cycle_divisor s |}.
Definition set_val_finish {B} (s : arm_sys B) (v : Z) : arm_sys B :=
  {| proc := proc s; ValReg := ValReg s; ldc_words := ldc_words s; stc_words :=
     stc_words s; val_finish := v; int_finish := int_finish s; Accumulator :=
     Accumulator s; Base := Base s; NumCcycles := NumCcycles s; NumFcycles := NumFcycles
     s; NumInstrs := NumInstrs s; data32Sig := data32Sig s; copro_access := copro_access
     s; EventSet := EventSet s; EventPtr := EventPtr s; Now := Now s; s_decoded :=
     s_decoded s; s_loaded := s_loaded s; s_pc := s_pc s; tea_break_ok := tea_break_ok
     s; tea_break_addr := tea_break_addr s; prescale := prescale s; io_cycle_divisor :=
     io_cycle_divisor s |}.
Definition set_int_finish {B} (s : arm_sys B) (v : Z) : arm_sys B :=
  {| proc := proc s; ValReg := ValReg s; ldc_words := ldc_words s; stc_words :=
     stc_words s; val_finish := val_finish s; int_finish := v; Accumulator :=
     Accumulator s; Base := Base s; NumCcycles := NumCcycles s; NumFcycles := NumFcycles
     s; NumInstrs := NumInstrs s; data32Sig := data32Sig s; copro_access := copro_access
     s; EventSet := EventSet s; EventPtr := EventPtr s; Now := Now s; s_decoded :=
     s_decoded s; s_loaded := s_loaded s; s_pc := s_pc s; tea_break_ok := tea_break_ok
     s; tea_break_addr := tea_break_addr s; prescale := prescale s; io_cycle_divisor :=
     io_cycle_divisor s |}.
Definition set_Accumulator {B} (s : arm_sys B) (v : Z) : arm_sys B :=
  {| proc := proc s; ValReg := ValReg s; ldc_words := ldc_words s; stc_words :=
     stc_words s; val_finish := val_finish s; int_finish := int_finish s; Accumulator :=
     v; Base := Base s; NumCcycles := NumCcycles s; NumFcycles := NumFcycles s;
     NumInstrs := NumInstrs s; data32Sig := data32Sig s; copro_access := copro_access s;
     EventSet := EventSet s; EventPtr := EventPtr s; Now := Now s; s_decoded :=
     s_decoded s; s_loaded := s_loaded s; s_pc := s_pc s; tea_break_ok := tea_break_ok
     s; tea_break_addr := tea_break_addr s; prescale := prescale s; io_cycle_divisor :=
     io_cycle_divisor s |}.
Definition set_Base {B} (s : arm_sys B) (v : Z) : arm_sys B :=
  {| proc := proc s; ValReg := ValReg s; ldc_words := ldc_words s; stc_words :=
     stc_words s; val_finish := val_finish s; int_finish := int_finish s; Accumulator :=
     Accumulator s; Base := v; NumCcycles := NumCcycles s; NumFcycles := NumFcycles s;
     NumInstrs := NumInstrs s; data32Sig := data32Sig s; copro_access := copro_access s;
     EventSet := EventSet s; EventPtr := EventPtr s; Now := Now s; s_decoded :=
     s_decoded s; s_loaded := s_loaded s; s_pc := s_pc s; tea_break_ok := tea_break_ok
     s; tea_break_addr := tea_break_addr s; prescale := prescale s; io_cycle_divisor :=
     io_cycle_divisor s |}.
Definition set_NumCcycles {B} (s : arm_sys B) (v : Z) : arm_sys B :=
  {| proc := proc s; ValReg := ValReg s; ldc_words := ldc_words s; stc_words :=
     stc_words s; val_finish := val_finish s; int_finish := int_finish s; Accumulator :=
     Accumulator s; Base := Base s; NumCcycles := v; NumFcycles := NumFcycles s;
     NumInstrs := NumInstrs s; data32Sig := data32Sig s; copro_access := copro_access s;
     EventSet := EventSet s; EventPtr := EventPtr s; Now := Now s; s_decoded :=
     s_decoded s; s_loaded := s_loaded s; s_pc := s_pc s; tea_break_ok := tea_break_ok
     s; tea_break_addr := tea_break_addr s; prescale := prescale s; io_cycle_divisor :=
     io_cycle_divisor s |}.
Definition set_NumFcycles {B} (s : arm_sys B) (v : Z) : arm_sys B :=
  {| proc := proc s; ValReg := ValReg s; ldc_words := ldc_words s; stc_words :=
     stc_words s; val_finish := val_finish s; int_finish := int_finish s; Accumulator :=
     Accumulator s; Base := Base s; NumCcycles := NumCcycles s; NumFcycles := v;
     NumInstrs := NumInstrs s; data32Sig := data32Sig s; copro_access := copro_access s;
     EventSet := EventSet s; EventPtr := EventPtr s; Now := Now s; s_decoded :=
     s_decoded s; s_loaded := s_loaded s; s_pc := s_pc s; tea_break_ok := tea_break_ok
     s; tea_break_addr := tea_break_addr s; prescale := prescale s; io_cycle_divisor :=
     io_cycle_divisor s |}.
Definition set_NumInstrs {B} (s : arm_sys B) (v : Z) : arm_sys B :=
  {| proc := proc s; ValReg := ValReg s; ldc_words := ldc_words s; stc_words :=
     stc_words s; val_finish := val_finish s; int_finish := int_finish s; Accumulator :=
     Accumulator s; Base := Base s; NumCcycles := NumCcycles s; NumFcycles := NumFcycles
     s; NumInstrs := v; data32Sig := data32Sig s; copro_access := copro_access s;
     EventSet := EventSet s; EventPtr := EventPtr s; Now := Now s; s_decoded :=
     s_decoded s; s_loaded := s_loaded s; s_pc := s_pc s; tea_break_ok := tea_break_ok
     s; tea_break_addr := tea_break_addr s; prescale := prescale s; io_cycle_divisor :=
     io_cycle_divisor s |}.
Definition set_data32Sig {B} (s : arm_sys B) (v : Z) : arm_sys B :=
  {| proc := proc s; ValReg := ValReg s; ldc_words := ldc_words s; stc_words :=
     stc_words s; val_finish := val_finish s; int_finish := int_finish s; Accumulator :=
     Accumulator s; Base := Base s; NumCcycles := NumCcycles s; NumFcycles := NumFcycles
     s; NumInstrs := NumInstrs s; data32Sig := v; copro_access := copro_access s;
     EventSet := EventSet s; EventPtr := EventPtr s; Now := Now s; s_decoded :=
     s_decoded s; s_loaded := s_loaded s; s_pc := s_pc s; tea_break_ok := tea_break_ok
     s; tea_break_addr := tea_break_addr s; prescale := prescale s; io_cycle_divisor :=
     io_cycle_divisor s |}.
Definition set_copro_access {B} (s : arm_sys B) (v : Z) : arm_sys B :=
  {| proc := proc s; ValReg := ValReg s; ldc_words := ldc_words s; stc_words :=
     stc_words s; val_finish := val_finish s; int_finish := int_finish s; Accumulator :=
     Accumulator s; Base := Base s; NumCcycles := NumCcycles s; NumFcycles := NumFcycles
     s; NumInstrs := NumInstrs s; data32Sig := data32Sig s; copro_access := v; EventSet
     := EventSet s; EventPtr := EventPtr s; Now := Now s; s_decoded := s_decoded s;
     s_loaded := s_loaded s; s_pc := s_pc s; tea_break_ok := tea_break_ok s;
     tea_break_addr := tea_break_addr s; prescale := prescale s; io_cycle_divisor :=
     io_cycle_divisor s |}.
Definition set_EventSet {B} (s : arm_sys B) (v : Z) : arm_sys B :=
  {| proc := proc s; ValReg := ValReg s; ldc_words := ldc_words s; stc_words :=
     stc_words s; val_finish := val_finish s; int_finish := int_finish s; Accumulator :=
     Accumulator s; Base := Base s; NumCcycles := NumCcycles s; NumFcycles := NumFcycles
     s; NumInstrs := NumInstrs s; data32Sig := data32Sig s; copro_access := copro_access
     s; EventSet := v; EventPtr := EventPtr s; Now := Now s; s_decoded := s_decoded s;
     s_loaded := s_loaded s; s_pc := s_pc s; tea_break_ok := tea_break_ok s;
     tea_break_addr := tea_break_addr s; prescale := prescale s; io_cycle_divisor :=
     io_cycle_divisor s |}.
Definition set_EventPtr {B} (s : arm_sys B) (v : list (list cp_event)) : arm_sys B :=
  {| proc := proc s; ValReg := ValReg s; ldc_words := ldc_words s; stc_words :=
     stc_words s; val_finish := val_finish s; int_finish := int_finish s; Accumulator :=
     Accumulator s; Base := Base s; NumCcycles := NumCcycles s; NumFcycles := NumFcycles
     s; NumInstrs := NumInstrs s; data32Sig := data32Sig s; copro_access := copro_access
     s; EventSet := EventSet s; EventPtr := v; Now := Now s; s_decoded := s_decoded s;
     s_loaded := s_loaded s; s_pc := s_pc s; tea_break_ok := tea_break_ok s;
     tea_break_addr := tea_break_addr s; prescale := prescale s; io_cycle_divisor :=
     io_cycle_divisor s |}.
Definition set_Now {B} (s : arm_sys B) (v : Z) : arm_sys B :=
  {| proc := proc s; ValReg := ValReg s; ldc_words := ldc_words s; stc_words :=
     stc_words s; val_finish := val_finish s; int_finish := int_finish s; Accumulator :=
     Accumulator s; Base := Base s; NumCcycles := NumCcycles s; NumFcycles := NumFcycles
     s; NumInstrs := NumInstrs s; data32Sig := data32Sig s; copro_access := copro_access
     s; EventSet := EventSet s; EventPtr := EventPtr s; Now := v; s_decoded := s_decoded
     s; s_loaded := s_loaded s; s_pc := s_pc s; tea_break_ok := tea_break_ok s;
     tea_break_addr := tea_break_addr s; prescale := prescale s; io_cycle_divisor :=
     io_cycle_divisor s |}.
Definition set_s_decoded {B} (s : arm_sys B) (v : Z) : arm_sys B :=
  {| proc := proc s; ValReg := ValReg s; ldc_words := ldc_words s; stc_words :=
     stc_words s; val_finish := val_finish s; int_finish := int_finish s; Accumulator :=
     Accumulator s; Base := Base s; NumCcycles := NumCcycles s; NumFcycles := NumFcycles
     s; NumInstrs := NumInstrs s; data32Sig := data32Sig s; copro_access := copro_access
     s; EventSet := EventSet s; EventPtr := EventPtr s; Now := Now s; s_decoded := v;
     s_loaded := s_loaded s; s_pc := s_pc s; tea_break_ok := tea_break_ok s;
     tea_break_addr := tea_break_addr s; prescale := prescale s; io_cycle_divisor :=
     io_cycle_divisor s |}.
Definition set_s_loaded {B} (s : arm_sys B) (v : Z) : arm_sys B :=
  {| proc := proc s; ValReg := ValReg s; ldc_words := ldc_words s; stc_words :=
     stc_words s; val_finish := val_finish s; int_finish := int_finish s; Accumulator :=
     Accumulator s; Base := Base s; NumCcycles := NumCcycles s; NumFcycles := NumFcycles
     s; NumInstrs := NumInstrs s; data32Sig := data32Sig s; copro_access := copro_access
     s; EventSet := EventSet s; EventPtr := EventPtr s; Now := Now s; s_decoded :=
     s_decoded s; s_loaded := v; s_pc := s_pc s; tea_break_ok := tea_break_ok s;
     tea_break_addr := tea_break_addr s; prescale := prescale s; io_cycle_divisor :=
     io_cycle_divisor s |}.
Definition set_s_pc {B} (s : arm_sys B) (v : Z) : arm_sys B :=
  {| proc := proc s; ValReg := ValReg s; ldc_words := ldc_words s; stc_words :=
     stc_words s; val_finish := val_finish s; int_finish := int_finish s; Accumulator :=
     Accumulator s; Base := Base s; NumCcycles := NumCcycles s; NumFcycles := NumFcycles
     s; NumInstrs := NumInstrs s; data32Sig := data32Sig s; copro_access := copro_access
     s; EventSet := EventSet s; EventPtr := EventPtr s; Now := Now s; s_decoded :=
     s_decoded s; s_loaded := s_loaded s; s_pc := v; tea_break_ok := tea_break_ok s;
     tea_break_addr := tea_break_addr s; prescale := prescale s; io_cycle_divisor :=
     io_cycle_divisor s |}.
Definition set_tea_break_ok {B} (s : arm_sys B) (v : Z) : arm_sys B :=
  {| proc := proc s; ValReg := ValReg s; ldc_words := ldc_words s; stc_words :=
     stc_words s; val_finish := val_finish s; int_finish := int_finish s; Accumulator :=
     Accumulator s; Base := Base s; NumCcycles := NumCcycles s; NumFcycles := NumFcycles
     s; NumInstrs := NumInstrs s; data32Sig := data32Sig s; copro_access := copro_access
     s; EventSet := EventSet s; EventPtr := EventPtr s; Now := Now s; s_decoded :=
     s_decoded s; s_loaded := s_loaded s; s_pc := s_pc s; tea_break_ok := v;
     tea_break_addr := tea_break_addr s; prescale := prescale s; io_cycle_divisor :=
     io_cycle_divisor s |}.
Definition set_tea_break_addr {B} (s : arm_sys B) (v : Z) : arm_sys B :=
  {| proc := proc s; ValReg := ValReg s; ldc_words := ldc_words s; stc_words :=
     stc_words s; val_finish := val_finish s; int_finish := int_finish s; Accumulator :=
     Accumulator s; Base := Base s; NumCcycles := NumCcycles s; NumFcycles := NumFcycles
     s; NumInstrs := NumInstrs s; data32Sig := data32Sig s; copro_access := copro_access
     s; EventSet := EventSet s; EventPtr := EventPtr s; Now := Now s; s_decoded :=
     s_decoded s; s_loaded := s_loaded s; s_pc := s_pc s; tea_break_ok := tea_break_ok
     s; tea_break_addr := v; prescale := prescale s; io_cycle_divisor :=
     io_cycle_divisor s |}.
Definition set_prescale {B} (s : arm_sys B) (v : Z) : arm_sys B :=
  {| proc := proc s; ValReg := ValReg s; ldc_words := ldc_words s; stc_words :=
     stc_words s; val_finish := val_finish s; int_finish := int_finish s; Accumulator :=
     Accumulator s; Base := Base s; NumCcycles := NumCcycles s; NumFcycles := NumFcycles
     s; NumInstrs := NumInstrs s; data32Sig := data32Sig s; copro_access := copro_access
     s; EventSet := EventSet s; EventPtr := EventPtr s; Now := Now s; s_decoded :=
     s_decoded s; s_loaded := s_loaded s; s_pc := s_pc s; tea_break_ok := tea_break_ok
     s; tea_break_addr := tea_break_addr s; prescale := v; io_cycle_divisor :=
     io_cycle_divisor s |}.
Definition set_io_cycle_divisor {B} (s : arm_sys B) (v : Z) : arm_sys B :=
  {| proc := proc s; ValReg := ValReg s; ldc_words := ldc_words s; stc_words :=
     stc_words s; val_finish := val_finish s; int_finish := int_finish s; Accumulator :=
     Accumulator s; Base := Base s; NumCcycles := NumCcycles s; NumFcycles := NumFcycles
     s; NumInstrs := NumInstrs s; data32Sig := data32Sig s; copro_access := copro_access
     s; EventSet := EventSet s; EventPtr := EventPtr s; Now := Now s; s_decoded :=
     s_decoded s; s_loaded := s_loaded s; s_pc := s_pc s; tea_break_ok := tea_break_ok
     s; tea_break_addr := tea_break_addr s; prescale := prescale s; io_cycle_divisor :=
     v |}.

Definition on_proc {B} (f : arm_machine B -> arm_machine B) (s : arm_sys B) : arm_sys B :=
  set_proc s (f (proc s)).
Definition on_st {B} (f : ARMul_State -> ARMul_State) (s : arm_sys B) : arm_sys B :=
  on_proc (on_core f) s.
Abbreviation st_of s := (core (proc s)).

(** ** Time and events (armsupp.c) *)

Definition set_NfiqSig (st : ARMul_State) (v : Z) : ARMul_State :=
  {| Emulate := Emulate st; Reg := Reg st; RegBank := RegBank st; Cpsr := Cpsr st; Spsr
     := Spsr st; NFlag := NFlag st; ZFlag := ZFlag st; CFlag := CFlag st; VFlag := VFlag
     st; IFFlags := IFFlags st; SFlag := SFlag st; TFlag := TFlag st; Bank := Bank st;
     Mode := Mode st; NumIcycles := NumIcycles st; NextInstr := NextInstr st; NtransSig
     := NtransSig st; abortSig := abortSig st; Aborted := Aborted st; AbortAddr :=
     AbortAddr st; bigendSig := bigendSig st; prog32Sig := prog32Sig st; NresetSig :=
     NresetSig st; NfiqSig := v; NirqSig := NirqSig st; is_v4 := is_v4 st; is_v5 :=
     is_v5 st; is_v5e := is_v5e st; is_XScale := is_XScale st; vector_remap_flag :=
     vector_remap_flag st; vector_remap_addr := vector_remap_addr st; mmu_control :=
     mmu_control st; isize := isize st |}.
Definition set_NirqSig (st : ARMul_State) (v : Z) : ARMul_State :=
  {| Emulate := Emulate st; Reg := Reg st; RegBank := RegBank st; Cpsr := Cpsr st; Spsr
     := Spsr st; NFlag := NFlag st; ZFlag := ZFlag st; CFlag := CFlag st; VFlag := VFlag
     st; IFFlags := IFFlags st; SFlag := SFlag st; TFlag := TFlag st; Bank := Bank st;
     Mode := Mode st; NumIcycles := NumIcycles st; NextInstr := NextInstr st; NtransSig
     := NtransSig st; abortSig := abortSig st; Aborted := Aborted st; AbortAddr :=
     AbortAddr st; bigendSig := bigendSig st; prog32Sig := prog32Sig st; NresetSig :=
     NresetSig st; NfiqSig := NfiqSig st; NirqSig := v; is_v4 := is_v4 st; is_v5 :=
     is_v5 st; is_v5e := is_v5e st; is_XScale := is_XScale st; vector_remap_flag :=
     vector_remap_flag st; vector_remap_addr := vector_remap_addr st; mmu_control :=
     mmu_control st; isize := isize st |}.

Section events.
Context {B : Type}.
Implicit Types (s : arm_sys B).

Definition ARMul_Time (s : arm_sys B) : Z :=
  u32 (NumScycles (proc s) + NumNcycles (proc s) + NumIcycles (st_of s) + NumCcycles s
       + NumFcycles s).

Definition ARMul_ScheduleEvent (s : arm_sys B) (delay : Z) (what : cp_event) : arm_sys B :=
  let s := if EventSet s =? 0 then set_Now s (ARMul_Time s) else s in
  let s := set_EventSet s (u32 (EventSet s + 1)) in
  let when := Z.to_nat (u32 (Now s + delay) mod EVENTLISTSIZE) in
  set_EventPtr s (alter (fun l => what :: l) when (EventPtr s)).

Definition event_func (e : cp_event) (st : ARMul_State) : ARMul_State :=
  match e with DoAFIQ => set_NfiqSig st 0 | DoAIRQ => set_NirqSig st 0 end.

(** One slot of the ring. *)
Definition envoke_slot (i : nat) (s : arm_sys B) : arm_sys B :=
  let l := default [] (EventPtr s !! i) in
  let s := foldl (fun s e =>
    set_EventSet (on_st (event_func e) s) (u32 (EventSet s - 1))) s l in
  set_EventPtr s (<[i := []]> (EventPtr s)).

Definition EnvokeList (s : arm_sys B) (from to : Z) : arm_sys B :=
  foldl (fun s i => envoke_slot (Z.to_nat i) s) s (seqZ from (to - from + 1)).

Definition ARMul_EnvokeEvent (s : arm_sys B) : arm_sys B :=
  let before := Now s in
  let s := set_Now s (ARMul_Time s mod EVENTLISTSIZE) in
  if before <? Now s then EnvokeList s before (Now s)
  else if Now s <? before then
    EnvokeList (EnvokeList s before (EVENTLISTSIZE - 1)) 0 (Now s)
  else s.
End events.

(** ** The validation co-processor (armcopro.c) *)

Section copro.
Context {B : Type} `{Bus B} (ops : mmu_ops_t B).
Implicit Types (s : arm_sys B).

Definition NoCoPro3R (s : arm_sys B) : result (Z * arm_sys B) := Val (ARMul_CANT, s).
Definition NoCoPro4R (s : arm_sys B) : result (Z * arm_sys B) := Val (ARMul_CANT, s).
(** [None]: nothing is stored through the pointer. *)
Definition NoCoPro4W (s : arm_sys B) : result (Z * option Z * arm_sys B) :=
  Val (ARMul_CANT, None, s).

Definition ValLDC (ty instr data : Z) (s : arm_sys B) : result (Z * arm_sys B) :=
  if negb (ty =? ARMul_DATA) then Val (ARMul_DONE, set_ldc_words s 0)
  else
    let s := set_ValReg s (updZ (ValReg s) (BITS instr 12 15) data) in
    if BIT instr 22 then
      let words := ldc_words s in
      Val (if words =? 4 then ARMul_DONE else ARMul_INC, set_ldc_words s (u32 (words + 1)))
    else Val (ARMul_DONE, s).

Definition ValSTC (ty instr : Z) (s : arm_sys B) : result (Z * option Z * arm_sys B) :=
  if negb (ty =? ARMul_DATA) then Val (ARMul_DONE, None, set_stc_words s 0)
  else
    let data := nthZ (ValReg s) (BITS instr 12 15) in
    if BIT instr 22 then
      let words := stc_words s in
      Val (if words =? 4 then ARMul_DONE else ARMul_INC, Some data,
           set_stc_words s (u32 (words + 1)))
    else Val (ARMul_DONE, Some data, s).

Definition ValMRC (instr : Z) (s : arm_sys B) : result (Z * option Z * arm_sys B) :=
  Val (ARMul_DONE, Some (nthZ (ValReg s) (BITS instr 16 19)), s).

Definition ValMCR (instr value : Z) (s : arm_sys B) : result (Z * arm_sys B) :=
  Val (ARMul_DONE, set_ValReg s (updZ (ValReg s) (BITS instr 16 19) value)).

Definition ValCDP (ty instr : Z) (s : arm_sys B) : result (Z * arm_sys B) :=
  if negb (BITS instr 20 23 =? 0) then Val (ARMul_CANT, s)
  else if ty =? ARMul_FIRST then
    let howlong := nthZ (ValReg s) (BITS instr 0 3) in
    let s := set_val_finish s (u32 (ARMul_Time s + howlong)) in
    Val (if howlong =? 0 then ARMul_DONE else ARMul_BUSY, s)
  else if ty =? ARMul_BUSY then
    Val (if val_finish s <=? ARMul_Time s then ARMul_DONE else ARMul_BUSY, s)
  else Val (ARMul_CANT, s).

Definition IntCDP (ty instr : Z) (s : arm_sys B) : result (Z * arm_sys B) :=
  let howlong := nthZ (ValReg s) (BITS instr 0 3) in
  let k := BITS instr 20 23 in
  let wait e vector :=
    if howlong =? 0 then on_st (fun st => ARMul_Abort st vector) s
    else ARMul_ScheduleEvent s howlong e in
  if k =? 0 then
    if ty =? ARMul_FIRST then
      let s := set_int_finish s (u32 (ARMul_Time s + howlong)) in
      Val (if howlong =? 0 then ARMul_DONE else ARMul_BUSY, s)
    else if ty =? ARMul_BUSY then
      Val (if int_finish s <=? ARMul_Time s then ARMul_DONE else ARMul_BUSY, s)
    else Val (ARMul_DONE, s)
  else if k =? 1 then Val (ARMul_DONE, wait DoAFIQ ARMul_FIQV)
  else if k =? 2 then Val (ARMul_DONE, wait DoAIRQ ARMul_IRQV)
  else if k =? 3 then Val (ARMul_DONE, on_st (fun st => set_NfiqSig st 1) s)
  else if k =? 4 then Val (ARMul_DONE, on_st (fun st => set_NirqSig st 1) s)
  else if k =? 5 then
    Val (ARMul_DONE, set_ValReg s (updZ (ValReg s) (BITS instr 0 3) (ARMul_Time s)))
  else Val (ARMul_CANT, s).

(** Co-processor 15; the value is an [ARMword]. *)
Definition MMUMRC (instr : Z) (s : arm_sys B) : result (Z * option Z * arm_sys B) :=
  Val (ARMul_DONE, Some (u32 (mmu_mrc ops (proc s) instr)), s).
Definition MMUMCR (instr value : Z) (s : arm_sys B) : result (Z * arm_sys B) :=
  let! m := mmu_mcr ops (proc s) instr value in Val (ARMul_DONE, set_proc s m).

(** ** The tables of handlers *)

Record cp_ops : Type := {
  cp_LDC : Z -> Z -> Z -> Z -> arm_sys B -> result (Z * arm_sys B);
  cp_STC : Z -> Z -> Z -> arm_sys B -> result (Z * option Z * arm_sys B);
  cp_MRC : Z -> Z -> Z -> arm_sys B -> result (Z * option Z * arm_sys B);
  cp_MCR : Z -> Z -> Z -> Z -> arm_sys B -> result (Z * arm_sys B);
  cp_CDP : Z -> Z -> Z -> arm_sys B -> result (Z * arm_sys B)
}.

Definition std_cps : cp_ops :=
  {| cp_LDC n ty instr data s :=
       if (n =? 4) || (n =? 2) then ValLDC ty instr data s else NoCoPro4R s;
     cp_STC n ty instr s := if (n =? 4) || (n =? 2) then ValSTC ty instr s else NoCoPro4W s;
     cp_MRC n ty instr s :=
       if (n =? 4) || (n =? 5) || (n =? 1) then ValMRC instr s
       else if n =? 15 then MMUMRC instr s else NoCoPro4W s;
     cp_MCR n ty instr value s :=
       if (n =? 4) || (n =? 5) || (n =? 1) then ValMCR instr value s
       else if n =? 15 then MMUMCR instr value s else NoCoPro4R s;
     cp_CDP n ty instr s :=
       if n =? 4 then ValCDP ty instr s else if n =? 5 then IntCDP ty instr s
       else NoCoPro3R s |}.

(** ** The co-processor instructions (armsupp.c) *)

Section instructions.
Context (cps : cp_ops).

(** [None] is a wait that is not over. *)
Definition wait (A : Type) : Type := option (result A).
Definition wbind {A C} (r : wait A) (k : A -> wait C) : wait C :=
  match r with
  | None => None
  | Some (Val a) => k a
  | Some (Exit n) => Some (Exit n)
  | Some Sigint => Some Sigint
  | Some Undef => Some Undef
  end.

Definition CP_ACCESS_ALLOWED (s : arm_sys B) (cp : Z) : bool :=
  (14 <=? cp) || negb (c_true (is_XScale (st_of s))) || Z.testbit (copro_access s) cp.

Definition ADDREXCEPT (s : arm_sys B) (address : Z) : bool :=
  (LEGALADDR <? address) && negb (c_true (data32Sig s)).
Definition VECTORACCESS (s : arm_sys B) (address : Z) : bool :=
  (address <? VECTORS) && ARMul_MODE26BIT (st_of s) && c_true (prog32Sig (st_of s)).
Definition INTERNALABORT (address : Z) (s : arm_sys B) : arm_sys B :=
  on_st (fun st =>
    set_Aborted st (if address <? VECTORS then ARMul_DataAbortV else ARMul_AddrExceptnV)) s.

(** TAKEABORT as armsupp.c has it, without [MODE32], and CPTAKEABORT. *)
Definition takeabort (s : arm_sys B) : arm_sys B :=
  on_st (fun st =>
    ARMul_Abort st
      (if Aborted st =? ARMul_AddrExceptnV then ARMul_AddrExceptnV else ARMul_DataAbortV)) s.
Definition CPTAKEABORT (s : arm_sys B) : arm_sys B :=
  if Aborted (st_of s) =? 0 then on_st (fun st => ARMul_Abort st ARMul_UndefinedInstrV) s
  else takeabort s.

Definition cp_undef (s : arm_sys B) : arm_sys B := on_st ARMul_UndefInstr s.
Definition abort_seen (s : arm_sys B) : bool :=
  c_true (abortSig (st_of s)) || c_true (Aborted (st_of s)).
Definition ARMul_Ccycles (s : arm_sys B) (number : Z) : arm_sys B :=
  on_st (fun st => set_abortSig st 0) (set_NumCcycles s (u32 (NumCcycles s + number))).

(** What the pointer argument holds after a call that may store through it. *)
Definition stored_last (old new : option Z) : option Z :=
  match new with Some _ => new | None => old end.

(** The loop on ARMul_BUSY: [call] asks the co-processor with a type.  [None] in the value
    is an interrupt that was pending, after which the function returns. *)
Fixpoint busy_wait (fuel : nat) (call : Z -> arm_sys B -> result (Z * option Z * arm_sys B))
    (cpab : Z) (out : option Z) (s : arm_sys B) : wait (option (Z * option Z) * arm_sys B) :=
  if negb (cpab =? ARMul_BUSY) then Some (Val (Some (cpab, out), s))
  else
    match fuel with
    | O => None
    | S fuel =>
        let s := on_st (fun st => ARMul_Icycles st 1) s in
        let (pending, st) := IntPending (st_of s) in
        let s := on_st (fun _ => st) s in
        if pending then
          wbind (Some (call ARMul_INTERRUPT s)) (fun '(_, s) => Some (Val (None, s)))
        else
          wbind (Some (call ARMul_BUSY s)) (fun '(cpab, new, s) =>
            busy_wait fuel call cpab (stored_last out new) s)
    end.

(** A handler without an output. *)
Definition no_out (f : Z -> arm_sys B -> result (Z * arm_sys B)) (ty : Z) (s : arm_sys B)
    : result (Z * option Z * arm_sys B) :=
  let! (cpab, s) := f ty s in Val (cpab, None, s).

(** The first call and the wait: [k] goes on with the answer. *)
Definition cp_call (fuel : nat) (call : Z -> arm_sys B -> result (Z * option Z * arm_sys B))
    (s : arm_sys B) (k : option (Z * option Z) -> arm_sys B -> wait (arm_sys B))
    : wait (arm_sys B) :=
  wbind (Some (call ARMul_FIRST s)) (fun '(cpab, out, s) =>
  wbind (busy_wait fuel call cpab out s) (fun '(r, s) => k r s)).

(** [if (BIT (21)) ...] and the abort at the end of LDC and STC. *)
Definition cp_finish (instr : Z) (s : arm_sys B) : arm_sys B :=
  let s :=
    if BIT instr 21 && negb (abort_seen s && (lateabtSig (proc s) =? 0)) then
      on_st (fun st => set_reg st (LHSReg instr) (Base s)) s
    else s in
  if abort_seen s then takeabort s else s.

Definition cp_load (s : arm_sys B) (address : Z) : result (Z * arm_sys B) :=
  let! (data, m) := ARMul_LoadWordN ops (proc s) address in Val (data, set_proc s m).
Definition cp_store (s : arm_sys B) (address data : Z) : result (arm_sys B) :=
  let! m := ARMul_StoreWordN ops (proc s) address data in Val (set_proc s m).

(** [while (cpab == ARMul_INC)] of the load. *)
Fixpoint ldc_words_loop (fuel : nat) (instr cpab address : Z) (s : arm_sys B)
    : wait (arm_sys B) :=
  if negb (cpab =? ARMul_INC) then Some (Val s)
  else
    match fuel with
    | O => None
    | S fuel =>
        let address := u32 (address + 4) in
        wbind (Some (cp_load s address)) (fun '(data, s) =>
          if abort_seen s then Some (Val s)
          else
            wbind (Some (cp_LDC cps (CPNum instr) ARMul_DATA instr data s)) (fun '(cpab, s) =>
              ldc_words_loop fuel instr cpab address s))
    end.

(** The transfers of an LDC that the co-processor accepted. *)
Definition ldc_transfer (fuel : nat) (instr address : Z) (s : arm_sys B) : wait (arm_sys B) :=
  wbind (Some (cp_LDC cps (CPNum instr) ARMul_TRANSFER instr 0 s)) (fun '(_, s) =>
  wbind (Some (cp_load s address)) (fun '(data, s) =>
  wbind
    (if abort_seen s then Some (Val s)
     else
       let s := on_st BUSUSEDINCPCN s in
       wbind (Some (cp_LDC cps (CPNum instr) ARMul_DATA instr data s)) (fun '(cpab, s) =>
         ldc_words_loop fuel instr cpab address s))
    (fun s => Some (Val (cp_finish instr s))))).

Definition ARMul_LDC (fuel : nat) (s : arm_sys B) (instr address : Z) : wait (arm_sys B) :=
  if negb (CP_ACCESS_ALLOWED s (CPNum instr)) then Some (Val (cp_undef s))
  else
    let s := if ADDREXCEPT s address then INTERNALABORT address s else s in
    cp_call fuel (no_out (fun ty => cp_LDC cps (CPNum instr) ty instr 0)) s (fun r s =>
      match r with
      | None => Some (Val s)
      | Some (cpab, _) =>
          if cpab =? ARMul_CANT then Some (Val (CPTAKEABORT s))
          else ldc_transfer fuel instr address s
      end).

(** [data] holds what the co-processor stored last; a store of nothing is a read of an
    unset variable. *)
Definition stc_data (instr : Z) (data : option Z) (s : arm_sys B)
    : result (Z * option Z * arm_sys B) :=
  let! (cpab, d, s) := cp_STC cps (CPNum instr) ARMul_DATA instr s in
  Val (cpab, stored_last data d, s).

Definition stc_store (s : arm_sys B) (address : Z) (data : option Z) : result (arm_sys B) :=
  match data with Some d => cp_store s address d | None => Undef end.

Fixpoint stc_words_loop (fuel : nat) (instr cpab address : Z) (data : option Z)
    (s : arm_sys B) : wait (arm_sys B) :=
  if negb (cpab =? ARMul_INC) then Some (Val s)
  else
    match fuel with
    | O => None
    | S fuel =>
        let address := u32 (address + 4) in
        wbind (Some (stc_data instr data s)) (fun '(cpab, data, s) =>
        wbind (Some (stc_store s address data)) (fun s =>
          if abort_seen s then Some (Val s)
          else stc_words_loop fuel instr cpab address data s))
    end.

Definition stc_transfer (fuel : nat) (instr address : Z) (data : option Z) (s : arm_sys B)
    : wait (arm_sys B) :=
  let s :=
    if ADDREXCEPT s address || VECTORACCESS s address then INTERNALABORT address s else s in
  let s := on_st BUSUSEDINCPCN s in
  wbind (Some (stc_data instr data s)) (fun '(cpab, data, s) =>
  wbind (Some (stc_store s address data)) (fun s =>
  wbind
    (if abort_seen s then Some (Val s) else stc_words_loop fuel instr cpab address data s)
    (fun s => Some (Val (cp_finish instr s))))).

Definition ARMul_STC (fuel : nat) (s : arm_sys B) (instr address : Z) : wait (arm_sys B) :=
  if negb (CP_ACCESS_ALLOWED s (CPNum instr)) then Some (Val (cp_undef s))
  else
    let s :=
      if ADDREXCEPT s address || VECTORACCESS s address then INTERNALABORT address s else s in
    cp_call fuel (fun ty => cp_STC cps (CPNum instr) ty instr) s (fun r s =>
      match r with
      | None => Some (Val s)
      | Some (cpab, data) =>
          if cpab =? ARMul_CANT then Some (Val (CPTAKEABORT s))
          else stc_transfer fuel instr address data s
      end).

(** An interrupt tells the handler with the value 0. *)
Definition mcr_call (instr source ty : Z) : arm_sys B -> result (Z * arm_sys B) :=
  cp_MCR cps (CPNum instr) ty instr (if ty =? ARMul_INTERRUPT then 0 else source).

Definition ARMul_MCR (fuel : nat) (s : arm_sys B) (instr source : Z) : wait (arm_sys B) :=
  if negb (CP_ACCESS_ALLOWED s (CPNum instr)) then Some (Val (cp_undef s))
  else
    cp_call fuel (no_out (mcr_call instr source)) s (fun r s =>
      match r with
      | None => Some (Val s)
      | Some (cpab, _) =>
          Some (Val
            (if cpab =? ARMul_CANT then on_st (fun st => ARMul_Abort st ARMul_UndefinedInstrV) s
             else ARMul_Ccycles (on_st BUSUSEDINCPCN s) 1))
      end).

(** MRC hands its value to [k]. *)
Definition ARMul_MRC (fuel : nat) (s : arm_sys B) (instr : Z) (k : Z -> arm_sys B -> arm_sys B)
    : wait (arm_sys B) :=
  if negb (CP_ACCESS_ALLOWED s (CPNum instr)) then Some (Val (k 0 (cp_undef s)))
  else
    cp_call fuel (fun ty => cp_MRC cps (CPNum instr) ty instr) s (fun r s =>
      match r with
      | None => Some (Val (k 0 s))
      | Some (cpab, out) =>
          Some (Val
            (if cpab =? ARMul_CANT then
               let s := on_st (fun st => ARMul_Abort st ARMul_UndefinedInstrV) s in
               k (ECC (st_of s)) s
             else
               let s := ARMul_Ccycles (on_st BUSUSEDINCPCN s) 1 in
               k (default 0 out) (on_st (fun st => ARMul_Icycles st 1) s)))
      end).

Definition ARMul_CDP (fuel : nat) (s : arm_sys B) (instr : Z) : wait (arm_sys B) :=
  if negb (CP_ACCESS_ALLOWED s (CPNum instr)) then Some (Val (cp_undef s))
  else
    cp_call fuel (no_out (fun ty => cp_CDP cps (CPNum instr) ty instr)) s (fun r s =>
      match r with
      | None => Some (Val s)
      | Some (cpab, _) =>
          Some (Val
            (if cpab =? ARMul_CANT then on_st (fun st => ARMul_Abort st ARMul_UndefinedInstrV) s
             else on_st (fun st => set_NextInstr st (Z.lor (NextInstr st) 1)) s))
      end).

(** ** The XScale accumulator (armemu32.c) *)

Definition accumulate (s : arm_sys B) (v : Z) : arm_sys B :=
  set_Accumulator s (u64 (Accumulator s + v)).

(** A halfword with its sign in an [ARMword]. *)
Definition signed_half (x : Z) : Z := if BIT x 15 then u32 (x - 65536) else x.
Definition half_product (x y : Z) : Z := s32 (u32 (signed_half x * signed_half y)).

(** [None]: not one of the multiplications. *)
Definition xscale_mia (s : arm_sys B) (instr : Z) : option (arm_sys B) :=
  let Rm := reg (st_of s) (BITS instr 0 3) in
  let Rs := reg (st_of s) (BITS instr 12 15) in
  let top x := Z.shiftr x 16 in
  let low x := Z.land x 0xffff in
  let plain := (BITS instr 4 11 =? 1) && (BITS instr 16 17 =? 0) in
  if BITS instr 18 19 =? 0 then
    if plain then Some (accumulate s (s32 Rm * s32 Rs)) else None
  else if BITS instr 18 19 =? 2 then
    if plain then
      Some (accumulate (accumulate s (half_product (top Rm) (top Rs)))
              (half_product (low Rm) (low Rs)))
    else None
  else if BITS instr 18 19 =? 3 then
    if BITS instr 4 11 =? 1 then
      Some (accumulate s
              (half_product (if BIT instr 17 then top Rm else low Rm)
                 (if BIT instr 16 then top Rs else low Rs)))
    else None
  else None.

(** MAR and MRA: [None] is the fall to the store or load. *)
Definition xscale_move (s : arm_sys B) (instr : Z) (f : arm_sys B -> arm_sys B)
    : option (arm_sys B) :=
  if c_true (is_v5 (st_of s)) then
    Some
      (if (BITS instr 12 15 =? 15) || (BITS instr 16 19 =? 15) then cp_undef s
       else if negb (CP_ACCESS_ALLOWED s (CPNum instr)) then cp_undef s
       else if c_true (is_XScale (st_of s)) then
         if negb (BITS instr 4 7 =? 0) then cp_undef s
         else if negb (CPNum instr =? 0) then cp_undef s
         else if negb (BITS instr 0 3 =? 0) then cp_undef s
         else f s
       else cp_undef s)
  else None.

Definition xscale_mar (instr : Z) (s : arm_sys B) : arm_sys B :=
  set_Accumulator s
    (u64 (reg (st_of s) (BITS instr 12 15)
          + u64 (Z.shiftl (reg (st_of s) (BITS instr 16 19)) 32))).
Definition xscale_mra (instr : Z) (s : arm_sys B) : arm_sys B :=
  let t1 := Z.land (Z.shiftr (Accumulator s) 32) 255 in
  let t1 := if c_true (Z.land t1 128) then u32 (t1 - 256) else t1 in
  let s := on_st (fun st => set_reg st (BITS instr 12 15) (u32 (Accumulator s))) s in
  on_st (fun st => set_reg st (BITS instr 16 19) t1) s.

(** ** The cases 0xc0 to 0xef *)

(** The address of a transfer and the new base, by the bits P, U and W. *)
Definition cp_transfer (load : bool) (fuel : nat) (s : arm_sys B) (instr k : Z)
    : wait (arm_sys B) :=
  let p := Z.testbit k 4 in
  let lhs := LHS (st_of s) instr in
  let sum := u32 (if Z.testbit k 3 then lhs + LSCOff instr else lhs - LSCOff instr) in
  let s := if Z.testbit k 1 then set_Base s sum else s in
  let address := if p then sum else lhs in
  if load then ARMul_LDC fuel s instr address else ARMul_STC fuel s instr address.

Definition cp_mcr_or_cdp (fuel : nat) (s : arm_sys B) (instr : Z) : wait (arm_sys B) :=
  if BIT instr 4 then
    ARMul_MCR fuel s instr
      (if DESTReg instr =? 15 then u32 (reg (st_of s) 15 + isize (st_of s))
       else reg (st_of s) (DESTReg instr))
  else ARMul_CDP fuel s instr.

Definition mrc_dest (instr temp : Z) (s : arm_sys B) : arm_sys B :=
  if DESTReg instr =? 15 then
    on_st (fun st =>
      let bit b := Z.b2z (c_true (Z.land temp b)) in
      set_VFlag (set_CFlag (set_ZFlag (set_NFlag st (bit NBIT)) (bit ZBIT)) (bit CBIT))
        (bit VBIT)) s
  else on_st (fun st => set_reg st (DESTReg instr) temp) s.

Definition cp_mrc_or_cdp (fuel : nat) (s : arm_sys B) (instr : Z) : wait (arm_sys B) :=
  if BIT instr 4 then ARMul_MRC fuel s instr (mrc_dest instr) else ARMul_CDP fuel s instr.

Definition cp_switch (fuel : nat) (s : arm_sys B) (instr k : Z) : wait (arm_sys B) :=
  if k =? 0xc4 then
    match xscale_move s instr (xscale_mar instr) with
    | Some s => Some (Val s)
    | None => cp_transfer false fuel s instr k
    end
  else if k =? 0xc5 then
    match xscale_move s instr (xscale_mra instr) with
    | Some s => Some (Val s)
    | None => cp_transfer true fuel s instr k
    end
  else if k <? 0xe0 then cp_transfer (Z.testbit k 0) fuel s instr k
  else if k =? 0xe2 then
    if negb (CP_ACCESS_ALLOWED s (CPNum instr)) then Some (Val (cp_undef s))
    else
      match (if c_true (is_XScale (st_of s)) then xscale_mia s instr else None) with
      | Some s => Some (Val s)
      | None => cp_mcr_or_cdp fuel s instr
      end
  else if Z.testbit k 0 then cp_mrc_or_cdp fuel s instr
  else cp_mcr_or_cdp fuel s instr.
End instructions.
End copro.
