(* ===== verification/ArmRun.v ===== *)
(** * The fetch loop (src/arch_arm/common/armemu32.c, armio.c)

    [ARMul_Emulate32]: the pipeline of two prefetched instructions, the scheduled events,
    the exceptions, a cycle of the devices and the execution of one instruction.

    The hooks of the debugger and of the logs are off: [debugmode], [CallDebug], [tea_pc]
    and [logon] are 0, so that [have_bp] is 0.  [stop_simulator] stays 0: only the
    debugger sets it.  What the machine does in a cycle ([mach_io_do_cycle] and the
    updates of the devices) and [ARMul_Debug], which no file of the repository defines,
    are parameters. *)

From Stdlib Require Import ZArith Bool.
From stdpp Require Import base numbers option list.
From S2P Require Import Prelude Words Bus ArmState ArmSupp ArmShift ArmExec Thumb.
From S2P Require Import ArmMachine ArmTlb ArmCache ArmMmu ArmMem ArmTransfer ArmCopro.

Definition STOP : Z := 0.
Definition ONCE : Z := 2.
Definition RUN : Z := 3.

Definition set_isize (st : ARMul_State) (v : Z) : ARMul_State :=
  {| Emulate := Emulate st; Reg := Reg st; RegBank := RegBank st; Cpsr := Cpsr st; Spsr
     := Spsr st; NFlag := NFlag st; ZFlag := ZFlag st; CFlag := CFlag st; VFlag := VFlag
     st; IFFlags := IFFlags st; SFlag := SFlag st; TFlag := TFlag st; Bank := Bank st;
     Mode := Mode st; NumIcycles := NumIcycles st; NextInstr := NextInstr st; NtransSig
     := NtransSig st; abortSig := abortSig st; Aborted := Aborted st; AbortAddr :=
     AbortAddr st; bigendSig := bigendSig st; prog32Sig := prog32Sig st; NresetSig :=
     NresetSig st; NfiqSig := NfiqSig st; NirqSig := NirqSig st; is_v4 := is_v4 st;
     is_v5 := is_v5 st; is_v5e := is_v5e st; is_XScale := is_XScale st;
     vector_remap_flag := vector_remap_flag st; vector_remap_addr := vector_remap_addr
     st; mmu_control := mmu_control st; isize := v |}.

(** The local variables [decoded], [loaded] and [pc]. *)
Record pipe : Type := { decoded : Z; loaded : Z; ppc : Z }.

(** How an iteration ends: [break] out of the loop, or its condition. *)
Inductive flow : Type := Leave | Again.

(** What the loop calls and this library does not model. *)
Record run_env (B : Type) : Type := {
  mach_io_do_cycle : arm_sys B -> result (arm_sys B);
  ARMul_Debug : arm_sys B -> arm_sys B
}.
Arguments mach_io_do_cycle {B} r s : rename.
Arguments ARMul_Debug {B} r s : rename.

Section run.
Context {B : Type} `{Bus B} (ops : mmu_ops_t B) (cps : cp_ops (B := B)) (env : run_env B).
Implicit Types (s : arm_sys B) (p : pipe).

(** ** The pipeline *)

Definition fetch_with (f : arm_machine B -> Z -> Z -> result (Z * arm_machine B))
    (s : arm_sys B) (address : Z) : result (Z * arm_sys B) :=
  let! (w, m) := f (proc s) (u32 address) (isize (st_of s)) in Val (w, set_proc s m).

(** The pipeline advances by one instruction. *)
Definition advance (seq inced normal : bool) (s : arm_sys B) (p : pipe)
    : result (Z * arm_sys B * pipe) :=
  let size := isize (st_of s) in
  let s :=
    if inced then s else on_st (fun st => set_reg st 15 (u32 (reg st 15 + size))) s in
  let pc := u32 (ppc p + size) in
  let! (w, s) :=
    fetch_with (if seq then ARMul_LoadInstrS ops else ARMul_LoadInstrN ops) s (pc + size * 2) in
  let s := if normal then on_st (fun st => set_NextInstr st SEQ) s else s in
  Val (decoded p, s, {| decoded := loaded p; loaded := w; ppc := pc |}).

(** The program counter has been changed: three fetches. *)
Definition refill (resume : bool) (s : arm_sys B) : result (Z * arm_sys B * pipe) :=
  let size := isize (st_of s) in
  let pc := reg (st_of s) 15 in
  let s := on_st (fun st => set_reg st 15 (u32 (pc + size * 2))) s in
  let s := on_st (fun st => set_AbortAddr (set_Aborted st 0) 1) s in
  let first := if resume then ARMul_ReLoadInstr ops else ARMul_LoadInstrN ops in
  let next := if resume then ARMul_ReLoadInstr ops else ARMul_LoadInstrS ops in
  let! (instr, s) := fetch_with first s pc in
  let! (d, s) := fetch_with next s (pc + size) in
  let! (l, s) := fetch_with next s (pc + size * 2) in
  let s := on_st (fun st => set_NextInstr st SEQ) s in
  Val (instr, s, {| decoded := d; loaded := l; ppc := pc |}).

Definition fetch (s : arm_sys B) (p : pipe) : result (Z * arm_sys B * pipe) :=
  let next := NextInstr (st_of s) in
  if next =? SEQ then advance true false false s p
  else if next =? NONSEQ then advance false false true s p
  else if next =? PCINCEDSEQ then advance true true true s p
  else if next =? PCINCEDNONSEQ then advance false true true s p
  else refill (next =? RESUME) s.

(** ** Exceptions and cycles *)

(** The exception that is taken before the next instruction. *)
Definition pending_vector (st : ARMul_State) : option Z :=
  if NresetSig st =? 0 then Some ARMul_ResetV
  else if negb (c_true (NfiqSig st)) && negb (c_true (FFLAG st)) then Some ARMul_FIQV
  else if negb (c_true (NirqSig st)) && negb (c_true (IFLAG st)) then Some ARMul_IRQV
  else None.

Definition io_do_cycle (s : arm_sys B) : result (arm_sys B) :=
  let s := set_prescale s (prescale s - 1) in
  if prescale s <=? 0 then mach_io_do_cycle env (set_prescale s (io_cycle_divisor s))
  else Val s.

(** ** One instruction *)

Definition sys_execute (fuel : nat) (s : arm_sys B) (instr pc : Z) : wait (arm_sys B) :=
  match machine_execute ops (proc s) instr pc with
  | Some r => Some (let! m := r in Val (set_proc s m))
  | None => cp_switch ops cps fuel s instr (BITS instr 20 27)
  end.

(** With the translation of a Thumb instruction. *)
Definition sys_step (fuel : nat) (s : arm_sys B) (instr pc : Z) : wait (arm_sys B) :=
  if c_true (TFlag (st_of s)) then
    match ARMul_ThumbDecode (st_of s) pc instr with
    | (t_undefined, _, st) => Some (Val (on_st (fun _ => ARMul_UndefInstr st) s))
    | (t_branch, _, st) => Some (Val (on_st (fun _ => st) s))
    | (t_decoded, new, st) => sys_execute fuel (on_st (fun _ => st) s) new pc
    end
  else sys_execute fuel s instr pc.

(** The label [donext] and what follows it. *)
Definition tea_break (pc : Z) (s : arm_sys B) : arm_sys B :=
  if c_true (tea_break_ok s) && (pc =? tea_break_addr s) then
    set_tea_break_ok (ARMul_Debug env s) 0
  else set_tea_break_ok s 1.

Definition test_emulate (s : arm_sys B) : flow * arm_sys B :=
  if Emulate (st_of s) =? ONCE then (Again, on_st (fun st => set_Emulate st STOP) s)
  else if Emulate (st_of s) =? RUN then (Again, s) else (Leave, s).

(** ** The loop *)

Definition emulate_body (fuel : nat) (s : arm_sys B) (p : pipe)
    : wait (flow * arm_sys B * pipe) :=
  let s := on_st (fun st => set_isize st (INSN_SIZE st)) s in
  wbind (Some (fetch s p)) (fun '(instr, s, p) =>
    let s := if EventSet s =? 0 then s else ARMul_EnvokeEvent s in
    match pending_vector (st_of s) with
    | Some v => Some (Val (Leave, on_st (fun st => ARMul_Abort st v) s, p))
    | None =>
        if Emulate (st_of s) <? ONCE then
          Some (Val (Leave, on_st (fun st => set_NextInstr st RESUME) s, p))
        else
          wbind (Some (io_do_cycle s)) (fun s =>
            let s := set_NumInstrs s (u64 (NumInstrs s + 1)) in
            wbind (sys_step fuel s instr (ppc p)) (fun s =>
              let (f, s) := test_emulate (tea_break (ppc p) s) in
              Some (Val (f, s, p))))
    end).

(** [n] bounds the iterations, [fuel] the waits of co-processors. *)
Fixpoint emulate_loop (n fuel : nat) (s : arm_sys B) (p : pipe) : wait (arm_sys B * pipe) :=
  match n with
  | O => None
  | S n =>
      wbind (emulate_body fuel s p) (fun '(f, s, p) =>
        match f with Leave => Some (Val (s, p)) | Again => emulate_loop n fuel s p end)
  end.

(** The local variables start from the saved pipeline or from 0. *)
Definition pipe_of (s : arm_sys B) : pipe :=
  if NextInstr (st_of s) <? PRIMEPIPE then
    {| decoded := s_decoded s; loaded := s_loaded s; ppc := s_pc s |}
  else {| decoded := 0; loaded := 0; ppc := 0 |}.

Definition save_pipe (s : arm_sys B) (p : pipe) : arm_sys B :=
  set_s_pc (set_s_loaded (set_s_decoded s (decoded p)) (loaded p)) (ppc p).

Definition ARMul_Emulate32 (n fuel : nat) (s : arm_sys B) : wait (Z * arm_sys B) :=
  wbind (emulate_loop n fuel s (pipe_of s)) (fun '(s, p) =>
    Some (Val (ppc p, save_pipe s p))).
End run.
