(* ===== verification/ArmMmuTyped.v ===== *)
(** * The memory management unit keeps its arrays

    The shape of the translation look-aside buffer and of the cache that
    [a71_mmu_init] sets up, and that every operation keeps it: no index leaves an
    array, and every word a read gives is a 32-bit word. *)

From Stdlib Require Import ZArith Lia Bool.
From stdpp Require Import base numbers option list.
From S2P Require Import Prelude Words Bus ArmState ArmMachine ArmTlb ArmCache ArmMmu.

Create HintDb mmu.

(** ** The invariant *)

Record line_ok (l : cache_line_t) : Prop := {
  lo_len : length (line_data l) = 4%nat;
  lo_words : Forall is_u32 (line_data l)
}.

Record set_ok (s : cache_set_t) : Prop := {
  so_len : length (lines s) = 4%nat;
  so_lines : Forall line_ok (lines s);
  so_cycle : 0 <= set_cycle s < 4
}.

Record a71_cache_ok (c : cache_t) : Prop := {
  co_width : width c = 16;
  co_way : way c = 4;
  co_num : sets_num c = 128;
  co_mode : w_mode c = CACHE_WRITE_THROUGH;
  co_len : length (sets c) = 128%nat;
  co_sets : Forall set_ok (sets c)
}.

Record a71_tlb_ok (t : tlb_t) : Prop := {
  to_len : length (entrys t) = 64%nat;
  to_cycle : 0 <= tlb_cycle t < 64
}.

Record mmu_shape (u : mmu_state) : Prop := {
  ms_cache : a71_cache_ok (the_cache u);
  ms_tlb : a71_tlb_ok (the_tlb u)
}.

(** ** Translation look-aside buffer *)

Lemma invalidate_all_ok t : a71_tlb_ok t -> a71_tlb_ok (mmu_tlb_invalidate_all t).
Proof. intros [Hl Hc]. split; cbn; [by rewrite length_map|lia]. Qed.

Lemma invalidate_entry_ok t a : a71_tlb_ok t -> a71_tlb_ok (mmu_tlb_invalidate_entry t a).
Proof.
  intros [Hl Hc]. unfold mmu_tlb_invalidate_entry. destruct (mmu_tlb_search t a) as [[i e]|]; [|done].
  split; cbn; [by rewrite length_insert|done].
Qed.

Lemma tlb_place_ok t e : a71_tlb_ok t -> a71_tlb_ok (tlb_place t e).
Proof.
  intros [Hl Hc]. split; cbn; [by rewrite length_insert|]. rewrite Hl. apply Z.mod_pos_bound. lia.
Qed.

Lemma tlb_init_ok junk : a71_tlb_ok (mmu_tlb_init junk 64).
Proof. split; [apply length_replicate|cbn; lia]. Qed.

(** ** Lines of the cache *)

Lemma line_ok_set_tag l v : line_ok l -> line_ok (set_tag v l).
Proof. intros [? ?]. by split. Qed.
Lemma line_ok_set_pa l v : line_ok l -> line_ok (set_line_pa v l).
Proof. intros [? ?]. by split. Qed.
#[export] Hint Resolve line_ok_set_tag line_ok_set_pa : mmu.

Lemma get_line_ok c r l : a71_cache_ok c -> get_line c r = Some l -> line_ok l.
Proof.
  intros Hc. unfold get_line. destruct (sets c !! r.1) as [s|] eqn:Hs; [|done]. intros Hl.
  pose proof (Forall_lookup_1 _ _ _ _ (co_sets c Hc) Hs) as Hso.
  by eapply (Forall_lookup_1 _ _ _ _ (so_lines s Hso)).
Qed.

Lemma set_sets_ok c v :
  a71_cache_ok c -> length v = 128%nat -> Forall set_ok v -> a71_cache_ok (set_sets c v).
Proof. intros [? ? ? ? ? ?] ? ?. by split. Qed.

Lemma upd_line_ok c r f :
  a71_cache_ok c -> (forall l, line_ok l -> line_ok (f l)) -> a71_cache_ok (upd_line c r f).
Proof.
  intros Hc Hf. apply set_sets_ok; [done|rewrite length_alter; apply Hc|].
  apply Forall_alter; [apply Hc|]. intros s _ [Hl Hs Hy]. split; cbn;
    [by rewrite length_alter| |done].
  apply Forall_alter; [done|]. auto.
Qed.

(** ** Transfers *)

Section transfers.
Context {B : Type} `{BusLaws B}.

Lemma read_line_ok n i t data (b : B) :
  length data = 4%nat -> Forall is_u32 data -> bus_inv b ->
  holds (fun '(d, b') => length d = 4%nat /\ Forall is_u32 d /\ bus_inv b') (read_line n i t data b).
Proof.
  revert i t data b. induction n as [|n IH]; intros i t data b Hl Hd Hb; cbn [read_line]; [done|].
  eapply holds_bind; [by apply bus_read_law|]. intros [[st v] b'] (_ & Hv & Hb').
  destruct v as [w|]; apply IH; try done; [by rewrite length_insert|]. apply Forall_insert; auto.
Qed.

Lemma write_words_ok ws pa (b : B) : bus_inv b -> holds bus_inv (write_words ws pa b).
Proof.
  revert pa b. induction ws as [|w ws IH]; intros pa b Hb; cbn [write_words]; [done|].
  eapply holds_bind; [by apply bus_write_law|]. intros [st b'] [_ Hb']. by apply IH.
Qed.

Definition line_result (r : result (cache_line_t * B)) : Prop :=
  holds (fun '(l, b) => line_ok l /\ bus_inv b) r.

Lemma write_back_ok c l (b : B) : line_ok l -> bus_inv b -> line_result (mmu_cache_write_back c l b).
Proof.
  intros Hl Hb. unfold mmu_cache_write_back, line_result. case_match; [done|].
  destruct (dirty_words c l) as [ws pa].
  eapply holds_bind; [by apply write_words_ok|]. cbn. auto with mmu.
Qed.

Lemma invalidate_line_ok c l (b : B) : line_ok l -> bus_inv b -> line_result (invalidate_line c l b).
Proof.
  intros Hl Hb. unfold invalidate_line, line_result.
  eapply holds_bind; [by apply write_back_ok|]. intros [l' b'] [? ?]. cbn. auto with mmu.
Qed.

Definition cache_result (r : result (cache_t * B)) : Prop :=
  holds (fun '(c, b) => a71_cache_ok c /\ bus_inv b) r.

Lemma on_line_ok f c r (b : B) :
  a71_cache_ok c -> bus_inv b ->
  (forall l b, line_ok l -> bus_inv b -> line_result (f l b)) -> cache_result (on_line f c r b).
Proof.
  intros Hc Hb Hf. unfold on_line, cache_result. destruct (get_line c r) as [l|] eqn:Hg; [|done].
  eapply holds_bind; [apply Hf; [by eapply get_line_ok|done]|].
  intros [l' b'] [? ?]. cbn. split; [by apply upd_line_ok|done].
Qed.

Lemma invalidate_lines_ok c ls (b : B) :
  Forall line_ok ls -> bus_inv b ->
  holds (fun '(ls', b') => length ls' = length ls /\ Forall line_ok ls' /\ bus_inv b')
    (invalidate_lines c ls b).
Proof.
  revert b. induction ls as [|l ls IH]; intros b Hl Hb; cbn [invalidate_lines]; [done|].
  apply Forall_cons in Hl as [Hl Hls].
  eapply holds_bind; [by apply invalidate_line_ok|]. intros [l' b1] [? ?].
  eapply holds_bind; [by apply IH|]. intros [ls' b2] (? & ? & ?). cbn.
  split; [by f_equal|]. split; [by constructor|done].
Qed.

Lemma invalidate_sets_ok c ss (b : B) :
  Forall set_ok ss -> bus_inv b ->
  holds (fun '(ss', b') => length ss' = length ss /\ Forall set_ok ss' /\ bus_inv b')
    (invalidate_sets c ss b).
Proof.
  revert b. induction ss as [|s ss IH]; intros b Hs Hb; cbn [invalidate_sets]; [done|].
  apply Forall_cons in Hs as [[Hl Hls Hy] Hss].
  eapply holds_bind; [by apply invalidate_lines_ok|]. intros [ls' b1] (? & ? & ?).
  eapply holds_bind; [by apply IH|]. intros [ss' b2] (? & ? & ?). cbn.
  split; [by f_equal|]. split; [|done]. constructor; [|done]. split; cbn; congruence || done.
Qed.

Lemma cache_invalidate_all_ok c (b : B) :
  a71_cache_ok c -> bus_inv b -> cache_result (mmu_cache_invalidate_all c b).
Proof.
  intros Hc Hb. unfold mmu_cache_invalidate_all, cache_result.
  eapply holds_bind; [apply invalidate_sets_ok; [apply Hc|done]|].
  intros [ss b'] (Hl & ? & ?). cbn. split; [|done].
  apply set_sets_ok; [done|rewrite Hl; apply Hc|done].
Qed.

Lemma next_line_ok c va :
  a71_cache_ok c -> holds (fun '(r, c') => a71_cache_ok c') (next_line c va).
Proof.
  intros Hc. unfold next_line. destruct (sets c !! _) as [s|] eqn:Hs; [|done]. cbn.
  pose proof (Forall_lookup_1 _ _ _ _ (co_sets c Hc) Hs) as [Hl Hls Hy].
  apply set_sets_ok; [done|rewrite length_insert; apply Hc|].
  apply Forall_insert; [apply Hc|]. split; cbn; [done|done|].
  rewrite (co_way c Hc). destruct (Z.eqb_spec (set_cycle s + 1) 4); lia.
Qed.

Lemma alloc_ok c va pa (b : B) :
  a71_cache_ok c -> bus_inv b ->
  holds (fun '(r, c', b') => a71_cache_ok c' /\ bus_inv b') (mmu_cache_alloc c va pa b).
Proof.
  intros Hc Hb. unfold mmu_cache_alloc.
  eapply holds_bind; [by apply next_line_ok|]. intros [r c1] Hc1.
  apply (holds_bind (fun '(c', b') => a71_cache_ok c' /\ bus_inv b')); [|by intros [c2 b2]].
  rewrite (co_mode c1 Hc1). apply on_line_ok; [done|done|].
  intros l b' Hl Hb'. cbn. auto with mmu.
Qed.
End transfers.

(** ** The machine *)

(** What an access of the memory management unit may change. *)
Record mmu_frame {B} (m m' : arm_machine B) : Prop := {
  fr_core : core m' = core m;
  fr_late : lateabtSig m' = lateabtSig m;
  fr_v6 : is_v6 m' = is_v6 m
}.

Lemma mmu_frame_refl {B} (m : arm_machine B) : mmu_frame m m.
Proof. by split. Qed.

Lemma mmu_frame_trans {B} (m1 m2 m3 : arm_machine B) :
  mmu_frame m1 m2 -> mmu_frame m2 m3 -> mmu_frame m1 m3.
Proof. intros [? ? ?] [? ? ?]. split; congruence. Qed.

Section machine.
Context {B : Type} `{BusLaws B}.
Implicit Types (m : arm_machine B).

Record unit_ok m : Prop := {
  uo_shape : mmu_shape (mmu m);
  uo_bus : bus_inv (abus m)
}.

(** A step of the unit. *)
Definition unit_step m m' : Prop := unit_ok m' /\ mmu_frame m m'.

Lemma unit_step_refl m : unit_ok m -> unit_step m m.
Proof. split; [done|apply mmu_frame_refl]. Qed.

Lemma unit_step_trans m1 m2 m3 : unit_step m1 m2 -> unit_step m2 m3 -> unit_step m1 m3.
Proof. intros [? ?] [? ?]. split; [done|by eapply mmu_frame_trans]. Qed.

Lemma unit_step_bus m b : unit_ok m -> bus_inv b -> unit_step m (set_abus m b).
Proof. intros [Hs Hb] Hb'. by split. Qed.

Lemma unit_step_domain m d : unit_ok m -> unit_step m (set_domain d m).
Proof. intros [[? ?] ?]. by split. Qed.

Lemma unit_step_tlb m t :
  unit_ok m -> a71_tlb_ok t -> unit_step m (on_mmu (fun u => set_the_tlb u t) m).
Proof. intros [[? ?] ?]. by split. Qed.

Lemma unit_step_cache m c b :
  unit_ok m -> a71_cache_ok c -> bus_inv b -> unit_step m (set_cache c (set_abus m b)).
Proof. intros [[? ?] ?]. by split. Qed.

(** What an operation gives besides. *)
Definition gives {A} m (P : A -> Prop) (r : result (A * arm_machine B)) : Prop :=
  holds (fun '(x, m') => P x /\ unit_step m m') r.

Lemma gives_bind {A C} m (P : A -> Prop) (Q : C -> Prop) r
    (k : A * arm_machine B -> result (C * arm_machine B)) :
  gives m P r -> (forall x m', P x -> unit_step m m' -> gives m' Q (k (x, m'))) ->
  gives m Q (rbind r k).
Proof.
  intros Hr Hk. eapply holds_bind; [exact Hr|]. intros [x m'] [Hx Hm].
  eapply holds_impl; [|by apply Hk]. intros [y m''] [? ?]. split; [done|].
  by eapply unit_step_trans.
Qed.

Lemma gives_val {A} m m' (P : A -> Prop) x : P x -> unit_step m m' -> gives m P (Val (x, m')).
Proof. done. Qed.

(** *** Translation *)

Lemma read_desc_gives m addr : unit_ok m -> gives m is_u32 (read_desc m addr).
Proof.
  intros Hm. unfold read_desc, gives. eapply holds_bind; [apply bus_read_law, Hm|].
  intros [[st v] b'] (_ & Hv & Hb'). destruct v as [w|]; cbn; [|done].
  split; [auto|by apply unit_step_bus].
Qed.

Definition entry_valid (e : tlb_entry_t) : Prop := mapping e <> TLB_INVALID.
Definition walked (r : Z * option tlb_entry_t) : Prop := forall e, r.2 = Some e -> entry_valid e.

Lemma walk_l2_gives m addr f va l1desc :
  unit_ok m -> (forall d mp, f d = Some mp -> mp <> TLB_INVALID) ->
  gives m walked (walk_l2 addr f va l1desc m).
Proof.
  intros Hm Hf. unfold walk_l2.
  eapply gives_bind; [by apply read_desc_gives|]. intros l2desc m' _ [Hm' _]. cbv zeta.
  destruct (f l2desc) eqn:E; (apply gives_val; [|by apply unit_step_domain || by apply unit_step_refl]).
  - intros e [= <-]. by eapply Hf.
  - done.
Qed.

Lemma fine_mapping_valid d mp : fine_mapping d = Some mp -> mp <> TLB_INVALID.
Proof. unfold fine_mapping. repeat case_match; congruence. Qed.
Lemma coarse_mapping_valid x d mp : coarse_mapping x d = Some mp -> mp <> TLB_INVALID.
Proof. unfold coarse_mapping. repeat case_match; congruence. Qed.

Lemma walk_tables_gives m va : unit_ok m -> gives m walked (walk_tables m va).
Proof.
  intros Hm. unfold walk_tables.
  eapply gives_bind; [by apply read_desc_gives|]. intros l1desc m' _ [Hm' _]. cbv zeta.
  repeat case_match; try (apply walk_l2_gives; [done|]);
    eauto using fine_mapping_valid, coarse_mapping_valid;
    (apply gives_val; [|by apply unit_step_refl]); intros e; cbn; intros [= <-] || done; done.
Qed.

Lemma tlb_search_valid t va i e : mmu_tlb_search t va = Some (i, e) -> entry_valid e.
Proof.
  unfold mmu_tlb_search. generalize (entrys t). intros l. generalize 0%nat. revert i.
  induction l as [|a l IH]; intros i n; cbn; [done|].
  destruct (tlb_hit va a) eqn:Hh; [|apply IH]. intros [= <- <-]. unfold entry_valid.
  unfold tlb_hit in Hh. by destruct (mapping a).
Qed.

Lemma translate_gives m va : unit_ok m -> gives m walked (translate m va).
Proof.
  intros Hm. unfold translate. destruct (mmu_tlb_search _ va) as [[i e]|] eqn:E.
  - apply gives_val; [|by apply unit_step_domain]. intros e' [= <-]. by eapply tlb_search_valid.
  - eapply gives_bind; [by apply walk_tables_gives|]. intros [fault [e|]] m' Hw [Hm' _].
    + cbv zeta. apply gives_val; [intros e' [= <-]; by apply Hw|].
      eapply unit_step_trans;
        [apply unit_step_tlb; [done|apply tlb_place_ok, Hm']|apply unit_step_domain].
      apply unit_step_tlb; [done|apply tlb_place_ok, Hm'].
    + apply gives_val; [done|by apply unit_step_refl].
Qed.

Lemma check_access_gives m va e read :
  unit_ok m -> gives m (fun _ => True) (check_access m va e read).
Proof.
  intros Hm. unfold check_access. cbv zeta. pose proof (unit_step_domain m (domain e) Hm) as Hd.
  case_match; [by apply gives_val|]. case_match; [|by apply gives_val].
  unfold gives. destruct (subpage va (mapping e)); cbn [rbind holds]; try done.
  repeat case_match; by split.
Qed.

Lemma translated_gives m va read : unit_ok m -> gives m walked (translated m va read).
Proof.
  intros Hm. unfold translated. eapply gives_bind; [by apply translate_gives|].
  intros [fault [e|]] m' Hw [Hm' _].
  - eapply gives_bind; [by apply check_access_gives|]. intros fault' m2 _ [Hm2 _].
    apply gives_val; [|by apply unit_step_refl]. intros e'. cbn. case_match; [|done].
    intros [= <-]. by apply Hw.
  - apply gives_val; [done|by apply unit_step_refl].
Qed.

(** *** Loads and stores *)

(** A value that a load stored is a word. *)
Definition word_result (r : Z * option Z) : Prop := forall w, r.2 = Some w -> is_u32 w.

Lemma phys_read_gives m ty pa : unit_ok m -> gives m word_result (phys_read m ty pa).
Proof.
  intros Hm. unfold phys_read, gives. eapply holds_bind; [apply bus_read_law, Hm|].
  intros [[st v] b'] (_ & Hv & Hb'). cbn. split; [exact Hv|by apply unit_step_bus].
Qed.

Lemma phys_write_gives m ty pa data :
  unit_ok m -> gives m (fun _ => True) (phys_write m ty pa data).
Proof.
  intros Hm. unfold phys_write, gives. eapply holds_bind; [apply bus_write_law, Hm|].
  intros [st b'] [_ Hb']. cbn. split; [done|by apply unit_step_bus].
Qed.

Lemma get_part_u32 ty be va w : is_u32 (get_part ty be va w).
Proof. unfold get_part. apply land_small_u32. by destruct ty. Qed.

Lemma read_cached_gives m r ty va : unit_ok m -> gives m word_result (read_cached m r ty va).
Proof.
  intros Hm. unfold read_cached, gives.
  destruct (get_line _ r) as [l|]; [|done]. destruct (line_data l !! _); [|done]. cbn.
  split; [intros w [= <-]; apply get_part_u32|by apply unit_step_refl].
Qed.

Lemma fill_line_gives m va pa : unit_ok m -> gives m (fun _ => True) (fill_line m va pa).
Proof.
  intros Hm. unfold fill_line, gives.
  eapply holds_bind; [apply alloc_ok; [apply Hm|apply Hm]|]. intros [[r c] b] [Hc Hb].
  eapply (holds_bind (fun '(c, b) => a71_cache_ok c /\ bus_inv b)).
  - apply on_line_ok; [done|done|]. intros l b' [Hl Hw] Hb'. unfold line_result.
    eapply holds_bind; [by apply read_line_ok|]. intros [d b2] (? & ? & ?). cbn. by split.
  - intros [c' b'] [Hc' Hb']. cbn. split; [done|by apply unit_step_cache].
Qed.

Lemma a71_mmu_read_gives m va ty : unit_ok m -> gives m word_result (a71_mmu_read m va ty).
Proof.
  intros Hm. unfold a71_mmu_read. case_match; [by apply phys_read_gives|].
  case_match; [by apply gives_val|]. destruct (cached m va) as [[r|]| | |]; try done; cbn [rbind].
  - by apply read_cached_gives.
  - eapply gives_bind; [by apply translated_gives|]. intros [fault [e|]] m' _ [Hm' _];
      [|by apply gives_val, unit_step_refl]. cbv zeta.
    case_match; [|by apply phys_read_gives].
    eapply gives_bind; [by apply fill_line_gives|]. intros r m2 _ [Hm2 _].
    by apply read_cached_gives.
Qed.

Lemma put_part_u32 ty be va w data : is_u32 (put_part ty be va w data).
Proof. apply u32_range. Qed.

Lemma write_cached_ok m r ty va data :
  unit_ok m -> is_u32 data -> unit_step m (write_cached m r ty va data).
Proof.
  intros [[Hc Ht] Hb] Hd. split; [|by split]. split; [|done]. split; [|done]. cbn.
  apply upd_line_ok; [done|]. intros l [Hl Hw]. split; cbn; [by rewrite length_alter|].
  apply Forall_alter; [done|]. intros w _ Hwd. destruct ty; (apply put_part_u32 || done).
Qed.

Lemma a71_mmu_write_gives m va data ty :
  unit_ok m -> is_u32 data -> gives m (fun _ => True) (a71_mmu_write m va data ty).
Proof.
  intros Hm Hd. unfold a71_mmu_write. case_match; [by apply phys_write_gives|].
  case_match; [by apply gives_val, unit_step_refl|].
  destruct (cached m va) as [hit| | |]; try done; cbn [rbind]. cbv zeta.
  set (m1 := match hit with Some _ => _ | None => m end).
  assert (Hs1 : unit_step m m1)
    by (unfold m1; destruct hit; [by apply write_cached_ok|by apply unit_step_refl]).
  clearbody m1. destruct Hs1 as [Hm1 Hf1].
  eapply (holds_impl (fun '(x, m') => True /\ unit_step m1 m')).
  { intros [x m'] [_ [? ?]]. split; [done|]. split; [done|]. by eapply mmu_frame_trans. }
  fold (gives (A := Z) m1 (fun _ => True)).
  eapply gives_bind; [by apply translated_gives|]. intros [fault [e|]] m' _ [Hm' _];
    [by apply phys_write_gives|by apply gives_val, unit_step_refl].
Qed.

(** *** The co-processor registers *)

(** All but the control register of the processor is left. *)
Definition control_frame m m' : Prop :=
  core m' = core m \/ exists c, core m' = set_control (core m) c.

Lemma flush_cache_ok m :
  unit_ok m -> holds (fun m' => unit_ok m' /\ control_frame m m') (flush_cache m).
Proof.
  intros [[Hc Ht] Hb]. unfold flush_cache.
  eapply holds_bind; [by apply cache_invalidate_all_ok|]. intros [c b] [Hc' Hb'].
  split; [by split|by left].
Qed.

Lemma a71_mmu_mcr_ok m instr value :
  unit_ok m -> holds (fun m' => unit_ok m' /\ control_frame m m') (a71_mmu_mcr m instr value).
Proof.
  intros Hm. pose proof Hm as [[Hc Ht] Hb]. unfold a71_mmu_mcr. cbv zeta.
  destruct (mcr_common m _ value) as [m'|] eqn:E.
  - cbn. unfold mcr_common in E.
    repeat case_match; try done; injection E as <-; (split; [done|]);
      first [by left|right; by eexists].
  - unfold mcr_v4, mcr_v3.
    repeat case_match; try (by apply flush_cache_ok); cbn; (split; [|by left]); try done;
      (split; [|done]); (split; [done|]); cbn; auto using invalidate_all_ok, invalidate_entry_ok.
Qed.

(** The unit a71_mmu_init sets up, whatever the memory it allocates holds. *)
Lemma a71_mmu_init_ok junk jw m :
  is_u32 jw -> bus_inv (abus m) -> unit_ok (a71_mmu_init junk jw m).
Proof.
  intros Hj Hb. split; [|done]. split; cbn [the_cache the_tlb mmu a71_mmu_init set_core set_mmu];
    [|by apply tlb_init_ok].
  split; try done. cbn [sets mmu_cache_init].
  apply Forall_replicate. split; [apply length_replicate| |cbn; lia]. cbn [lines].
  apply Forall_replicate. split; [apply length_replicate|]. by apply Forall_replicate.
Qed.
End machine.
