(* ===== verification/ArmLemmas.v ===== *)
(** * Well-formed ARM states; shifts and sums of the architecture

    The invariant of the processor state, and the pseudo-code of the architecture
    manual for shifts ([Shift_C]) and sums ([AddWithCarry]) with the lemmas that
    armemu32.c and armsupp.c compute them; then the operands of data processing. *)

From Stdlib Require Import ZArith Lia Bool.
From stdpp Require Import base numbers option list.
From S2P Require Import Prelude Words ArmState ArmSupp ArmShift ArmExec.

Create HintDb arm.

(** ** Fields and flags *)

Definition is_flag (z : Z) : Prop := z = 0 \/ z = 1.

Lemma is_flag_b2z b : is_flag (Z.b2z b).
Proof. destruct b; cbn; unfold is_flag; lia. Qed.

Lemma flag_b2z z : is_flag z -> z = Z.b2z (c_true z).
Proof. intros [-> | ->]; reflexivity. Qed.

Lemma c_true_b2z b : c_true (Z.b2z b) = b.
Proof. by destruct b. Qed.

Lemma c_true_false z : c_true z = false <-> z = 0.
Proof. unfold c_true. destruct (Z.eqb_spec z 0); cbn; split; congruence || done. Qed.

Lemma BITS_spec instr m n :
  0 <= m <= n -> n <= 31 -> BITS instr m n = (instr / 2 ^ m) mod 2 ^ (n - m + 1).
Proof.
  intros. unfold BITS, shl. rewrite <- (bits_spec instr n m) by lia. unfold bits.
  f_equal. unfold u32. rewrite !Z.shiftl_mul_pow2 by lia.
  rewrite Z.mul_mod_idemp_l by lia. done.
Qed.

Lemma BITS_range instr m n :
  0 <= m <= n -> n <= 31 -> 0 <= BITS instr m n < 2 ^ (n - m + 1).
Proof. intros. rewrite BITS_spec by lia. apply Z.mod_pos_bound. apply pow2_pos. lia. Qed.

Lemma testbit_BITS instr m n i :
  0 <= m <= n -> n <= 31 -> 0 <= i ->
  Z.testbit (BITS instr m n) i = (i <=? n - m) && Z.testbit instr (i + m).
Proof.
  intros. rewrite BITS_spec by lia. destruct (Z.leb_spec i (n - m)); cbn.
  - rewrite Z.mod_pow2_bits_low, Z.div_pow2_bits by lia. done.
  - apply Z.mod_pow2_bits_high. lia.
Qed.

(** A bit of a field, the field read by its bits. *)
Lemma field_bit instr m n j :
  0 <= m <= j -> j <= n -> n <= 31 -> Z.testbit (BITS instr m n) (j - m) = Z.testbit instr j.
Proof.
  intros. rewrite testbit_BITS, (proj2 (Z.leb_le (j - m) (n - m))) by lia.
  by rewrite Z.sub_add.
Qed.

(** ** Well-formed states *)

(** The modes the architecture defines, with 32-bit addresses. *)
Definition mode32 (m : Z) : bool :=
  (m =? USER32MODE) || (m =? FIQ32MODE) || (m =? IRQ32MODE) || (m =? SVC32MODE)
  || (m =? ABORT32MODE) || (m =? UNDEF32MODE) || (m =? SYSTEM32MODE).

Record arm_wf (st : ARMul_State) : Prop := {
  wf_Reg : length (Reg st) = 16%nat;
  wf_Reg32 : Forall is_u32 (Reg st);
  wf_RegBank : length (RegBank st) = 7%nat;
  wf_rows : Forall (fun row => length row = 16%nat) (RegBank st);
  wf_rows32 : Forall (Forall is_u32) (RegBank st);
  wf_Spsr : length (Spsr st) = 7%nat;
  wf_Spsr32 : Forall is_u32 (Spsr st);
  wf_N : is_flag (NFlag st);
  wf_Z : is_flag (ZFlag st);
  wf_C : is_flag (CFlag st);
  wf_V : is_flag (VFlag st);
  wf_S : is_flag (SFlag st);
  wf_T : is_flag (TFlag st);
  wf_IF : 0 <= IFFlags st < 4;
  wf_mode : mode32 (Mode st) = true;
  wf_Bank : Bank st = ModeToBank (Mode st);
  wf_sig : prog32Sig st <> 0
}.

Lemma is_u32_0 : is_u32 0.
Proof. unfold is_u32. lia. Qed.

Lemma reg_u32 st i : arm_wf st -> is_u32 (reg st i).
Proof. intros Hw. apply (nthZ_Forall is_u32); [apply is_u32_0 | apply Hw]. Qed.
#[export] Hint Resolve reg_u32 is_u32_0 : arm.

Lemma reg_set_reg st i j v :
  length (Reg st) = 16%nat -> 0 <= i < 16 -> 0 <= j ->
  reg (set_reg st i v) j = if j =? i then v else reg st j.
Proof. intros H16 Hi Hj. unfold reg, set_reg. cbn. apply nthZ_updZ; lia. Qed.

(** ** Sign bits *)

Lemma NEG_spec x : is_u32 x -> c_true (NEG x) = (2147483648 <=? x).
Proof.
  intros Hx. unfold NEG, c_true, is_u32 in *. rewrite Z.shiftr_div_pow2 by lia.
  change (2 ^ 31) with 2147483648.
  destruct (Z.leb_spec 2147483648 x), (Z.eqb_spec (x / 2147483648) 0);
    cbn; try done; Z.div_mod_to_equations; lia.
Qed.

Lemma NEG_b2z x : is_u32 x -> NEG x = Z.b2z (2147483648 <=? x).
Proof.
  intros Hx. unfold NEG, is_u32 in *. rewrite Z.shiftr_div_pow2 by lia.
  change (2 ^ 31) with 2147483648.
  destruct (Z.leb_spec 2147483648 x); cbn; Z.div_mod_to_equations; lia.
Qed.

Lemma POS_spec x : is_u32 x -> c_true (POS x) = negb (2147483648 <=? x).
Proof.
  intros Hx. change (POS x) with (NEG (u32 (Z.lnot x))). rewrite NEG_spec by apply u32_range.
  unfold u32, Z.lnot, is_u32 in *.
  destruct (Z.leb_spec 2147483648 x), (Z.leb_spec 2147483648 (Z.pred (- x) mod 4294967296));
    cbn; try done; Z.div_mod_to_equations; lia.
Qed.

Lemma testbit31 x : is_u32 x -> Z.testbit x 31 = (2147483648 <=? x).
Proof.
  intros Hx. rewrite Z.testbit_eqb by lia. change (2 ^ 31) with 2147483648.
  unfold is_u32 in *.
  destruct (Z.eqb_spec ((x / 2147483648) mod 2) 1), (Z.leb_spec 2147483648 x);
    try done; Z.div_mod_to_equations; lia.
Qed.

Lemma high_bits a b n :
  0 <= a -> 0 <= b -> 0 <= n ->
  c_true (Z.shiftr (Z.lor a b) n) = (2 ^ n <=? a) || (2 ^ n <=? b).
Proof.
  intros Ha Hb Hn. unfold c_true. rewrite Z.shiftr_lor, !Z.shiftr_div_pow2 by lia.
  pose proof (pow2_pos n Hn).
  destruct (Z.eqb_spec (Z.lor (a / 2 ^ n) (b / 2 ^ n)) 0) as [E|E].
  - apply Z.lor_eq_0_iff in E as [E1 E2]. apply Z.div_small_iff in E1, E2; [|lia..].
    rewrite !(proj2 (Z.leb_gt _ _)) by lia. done.
  - destruct (Z.leb_spec (2 ^ n) a), (Z.leb_spec (2 ^ n) b); try done.
    exfalso. apply E. rewrite !Z.div_small by lia. done.
Qed.

(** ** Sums: [AddWithCarry] of the manual *)

Definition AddWithCarry (x y c : Z) : Z * bool * bool :=
  let res := u32 (x + y + c) in
  (res, negb (res =? x + y + c), negb (s32 res =? s32 x + s32 y + c)).

Lemma s32_word x : is_u32 x -> s32 x = if 2147483648 <=? x then x - 4294967296 else x.
Proof. intros Hx. unfold s32. rewrite (u32_id x Hx). case_tests; lia. Qed.

Lemma not32 y : is_u32 y -> u32 (Z.lnot y) = 4294967295 - y.
Proof. unfold is_u32, u32, Z.lnot. intros. Z.div_mod_to_equations; lia. Qed.

(** All the tests of a goal on booleans about words, by linear arithmetic. *)
Ltac bool_lia :=
  repeat match goal with
  | |- context [?a <=? ?b] => destruct (Z.leb_spec a b)
  | |- context [?a =? ?b] => destruct (Z.eqb_spec a b)
  end; cbn; try done; exfalso; lia.

Lemma u32_carry s : 0 <= s < 8589934592 -> u32 s = if 4294967296 <=? s then s - 4294967296 else s.
Proof. intros. unfold u32. case_match; Z.div_mod_to_equations; lia. Qed.

Lemma u32_borrow s : -4294967296 <= s < 4294967296 -> u32 s = if 0 <=? s then s else s + 4294967296.
Proof. intros. unfold u32. case_match; Z.div_mod_to_equations; lia. Qed.

Lemma add_flags_ok a b c res carry v :
  is_u32 a -> is_u32 b -> is_flag c -> AddWithCarry a b c = (res, carry, v) ->
  res = u32 (a + b + c)
  /\ (c_true (NEG a) && c_true (NEG b) || c_true (NEG a) && c_true (POS res)
      || c_true (NEG b) && c_true (POS res)) = carry
  /\ AddOverflow a b res = Z.b2z v.
Proof.
  intros Ha Hb Hc [= <- <- <-]. pose proof (u32_range (a + b + c)) as Hr.
  unfold AddOverflow. rewrite !NEG_spec, !POS_spec, !s32_word by done.
  split; [done|].
  assert (Hs : 0 <= a + b + c < 8589934592) by (unfold is_u32, is_flag in *; lia).
  rewrite (u32_carry _ Hs) in *. unfold is_u32, is_flag in *.
  destruct (Z.leb_spec 4294967296 (a + b + c)); split; bool_lia.
Qed.

Lemma sub_flags_ok a b nb res carry v :
  is_u32 a -> is_u32 b -> is_flag nb ->
  AddWithCarry a (u32 (Z.lnot b)) (1 - nb) = (res, carry, v) ->
  res = u32 (a - b - nb)
  /\ (c_true (NEG a) && c_true (POS b) || c_true (NEG a) && c_true (POS res)
      || c_true (POS b) && c_true (POS res)) = carry
  /\ SubOverflow a b res = Z.b2z v.
Proof.
  intros Ha Hb Hc [= <- <- <-]. rewrite (not32 b Hb).
  replace (a + (4294967295 - b) + (1 - nb)) with (a - b - nb + 1 * 4294967296) by lia.
  assert (Hu : u32 (a - b - nb + 1 * 4294967296) = u32 (a - b - nb))
    by (unfold u32; apply Z.mod_add; lia).
  rewrite Hu. pose proof (u32_range (a - b - nb)) as Hr.
  assert (Hnb : is_u32 (4294967295 - b)) by (unfold is_u32 in *; lia).
  unfold SubOverflow. rewrite !NEG_spec, !POS_spec, !s32_word by done.
  split; [done|].
  assert (Hs : -4294967296 <= a - b - nb < 4294967296) by (unfold is_u32, is_flag in *; lia).
  unfold is_u32, is_flag in *.
  rewrite (u32_borrow _ Hs) in *.
  destruct (Z.leb_spec 0 (a - b - nb)); split; bool_lia.
Qed.

(** * The second operand and the flags of the data processing instructions

    The shifter of the manual ([Shift_C]) and the second operand it gives; the
    operand functions of armemu32.c compute them. *)

(** ** [Shift_C] of the manual *)

Inductive srtype : Type := SRType_LSL | SRType_LSR | SRType_ASR | SRType_ROR | SRType_RRX.

Definition rotr (x n : Z) : Z := u32 (Z.lor (Z.shiftr x n) (Z.shiftl x (32 - n))).

(** Value and carry of a shift by [n]; no shift keeps the carry. *)
Definition Shift_C (x : Z) (ty : srtype) (n : Z) (carry_in : bool) : Z * bool :=
  if n =? 0 then (x, carry_in)
  else match ty with
       | SRType_LSL => (u32 (Z.shiftl x n), Z.testbit (Z.shiftl x n) 32)
       | SRType_LSR => (Z.shiftr x n, Z.testbit x (n - 1))
       | SRType_ASR => (u32 (Z.shiftr (s32 x) n), Z.testbit (s32 x) (n - 1))
       | SRType_ROR => let r := rotr x (n mod 32) in (r, Z.testbit r 31)
       | SRType_RRX => (Z.lor (Z.shiftr x 1) (Z.shiftl (Z.b2z carry_in) 31), Z.testbit x 0)
       end.

Definition srtype_of (ty : Z) : srtype :=
  if ty =? LSL then SRType_LSL
  else if ty =? LSR then SRType_LSR
  else if ty =? ASR then SRType_ASR else SRType_ROR.

(** [DecodeImmShift]. *)
Definition DecodeImmShift (ty imm5 : Z) : srtype * Z :=
  if ty =? LSL then (SRType_LSL, imm5)
  else if ty =? LSR then (SRType_LSR, if imm5 =? 0 then 32 else imm5)
  else if ty =? ASR then (SRType_ASR, if imm5 =? 0 then 32 else imm5)
  else if imm5 =? 0 then (SRType_RRX, 1) else (SRType_ROR, imm5).

(** ** The shift functions of the code *)

Lemma u32_high x n : is_u32 x -> 32 <= n -> u32 (Z.shiftl x n) = 0.
Proof.
  intros Hx Hn. rewrite u32_pow, Z.shiftl_mul_pow2 by lia.
  replace n with (n - 32 + 32) by lia. rewrite Z.pow_add_r, Z.mul_assoc by lia.
  apply Z.mod_mul. lia.
Qed.

Lemma shiftr_high x n : is_u32 x -> 32 <= n -> Z.shiftr x n = 0.
Proof.
  intros Hx Hn. rewrite Z.shiftr_div_pow2 by lia. apply Z.div_small.
  pose proof (Z.pow_le_mono_r 2 32 n ltac:(lia) ltac:(lia)). unfold is_u32 in Hx. lia.
Qed.

Lemma testbit_s32 x n :
  is_u32 x -> 0 <= n -> Z.testbit (s32 x) n = Z.testbit x (Z.min n 31).
Proof.
  intros Hx Hn. rewrite s32_word by done.
  destruct (Z.leb_spec 2147483648 x).
  - replace (x - 4294967296) with (Z.lnot (4294967295 - x)) by (unfold Z.lnot; lia).
    rewrite Z.lnot_spec by lia. destruct (Z.le_gt_cases n 31).
    + rewrite Z.min_l by lia. rewrite <- not32, testbit_u32, Z.lnot_spec by (done || lia).
      rewrite (proj2 (Z.ltb_lt n 32)) by lia. by rewrite andb_true_r, negb_involutive.
    + rewrite Z.min_r, testbit31 by (done || lia). rewrite testbit_above_32;
        [|unfold is_u32 in *; lia|lia]. cbn. symmetry. apply Z.leb_le. lia.
  - destruct (Z.le_gt_cases n 31); [by rewrite Z.min_l by lia|].
    rewrite Z.min_r, testbit31, testbit_above_32 by (done || lia).
    symmetry. apply Z.leb_gt. lia.
Qed.

Lemma asr_testbit x n i :
  is_u32 x -> 0 <= n -> 0 <= i < 32 -> Z.testbit (asr x n) i = Z.testbit x (Z.min (i + n) 31).
Proof.
  intros. unfold asr. rewrite testbit_u32, Z.shiftr_spec, testbit_s32 by (done || lia).
  rewrite (proj2 (Z.ltb_lt i 32)) by lia. by rewrite andb_true_r.
Qed.

Lemma asr_high x n : is_u32 x -> 31 <= n -> asr x n = asr x 31.
Proof.
  intros Hx Hn. apply u32_inj_testbit; [apply u32_range..|]. intros i Hi.
  rewrite !asr_testbit by (done || lia). f_equal. lia.
Qed.

Lemma rotr_ror x n : is_u32 x -> 0 < n < 32 -> rotr x n = ror x n.
Proof.
  intros Hx Hn. unfold rotr, ror, shl. apply u32_inj_testbit; [apply u32_range| |].
  - apply lor_u32; [apply u32_range|]. apply shiftr_u32; [done|lia].
  - intros i Hi. rewrite testbit_u32, !Z.lor_spec, testbit_u32 by lia.
    rewrite (proj2 (Z.ltb_lt i 32)), !andb_true_r by lia. apply orb_comm.
Qed.

Lemma rotr_0 x : is_u32 x -> rotr x 0 = x.
Proof.
  intros Hx. apply u32_inj_testbit; [apply u32_range|done|]. intros i Hi. unfold rotr.
  rewrite testbit_u32, Z.lor_spec, Z.shiftr_0_r, Z.shiftl_spec_low by lia.
  rewrite (proj2 (Z.ltb_lt i 32)) by lia. by rewrite orb_false_r, andb_true_r.
Qed.

Lemma land_31 n : Z.land n 31 = n mod 32.
Proof. change 31 with (Z.ones 5). apply Z.land_ones. lia. Qed.

(** Splits the tests of the shift functions. *)
Ltac shift_cases :=
  repeat (match goal with
          | |- context [if ?a =? ?b then _ else _] => destruct (Z.eqb_spec a b)
          | |- context [if ?a <=? ?b then _ else _] => destruct (Z.leb_spec a b)
          | |- context [if ?a <? ?b then _ else _] => destruct (Z.ltb_spec a b)
          end; cbn [fst snd]; try lia).

Lemma shift_by_reg_ok ty x n c :
  is_u32 x -> 0 <= n < 256 -> shift_by_reg ty x n = fst (Shift_C x (srtype_of ty) n c).
Proof.
  intros Hx Hn. unfold shift_by_reg, Shift_C, srtype_of, asr, shl. rewrite !land_31.
  shift_cases; try done.
  - by rewrite u32_high.
  - by rewrite shiftr_high.
  - symmetry. fold (asr x n). fold (asr x 31). by apply asr_high; [done|lia].
  - by rewrite e, rotr_0.
  - subst n. done.
  - symmetry. apply rotr_ror; [done|]. pose proof (Z.mod_pos_bound n 32). lia.
Qed.

Lemma shift_by_imm_ok ty x n c :
  is_u32 x -> 0 <= n < 32 -> is_flag c ->
  shift_by_imm ty x n c
  = let (t, m) := DecodeImmShift ty n in fst (Shift_C x t m (c_true c)).
Proof.
  intros Hx Hn Hc. unfold shift_by_imm, DecodeImmShift, Shift_C, asr, shl.
  shift_cases; try done.
  - subst n. unfold u32. rewrite Z.shiftl_0_r. by apply Z.mod_small.
  - by rewrite shiftr_high.
  - symmetry. fold (asr x 32). fold (asr x 31). by apply asr_high; [done|lia].
  - by destruct Hc as [-> | ->].
  - rewrite Z.mod_small, rotr_ror by (done || lia). done.
Qed.

(** The carry is the bit shifted out last. *)
Lemma land1_bit x n : 0 <= n -> Z.land (Z.shiftr x n) 1 = Z.b2z (Z.testbit x n).
Proof.
  intros. change 1 with (Z.ones 1). rewrite Z.land_ones, <- Z.bit0_mod by lia.
  by rewrite Z.shiftr_spec, Z.add_0_l by lia.
Qed.

Lemma asr_carry x n :
  is_u32 x -> 0 < n -> Z.land (asr x (n - 1)) 1 = Z.b2z (Z.testbit (s32 x) (n - 1)).
Proof.
  intros Hx Hn. rewrite testbit_s32 by (done || lia).
  rewrite <- (Z.shiftr_0_r (asr x (n - 1))), land1_bit, asr_testbit by (done || lia).
  by rewrite Z.add_0_l.
Qed.

Lemma lsl_carry x n :
  0 < n < 32 -> Z.land (Z.shiftr x (32 - n)) 1 = Z.b2z (Z.testbit (Z.shiftl x n) 32).
Proof. intros. by rewrite land1_bit, Z.shiftl_spec by lia. Qed.

Lemma rotr_carry x n :
  is_u32 x -> 0 < n < 32 -> Z.land (Z.shiftr x (n - 1)) 1 = Z.b2z (Z.testbit (rotr x n) 31).
Proof.
  intros Hx Hn. rewrite land1_bit by lia. f_equal. unfold rotr.
  rewrite testbit_u32, Z.lor_spec, Z.shiftr_spec, Z.shiftl_spec by lia.
  rewrite (testbit_above_32 x (31 + n)) by (done || lia). cbn. rewrite andb_true_r. f_equal. lia.
Qed.

Lemma top_bit x : is_u32 x -> Z.shiftr x 31 = Z.b2z (Z.testbit x 31).
Proof. intros. rewrite testbit31 by done. by apply NEG_b2z. Qed.

Lemma asr_top x n : is_u32 x -> 32 <= n -> Z.testbit (s32 x) (n - 1) = Z.testbit x 31.
Proof. intros. rewrite testbit_s32 by (done || lia). f_equal. lia. Qed.

(** The carry the code assigns, if any, against the one of [Shift_C]. *)
Definition carry_ok (n : Z) (c : option Z) (b : bool) : Prop :=
  c = if n =? 0 then None else Some (Z.b2z b).

Lemma shift_by_reg_s_ok ty x n cin :
  is_u32 x -> 0 <= n < 256 ->
  let r := Shift_C x (srtype_of ty) n cin in
  fst (shift_by_reg_s ty x n) = fst r /\ carry_ok n (snd (shift_by_reg_s ty x n)) (snd r).
Proof.
  intros Hx Hn. cbv zeta. rewrite <- shift_by_reg_ok by done.
  unfold carry_ok, shift_by_reg_s, shift_by_reg, Shift_C, srtype_of. rewrite !land_31.
  shift_cases; split; try done; f_equal; subst;
    rewrite ?lsl_carry, ?land1_bit, ?top_bit, ?asr_carry, ?asr_top by (done || lia);
    try done.
  - rewrite Z.shiftl_spec by lia. rewrite <- (Z.shiftr_0_r x) at 1. by rewrite land1_bit.
  - by rewrite Z.shiftl_spec_low by lia.
  - by rewrite testbit_above_32 by (done || lia).
  - by rewrite e, rotr_0.
  - apply rotr_carry; [done|]. pose proof (Z.mod_pos_bound n 32). lia.
Qed.

Lemma shift_by_imm_s_ok ty x n c :
  is_u32 x -> 0 <= n < 32 -> is_flag c -> ty <> LSL \/ n <> 0 ->
  let (t, m) := DecodeImmShift ty n in
  let r := Shift_C x t m (c_true c) in
  shift_by_imm_s ty x n c = Val (fst r, Some (Z.b2z (snd r))).
Proof.
  intros Hx Hn Hc Hne. pose proof (shift_by_imm_ok ty x n c Hx Hn Hc) as Hv.
  destruct (DecodeImmShift ty n) as [t m] eqn:Hd. cbv zeta. rewrite <- Hv. clear Hv.
  revert Hd. unfold shift_by_imm_s, shift_by_imm, DecodeImmShift, Shift_C.
  shift_cases; intros [= <- <-]; shift_cases; try done; try (exfalso; lia); subst;
    try (exfalso; tauto); do 2 f_equal; f_equal;
    rewrite ?lsl_carry, ?land1_bit, ?top_bit, ?asr_carry, ?asr_top by (done || lia);
    try done.
  - cbn [snd]. rewrite <- (Z.shiftr_0_r x) at 1. by rewrite land1_bit.
  - cbn [snd]. rewrite Z.mod_small, <- rotr_carry, land1_bit by (done || lia). done.
Qed.
