(* ===== verification/ArmDPProps.v ===== *)
(** * ARM data processing: the 64 cases are the instructions of the manual *)

From Stdlib Require Import ZArith Lia Bool.
From stdpp Require Import base numbers option list.
From S2P Require Import Prelude Words ArmState ArmSupp ArmShift ArmExec ArmLemmas.

(** ** The reference *)

(** The second operand and the carry of the shifter. *)
Definition shifter_operand (st : ARMul_State) (instr : Z) : Z * bool :=
  let c := c_true (CFlag st) in
  if BIT instr 25 then
    let imm := rotr (BITS instr 0 7) (2 * BITS instr 8 11) in
    (imm, if BITS instr 8 11 =? 0 then c else Z.testbit imm 31)
  else if BIT instr 4 then
    Shift_C (reg st (BITS instr 0 3)) (srtype_of (BITS instr 5 6))
      (reg st (BITS instr 8 11) mod 256) c
  else
    let (t, n) := DecodeImmShift (BITS instr 5 6) (BITS instr 7 11) in
    Shift_C (reg st (BITS instr 0 3)) t n c.

(** The first operand; the program counter is read word-aligned. *)
Definition rn_value (st : ARMul_State) (instr : Z) : Z :=
  let n := BITS instr 16 19 in
  if n =? 15 then reg st 15 - reg st 15 mod 4 else reg st n.

(** Result, carry and overflow of an operation by its opcode. *)
Definition dp_result (op rn so : Z) (shc c v : bool) : Z * bool * bool :=
  let NOT x := u32 (Z.lnot x) in
  match op with
  | 0 | 8 => (Z.land rn so, shc, v)
  | 1 | 9 => (Z.lxor rn so, shc, v)
  | 2 | 10 => AddWithCarry rn (NOT so) 1
  | 3 => AddWithCarry (NOT rn) so 1
  | 4 | 11 => AddWithCarry rn so 0
  | 5 => AddWithCarry rn so (Z.b2z c)
  | 6 => AddWithCarry rn (NOT so) (Z.b2z c)
  | 7 => AddWithCarry (NOT rn) so (Z.b2z c)
  | 12 => (Z.lor rn so, shc, v)
  | 13 => (so, shc, v)
  | 14 => (Z.land rn (NOT so), shc, v)
  | _ => (NOT so, shc, v)
  end.

(** TST, TEQ, CMP and CMN have no result. *)
Definition is_test (op : Z) : bool := (8 <=? op) && (op <=? 11).

Definition set_flags (st : ARMul_State) (n z c v : bool) : ARMul_State :=
  set_VFlag (set_CFlag (set_ZFlag (set_NFlag st (Z.b2z n)) (Z.b2z z)) (Z.b2z c)) (Z.b2z v).

(** A shift by a register takes a cycle, in which the program counter moves on. *)
Definition operand_state (st : ARMul_State) (instr : Z) : ARMul_State :=
  if negb (BIT instr 25) && BIT instr 4 then ARMul_Icycles (INCPC st) 1 else st.

(** The state after the instruction. *)
Definition dp_spec (st : ARMul_State) (instr : Z) : ARMul_State :=
  let op := BITS instr 21 24 in
  let (so, shc) := shifter_operand st instr in
  let '(res, c, v) :=
    dp_result op (rn_value st instr) so shc (c_true (CFlag st)) (c_true (VFlag st)) in
  let st := operand_state st instr in
  let st := if is_test op then st else set_reg st (BITS instr 12 15) res in
  if BIT instr 20 then set_flags st (Z.testbit res 31) (res =? 0) c v else st.

(** The encodings: not a multiplication, a halfword transfer or a miscellaneous
    instruction; register 15 is not the destination and takes no part in a shift by
    a register. *)
Record is_dp (instr : Z) : Prop := {
  dp_word : is_u32 instr;
  dp_class : BITS instr 26 27 = 0;
  dp_no_ext : BIT instr 25 = true \/ BIT instr 4 = false \/ BIT instr 7 = false;
  dp_no_misc : BIT instr 20 = true \/ is_test (BITS instr 21 24) = false;
  dp_Rd : BITS instr 12 15 <> 15;
  dp_no_pc : BIT instr 25 = false -> BIT instr 4 = true ->
             BITS instr 0 3 <> 15 /\ BITS instr 8 11 <> 15 /\ BITS instr 16 19 <> 15
}.

(** ** The operands *)

Lemma set_CFlag_same st : set_CFlag st (CFlag st) = st.
Proof. by destruct st. Qed.

Lemma reg_incpc st i : arm_wf st -> 0 <= i -> i <> 15 -> reg (INCPC st) i = reg st i.
Proof.
  intros Hw Hi Hne. unfold INCPC. change (reg (set_NextInstr ?s ?v) i) with (reg s i).
  rewrite reg_set_reg by (apply Hw || lia). by rewrite (proj2 (Z.eqb_neq i 15)).
Qed.

Section operands.
Context (st : ARMul_State) (instr : Z) (Hw : arm_wf st) (Hi : is_u32 instr).

Lemma immed_table i : 0 <= i < 4096 -> ARMul_ImmedTable i = rotr (i mod 256) (2 * (i / 256)).
Proof.
  intros H.
  assert (Hall : forallb (fun n => let i := Z.of_nat n in
      ARMul_ImmedTable i =? rotr (i mod 256) (2 * (i / 256))) (seq 0 4096) = true)
    by (vm_compute; reflexivity).
  rewrite forallb_forall in Hall. specialize (Hall (Z.to_nat i)).
  rewrite Z2Nat.id in Hall by lia. apply Z.eqb_eq, Hall, in_seq. lia.
Qed.

Lemma imm_fields : BITS instr 0 7 = BITS instr 0 11 mod 256 /\ BITS instr 8 11 = BITS instr 0 11 / 256.
Proof.
  rewrite !BITS_spec by lia. change (2 ^ (11 - 0 + 1)) with 4096.
  change (2 ^ (7 - 0 + 1)) with 256. change (2 ^ (11 - 8 + 1)) with 16.
  change (2 ^ 0) with 1. change (2 ^ 8) with 256. unfold is_u32 in Hi.
  Z.div_mod_to_equations; lia.
Qed.

Lemma DPImmRHS_ok : BIT instr 25 = true ->
  DPImmRHS st instr = Val (fst (shifter_operand st instr), operand_state st instr).
Proof.
  intros H25. unfold DPImmRHS, shifter_operand, operand_state. rewrite H25.
  destruct imm_fields as [-> ->]. rewrite immed_table; [done|].
  apply (BITS_range instr 0 11); lia.
Qed.

Lemma DPSImmRHS_ok : BIT instr 25 = true ->
  DPSImmRHS st instr
  = Val (fst (shifter_operand st instr),
         set_CFlag (operand_state st instr) (Z.b2z (snd (shifter_operand st instr)))).
Proof.
  intros H25. unfold DPSImmRHS, shifter_operand, operand_state. rewrite H25.
  pose proof (BITS_range instr 0 11 ltac:(lia) ltac:(lia)) as Hr.
  destruct imm_fields as [-> ->]. rewrite immed_table by done. cbn [fst snd].
  set (t := BITS instr 0 11) in *. cbn [negb andb].
  destruct (Z.ltb_spec 255 t), (Z.eqb_spec (t / 256) 0); try (exfalso; Z.div_mod_to_equations; lia).
  - rewrite top_bit by apply u32_range. done.
  - rewrite <- flag_b2z by apply Hw. by rewrite set_CFlag_same.
Qed.

Context (H25 : BIT instr 25 = false).
Context (Hpc : BIT instr 4 = true ->
               BITS instr 0 3 <> 15 /\ BITS instr 8 11 <> 15 /\ BITS instr 16 19 <> 15).

Lemma shift_fields : BITS instr 4 11 = 0 -> BIT instr 4 = false /\ BITS instr 5 6 = 0 /\ BITS instr 7 11 = 0.
Proof.
  intros H0. assert (H : forall i, 0 <= i <= 7 -> Z.testbit instr (i + 4) = false).
  { intros i Hb. pose proof (testbit_BITS instr 4 11 i ltac:(lia) ltac:(lia) ltac:(lia)) as E.
    rewrite H0, Z.bits_0 in E. rewrite (proj2 (Z.leb_le i (11 - 4))) in E by lia. done. }
  split; [apply (H 0); lia|].
  split; apply Z.bits_inj'; intros i Hb; rewrite testbit_BITS, Z.bits_0 by lia.
  - destruct (Z.leb_spec i (6 - 5)); [|done]. cbn. replace (i + 5) with (i + 1 + 4) by lia.
    apply H. lia.
  - destruct (Z.leb_spec i (11 - 7)); [|done]. cbn. replace (i + 7) with (i + 3 + 4) by lia.
    apply H. lia.
Qed.

(** The registers of a shift by a register, after the extra cycle. *)
Lemma shift_regs : BIT instr 4 = true ->
  reg (INCPC st) (RHSReg instr) = reg st (BITS instr 0 3)
  /\ Z.land (reg (ARMul_Icycles (INCPC st) 1) (BITS instr 8 11)) 255
     = reg st (BITS instr 8 11) mod 256.
Proof.
  intros H4. destruct (Hpc H4) as (H0 & H8 & _).
  pose proof (BITS_range instr 0 3). pose proof (BITS_range instr 8 11).
  change (reg (ARMul_Icycles ?s ?n) ?i) with (reg s i). unfold RHSReg.
  rewrite !reg_incpc by (done || lia). split; [done|].
  change 255 with (Z.ones 8). by rewrite Z.land_ones by lia.
Qed.

Lemma DPRegRHS_ok :
  DPRegRHS st instr = Val (fst (shifter_operand st instr), operand_state st instr).
Proof.
  unfold DPRegRHS, shifter_operand, operand_state. rewrite H25.
  destruct (Z.eqb_spec (BITS instr 4 11) 0) as [E|E].
  - destruct (shift_fields E) as (-> & -> & ->). done.
  - pose proof shift_regs as Hr. unfold GetDPRegRHS.
    destruct (BIT instr 4); cbn [negb andb].
    + destruct (Hr eq_refl) as [-> ->].
      rewrite <- shift_by_reg_ok; [done|by apply reg_u32|]. apply Z.mod_pos_bound. lia.
    + rewrite shift_by_imm_ok; [by destruct (DecodeImmShift _ _)|by apply reg_u32| |apply Hw].
      apply (BITS_range instr 7 11); lia.
Qed.

Lemma DPSRegRHS_ok :
  DPSRegRHS st instr
  = Val (fst (shifter_operand st instr),
         set_CFlag (operand_state st instr) (Z.b2z (snd (shifter_operand st instr)))).
Proof.
  assert (Hc : Z.b2z (c_true (CFlag st)) = CFlag st) by (symmetry; apply flag_b2z, Hw).
  unfold DPSRegRHS, shifter_operand, operand_state. rewrite H25.
  destruct (Z.eqb_spec (BITS instr 4 11) 0) as [E|E].
  - destruct (shift_fields E) as (-> & -> & ->). cbn. by rewrite Hc, set_CFlag_same.
  - pose proof shift_regs as Hr. unfold GetDPSRegRHS.
    destruct (BIT instr 4) eqn:H4; cbn [negb andb].
    + destruct (Hr eq_refl) as [-> ->].
      set (n := reg st (BITS instr 8 11) mod 256).
      assert (Hn : 0 <= n < 256) by (apply Z.mod_pos_bound; lia).
      destruct (shift_by_reg_s_ok (BITS instr 5 6) (reg st (BITS instr 0 3)) n
                  (c_true (CFlag st)) (reg_u32 _ _ Hw) Hn) as [Hv Hcar].
      destruct (shift_by_reg_s _ _ _) as [v c]. cbn [fst snd] in Hv, Hcar. rewrite Hv, Hcar.
      destruct (Z.eqb_spec n 0) as [En|En]; [|done]. rewrite En. cbn [assign_c Shift_C snd].
      cbn. rewrite Hc. by destruct st.
    + pose proof (shift_by_imm_s_ok (BITS instr 5 6) (reg st (BITS instr 0 3))
        (BITS instr 7 11) (CFlag st)) as H.
      destruct (DecodeImmShift _ _) as [t m].
      unfold RHSReg. rewrite H; [done|by apply reg_u32| |apply Hw|].
      * apply (BITS_range instr 7 11); lia.
      * destruct (Z.eq_dec (BITS instr 5 6) 0) as [E5|]; [|by left].
        right. intros E7. apply E. apply Z.bits_inj'. intros i Hb.
        rewrite testbit_BITS, Z.bits_0 by lia.
        destruct (Z.leb_spec i (11 - 4)); [|done]. cbn.
        destruct (Z.eq_dec i 0) as [->|]; [done|].
        destruct (Z.lt_ge_cases i 3).
        -- pose proof (testbit_BITS instr 5 6 (i - 1)) as T. rewrite E5, Z.bits_0 in T.
           rewrite (proj2 (Z.leb_le (i - 1) (6 - 5))) in T by lia.
           replace (i + 4) with (i - 1 + 5) by lia. symmetry. apply T; lia.
        -- pose proof (testbit_BITS instr 7 11 (i - 3)) as T. rewrite E7, Z.bits_0 in T.
           rewrite (proj2 (Z.leb_le (i - 3) (11 - 7))) in T by lia.
           replace (i + 4) with (i - 3 + 7) by lia. symmetry. apply T; lia.
Qed.
End operands.

(** ** Dispatch: the case of the switch is the body of its opcode *)

(** The bodies by opcode, for operands without and with the carry of the shifter. *)
Definition dp_body (op : Z) (s : bool) (rhs rhss : operand) (st : ARMul_State) (instr : Z)
    : step :=
  let NOT x := u32 (Z.lnot x) in
  match op with
  | 0 => if s then dps rhss Z.land st instr else dp rhs (fun _ => Z.land) st instr
  | 1 => if s then dps rhss Z.lxor st instr else dp rhs (fun _ => Z.lxor) st instr
  | 2 => if s then dps_sub rhs no_carry st instr else dp rhs (fun _ a b => a - b) st instr
  | 3 => if s then dps_rsb rhs no_carry st instr else dp rhs (fun _ a b => b - a) st instr
  | 4 => if s then dps_add rhs no_carry st instr else dp rhs (fun _ a b => a + b) st instr
  | 5 => if s then dps_add rhs CFlag st instr
         else dp rhs (fun st a b => a + b + CFlag st) st instr
  | 6 => if s then dps_sub rhs not_c st instr
         else dp rhs (fun st a b => a - b - not_c st) st instr
  | 7 => if s then dps_rsb rhs not_c st instr
         else dp rhs (fun st a b => b - a - not_c st) st instr
  | 8 => dp_test rhss Z.land st instr
  | 9 => dp_test rhss Z.lxor st instr
  | 10 => dp_cmp rhs st instr
  | 11 => dp_cmn rhs st instr
  | 12 => if s then dps rhss Z.lor st instr else dp rhs (fun _ => Z.lor) st instr
  | 13 => if s then dps rhss (fun _ b => b) st instr else dp rhs (fun _ _ b => b) st instr
  | 14 => if s then dps rhss (fun a b => Z.land a (NOT b)) st instr
          else dp rhs (fun _ a b => Z.land a (NOT b)) st instr
  | _ => if s then dps rhss (fun _ b => Z.lnot b) st instr
         else dp rhs (fun _ _ b => Z.lnot b) st instr
  end.

(** A group of four bits whose lowest or highest bit is clear is none of the special
    patterns. *)
Lemma special_patterns instr :
  is_u32 instr -> BIT instr 4 = false \/ BIT instr 7 = false ->
  is_strh_reg instr = false /\ is_strh_imm instr = false /\ is_double instr = false
  /\ is_ldrh_reg instr = false /\ is_ldrh_imm instr = false /\ is_mul instr = false.
Proof.
  intros Hi H.
  pose proof (field_bit instr 4 7 4 ltac:(lia) ltac:(lia) ltac:(lia)) as T0.
  pose proof (field_bit instr 4 7 7 ltac:(lia) ltac:(lia) ltac:(lia)) as T3.
  pose proof (field_bit instr 4 11 4 ltac:(lia) ltac:(lia) ltac:(lia)) as U0.
  pose proof (field_bit instr 4 11 7 ltac:(lia) ltac:(lia) ltac:(lia)) as U3.
  change (4 - 4) with 0 in *. change (7 - 4) with 3 in *. unfold BIT in H.
  assert (Hs : forall k, Z.testbit k 0 = true -> Z.testbit k 3 = true ->
                         BITS instr 4 7 <> k /\ BITS instr 4 11 <> k).
  { intros k K0 K3. split; intros E; rewrite E in *; destruct H; congruence. }
  assert (Hm : forall k, Z.testbit k 0 = true -> Z.testbit k 3 = true ->
                         Z.land (BITS instr 4 7) k <> k /\ Z.land (BITS instr 4 11) k <> k).
  { intros k K0 K3. split; intros E;
      pose proof (f_equal (fun z => Z.testbit z 0) E) as E0;
      pose proof (f_equal (fun z => Z.testbit z 3) E) as E3;
      cbn beta in E0, E3; rewrite Z.land_spec in E0, E3; rewrite K0 in E0; rewrite K3 in E3;
      rewrite andb_true_r in E0, E3; destruct H; congruence. }
  unfold is_strh_reg, is_strh_imm, is_double, is_ldrh_reg, is_ldrh_imm, is_mul.
  destruct (Hs 11), (Hs 13), (Hs 15), (Hs 9), (Hm 9); try reflexivity.
  assert (Hl : Z.land (BITS instr 4 11) 249 <> 9).
  { intros E. pose proof (f_equal (fun z => Z.testbit z 0) E) as E0.
    pose proof (f_equal (fun z => Z.testbit z 3) E) as E3.
    cbn beta in E0, E3. rewrite Z.land_spec in E0, E3.
    change (Z.testbit 249 0) with true in E0. change (Z.testbit 9 0) with true in E0.
    change (Z.testbit 249 3) with true in E3. change (Z.testbit 9 3) with true in E3.
    rewrite andb_true_r in E0, E3. destruct H; congruence. }
  repeat split; rewrite ?orb_false_iff, ?andb_false_iff, ?Z.eqb_neq; tauto.
Qed.

(** The fields of the opcode byte. *)
Lemma opcode_fields instr :
  is_u32 instr -> BITS instr 26 27 = 0 ->
  let k := BITS instr 20 27 in
  0 <= k < 64 /\ BIT instr 25 = Z.testbit k 5 /\ BIT instr 20 = Z.testbit k 0
  /\ BITS instr 21 24 = (k / 2) mod 16.
Proof.
  intros Hi H0 k. unfold BIT.
  pose proof (BITS_spec instr 20 27 ltac:(lia) ltac:(lia)) as Hk. fold k in Hk.
  assert (B5 : Z.testbit k 5 = Z.testbit instr 25)
    by (unfold k; by rewrite testbit_BITS by lia).
  assert (B0 : Z.testbit k 0 = Z.testbit instr 20)
    by (unfold k; by rewrite testbit_BITS by lia).
  rewrite B5, B0. rewrite !BITS_spec in * by lia.
  change (2 ^ 20) with 1048576 in *. change (2 ^ 21) with 2097152 in *.
  change (2 ^ 26) with 67108864 in *. change (2 ^ (27 - 20 + 1)) with 256 in *.
  change (2 ^ (27 - 26 + 1)) with 4 in *. change (2 ^ (24 - 21 + 1)) with 16 in *.
  unfold is_u32 in Hi. split; [|split; [done|split; [done|]]].
  - subst k. Z.div_mod_to_equations; lia.
  - subst k. Z.div_mod_to_equations; lia.
Qed.

(** The operand functions an instruction uses. *)
Definition rhs_fn (instr : Z) : operand := if BIT instr 25 then DPImmRHS else DPRegRHS.
Definition rhss_fn (instr : Z) : operand := if BIT instr 25 then DPSImmRHS else DPSRegRHS.

Lemma mainswitch_dp st instr pc :
  is_dp instr ->
  mainswitch st instr pc
  = dp_body (BITS instr 21 24) (BIT instr 20) (rhs_fn instr) (rhss_fn instr) st instr.
Proof.
  intros [Hi Hc Hx Hm _ _]. destruct (opcode_fields instr Hi Hc) as (Hk & H25 & H20 & Hop).
  unfold mainswitch, rhs_fn, rhss_fn. set (k := BITS instr 20 27) in *.
  rewrite H20, Hop in *. rewrite H25 in *.
  assert (Hsp : Z.testbit k 5 = false -> is_strh_reg instr = false /\ is_strh_imm instr = false
    /\ is_double instr = false /\ is_ldrh_reg instr = false /\ is_ldrh_imm instr = false
    /\ is_mul instr = false).
  { intros E. apply special_patterns; [done|]. rewrite E in Hx. destruct Hx; [done|tauto]. }
  assert (Hxs : xscale_double st instr = false).
  { unfold xscale_double. destruct (Z.testbit k 5) eqn:E.
    - assert (HB : (BITS instr 25 27 =? 0) = false); [|by rewrite HB, andb_false_r].
      apply Z.eqb_neq. intros E0.
      pose proof (field_bit instr 25 27 25 ltac:(lia) ltac:(lia) ltac:(lia)) as T.
      rewrite E0 in T. unfold BIT in H25. rewrite H25 in T. done.
    - destruct (Hsp eq_refl) as (_ & _ & -> & _). apply andb_false_r. }
  rewrite Hxs. rewrite (proj2 (Z.ltb_lt k 64)) by lia. clearbody k.
  clear H25 H20 Hop Hxs Hc Hx.
  enum_Z k 0 64;
    (try (destruct (Hsp eq_refl) as (E1 & E2 & E3 & E4 & E5 & E6));
     cbn; try (exfalso; cbn in Hm; destruct Hm; discriminate);
     unfold case_00, case_01, case_02, case_03, case_04, case_05, case_06, case_07, case_08,
       case_09, case_0a, case_0b, case_0c, case_0d, case_0e, case_0f, case_11, case_13,
       case_15, case_17, case_18, case_19, case_1a, case_1b, case_1c, case_1d, case_1e, case_1f;
     rewrite ?E1, ?E2, ?E3, ?E4, ?E5, ?E6; reflexivity).
Qed.

(** ** The flags *)

Lemma NegZero_eq st r :
  is_u32 r ->
  ARMul_NegZero st r = set_ZFlag (set_NFlag st (Z.b2z (Z.testbit r 31))) (Z.b2z (r =? 0)).
Proof.
  intros Hr. unfold ARMul_NegZero. rewrite NEG_spec, testbit31 by done.
  destruct (Z.leb_spec 2147483648 r), (Z.eqb_spec r 0); try done. lia.
Qed.

Lemma AddWithCarry_comm x y c : AddWithCarry x y c = AddWithCarry y x c.
Proof.
  unfold AddWithCarry. by rewrite (Z.add_comm x y), (Z.add_comm (s32 x) (s32 y)).
Qed.

(** Where the code skips the test, there is neither carry nor overflow. *)
Lemma no_carry_small a b c res carry v :
  0 <= a < 1073741824 -> 0 <= b < 1073741824 -> is_flag c ->
  AddWithCarry a b c = (res, carry, v) -> carry = false /\ v = false /\ res < 2147483648.
Proof.
  intros Ha Hb Hc [= <- <- <-]. unfold is_flag in Hc.
  rewrite (u32_id (a + b + c)) by (unfold is_u32; lia).
  rewrite !s32_id by lia. rewrite !Z.eqb_refl. cbn. split; [done|]. split; [done|lia].
Qed.

Lemma no_borrow_small a b nb res carry v :
  0 <= a < b -> b < 2147483648 -> is_flag nb ->
  AddWithCarry a (u32 (Z.lnot b)) (1 - nb) = (res, carry, v) -> carry = false /\ v = false.
Proof.
  intros Ha Hb Hc [= _ <- <-]. unfold is_flag in Hc.
  rewrite not32 by (unfold is_u32; lia).
  rewrite (u32_id (a + _ + _)) by (unfold is_u32; lia).
  rewrite !s32_word by (unfold is_u32; lia).
  rewrite (proj2 (Z.leb_gt _ a)), !(proj2 (Z.leb_le _ _)) by lia.
  rewrite !(proj2 (Z.eqb_eq _ _)) by lia. done.
Qed.

Lemma add_flags_eq st a b c res carry v :
  is_u32 a -> is_u32 b -> is_flag c -> AddWithCarry a b c = (res, carry, v) ->
  add_flags st a b res = set_flags st (Z.testbit res 31) (res =? 0) carry v.
Proof.
  intros Ha Hb Hc E. destruct (add_flags_ok a b c res carry v Ha Hb Hc E) as (Hr & <- & Hv).
  assert (Hres : is_u32 res) by (rewrite Hr; apply u32_range).
  unfold add_flags. rewrite high_bits by (unfold is_u32 in *; lia).
  change (2 ^ 30) with 1073741824.
  destruct ((1073741824 <=? a) || (1073741824 <=? b)) eqn:Hbig.
  - unfold ARMul_AddOverflow, ARMul_AddCarry, set_flags. rewrite Hv, NEG_b2z, testbit31 by done.
    reflexivity.
  - apply orb_false_iff in Hbig as [H1 H2]. apply Z.leb_gt in H1, H2. unfold is_u32 in Ha, Hb.
    destruct (add_flags_ok a b c res _ v Ha Hb Hc E) as (_ & Hca & _).
    destruct (no_carry_small a b c res _ v ltac:(lia) ltac:(lia) Hc E) as (-> & -> & Hlt).
    rewrite testbit31, (proj2 (Z.leb_gt _ res)) by done. reflexivity.
Qed.

Lemma sub_flags_eq st a b nb res carry v :
  is_u32 a -> is_u32 b -> is_flag nb ->
  AddWithCarry a (u32 (Z.lnot b)) (1 - nb) = (res, carry, v) ->
  sub_flags st a b res = set_VFlag (set_CFlag st (Z.b2z carry)) (Z.b2z v).
Proof.
  intros Ha Hb Hc E. destruct (sub_flags_ok a b nb res carry v Ha Hb Hc E) as (_ & Hca & Hv).
  unfold sub_flags. rewrite high_bits by (unfold is_u32 in *; lia).
  change (2 ^ 31) with 2147483648.
  destruct ((b <=? a) || ((2147483648 <=? b) || (2147483648 <=? a))) eqn:Hbig.
  - unfold ARMul_SubOverflow, ARMul_SubCarry. by rewrite Hv, Hca.
  - apply orb_false_iff in Hbig as [H1 H2]. apply orb_false_iff in H2 as [H2 H3].
    apply Z.leb_gt in H1, H2, H3. unfold is_u32 in Ha, Hb.
    by destruct (no_borrow_small a b nb res carry v ltac:(lia) ltac:(lia) Hc E) as [-> ->].
Qed.

(** ** Each shape of body against the reference *)

Section bodies.
Context (st st1 : ARMul_State) (instr rn so : Z) (shc : bool) (rhs rhss : operand).
Context (Hrhs : rhs st instr = Val (so, st1)).
Context (Hrhss : rhss st instr = Val (so, set_CFlag st1 (Z.b2z shc))).
Context (Hlhs : LHS st instr = rn) (Hlhs1 : LHS st1 instr = rn).
Context (Hrn : is_u32 rn) (Hso : is_u32 so).
Context (HRd : DESTReg instr <> 15) (HC : is_flag (CFlag st)) (HC1 : CFlag st1 = CFlag st).

Lemma rd_not_pc : (DESTReg instr =? 15) = false.
Proof. by apply Z.eqb_neq. Qed.

Lemma dp_ok f : dp rhs f st instr = Some (Val (set_reg st1 (DESTReg instr) (u32 (f st1 rn so)))).
Proof. unfold dp, WRITEDEST. by rewrite Hrhs, rd_not_pc; cbn; rewrite Hlhs1. Qed.

Lemma dps_ok f :
  let res := u32 (f rn so) in
  dps rhss f st instr
  = Some (Val (set_ZFlag (set_NFlag
      (set_reg (set_CFlag st1 (Z.b2z shc)) (DESTReg instr) res)
      (Z.b2z (Z.testbit res 31))) (Z.b2z (res =? 0)))).
Proof.
  cbv zeta. unfold dps, WRITESDEST. rewrite Hrhss, rd_not_pc. cbn [rbind].
  change (LHS (set_CFlag ?s ?v) ?i) with (LHS s i). rewrite Hlhs1.
  by rewrite NegZero_eq by apply u32_range.
Qed.

Lemma dps_sub_ok borrow c res carry v :
  borrow st1 = 1 - c -> is_flag c -> AddWithCarry rn (u32 (Z.lnot so)) c = (res, carry, v) ->
  dps_sub rhs borrow st instr
  = Some (Val (set_flags (set_reg st1 (DESTReg instr) res)
                 (Z.testbit res 31) (res =? 0) carry v)).
Proof.
  intros Hb Hc E. assert (Hnb : is_flag (1 - c)) by (unfold is_flag in *; lia).
  replace c with (1 - (1 - c)) in E by lia.
  destruct (sub_flags_ok _ _ _ _ _ _ Hrn Hso Hnb E) as (Hres & _ & _).
  unfold dps_sub, WRITESDEST. rewrite Hrhs, rd_not_pc. cbn [rbind]. rewrite Hlhs, Hb, <- Hres.
  rewrite (sub_flags_eq _ _ _ _ _ _ _ Hrn Hso Hnb E).
  by rewrite NegZero_eq by (rewrite Hres; apply u32_range).
Qed.

Lemma dps_rsb_ok borrow c res carry v :
  borrow st1 = 1 - c -> is_flag c -> AddWithCarry (u32 (Z.lnot rn)) so c = (res, carry, v) ->
  dps_rsb rhs borrow st instr
  = Some (Val (set_flags (set_reg st1 (DESTReg instr) res)
                 (Z.testbit res 31) (res =? 0) carry v)).
Proof.
  intros Hb Hc E. assert (Hnb : is_flag (1 - c)) by (unfold is_flag in *; lia).
  rewrite AddWithCarry_comm in E. replace c with (1 - (1 - c)) in E by lia.
  destruct (sub_flags_ok _ _ _ _ _ _ Hso Hrn Hnb E) as (Hres & _ & _).
  unfold dps_rsb, WRITESDEST. rewrite Hrhs, rd_not_pc. cbn [rbind]. rewrite Hlhs, Hb, <- Hres.
  rewrite (sub_flags_eq _ _ _ _ _ _ _ Hso Hrn Hnb E).
  by rewrite NegZero_eq by (rewrite Hres; apply u32_range).
Qed.

Lemma dps_add_ok carry_of c res carry v :
  carry_of st1 = c -> is_flag c -> AddWithCarry rn so c = (res, carry, v) ->
  dps_add rhs carry_of st instr
  = Some (Val (set_flags (set_reg st1 (DESTReg instr) res)
                 (Z.testbit res 31) (res =? 0) carry v)).
Proof.
  intros Hb Hc E. destruct (add_flags_ok _ _ _ _ _ _ Hrn Hso Hc E) as (Hres & _ & _).
  unfold dps_add, WRITESDEST. rewrite Hrhs, rd_not_pc. cbn [rbind]. rewrite Hlhs, Hb, <- Hres.
  rewrite (add_flags_eq _ _ _ _ _ _ _ Hrn Hso Hc E).
  by rewrite NegZero_eq by (rewrite Hres; apply u32_range).
Qed.

Lemma dp_test_ok f :
  let res := u32 (f rn so) in
  dp_test rhss f st instr
  = Some (Val (set_ZFlag (set_NFlag (set_CFlag st1 (Z.b2z shc)) (Z.b2z (Z.testbit res 31)))
                 (Z.b2z (res =? 0)))).
Proof.
  cbv zeta. unfold dp_test. rewrite Hrhss, rd_not_pc. cbn [rbind].
  change (LHS (set_CFlag ?s ?v) ?i) with (LHS s i). rewrite Hlhs1.
  by rewrite NegZero_eq by apply u32_range.
Qed.

Lemma dp_cmp_ok res carry v :
  AddWithCarry rn (u32 (Z.lnot so)) 1 = (res, carry, v) ->
  dp_cmp rhs st instr = Some (Val (set_flags st1 (Z.testbit res 31) (res =? 0) carry v)).
Proof.
  intros E. assert (Hnb : is_flag 0) by (left; done).
  change 1 with (1 - 0) in E.
  destruct (sub_flags_ok _ _ _ _ _ _ Hrn Hso Hnb E) as (Hres & _ & _).
  unfold dp_cmp. rewrite Hrhs, rd_not_pc. cbn [rbind]. rewrite Hlhs.
  rewrite Z.sub_0_r in Hres. rewrite <- Hres.
  rewrite (sub_flags_eq _ _ _ _ _ _ _ Hrn Hso Hnb E).
  by rewrite NegZero_eq by (rewrite Hres; apply u32_range).
Qed.

Lemma dp_cmn_ok res carry v :
  AddWithCarry rn so 0 = (res, carry, v) ->
  dp_cmn rhs st instr = Some (Val (set_flags st1 (Z.testbit res 31) (res =? 0) carry v)).
Proof.
  intros E. assert (Hnb : is_flag 0) by (left; done).
  destruct (add_flags_ok _ _ _ _ _ _ Hrn Hso Hnb E) as (Hres & _ & _).
  unfold dp_cmn. rewrite Hrhs, rd_not_pc. cbn [rbind]. rewrite Hlhs.
  rewrite Z.add_0_r in Hres. rewrite <- Hres.
  by rewrite (add_flags_eq _ _ _ _ _ _ _ Hrn Hso Hnb E).
Qed.
End bodies.

(** ** The theorem *)

Lemma Shift_C_u32 x ty n c : is_u32 x -> 0 <= n -> is_u32 (fst (Shift_C x ty n c)).
Proof.
  intros Hx Hn. unfold Shift_C. destruct (Z.eqb_spec n 0); [done|].
  destruct ty; cbn [fst]; try apply u32_range.
  - by apply shiftr_u32.
  - apply lor_u32; [by apply shiftr_u32|]. by destruct c.
Qed.

Lemma shifter_operand_u32 st instr : arm_wf st -> is_u32 (fst (shifter_operand st instr)).
Proof.
  intros Hw. unfold shifter_operand. pose proof (BITS_range instr 7 11).
  pose proof (reg_u32 st (BITS instr 0 3) Hw).
  destruct (BIT instr 25); [apply u32_range|]. destruct (BIT instr 4).
  - apply Shift_C_u32; [done|]. apply Z.mod_pos_bound. lia.
  - unfold DecodeImmShift. repeat case_match; simplify_eq; apply Shift_C_u32; (done || lia).
Qed.

Lemma word_align r : is_u32 r -> Z.land r 0xfffffffc = r - r mod 4.
Proof.
  intros Hr. replace (r - r mod 4) with (r / 4 * 4) by (Z.div_mod_to_equations; lia).
  change 4 with (2 ^ 2). rewrite <- Z.shiftr_div_pow2, <- Z.shiftl_mul_pow2 by lia.
  apply Z.bits_inj'. intros i Hi. rewrite Z.land_spec, Z.shiftl_spec by lia.
  change 0xfffffffc with (Z.shiftl (Z.ones 30) 2). rewrite Z.shiftl_spec by lia.
  destruct (Z.lt_ge_cases i 2).
  - rewrite !(Z.testbit_neg_r _ (i - 2)) by lia. apply andb_false_r.
  - rewrite Z.shiftr_spec, Z.sub_add by lia. destruct (Z.lt_ge_cases i 32).
    + rewrite Z.ones_spec_low by lia. apply andb_true_r.
    + rewrite testbit_above_32 by done. done.
Qed.

Lemma LHS_ok st instr : arm_wf st -> LHS st instr = rn_value st instr.
Proof.
  intros Hw. unfold LHS, rn_value, LHSReg. case_match; [|done].
  apply word_align. by apply reg_u32.
Qed.

Lemma LHS_operand st instr : arm_wf st -> is_dp instr ->
  LHS (operand_state st instr) instr = LHS st instr.
Proof.
  intros Hw Hdp. unfold operand_state. destruct (BIT instr 25) eqn:H25; cbn [negb andb]; [done|].
  destruct (BIT instr 4) eqn:H4; [|done]. destruct (dp_no_pc _ Hdp H25 H4) as (_ & _ & H15).
  change (LHS (ARMul_Icycles ?s ?n) ?i) with (LHS s i). unfold LHS, LHSReg.
  rewrite (proj2 (Z.eqb_neq _ 15)) by done. apply reg_incpc; [done| |done].
  apply (BITS_range instr 16 19); lia.
Qed.

Lemma rn_u32 st instr : arm_wf st -> is_u32 (rn_value st instr).
Proof.
  intros Hw. rewrite <- LHS_ok by done. unfold LHS. case_match; [|by apply reg_u32].
  apply land_u32; [by apply reg_u32 | done].
Qed.

(** The state after a logical operation, with the flags in the order of the
    reference. *)
Lemma logical_state st r d n z c :
  set_ZFlag (set_NFlag (set_reg (set_CFlag st c) d r) n) z
  = set_VFlag (set_CFlag (set_ZFlag (set_NFlag (set_reg st d r) n) z) c) (VFlag st).
Proof. reflexivity. Qed.

Lemma test_state st n z c :
  set_ZFlag (set_NFlag (set_CFlag st c) n) z
  = set_VFlag (set_CFlag (set_ZFlag (set_NFlag st n) z) c) (VFlag st).
Proof. reflexivity. Qed.

Lemma land_word a b : is_u32 a -> 0 <= b -> u32 (Z.land a b) = Z.land a b.
Proof. intros. by apply u32_id, land_u32. Qed.

Lemma lor_word a b : is_u32 a -> is_u32 b -> u32 (Z.lor a b) = Z.lor a b.
Proof. intros. by apply u32_id, lor_u32. Qed.

Lemma lxor_word a b : is_u32 a -> is_u32 b -> u32 (Z.lxor a b) = Z.lxor a b.
Proof.
  intros Ha Hb. apply u32_id, is_u32_testbit.
  - apply Z.lxor_nonneg. unfold is_u32 in *. lia.
  - intros i Hi. by rewrite Z.lxor_spec, !testbit_above_32.
Qed.

(** The results the code truncates. *)
Lemma awc_sub a b c :
  is_u32 b -> u32 (a - b - (1 - c)) = fst (fst (AddWithCarry a (u32 (Z.lnot b)) c)).
Proof.
  intros Hb. cbn. rewrite not32 by done. unfold u32.
  replace (a + (4294967295 - b) + c) with (a - b - (1 - c) + 1 * 4294967296) by lia.
  by rewrite Z.mod_add by lia.
Qed.

Lemma awc_rsb a b c :
  is_u32 a -> u32 (b - a - (1 - c)) = fst (fst (AddWithCarry (u32 (Z.lnot a)) b c)).
Proof. intros. by rewrite AddWithCarry_comm, awc_sub. Qed.

Lemma not_c_flag st : is_flag (CFlag st) -> not_c st = 1 - Z.b2z (c_true (CFlag st)).
Proof. unfold not_c. intros [-> | ->]; reflexivity. Qed.

Lemma operand_CV st instr :
  CFlag (operand_state st instr) = CFlag st /\ VFlag (operand_state st instr) = VFlag st.
Proof. unfold operand_state. by destruct (_ && _). Qed.

Lemma rhs_fn_ok st instr : arm_wf st -> is_dp instr ->
  rhs_fn instr st instr = Val (fst (shifter_operand st instr), operand_state st instr)
  /\ rhss_fn instr st instr
     = Val (fst (shifter_operand st instr),
            set_CFlag (operand_state st instr) (Z.b2z (snd (shifter_operand st instr)))).
Proof.
  intros Hw [Hi _ _ _ _ Hpc]. unfold rhs_fn, rhss_fn. destruct (BIT instr 25) eqn:H25.
  - by rewrite DPImmRHS_ok, DPSImmRHS_ok.
  - by rewrite DPRegRHS_ok, DPSRegRHS_ok by auto.
Qed.

(** ** Both forms of every body *)

Section reference.
Context (st st1 : ARMul_State) (instr rn so : Z) (shc : bool) (rhs rhss : operand).
Context (Hrhs : rhs st instr = Val (so, st1)).
Context (Hrhss : rhss st instr = Val (so, set_CFlag st1 (Z.b2z shc))).
Context (Hlhs : LHS st instr = rn) (Hlhs1 : LHS st1 instr = rn).
Context (Hrn : is_u32 rn) (Hso : is_u32 so).
Context (HRd : DESTReg instr <> 15) (HC : is_flag (CFlag st)) (HC1 : CFlag st1 = CFlag st).
Context (HV : VFlag st1 = Z.b2z (c_true (VFlag st))).

Lemma not_c_st1 : not_c st1 = 1 - Z.b2z (c_true (CFlag st)).
Proof. rewrite <- HC1. apply not_c_flag. by rewrite HC1. Qed.

Lemma CFlag_st1 : CFlag st1 = Z.b2z (c_true (CFlag st)).
Proof. rewrite HC1. by apply flag_b2z. Qed.

(** The new state after an operation with the result [res]. *)
Definition written (op res : Z) : ARMul_State :=
  if is_test op then st1 else set_reg st1 (DESTReg instr) res.

#[local] Ltac words := rewrite ?land_word, ?lor_word, ?lxor_word, ?u32_idem, ?(u32_id so)
  by (done || apply u32_range || (unfold is_u32 in *; lia)).

(** A body without a sum, and one with a sum whose result [E] names. *)
#[local] Ltac logical :=
  first [ erewrite dp_ok by eassumption | erewrite dps_ok by eassumption
        | erewrite dp_test_ok by eassumption ];
  words; unfold set_flags, written; rewrite ?logical_state, ?test_state, ?HV; reflexivity.

#[local] Ltac flag_side :=
  first [ reflexivity | apply not_c_st1 | apply CFlag_st1 | apply is_flag_b2z
        | by left | by right ].

#[local] Ltac sum :=
  match goal with
  | |- context [AddWithCarry ?a ?b ?cin] =>
      let E := fresh "E" in destruct (AddWithCarry a b cin) as [[? ?] ?] eqn:E;
      first [ erewrite dps_sub_ok with (c := cin) by (eassumption || flag_side)
            | erewrite dps_rsb_ok with (c := cin) by (eassumption || flag_side)
            | erewrite dps_add_ok with (c := cin) by (eassumption || flag_side)
            | erewrite dp_cmp_ok by eassumption
            | erewrite dp_cmn_ok by eassumption ];
      reflexivity
  end.

Lemma body_s op :
  0 <= op < 16 ->
  dp_body op true rhs rhss st instr
  = Some (Val (let '(res, c, v) :=
                 dp_result op rn so shc (c_true (CFlag st)) (c_true (VFlag st)) in
               set_flags (written op res) (Z.testbit res 31) (res =? 0) c v)).
Proof.
  intros Hop. enum_Z op 0 16; cbn [dp_body dp_result].
  all: first [logical | sum].
Qed.

(** [rhs - lhs] and [lhs - rhs] as the sums of the manual. *)
Lemma sub_as_sum a b : is_u32 b -> u32 (a - b) = fst (fst (AddWithCarry a (u32 (Z.lnot b)) 1)).
Proof. intros. rewrite <- awc_sub by done. f_equal. lia. Qed.

Lemma rsb_as_sum a b : is_u32 a -> u32 (b - a) = fst (fst (AddWithCarry (u32 (Z.lnot a)) b 1)).
Proof. intros. rewrite AddWithCarry_comm. by apply sub_as_sum. Qed.

Lemma body_n op :
  0 <= op < 16 -> is_test op = false ->
  dp_body op false rhs rhss st instr
  = Some (Val (written op
      (fst (fst (dp_result op rn so shc (c_true (CFlag st)) (c_true (VFlag st))))))).
Proof.
  intros Hop Hm. unfold written. rewrite Hm.
  enum_Z op 0 16; cbn [dp_body dp_result]; try discriminate Hm; clear Hm.
  all: erewrite dp_ok by eassumption.
  all: rewrite ?not_c_st1, ?CFlag_st1; do 3 f_equal; try done.
  all: first [ by cbn [fst]; words | by apply sub_as_sum | by apply rsb_as_sum | by apply awc_sub
             | by apply awc_rsb | by cbn; rewrite Z.add_0_r | reflexivity ].
Qed.
End reference.

(** C3: Every ARM data processing instruction with a general destination register, in
    all its encodings, leaves exactly the state the architecture manual prescribes. *)
Theorem arm_dp_reference st instr pc :
  arm_wf st -> is_dp instr -> mainswitch st instr pc = Some (Val (dp_spec st instr)).
Proof.
  intros Hw Hdp. rewrite mainswitch_dp by done.
  destruct (rhs_fn_ok st instr Hw Hdp) as [Hrhs Hrhss].
  destruct (operand_CV st instr) as [HC HV].
  pose proof (LHS_ok st instr Hw) as Hlhs.
  pose proof (LHS_operand st instr Hw Hdp) as Hlhs1. rewrite Hlhs in Hlhs1.
  pose proof (rn_u32 st instr Hw). pose proof (shifter_operand_u32 st instr Hw).
  pose proof (BITS_range instr 21 24 ltac:(lia) ltac:(lia)).
  pose proof (dp_Rd _ Hdp). pose proof (wf_C _ Hw).
  rewrite (flag_b2z _ (wf_V _ Hw)) in HV.
  unfold dp_spec. destruct (shifter_operand st instr) as [so shc]. cbn [fst snd] in *.
  destruct (BIT instr 20) eqn:H20.
  - erewrite body_s by eassumption. by destruct (dp_result _ _ _ _ _ _) as [[? ?] ?].
  - destruct (dp_no_misc _ Hdp) as [|Hm]; [congruence|].
    erewrite body_n with (shc := shc) by eassumption. by destruct (dp_result _ _ _ _ _ _) as [[? ?] ?].
Qed.
