(* ===== verification/ArmMulProps.v ===== *)
(** * Long multiplications: four 16-bit products make the exact 64-bit one *)

From Stdlib Require Import ZArith Lia Bool.
From stdpp Require Import base numbers option list.
From S2P Require Import Prelude Words ArmState ArmSupp ArmShift ArmExec ArmLemmas.

Lemma Add32_ok a b :
  is_u32 a -> is_u32 b ->
  let (r, c) := Add32 a b in r + c * 4294967296 = a + b /\ is_u32 r /\ is_flag c.
Proof.
  intros Ha Hb. unfold Add32. split; [|split; [apply u32_range | apply is_flag_b2z]].
  unfold is_u32 in *. rewrite u32_carry by lia.
  destruct (Z.leb_spec 4294967296 (a + b)).
  - rewrite (proj2 (Z.eqb_neq _ a)), (proj2 (Z.ltb_lt _ a)) by lia. cbn. lia.
  - destruct (Z.eqb_spec (a + b) a), (Z.eqb_spec b 0); cbn; try lia.
    rewrite (proj2 (Z.ltb_ge _ a)) by lia. cbn. lia.
Qed.

(** A word is its halves. *)
Lemma halves x :
  is_u32 x -> x = Z.land (Z.shiftr x 16) 0xffff * 65536 + Z.land x 0xffff
              /\ 0 <= Z.land (Z.shiftr x 16) 0xffff < 65536 /\ 0 <= Z.land x 0xffff < 65536.
Proof.
  intros Hx. change 0xffff with (Z.ones 16). rewrite !Z.land_ones, Z.shiftr_div_pow2 by lia.
  change (2 ^ 16) with 65536. unfold is_u32 in *. Z.div_mod_to_equations; lia.
Qed.

Lemma half_product a b : 0 <= a < 65536 -> 0 <= b < 65536 -> 0 <= a * b <= 4294836225.
Proof. nia. Qed.

(** The words of the product of two words. *)
Lemma mul64_parts_ok Rs Rm :
  is_u32 Rs -> is_u32 Rm ->
  let (lo, hi) := mul64_parts Rs Rm in
  hi * 4294967296 + lo = Rs * Rm /\ is_u32 lo /\ is_u32 hi.
Proof.
  intros Hs Hm. unfold mul64_parts.
  destruct (halves Rs Hs) as (Es & Hs1 & Hs0), (halves Rm Hm) as (Em & Hm1 & Hm0).
  set (a1 := Z.land (Z.shiftr Rs 16) 0xffff) in *. set (a0 := Z.land Rs 0xffff) in *.
  set (b1 := Z.land (Z.shiftr Rm 16) 0xffff) in *. set (b0 := Z.land Rm 0xffff) in *.
  pose proof (half_product a0 b0 Hs0 Hm0) as P00. pose proof (half_product a0 b1 Hs0 Hm1) as P01.
  pose proof (half_product a1 b0 Hs1 Hm0) as P10. pose proof (half_product a1 b1 Hs1 Hm1) as P11.
  rewrite (u32_id (a0 * b0)), (u32_id (a0 * b1)), (u32_id (a1 * b0)), (u32_id (a1 * b1))
    by (unfold is_u32; lia).
  assert (E : Rs * Rm = a0 * b0 + (a0 * b1 + a1 * b0) * 65536 + a1 * b1 * 4294967296)
    by (rewrite Es, Em; ring).
  assert (Hlt : Rs * Rm < 18446744073709551616) by (unfold is_u32 in *; nia).
  rewrite E in *. clear E.
  generalize dependent (a0 * b0). generalize dependent (a0 * b1).
  generalize dependent (a1 * b0). generalize dependent (a1 * b1).
  clearbody a0 a1 b0 b1. clear Es Em Hs1 Hs0 Hm1 Hm0.
  intros p11 H11 p10 H10 p01 H01 p00 H00 Hlt.
  destruct (halves p01 ltac:(unfold is_u32; lia)) as (E01 & R01 & S01).
  destruct (halves p10 ltac:(unfold is_u32; lia)) as (E10 & R10 & S10).
  set (h01 := Z.land (Z.shiftr p01 16) 0xffff) in *. set (l01 := Z.land p01 0xffff) in *.
  set (h10 := Z.land (Z.shiftr p10 16) 0xffff) in *. set (l10 := Z.land p10 0xffff) in *.
  assert (Hl : forall p h l, p = h * 65536 + l -> 0 <= l < 65536 -> shl p 16 = l * 65536).
  { intros p h l -> Hl. unfold shl, u32. rewrite Z.shiftl_mul_pow2 by lia.
    change (2 ^ 16) with 65536. Z.div_mod_to_equations; lia. }
  rewrite (Hl _ _ _ E01 S01), (Hl _ _ _ E10 S10).
  pose proof (Add32_ok p00 (l01 * 65536)) as A1.
  destruct (Add32 p00 (l01 * 65536)) as [r1 c1].
  destruct A1 as (A1 & B1 & C1); [unfold is_u32; lia..|].
  pose proof (Add32_ok r1 (l10 * 65536)) as A2.
  destruct (Add32 r1 (l10 * 65536)) as [r2 c2].
  destruct A2 as (A2 & B2 & C2); [done|unfold is_u32; lia|].
  clearbody h01 l01 h10 l10. unfold is_u32, is_flag in *.
  rewrite (u32_id (c1 + _)) by (unfold is_u32; lia). lia.
Qed.

(** ** Signs *)

Lemma abs32_ok r : is_u32 r -> is_u32 (abs32 r) /\ abs32 r = Z.abs (s32 r).
Proof.
  intros Hr. unfold abs32. rewrite s32_word by done. unfold is_u32 in *.
  destruct (Z.leb_spec 2147483648 r).
  - rewrite (proj2 (Z.ltb_lt _ 0)) by lia. unfold u32. Z.div_mod_to_equations; lia.
  - rewrite (proj2 (Z.ltb_ge _ 0)) by lia. lia.
Qed.

Lemma land_sign x : is_u32 x -> c_true (Z.land x 0x80000000) = (2147483648 <=? x).
Proof.
  intros Hx. rewrite <- testbit31 by done.
  destruct (Z.testbit x 31) eqn:E.
  - unfold c_true. destruct (Z.eqb_spec (Z.land x 0x80000000) 0) as [H|]; [|done].
    apply (f_equal (fun z => Z.testbit z 31)) in H. rewrite Z.land_spec, E in H. done.
  - apply c_true_false. apply Z.bits_inj'. intros i Hi. rewrite Z.land_spec, Z.bits_0.
    destruct (Z.eq_dec i 31) as [->|Hne]; [by rewrite E|].
    change 0x80000000 with (2 ^ 31). rewrite Z.pow2_bits_false by lia. apply andb_false_r.
Qed.

Lemma sign_ok a b :
  is_u32 a -> is_u32 b ->
  c_true (Z.land (Z.lxor a b) 0x80000000) = xorb (s32 a <? 0) (s32 b <? 0).
Proof.
  intros Ha Hb.
  assert (Hx : is_u32 (Z.lxor a b)).
  { apply is_u32_testbit; [apply Z.lxor_nonneg; unfold is_u32 in *; lia|].
    intros i Hi. by rewrite Z.lxor_spec, !testbit_above_32. }
  rewrite land_sign, <- testbit31, Z.lxor_spec, !testbit31, !s32_word by done.
  unfold is_u32 in *. f_equal; case_match; symmetry;
    rewrite ?Z.ltb_lt, ?Z.ltb_ge; lia.
Qed.

Lemma negate64_ok lo hi :
  is_u32 lo -> is_u32 hi ->
  let (l, h) := negate64 lo hi in
  h * 4294967296 + l = (- (hi * 4294967296 + lo)) mod 18446744073709551616
  /\ is_u32 l /\ is_u32 h.
Proof.
  intros Hl Hh. unfold negate64. rewrite !not32 by done. unfold is_u32 in *.
  destruct (Z.eqb_spec (4294967295 - lo) 0xffffffff) as [E|E]; unfold u32;
    (split; [|split]); Z.div_mod_to_equations; lia.
Qed.

(** ** Counting zeros *)

(** CLZ counts the zeros above the highest bit: its loop ends within 32 passes. *)
Lemma clz_loop_ok n x res :
  is_u32 x -> 0 < x -> 31 - Z.log2 x <= Z.of_nat n -> clz_loop n x res = res + (31 - Z.log2 x).
Proof.
  revert x res. induction n as [|n IH]; intros x res Hx Hp Hn; cbn [clz_loop];
    rewrite <- (negb_involutive (_ =? 0)); change (negb (?z =? 0)) with (c_true z);
    rewrite land_sign by done; destruct (Z.leb_spec 2147483648 x) as [Hb|Hb]; cbn [negb].
  1, 3: assert (Z.log2 x = 31) as -> by (apply Z.log2_unique;
          [lia|change (2 ^ 31) with 2147483648; change (2 ^ Z.succ 31) with 4294967296;
               unfold is_u32 in Hx; lia]); lia.
  - assert (Z.log2 x < 31) by (apply Z.log2_lt_pow2; [done|exact Hb]). lia.
  - assert (E : shl x 1 = 2 * x) by (unfold shl; rewrite Z.shiftl_mul_pow2, Z.mul_comm by lia;
      apply u32_id; unfold is_u32; lia).
    rewrite E, IH by (unfold is_u32 in *; rewrite ?Z.log2_double by lia; lia).
    rewrite Z.log2_double by lia. lia.
Qed.

Lemma clz_correct x : is_u32 x -> clz x = if x =? 0 then 32 else 31 - Z.log2 x.
Proof.
  intros Hx. unfold clz, c_true. destruct (Z.eqb_spec x 0) as [|Hne]; [done|]. cbn [negb].
  pose proof (Z.log2_nonneg x). rewrite clz_loop_ok by (unfold is_u32 in Hx; done || lia). lia.
Qed.

(** ** The instructions *)

(** The product of two registers as signed or unsigned numbers. *)
Definition long_product (msigned : bool) (a b : Z) : Z :=
  if msigned then s32 a * s32 b else a * b.

Definition W64 : Z := 18446744073709551616.

(** Two words as one 64-bit number. *)
Definition word64 (hi lo : Z) : Z := hi * 4294967296 + lo.

Lemma product_words msigned Rm Rs :
  is_u32 Rm -> is_u32 Rs ->
  let sign := msigned && c_true (Z.land (Z.lxor Rm Rs) 0x80000000) in
  let (lo, hi) := mul64_parts (if msigned then abs32 Rs else Rs)
                    (if msigned then abs32 Rm else Rm) in
  let (lo, hi) := if sign then negate64 lo hi else (lo, hi) in
  word64 hi lo = long_product msigned Rm Rs mod W64 /\ is_u32 lo /\ is_u32 hi.
Proof.
  intros Hm Hs. destruct (abs32_ok Rm Hm) as [Am Em], (abs32_ok Rs Hs) as [As Es].
  unfold long_product, word64, W64. destruct msigned; cbn [andb].
  - pose proof (mul64_parts_ok _ _ As Am) as P. destruct (mul64_parts _ _) as [lo hi].
    destruct P as (P & Hlo & Hhi). rewrite sign_ok by done. rewrite Em, Es in P.
    pose proof (s32_range Rm). pose proof (s32_range Rs).
    generalize dependent (s32 Rm). generalize dependent (s32 Rs). intros y Ey Hy x Ex P Hx.
    assert (Hsgn : Z.abs y * Z.abs x = if xorb (x <? 0) (y <? 0) then - (x * y) else x * y).
    { destruct (Z.ltb_spec x 0), (Z.ltb_spec y 0); cbn; nia. }
    rewrite Hsgn in P. destruct (xorb _ _).
    + pose proof (negate64_ok lo hi Hlo Hhi) as N. destruct (negate64 lo hi) as [l h].
      by rewrite P, Z.opp_involutive in N.
    + rewrite Z.mod_small; [done|]. unfold is_u32 in *. lia.
  - pose proof (mul64_parts_ok _ _ Hs Hm) as P. destruct (mul64_parts _ _) as [lo hi].
    destruct P as (P & Hlo & Hhi). rewrite (Z.mul_comm Rm Rs), <- P.
    rewrite Z.mod_small; [done|]. unfold is_u32 in *. lia.
Qed.

Lemma words_flags lo hi :
  is_u32 lo -> is_u32 hi ->
  let r := Z.lor (Z.lor hi (Z.shiftr lo 16)) (Z.land lo 0xffff) in
  is_u32 r /\ Z.testbit r 31 = Z.testbit hi 31 /\ (r =? 0) = (word64 hi lo =? 0).
Proof.
  intros Hl Hh. cbv zeta. pose proof (halves lo Hl) as (El & Hh1 & Hl0).
  assert (H16 : is_u32 (Z.shiftr lo 16)) by (apply shiftr_u32; [done|lia]).
  assert (H0 : is_u32 (Z.land lo 0xffff)) by (unfold is_u32; lia).
  split; [by repeat apply lor_u32|]. split.
  - rewrite !Z.lor_spec, Z.shiftr_spec, Z.land_spec by lia.
    rewrite (testbit_above_32 lo) by (done || lia).
    change (Z.testbit 0xffff 31) with false. by rewrite andb_false_r, !orb_false_r.
  - unfold word64. destruct (Z.eqb_spec (hi * 4294967296 + lo) 0) as [E|E].
    + assert (hi = 0 /\ lo = 0) as [-> ->] by (unfold is_u32 in *; lia). done.
    + apply Z.eqb_neq. intros E0. apply Z.lor_eq_0_iff in E0 as [E0 E2].
      apply Z.lor_eq_0_iff in E0 as [E0 E1]. rewrite E1, E2, Z.land_0_l in El. lia.
Qed.

(** The state with the two words of a result written. *)
Definition set_words (st : ARMul_State) (instr lo hi : Z) : ARMul_State :=
  set_reg (set_reg st (BITS instr 12 15) lo) (BITS instr 16 19) hi.

Definition flags64 (scc : bool) (st : ARMul_State) (v : Z) : ARMul_State :=
  if scc then set_ZFlag (set_NFlag st (Z.b2z (Z.testbit v 63))) (Z.b2z (v =? 0)) else st.

Lemma word64_top lo hi : is_u32 lo -> is_u32 hi -> Z.testbit (word64 hi lo) 63 = Z.testbit hi 31.
Proof.
  intros Hl Hh. change 63 with (31 + 32). rewrite <- Z.div_pow2_bits by lia. f_equal.
  unfold word64, is_u32 in *. change (2 ^ 32) with 4294967296. Z.div_mod_to_equations; lia.
Qed.

Lemma flags64_NegZero (scc : bool) st lo hi :
  is_u32 lo -> is_u32 hi ->
  (if scc then ARMul_NegZero st (Z.lor (Z.lor hi (Z.shiftr lo 16)) (Z.land lo 0xffff)) else st)
  = flags64 scc st (word64 hi lo).
Proof.
  intros Hl Hh. destruct scc; [|done]. unfold flags64.
  destruct (words_flags lo hi Hl Hh) as (Hr & Hn & Hz).
  unfold ARMul_NegZero. rewrite NEG_spec, <- testbit31, Hn, Hz, word64_top by done.
  destruct (Z.testbit hi 31) eqn:E; [|by destruct (word64 hi lo =? 0)].
  assert ((word64 hi lo =? 0) = false) as ->; [|done].
  apply Z.eqb_neq. rewrite testbit31 in E by done. apply Z.leb_le in E.
  unfold word64, is_u32 in *. lia.
Qed.

Lemma reg_words st instr lo hi i :
  length (Reg st) = 16%nat -> 0 <= i ->
  reg (set_words st instr lo hi) i
  = if i =? BITS instr 16 19 then hi else if i =? BITS instr 12 15 then lo else reg st i.
Proof.
  intros Hlen Hi. pose proof (BITS_range instr 16 19 ltac:(lia) ltac:(lia)).
  pose proof (BITS_range instr 12 15 ltac:(lia) ltac:(lia)).
  change (2 ^ (19 - 16 + 1)) with 16 in *. change (2 ^ (15 - 12 + 1)) with 16 in *.
  unfold set_words. rewrite reg_set_reg; [|by cbn; rewrite length_updZ|lia..].
  case_match; [done|]. by rewrite reg_set_reg by (done || lia).
Qed.

Section long.
Context (st : ARMul_State) (instr : Z) (Hw : arm_wf st) (Hl : mul64_legal instr = true).

(** The product of the instruction's operands. *)
Definition operands_product (msigned : bool) : Z :=
  long_product msigned (reg st (BITS instr 0 3)) (reg st (BITS instr 8 11)).

Lemma Multiply64_ok msigned scc :
  exists n lo hi,
    Multiply64 st instr msigned scc
    = (n, flags64 scc (set_words st instr lo hi) (word64 hi lo))
    /\ word64 hi lo = operands_product msigned mod W64 /\ is_u32 lo /\ is_u32 hi.
Proof.
  unfold Multiply64. rewrite Hl.
  pose proof (product_words msigned _ _ (reg_u32 st (BITS instr 0 3) Hw)
                (reg_u32 st (BITS instr 8 11) Hw)) as P. cbv zeta in P.
  destruct (mul64_parts _ _) as [lo0 hi0].
  destruct (if msigned && _ then negate64 lo0 hi0 else (lo0, hi0)) as [lo hi].
  destruct P as (P & Hlo & Hhi).
  eexists _, lo, hi. split; [|done]. f_equal. by rewrite flags64_NegZero.
Qed.

Lemma legal_fields :
  BITS instr 16 19 <> 15 /\ BITS instr 12 15 <> 15 /\ BITS instr 16 19 <> BITS instr 12 15.
Proof.
  unfold mul64_legal in Hl. rewrite !andb_true_iff, !negb_true_iff, !Z.eqb_neq in Hl. tauto.
Qed.

Lemma MultiplyAdd64_ok msigned scc :
  exists n lo hi,
    MultiplyAdd64 st instr msigned scc
    = (n, flags64 scc (set_words (set_words st instr (operands_product msigned mod W64 mod 4294967296)
             (operands_product msigned mod W64 / 4294967296)) instr lo hi) (word64 hi lo))
    /\ word64 hi lo
       = (operands_product msigned
          + word64 (reg st (BITS instr 16 19)) (reg st (BITS instr 12 15))) mod W64
    /\ is_u32 lo /\ is_u32 hi.
Proof.
  unfold MultiplyAdd64.
  destruct (Multiply64_ok msigned false) as (n & lo & hi & -> & Hv & Hlo & Hhi).
  cbn [flags64]. destruct legal_fields as (_ & _ & Hne).
  pose proof (BITS_range instr 16 19 ltac:(lia) ltac:(lia)).
  pose proof (BITS_range instr 12 15 ltac:(lia) ltac:(lia)).
  rewrite !reg_words, Z.eqb_refl, (proj2 (Z.eqb_neq (BITS instr 12 15) _)), Z.eqb_refl by (apply Hw || lia).
  pose proof (reg_u32 st (BITS instr 12 15) Hw) as H12.
  pose proof (reg_u32 st (BITS instr 16 19) Hw) as H16.
  pose proof (Add32_ok (reg st (BITS instr 12 15)) lo H12 Hlo) as A.
  destruct (Add32 _ lo) as [r c]. destruct A as (A & Hr & Hc).
  eexists (n + 1), r, (u32 (u32 (reg st (BITS instr 16 19) + hi) + c)).
  assert (Hv2 : lo = operands_product msigned mod W64 mod 4294967296
                /\ hi = operands_product msigned mod W64 / 4294967296).
  { rewrite <- Hv. unfold word64, is_u32 in *. Z.div_mod_to_equations; lia. }
  destruct Hv2 as [<- <-].
  split; [f_equal; by rewrite flags64_NegZero by (done || apply u32_range)|].
  split; [|split; [done|apply u32_range]].
  unfold word64, W64 in *. rewrite <- Z.add_mod_idemp_l, <- Hv by lia.
  unfold is_u32, is_flag, u32 in *. Z.div_mod_to_equations; lia.
Qed.
End long.

(** ** Through the main switch *)

Lemma long_case instr :
  is_u32 instr -> BITS instr 23 27 = 1 ->
  exists u a s : bool,
    BITS instr 20 27 = 8 + 4 * Z.b2z u + 2 * Z.b2z a + Z.b2z s
    /\ BIT instr 22 = u /\ BIT instr 21 = a /\ BIT instr 20 = s.
Proof.
  intros Hi H1. exists (BIT instr 22), (BIT instr 21), (BIT instr 20).
  split; [|done].
  pose proof (Z.testbit_spec' instr 22 ltac:(lia)) as T2.
  pose proof (Z.testbit_spec' instr 21 ltac:(lia)) as T1.
  pose proof (Z.testbit_spec' instr 20 ltac:(lia)) as T0.
  unfold BIT. rewrite T2, T1, T0. rewrite !BITS_spec in * by lia.
  change (2 ^ 23) with 8388608 in *. change (2 ^ 22) with 4194304 in *.
  change (2 ^ 21) with 2097152 in *. change (2 ^ 20) with 1048576 in *.
  change (2 ^ (27 - 23 + 1)) with 32 in *. change (2 ^ (27 - 20 + 1)) with 256 in *.
  unfold is_u32 in Hi. Z.div_mod_to_equations; lia.
Qed.

Lemma mul_patterns instr :
  is_u32 instr -> BITS instr 4 7 = 9 ->
  is_strh_reg instr = false /\ is_strh_imm instr = false /\ is_double instr = false
  /\ is_ldrh_reg instr = false /\ is_ldrh_imm instr = false /\ is_mul instr = true.
Proof.
  intros Hi H9. unfold is_strh_reg, is_strh_imm, is_double, is_ldrh_reg, is_ldrh_imm, is_mul.
  assert (H56 : BITS instr 5 6 = 0 /\ BITS instr 4 11 mod 16 = 9).
  { rewrite !BITS_spec in * by lia. change (2 ^ 4) with 16 in *. change (2 ^ 5) with 32 in *.
    change (2 ^ (7 - 4 + 1)) with 16 in *. change (2 ^ (6 - 5 + 1)) with 4 in *.
    change (2 ^ (11 - 4 + 1)) with 256 in *. unfold is_u32 in Hi. Z.div_mod_to_equations; lia. }
  destruct H56 as [-> H411]. rewrite H9. cbn [negb Z.eqb]. rewrite !andb_false_r.
  repeat split; try done. apply Z.eqb_neq. intros E. rewrite E in H411. done.
Qed.

Lemma mainswitch_long st instr pc :
  is_u32 instr -> BITS instr 23 27 = 1 -> BITS instr 4 7 = 9 ->
  mainswitch st instr pc
  = mull (if BIT instr 21 then MultiplyAdd64 else Multiply64) (BIT instr 22) (BIT instr 20)
      st instr.
Proof.
  intros Hi H1 H9. destruct (long_case instr Hi H1) as (u & a & s & Hk & -> & -> & ->).
  destruct (mul_patterns instr Hi H9) as (E1 & E2 & E3 & E4 & E5 & E6).
  unfold mainswitch, xscale_double. rewrite E3, andb_false_r, Hk.
  transitivity ((if u then if a then if s then case_0f else case_0e
                         else if s then case_0d else case_0c
                 else if a then if s then case_0b else case_0a
                         else if s then case_09 else case_08) st instr);
    [by destruct u, a, s|].
  destruct u, a, s;
    unfold case_08, case_09, case_0a, case_0b, case_0c, case_0d, case_0e, case_0f;
    by rewrite ?E1, ?E2, ?E3, ?E4, ?E5, ?E6.
Qed.

(** What the flags and registers are once the words and the flags are written. *)
Lemma long_written st0 st instr (scc : bool) n lo hi :
  length (Reg st) = 16%nat -> BITS instr 16 19 <> BITS instr 12 15 ->
  (forall i, 0 <= i -> i <> BITS instr 16 19 -> i <> BITS instr 12 15 -> reg st i = reg st0 i) ->
  let st' := ARMul_Icycles (flags64 scc (set_words st instr lo hi) (word64 hi lo)) n in
  word64 (reg st' (BITS instr 16 19)) (reg st' (BITS instr 12 15)) = word64 hi lo
  /\ (forall i, 0 <= i -> i <> BITS instr 16 19 -> i <> BITS instr 12 15 ->
                reg st' i = reg st0 i)
  /\ NFlag st' = (if scc then Z.b2z (Z.testbit (word64 hi lo) 63) else NFlag st)
  /\ ZFlag st' = (if scc then Z.b2z (word64 hi lo =? 0) else ZFlag st)
  /\ CFlag st' = CFlag st /\ VFlag st' = VFlag st.
Proof.
  intros Hlen Hne Hreg. cbv zeta.
  assert (Hr : forall i, reg (ARMul_Icycles (flags64 scc (set_words st instr lo hi)
                                 (word64 hi lo)) n) i = reg (set_words st instr lo hi) i)
    by (by destruct scc).
  pose proof (BITS_range instr 16 19 ltac:(lia) ltac:(lia)).
  pose proof (BITS_range instr 12 15 ltac:(lia) ltac:(lia)).
  split; [|split].
  - rewrite !Hr, !reg_words, !Z.eqb_refl by (done || lia).
    by rewrite (proj2 (Z.eqb_neq (BITS instr 12 15) _)) by lia.
  - intros i Hi H1 H2. rewrite Hr, reg_words by done.
    rewrite (proj2 (Z.eqb_neq i _) H1), (proj2 (Z.eqb_neq i _) H2). by apply Hreg.
  - by destruct scc.
Qed.

(** C31: UMULL, UMLAL, SMULL and SMLAL, with and without flags, write the exact 64-bit
    product, plus the 64-bit accumulator for the accumulating forms, into the two
    destination registers, set N and Z to the 64-bit result when asked, and change no
    other register or flag. *)
Theorem long_multiply_exact st instr pc :
  arm_wf st -> is_u32 instr -> BITS instr 23 27 = 1 -> BITS instr 4 7 = 9 ->
  mul64_legal instr = true ->
  let hi := BITS instr 16 19 in
  let lo := BITS instr 12 15 in
  let v := (operands_product st instr (BIT instr 22)
            + (if BIT instr 21 then word64 (reg st hi) (reg st lo) else 0)) mod W64 in
  exists st',
    mainswitch st instr pc = Some (Val st')
    /\ word64 (reg st' hi) (reg st' lo) = v
    /\ (forall i, 0 <= i -> i <> hi -> i <> lo -> reg st' i = reg st i)
    /\ NFlag st' = (if BIT instr 20 then Z.b2z (Z.testbit v 63) else NFlag st)
    /\ ZFlag st' = (if BIT instr 20 then Z.b2z (v =? 0) else ZFlag st)
    /\ CFlag st' = CFlag st /\ VFlag st' = VFlag st.
Proof.
  intros Hw Hi H1 H9 Hl. cbv zeta. rewrite mainswitch_long by done. unfold mull.
  destruct (legal_fields _ Hl) as (_ & _ & Hne).
  destruct (BIT instr 21).
  - destruct (MultiplyAdd64_ok st instr Hw Hl (BIT instr 22) (BIT instr 20))
      as (n & lo & hi & -> & <- & _ & _).
    set (st1 := set_words st instr _ _).
    assert (H16 : length (Reg st1) = 16%nat) by (cbn; rewrite !length_updZ; apply Hw).
    exists (ARMul_Icycles (flags64 (BIT instr 20) (set_words st1 instr lo hi) (word64 hi lo)) n).
    split; [done|].
    apply (long_written st st1); [done|lia|]. intros i Hi' Hhi Hlo.
    unfold st1. rewrite reg_words by (apply Hw || lia).
    by rewrite (proj2 (Z.eqb_neq i _) Hhi), (proj2 (Z.eqb_neq i _) Hlo).
  - destruct (Multiply64_ok st instr Hw Hl (BIT instr 22) (BIT instr 20))
      as (n & lo & hi & -> & Hv & _ & _).
    exists (ARMul_Icycles (flags64 (BIT instr 20) (set_words st instr lo hi) (word64 hi lo)) n).
    rewrite Z.add_0_r, <- Hv. split; [done|]. by apply long_written; [apply Hw|lia|].
Qed.
