(* ===== verification/ArmBanks.v ===== *)
(** * The ARM register banks refine one register file per mode

    The architecture has sixteen registers in every mode, some of them shared
    between modes.  [arm_view] reads that file off the simulator's current
    registers and save areas; [ARMul_SwitchMode] leaves it as it is. *)

From Stdlib Require Import ZArith Lia Bool.
From stdpp Require Import base numbers option list.
From S2P Require Import Prelude Words ArmState ArmSupp ArmShift ArmExec ArmLemmas.

(** A bank registers are kept in: all but the dummy one. *)
Definition real_bank (b : Z) : Prop := 0 <= b < DUMMYBANK.

Lemma ModeToBank_cases mode :
  0 <= mode -> ModeToBank mode = DUMMYBANK \/ real_bank (ModeToBank mode).
Proof.
  intros Hm. unfold ModeToBank. destruct (Z.leb_spec 32 mode); [by left|].
  enum_Z mode 0 32; first [by left | right; by vm_compute].
Qed.

Lemma mode32_bank m : mode32 m = true -> real_bank (ModeToBank m) /\ 3 < m < 32.
Proof.
  unfold mode32. rewrite !orb_true_iff, !Z.eqb_eq. unfold real_bank.
  intros H. repeat destruct H as [H|H]; subst; by vm_compute.
Qed.

(** The bank and the row a register of bank [b] is saved in. *)
Definition save_row (b r : Z) : Z :=
  if (r <? 13) && negb (b =? FIQBANK) then USERBANK else b.

(** Whether the register [r] of bank [b] is one of the current registers. *)
Definition is_current (st : ARMul_State) (b r : Z) : bool :=
  (r <? 8) || (r =? 15)
  || if r <? 13 then eqb (b =? FIQBANK) (Bank st =? FIQBANK) else b =? Bank st.

(** Register [r] as an instruction of bank [b] sees it. *)
Definition arm_view (st : ARMul_State) (b r : Z) : Z :=
  if is_current st b r then reg st r else regbank st (save_row b r) r.

Record bank_shape (st : ARMul_State) : Prop := {
  shape_Reg : length (Reg st) = 16%nat;
  shape_RegBank : length (RegBank st) = 7%nat;
  shape_rows : Forall (fun row => length row = 16%nat) (RegBank st)
}.

Lemma arm_wf_shape st : arm_wf st -> bank_shape st.
Proof. intros Hw. split; apply Hw. Qed.
#[export] Hint Resolve arm_wf_shape : arm.

(** ** Lookup after update *)

Lemma bank_row_length st b : bank_shape st -> 0 <= b < 7 -> length (bank_row st b) = 16%nat.
Proof.
  intros [_ H7 Hr] Hb. unfold bank_row. rewrite Forall_forall in Hr. apply Hr.
  apply list_elem_of_In, nth_In. lia.
Qed.

Lemma bank_row_set st b row c :
  bank_shape st -> 0 <= b < 7 -> 0 <= c ->
  bank_row (set_bank_row st b row) c = if c =? b then row else bank_row st c.
Proof.
  intros [_ H7 _] Hb Hc. unfold bank_row, set_bank_row. cbn.
  destruct (Z.eqb_spec c b) as [->|Hne].
  - apply nth_lookup_Some. rewrite list_lookup_insert_eq; [done|lia].
  - rewrite !nth_lookup. by rewrite list_lookup_insert_ne by lia.
Qed.

Lemma bank_row_set_reg st i v c : bank_row (set_reg st i v) c = bank_row st c.
Proof. done. Qed.

Lemma shape_set_bank_row st b row :
  bank_shape st -> length row = 16%nat -> bank_shape (set_bank_row st b row).
Proof.
  intros [HR H7 Hr] Hlen. split; cbn; [done|by rewrite length_insert|].
  by apply Forall_insert.
Qed.

Lemma length_assign_regs n i f l : length (assign_regs n i f l) = length l.
Proof.
  revert i l. induction n as [|n IH]; intros i l; cbn; [done|].
  by rewrite IH, length_updZ.
Qed.

Lemma nthZ_assign_regs n i f l j :
  0 <= i -> i + Z.of_nat n <= Z.of_nat (length l) -> 0 <= j ->
  nthZ (assign_regs n i f l) j
  = if (i <=? j) && (j <? i + Z.of_nat n) then f j else nthZ l j.
Proof.
  revert i l. induction n as [|n IH]; intros i l Hi Hlen Hj; cbn [assign_regs].
  - rewrite (proj2 (andb_false_iff _ _)); [done|]. rewrite Z.leb_gt, Z.ltb_ge. lia.
  - rewrite IH by (rewrite ?length_updZ; lia). rewrite nthZ_updZ by lia.
    destruct (Z.eqb_spec j i), (Z.leb_spec (i + 1) j), (Z.leb_spec i j),
      (Z.ltb_spec j (i + 1 + Z.of_nat n)), (Z.ltb_spec j (i + Z.of_nat (S n)));
      cbn; subst; try done; lia.
Qed.

(** ** The two halves of a switch *)

(** The saved registers that [save_bank] writes. *)
Definition is_saved (ob nb c r : Z) : bool :=
  (8 <=? r) && (r <? 15)
  && if r <? 13
     then if ob =? FIQBANK then c =? FIQBANK else (nb =? FIQBANK) && (c =? USERBANK)
     else c =? ob.

Lemma shape_set_regbank st b i v :
  bank_shape st -> 0 <= b < 7 -> bank_shape (set_regbank st b i v).
Proof.
  intros Hs Hb. apply shape_set_bank_row; [done|]. rewrite length_updZ.
  by apply bank_row_length.
Qed.

Lemma regbank_set_regbank st b i v c r :
  bank_shape st -> 0 <= b < 7 -> 0 <= i < 16 -> 0 <= c -> 0 <= r ->
  regbank (set_regbank st b i v) c r = if (c =? b) && (r =? i) then v else regbank st c r.
Proof.
  intros Hs Hb Hi Hc Hr. unfold regbank, set_regbank. rewrite bank_row_set by done.
  destruct (Z.eqb_spec c b) as [->|]; cbn; [|done].
  by rewrite nthZ_updZ by (rewrite ?bank_row_length by done; lia).
Qed.

Lemma regbank_assign st b n i f c r :
  bank_shape st -> 0 <= b < 7 -> 0 <= i -> i + Z.of_nat n <= 16 -> 0 <= c -> 0 <= r ->
  regbank (set_bank_row st b (assign_regs n i f (bank_row st b))) c r
  = if (c =? b) && ((i <=? r) && (r <? i + Z.of_nat n)) then f r else regbank st c r.
Proof.
  intros Hs Hb Hi Hn Hc Hr. unfold regbank. rewrite bank_row_set by done.
  destruct (Z.eqb_spec c b) as [->|]; cbn; [|done].
  by rewrite nthZ_assign_regs by (rewrite ?bank_row_length by done; lia).
Qed.

Lemma shape_assign st b n i f :
  bank_shape st -> 0 <= b < 7 ->
  bank_shape (set_bank_row st b (assign_regs n i f (bank_row st b))).
Proof.
  intros Hs Hb. apply shape_set_bank_row; [done|]. rewrite length_assign_regs.
  by apply bank_row_length.
Qed.

Lemma ordinary_or_fiq b : real_bank b -> ordinary_bank b = negb (b =? FIQBANK).
Proof. intros Hb. unfold real_bank, DUMMYBANK in Hb. by enum_Z b 0 6. Qed.

Lemma save_bank_ok st ob nb :
  bank_shape st -> real_bank ob -> ob <> nb ->
  bank_shape (save_bank st ob nb)
  /\ forall c r, 0 <= c -> 0 <= r ->
       regbank (save_bank st ob nb) c r
       = if is_saved ob nb c r then reg st r else regbank st c r.
Proof.
  intros Hs Hob Hne. unfold save_bank. rewrite ordinary_or_fiq by done.
  unfold real_bank, DUMMYBANK in Hob.
  set (st1 := if nb =? FIQBANK then _ else st).
  destruct (Z.eqb_spec ob FIQBANK) as [->|Hf]; cbn [negb].
  - split; [by apply shape_assign|]. intros c r Hc Hr. rewrite regbank_assign by (done || lia).
    unfold is_saved. change (8 + Z.of_nat 7) with 15. rewrite Z.eqb_refl.
    by destruct (c =? FIQBANK), (8 <=? r), (r <? 15), (r <? 13).
  - assert (Hs1 : bank_shape st1) by (unfold st1; case_match; [by apply shape_assign|done]).
    assert (H1 : forall c r, 0 <= c -> 0 <= r -> regbank st1 c r
                 = if (nb =? FIQBANK) && (c =? USERBANK) && (8 <=? r) && (r <? 13)
                   then reg st r else regbank st c r).
    { intros c r Hc Hr. unfold st1. destruct (nb =? FIQBANK); [|done].
      rewrite regbank_assign by (done || lia). change (8 + Z.of_nat 5) with 13.
      by rewrite andb_assoc. }
    assert (R : forall r, reg st1 r = reg st r) by (intros r; unfold st1; by case_match).
    split; [do 2 (apply shape_set_regbank; [|lia]); done|]. intros c r Hc Hr.
    rewrite !regbank_set_regbank, H1
      by (done || lia || (apply shape_set_regbank; [done|lia])).
    change (reg (set_regbank st1 ob 13 (reg st1 13)) 14) with (reg st1 14). rewrite !R.
    unfold is_saved. rewrite (proj2 (Z.eqb_neq ob FIQBANK)) by done.
    destruct (Z.eqb_spec c ob), (Z.eqb_spec r 14), (Z.eqb_spec r 13), (nb =? FIQBANK),
      (c =? USERBANK), (Z.leb_spec 8 r), (Z.ltb_spec r 15), (Z.ltb_spec r 13);
      cbn; subst; try done; lia.
Qed.

(** The current registers that [load_bank] replaces. *)
Definition is_loaded (ob nb r : Z) : bool :=
  (8 <=? r) && (r <? 15) && ((13 <=? r) || (ob =? FIQBANK) || (nb =? FIQBANK)).

Lemma load_bank_ok st ob nb :
  bank_shape st -> real_bank nb -> ob <> nb ->
  RegBank (load_bank st ob nb) = RegBank st
  /\ length (Reg (load_bank st ob nb)) = 16%nat
  /\ forall r, 0 <= r ->
       reg (load_bank st ob nb) r
       = if is_loaded ob nb r then regbank st (save_row nb r) r else reg st r.
Proof.
  intros Hs Hnb Hne. pose proof (shape_Reg st Hs) as H16. unfold load_bank.
  rewrite ordinary_or_fiq by done. unfold is_loaded, save_row.
  destruct (Z.eqb_spec nb FIQBANK) as [->|Hf]; cbn [negb].
  - split; [done|]. split; [by cbn [Reg set_Reg]; rewrite length_assign_regs|]. intros r Hr.
    unfold reg. cbn [Reg set_Reg]. rewrite nthZ_assign_regs by lia.
    change (8 + Z.of_nat 7) with 15. rewrite !orb_true_r, !andb_true_r, andb_false_r. done.
  - set (st1 := if ob =? FIQBANK then _ else st).
    assert (H1 : length (Reg st1) = 16%nat /\ RegBank st1 = RegBank st
                 /\ forall r, 0 <= r -> reg st1 r
                    = if (ob =? FIQBANK) && (8 <=? r) && (r <? 13)
                      then regbank st USERBANK r else reg st r).
    { unfold st1. destruct (ob =? FIQBANK); [|done].
      split; [by cbn [Reg set_Reg]; rewrite length_assign_regs|]. split; [done|]. intros r Hr.
      unfold reg. cbn [Reg set_Reg]. by rewrite nthZ_assign_regs by lia. }
    destruct H1 as (L1 & B1 & R1). split; [done|].
    split; [by cbn; rewrite !length_updZ|]. intros r Hr.
    rewrite !reg_set_reg, R1 by (cbn; rewrite ?length_updZ; done || lia).
    unfold regbank, bank_row. cbn [RegBank set_reg set_Reg]. rewrite B1.
    rewrite andb_true_r, orb_false_r.
    destruct (Z.eqb_spec r 14), (Z.eqb_spec r 13), (ob =? FIQBANK), (Z.leb_spec 8 r),
      (Z.leb_spec 13 r), (Z.ltb_spec r 15), (Z.ltb_spec r 13); cbn; subst; try done; lia.
Qed.

(** ** The switch *)

(** The signals and the configuration. *)
Definition cfg (st : ARMul_State) : list Z :=
  [prog32Sig st; mmu_control st; vector_remap_flag st; vector_remap_addr st].

(** What a switch leaves alone. *)
Record same_but_regs (st st' : ARMul_State) : Prop := {
  sb_Cpsr : Cpsr st' = Cpsr st;
  sb_Spsr : Spsr st' = Spsr st;
  sb_N : NFlag st' = NFlag st;
  sb_Z : ZFlag st' = ZFlag st;
  sb_C : CFlag st' = CFlag st;
  sb_V : VFlag st' = VFlag st;
  sb_S : SFlag st' = SFlag st;
  sb_T : TFlag st' = TFlag st;
  sb_IF : IFFlags st' = IFFlags st;
  sb_Mode : Mode st' = Mode st;
  sb_cfg : cfg st' = cfg st
}.

Lemma same_set_bank_row st b row : same_but_regs st (set_bank_row st b row).
Proof. done. Qed.

Lemma SwitchMode_frame st oldmode newmode :
  same_but_regs st (ARMul_SwitchMode st oldmode newmode).2
  /\ Bank (ARMul_SwitchMode st oldmode newmode).2 = ModeToBank newmode.
Proof.
  unfold ARMul_SwitchMode, save_bank, load_bank. cbn [snd].
  repeat case_match; done.
Qed.

(** Where each register is, before and after. *)
Lemma switch_cases x (f : Z -> Z) ob nb b r :
  real_bank ob -> real_bank nb -> real_bank b -> 0 <= r < 16 -> ob <> nb ->
  (if (r <? 8) || (r =? 15)
      || (if r <? 13 then eqb (b =? FIQBANK) (nb =? FIQBANK) else b =? nb)
   then if is_loaded ob nb r
        then if is_saved ob nb (save_row nb r) r then x else f (save_row nb r)
        else x
   else if is_saved ob nb (save_row b r) r then x else f (save_row b r))
  = (if (r <? 8) || (r =? 15)
        || (if r <? 13 then eqb (b =? FIQBANK) (ob =? FIQBANK) else b =? ob)
     then x else f (save_row b r)).
Proof.
  unfold real_bank, DUMMYBANK, is_loaded, is_saved, save_row. intros Ho Hn Hb Hr Hne.
  destruct (Z.ltb_spec r 8), (Z.eqb_spec r 15), (Z.ltb_spec r 13), (Z.leb_spec 8 r),
    (Z.ltb_spec r 15), (Z.leb_spec 13 r); try (exfalso; lia); try done;
    enum_Z ob 0 6; enum_Z nb 0 6; enum_Z b 0 6; try done.
Qed.

(** The file of registers is the same before and after, only the bank that is
    current changes. *)
Lemma SwitchMode_view st newmode :
  bank_shape st -> Bank st = ModeToBank (Mode st) ->
  real_bank (Bank st) -> real_bank (ModeToBank newmode) ->
  let st' := (ARMul_SwitchMode st (Mode st) newmode).2 in
  bank_shape st' /\ forall b r, real_bank b -> 0 <= r < 16 -> arm_view st' b r = arm_view st b r.
Proof.
  intros Hs HB Ho Hn. cbv zeta. unfold ARMul_SwitchMode. cbn [snd].
  rewrite <- HB. generalize dependent (ModeToBank newmode). intros nb Hn.
  destruct (Z.eqb_spec (Bank st) nb) as [<-|Hne].
  { split; [by destruct Hs|done]. }
  set (st0 := set_Bank st nb). assert (Hs0 : bank_shape st0) by (by destruct Hs).
  destruct (save_bank_ok st0 (Bank st) nb Hs0 Ho Hne) as [Hs1 Hsave].
  set (st1 := save_bank st0 (Bank st) nb) in *.
  destruct (load_bank_ok st1 (Bank st) nb Hs1 Hn Hne) as (HR & HL & Hload).
  set (st2 := load_bank st1 (Bank st) nb) in *.
  split; [split; [done|rewrite HR; apply Hs1..]|].
  assert (E1 : forall r, reg st1 r = reg st r)
    by (intros r; unfold st1, save_bank; repeat case_match; done).
  assert (E2 : Bank st2 = nb) by (unfold st2, st1, load_bank, save_bank; by repeat case_match).
  intros b r Hb Hr. unfold arm_view at 1.
  unfold regbank at 1, bank_row at 1. rewrite HR. change (nthZ (nth _ _ _) r) with
    (regbank st1 (save_row b r) r).
  assert (0 <= save_row b r /\ 0 <= save_row nb r)
    by (unfold save_row, real_bank, USERBANK in *; repeat case_match; lia).
  rewrite Hload, E1, !Hsave by lia. change (regbank st0) with (regbank st).
  change (reg st0 r) with (reg st r). unfold arm_view, is_current. rewrite E2.
  by apply (switch_cases (reg st r) (fun c => regbank st c r)).
Qed.

(** ** The specification: one store of physical registers

    The architecture names its registers by the mode: R8_fiq, R13_svc and so on.
    [phys] is that name; the abstract machine has a mode and a store from names to
    values, and a change of mode does not touch the store. *)

Definition phys (b r : Z) : Z * Z :=
  (if (r <? 8) || (r =? 15) then USERBANK else save_row b r, r).

Record arch_regs := { a_mode : Z; a_file : Z * Z -> Z }.

Inductive bank_op : Type :=
| op_read (r : Z)
| op_write (r v : Z)
| op_mode (m : Z).

Definition op_ok (o : bank_op) : Prop :=
  match o with
  | op_read r | op_write r _ => 0 <= r < 16
  | op_mode m => real_bank (ModeToBank m)
  end.

(** One operation: the state behind it and what it reads. *)
Definition arch_step (a : arch_regs) (o : bank_op) : arch_regs * list Z :=
  match o with
  | op_read r => (a, [a_file a (phys (ModeToBank (a_mode a)) r)])
  | op_write r v =>
      ({| a_mode := a_mode a;
          a_file := fun p => if decide (p = phys (ModeToBank (a_mode a)) r) then v
                             else a_file a p |}, [])
  | op_mode m => ({| a_mode := m; a_file := a_file a |}, [])
  end.

(** The same on the simulator's state, as [ARMul_CPSRAltered] changes modes. *)
Definition arm_step (st : ARMul_State) (o : bank_op) : ARMul_State * list Z :=
  match o with
  | op_read r => (st, [reg st r])
  | op_write r v => (set_reg st r v, [])
  | op_mode m => let (m, st) := ARMul_SwitchMode st (Mode st) m in (set_Mode st m, [])
  end.

Fixpoint run_ops {S : Type} (step : S -> bank_op -> S * list Z) (s : S) (ops : list bank_op)
    : S * list Z :=
  match ops with
  | [] => (s, [])
  | o :: ops =>
      let (s, out) := step s o in
      let (s, outs) := run_ops step s ops in (s, out ++ outs)
  end.

(** The simulator's registers hold the abstract store. *)
Record represents (st : ARMul_State) (a : arch_regs) : Prop := {
  rep_shape : bank_shape st;
  rep_mode : a_mode a = Mode st;
  rep_bank : Bank st = ModeToBank (Mode st);
  rep_real : real_bank (Bank st);
  rep_file : forall b r, real_bank b -> 0 <= r < 16 -> arm_view st b r = a_file a (phys b r)
}.

Lemma is_current_phys st b r : is_current st b r = true -> phys b r = phys (Bank st) r.
Proof.
  unfold is_current, phys, save_row. rewrite !orb_true_iff. intros [[-> | ->]|H]; [done| |].
  - by rewrite orb_true_r.
  - destruct (r <? 13); [|apply Z.eqb_eq in H; by subst].
    apply eqb_prop in H. rewrite H. destruct (Bank st =? FIQBANK) eqn:E; [|done].
    apply Z.eqb_eq in H, E. by rewrite H, E.
Qed.

Lemma phys_is_current st b r : phys b r = phys (Bank st) r -> is_current st b r = true.
Proof.
  unfold is_current, phys, save_row. intros [= E]. revert E.
  destruct (r <? 8), (r =? 15); cbn; try done.
  destruct (r <? 13); cbn; intros E; [|by apply Z.eqb_eq].
  apply eqb_true_iff. revert E. unfold FIQBANK, USERBANK.
  destruct (Z.eqb_spec b 1), (Z.eqb_spec (Bank st) 1); cbn; done || lia.
Qed.

Lemma arm_view_current st r : 0 <= r -> arm_view st (Bank st) r = reg st r.
Proof. intros. unfold arm_view. by rewrite phys_is_current. Qed.

Lemma arm_view_set_reg st r v b i :
  length (Reg st) = 16%nat -> 0 <= r < 16 -> 0 <= i < 16 ->
  arm_view (set_reg st r v) b i
  = if decide (phys b i = phys (Bank st) r) then v else arm_view st b i.
Proof.
  intros HL Hr Hi. unfold arm_view.
  change (is_current (set_reg st r v) b i) with (is_current st b i).
  change (regbank (set_reg st r v)) with (regbank st). rewrite reg_set_reg by (done || lia).
  case_decide as E.
  - assert (i = r) as -> by (by injection E). rewrite phys_is_current by done.
    by rewrite Z.eqb_refl.
  - destruct (is_current st b i) eqn:C; [|done]. apply is_current_phys in C.
    destruct (Z.eqb_spec i r) as [->|]; [by destruct E|done].
Qed.

Lemma arm_step_ok st a o :
  represents st a -> op_ok o ->
  (arm_step st o).2 = (arch_step a o).2 /\ represents (arm_step st o).1 (arch_step a o).1.
Proof.
  intros [Hs Hm HB Hr Hf] Ho. destruct o as [r|r v|m]; cbn in Ho.
  - split; [|done]. cbn. rewrite Hm, <- HB, <- Hf by done. by rewrite arm_view_current by lia.
  - split; [done|]. split; cbn; try done.
    + destruct Hs. split; cbn; [by rewrite length_updZ|done..].
    + intros b i Hb Hi. rewrite arm_view_set_reg by (apply Hs || done).
      rewrite Hm, <- HB. case_decide; [done|]. by apply Hf.
  - split; [done|]. destruct (SwitchMode_view st m Hs HB Hr Ho) as [Hs' Hv].
    destruct (SwitchMode_frame st (Mode st) m) as [_ HB']. cbn [arm_step fst arch_step].
    destruct (ARMul_SwitchMode st (Mode st) m) as [m' st'] eqn:E.
    assert (m' = m) as -> by (by injection E). cbn in Hs', Hv, HB' |- *.
    split; cbn; try done; [by destruct Hs'|by rewrite HB'|].
    intros b r Hb Hi. rewrite <- Hf by done. apply Hv; done.
Qed.

(** C30: Whatever registers are read and written and whatever modes are entered, in
    any order, the simulator's current registers with its save areas give what one
    store of the architecture's physical registers gives. *)
Theorem register_banks_refine ops st a :
  represents st a -> Forall op_ok ops ->
  (run_ops arm_step st ops).2 = (run_ops arch_step a ops).2
  /\ represents (run_ops arm_step st ops).1 (run_ops arch_step a ops).1.
Proof.
  intros Hr Hok. revert st a Hr. induction Hok as [|o ops Ho _ IH]; intros st a Hr; cbn; [done|].
  destruct (arm_step_ok st a o Hr Ho) as [Hout Hrep].
  destruct (arm_step st o) as [st' out], (arch_step a o) as [a' out']. cbn in Hout, Hrep.
  destruct (IH st' a' Hrep) as [Houts Hreps].
  destruct (run_ops arm_step st' ops), (run_ops arch_step a' ops). cbn in *. by subst.
Qed.
