(* ===== verification/ThumbProps.v ===== *)
(** * Thumb instructions mean the ARM instructions of the architecture manual

    The syntax of the Thumb instructions that have an ARM equivalent, their 16-bit
    encoding, and the encoding of the equivalent; the decoder of thumbemu.c takes the
    one to the other.  The instructions are few enough to be enumerated. *)

From Stdlib Require Import ZArith Lia Bool.
From stdpp Require Import base numbers option list.
From S2P Require Import Prelude Words ArmState ArmSupp ArmShift ArmExec Thumb ArmLemmas ArmDPProps.

(** ** ARM encodings, condition [AL] *)

(** A data-processing instruction and its three kinds of second operand. *)
Definition enc_dp (opcode s rn rd operand2 : Z) : Z :=
  14 * 2 ^ 28 + opcode * 2 ^ 21 + s * 2 ^ 20 + rn * 2 ^ 16 + rd * 2 ^ 12 + operand2.
Definition op2_imm (rotate imm8 : Z) : Z := 2 ^ 25 + rotate * 2 ^ 8 + imm8.
Definition op2_shift_imm (type imm5 rm : Z) : Z := imm5 * 2 ^ 7 + type * 2 ^ 5 + rm.
Definition op2_shift_reg (type rs rm : Z) : Z := rs * 2 ^ 8 + type * 2 ^ 5 + 2 ^ 4 + rm.

(** Single transfers of words and bytes, pre-indexed upwards without write-back; of
    halfwords and signed bytes; of blocks. *)
Definition enc_ls (byte load rn rd offset : Z) : Z :=
  14 * 2 ^ 28 + 2 ^ 26 + 2 ^ 24 + 2 ^ 23 + byte * 2 ^ 22 + load * 2 ^ 20
  + rn * 2 ^ 16 + rd * 2 ^ 12 + offset.
Definition off_reg (rm : Z) : Z := 2 ^ 25 + rm.
Definition enc_lsh (imm load sh rn rd hi lo : Z) : Z :=
  14 * 2 ^ 28 + 2 ^ 24 + 2 ^ 23 + imm * 2 ^ 22 + load * 2 ^ 20 + rn * 2 ^ 16 + rd * 2 ^ 12
  + hi * 2 ^ 8 + 2 ^ 7 + sh * 2 ^ 5 + 2 ^ 4 + lo.
Definition enc_block (p u w load rn regs : Z) : Z :=
  14 * 2 ^ 28 + 4 * 2 ^ 25 + p * 2 ^ 24 + u * 2 ^ 23 + w * 2 ^ 21 + load * 2 ^ 20
  + rn * 2 ^ 16 + regs.

(** ** Thumb instructions *)

Inductive alu_op : Type :=
| tAND | tEOR | tLSL | tLSR | tASR | tADC | tSBC | tROR | tTST | tNEG | tCMP | tCMN | tORR | tMUL
| tBIC | tMVN.

Inductive lsh_op : Type := tSTRH | tLDSB | tLDRH | tLDSH.

Inductive thumb_instr : Type :=
| T_shift (type imm5 Rs Rd : Z)            (* LSL, LSR, ASR Rd, Rs, #imm5 *)
| T_addsub (imm sub Rn Rs Rd : Z)          (* ADD, SUB Rd, Rs, Rn or #Rn *)
| T_mov_imm (Rd imm8 : Z)
| T_cmp_imm (Rd imm8 : Z)
| T_add_imm (Rd imm8 : Z)
| T_sub_imm (Rd imm8 : Z)
| T_alu (op : alu_op) (Rs Rd : Z)
| T_add_hi (Rs Rd : Z)
| T_cmp_hi (Rs Rd : Z)
| T_mov_hi (Rs Rd : Z)
| T_bx (Rs : Z)
| T_ldr_pc (Rd imm8 : Z)
| T_ls_reg (load byte Ro Rb Rd : Z)
| T_lsh_reg (op : lsh_op) (Ro Rb Rd : Z)
| T_ls_imm (byte load imm5 Rb Rd : Z)
| T_lsh_imm (load imm5 Rb Rd : Z)
| T_ls_sp (load Rd imm8 : Z)
| T_add_pc (Rd imm8 : Z)
| T_add_sp (Rd imm8 : Z)
| T_adjust_sp (sub imm7 : Z)
| T_push (lr regs : Z)
| T_pop (pc regs : Z)
| T_stmia (Rb regs : Z)
| T_ldmia (Rb regs : Z)
| T_swi (imm8 : Z).

Definition alu_code (op : alu_op) : Z :=
  match op with
  | tAND => 0 | tEOR => 1 | tLSL => 2 | tLSR => 3 | tASR => 4 | tADC => 5 | tSBC => 6 | tROR => 7
  | tTST => 8 | tNEG => 9 | tCMP => 10 | tCMN => 11 | tORR => 12 | tMUL => 13 | tBIC => 14
  | tMVN => 15
  end.

Definition lsh_code (op : lsh_op) : Z :=
  match op with tSTRH => 0 | tLDSB => 1 | tLDRH => 2 | tLDSH => 3 end.

(** The 16-bit encodings of the manual. *)
Definition enc_thumb (i : thumb_instr) : Z :=
  match i with
  | T_shift type imm5 Rs Rd => type * 2 ^ 11 + imm5 * 2 ^ 6 + Rs * 2 ^ 3 + Rd
  | T_addsub imm sub Rn Rs Rd =>
      3 * 2 ^ 11 + imm * 2 ^ 10 + sub * 2 ^ 9 + Rn * 2 ^ 6 + Rs * 2 ^ 3 + Rd
  | T_mov_imm Rd imm8 => 4 * 2 ^ 11 + Rd * 2 ^ 8 + imm8
  | T_cmp_imm Rd imm8 => 5 * 2 ^ 11 + Rd * 2 ^ 8 + imm8
  | T_add_imm Rd imm8 => 6 * 2 ^ 11 + Rd * 2 ^ 8 + imm8
  | T_sub_imm Rd imm8 => 7 * 2 ^ 11 + Rd * 2 ^ 8 + imm8
  | T_alu op Rs Rd => 16 * 2 ^ 10 + alu_code op * 2 ^ 6 + Rs * 2 ^ 3 + Rd
  | T_add_hi Rs Rd => 17 * 2 ^ 10 + Rd / 8 * 2 ^ 7 + Rs * 2 ^ 3 + Rd mod 8
  | T_cmp_hi Rs Rd => 17 * 2 ^ 10 + 2 ^ 8 + Rd / 8 * 2 ^ 7 + Rs * 2 ^ 3 + Rd mod 8
  | T_mov_hi Rs Rd => 17 * 2 ^ 10 + 2 * 2 ^ 8 + Rd / 8 * 2 ^ 7 + Rs * 2 ^ 3 + Rd mod 8
  | T_bx Rs => 17 * 2 ^ 10 + 3 * 2 ^ 8 + Rs * 2 ^ 3
  | T_ldr_pc Rd imm8 => 9 * 2 ^ 11 + Rd * 2 ^ 8 + imm8
  | T_ls_reg load byte Ro Rb Rd =>
      5 * 2 ^ 12 + load * 2 ^ 11 + byte * 2 ^ 10 + Ro * 2 ^ 6 + Rb * 2 ^ 3 + Rd
  | T_lsh_reg op Ro Rb Rd =>
      5 * 2 ^ 12 + lsh_code op * 2 ^ 10 + 2 ^ 9 + Ro * 2 ^ 6 + Rb * 2 ^ 3 + Rd
  | T_ls_imm byte load imm5 Rb Rd =>
      3 * 2 ^ 13 + byte * 2 ^ 12 + load * 2 ^ 11 + imm5 * 2 ^ 6 + Rb * 2 ^ 3 + Rd
  | T_lsh_imm load imm5 Rb Rd => 8 * 2 ^ 12 + load * 2 ^ 11 + imm5 * 2 ^ 6 + Rb * 2 ^ 3 + Rd
  | T_ls_sp load Rd imm8 => 9 * 2 ^ 12 + load * 2 ^ 11 + Rd * 2 ^ 8 + imm8
  | T_add_pc Rd imm8 => 10 * 2 ^ 12 + Rd * 2 ^ 8 + imm8
  | T_add_sp Rd imm8 => 10 * 2 ^ 12 + 2 ^ 11 + Rd * 2 ^ 8 + imm8
  | T_adjust_sp sub imm7 => 11 * 2 ^ 12 + sub * 2 ^ 7 + imm7
  | T_push lr regs => 11 * 2 ^ 12 + 2 * 2 ^ 9 + lr * 2 ^ 8 + regs
  | T_pop pc regs => 11 * 2 ^ 12 + 2 ^ 11 + 2 * 2 ^ 9 + pc * 2 ^ 8 + regs
  | T_stmia Rb regs => 12 * 2 ^ 12 + Rb * 2 ^ 8 + regs
  | T_ldmia Rb regs => 12 * 2 ^ 12 + 2 ^ 11 + Rb * 2 ^ 8 + regs
  | T_swi imm8 => 13 * 2 ^ 12 + 15 * 2 ^ 8 + imm8
  end.

(** ** The ARM equivalents

    The field of [Rn] is not used by MOV and MVN, nor the one of [Rd] by the
    comparisons; it repeats the other register. *)
Definition alu_arm (op : alu_op) (Rs Rd : Z) : Z :=
  match op with
  | tAND => enc_dp 0 1 Rd Rd Rs
  | tEOR => enc_dp 1 1 Rd Rd Rs
  | tLSL => enc_dp 13 1 0 Rd (op2_shift_reg LSL Rs Rd)
  | tLSR => enc_dp 13 1 0 Rd (op2_shift_reg LSR Rs Rd)
  | tASR => enc_dp 13 1 0 Rd (op2_shift_reg ASR Rs Rd)
  | tADC => enc_dp 5 1 Rd Rd Rs
  | tSBC => enc_dp 6 1 Rd Rd Rs
  | tROR => enc_dp 13 1 0 Rd (op2_shift_reg ROR Rs Rd)
  | tTST => enc_dp 8 1 Rd Rd Rs
  | tNEG => enc_dp 3 1 Rs Rd (op2_imm 0 0)
  | tCMP => enc_dp 10 1 Rd Rd Rs
  | tCMN => enc_dp 11 1 Rd Rd Rs
  | tORR => enc_dp 12 1 Rd Rd Rs
  | tMUL => 14 * 2 ^ 28 + 2 ^ 20 + Rd * 2 ^ 16 + Rd * 2 ^ 8 + 9 * 2 ^ 4 + Rs
  | tBIC => enc_dp 14 1 Rd Rd Rs
  | tMVN => enc_dp 15 1 Rd Rd Rs
  end.

Definition arm_of (i : thumb_instr) : Z :=
  match i with
  | T_shift type imm5 Rs Rd => enc_dp 13 1 0 Rd (op2_shift_imm type imm5 Rs)
  | T_addsub imm sub Rn Rs Rd =>
      enc_dp (if sub =? 1 then 2 else 4) 1 Rs Rd (if imm =? 1 then op2_imm 0 Rn else Rn)
  | T_mov_imm Rd imm8 => enc_dp 13 1 Rd Rd (op2_imm 0 imm8)
  | T_cmp_imm Rd imm8 => enc_dp 10 1 Rd Rd (op2_imm 0 imm8)
  | T_add_imm Rd imm8 => enc_dp 4 1 Rd Rd (op2_imm 0 imm8)
  | T_sub_imm Rd imm8 => enc_dp 2 1 Rd Rd (op2_imm 0 imm8)
  | T_alu op Rs Rd => alu_arm op Rs Rd
  | T_add_hi Rs Rd => enc_dp 4 0 Rd Rd Rs
  | T_cmp_hi Rs Rd => enc_dp 10 1 Rd Rd Rs
  | T_mov_hi Rs Rd => enc_dp 13 0 Rd Rd Rs
  | T_bx Rs => 14 * 2 ^ 28 + 0x12FFF1 * 2 ^ 4 + Rs
  | T_ldr_pc Rd imm8 => enc_ls 0 1 15 Rd (imm8 * 4)
  | T_ls_reg load byte Ro Rb Rd => enc_ls byte load Rb Rd (off_reg Ro)
  | T_lsh_reg op Ro Rb Rd =>
      match op with
      | tSTRH => enc_lsh 0 0 1 Rb Rd 0 Ro
      | tLDSB => enc_lsh 0 1 2 Rb Rd 0 Ro
      | tLDRH => enc_lsh 0 1 1 Rb Rd 0 Ro
      | tLDSH => enc_lsh 0 1 3 Rb Rd 0 Ro
      end
  | T_ls_imm byte load imm5 Rb Rd =>
      enc_ls byte load Rb Rd (if byte =? 1 then imm5 else imm5 * 4)
  | T_lsh_imm load imm5 Rb Rd => enc_lsh 1 load 1 Rb Rd (imm5 / 8) (imm5 mod 8 * 2)
  | T_ls_sp load Rd imm8 => enc_ls 0 load 13 Rd (imm8 * 4)
  | T_add_pc Rd imm8 => enc_dp 4 0 15 Rd (op2_imm 15 imm8)
  | T_add_sp Rd imm8 => enc_dp 4 0 13 Rd (op2_imm 15 imm8)
  | T_adjust_sp sub imm7 => enc_dp (if sub =? 1 then 2 else 4) 0 13 13 (op2_imm 15 imm7)
  | T_push lr regs => enc_block 1 0 1 0 13 (lr * 2 ^ 14 + regs)
  | T_pop pc regs => enc_block 0 1 1 1 13 (pc * 2 ^ 15 + regs)
  | T_stmia Rb regs => enc_block 0 1 1 0 Rb regs
  | T_ldmia Rb regs => enc_block 0 1 1 1 Rb regs
  | T_swi imm8 => 15 * 2 ^ 28 - 2 ^ 28 + 15 * 2 ^ 24 + imm8
  end.

(** ** Enumeration *)

Definition below (n : Z) (p : Z -> bool) : bool := forallb p (seqZ 0 n).

Lemma below_spec n p x : below n p = true -> 0 <= x < n -> p x = true.
Proof.
  unfold below. rewrite forallb_forall. intros H Hx. apply H.
  apply list_elem_of_In, elem_of_seqZ. lia.
Qed.

(** One field of an enumeration after the other. *)
Ltac field H v := apply (below_spec _ _ v) in H; [|lia]; cbv beta in H.
Ltac in_list H i := rewrite forallb_forall in H; apply (H i); cbn; tauto.

(** The fields within their width, and a high register where there has to be one; the
    SWI numbers the simulator keeps for itself are left out. *)
Definition hi_regs (Rs Rd : Z) : Prop := 0 <= Rs < 16 /\ 0 <= Rd < 16 /\ (8 <= Rs \/ 8 <= Rd).

Definition valid (i : thumb_instr) : Prop :=
  match i with
  | T_shift type imm5 Rs Rd => 0 <= type < 3 /\ 0 <= imm5 < 32 /\ 0 <= Rs < 8 /\ 0 <= Rd < 8
  | T_addsub imm sub Rn Rs Rd =>
      0 <= imm < 2 /\ 0 <= sub < 2 /\ 0 <= Rn < 8 /\ 0 <= Rs < 8 /\ 0 <= Rd < 8
  | T_mov_imm Rd imm8 | T_cmp_imm Rd imm8 | T_add_imm Rd imm8 | T_sub_imm Rd imm8
  | T_ldr_pc Rd imm8 | T_add_pc Rd imm8 | T_add_sp Rd imm8 | T_stmia Rd imm8 | T_ldmia Rd imm8 =>
      0 <= Rd < 8 /\ 0 <= imm8 < 256
  | T_alu _ Rs Rd => 0 <= Rs < 8 /\ 0 <= Rd < 8
  | T_add_hi Rs Rd | T_cmp_hi Rs Rd | T_mov_hi Rs Rd => hi_regs Rs Rd
  | T_bx Rs => 0 <= Rs < 16
  | T_ls_reg load byte Ro Rb Rd =>
      0 <= load < 2 /\ 0 <= byte < 2 /\ 0 <= Ro < 8 /\ 0 <= Rb < 8 /\ 0 <= Rd < 8
  | T_lsh_reg _ Ro Rb Rd => 0 <= Ro < 8 /\ 0 <= Rb < 8 /\ 0 <= Rd < 8
  | T_ls_imm byte load imm5 Rb Rd =>
      0 <= byte < 2 /\ 0 <= load < 2 /\ 0 <= imm5 < 32 /\ 0 <= Rb < 8 /\ 0 <= Rd < 8
  | T_lsh_imm load imm5 Rb Rd => 0 <= load < 2 /\ 0 <= imm5 < 32 /\ 0 <= Rb < 8 /\ 0 <= Rd < 8
  | T_ls_sp load Rd imm8 => 0 <= load < 2 /\ 0 <= Rd < 8 /\ 0 <= imm8 < 256
  | T_adjust_sp sub imm7 => 0 <= sub < 2 /\ 0 <= imm7 < 128
  | T_push b regs | T_pop b regs => 0 <= b < 2 /\ 0 <= regs < 256
  | T_swi imm8 => 0 <= imm8 < 256 /\ imm8 <> 0x18 /\ imm8 <> 0xFE
  end.

Section decode.
Context (st : ARMul_State) (pc next : Z).

(** The decoder takes the encoding to the equivalent. *)
Definition decodes (i : thumb_instr) : bool :=
  match thumb_decode st pc (enc_thumb i) next with
  | (t_decoded, a, _) => a =? arm_of i
  | _ => false
  end.

Lemma decodes_spec i :
  decodes i = true -> thumb_decode st pc (enc_thumb i) next = (t_decoded, arm_of i, st).
Proof.
  unfold decodes. destruct (thumb_decode _ _ _ _) as [[d a] st'] eqn:E.
  destruct d; try discriminate. intros Ha. apply Z.eqb_eq in Ha. subst a. f_equal.
  revert E. unfold thumb_decode.
  repeat match goal with
  | |- context [if ?b then _ else _] => destruct b
  | |- context [match thumb_hireg ?v ?t with _ => _ end] => destruct (thumb_hireg v t)
  end; congruence.
Qed.
(** The enumeration, a format at a time; only SWI looks at the state. *)

Lemma shift_all :
  below 3 (fun ty => below 32 (fun k => below 8 (fun a => below 8 (fun b =>
    decodes (T_shift ty k a b))))) = true.
Proof. by vm_compute. Qed.

Lemma addsub_all :
  below 2 (fun k => below 2 (fun s => below 8 (fun n => below 8 (fun a => below 8 (fun b =>
    decodes (T_addsub k s n a b)))))) = true.
Proof. by vm_compute. Qed.

(** The formats with a register and a byte. *)
Lemma reg8_all :
  below 8 (fun a => below 256 (fun k =>
    forallb decodes [T_mov_imm a k; T_cmp_imm a k; T_add_imm a k; T_sub_imm a k; T_ldr_pc a k;
      T_add_pc a k; T_add_sp a k; T_stmia a k; T_ldmia a k; T_ls_sp 0 a k; T_ls_sp 1 a k])) = true.
Proof. by vm_compute. Qed.

Lemma alu_all op : below 8 (fun a => below 8 (fun b => decodes (T_alu op a b))) = true.
Proof. destruct op; by vm_compute. Qed.

Lemma hi_all :
  below 16 (fun a => below 16 (fun b =>
    (a <? 8) && (b <? 8)
    || forallb decodes [T_add_hi a b; T_cmp_hi a b; T_mov_hi a b])) = true.
Proof. by vm_compute. Qed.

Lemma bx_all : below 16 (fun a => decodes (T_bx a)) = true.
Proof. by vm_compute. Qed.

Lemma ls_reg_all :
  below 2 (fun l => below 2 (fun y => below 8 (fun o => below 8 (fun a => below 8 (fun b =>
    decodes (T_ls_reg l y o a b)))))) = true.
Proof. by vm_compute. Qed.

Lemma lsh_reg_all op :
  below 8 (fun o => below 8 (fun a => below 8 (fun b => decodes (T_lsh_reg op o a b)))) = true.
Proof. destruct op; by vm_compute. Qed.

Lemma ls_imm_all :
  below 2 (fun y => below 2 (fun l => below 32 (fun k => below 8 (fun a => below 8 (fun b =>
    decodes (T_ls_imm y l k a b)))))) = true.
Proof. by vm_compute. Qed.

Lemma lsh_imm_all :
  below 2 (fun l => below 32 (fun k => below 8 (fun a => below 8 (fun b =>
    decodes (T_lsh_imm l k a b))))) = true.
Proof. by vm_compute. Qed.

Lemma adjust_sp_all : below 2 (fun s => below 128 (fun k => decodes (T_adjust_sp s k))) = true.
Proof. by vm_compute. Qed.

Lemma stack_all :
  below 2 (fun s => below 256 (fun k => forallb decodes [T_push s k; T_pop s k])) = true.
Proof. by vm_compute. Qed.

Lemma swi_decode t :
  (t .& 0xF800) .>> 11 = 27 -> t .& 0x0F00 = 0x0F00 -> AbortAddr st <> pc ->
  thumb_decode st pc t next = (t_decoded, thumb_swi t, st).
Proof.
  intros Ho Hf Ha. apply Z.eqb_neq in Ha. unfold thumb_decode.
  by rewrite Ho, Hf, Ha, andb_false_r.
Qed.

Lemma swi_all :
  below 256 (fun k =>
    let t := enc_thumb (T_swi k) in
    (k =? 0x18) || (k =? 0xFE)
    || ((t .& 0xF800) .>> 11 =? 27) && (t .& 0x0F00 =? 0x0F00)
       && (thumb_swi t =? arm_of (T_swi k))) = true.
Proof. by vm_compute. Qed.

Lemma decodes_valid i : AbortAddr st <> pc -> valid i -> decodes i = true.
Proof.
  intros Ha Hv.
  destruct i as [ty k a b|m s n a b|a k|a k|a k|a k|op a b|a b|a b|a b|a|a k|l y o a b|op o a b
                |y l k a b|l k a b|l a k|a k|a k|s k|s k|s k|a k|a k|k]; cbn in Hv;
    unfold hi_regs in Hv.
  all: try (pose proof reg8_all as H; field H a; field H k;
            match goal with |- decodes ?i = true => in_list H i end).
  all: try (pose proof hi_all as H; field H a; field H b; apply orb_true_iff in H as [H|H];
            [rewrite andb_true_iff, !Z.ltb_lt in H; lia|];
            match goal with |- decodes ?i = true => in_list H i end).
  all: try (pose proof stack_all as H; field H s; field H k;
            match goal with |- decodes ?i = true => in_list H i end).
  - pose proof shift_all as H. field H ty. field H k. field H a. by field H b.
  - pose proof addsub_all as H. field H m. field H s. field H n. field H a. by field H b.
  - pose proof (alu_all op) as H. field H a. by field H b.
  - pose proof bx_all as H. by field H a.
  - pose proof ls_reg_all as H. field H l. field H y. field H o. field H a. by field H b.
  - pose proof (lsh_reg_all op) as H. field H o. field H a. by field H b.
  - pose proof ls_imm_all as H. field H y. field H l. field H k. field H a. by field H b.
  - pose proof lsh_imm_all as H. field H l. field H k. field H a. by field H b.
  - assert (Hl : l = 0 \/ l = 1) by lia. pose proof reg8_all as H. field H a. field H k.
    destruct Hl as [-> | ->]; match goal with |- decodes ?i = true => in_list H i end.
  - pose proof adjust_sp_all as H. field H s. by field H k.
  - pose proof swi_all as H. field H k. cbv zeta in H.
    rewrite !orb_true_iff, !andb_true_iff, !Z.eqb_eq in H.
    unfold decodes. rewrite swi_decode by tauto. apply Z.eqb_eq. tauto.
Qed.
End decode.


(** ** A comparison and a branch *)

(** The flags CMP sets, and what each condition says of the operands. *)
Definition cmp_state (st : ARMul_State) (a b : Z) : ARMul_State :=
  let dest := u32 (a - b) in sub_flags (ARMul_NegZero st dest) a b dest.

Definition cond_relation (cc a b : Z) : bool :=
  if cc =? cond_EQ then a =? b
  else if cc =? cond_NE then negb (a =? b)
  else if cc =? cond_CS then b <=? a
  else if cc =? cond_CC then a <? b
  else if cc =? cond_HI then b <? a
  else if cc =? cond_LS then a <=? b
  else if cc =? cond_GE then s32 b <=? s32 a
  else if cc =? cond_LT then s32 a <? s32 b
  else if cc =? cond_GT then s32 b <? s32 a
  else s32 a <=? s32 b.

(** EQ, NE, CS, CC, HI, LS, GE, LT, GT and LE. *)
Definition relational (cc : Z) : bool :=
  (cc =? cond_EQ) || (cc =? cond_NE) || (cc =? cond_CS) || (cc =? cond_CC)
  || ((cond_HI <=? cc) && (cc <=? cond_LE)).

Lemma cmp_flags st a b :
  is_u32 a -> is_u32 b ->
  let st' := cmp_state st a b in
  let d := if b <=? a then a - b else a - b + 4294967296 in
  c_true (NFlag st') = (2147483648 <=? d) /\ c_true (ZFlag st') = (a =? b)
  /\ c_true (CFlag st') = (b <=? a) /\ c_true (VFlag st') = negb (s32 d =? s32 a - s32 b).
Proof.
  intros Ha Hb. cbv zeta. set (d := if b <=? a then _ else _).
  assert (Hd : is_u32 d) by (unfold d, is_u32 in *; case_tests; lia).
  assert (Ed : u32 (a - b) = d).
  { rewrite u32_borrow by (unfold is_u32 in *; lia). unfold d.
    destruct (Z.leb_spec 0 (a - b)), (Z.leb_spec b a); lia. }
  assert (Es : s32 (u32 (Z.lnot b)) = -1 - s32 b).
  { rewrite not32, !s32_word by (done || (unfold is_u32 in *; lia)).
    unfold is_u32 in *. case_tests; lia. }
  assert (E : AddWithCarry a (u32 (Z.lnot b)) (1 - 0)
              = (d, b <=? a, negb (s32 d =? s32 a - s32 b))).
  { unfold AddWithCarry. rewrite Es, (not32 b) by done. rewrite <- Ed.
    replace (a + (4294967295 - b) + (1 - 0)) with (a - b + 1 * 4294967296) by lia.
    replace (s32 a + (-1 - s32 b) + (1 - 0)) with (s32 a - s32 b) by lia.
    assert (u32 (a - b + 1 * 4294967296) = u32 (a - b)) as -> by (unfold u32; apply Z.mod_add; lia).
    do 2 f_equal. rewrite Ed. unfold d, is_u32 in *. destruct (Z.leb_spec b a); bool_lia. }
  unfold cmp_state. rewrite Ed.
  rewrite (sub_flags_eq _ _ _ 0 _ _ _ Ha Hb ltac:(by left) E). cbn [CFlag VFlag NFlag ZFlag set_VFlag set_CFlag].
  rewrite !c_true_b2z. unfold ARMul_NegZero. rewrite NEG_spec by done.
  assert ((d =? 0) = (a =? b)) as Ez.
  { unfold d, is_u32 in *. destruct (Z.eqb_spec a b), (Z.leb_spec b a); bool_lia. }
  rewrite Ez.
  destruct (2147483648 <=? d) eqn:EN, (a =? b) eqn:EZ; try done.
  apply Z.eqb_eq in Ez. apply Z.leb_le in EN. lia.
Qed.

(** N and V differ when the left operand is the smaller one, as signed numbers. *)
Lemma thumb_signed_less a b :
  is_u32 a -> is_u32 b ->
  let d := if b <=? a then a - b else a - b + 4294967296 in
  xorb (2147483648 <=? d) (negb (s32 d =? s32 a - s32 b)) = (s32 a <? s32 b).
Proof.
  intros Ha Hb. cbv zeta.
  assert (Hd : is_u32 (if b <=? a then a - b else a - b + 4294967296))
    by (unfold is_u32 in *; case_tests; lia).
  rewrite !s32_word by done. unfold is_u32 in *.
  destruct (Z.leb_spec b a), (Z.leb_spec 2147483648 a), (Z.leb_spec 2147483648 b);
    match goal with |- xorb (?k <=? ?d) _ = _ => destruct (Z.leb_spec k d) end; try lia;
    match goal with |- xorb _ (negb (?x =? ?y)) = (?u <? ?v) =>
      destruct (Z.eqb_spec x y), (Z.ltb_spec u v) end; cbn; try done; lia.
Qed.

Lemma s32_eq a b : is_u32 a -> is_u32 b -> (s32 a =? s32 b) = (a =? b).
Proof.
  intros Ha Hb. rewrite !s32_word by done. unfold is_u32 in *.
  case_tests; destruct (Z.eqb_spec a b); bool_lia.
Qed.

Lemma relations_of_order x y :
  (y <=? x) = negb (x <? y) /\ (x <=? y) = (x <? y) || (x =? y)
  /\ (y <? x) = negb (x <? y) && negb (x =? y).
Proof.
  destruct (Z.leb_spec y x), (Z.leb_spec x y), (Z.ltb_spec x y), (Z.ltb_spec y x),
    (Z.eqb_spec x y); cbn; try done; lia.
Qed.

Lemma cmp_condition st a b cc :
  is_u32 a -> is_u32 b -> relational cc = true ->
  thumb_cond (cmp_state st a b) cc = cond_relation cc a b
  /\ cc_true (cmp_state st a b) cc = cond_relation cc a b.
Proof.
  intros Ha Hb Hc. destruct (cmp_flags st a b Ha Hb) as (HN & HZ & HC & HV).
  assert (Hcc : In cc [0; 1; 2; 3; 8; 9; 10; 11; 12; 13]).
  { unfold relational, cond_EQ, cond_NE, cond_CS, cond_CC, cond_HI, cond_LE in Hc.
    rewrite !orb_true_iff, !andb_true_iff, !Z.eqb_eq, !Z.leb_le in Hc. cbn. lia. }
  pose proof (thumb_signed_less a b Ha Hb) as L. cbv zeta in L, HN, HZ, HC, HV.
  set (d := if b <=? a then _ else _) in *. clearbody d.
  destruct (relations_of_order (s32 a) (s32 b)) as (S1 & S2 & S3).
  destruct (relations_of_order a b) as (U1 & U2 & U3).
  unfold thumb_cond, cc_true, cond_relation.
  rewrite HN, HZ, HC, HV, S1, S2, S3, U1, U2, U3, s32_eq, <- L by done.
  generalize (2147483648 <=? d) (negb (s32 d =? s32 a - s32 b)) (a <? b) (a =? b).
  intros n v lt eq.
  repeat destruct Hcc as [<-|Hcc]; try contradiction; by destruct n, v, lt, eq.
Qed.

(** The fields of the equivalent of CMP between low registers. *)
Lemma cmp_fields :
  below 8 (fun Rs => below 8 (fun Rd =>
    let w := arm_of (T_alu tCMP Rs Rd) in
    (Z.shiftr w 28 =? 14) && (BITS w 20 27 =? 0x15) && BIT w 20 && (BITS w 4 7 =? 0)
    && (BITS w 4 11 =? 0) && (LHSReg w =? Rd) && (DESTReg w =? Rd) && (RHSReg w =? Rs))) = true.
Proof. by vm_compute. Qed.

(** The comparison, through the ARM switch. *)
Lemma cmp_low st Rs Rd pc :
  0 <= Rs < 8 -> 0 <= Rd < 8 ->
  arm_execute st (arm_of (T_alu tCMP Rs Rd)) pc
  = Some (Val (cmp_state st (reg st Rd) (reg st Rs))).
Proof.
  intros Hs Hd. pose proof cmp_fields as F. field F Rs. field F Rd. cbv zeta in F.
  generalize dependent (arm_of (T_alu tCMP Rs Rd)). intros w F.
  rewrite !andb_true_iff, !Z.eqb_eq in F.
  destruct F as (((((((Fc & Fk) & Fs) & F47) & F411) & FL) & FD) & FR).
  unfold arm_execute. rewrite Fc. change (14 =? cond_NV) with false.
  change (cc_true st 14) with true. cbv iota. unfold mainswitch, xscale_double.
  rewrite Fk, Fs, andb_false_r. cbn [negb andb].
  change (dp_switch 21 st w pc) with (case_15 st w). unfold case_15, is_ldrh_imm.
  rewrite F47. unfold dp_cmp, DPRegRHS, LHS. rewrite F411, FL, FD, FR.
  by rewrite (proj2 (Z.eqb_neq Rd 15)) by lia.
Qed.

(** The conditional branch: a condition and a signed byte, in halfwords. *)
Definition enc_bcc (cc off8 : Z) : Z := 13 * 2 ^ 12 + cc * 2 ^ 8 + off8.
Definition sext (n x : Z) : Z := if x <? 2 ^ (n - 1) then x else x - 2 ^ n.

Lemma bcc_fields :
  below 14 (fun cc => below 256 (fun k =>
    let t := enc_bcc cc k in
    ((t .& 0xF800) .>> 11 <=? 27) && (26 <=? (t .& 0xF800) .>> 11)
    && negb (t .& 0x0F00 =? 0x0F00) && negb (t .& 0x0F00 =? 0x0E00)
    && ((t .& 0x0F00) .>> 8 =? cc)
    && (u32 (((t .& 0x7F) .<< 1) .| (if Z.testbit t 7 then 0xFFFFFF00 else 0))
        =? u32 (2 * sext 8 k)))) = true.
Proof. by vm_compute. Qed.

Lemma bcc_decode st pc next cc k :
  0 <= cc < 14 -> 0 <= k < 256 ->
  exists new,
    thumb_decode st pc (enc_bcc cc k) next
    = (t_branch, new,
       if thumb_cond st cc then FLUSHPIPE (set_reg st 15 (u32 (pc + 4 + 2 * sext 8 k))) else st).
Proof.
  intros Hc Hk. pose proof bcc_fields as F. field F cc. field F k. cbv zeta in F.
  generalize dependent (enc_bcc cc k). intros t F.
  rewrite !andb_true_iff, !negb_true_iff, !Z.eqb_eq, !Z.leb_le in F.
  destruct F as (((((F1 & F2) & F3) & F4) & F5) & F6).
  unfold thumb_decode, thumb_bcc. generalize dependent ((t .& 0xF800) .>> 11). intros op F1 F2.
  rewrite F3, F4, F5, (proj2 (Z.leb_le op 27) F1).
  assert (T : forall v, v < 26 -> (op <=? v) = false /\ (op =? v) = false)
    by (intros; rewrite Z.leb_gt, Z.eqb_neq; lia).
  repeat match goal with
  | |- context [op <=? ?v] => rewrite (proj1 (T v ltac:(lia)))
  | |- context [op =? ?v] => rewrite (proj2 (T v ltac:(lia)))
  end. eexists. f_equal. destruct (thumb_cond st cc); [|done].
  rewrite <- u32_add_r, F6, u32_add_r. done.
Qed.

Lemma cmp_state_frame st a b :
  Reg (cmp_state st a b) = Reg st /\ TFlag (cmp_state st a b) = TFlag st
  /\ bigendSig (cmp_state st a b) = bigendSig st.
Proof. unfold cmp_state, sub_flags, ARMul_NegZero. repeat case_match; done. Qed.

(** A Thumb comparison followed by a conditional branch goes to the target of the
    branch if and only if the relation the condition names holds of the two registers,
    as unsigned or as signed numbers; otherwise it falls through, and no register but
    the program counter changes. *)
Theorem thumb_compare_branch st Rs Rd cc k w1 w2 pc1 pc2 :
  arm_wf st -> TFlag st = 1 -> AbortAddr st <> pc1 ->
  0 <= Rs < 8 -> 0 <= Rd < 8 -> relational cc = true -> 0 <= k < 256 ->
  (thumb_halves (bigendSig st) w1).1 = enc_thumb (T_alu tCMP Rs Rd) ->
  (thumb_halves (bigendSig st) w2).1 = enc_bcc cc k ->
  exists st1 st2,
    execute st w1 pc1 = Some (Val st1) /\ execute st1 w2 pc2 = Some (Val st2)
    /\ reg st2 15 = (if cond_relation cc (reg st Rd) (reg st Rs)
                     then u32 (pc2 + 4 + 2 * sext 8 k) else reg st 15)
    /\ forall r, 0 <= r < 15 -> reg st2 r = reg st r.
Proof.
  intros Hw HT Ha Hs Hd Hc Hk H1 H2. set (a := reg st Rd). set (b := reg st Rs).
  destruct (cmp_state_frame st a b) as (FR & FT & FB).
  assert (Hcc : 0 <= cc < 14).
  { unfold relational, cond_EQ, cond_NE, cond_CS, cond_CC, cond_HI, cond_LE in Hc.
    rewrite !orb_true_iff, !andb_true_iff, !Z.eqb_eq, !Z.leb_le in Hc. lia. }
  destruct (cmp_condition st a b cc (reg_u32 st Rd Hw) (reg_u32 st Rs Hw) Hc) as [HC _].
  set (st1 := cmp_state st a b) in *.
  set (st2 := if cond_relation cc a b
              then FLUSHPIPE (set_reg st1 15 (u32 (pc2 + 4 + 2 * sext 8 k))) else st1).
  exists st1, st2. split; [|split].
  - unfold execute, ARMul_ThumbDecode. rewrite HT. destruct (thumb_halves _ w1) as [t next].
    cbn [fst] in H1. subst t. rewrite decodes_spec by (apply decodes_valid; done). by apply cmp_low.
  - unfold execute, ARMul_ThumbDecode. rewrite FT, HT, FB. destruct (thumb_halves _ w2) as [t next].
    cbn [fst] in H2. subst t. destruct (bcc_decode st1 pc2 next cc k Hcc Hk) as [new ->].
    by rewrite HC.
  - assert (H16 : length (Reg st1) = 16%nat) by (rewrite FR; apply Hw).
    assert (E : forall r, 0 <= r -> reg st2 r
                = if (r =? 15) && cond_relation cc a b then u32 (pc2 + 4 + 2 * sext 8 k)
                  else reg st r).
    { intros r Hr. assert (Er : reg st1 r = reg st r) by (unfold reg; by rewrite FR).
      unfold st2. destruct (cond_relation cc a b); [|by rewrite andb_false_r].
      change (reg (FLUSHPIPE ?s)) with (reg s). rewrite reg_set_reg, Er by (done || lia).
      by rewrite andb_true_r. }
    split; [by rewrite E|]. intros r Hr. rewrite E, (proj2 (Z.eqb_neq r 15)) by lia. done.
Qed.

(** ** Long branch with link *)

Definition enc_bl1 (hi : Z) : Z := 30 * 2 ^ 11 + hi.
Definition enc_bl2 (lo : Z) : Z := 31 * 2 ^ 11 + lo.

Lemma bl_fields :
  below 2048 (fun h =>
    let t := enc_bl1 h in
    let t' := enc_bl2 h in
    ((t .& 0xF800) .>> 11 =? 30) && ((t' .& 0xF800) .>> 11 =? 31)
    && (u32 (((t .& 0x07FF) .<< 12) .| (if Z.testbit t 10 then 0xFF800000 else 0))
        =? u32 (4096 * sext 11 h))
    && ((t' .& 0x07FF) .<< 1 =? 2 * h)) = true.
Proof. by vm_compute. Qed.

(** The two halves of a Thumb BL, fetched together, call the subroutine: the
    program counter becomes the address of the instruction plus 4 plus the signed
    22-bit offset in halfwords, the link register the address of the instruction after
    the pair with bit 0 set, and the other registers keep their values. *)
Theorem thumb_bl_pair st tinstr pc hi lo :
  arm_wf st -> TFlag st = 1 -> reg st 15 = u32 (pc + 4) ->
  0 <= hi < 2048 -> 0 <= lo < 2048 ->
  thumb_halves (bigendSig st) tinstr = (enc_bl1 hi, enc_bl2 lo) ->
  exists st',
    execute st tinstr pc = Some (Val st')
    /\ reg st' 15 = u32 (pc + 4 + 2 * sext 22 (hi * 2 ^ 11 + lo))
    /\ reg st' 14 = Z.lor (u32 (pc + 4)) 1
    /\ forall r, 0 <= r < 14 -> reg st' r = reg st r.
Proof.
  intros Hw HT Hpc Hh Hl Ht.
  pose proof bl_fields as F. field F hi. pose proof bl_fields as G. field G lo. cbv zeta in F, G.
  rewrite !andb_true_iff, !Z.eqb_eq in F, G.
  destruct F as (((F1 & _) & F3) & _), G as (((_ & G2) & _) & G4).
  unfold execute, ARMul_ThumbDecode. rewrite HT, Ht.
  assert (D : thumb_decode st pc (enc_bl1 hi) (enc_bl2 lo)
              = (t_branch, 0xDEADC0DE, thumb_bl1 st pc (enc_bl1 hi) (enc_bl2 lo)))
    by (unfold thumb_decode; by rewrite F1).
  rewrite D. unfold thumb_bl1. rewrite G2, Z.eqb_refl. unfold thumb_bl2. rewrite G4.
  eexists. split; [reflexivity|]. change (reg (FLUSHPIPE ?s)) with (reg s).
  assert (H16 : length (Reg st) = 16%nat) by apply Hw.
  split; [|split].
  - rewrite !reg_set_reg by (cbn; rewrite ?length_updZ; done || lia). cbn [Z.eqb Pos.eqb].
    rewrite Hpc, (u32_add_l (pc + 4)), <- (u32_add_r (pc + 4)), F3, u32_add_r, u32_add_l.
    f_equal.
    unfold sext. change (2 ^ 22) with 4194304. change (2 ^ (22 - 1)) with 2097152.
    change (2 ^ (11 - 1)) with 1024. change (2 ^ 11) with 2048.
    destruct (Z.ltb_spec hi 1024), (Z.ltb_spec (hi * 2048 + lo) 2097152); lia.
  - rewrite reg_set_reg by (cbn; rewrite ?length_updZ; done || lia). cbn [Z.eqb Pos.eqb].
    f_equal. rewrite u32_add_l. f_equal. lia.
  - intros r Hr. rewrite !reg_set_reg by (cbn; rewrite ?length_updZ; done || lia).
    by rewrite (proj2 (Z.eqb_neq r 14)), (proj2 (Z.eqb_neq r 15)) by lia.
Qed.
