(* ===== verification/ArmTyped.v ===== *)
(** * Every ARM and Thumb instruction keeps the state well typed

    The arrays keep their lengths, the words stay 32-bit, the flags 0 or 1, and the
    current bank is the one of the current mode. *)

From Stdlib Require Import ZArith Lia Bool.
From stdpp Require Import base numbers option list.
From S2P Require Import Prelude Words ArmState ArmSupp ArmShift ArmExec Thumb ArmLemmas ArmBanks.

Create HintDb typed.

(** All but the link between the bank and the mode, which a switch of modes breaks
    for a moment. *)
Record typed_data (st : ARMul_State) : Prop := {
  td_shape : bank_shape st;
  td_Reg : Forall is_u32 (Reg st);
  td_rows : Forall (Forall is_u32) (RegBank st);
  td_Spsr_len : length (Spsr st) = 7%nat;
  td_Spsr : Forall is_u32 (Spsr st);
  td_Cpsr : is_u32 (Cpsr st);
  td_N : is_flag (NFlag st);
  td_Z : is_flag (ZFlag st);
  td_C : is_flag (CFlag st);
  td_V : is_flag (VFlag st);
  td_S : is_flag (SFlag st);
  td_T : is_flag (TFlag st);
  td_IF : 0 <= IFFlags st < 4;
  td_Mode : 0 <= Mode st < 32
}.

(** A link is what the bank and the mode satisfy; the bank of the mode always does. *)
Record bank_link : Type := {
  linked : Z -> Z -> Prop;
  linked_mode m : linked (ModeToBank m) m
}.

Definition mode_link : bank_link :=
  {| linked b m := b = ModeToBank m; linked_mode m := eq_refl |}.

(** The bank of the mode, or the one of the user mode, which a transfer of the user's
    registers changes to. *)
Definition user_link : bank_link :=
  {| linked b m := b = USERBANK \/ b = ModeToBank m; linked_mode m := or_intror eq_refl |}.

Record arm_typed_at (K : bank_link) (st : ARMul_State) : Prop := {
  ty_data : typed_data st;
  ty_Bank : linked K (Bank st) (Mode st)
}.
Abbreviation arm_typed := (arm_typed_at mode_link).

Lemma arm_typed_wf st :
  arm_typed st -> mode32 (Mode st) = true -> prog32Sig st <> 0 -> arm_wf st.
Proof. intros [Hd HB] Hm Hs. cbn in HB. destruct Hd as [Hsh]. destruct Hsh. by split. Qed.

Lemma arm_wf_typed st : arm_wf st -> is_u32 (Cpsr st) -> arm_typed st.
Proof.
  intros Hw Hc. destruct (mode32_bank _ (wf_mode st Hw)) as [_ Hm].
  split; [|apply Hw]. split; try apply Hw; [by apply arm_wf_shape|done|lia].
Qed.

(** ** Words and flags *)

Lemma land_u32_l a b : is_u32 a -> is_u32 (Z.land a b).
Proof.
  intros Ha. apply is_u32_testbit.
  - apply Z.land_nonneg. unfold is_u32 in Ha. lia.
  - intros i Hi. by rewrite Z.land_spec, testbit_above_32.
Qed.

Lemma lxor_u32_typed a b : is_u32 a -> is_u32 b -> is_u32 (Z.lxor a b).
Proof.
  intros Ha Hb. apply is_u32_testbit.
  - apply Z.lxor_nonneg. unfold is_u32 in *. lia.
  - intros i Hi. by rewrite Z.lxor_spec, !testbit_above_32.
Qed.

Lemma BITS_nonneg instr m n : 0 <= BITS instr m n.
Proof. unfold BITS. apply Z.shiftr_nonneg. apply (u32_range (Z.shiftl instr (31 - n))). Qed.

Lemma flag_land1 x : is_flag (Z.land x 1).
Proof.
  change 1 with (Z.ones 1). rewrite Z.land_ones by lia. change (2 ^ 1) with 2.
  unfold is_flag. Z.div_mod_to_equations; lia.
Qed.

Lemma flag_top x : is_u32 x -> is_flag (Z.shiftr x 31).
Proof. intros Hx. change (Z.shiftr x 31) with (NEG x). rewrite NEG_b2z by done. apply is_flag_b2z. Qed.

Lemma flag_NEG x : is_u32 x -> is_flag (NEG x).
Proof. apply flag_top. Qed.

Lemma flag_0 : is_flag 0. Proof. by left. Qed.
Lemma flag_1 : is_flag 1. Proof. by right. Qed.

Lemma flag_u32 x : is_flag x -> is_u32 x.
Proof. unfold is_flag, is_u32. lia. Qed.

Lemma shl_u32 a n : is_u32 (shl a n).
Proof. apply u32_range. Qed.

Lemma SETPSR_u32 bits d s : is_u32 d -> is_u32 s -> is_u32 (SETPSR bits d s).
Proof. intros. by apply lor_u32; apply land_u32_l. Qed.

#[export] Hint Resolve land_u32_l lor_u32 lxor_u32_typed u32_range shl_u32 SETPSR_u32 BITS_nonneg
  flag_land1 flag_top flag_NEG flag_0 flag_1 is_flag_b2z is_u32_0 : typed.
#[export] Hint Resolve shiftr_u32 | 2 : typed.
#[export] Hint Extern 3 (is_u32 (Zpos _)) => (unfold is_u32; lia) : typed.
#[export] Hint Extern 3 (0 <= Zpos _) => lia : typed.

(** ** What a typed state gives *)

Section reads.
Context (st : ARMul_State) (Hd : typed_data st).

Lemma td_reg i : is_u32 (reg st i).
Proof. apply (nthZ_Forall is_u32); [apply is_u32_0 | apply Hd]. Qed.

Lemma td_spsr b : is_u32 (spsr st b).
Proof. apply (nthZ_Forall is_u32); [apply is_u32_0 | apply Hd]. Qed.

Lemma td_row b : Forall is_u32 (bank_row st b).
Proof.
  unfold bank_row. destruct (nth_in_or_default (Z.to_nat b) (RegBank st) []) as [H| ->]; [|done].
  pose proof (td_rows st Hd) as Hr. rewrite Forall_forall in Hr. apply Hr.
  by apply list_elem_of_In.
Qed.

Lemma td_regbank b i : is_u32 (regbank st b i).
Proof. apply (nthZ_Forall is_u32); [apply is_u32_0 | apply td_row]. Qed.

Lemma td_ECC : is_u32 (ECC st).
Proof. unfold ECC. auto with typed. Qed.

Lemma td_EMODE : is_u32 (EMODE st).
Proof. unfold EMODE. destruct Hd. unfold is_u32. lia. Qed.

Lemma td_CPSR : is_u32 (CPSR st).
Proof. unfold CPSR, EINT. pose proof td_ECC. pose proof td_EMODE. auto with typed. Qed.

Lemma td_ER15INT : is_u32 (ER15INT st).
Proof. apply shl_u32. Qed.
End reads.
#[export] Hint Resolve td_reg td_spsr td_row td_regbank td_ECC td_EMODE td_CPSR td_ER15INT
  td_Cpsr td_C td_Mode td_Reg : typed.
#[export] Hint Extern 1 (typed_data ?st) =>
  match goal with H : arm_typed_at _ st |- _ => exact (ty_data _ _ H) end : typed.
#[export] Hint Extern 4 (typed_data _) =>
  match goal with H : arm_typed_at ?K _ |- _ => apply (ty_data K) end : typed.

(** ** Updates *)

Ltac td_update := intros Hd; intros; destruct Hd; split; cbn; auto.

Section updates.
Context (st : ARMul_State).
Implicit Types (v : Z).

Lemma td_set_Reg l :
  typed_data st -> length l = 16%nat -> Forall is_u32 l -> typed_data (set_Reg st l).
Proof. td_update. by destruct td_shape0; split. Qed.

Lemma td_set_reg i v : typed_data st -> is_u32 v -> typed_data (set_reg st i v).
Proof.
  intros Hd Hv. apply td_set_Reg; [done| |].
  - rewrite length_updZ. apply Hd.
  - apply updZ_Forall; [done|apply Hd].
Qed.

Lemma td_set_bank_row b row :
  typed_data st -> length row = 16%nat -> Forall is_u32 row -> typed_data (set_bank_row st b row).
Proof.
  td_update; [by apply shape_set_bank_row|by apply Forall_insert].
Qed.

Lemma td_set_regbank b i v :
  typed_data st -> 0 <= b < 7 -> is_u32 v -> typed_data (set_regbank st b i v).
Proof.
  intros Hd Hb Hv. apply td_set_bank_row; [done| |].
  - rewrite length_updZ. apply bank_row_length; [apply Hd|done].
  - apply updZ_Forall; [done|by apply td_row].
Qed.

Lemma td_set_spsr b v : typed_data st -> is_u32 v -> typed_data (set_spsr st b v).
Proof. td_update; [by destruct td_shape0; split|by rewrite length_updZ|by apply updZ_Forall]. Qed.

Lemma td_set_Cpsr v : typed_data st -> is_u32 v -> typed_data (set_Cpsr st v).
Proof. td_update. by destruct td_shape0; split. Qed.
Lemma td_set_NFlag v : typed_data st -> is_flag v -> typed_data (set_NFlag st v).
Proof. td_update. by destruct td_shape0; split. Qed.
Lemma td_set_ZFlag v : typed_data st -> is_flag v -> typed_data (set_ZFlag st v).
Proof. td_update. by destruct td_shape0; split. Qed.
Lemma td_set_CFlag v : typed_data st -> is_flag v -> typed_data (set_CFlag st v).
Proof. td_update. by destruct td_shape0; split. Qed.
Lemma td_set_VFlag v : typed_data st -> is_flag v -> typed_data (set_VFlag st v).
Proof. td_update. by destruct td_shape0; split. Qed.
Lemma td_set_SFlag v : typed_data st -> is_flag v -> typed_data (set_SFlag st v).
Proof. td_update. by destruct td_shape0; split. Qed.
Lemma td_set_TFlag v : typed_data st -> is_flag v -> typed_data (set_TFlag st v).
Proof. td_update. by destruct td_shape0; split. Qed.
Lemma td_set_Mode v : typed_data st -> 0 <= v < 32 -> typed_data (set_Mode st v).
Proof. td_update. by destruct td_shape0; split. Qed.
Lemma td_set_Bank v : typed_data st -> typed_data (set_Bank st v).
Proof. td_update. by destruct td_shape0; split. Qed.
Lemma td_set_NtransSig v : typed_data st -> typed_data (set_NtransSig st v).
Proof. td_update. by destruct td_shape0; split. Qed.
Lemma td_set_Emulate v : typed_data st -> typed_data (set_Emulate st v).
Proof. td_update. by destruct td_shape0; split. Qed.
Lemma td_set_NextInstr v : typed_data st -> typed_data (set_NextInstr st v).
Proof. td_update. by destruct td_shape0; split. Qed.
Lemma td_set_Aborted v : typed_data st -> typed_data (set_Aborted st v).
Proof. td_update. by destruct td_shape0; split. Qed.
Lemma td_set_AbortAddr v : typed_data st -> typed_data (set_AbortAddr st v).
Proof. td_update. by destruct td_shape0; split. Qed.
Lemma td_Icycles n : typed_data st -> typed_data (ARMul_Icycles st n).
Proof. td_update. by destruct td_shape0; split. Qed.

Lemma td_set_IFFlags v : typed_data st -> typed_data (set_IFFlags st (Z.land v 3)).
Proof.
  td_update; [by destruct td_shape0; split|].
  change 3 with (Z.ones 2). rewrite Z.land_ones by lia. apply Z.mod_pos_bound. lia.
Qed.
End updates.
#[export] Hint Resolve td_set_reg td_set_spsr td_set_Cpsr td_set_NFlag td_set_ZFlag td_set_CFlag
  td_set_VFlag td_set_SFlag td_set_TFlag td_set_Bank td_set_NtransSig td_set_Emulate
  td_set_NextInstr td_set_Aborted td_set_AbortAddr td_Icycles td_set_IFFlags : typed.

(** ** Changes of mode *)

Lemma ModeToBank_range m : 0 <= ModeToBank m < 7.
Proof.
  unfold ModeToBank. destruct (Z.leb_spec 32 m); [done|].
  apply (nthZ_Forall (fun b => 0 <= b < 7)); [lia|].
  repeat (constructor; [by vm_compute|]). constructor.
Qed.

Lemma td_assign n i f l :
  (forall j, is_u32 (f j)) -> Forall is_u32 l -> Forall is_u32 (assign_regs n i f l).
Proof.
  intros Hf. revert i l. induction n as [|n IH]; intros i l Hl; cbn; [done|].
  apply IH. by apply updZ_Forall.
Qed.

Lemma td_set_assign st b n i f :
  typed_data st -> 0 <= b < 7 -> (forall j, is_u32 (f j)) ->
  typed_data (set_bank_row st b (assign_regs n i f (bank_row st b))).
Proof.
  intros Hd Hb Hf. apply td_set_bank_row; [done| |].
  - rewrite length_assign_regs. apply bank_row_length; [apply Hd|done].
  - apply td_assign; [done|by apply td_row].
Qed.

Lemma td_save_bank st ob nb : typed_data st -> 0 <= ob < 7 -> typed_data (save_bank st ob nb).
Proof.
  intros Hd Hb. unfold save_bank, USERBANK, FIQBANK, DUMMYBANK.
  destruct (ordinary_bank ob); [|destruct (ob =? 1); apply td_set_assign; auto with typed; lia].
  set (st1 := if nb =? 1 then _ else st).
  assert (H1 : typed_data st1) by (unfold st1; case_match; [apply td_set_assign|]; auto with typed; lia).
  assert (H2 : typed_data (set_regbank st1 ob 13 (reg st1 13)))
    by (apply td_set_regbank; auto with typed).
  apply td_set_regbank; auto with typed.
Qed.

Lemma td_load_assign st n i f :
  typed_data st -> (forall j, is_u32 (f j)) -> typed_data (set_Reg st (assign_regs n i f (Reg st))).
Proof.
  intros Hd Hf. apply td_set_Reg; [done|rewrite length_assign_regs; apply Hd|].
  apply td_assign; [done|apply Hd].
Qed.

Lemma td_load_bank st ob nb : typed_data st -> typed_data (load_bank st ob nb).
Proof.
  intros Hd. unfold load_bank.
  destruct (ordinary_bank nb); [|destruct (nb =? FIQBANK); apply td_load_assign; auto with typed].
  set (st1 := if ob =? FIQBANK then _ else st).
  assert (H1 : typed_data st1) by (unfold st1; case_match; [apply td_load_assign|]; auto with typed).
  assert (H2 : typed_data (set_reg st1 13 (regbank st1 nb 13))) by auto with typed.
  auto with typed.
Qed.

Lemma td_SwitchMode st m0 m :
  typed_data st ->
  typed_data (ARMul_SwitchMode st m0 m).2
  /\ Bank (ARMul_SwitchMode st m0 m).2 = ModeToBank m
  /\ (ARMul_SwitchMode st m0 m).1 = m.
Proof.
  intros Hd. split; [|split; [apply SwitchMode_frame|done]].
  unfold ARMul_SwitchMode. cbn [snd]. case_match; [by apply td_set_Bank|].
  apply td_load_bank, td_save_bank; [by apply td_set_Bank|apply ModeToBank_range].
Qed.

(** ** The operations, on typed states *)

Section typed.
Context {K : bank_link} (st : ARMul_State) (Ht : arm_typed_at K st).

Lemma ty_same st' :
  typed_data st' -> Bank st' = Bank st -> Mode st' = Mode st -> arm_typed_at K st'.
Proof. intros Hd HB HM. split; [done|]. rewrite HB, HM. apply Ht. Qed.

Lemma ty_set_reg i v : is_u32 v -> arm_typed_at K (set_reg st i v).
Proof. intros. apply ty_same; auto with typed. Qed.
Lemma ty_set_spsr b v : is_u32 v -> arm_typed_at K (set_spsr st b v).
Proof. intros. apply ty_same; auto with typed. Qed.
Lemma ty_set_Cpsr v : is_u32 v -> arm_typed_at K (set_Cpsr st v).
Proof. intros. apply ty_same; auto with typed. Qed.
Lemma ty_set_NFlag v : is_flag v -> arm_typed_at K (set_NFlag st v).
Proof. intros. apply ty_same; auto with typed. Qed.
Lemma ty_set_ZFlag v : is_flag v -> arm_typed_at K (set_ZFlag st v).
Proof. intros. apply ty_same; auto with typed. Qed.
Lemma ty_set_CFlag v : is_flag v -> arm_typed_at K (set_CFlag st v).
Proof. intros. apply ty_same; auto with typed. Qed.
Lemma ty_set_VFlag v : is_flag v -> arm_typed_at K (set_VFlag st v).
Proof. intros. apply ty_same; auto with typed. Qed.
Lemma ty_set_SFlag v : is_flag v -> arm_typed_at K (set_SFlag st v).
Proof. intros. apply ty_same; auto with typed. Qed.
Lemma ty_set_TFlag v : is_flag v -> arm_typed_at K (set_TFlag st v).
Proof. intros. apply ty_same; auto with typed. Qed.
Lemma ty_set_NextInstr v : arm_typed_at K (set_NextInstr st v).
Proof. apply ty_same; auto with typed. Qed.
Lemma ty_set_Emulate v : arm_typed_at K (set_Emulate st v).
Proof. apply ty_same; auto with typed. Qed.
Lemma ty_set_Aborted v : arm_typed_at K (set_Aborted st v).
Proof. apply ty_same; auto with typed. Qed.
Lemma ty_set_AbortAddr v : arm_typed_at K (set_AbortAddr st v).
Proof. apply ty_same; auto with typed. Qed.
Lemma ty_set_IFFlags v : arm_typed_at K (set_IFFlags st (Z.land v 3)).
Proof. apply ty_same; auto with typed. Qed.
Lemma ty_Icycles n : arm_typed_at K (ARMul_Icycles st n).
Proof. apply ty_same; auto with typed. Qed.
End typed.
#[export] Hint Resolve ty_set_reg ty_set_spsr ty_set_Cpsr ty_set_NFlag ty_set_ZFlag ty_set_CFlag
  ty_set_VFlag ty_set_SFlag ty_set_TFlag ty_set_NextInstr ty_set_Emulate ty_set_Aborted
  ty_set_AbortAddr ty_set_IFFlags ty_Icycles : typed.

(** The pipeline, the counters and the flags. *)
Lemma ty_INCPC {K} st : arm_typed_at K st -> arm_typed_at K (INCPC st).
Proof. unfold INCPC. auto with typed. Qed.
Lemma ty_FLUSHPIPE {K} st : arm_typed_at K st -> arm_typed_at K (FLUSHPIPE st).
Proof. unfold FLUSHPIPE. auto with typed. Qed.
Lemma ty_ASSIGNINT {K} st v : arm_typed_at K st -> arm_typed_at K (ASSIGNINT st v).
Proof. unfold ASSIGNINT. auto with typed. Qed.
Lemma ty_ASSIGNR15INT {K} st v : arm_typed_at K st -> arm_typed_at K (ASSIGNR15INT st v).
Proof. unfold ASSIGNR15INT. auto with typed. Qed.
Lemma ty_NegZero {K} st v : arm_typed_at K st -> arm_typed_at K (ARMul_NegZero st v).
Proof. unfold ARMul_NegZero. intros. repeat case_match; auto with typed. Qed.
Lemma ty_sub_flags {K} st a b d : arm_typed_at K st -> arm_typed_at K (sub_flags st a b d).
Proof.
  unfold sub_flags, ARMul_SubOverflow, ARMul_SubCarry, SubOverflow. intros.
  case_match; auto 6 with typed.
Qed.
Lemma ty_add_flags {K} st a b d : arm_typed_at K st -> is_u32 d -> arm_typed_at K (add_flags st a b d).
Proof.
  unfold add_flags, ARMul_AddOverflow, ARMul_AddCarry, AddOverflow. intros.
  case_match; auto 8 with typed.
Qed.
Lemma flag_of_flag c b : is_flag (flag_of c b).
Proof. apply is_flag_b2z. Qed.
#[export] Hint Resolve ty_INCPC ty_FLUSHPIPE ty_ASSIGNINT ty_ASSIGNR15INT ty_NegZero ty_sub_flags
  ty_add_flags flag_of_flag : typed.

(** ** Status registers *)

(** The change of mode of [ARMul_CPSRAltered] and [ARMul_R15Altered]. *)
Lemma ty_change_mode {K} st m :
  typed_data st -> 0 <= m < 32 ->
  arm_typed_at K (let (m', st') := ARMul_SwitchMode st (Mode st) m in
             set_NtransSig (set_Mode st' m') (ntrans_of (Mode (set_Mode st' m')))).
Proof.
  intros Hd Hm. destruct (td_SwitchMode st (Mode st) m Hd) as (Hd' & HB & HM).
  destruct (ARMul_SwitchMode st (Mode st) m) as [m' st']. cbn in Hd', HB, HM. subst m'.
  split; [|cbn; rewrite HB; apply linked_mode]. by apply td_set_NtransSig, td_set_Mode.
Qed.

Lemma land_mask_range x n : 0 <= n -> 0 <= Z.land x (Z.ones n) < 2 ^ n.
Proof. intros. rewrite Z.land_ones by done. apply Z.mod_pos_bound. by apply pow2_pos. Qed.

Lemma ty_CPSRAltered {K} st : arm_typed_at K st -> arm_typed_at K (ARMul_CPSRAltered st).
Proof.
  intros Ht. unfold ARMul_CPSRAltered.
  set (st1 := if prog32Sig st =? 0 then _ else st).
  assert (H1 : arm_typed_at K st1) by (unfold st1; case_match; auto with typed).
  set (st2 := if Mode st1 =? _ then st1 else _).
  assert (H2 : arm_typed_at K st2).
  { unfold st2. case_match; [done|]. apply ty_change_mode; [by apply H1|].
    apply (land_mask_range _ 5). lia. }
  clearbody st2 st1.
  set (st3 := set_TFlag _ _). assert (H3 : arm_typed_at K st3) by (unfold st3; auto 20 with typed).
  clearbody st3. unfold R15PC. repeat case_match; auto 10 with typed.
Qed.
#[export] Hint Resolve ty_CPSRAltered : typed.

Lemma set_field_u32 instr n bits d s : is_u32 d -> is_u32 s -> is_u32 (set_field instr n bits d s).
Proof. unfold set_field. intros. case_match; auto with typed. Qed.
#[export] Hint Resolve set_field_u32 : typed.

Lemma ty_FixCPSR {K} st instr rhs : arm_typed_at K st -> is_u32 rhs -> arm_typed_at K (ARMul_FixCPSR st instr rhs).
Proof.
  intros Ht Hr. unfold ARMul_FixCPSR, ARMul_GetCPSR.
  assert (H1 : arm_typed_at K (set_Cpsr st (CPSR st))) by auto with typed.
  set (st1 := set_Cpsr st (CPSR st)) in *. clearbody st1.
  set (st2 := if _ : bool then _ else st1).
  assert (H2 : arm_typed_at K st2) by (unfold st2; case_match; auto 10 with typed).
  clearbody st2. auto 10 with typed.
Qed.

Lemma ty_FixSPSR {K} st instr rhs : arm_typed_at K st -> is_u32 rhs -> arm_typed_at K (ARMul_FixSPSR st instr rhs).
Proof. intros. unfold ARMul_FixSPSR. case_match; auto 10 with typed. Qed.

Lemma GETSPSR_u32 st : typed_data st -> is_u32 (GETSPSR st).
Proof. intros. unfold GETSPSR, ARMul_GetSPSR, ARMul_GetCPSR. case_match; auto with typed. Qed.

Lemma ty_SetSPSR {K} st m v : arm_typed_at K st -> is_u32 v -> arm_typed_at K (ARMul_SetSPSR st m v).
Proof. intros. unfold ARMul_SetSPSR. case_match; auto with typed. Qed.

Lemma ty_SetCPSR {K} st v : arm_typed_at K st -> is_u32 v -> arm_typed_at K (ARMul_SetCPSR st v).
Proof. intros. unfold ARMul_SetCPSR. auto with typed. Qed.
#[export] Hint Resolve ty_FixCPSR ty_FixSPSR GETSPSR_u32 ty_SetSPSR ty_SetCPSR : typed.

Lemma ty_restore_cpsr {K} st : arm_typed_at K st -> arm_typed_at K (restore_cpsr st).
Proof. unfold restore_cpsr. auto with typed. Qed.

Lemma ty_R15Altered {K} st : arm_typed_at K st -> arm_typed_at K (ARMul_R15Altered st).
Proof.
  intros Ht. unfold ARMul_R15Altered.
  set (st1 := if Mode st =? _ then st else _).
  assert (H1 : arm_typed_at K st1).
  { unfold st1. case_match; [done|]. apply ty_change_mode; [by apply Ht|].
    unfold R15MODE, R15MODEBITS. pose proof (land_mask_range (reg st 15) 2).
    change (Z.ones 2) with 3 in *. change (2 ^ 2) with 4 in *. lia. }
  clearbody st1. case_match; auto 10 with typed.
Qed.

Lemma ty_SetR15 {K} st v : arm_typed_at K st -> is_u32 v -> arm_typed_at K (ARMul_SetR15 st v).
Proof.
  intros. unfold ARMul_SetR15. apply ty_FLUSHPIPE.
  case_match; [auto with typed|]. apply ty_R15Altered. auto with typed.
Qed.
#[export] Hint Resolve ty_restore_cpsr ty_SetR15 : typed.

(** ** Exceptions *)

Lemma ty_SETABORT {K} st temp i m d :
  arm_typed_at K st -> is_u32 i -> is_u32 m -> arm_typed_at K (SETABORT st temp i m d).
Proof.
  intros Ht Hi Hm. unfold SETABORT, ARMul_GetCPSR.
  assert (H1 : arm_typed_at K (ARMul_SetSPSR st m (CPSR st))) by auto with typed.
  auto 8 with typed.
Qed.

Lemma ty_abort_switch {K} st vector temp : arm_typed_at K st -> arm_typed_at K (abort_switch st vector temp).
Proof.
  intros Ht. unfold abort_switch, ARMul_ResetV, ARMul_UndefinedInstrV, ARMul_SWIV,
    ARMul_PrefetchAbortV, ARMul_DataAbortV, ARMul_AddrExceptnV, ARMul_IRQV, ARMul_FIQV,
    INTBITS, IBIT, SVC32MODE, SVC26MODE, UNDEF32MODE, ABORT32MODE, IRQ32MODE, IRQ26MODE,
    FIQ32MODE, FIQ26MODE.
  repeat (case_match; [apply ty_SETABORT; auto with typed; case_match; auto with typed|]).
  done.
Qed.

Lemma ty_Abort {K} st vector : arm_typed_at K st -> is_u32 vector -> arm_typed_at K (ARMul_Abort st vector).
Proof.
  intros Ht Hv. unfold ARMul_Abort, ARMul_OSException.
  set (st1 := abort_switch _ _ _).
  assert (H1 : arm_typed_at K st1) by (apply ty_abort_switch; auto with typed). clearbody st1.
  unfold R15CCINTMODE. repeat case_match; auto 8 with typed.
Qed.
#[export] Hint Extern 1 (arm_typed_at _ (ARMul_Abort _ _)) =>
  (apply ty_Abort; [|by vm_compute]) : typed.

(** ** Operands *)

Lemma if_u32 (b : bool) x y : is_u32 x -> is_u32 y -> is_u32 (if b then x else y).
Proof. by destruct b. Qed.

Lemma shift_by_reg_u32 ty base n : is_u32 base -> 0 <= n -> is_u32 (shift_by_reg ty base n).
Proof.
  intros Hb Hn. unfold shift_by_reg, asr, ror. repeat case_match; auto with typed.
  apply lor_u32, shiftr_u32; auto with typed. apply Z.land_nonneg. lia.
Qed.

Lemma shift_by_imm_u32 ty base n c : is_u32 base -> 0 <= n -> is_u32 (shift_by_imm ty base n c).
Proof. intros. unfold shift_by_imm, asr, ror. repeat case_match; auto with typed lia. Qed.

Lemma shift_by_reg_s_typed ty base n :
  is_u32 base -> 0 <= n ->
  is_u32 (shift_by_reg_s ty base n).1
  /\ forall c, (shift_by_reg_s ty base n).2 = Some c -> is_flag c.
Proof.
  intros Hb Hn. unfold shift_by_reg_s, asr, ror.
  repeat case_match; cbn [fst snd]; (split; [|intros ? [= <-]]); auto with typed.
  apply lor_u32, shiftr_u32; auto with typed. apply Z.land_nonneg. lia.
Qed.

Lemma shift_by_imm_s_typed ty base n c :
  is_u32 base -> 0 <= n ->
  holds (fun r => is_u32 r.1 /\ forall c, r.2 = Some c -> is_flag c) (shift_by_imm_s ty base n c).
Proof.
  intros Hb Hn. unfold shift_by_imm_s, asr, ror.
  repeat case_match; cbn [holds fst snd]; try done;
    (split; [|intros ? [= <-]]); auto with typed lia.
Qed.

(** What an operand gives. *)
Definition operand_typed_at (K : bank_link) (rhs_of : operand) : Prop :=
  forall st instr, arm_typed_at K st ->
  holds (fun r => is_u32 r.1 /\ arm_typed_at K r.2) (rhs_of st instr).

Lemma ty_assign_c {K} st c :
  arm_typed_at K st -> (forall x, c = Some x -> is_flag x) -> arm_typed_at K (assign_c st c).
Proof. intros. destruct c; cbn; auto with typed. Qed.

Lemma ImmedTable_u32 i : is_u32 (ARMul_ImmedTable i).
Proof. apply u32_range. Qed.
#[export] Hint Resolve ImmedTable_u32 : typed.

Lemma ty_DPRegRHS {K} : operand_typed_at K DPRegRHS.
Proof.
  intros st instr Ht. unfold DPRegRHS, GetDPRegRHS. repeat case_match; cbn; (split; [|auto with typed]).
  - auto with typed.
  - apply shift_by_reg_u32; [auto 8 with typed|]. apply Z.land_nonneg. lia.
  - apply shift_by_imm_u32; auto with typed.
Qed.

Lemma ty_DPSRegRHS {K} : operand_typed_at K DPSRegRHS.
Proof.
  intros st instr Ht. unfold DPSRegRHS, GetDPSRegRHS.
  destruct (BITS instr 4 11 =? 0); [|destruct (BIT instr 4)]; [cbn; auto with typed| |].
  - set (st1 := ARMul_Icycles _ _). assert (H1 : arm_typed_at K st1) by (unfold st1; auto with typed).
    destruct (shift_by_reg_s_typed (BITS instr 5 6) (reg st1 (RHSReg instr))
                (Z.land (reg st1 (BITS instr 8 11)) 0xff)) as [H2 H3];
      [auto with typed|apply Z.land_nonneg; lia|].
    change (reg (INCPC st) (RHSReg instr)) with (reg st1 (RHSReg instr)).
    destruct (shift_by_reg_s _ _ _) as [v c]. cbn in *. split; [done|].
    by apply ty_assign_c.
  - eapply holds_bind; [apply shift_by_imm_s_typed; auto with typed|].
    intros [v c] [H1 H2]. cbn in *. split; [done|]. by apply ty_assign_c.
Qed.

Lemma ty_DPImmRHS {K} : operand_typed_at K DPImmRHS.
Proof. intros st instr Ht. cbn. auto with typed. Qed.

Lemma ty_DPSImmRHS {K} : operand_typed_at K DPSImmRHS.
Proof. intros st instr Ht. cbn. split; [auto with typed|]. case_match; auto with typed. Qed.
#[export] Hint Resolve ty_DPRegRHS ty_DPSRegRHS ty_DPImmRHS ty_DPSImmRHS : typed.

(** ** Results *)

Lemma ty_WriteR15 {K} st v : arm_typed_at K st -> is_u32 v -> arm_typed_at K (WriteR15 st v).
Proof. intros. unfold WriteR15. case_match; auto 8 with typed. Qed.

Lemma ty_WriteSR15 {K} st v : arm_typed_at K st -> is_u32 v -> arm_typed_at K (WriteSR15 st v).
Proof. intros. unfold WriteSR15. repeat case_match; auto 10 with typed. Qed.

Lemma ty_WriteR15Branch {K} st v : arm_typed_at K st -> is_u32 v -> arm_typed_at K (WriteR15Branch st v).
Proof.
  intros. unfold WriteR15Branch, ARMul_GetCPSR. set (st1 := if _ : bool then _ else _).
  assert (H1 : arm_typed_at K st1) by (unfold st1; case_match; auto 8 with typed).
  clearbody st1. auto with typed.
Qed.
#[export] Hint Resolve ty_WriteR15 ty_WriteSR15 ty_WriteR15Branch : typed.

Lemma ty_WRITEDEST {K} st instr v : arm_typed_at K st -> is_u32 v -> arm_typed_at K (WRITEDEST st instr v).
Proof. intros. unfold WRITEDEST. case_match; auto with typed. Qed.

Lemma ty_WRITESDEST {K} st instr v : arm_typed_at K st -> is_u32 v -> arm_typed_at K (WRITESDEST st instr v).
Proof. intros. unfold WRITESDEST. case_match; auto with typed. Qed.
#[export] Hint Resolve ty_WRITEDEST ty_WRITESDEST : typed.

Definition step_typed_at (K : bank_link) (s : step) : Prop :=
  match s with Some r => holds (arm_typed_at K) r | None => True end.

Section bodies.
Context {K : bank_link} (rhs_of : operand) (Hrhs : operand_typed_at K rhs_of) (st : ARMul_State)
  (Ht : arm_typed_at K st).

Ltac body :=
  unfold step_typed_at; cbv zeta;
  (eapply holds_bind; [by apply Hrhs|]); intros [rhs st'] [Hr Ht']; cbn; auto 6 with typed.

Lemma ty_dp f instr : step_typed_at K (dp rhs_of f st instr).
Proof. unfold dp. body. Qed.
Lemma ty_dps f instr : step_typed_at K (dps rhs_of f st instr).
Proof. unfold dps. body. Qed.
Lemma ty_dps_sub f instr : step_typed_at K (dps_sub rhs_of f st instr).
Proof. unfold dps_sub. body. Qed.
Lemma ty_dps_rsb f instr : step_typed_at K (dps_rsb rhs_of f st instr).
Proof. unfold dps_rsb. body. Qed.
Lemma ty_dps_add f instr : step_typed_at K (dps_add rhs_of f st instr).
Proof. unfold dps_add. body. Qed.
Lemma ty_dp_test f instr : step_typed_at K (dp_test rhs_of f st instr).
Proof. unfold dp_test. case_match; [cbn; auto with typed|body]. Qed.
Lemma ty_dp_cmp instr : step_typed_at K (dp_cmp rhs_of st instr).
Proof. unfold dp_cmp. case_match; [cbn; auto with typed|body]. Qed.
Lemma ty_dp_cmn instr : step_typed_at K (dp_cmn rhs_of st instr).
Proof. unfold dp_cmn. case_match; [cbn; auto with typed|body]. Qed.
Lemma ty_msr_cpsr (f : Z -> Z) instr :
  (forall v, is_u32 v -> is_u32 (f v)) ->
  step_typed_at K (Some (let! (rhs, st) := rhs_of st instr in Val (ARMul_FixCPSR st instr (f rhs)))).
Proof. intros Hf. body. Qed.
Lemma ty_msr_spsr instr :
  step_typed_at K (Some (let! (rhs, st) := rhs_of st instr in Val (ARMul_FixSPSR st instr rhs))).
Proof. body. Qed.
End bodies.

Lemma ty_done {K} st : arm_typed_at K st -> step_typed_at K (done_ st).
Proof. done. Qed.

Lemma ty_none {K} : step_typed_at K None.
Proof. done. Qed.
#[export] Hint Resolve ty_dp ty_dps ty_dps_sub ty_dps_rsb ty_dps_add ty_dp_test ty_dp_cmp ty_dp_cmn
  ty_msr_spsr ty_done ty_none : typed.

(** ** Multiplications and the DSP instructions *)

Lemma ty_mult_cycles {K} st v : arm_typed_at K st -> arm_typed_at K (mult_cycles st v).
Proof. unfold mult_cycles. auto with typed. Qed.
#[export] Hint Resolve ty_mult_cycles : typed.

Lemma ty_mul_body {K} acc equal st instr :
  arm_typed_at K st -> (forall st, arm_typed_at K st -> is_u32 (equal st)) ->
  step_typed_at K (mul_body acc equal st instr).
Proof. intros. unfold mul_body. apply ty_done. repeat case_match; auto with typed. Qed.

Lemma ty_muls_body {K} st instr : arm_typed_at K st -> step_typed_at K (muls_body st instr).
Proof. intros. unfold muls_body. apply ty_done. repeat case_match; auto 8 with typed. Qed.

Lemma ty_mlas_body {K} st instr : arm_typed_at K st -> step_typed_at K (mlas_body st instr).
Proof. intros. unfold mlas_body. apply ty_done. repeat case_match; auto 8 with typed. Qed.

Lemma Add32_u32 a b : is_u32 (Add32 a b).1.
Proof. apply u32_range. Qed.

Lemma mul64_parts_u32 a b : is_u32 (mul64_parts a b).1 /\ is_u32 (mul64_parts a b).2.
Proof. split; apply u32_range. Qed.

Lemma negate64_u32 a b : is_u32 (negate64 a b).1 /\ is_u32 (negate64 a b).2.
Proof. unfold negate64. case_match; cbn; auto with typed. Qed.

Lemma ty_Multiply64 {K} st instr ms scc : arm_typed_at K st -> arm_typed_at K (Multiply64 st instr ms scc).2.
Proof.
  intros Ht. unfold Multiply64.
  destruct (mul64_legal instr); [|cbn; by case_match; auto with typed].
  match goal with |- context [mul64_parts ?a ?b] =>
    destruct (mul64_parts_u32 a b) as [Hl Hh]; destruct (mul64_parts a b) as [lo hi] end.
  pose proof (negate64_u32 lo hi) as [Nl Nh].
  destruct (_ && _); [destruct (negate64 lo hi)|]; cbn in *; case_match; auto 8 with typed.
Qed.

Lemma ty_MultiplyAdd64 {K} st instr ms scc :
  arm_typed_at K st -> arm_typed_at K (MultiplyAdd64 st instr ms scc).2.
Proof.
  intros Ht. unfold MultiplyAdd64. pose proof (ty_Multiply64 st instr ms false Ht) as H1.
  destruct (Multiply64 st instr ms false) as [n st1]. cbn in H1.
  pose proof (Add32_u32 (reg st (BITS instr 12 15)) (reg st1 (BITS instr 12 15))) as Hl.
  destruct (Add32 _ _) as [lo c]. cbn in Hl. cbn [snd]. case_match; auto 8 with typed.
Qed.

Lemma ty_mull {K} mul ms scc st instr :
  (arm_typed_at K st -> arm_typed_at K (mul st instr ms scc).2) -> arm_typed_at K st ->
  step_typed_at K (mull mul ms scc st instr).
Proof.
  intros H Ht. unfold mull. specialize (H Ht). destruct (mul st instr ms scc). cbn in *.
  auto with typed.
Qed.

Lemma ty_sets_if {K} st v : arm_typed_at K st -> arm_typed_at K (sets_if st v).
Proof. unfold sets_if. intros. case_match; auto with typed. Qed.

Lemma saturate_u32 v res : is_u32 res -> is_u32 (saturate v res).
Proof. unfold saturate, saturated. intros. repeat case_match; auto with typed. Qed.
#[export] Hint Resolve ty_sets_if saturate_u32 : typed.

Lemma ty_smla_xy {K} st instr : arm_typed_at K st -> arm_typed_at K (smla_xy st instr).
Proof. unfold smla_xy. auto 8 with typed. Qed.
Lemma ty_qadd {K} st instr : arm_typed_at K st -> arm_typed_at K (qadd st instr).
Proof. unfold qadd. auto 8 with typed. Qed.
Lemma ty_qsub {K} st instr : arm_typed_at K st -> arm_typed_at K (qsub st instr).
Proof. unfold qsub. auto 8 with typed. Qed.
Lemma ty_qdadd {K} st instr : arm_typed_at K st -> arm_typed_at K (qdadd st instr).
Proof. unfold qdadd. auto 8 with typed. Qed.
Lemma ty_qdsub {K} st instr : arm_typed_at K st -> arm_typed_at K (qdsub st instr).
Proof. unfold qdsub. auto 8 with typed. Qed.
Lemma ty_smlaw_y {K} st instr : arm_typed_at K st -> arm_typed_at K (smlaw_y st instr).
Proof. unfold smlaw_y. intros. case_match; auto 8 with typed. Qed.
Lemma ty_smlal_xy {K} st instr : arm_typed_at K st -> arm_typed_at K (smlal_xy st instr).
Proof. unfold smlal_xy. auto 8 with typed. Qed.
Lemma ty_smul_xy {K} st instr : arm_typed_at K st -> arm_typed_at K (smul_xy st instr).
Proof. unfold smul_xy. auto 8 with typed. Qed.

Lemma clz_loop_range n op1 res :
  0 <= res -> 0 <= clz_loop n op1 res <= res + Z.of_nat n.
Proof.
  revert op1 res. induction n as [|n IH]; intros op1 res Hr; cbn [clz_loop];
    (case_match; [|lia]); [lia|]. specialize (IH (shl op1 1) (res + 1) ltac:(lia)). lia.
Qed.

Lemma clz_u32 x : is_u32 (clz x).
Proof.
  unfold clz. case_match; [|auto with typed]. pose proof (clz_loop_range 32 x 0). unfold is_u32. lia.
Qed.
#[export] Hint Resolve ty_smla_xy ty_qadd ty_qsub ty_qdadd ty_qdsub ty_smlaw_y ty_smlal_xy
  ty_smul_xy clz_u32 : typed.

(** ** The cases of the switch *)

#[export] Hint Resolve ty_mul_body ty_muls_body ty_mlas_body ty_Multiply64 ty_MultiplyAdd64
  ty_mull : typed.

Lemma ty_case_10 {K} st instr : arm_typed_at K st -> step_typed_at K (case_10 st instr).
Proof. intros. unfold case_10, EINT. repeat case_match; auto 10 with typed. Qed.

Lemma ty_case_12 {K} st instr pc : arm_typed_at K st -> step_typed_at K (case_12 st instr pc).
Proof.
  intros. unfold case_12. repeat case_match; auto 10 with typed.
  apply (ty_msr_cpsr DPRegRHS ty_DPRegRHS st) with (f := fun v => Z.land v (Z.lnot TBIT));
    auto with typed.
Qed.

Lemma ty_case_14 {K} st instr : arm_typed_at K st -> step_typed_at K (case_14 st instr).
Proof. intros. unfold case_14. repeat case_match; auto 10 with typed. Qed.

Lemma ty_case_16 {K} st instr : arm_typed_at K st -> step_typed_at K (case_16 st instr).
Proof. intros. unfold case_16. repeat case_match; auto 10 with typed. Qed.

Lemma ty_case_32 {K} st instr : arm_typed_at K st -> step_typed_at K (case_32 st instr).
Proof.
  intros. unfold case_32. case_match; auto with typed.
  by apply (ty_msr_cpsr DPImmRHS ty_DPImmRHS st) with (f := fun v => v).
Qed.

Lemma ty_case_36 {K} st instr : arm_typed_at K st -> step_typed_at K (case_36 st instr).
Proof. intros. unfold case_36. case_match; auto with typed. Qed.
#[export] Hint Resolve ty_case_10 ty_case_12 ty_case_14 ty_case_16 ty_case_32 ty_case_36 : typed.

(** The others are made of the bodies above. *)
Ltac ty_ifs :=
  repeat match goal with |- step_typed_at _ (if ?b then _ else _) => destruct b end; auto with typed.
Ltac ty_case := match goal with |- step_typed_at _ (?c ?st ?instr) => unfold c; cbv zeta; ty_ifs end.

Lemma ty_dp_switch {K} k st instr pc : arm_typed_at K st -> step_typed_at K (dp_switch k st instr pc).
Proof. intros Ht. unfold dp_switch. ty_ifs; ty_case. Qed.

Lemma ty_mainswitch {K} st instr pc : arm_typed_at K st -> step_typed_at K (mainswitch st instr pc).
Proof.
  intros Ht. unfold mainswitch, arm_b, arm_bl, arm_swi. cbv zeta. ty_ifs.
  by apply ty_dp_switch.
Qed.

Lemma ty_arm_execute {K} st instr pc : arm_typed_at K st -> step_typed_at K (arm_execute st instr pc).
Proof.
  intros Ht. unfold arm_execute, arm_nv, arm_blx1, ARMul_UndefInstr. cbv zeta.
  ty_ifs; by apply ty_mainswitch.
Qed.

(** ** Thumb *)

Lemma ty_thumb_bl2 {K} st pc t : arm_typed_at K st -> arm_typed_at K (thumb_bl2 st pc t).
Proof. unfold thumb_bl2. auto 8 with typed. Qed.
#[export] Hint Resolve ty_thumb_bl2 : typed.

Lemma ty_ThumbDecode {K} st pc t : arm_typed_at K st -> arm_typed_at K (ARMul_ThumbDecode st pc t).2.
Proof.
  intros Ht. unfold ARMul_ThumbDecode, thumb_decode, thumb_bcc, thumb_b, thumb_bl1.
  destruct (thumb_halves _ _) as [h h']. cbv zeta.
  repeat match goal with
  | |- context [if ?b then _ else _] => destruct b
  | |- context [match thumb_hireg ?v ?t with _ => _ end] => destruct (thumb_hireg v t)
  end; cbn [snd]; auto 8 with typed.
Qed.

(** Whatever the word fetched and in both instruction sets, an instruction that
    completes leaves every array with its length, every register and status register a
    32-bit word, every flag 0 or 1, the mode within 5 bits and the current bank the one
    of the mode. *)
Theorem execute_typed st instr pc st' :
  arm_typed st -> execute st instr pc = Some (Val st') -> arm_typed st'.
Proof.
  intros Ht Hx. assert (H : step_typed_at mode_link (execute st instr pc)).
  { unfold execute. case_match; [|by apply ty_arm_execute].
    pose proof (ty_ThumbDecode st pc instr Ht) as Hd.
    destruct (ARMul_ThumbDecode st pc instr) as [[d new] st1]. cbn [snd] in Hd.
    destruct d; unfold ARMul_UndefInstr; [auto with typed|by apply ty_arm_execute|done]. }
  by rewrite Hx in H.
Qed.
