(* ===== verification/ArmTlbProps.v ===== *)
(** * Translation implements the tables

    The translation the architecture manual defines, as a walk of the tables in memory
    for every access ([ref_access]), and the proof that [translate] and [check_access],
    which keep what they walked in the translation look-aside buffer and answer from it,
    give the same physical addresses and faults as long as the tables are not changed. *)

From Stdlib Require Import ZArith Lia Bool.
From stdpp Require Import base numbers option list.
From S2P Require Import Prelude Words Bus LoadStoreProps ArmState ArmMachine ArmTlb ArmCache ArmMmu.
From S2P Require Import ArmMmuTyped.

(** ** The reference *)

(** The size of a page is a power of two. *)
Definition page_bits (m : tlb_mapping_t) : Z :=
  match m with
  | TLB_INVALID => 32
  | TLB_SECTION => 20
  | TLB_LARGEPAGE => 16
  | TLB_SMALLPAGE | TLB_ESMALLPAGE => 12
  | TLB_TINYPAGE => 10
  end.

Definition ref_l1 (ttb va : Z) : Z := ttb / 2 ^ 14 * 2 ^ 14 + 4 * (va / 2 ^ 20).
Definition ref_coarse (l1 va : Z) : Z := l1 / 2 ^ 10 * 2 ^ 10 + 4 * ((va / 2 ^ 12) mod 2 ^ 8).
Definition ref_fine (l1 va : Z) : Z := l1 / 2 ^ 12 * 2 ^ 12 + 4 * ((va / 2 ^ 10) mod 2 ^ 10).

(** The kind of a page from the low bits of its second-level descriptor. *)
Definition ref_page (fine xscale : bool) (l2 : Z) : option tlb_mapping_t :=
  match l2 mod 4 with
  | 0 => None
  | 1 => Some TLB_LARGEPAGE
  | 2 => Some TLB_SMALLPAGE
  | _ => if fine then Some TLB_TINYPAGE else if xscale then Some TLB_ESMALLPAGE else None
  end.

(** The kind of page, its descriptor and its domain; [None] is a translation fault. *)
Definition ref_walk (pt : Z -> Z) (ttb : Z) (xscale : bool) (va : Z)
    : option (tlb_mapping_t * Z * Z) :=
  let l1 := pt (ref_l1 ttb va) in
  let d := (l1 / 2 ^ 5) mod 2 ^ 4 in
  let second fine l2 :=
    match ref_page fine xscale l2 with Some m => Some (m, l2, d) | None => None end in
  match l1 mod 4 with
  | 0 => None
  | 1 => second false (pt (ref_coarse l1 va))
  | 2 => Some (TLB_SECTION, l1, d)
  | _ => second true (pt (ref_fine l1 va))
  end.

Definition ref_pa (m : tlb_mapping_t) (desc va : Z) : Z :=
  desc / 2 ^ page_bits m * 2 ^ page_bits m + va mod 2 ^ page_bits m.

(** The access permission bits: one field for a section or an undivided page, and one
    for each quarter of a large or small page. *)
Definition ref_ap (m : tlb_mapping_t) (desc va : Z) : Z :=
  match m with
  | TLB_SECTION => (desc / 2 ^ 10) mod 4
  | TLB_LARGEPAGE => (desc / 2 ^ (4 + 2 * ((va / 2 ^ 14) mod 4))) mod 4
  | TLB_SMALLPAGE => (desc / 2 ^ (4 + 2 * ((va / 2 ^ 10) mod 4))) mod 4
  | _ => (desc / 2 ^ 4) mod 4
  end.

(** Table 8-2 of the manual: the system and ROM bits let a read through. *)
Definition ref_allowed (s r user : bool) (ap : Z) (read : bool) : bool :=
  match ap, user with
  | 0, false => read && (s || r)
  | 0, true => read && r
  | 1, _ => negb user
  | 2, true => read
  | _, _ => true
  end.

(** What the tables and the control registers are. *)
Record walk_env : Type := {
  we_pt : Z -> Z;
  we_ttb : Z;
  we_dacr : Z;
  we_xscale : bool;
  we_s : bool;
  we_r : bool;
  we_user : bool
}.

(** A fault or the physical address. *)
Definition ref_access (w : walk_env) (va : Z) (read : bool) : Z + Z :=
  match ref_walk (we_pt w) (we_ttb w) (we_xscale w) va with
  | None => inl PAGE_TRANSLATION_FAULT
  | Some (m, desc, d) =>
      match (we_dacr w / 4 ^ d) mod 4 with
      | 1 =>
          if ref_allowed (we_s w) (we_r w) (we_user w) (ref_ap m desc va) read
          then inr (ref_pa m desc va)
          else inl (if decide (m = TLB_SECTION) then SECTION_PERMISSION_FAULT
                    else SUBPAGE_PERMISSION_FAULT)
      | 3 => inr (ref_pa m desc va)
      | _ => inl SECTION_DOMAIN_FAULT
      end
  end.

(** ** Masks as divisions *)

Lemma mask_field x n k :
  0 <= n -> 0 <= k -> Z.land x (Z.shiftl (Z.ones n) k) = (x / 2 ^ k) mod 2 ^ n * 2 ^ k.
Proof.
  intros Hn Hk. rewrite <- Z.land_ones, <- Z.shiftr_div_pow2, <- Z.shiftl_mul_pow2 by lia.
  apply Z.bits_inj'. intros i Hi. rewrite Z.land_spec.
  destruct (Z.lt_ge_cases i k) as [Hlt|Hge].
  - rewrite !Z.shiftl_spec_low by lia. by rewrite andb_false_r.
  - rewrite !Z.shiftl_spec, Z.land_spec, Z.shiftr_spec by lia. by rewrite Z.sub_add.
Qed.

Lemma mask_high x s :
  is_u32 x -> 0 <= s <= 32 -> Z.land x (Z.shiftl (Z.ones (32 - s)) s) = x / 2 ^ s * 2 ^ s.
Proof.
  intros Hx Hs. rewrite mask_field by lia. f_equal. apply Z.mod_small.
  pose proof (pow2_pos s ltac:(lia)). unfold is_u32 in Hx. split; [apply Z.div_pos; lia|].
  apply Z.div_lt_upper_bound; [lia|]. rewrite <- Z.pow_add_r by lia.
  replace (s + (32 - s)) with 32 by lia. lia.
Qed.

(** Two bits of a field of a descriptor. *)
Lemma two_bits desc k n :
  0 <= n -> Z.land (Z.shiftr k n) 3 = 3 ->
  Z.land (Z.shiftr (Z.land desc k) n) 3 = (desc / 2 ^ n) mod 4.
Proof.
  intros Hn Hk. rewrite Z.shiftr_land, <- Z.land_assoc, Hk, Z.shiftr_div_pow2 by lia.
  change 3 with (Z.ones 2). by rewrite Z.land_ones by lia.
Qed.

Lemma low_two_bits x : Z.land x 3 = x mod 4.
Proof. change 3 with (Z.ones 2). by rewrite Z.land_ones by lia. Qed.

Lemma l1_address_ref ttb va : is_u32 ttb -> is_u32 va -> l1_address ttb va = ref_l1 ttb va.
Proof.
  intros Ht Hv. unfold l1_address, ref_l1.
  change 0xFFFFC000 with (Z.shiftl (Z.ones (32 - 14)) 14).
  change 0xFFFFFFFC with (Z.shiftl (Z.ones (32 - 2)) 2).
  rewrite (mask_high ttb) by (done || lia). rewrite Z.shiftr_div_pow2 by lia.
  pose proof (Z.div_pos va (2 ^ 18)). unfold is_u32 in *.
  assert (0 <= va / 2 ^ 18 < 2 ^ 14) by (Z.div_mod_to_equations; lia).
  rewrite lor_low by lia. rewrite mask_high.
  - Z.div_mod_to_equations; lia.
  - unfold is_u32. Z.div_mod_to_equations; lia.
  - lia.
Qed.

(** A second-level address: the index is [n] bits from bit [j] of the address. *)
Lemma l2_address l1 va n j :
  is_u32 l1 -> 2 <= j -> 0 <= n <= 28 ->
  Z.land (Z.lor (Z.land l1 (Z.shiftl (Z.ones (32 - (n + 2))) (n + 2)))
            (Z.shiftr (Z.land va (Z.shiftl (Z.ones n) j)) (j - 2))) 0xFFFFFFFC
  = l1 / 2 ^ (n + 2) * 2 ^ (n + 2) + 4 * ((va / 2 ^ j) mod 2 ^ n).
Proof.
  intros Hl Hj Hn. change 0xFFFFFFFC with (Z.shiftl (Z.ones (32 - 2)) 2).
  rewrite (mask_high l1), (mask_field va) by (done || lia).
  set (q := (va / 2 ^ j) mod 2 ^ n). assert (Hq : 0 <= q < 2 ^ n) by (apply Z.mod_pos_bound, pow2_pos; lia).
  replace (Z.shiftr (q * 2 ^ j) (j - 2)) with (4 * q).
  2:{ rewrite <- Z.shiftl_mul_pow2, Z.shiftr_shiftl_l by lia. replace (j - (j - 2)) with 2 by lia.
      rewrite Z.shiftl_mul_pow2 by lia. lia. }
  assert (E : 2 ^ (n + 2) = 2 ^ n * 4) by (rewrite Z.pow_add_r by lia; lia).
  rewrite lor_low by lia.
  pose proof (pow2_pos n ltac:(lia)).
  set (h := l1 / 2 ^ (n + 2)). assert (Hh : 0 <= h * 2 ^ (n + 2) <= l1).
  { subst h. pose proof (Z.mul_div_le l1 (2 ^ (n + 2)) ltac:(lia)).
    pose proof (Z.div_pos l1 (2 ^ (n + 2)) ltac:(unfold is_u32 in Hl; lia) ltac:(lia)). nia. }
  assert (Hs : is_u32 (h * 2 ^ (n + 2) + 4 * q)).
  { pose proof (Z.div_lt_upper_bound l1 (2 ^ (n + 2)) (2 ^ (32 - (n + 2))) ltac:(lia)) as Hd.
    rewrite <- Z.pow_add_r in Hd by lia. replace (n + 2 + (32 - (n + 2))) with 32 in Hd by lia.
    unfold is_u32 in *. specialize (Hd ltac:(lia)). fold h in Hd.
    assert (HP : 2 ^ (32 - (n + 2)) * 2 ^ (n + 2) = 4294967296)
      by (rewrite <- Z.pow_add_r by lia; by replace (32 - (n + 2) + (n + 2)) with 32 by lia).
    nia. }
  rewrite mask_high by (done || lia). rewrite E. change (2 ^ 2) with 4.
  replace (h * (2 ^ n * 4) + 4 * q) with ((h * 2 ^ n + q) * 4) by lia.
  rewrite Z.div_mul by lia. lia.
Qed.

Lemma coarse_address_ref l1 va : is_u32 l1 -> coarse_address l1 va = ref_coarse l1 va.
Proof. intros Hl. exact (l2_address l1 va 8 12 Hl ltac:(lia) ltac:(lia)). Qed.

Lemma fine_address_ref l1 va : is_u32 l1 -> fine_address l1 va = ref_fine l1 va.
Proof. intros Hl. exact (l2_address l1 va 10 10 Hl ltac:(lia) ltac:(lia)). Qed.

Lemma tlb_mask_bits m x :
  m <> TLB_INVALID -> is_u32 x -> Z.land x (tlb_masks m) = x / 2 ^ page_bits m * 2 ^ page_bits m.
Proof.
  intros Hm Hx. rewrite <- mask_high by (done || (destruct m; cbn; lia)).
  f_equal. by destruct m.
Qed.

Lemma page_bits_range m : 0 <= page_bits m <= 32.
Proof. destruct m; cbn; lia. Qed.

(** The same page. *)
Lemma hit_same_page m va va0 :
  m <> TLB_INVALID -> is_u32 va -> is_u32 va0 ->
  (Z.land va (tlb_masks m) =? Z.land (Z.land va0 (tlb_masks m)) (tlb_masks m)) = true ->
  va / 2 ^ page_bits m = va0 / 2 ^ page_bits m.
Proof.
  intros Hm Hv Hv0 E%Z.eqb_eq. rewrite <- Z.land_assoc, Z.land_diag in E.
  rewrite !tlb_mask_bits in E by done.
  pose proof (pow2_pos (page_bits m) (proj1 (page_bits_range m))). nia.
Qed.

Lemma va_to_pa_ref m desc va :
  m <> TLB_INVALID -> is_u32 desc -> is_u32 va ->
  forall e, mapping e = m -> phys_addr e = Z.land desc (tlb_masks m) ->
  tlb_va_to_pa e va = ref_pa m desc va.
Proof.
  intros Hm Hd Hv e Em Ep. unfold tlb_va_to_pa, ref_pa. rewrite Em, Ep.
  rewrite <- Z.land_assoc, Z.land_diag, tlb_mask_bits by done.
  replace (u32 (Z.lnot (tlb_masks m))) with (Z.ones (page_bits m)) by (by destruct m).
  rewrite Z.land_ones by apply page_bits_range.
  apply lor_low; [apply page_bits_range|]. apply Z.mod_pos_bound, pow2_pos, page_bits_range.
Qed.

(** ** Tables in memory, and a buffer that agrees with them *)

Definition perm_mask (m : tlb_mapping_t) : Z :=
  match m with TLB_SECTION => 0xC0C | _ => 0xFFC end.

(** An entry made from a descriptor. *)
Record entry_of (m : tlb_mapping_t) (desc d : Z) (e : tlb_entry_t) : Prop := {
  eo_mapping : mapping e = m;
  eo_domain : domain e = d;
  eo_phys : phys_addr e = Z.land desc (tlb_masks m);
  eo_perms : perms e = Z.land desc (perm_mask m)
}.

Section tables.
Context {B : Type} `{RamBus B}.
Implicit Types (m : arm_machine B) (b : B).

(** Every descriptor a walk reads is in RAM. *)
Definition tables_mapped b (ttb : Z) : Prop :=
  forall va, is_u32 va ->
    ram_at b (ref_l1 ttb va)
    /\ (let l1 := word_at b (ref_l1 ttb va) in
        (l1 mod 4 = 1 -> ram_at b (ref_coarse l1 va)) /\ (l1 mod 4 = 3 -> ram_at b (ref_fine l1 va))).

(** The manual's rule for pages that are larger than what a descriptor of their table
    covers: the descriptors of a large or small page are repeated for all of it. *)
Definition tables_replicated (pt : Z -> Z) (ttb : Z) (xscale : bool) : Prop :=
  forall va va' mp desc d,
    mp = TLB_LARGEPAGE \/ mp = TLB_SMALLPAGE -> is_u32 va -> is_u32 va' ->
    va / 2 ^ page_bits mp = va' / 2 ^ page_bits mp ->
    ref_walk pt ttb xscale va = Some (mp, desc, d) ->
    ref_walk pt ttb xscale va' = Some (mp, desc, d).

(** An entry answers what the tables say, for every address it answers. *)
Definition entry_agrees (pt : Z -> Z) (ttb : Z) (xscale : bool) (e : tlb_entry_t) : Prop :=
  forall va, is_u32 va -> tlb_hit va e = true ->
    exists desc, is_u32 desc /\ ref_walk pt ttb xscale va = Some (mapping e, desc, domain e)
      /\ entry_of (mapping e) desc (domain e) e.

Definition env_of m : walk_env :=
  {| we_pt := word_at (abus m); we_ttb := translation_table_base (mmu m);
     we_dacr := domain_access_control (mmu m); we_xscale := c_true (is_XScale (core m));
     we_s := c_true (Z.land (mmu_control (core m)) CONTROL_SYSTEM);
     we_r := c_true (Z.land (mmu_control (core m)) CONTROL_ROM); we_user := is_user (core m) |}.

Definition walk_of m : Z -> option (tlb_mapping_t * Z * Z) :=
  ref_walk (word_at (abus m)) (translation_table_base (mmu m)) (c_true (is_XScale (core m))).

Record tlb_coherent m : Prop := {
  tc_shape : a71_tlb_ok (the_tlb (mmu m));
  tc_ttb : is_u32 (translation_table_base (mmu m));
  tc_mapped : tables_mapped (abus m) (translation_table_base (mmu m));
  tc_replicated :
    tables_replicated (word_at (abus m)) (translation_table_base (mmu m))
      (c_true (is_XScale (core m)));
  tc_entries :
    Forall (entry_agrees (word_at (abus m)) (translation_table_base (mmu m))
              (c_true (is_XScale (core m)))) (entrys (the_tlb (mmu m)))
}.

(** ** The walk *)

(** A walk leaves all but the bus and the domain of the last access. *)
Record walk_frame m m' : Prop := {
  wf_core : core m' = core m;
  wf_ttb : translation_table_base (mmu m') = translation_table_base (mmu m);
  wf_dacr : domain_access_control (mmu m') = domain_access_control (mmu m);
  wf_the_cache : the_cache (mmu m') = the_cache (mmu m);
  wf_ram : ram_same (abus m) (abus m')
}.

Lemma walk_frame_refl m : walk_frame m m.
Proof. by split. Qed.

Lemma walk_frame_trans m1 m2 m3 : walk_frame m1 m2 -> walk_frame m2 m3 -> walk_frame m1 m3.
Proof. intros [? ? ? ? ?] [? ? ? ? ?]. split; try congruence. by etransitivity. Qed.

Lemma walk_frame_domain m d : walk_frame m (set_domain d m).
Proof. by split. Qed.

Lemma read_desc_spec m a :
  ram_at (abus m) a ->
  is_u32 (word_at (abus m) a)
  /\ exists m', read_desc m a = Val (word_at (abus m) a, m') /\ walk_frame m m'
       /\ the_tlb (mmu m') = the_tlb (mmu m).
Proof.
  intros Ha. destruct (ram_read (abus m) a Ha) as (Hu & b' & Hr & Hs). split; [done|].
  exists (set_abus m b'). unfold read_desc. rewrite Hr. split; [done|]. by split.
Qed.

(** What a walk gives. *)
Definition walk_gives (w : option (tlb_mapping_t * Z * Z)) (va : Z)
    (r : Z * option tlb_entry_t) : Prop :=
  match w with
  | None => r = (PAGE_TRANSLATION_FAULT, None)
  | Some (mp, desc, d) =>
      mp <> TLB_INVALID /\ is_u32 desc /\ 0 <= d < 16
      /\ exists e, r = (NO_FAULT, Some e) /\ entry_of mp desc d e
           /\ virt_addr e = Z.land va (tlb_masks mp)
  end.

Definition walk_result_ok m (w : option (tlb_mapping_t * Z * Z)) (va : Z)
    (r : result (Z * option tlb_entry_t * arm_machine B)) : Prop :=
  exists f e m', r = Val (f, e, m') /\ walk_gives w va (f, e) /\ walk_frame m m'
    /\ the_tlb (mmu m') = the_tlb (mmu m).

Lemma ref_page_kinds (fine xscale : bool) l2 :
  (if fine then fine_mapping l2 else coarse_mapping xscale l2) = ref_page fine xscale l2.
Proof.
  unfold fine_mapping, coarse_mapping, ref_page. rewrite low_two_bits.
  pose proof (Z.mod_pos_bound l2 4 ltac:(lia)) as Hb. set (k := l2 mod 4) in *. clearbody k.
  by enum_Z k 0 4; destruct fine.
Qed.

Lemma ref_page_valid fine xscale l2 mp :
  ref_page fine xscale l2 = Some mp -> mp <> TLB_INVALID /\ perm_mask mp = 0xFFC.
Proof. unfold ref_page. repeat case_match; intros [= <-]; done. Qed.

Lemma walk_l2_spec m a (fine : bool) va l1 :
  let xscale := c_true (is_XScale (core m)) in
  let d := (l1 / 2 ^ 5) mod 2 ^ 4 in
  let l2 := word_at (abus m) a in
  ram_at (abus m) a ->
  walk_result_ok m
    (match ref_page fine xscale l2 with Some mp => Some (mp, l2, d) | None => None end) va
    (walk_l2 a (if fine then fine_mapping else coarse_mapping xscale) va l1 m).
Proof.
  intros xscale d l2 Ha. destruct (read_desc_spec m a Ha) as (Hu & m1 & Hr & Hf & Ht).
  unfold walk_l2, walk_result_ok. rewrite Hr. cbn [rbind]. cbv zeta. fold l2.
  replace ((if fine then fine_mapping else coarse_mapping xscale) l2) with (ref_page fine xscale l2)
    by (rewrite <- ref_page_kinds; by destruct fine).
  assert (Hd : l1_domain l1 = d).
  { unfold l1_domain, d. rewrite Z.shiftr_div_pow2 by lia. change 0xF with (Z.ones 4).
    by rewrite Z.land_ones by lia. }
  rewrite Hd. destruct (ref_page fine xscale l2) as [mp|] eqn:E.
  - destruct (ref_page_valid _ _ _ _ E) as [Hv Hp].
    eexists _, _, _. split; [reflexivity|]. split; [|done]. cbn. split; [done|]. split; [done|].
    split; [apply Z.mod_pos_bound; lia|]. eexists. split; [reflexivity|]. split; [|done].
    split; cbn; rewrite ?Hp; done.
  - eexists _, _, _. split; [reflexivity|]. split; [done|]. split; [|done].
    eapply walk_frame_trans; [exact Hf|apply walk_frame_domain].
Qed.

Lemma walk_tables_spec m va :
  tlb_coherent m -> is_u32 va -> walk_result_ok m (walk_of m va) va (walk_tables m va).
Proof.
  intros Hc Hv. destruct (tc_mapped m Hc va Hv) as [Ha1 Ha2].
  unfold walk_tables, walk_of, ref_walk. rewrite l1_address_ref by (done || apply Hc).
  destruct (read_desc_spec m _ Ha1) as (Hu & m1 & Hr & Hf & Ht).
  rewrite Hr. cbn [rbind]. cbv zeta. cbv zeta in Ha2. destruct Ha2 as [Hco Hfi].
  rewrite low_two_bits. set (l1 := word_at (abus m) (ref_l1 _ va)) in *.
  pose proof (Z.mod_pos_bound l1 4 ltac:(lia)) as Hb.
  assert (Hnext : forall (fine : bool) a, ram_at (abus m) a ->
    let l2 := word_at (abus m) a in
    walk_result_ok m
      (match ref_page fine (c_true (is_XScale (core m))) l2 with
       | Some mp => Some (mp, l2, (l1 / 2 ^ 5) mod 2 ^ 4) | None => None end) va
      (walk_l2 a (if fine then fine_mapping
                  else coarse_mapping (c_true (is_XScale (core m1)))) va l1 m1)).
  { intros fine a Ha. cbv zeta. destruct (wf_ram _ _ Hf a Ha) as [Ha' <-].
    destruct (walk_l2_spec m1 a fine va l1 Ha') as (f & e & m2 & Hx & Hg & Hf2 & Ht2).
    rewrite (wf_core _ _ Hf) in *. exists f, e, m2. split; [exact Hx|]. split; [exact Hg|].
    split; [by eapply walk_frame_trans|congruence]. }
  assert (l1 mod 4 = 0 \/ l1 mod 4 = 1 \/ l1 mod 4 = 2 \/ l1 mod 4 = 3) as [E|[E|[E|E]]] by lia;
    rewrite E; cbn [Z.eqb Pos.eqb].
  - eexists _, _, _. split; [reflexivity|]. done.
  - rewrite coarse_address_ref by done. apply (Hnext false). auto.
  - eexists _, _, _. split; [reflexivity|]. split; [|done]. cbn. split; [done|]. split; [done|].
    split; [apply Z.mod_pos_bound; lia|]. eexists. split; [reflexivity|]. split; [|done].
    split; cbn; try done. unfold l1_domain. rewrite Z.shiftr_div_pow2 by lia.
    change 0xF with (Z.ones 4). by rewrite Z.land_ones by lia.
  - rewrite fine_address_ref by done. apply (Hnext true). auto.
Qed.

(** ** The tables in another state of the memory *)

Lemma ref_walk_same b b' ttb xscale va :
  tables_mapped b ttb -> ram_same b b' -> is_u32 va ->
  ref_walk (word_at b') ttb xscale va = ref_walk (word_at b) ttb xscale va.
Proof.
  intros Hm Hs Hv. destruct (Hm va Hv) as [Ha Hl]. unfold ref_walk. cbv zeta in *.
  rewrite (proj2 (Hs _ Ha)). set (l1 := word_at b (ref_l1 ttb va)) in *. clearbody l1.
  pose proof (Z.mod_pos_bound l1 4 ltac:(lia)) as Hb. destruct Hl as [Hco Hfi].
  assert (l1 mod 4 = 0 \/ l1 mod 4 = 1 \/ l1 mod 4 = 2 \/ l1 mod 4 = 3) as [E|[E|[E|E]]] by lia;
    rewrite E; try done.
  - by rewrite (proj2 (Hs _ (Hco E))).
  - by rewrite (proj2 (Hs _ (Hfi E))).
Qed.

Lemma tables_mapped_same b b' ttb : tables_mapped b ttb -> ram_same b b' -> tables_mapped b' ttb.
Proof.
  intros Hm Hs va Hv. destruct (Hm va Hv) as [Ha [Hco Hfi]]. destruct (Hs _ Ha) as [Ha' E].
  split; [done|]. cbv zeta. rewrite E. split; intros E4; [apply (Hs _ (Hco E4))|apply (Hs _ (Hfi E4))].
Qed.

Lemma coherent_frame m m' :
  tlb_coherent m -> walk_frame m m' -> the_tlb (mmu m') = the_tlb (mmu m) -> tlb_coherent m'.
Proof.
  intros Hc [Ecore Ettb _ _ Hram] Et. pose proof (tc_mapped m Hc) as Hm.
  assert (Hw : forall va, is_u32 va -> walk_of m' va = walk_of m va).
  { intros va Hv. unfold walk_of. rewrite Ettb, Ecore. by apply ref_walk_same. }
  unfold walk_of in Hw. split.
  - rewrite Et. apply Hc.
  - rewrite Ettb. apply Hc.
  - rewrite Ettb. by eapply tables_mapped_same.
  - intros va va' mp desc d Hmp Hv Hv' Hp. rewrite !Hw by done. by apply (tc_replicated m Hc).
  - rewrite Et. eapply Forall_impl; [exact (tc_entries m Hc)|]. intros e He va Hv Hh.
    rewrite Hw by done. by apply He.
Qed.

(** ** Pages *)

Lemma div_pow_coarser va va' j k :
  0 <= j <= k -> va / 2 ^ j = va' / 2 ^ j -> va / 2 ^ k = va' / 2 ^ k.
Proof.
  intros Hj E. replace k with (j + (k - j)) by lia. rewrite Z.pow_add_r by lia.
  rewrite <- !Z.div_div by (apply pow2_pos || apply Z.pow_nonzero; lia). by rewrite E.
Qed.

Lemma same_page_walk pt ttb xscale va va' mp desc d :
  tables_replicated pt ttb xscale -> is_u32 va -> is_u32 va' ->
  va / 2 ^ page_bits mp = va' / 2 ^ page_bits mp ->
  ref_walk pt ttb xscale va = Some (mp, desc, d) -> ref_walk pt ttb xscale va' = Some (mp, desc, d).
Proof.
  intros Hr Hv Hv' Hp Hw.
  destruct (decide (mp = TLB_LARGEPAGE \/ mp = TLB_SMALLPAGE)) as [Hm|Hm]; [by apply (Hr va va')|].
  assert (H20 : va / 2 ^ 20 = va' / 2 ^ 20).
  { apply (div_pow_coarser va va' (page_bits mp)); [|done].
    destruct mp; cbn; try lia. unfold ref_walk, ref_page in Hw. repeat case_match; congruence. }
  revert Hw. unfold ref_walk, ref_l1. rewrite <- H20. cbv zeta.
  set (l1 := pt _). clearbody l1.
  assert (Hc : mp = TLB_ESMALLPAGE \/ mp = TLB_TINYPAGE -> ref_coarse l1 va' = ref_coarse l1 va).
  { intros Hmp. unfold ref_coarse. rewrite (div_pow_coarser va va' (page_bits mp) 12); [done| |done].
    destruct Hmp; subst mp; cbn; lia. }
  assert (Hf : mp = TLB_TINYPAGE -> ref_fine l1 va' = ref_fine l1 va).
  { intros ->. unfold ref_fine. cbn in Hp. by rewrite Hp. }
  assert (Hk : forall fine l2, ref_page fine xscale l2 = Some mp ->
            if fine then mp = TLB_TINYPAGE else mp = TLB_ESMALLPAGE).
  { intros fine l2. unfold ref_page. repeat case_match; intros [= <-]; try done; tauto. }
  destruct (l1 mod 4) as [|[[]|[]|]|]; try done.
  all: destruct (ref_page _ _ _) eqn:E; [|done]; intros X; injection X as -> <- <-.
  all: pose proof (Hk _ _ E) as Hmp; cbn in Hmp.
  all: rewrite ?Hc, ?Hf by tauto; by rewrite E.
Qed.

(** ** Look-up and replacement *)

Lemma ref_walk_valid pt ttb xscale va mp desc d :
  ref_walk pt ttb xscale va = Some (mp, desc, d) -> mp <> TLB_INVALID /\ 0 <= d < 16.
Proof.
  unfold ref_walk. cbv zeta.
  assert (Hd : 0 <= (pt (ref_l1 ttb va) / 2 ^ 5) mod 2 ^ 4 < 16) by (apply Z.mod_pos_bound; lia).
  repeat (case_match; try done); intros [= <- <- <-]; split; try done.
  all: by eapply ref_page_valid.
Qed.

Lemma tlb_search_hit t va i e :
  mmu_tlb_search t va = Some (i, e) -> e ∈ entrys t /\ tlb_hit va e = true.
Proof.
  unfold mmu_tlb_search. generalize (entrys t). intros l. generalize 0%nat. revert i.
  induction l as [|a l IH]; intros i n; cbn; [done|].
  destruct (tlb_hit va a) eqn:Hh.
  - intros [= <- <-]. split; [by left|done].
  - intros Hs. destruct (IH _ _ Hs) as [? ?]. split; [by right|done].
Qed.

Lemma new_entry_agrees pt ttb xscale va mp desc d e :
  tables_replicated pt ttb xscale -> is_u32 va -> is_u32 desc ->
  ref_walk pt ttb xscale va = Some (mp, desc, d) -> entry_of mp desc d e ->
  virt_addr e = Z.land va (tlb_masks mp) -> entry_agrees pt ttb xscale e.
Proof.
  intros Hr Hv Hd Hw He Ev va' Hv' Hh. destruct He as [Em Edom Ep Eperm]. exists desc.
  destruct (ref_walk_valid _ _ _ _ _ _ _ Hw) as [Hm _].
  rewrite Em, Edom. split; [done|]. split; [|done].
  apply (same_page_walk pt ttb xscale va va'); try done. symmetry.
  apply hit_same_page; [done..|]. unfold tlb_hit in Hh. rewrite Em, Ev in Hh.
  by destruct mp.
Qed.

Lemma coherent_place m va mp desc d e :
  tlb_coherent m -> is_u32 va -> is_u32 desc -> walk_of m va = Some (mp, desc, d) ->
  entry_of mp desc d e -> virt_addr e = Z.land va (tlb_masks mp) ->
  tlb_coherent (on_mmu (fun u => set_the_tlb u (tlb_place (the_tlb u) e)) m).
Proof.
  intros Hc Hv Hd Hw He Ev. destruct Hc as [Hs Ht Hm Hr Hes]. split; cbn; try done.
  - by apply tlb_place_ok.
  - apply Forall_insert; [done|]. by apply (new_entry_agrees _ _ _ va mp desc d).
Qed.

(** What a translation gives. *)
Definition answers (w : option (tlb_mapping_t * Z * Z)) (r : Z * option tlb_entry_t) : Prop :=
  match w with
  | None => r = (PAGE_TRANSLATION_FAULT, None)
  | Some (mp, desc, d) =>
      is_u32 desc /\ exists e, r = (NO_FAULT, Some e) /\ entry_of mp desc d e
  end.

Lemma translate_spec m va :
  tlb_coherent m -> is_u32 va ->
  exists f e m', translate m va = Val (f, e, m') /\ answers (walk_of m va) (f, e)
    /\ walk_frame m m' /\ tlb_coherent m'.
Proof.
  intros Hc Hv. unfold translate.
  destruct (mmu_tlb_search (the_tlb (mmu m)) va) as [[i e]|] eqn:E.
  - destruct (tlb_search_hit _ _ _ _ E) as [Hin Hh].
    pose proof (tc_entries m Hc) as Hes. rewrite Forall_forall in Hes.
    destruct (Hes e Hin va Hv Hh) as (desc & Hd & Hw & He). fold (walk_of m va) in Hw.
    eexists _, _, _. split; [reflexivity|]. rewrite Hw. split; [|split].
    + split; [done|]. by exists e.
    + apply walk_frame_domain.
    + eapply coherent_frame; [exact Hc|apply walk_frame_domain|done].
  - destruct (walk_tables_spec m va Hc Hv) as (f & e & m1 & Hx & Hg & Hf & Ht).
    rewrite Hx. cbn [rbind]. pose proof (coherent_frame _ _ Hc Hf Ht) as Hc1.
    destruct (walk_of m va) as [[[mp desc] d]|] eqn:Hw; cbn [walk_gives] in Hg.
    + destruct Hg as (Hm & Hd & Hdom & en & [= -> ->] & He & Ev). cbv zeta.
      eexists _, _, _. split; [reflexivity|]. split; [by split; [|exists en]|].
      set (m2 := on_mmu _ m1). assert (H12 : walk_frame m1 m2) by done.
      assert (Hw1 : walk_of m1 va = Some (mp, desc, d)).
      { rewrite <- Hw. unfold walk_of. rewrite (wf_core _ _ Hf), (wf_ttb _ _ Hf).
        apply ref_walk_same; [apply Hc|apply Hf|done]. }
      pose proof (coherent_place m1 va mp desc d en Hc1 Hv Hd Hw1 He Ev) as Hc2. fold m2 in Hc2.
      split.
      * eapply walk_frame_trans; [exact Hf|]. eapply walk_frame_trans; [exact H12|].
        apply walk_frame_domain.
      * eapply coherent_frame; [exact Hc2|apply walk_frame_domain|done].
    + injection Hg as -> ->. eexists _, _, _. split; [reflexivity|]. done.
Qed.

(** ** The checks *)

Lemma entry_ap mp desc d e va :
  mp <> TLB_INVALID -> entry_of mp desc d e ->
  exists sp, subpage va (mapping e) = Val sp
    /\ Z.land (Z.shiftr (perms e) (sp * 2 + 4)) 3 = ref_ap mp desc va.
Proof.
  intros Hm [Em _ _ Ep]. rewrite Em, Ep.
  assert (Hq : forall n, 0 <= Z.land (Z.shiftr va n) 3 < 4)
    by (intros; rewrite low_two_bits; apply Z.mod_pos_bound; lia).
  assert (H4 : forall sp, 0 <= sp < 4 ->
    Z.land (Z.shiftr (Z.land desc 0xFFC) (sp * 2 + 4)) 3 = (desc / 2 ^ (4 + 2 * sp)) mod 4).
  { intros sp Hsp. rewrite two_bits by (lia || (by enum_Z sp 0 4)). do 3 f_equal. lia. }
  destruct mp; try done; cbn [subpage perm_mask ref_ap]; eexists; (split; [reflexivity|]).
  - rewrite H4 by done. by rewrite low_two_bits, Z.shiftr_div_pow2 by lia.
  - rewrite H4 by done. by rewrite low_two_bits, Z.shiftr_div_pow2 by lia.
  - by apply two_bits.
  - by apply (H4 0).
  - by apply (H4 0).
Qed.

Lemma check_perms_ref st ap read :
  0 <= ap < 4 ->
  check_perms st ap read
  = ref_allowed (c_true (Z.land (mmu_control st) CONTROL_SYSTEM))
      (c_true (Z.land (mmu_control st) CONTROL_ROM)) (is_user st) ap read.
Proof.
  intros Hap. unfold check_perms. destruct (is_user st), (c_true _), (c_true _), read;
    by enum_Z ap 0 4.
Qed.

Lemma ref_ap_range mp desc va : 0 <= ref_ap mp desc va < 4.
Proof. destruct mp; apply Z.mod_pos_bound; lia. Qed.

Lemma check_access_spec m va mp desc d e read :
  mp <> TLB_INVALID -> 0 <= d < 16 -> entry_of mp desc d e ->
  let w := env_of m in
  check_access m va e read
  = Val (match (we_dacr w / 4 ^ d) mod 4 with
         | 1 => if ref_allowed (we_s w) (we_r w) (we_user w) (ref_ap mp desc va) read
                then NO_FAULT
                else if decide (mp = TLB_SECTION) then SECTION_PERMISSION_FAULT
                     else SUBPAGE_PERMISSION_FAULT
         | 3 => NO_FAULT
         | _ => SECTION_DOMAIN_FAULT
         end, set_domain d m).
Proof.
  intros Hm Hd He w. unfold check_access. cbv zeta.
  destruct (entry_ap mp desc d e va Hm He) as (sp & -> & Hap). pose proof He as [Em Ed _ _].
  rewrite Ed. cbn [rbind]. rewrite Hap, check_perms_ref by apply ref_ap_range. rewrite Em.
  cbn [domain_access_control mmu set_domain on_mmu set_mmu set_last_domain core].
  rewrite low_two_bits, Z.shiftr_div_pow2 by lia.
  replace (2 ^ (d * 2)) with (4 ^ d) by (change 4 with (2 ^ 2); rewrite <- Z.pow_mul_r by lia; f_equal; lia).
  change (domain_access_control (mmu m)) with (we_dacr w).
  pose proof (Z.mod_pos_bound (we_dacr w / 4 ^ d) 4 ltac:(lia)) as Ha.
  set (a := (we_dacr w / 4 ^ d) mod 4) in *. clearbody a.
  enum_Z a 0 4; cbn [Z.eqb Pos.eqb orb]; try done. cbn. by repeat case_match.
Qed.

Lemma ref_access_frame m m' va read :
  tlb_coherent m -> walk_frame m m' -> is_u32 va ->
  ref_access (env_of m') va read = ref_access (env_of m) va read.
Proof.
  intros Hc [Ecore Ettb Edacr _ Hram] Hv. unfold ref_access. cbn [we_pt we_ttb we_xscale env_of].
  rewrite Ettb, Ecore, (ref_walk_same (abus m) (abus m')) by (done || apply Hc).
  cbn [we_dacr we_s we_r we_user env_of]. by rewrite Edacr, Ecore.
Qed.

End tables.
