(* ===== verification/ArmMachineTyped.v ===== *)
(** * Every step of the ARM machine keeps it well typed

    The processor stays well typed ([ArmTyped]) and the memory management unit keeps
    its arrays ([ArmMmuTyped]) under every load and store, and so under every
    instruction of the machine, with any unit that gives what [ops_ok] states. *)

From Stdlib Require Import ZArith Lia Bool.
From stdpp Require Import base numbers option list.
From S2P Require Import Prelude Words Bus ArmState ArmSupp ArmShift ArmExec Thumb.
From S2P Require Import ArmMachine ArmTlb ArmCache ArmMmu ArmMem ArmTransfer.
From S2P Require Import ArmLemmas ArmBanks ArmTyped ArmMmuTyped.

(** ** What the processor may rely on *)

Record ops_ok {B} `{BusLaws B} (ops : mmu_ops_t B) : Prop := {
  ok_read_byte m va : unit_ok m -> gives m word_result (mmu_read_byte ops m va);
  ok_read_halfword m va : unit_ok m -> gives m word_result (mmu_read_halfword ops m va);
  ok_read_word m va : unit_ok m -> gives m word_result (mmu_read_word ops m va);
  ok_load_instr m va : unit_ok m -> gives m word_result (mmu_load_instr ops m va);
  ok_write_byte m va v :
    unit_ok m -> is_u32 v -> gives m (fun _ => True) (mmu_write_byte ops m va v);
  ok_write_halfword m va v :
    unit_ok m -> is_u32 v -> gives m (fun _ => True) (mmu_write_halfword ops m va v);
  ok_write_word m va v :
    unit_ok m -> is_u32 v -> gives m (fun _ => True) (mmu_write_word ops m va v);
  ok_mcr m i v :
    unit_ok m -> holds (fun m' => unit_ok m' /\ control_frame m m') (mmu_mcr ops m i v)
}.

Lemma arm7100_ops_ok {B} `{BusLaws B} : ops_ok (B := B) arm7100_mmu_ops.
Proof.
  split; intros; cbn;
    by apply a71_mmu_read_gives || by apply a71_mmu_write_gives || by apply a71_mmu_mcr_ok.
Qed.

(** [K] links the current bank and the mode. *)
Record machine_typed {B} `{BusLaws B} (K : bank_link) (m : arm_machine B) : Prop := {
  mt_core : arm_typed_at K (core m);
  mt_unit : unit_ok m
}.

Section machine.
Context {B : Type} `{BusLaws B} (ops : mmu_ops_t B) (Hops : ops_ok ops) (K : bank_link).
Implicit Types (m : arm_machine B).

Lemma core_typed m : machine_typed K m -> arm_typed_at K (core m).
Proof. apply mt_core. Qed.
Lemma core_unit m : machine_typed K m -> unit_ok m.
Proof. apply mt_unit. Qed.
Lemma core_reg m i : machine_typed K m -> is_u32 (reg (core m) i).
Proof. intros Hm. apply td_reg, (ty_data K), core_typed, Hm. Qed.
#[local] Hint Resolve core_typed core_unit core_reg : typed.

Lemma mt_on_core m f :
  machine_typed K m -> arm_typed_at K (f (core m)) -> machine_typed K (on_core f m).
Proof. intros [Hc [Hs Hb]] Hf. by split. Qed.

Lemma mt_set_core m st : machine_typed K m -> arm_typed_at K st -> machine_typed K (set_core m st).
Proof. intros [Hc [Hs Hb]] Hf. by split. Qed.

Lemma mt_count_N m : machine_typed K m -> machine_typed K (count_N m).
Proof. intros [Hc [Hs Hb]]. by split. Qed.
Lemma mt_count_S m : machine_typed K m -> machine_typed K (count_S m).
Proof. intros [Hc [Hs Hb]]. by split. Qed.
Lemma mt_os_breakpoint m : machine_typed K m -> machine_typed K (os_breakpoint m).
Proof. intros [Hc [Hs Hb]]. split; [|by split]. cbn. auto with typed. Qed.
Lemma mt_set_fsr_far m fsr far : machine_typed K m -> machine_typed K (XScale_set_fsr_far m fsr far).
Proof. intros [Hc [[? ?] Hb]]. unfold XScale_set_fsr_far. case_match; by split. Qed.
Lemma mt_step m m' : machine_typed K m -> unit_step m m' -> machine_typed K m'.
Proof. intros [Hc _] [Hu Hf]. split; [by rewrite (fr_core _ _ Hf)|done]. Qed.

Lemma ty_abortSig st v : arm_typed_at K st -> arm_typed_at K (set_abortSig st v).
Proof. intros [Hd HB]. split; [|done]. destruct Hd. split; cbn; auto. by destruct td_shape; split. Qed.

Lemma ty_NtransSig st v : arm_typed_at K st -> arm_typed_at K (set_NtransSig st v).
Proof. intros Ht. apply (ty_same (K := K) st); auto with typed. Qed.
#[local] Hint Resolve ty_abortSig ty_NtransSig : typed.

Lemma ty_CLEARABORT st : arm_typed_at K st -> arm_typed_at K (ARMul_CLEARABORT st).
Proof. unfold ARMul_CLEARABORT. auto with typed. Qed.
Lemma ty_DATAABORT st : arm_typed_at K st -> arm_typed_at K (ARMul_DATAABORT st).
Proof. unfold ARMul_DATAABORT. auto with typed. Qed.
Lemma ABORTWORD_u32 st : is_u32 (ARMul_ABORTWORD st).
Proof. unfold ARMul_ABORTWORD. case_match; auto with typed. Qed.
#[local] Hint Resolve ty_CLEARABORT ty_DATAABORT ABORTWORD_u32 : typed.

Lemma mt_data_fault m f a : machine_typed K m -> machine_typed K (data_fault f a m).
Proof. intros [Hc [[? ?] Hb]]. split; [|by split]. cbn. auto with typed. Qed.

(** ** The memory interface *)

Definition loads (r : result (Z * arm_machine B)) : Prop :=
  holds (fun '(w, m) => is_u32 w /\ machine_typed K m) r.

Lemma loaded_typed m a r : machine_typed K m -> gives m word_result r -> loads (loaded a r).
Proof.
  intros Hm Hr. unfold loaded, loads.
  eapply holds_bind; [exact Hr|]. intros [[fault v] m'] [Hv Hs].
  pose proof (mt_step _ _ Hm Hs) as Hm'. case_match.
  - destruct v as [w|]; cbn; [|done]. split; [by apply Hv|].
    apply mt_on_core; [done|]. auto with typed.
  - cbn. split; [auto with typed|by apply mt_data_fault].
Qed.

Lemma stored_typed m a r :
  machine_typed K m -> gives m (fun _ => True) r -> holds (machine_typed K) (stored a r).
Proof.
  intros Hm Hr. unfold stored.
  eapply holds_bind; [exact Hr|]. intros [fault m'] [_ Hs].
  pose proof (mt_step _ _ Hm Hs) as Hm'. case_match; cbn.
  - apply mt_on_core; auto with typed.
  - by apply mt_data_fault.
Qed.

#[local] Hint Resolve mt_count_N mt_count_S : typed.

Lemma ReadWord_typed m a : machine_typed K m -> loads (ARMul_ReadWord ops m a).
Proof. intros Hm. eapply loaded_typed; [done|]. by apply (ok_read_word ops Hops), core_unit. Qed.
Lemma LoadWordN_typed m a : machine_typed K m -> loads (ARMul_LoadWordN ops m a).
Proof. intros. apply ReadWord_typed. auto with typed. Qed.
Lemma LoadWordS_typed m a : machine_typed K m -> loads (ARMul_LoadWordS ops m a).
Proof. intros. apply ReadWord_typed. auto with typed. Qed.
Lemma LoadHalfWord_typed m a : machine_typed K m -> loads (ARMul_LoadHalfWord ops m a).
Proof.
  intros Hm%mt_count_N. eapply loaded_typed; [done|]. by apply (ok_read_halfword ops Hops), core_unit.
Qed.
Lemma LoadByte_typed m a : machine_typed K m -> loads (ARMul_LoadByte ops m a).
Proof.
  intros Hm%mt_count_N. eapply loaded_typed; [done|]. by apply (ok_read_byte ops Hops), core_unit.
Qed.

(** A store of a word. *)
Definition stores (f : arm_machine B -> Z -> Z -> result (arm_machine B)) : Prop :=
  forall m a v, machine_typed K m -> is_u32 v -> holds (machine_typed K) (f m a v).

Lemma WriteWord_typed : stores (ARMul_WriteWord ops).
Proof.
  intros m a v Hm Hv. eapply stored_typed; [done|]. apply (ok_write_word ops Hops); [apply Hm|done].
Qed.
Lemma StoreWordN_typed : stores (ARMul_StoreWordN ops).
Proof. intros m a v Hm Hv. apply WriteWord_typed; auto with typed. Qed.
Lemma StoreWordS_typed : stores (ARMul_StoreWordS ops).
Proof. intros m a v Hm Hv. apply WriteWord_typed; auto with typed. Qed.
Lemma StoreHalfWord_typed : stores (ARMul_StoreHalfWord ops).
Proof.
  intros m a v Hm%mt_count_N Hv. eapply stored_typed; [done|].
  apply (ok_write_halfword ops Hops); [apply Hm|done].
Qed.
Lemma StoreByte_typed : stores (ARMul_StoreByte ops).
Proof.
  intros m a v Hm%mt_count_N Hv. eapply stored_typed; [done|].
  apply (ok_write_byte ops Hops); [apply Hm|done].
Qed.

Lemma SwapWord_typed m a v : machine_typed K m -> is_u32 v -> loads (ARMul_SwapWord ops m a v).
Proof.
  intros Hm Hv. unfold ARMul_SwapWord, loads.
  eapply holds_bind; [by apply ReadWord_typed, mt_count_N|]. intros [temp m1] [Ht Hm1%mt_count_N].
  eapply holds_bind; [apply (ok_write_word ops Hops); [apply Hm1|done]|].
  intros [x m2] [_ Hs]. split; [done|by eapply mt_step].
Qed.
Lemma SwapByte_typed m a v : machine_typed K m -> is_u32 v -> loads (ARMul_SwapByte ops m a v).
Proof.
  intros Hm Hv. unfold ARMul_SwapByte, loads.
  eapply holds_bind; [by apply LoadByte_typed|]. intros [temp m1] [Ht Hm1].
  eapply holds_bind; [by apply StoreByte_typed|]. done.
Qed.

(** ** One register *)

Lemma ty_BUSUSEDINCPCS st : arm_typed_at K st -> arm_typed_at K (BUSUSEDINCPCS st).
Proof. unfold BUSUSEDINCPCS. intros. case_match; auto with typed. Qed.
Lemma ty_BUSUSEDINCPCN st : arm_typed_at K st -> arm_typed_at K (BUSUSEDINCPCN st).
Proof. unfold BUSUSEDINCPCN. intros. case_match; auto with typed. Qed.
Lemma ty_WRITEDESTB st instr d : arm_typed_at K st -> is_u32 d -> arm_typed_at K (WRITEDESTB st instr d).
Proof. unfold WRITEDESTB. intros. case_match; auto with typed. Qed.
#[local] Hint Resolve ty_BUSUSEDINCPCS ty_BUSUSEDINCPCN ty_WRITEDESTB : typed.

Lemma mt_TAKEABORT m : machine_typed K m -> machine_typed K (TAKEABORT m).
Proof. intros Hm. apply mt_on_core; auto with typed. Qed.
Lemma mt_icycles n m : machine_typed K m -> machine_typed K (icycles n m).
Proof. intros Hm. apply mt_on_core; auto with typed. Qed.
Lemma mt_set_LSBase m instr v : machine_typed K m -> is_u32 v -> machine_typed K (set_LSBase m instr v).
Proof. intros Hm Hv. apply mt_on_core; auto with typed. Qed.
Lemma mt_undef_insn m : machine_typed K m -> machine_typed K (undef_insn m).
Proof. intros Hm. apply mt_on_core; [done|]. unfold ARMul_UndefInstr. auto with typed. Qed.
#[local] Hint Resolve mt_TAKEABORT mt_icycles mt_set_LSBase mt_undef_insn : typed.
#[local] Hint Extern 2 (machine_typed _ (on_core _ _)) => apply mt_on_core : typed.

Lemma Align_u32 a d : is_u32 d -> holds is_u32 (ARMul_Align a d).
Proof.
  intros Hd. unfold ARMul_Align. cbv zeta. case_match; cbn; [done|].
  apply lor_u32; [|auto with typed]. apply shiftr_u32; [done|].
  apply Z.shiftl_nonneg, Z.land_nonneg. lia.
Qed.

Lemma align_dest a dest : is_u32 dest ->
  holds is_u32 (if c_true (Z.land a 3) then ARMul_Align a dest else Val dest).
Proof. intros. case_match; [by apply Align_u32|done]. Qed.

(** A transfer of a register, and the two forms of addressing. *)
Definition xfer_typed (f : xfer) : Prop :=
  forall m instr a, machine_typed K m -> holds (fun '(_, m') => machine_typed K m') (f m instr a).

Lemma LoadWord_typed : xfer_typed (LoadWord ops).
Proof.
  intros m instr a Hm. unfold LoadWord. cbv zeta.
  eapply holds_bind; [apply LoadWordN_typed; auto with typed|]. intros [dest m1] [Hd Hm1].
  destruct (aborted m1); [by apply mt_TAKEABORT|].
  eapply holds_bind; [by apply align_dest|]. intros d Hd'. cbn [holds]. auto 6 with typed.
Qed.

Lemma LoadHalfWord_xfer_typed s : xfer_typed (LoadHalfWord ops s).
Proof.
  intros m instr a Hm. unfold LoadHalfWord. cbv zeta.
  eapply holds_bind; [apply LoadHalfWord_typed; auto with typed|]. intros [dest m1] [Hd Hm1].
  destruct (aborted m1); [by apply mt_TAKEABORT|]. cbn [holds]. case_match; auto 6 with typed.
Qed.

Lemma LoadByte_xfer_typed s : xfer_typed (LoadByte ops s).
Proof.
  intros m instr a Hm. unfold LoadByte. cbv zeta.
  eapply holds_bind; [apply LoadByte_typed; auto with typed|]. intros [dest m1] [Hd Hm1].
  destruct (aborted m1); [by apply mt_TAKEABORT|]. cbn [holds]. case_match; auto 6 with typed.
Qed.

Lemma store_with_typed f : stores f -> xfer_typed (store_with f).
Proof.
  intros Hf m instr a Hm. unfold store_with. cbv zeta.
  apply (holds_bind (machine_typed K)); [apply Hf; auto with typed|]. intros m1 Hm1.
  destruct (aborted m1); [by apply mt_TAKEABORT|done].
Qed.

Lemma StoreWord_typed : xfer_typed (StoreWord ops).
Proof. apply store_with_typed, StoreWordN_typed. Qed.
Lemma StoreHalfWord_xfer_typed : xfer_typed (StoreHalfWord ops).
Proof. apply store_with_typed, StoreHalfWord_typed. Qed.
Lemma StoreByte_xfer_typed : xfer_typed (StoreByte ops).
Proof. apply store_with_typed, StoreByte_typed. Qed.

Lemma half_load_typed instr : xfer_typed (half_load ops instr).
Proof.
  unfold half_load. cbv zeta.
  repeat case_match; auto using LoadHalfWord_xfer_typed, LoadByte_xfer_typed.
Qed.
#[local] Hint Resolve LoadWord_typed LoadByte_xfer_typed half_load_typed StoreWord_typed
  StoreHalfWord_xfer_typed StoreByte_xfer_typed StoreWordN_typed StoreWordS_typed : typed.

(** An offset gives a word. *)
Definition upd_typed (upd : ARMul_State -> Z -> Z) : Prop := forall st v, is_u32 (upd st v).

Lemma post_typed f early user upd m instr :
  xfer_typed f -> upd_typed upd -> machine_typed K m ->
  holds (machine_typed K) (post f early user upd m instr).
Proof.
  intros Hf Hu Hm. unfold post. cbv zeta.
  set (m1 := if user then _ else m).
  assert (Hm1 : machine_typed K m1) by (unfold m1; case_match; auto with typed). clearbody m1.
  eapply holds_bind; [by apply Hf|]. intros [r m2] Hm2.
  set (m3 := if c_true r then _ else m2).
  assert (Hm3 : machine_typed K m3)
    by (unfold m3; case_match; [apply mt_set_LSBase; [done|case_match; apply Hu]|done]).
  clearbody m3. cbn. case_match; auto with typed.
Qed.

Lemma pre_typed f wb upd m instr :
  xfer_typed f -> upd_typed upd -> machine_typed K m -> holds (machine_typed K) (pre f wb upd m instr).
Proof.
  intros Hf Hu Hm. unfold pre. cbv zeta.
  eapply holds_bind; [by apply Hf|]. intros [r m2] Hm2. cbn.
  case_match; [apply mt_set_LSBase; [done|apply Hu]|done].
Qed.

Lemma add_imm_typed instr : upd_typed (add_imm instr).
Proof. intros st v. apply u32_range. Qed.
Lemma sub_imm_typed instr : upd_typed (sub_imm instr).
Proof. intros st v. apply u32_range. Qed.
Lemma add_reg_typed instr : upd_typed (add_reg instr).
Proof. intros st v. apply u32_range. Qed.
Lemma sub_reg_typed instr : upd_typed (sub_reg instr).
Proof. intros st v. apply u32_range. Qed.
Lemma add_ls7_typed instr : upd_typed (add_ls7 instr).
Proof. intros st v. apply u32_range. Qed.
Lemma sub_ls7_typed instr : upd_typed (sub_ls7 instr).
Proof. intros st v. apply u32_range. Qed.
#[local] Hint Resolve post_typed pre_typed add_imm_typed sub_imm_typed add_reg_typed sub_reg_typed
  add_ls7_typed sub_ls7_typed : typed.

(** ** Halfwords, two registers *)

Lemma half_switch_typed k m instr : machine_typed K m -> holds (machine_typed K) (half_switch ops k m instr).
Proof.
  intros Hm. unfold half_switch.
  repeat match goal with |- holds _ (if ?b then _ else _) => destruct b end; [..|done];
    (apply post_typed || apply pre_typed); auto with typed.
Qed.

Lemma mt_double_finish m instr addr sum :
  machine_typed K m -> is_u32 addr -> is_u32 sum -> machine_typed K (double_finish m instr addr sum).
Proof. intros. unfold double_finish. case_match; [|done]. apply mt_set_LSBase; [done|by case_match]. Qed.

Lemma Load_Double_typed m instr :
  machine_typed K m -> holds (machine_typed K) (Handle_Load_Double ops m instr).
Proof.
  intros Hm. unfold Handle_Load_Double. cbv zeta.
  set (m1 := on_core BUSUSEDINCPCS m). assert (H1 : machine_typed K m1) by (unfold m1; auto with typed).
  clearbody m1. assert (Hs : is_u32 (double_sum m1 instr)) by apply u32_range.
  set (a := if BIT instr 24 then _ else _).
  assert (Ha : is_u32 a) by (unfold a; case_match; auto with typed). clearbody a.
  repeat match goal with
  | |- holds _ (if ?b then Val (undef_insn _) else _) => destruct b; [by apply mt_undef_insn|]
  end.
  eapply holds_bind; [by apply LoadWordN_typed|]. intros [v1 m2] [Hv1 Hm2].
  eapply holds_bind; [by apply LoadWordN_typed|]. intros [v2 m3] [Hv2 Hm3].
  destruct (aborted m3); [by apply mt_TAKEABORT|]. cbn [holds].
  apply mt_double_finish; auto 8 with typed.
Qed.

Lemma Store_Double_typed m instr :
  machine_typed K m -> holds (machine_typed K) (Handle_Store_Double ops m instr).
Proof.
  intros Hm. unfold Handle_Store_Double. cbv zeta.
  set (m1 := on_core BUSUSEDINCPCS m). assert (H1 : machine_typed K m1) by (unfold m1; auto with typed).
  clearbody m1. assert (Hs : is_u32 (double_sum m1 instr)) by apply u32_range.
  set (a := if BIT instr 24 then _ else _).
  assert (Ha : is_u32 a) by (unfold a; case_match; auto with typed). clearbody a.
  repeat match goal with
  | |- holds _ (if ?b then Val (undef_insn _) else _) => destruct b; [by apply mt_undef_insn|]
  end.
  apply (holds_bind (machine_typed K)); [apply StoreWordN_typed; auto with typed|]. intros m2 Hm2.
  apply (holds_bind (machine_typed K)); [apply StoreWordN_typed; auto with typed|]. intros m3 Hm3.
  destruct (aborted m3); [by apply mt_TAKEABORT|]. by apply mt_double_finish.
Qed.

Lemma td_LHS st instr : typed_data st -> is_u32 (LHS st instr).
Proof. intros. unfold LHS. case_match; auto with typed. Qed.

Lemma xscale_consecutive_typed load m instr :
  machine_typed K m -> holds (machine_typed K) (xscale_consecutive ops load m instr).
Proof.
  intros Hm. unfold xscale_consecutive. cbv zeta.
  set (t := u32 _). assert (Ht : is_u32 t) by apply u32_range. clearbody t.
  set (a := if BIT instr 24 then _ else _). clearbody a.
  case_match; [by apply mt_undef_insn|]. case_match; [by apply mt_TAKEABORT|].
  apply (holds_bind (machine_typed K)).
  - destruct load.
    + eapply holds_bind; [by apply LoadWordN_typed|]. intros [v1 m2] [Hv1 Hm2].
      eapply holds_bind; [apply LoadWordN_typed; auto with typed|]. intros [v2 m3] [Hv2 Hm3].
      cbn [holds]. auto with typed.
    + apply (holds_bind (machine_typed K)); [apply StoreWordN_typed; auto with typed|].
      intros m2 Hm2. apply StoreWordN_typed; auto with typed.
  - intros m1 Hm1. cbn [holds]. destruct (_ || _); auto with typed.
Qed.

(** ** Lists of registers *)

Lemma mt_align_abort a m : machine_typed K m -> machine_typed K (align_abort a m).
Proof. intros Hm. unfold align_abort. apply mt_on_core; [by apply mt_set_fsr_far|].
  apply ty_set_Aborted, core_typed, mt_set_fsr_far, Hm. Qed.

Lemma mt_loaded_reg ok temp dest a m :
  machine_typed K m -> is_u32 dest -> machine_typed K (loaded_reg ok temp dest a m).
Proof.
  intros Hm Hd. unfold loaded_reg. destruct ok; [auto with typed|].
  destruct (aborted m); [done|by apply mt_align_abort].
Qed.

Lemma mt_stored_reg a m : machine_typed K m -> machine_typed K (stored_reg a m).
Proof. intros Hm. unfold stored_reg. case_match; [by apply mt_align_abort|done]. Qed.

Lemma load_regs_typed n temp instr a m :
  machine_typed K m -> holds (machine_typed K) (load_regs ops n temp instr a m).
Proof.
  revert temp a m. induction n as [|n IH]; intros temp a m Hm; cbn [load_regs]; [done|].
  case_match; [|by apply IH].
  eapply holds_bind; [by apply LoadWordS_typed|]. intros [dest m1] [Hd Hm1]. cbv zeta.
  pose proof (mt_loaded_reg (no_abort m1) temp dest (u32 (a + 4)) m1 Hm1 Hd).
  case_match; [done|by apply IH].
Qed.

Lemma store_regs_typed n temp instr a m :
  machine_typed K m -> holds (machine_typed K) (store_regs ops n temp instr a m).
Proof.
  revert temp a m. induction n as [|n IH]; intros temp a m Hm; cbn [store_regs]; [done|].
  case_match; [|by apply IH].
  apply (holds_bind (machine_typed K)); [apply StoreWordS_typed; auto with typed|].
  intros m1 Hm1. cbv zeta. apply (mt_stored_reg (u32 (a + 4))) in Hm1.
  case_match; [done|by apply IH].
Qed.

Lemma first_reg_then (k : Z -> result (arm_machine B)) instr :
  (forall t, holds (machine_typed K) (k t)) -> holds (machine_typed K) (rbind (first_reg instr) k).
Proof. intros Hk. destruct (first_reg instr); cbn; done. Qed.

Lemma LoadMult_typed m instr a wb :
  machine_typed K m -> is_u32 wb -> holds (machine_typed K) (LoadMult ops m instr a wb).
Proof.
  intros Hm Hw. unfold LoadMult. cbv zeta. apply first_reg_then. intros temp.
  eapply holds_bind; [apply LoadWordN_typed; auto with typed|]. intros [dest m1] [Hd Hm1].
  apply (mt_loaded_reg (no_abort m1) temp dest a m1) in Hd; [|done].
  set (m2 := loaded_reg _ _ _ _ _) in *. clearbody m2.
  apply (holds_bind (machine_typed K)).
  - case_match; [done|]. apply (holds_bind (machine_typed K)); [by apply load_regs_typed|].
    intros m3 Hm3. cbn [holds]. destruct (_ && _); [|done]. apply mt_on_core; auto with typed.
  - intros m3 Hm3%(mt_icycles 1). cbn [holds]. destruct (aborted _); [by apply mt_TAKEABORT|].
    destruct (wb_base instr); auto with typed.
Qed.

Lemma store_list_typed m instr a :
  machine_typed K m -> holds (machine_typed K) (store_list ops m instr a).
Proof.
  intros Hm. unfold store_list. apply first_reg_then. intros temp.
  apply (holds_bind (machine_typed K)); [apply StoreWordN_typed; auto with typed|].
  intros m1 Hm1. cbv zeta. apply (mt_stored_reg a) in Hm1.
  case_match; [done|by apply store_regs_typed].
Qed.

Lemma mt_stm_takeabort m instr wb :
  machine_typed K m -> is_u32 wb -> machine_typed K (stm_takeabort m instr wb).
Proof.
  intros Hm Hw. unfold stm_takeabort. cbv zeta.
  set (m1 := if _ : bool then _ else m).
  assert (Hm1 : machine_typed K m1) by (unfold m1; destruct (_ && _); auto with typed).
  clearbody m1. destruct (aborted m1); [by apply mt_TAKEABORT|done].
Qed.

Lemma StoreMult_typed m instr a wb :
  machine_typed K m -> is_u32 wb -> holds (machine_typed K) (StoreMult ops m instr a wb).
Proof.
  intros Hm Hw. unfold StoreMult. cbv zeta.
  apply (holds_bind (machine_typed K)); [apply store_list_typed; case_match; auto with typed|].
  intros m1 Hm1. by apply mt_stm_takeabort.
Qed.
End machine.

(** ** Transfers of the user's registers *)

Section user.
Context {B : Type} `{BusLaws B} (ops : mmu_ops_t B) (Hops : ops_ok ops).
Implicit Types (m : arm_machine B) (K : bank_link).

Lemma ty_user_link st : arm_typed st -> arm_typed_at user_link st.
Proof. intros [Hd HB]. split; [done|by right]. Qed.

Lemma ty_to_user_bank st : typed_data st -> arm_typed_at user_link (to_user_bank st).
Proof.
  intros Hd. unfold to_user_bank. destruct (Z.eqb_spec (Bank st) USERBANK) as [E|E].
  - split; [done|by left].
  - destruct (td_SwitchMode st (Mode st) USER26MODE Hd) as (Hd' & HB & _).
    split; [done|]. left. by rewrite HB.
Qed.

Lemma ty_from_user_bank K st : arm_typed_at user_link st -> arm_typed_at K (from_user_bank st).
Proof.
  intros [Hd HB]. unfold from_user_bank. destruct (not_user st) eqn:E.
  - destruct (td_SwitchMode st USER26MODE (Mode st) Hd) as (Hd' & HB' & _).
    destruct (SwitchMode_frame st USER26MODE (Mode st)) as [Hs _].
    split; [done|]. rewrite HB', (sb_Mode _ _ Hs). apply linked_mode.
  - split; [done|]. unfold not_user in E. apply andb_false_iff in E.
    assert (HM : ModeToBank (Mode st) = USERBANK).
    { destruct E as [E|E]; apply negb_false_iff, Z.eqb_eq in E; by rewrite E. }
    replace (Bank st) with (ModeToBank (Mode st)) by (destruct HB; congruence).
    apply linked_mode.
Qed.

Lemma mt_weaken m : machine_typed mode_link m -> machine_typed user_link m.
Proof. intros [Hc Hu]. split; [by apply ty_user_link|done]. Qed.

Lemma mt_to_user_bank m K : machine_typed K m -> machine_typed user_link (on_core to_user_bank m).
Proof.
  intros [Hc [Hs Hb]]. split; [|by split]. apply ty_to_user_bank. by apply (ty_data K).
Qed.

Lemma mt_from_user_bank m K : machine_typed user_link m -> machine_typed K (on_core from_user_bank m).
Proof. intros [Hc [Hs Hb]]. split; [|by split]. by apply ty_from_user_bank. Qed.

(** What follows the loads of [LoadSMult]: the write of the base and the abort. *)
Lemma mt_lsm_base K m instr wb :
  machine_typed K m -> is_u32 wb ->
  machine_typed K
    (if aborted m then
       TAKEABORT (if wb_base instr && negb (keep_base m) then set_LSBase m instr wb else m)
     else if wb_base instr then set_LSBase m instr wb else m).
Proof.
  intros Hm Hw. pose proof (mt_set_LSBase K m instr wb Hm Hw).
  destruct (aborted m); [apply mt_TAKEABORT|]; by case_match.
Qed.

Lemma mt_lsm_return K m instr :
  machine_typed K m ->
  machine_typed K
    (if BIT instr 15 && negb (aborted m) then
      on_core (fun st =>
        let st := if not_user st then ARMul_CPSRAltered (set_Cpsr st (GETSPSR st)) else st in
        WriteR15 st (Z.land (reg st 15) PCBITS_MODE32)) m
     else m).
Proof.
  intros Hm. case_match; [|done]. apply mt_on_core; [done|]. cbv zeta.
  pose proof (core_typed K m Hm) as Hc. destruct (not_user (core m)); auto 8 with typed.
Qed.

Lemma LoadSMult_typed K m instr a wb :
  machine_typed K m -> is_u32 wb -> holds (machine_typed K) (LoadSMult ops m instr a wb).
Proof.
  intros Hm Hw. unfold LoadSMult. cbv zeta.
  set (m0 := on_core BUSUSEDINCPCS m).
  assert (H0' : machine_typed K m0) by (apply mt_on_core; [done|by apply ty_BUSUSEDINCPCS, core_typed]).
  clearbody m0.
  (* the link between the change of the bank and the change back *)
  set (K' := if BIT instr 15 then K else user_link).
  set (m1 := if BIT instr 15 then m0 else _).
  assert (H1 : machine_typed K' m1)
    by (unfold m1, K'; destruct (BIT instr 15); [done|by eapply mt_to_user_bank]).
  clearbody m1. apply first_reg_then. intros temp.
  eapply holds_bind; [by apply (LoadWordN_typed ops Hops K')|]. intros [dest m2] [Hd Hm2].
  apply (mt_loaded_reg K' (negb (c_true (abortSig (core m2)))) temp dest a m2) in Hd; [|done].
  set (m3 := loaded_reg _ _ _ _ _) in *. clearbody m3.
  apply (holds_bind (machine_typed K')).
  { case_match; [done|]. by apply load_regs_typed. }
  intros m4 Hm4. cbn [holds].
  apply (mt_lsm_base K' m4 instr wb), (mt_lsm_return K' _ instr) in Hm4; [|done].
  set (m5 := if BIT instr 15 && _ then _ else _) in *. clearbody m5.
  apply mt_icycles. unfold K' in Hm4. destruct (BIT instr 15); [done|by apply mt_from_user_bank].
Qed.

(** An abort of a store leaves the bank of the user. *)
Lemma StoreSMult_typed m instr a wb :
  machine_typed user_link m -> is_u32 wb ->
  holds (machine_typed user_link) (StoreSMult ops m instr a wb).
Proof.
  intros Hm Hw. unfold StoreSMult. cbv zeta.
  apply (holds_bind (machine_typed user_link)).
  - apply store_list_typed; [done|]. eapply mt_to_user_bank. apply mt_on_core; [done|].
    by apply ty_BUSUSEDINCPCN, core_typed.
  - intros m1 Hm1. apply mt_stm_takeabort; [|done]. case_match; [done|].
    by apply mt_from_user_bank.
Qed.
End user.

(** ** The cases *)

(** The cases of a store of the user's registers. *)
Definition user_store (k : Z) : bool := Z.land k 0xe5 =? 0x84.

Section cases.
Context {B : Type} `{BusLaws B} (ops : mmu_ops_t B) (Hops : ops_ok ops) (K : bank_link).
Implicit Types (m : arm_machine B).

Lemma ty_handle_v6_insn st instr st' :
  arm_typed_at K st -> handle_v6_insn st instr = Some st' -> arm_typed_at K st'.
Proof.
  intros Ht. unfold handle_v6_insn. cbv zeta.
  set (put := fun acc v => if BITS instr 16 19 =? 0xf then set_reg st (BITS instr 12 15) v
                           else set_reg st (BITS instr 12 15) (u32 (reg st acc + v))).
  assert (Hput : forall acc v, is_u32 v -> arm_typed_at K (put acc v))
    by (intros; unfold put; destruct (_ =? _); auto with typed).
  destruct (v6_ror instr) as [ror|]; [|done].
  set (rm := Z.shiftr (reg st (BITS instr 0 3)) ror).
  assert (H8 : is_u32 (Z.land rm 0xFF)) by by apply land_small_u32.
  assert (H16 : is_u32 (Z.land rm 0xFFFF)) by by apply land_small_u32.
  assert (Hh : forall v x, is_u32 v -> is_u32 (if c_true x then Z.lor v 0xffffff00 else v))
    by (intros; destruct (c_true x); [apply lor_u32; [done|unfold is_u32; lia]|done]).
  assert (Hb : forall v x, is_u32 v -> is_u32 (if c_true x then Z.lor v 0xffff0000 else v))
    by (intros; destruct (c_true x); [apply lor_u32; [done|unfold is_u32; lia]|done]).
  destruct (_ =? 0x6a); [intros E; apply (inj Some) in E as <-; exact (Hput (BITS instr 12 15) _ (Hh _ _ H8))|].
  destruct (_ =? 0x6b); [intros E; apply (inj Some) in E as <-; exact (Hput (BITS instr 16 19) _ (Hb _ _ H16))|].
  destruct (_ =? 0x6e); [intros E; apply (inj Some) in E as <-; exact (Hput (BITS instr 16 19) _ H8)|].
  destruct (_ =? 0x6f); [intros E; apply (inj Some) in E as <-; exact (Hput (BITS instr 16 19) _ H16)|done].
Qed.

Lemma mt_undef_or_v6 hook m instr : machine_typed K m -> machine_typed K (undef_or_v6 hook m instr).
Proof.
  intros Hm. unfold undef_or_v6. destruct (_ && _); [|by apply mt_undef_insn].
  destruct (handle_v6_insn (core m) instr) as [st|] eqn:E; [|by apply mt_undef_insn].
  apply mt_set_core; [done|]. eapply ty_handle_v6_insn; [by apply core_typed|done].
Qed.

Lemma mt_bkpt_7f m instr : machine_typed K m -> machine_typed K (bkpt_7f m instr).
Proof. intros. unfold bkpt_7f. case_match; [by apply mt_os_breakpoint|by apply mt_undef_insn]. Qed.

Lemma LSBase_u32 m instr : machine_typed K m -> is_u32 (LSBase m instr).
Proof. intros. by apply (core_reg K). Qed.

Lemma if_v6_typed (b hook : bool) m instr r :
  machine_typed K m -> holds (machine_typed K) r ->
  holds (machine_typed K) (if b then Val (undef_or_v6 hook m instr) else r).
Proof. intros. destruct b; [by apply mt_undef_or_v6|done]. Qed.

Lemma LoadByteU_typed : xfer_typed K (LoadByteU ops).
Proof. by apply LoadByte_xfer_typed. Qed.

Lemma StoreSMult_case m instr a wb :
  K = user_link -> machine_typed K m -> is_u32 wb ->
  holds (machine_typed K) (StoreSMult ops m instr a wb).
Proof. intros ->. by apply StoreSMult_typed. Qed.

(** Case by case. *)
Ltac xfer_case :=
  match goal with |- holds _ ?r => let c := get_head r in unfold c; cbv zeta end;
  try (apply if_v6_typed; [done|]);
  first [ apply post_typed | apply pre_typed | apply LoadMult_typed | apply LoadSMult_typed
        | apply StoreMult_typed | apply StoreSMult_case ];
  auto using u32_range, is_u32_0, LSBase_u32, LoadWord_typed, LoadByteU_typed, StoreWord_typed,
    StoreByte_xfer_typed, add_imm_typed, sub_imm_typed, add_reg_typed, sub_reg_typed.

Lemma xfer_switch_typed k m instr :
  (user_store k = true -> K = user_link) -> machine_typed K m ->
  holds (machine_typed K) (xfer_switch ops k m instr).
Proof.
  intros Hk Hm. unfold xfer_switch.
  repeat match goal with
  | |- holds _ (if k =? ?n then _ else _) => destruct (Z.eqb_spec k n) as [->|_]; [try xfer_case|]
  end; [|done].
  unfold xfer_7f. destruct (BIT instr 4); [by apply mt_bkpt_7f|].
  apply pre_typed; [by apply LoadByteU_typed|apply add_reg_typed|done].
Qed.

(** ** The swaps and the switch *)

Lemma mt_swap_abort m : machine_typed K m -> machine_typed K (swap_abort m).
Proof. intros. unfold swap_abort. destruct (_ || _); [by apply mt_TAKEABORT|done]. Qed.

Lemma mt_BUSUSEDINCPCS m : machine_typed K m -> machine_typed K (on_core BUSUSEDINCPCS m).
Proof. intros Hm. apply mt_on_core; [done|]. by apply ty_BUSUSEDINCPCS, core_typed. Qed.

Lemma mt_set_reg m i v : machine_typed K m -> is_u32 v -> machine_typed K (on_core (fun st => set_reg st i v) m).
Proof. intros Hm Hv. apply mt_on_core; [done|]. apply ty_set_reg; [by apply core_typed|done]. Qed.

Lemma swp_word_typed m instr : machine_typed K m -> holds (machine_typed K) (swp_word ops m instr).
Proof.
  intros Hm%mt_BUSUSEDINCPCS. unfold swp_word. cbv zeta.
  eapply holds_bind; [apply SwapWord_typed; [done..|by apply (core_reg K)]|].
  intros [dest m1] [Hd Hm1].
  eapply holds_bind; [by apply align_dest|]. intros d Hd'. by apply mt_swap_abort, mt_set_reg.
Qed.

Lemma swp_byte_typed m instr : machine_typed K m -> holds (machine_typed K) (swp_byte ops m instr).
Proof.
  intros Hm%mt_BUSUSEDINCPCS. unfold swp_byte. cbv zeta.
  eapply holds_bind; [apply SwapByte_typed; [done..|by apply (core_reg K)]|].
  intros [dest m1] [Hd Hm1]. by apply mt_swap_abort, mt_set_reg.
Qed.

Lemma misc_switch_typed k m instr :
  machine_typed K m -> holds (machine_typed K) (misc_switch ops k m instr).
Proof.
  intros Hm. unfold misc_switch. cbv zeta.
  repeat match goal with |- holds _ (if ?b then ?x else ?y) => destruct b eqn:?
  end; try (by apply half_switch_typed); try (by apply Load_Double_typed);
    try (by apply Store_Double_typed); try (by apply swp_word_typed); try (by apply swp_byte_typed).
  unfold bkpt. cbn [holds]. apply mt_on_core; [by apply mt_os_breakpoint|].
  apply ty_set_NextInstr, (core_typed K). by apply mt_os_breakpoint.
Qed.

Definition mstep_typed (s : @mstep B) : Prop :=
  match s with Some r => holds (machine_typed K) r | None => True end.

Lemma on_processor m (s : step) :
  machine_typed K m -> step_typed_at K s ->
  mstep_typed (match s with Some r => Some (let! st := r in Val (set_core m st)) | None => None end).
Proof.
  intros Hm Hs. destruct s as [[st| | |]|]; cbn in *; try done. by apply mt_set_core.
Qed.

Lemma machine_switch_typed m instr pc :
  (user_store (BITS instr 20 27) = true -> K = user_link) -> machine_typed K m ->
  mstep_typed (machine_switch ops m instr pc).
Proof.
  intros Hk Hm. unfold machine_switch. cbv zeta.
  case_match; [by apply xscale_consecutive_typed|].
  pose proof (on_processor m (mainswitch (core m) instr pc) Hm) as Hp.
  specialize (Hp (ty_mainswitch (core m) instr pc (core_typed K m Hm))).
  destruct (mainswitch (core m) instr pc); [done|]. clear Hp.
  case_match; [by apply misc_switch_typed|]. case_match; [by apply xfer_switch_typed|].
  case_match; [|done]. cbn. unfold swi_prefetch. apply mt_on_core; [by apply mt_set_fsr_far|].
  apply ty_Abort; [apply (core_typed K), mt_set_fsr_far, Hm|by vm_compute].
Qed.

Lemma machine_execute_typed m instr pc :
  (user_store (BITS instr 20 27) = true -> K = user_link) -> machine_typed K m ->
  mstep_typed (machine_execute ops m instr pc).
Proof.
  intros Hk Hm. unfold machine_execute, machine_nv. cbv zeta.
  case_match; [|by case_match; [apply machine_switch_typed|]].
  case_match; [by apply machine_switch_typed|]. apply on_processor; [done|].
  unfold arm_nv, arm_blx1, ARMul_UndefInstr. pose proof (core_typed K m Hm).
  cbv zeta. ty_ifs. by apply ty_mainswitch.
Qed.
End cases.

(** ** Any step *)

(** The word an ARM or Thumb instruction executes as. *)
Definition executed_word {B} (m : arm_machine B) (instr pc : Z) : Z :=
  if c_true (TFlag (core m)) then (ARMul_ThumbDecode (core m) pc instr).1.2 else instr.

Section step.
Context {B : Type} `{BusLaws B} (ops : mmu_ops_t B) (Hops : ops_ok ops).

Lemma machine_step_keeps K m instr pc :
  (user_store (BITS (executed_word m instr pc) 20 27) = true -> K = user_link) ->
  machine_typed K m -> mstep_typed K (machine_step ops m instr pc).
Proof.
  unfold executed_word, machine_step. intros Hk Hm. pose proof (core_typed K m Hm) as Hc.
  destruct (c_true (TFlag (core m))); [|by apply machine_execute_typed].
  pose proof (ty_ThumbDecode (core m) pc instr Hc) as Hd.
  destruct (ARMul_ThumbDecode (core m) pc instr) as [[d new] st]. cbn [fst snd] in *.
  destruct d.
  - apply mt_set_core; [done|]. unfold ARMul_UndefInstr. auto with typed.
  - apply machine_execute_typed; [done..|]. by apply mt_set_core.
  - by apply mt_set_core.
Qed.

(** C8: Whatever the word and in both instruction sets, an instruction of the machine
    that completes, loads, stores, swaps and aborts included, leaves every array of the
    processor, the translation buffer and the cache with its length and its cursor inside
    it, every register and cached word a 32-bit word, every flag 0 or 1 and the mode
    within 5 bits; the current bank is that of the mode or the user's, and that of the
    mode again after every instruction but a store of the user's registers, whose abort
    leaves the user's. *)
Theorem machine_step_typed m instr pc m' :
  machine_step ops m instr pc = Some (Val m') ->
  (machine_typed user_link m -> machine_typed user_link m')
  /\ (machine_typed mode_link m -> user_store (BITS (executed_word m instr pc) 20 27) = false ->
      machine_typed mode_link m').
Proof.
  intros Hx. split; intros Hm.
  - pose proof (machine_step_keeps user_link m instr pc ltac:(done) Hm) as Hs. by rewrite Hx in Hs.
  - intros Hu. pose proof (machine_step_keeps mode_link m instr pc) as Hs. rewrite Hx in Hs.
    apply Hs; [by rewrite Hu|done].
Qed.
End step.
