(* ===== verification/ArmRunTyped.v ===== *)
(** * Any run of the ARM emulator keeps its state well typed

    The processor and the memory management unit ([ArmMachineTyped]), the registers of the
    co-processors, the pipeline and the event list, under every iteration of the loop of
    [ARMul_Emulate32]: co-processor instructions, fetches, events and exceptions
    included. *)

From Stdlib Require Import ZArith Lia Bool.
From stdpp Require Import base numbers option list.
From S2P Require Import Prelude Words Bus ArmState ArmSupp ArmShift ArmExec Thumb.
From S2P Require Import ArmMachine ArmTlb ArmCache ArmMmu ArmMem ArmTransfer ArmCopro ArmRun.
From S2P Require Import ArmLemmas ArmBanks ArmTyped ArmMmuTyped ArmMachineTyped.

(** ** The invariant *)

Record sys_typed {B} `{BusLaws B} (s : arm_sys B) : Prop := {
  sy_proc : machine_typed user_link (proc s);
  sy_val_len : length (ValReg s) = 16%nat;
  sy_val : Forall is_u32 (ValReg s);
  sy_Base : is_u32 (Base s);
  sy_Acc : 0 <= Accumulator s < 2 ^ 64;
  sy_events : length (EventPtr s) = 1024%nat;
  sy_set : is_u32 (EventSet s);
  sy_Now : is_u32 (Now s)
}.

Definition pipe_typed (p : pipe) : Prop := is_u32 (decoded p) /\ is_u32 (loaded p) /\ is_u32 (ppc p).

(** A wait that is over satisfies [P] when it has a value. *)
Definition wholds {A} (P : A -> Prop) (w : wait A) : Prop :=
  match w with Some r => holds P r | None => True end.

Lemma wholds_bind {A C} (P : A -> Prop) (Q : C -> Prop) w (k : A -> wait C) :
  wholds P w -> (forall a, P a -> wholds Q (k a)) -> wholds Q (wbind w k).
Proof. destruct w as [[a| | |]|]; cbn; auto. Qed.

(** A field that no clause of the invariant mentions. *)
Ltac ty_field :=
  let Hd := fresh in
  intros [Hd ?]; split; [destruct Hd as [[]]; split; [split|..]; cbn; assumption|assumption].

Section typed.
Context {B : Type} `{BusLaws B}.
Implicit Types (s : arm_sys B).

Lemma sy_core s : sys_typed s -> arm_typed_at user_link (st_of s).
Proof. intros Hs. apply (core_typed user_link), Hs. Qed.
Lemma sy_reg s i : sys_typed s -> is_u32 (reg (st_of s) i).
Proof. intros Hs. apply (core_reg user_link), Hs. Qed.

Lemma sy_set_proc s m : sys_typed s -> machine_typed user_link m -> sys_typed (set_proc s m).
Proof. intros [] ?. by split. Qed.
Lemma sy_on_st s f : sys_typed s -> arm_typed_at user_link (f (st_of s)) -> sys_typed (on_st f s).
Proof. intros Hs Hf. apply sy_set_proc; [done|]. apply mt_on_core; [apply Hs|done]. Qed.
Lemma sy_Val s i v : sys_typed s -> is_u32 v -> sys_typed (set_ValReg s (updZ (ValReg s) i v)).
Proof. intros [] ?. split; cbn; try done; [by rewrite length_updZ|by apply updZ_Forall]. Qed.
Lemma sy_val_reg s i : sys_typed s -> is_u32 (nthZ (ValReg s) i).
Proof. intros Hs. apply (nthZ_Forall is_u32); [done|apply Hs]. Qed.
Lemma sy_set_Base s v : sys_typed s -> is_u32 v -> sys_typed (set_Base s v).
Proof. intros [] ?. by split. Qed.
Lemma sy_accumulate s v : sys_typed s -> sys_typed (set_Accumulator s (u64 v)).
Proof. intros []. split; try done. cbn. unfold u64. apply Z.mod_pos_bound. lia. Qed.

Lemma ty_set_NfiqSig st v : arm_typed_at user_link st -> arm_typed_at user_link (set_NfiqSig st v).
Proof. ty_field. Qed.
Lemma ty_set_NirqSig st v : arm_typed_at user_link st -> arm_typed_at user_link (set_NirqSig st v).
Proof. ty_field. Qed.
Lemma ty_set_isize st v : arm_typed_at user_link st -> arm_typed_at user_link (set_isize st v).
Proof. ty_field. Qed.
Lemma ty_set_control st v : arm_typed_at user_link st -> arm_typed_at user_link (set_control st v).
Proof. ty_field. Qed.
End typed.
Create HintDb run.
#[export] Hint Resolve sy_core sy_reg sy_set_proc sy_on_st sy_Val sy_val_reg sy_set_Base
  sy_accumulate ty_set_NfiqSig ty_set_NirqSig ty_set_isize ty_set_control : run.

Section run.
Context {B : Type} `{BusLaws B} (ops : mmu_ops_t B) (Hops : ops_ok ops).
Implicit Types (s : arm_sys B).

(** ** Time and events *)

Lemma sy_event s e : sys_typed s -> sys_typed (on_st (event_func e) s).
Proof. intros Hs. apply sy_on_st; [done|]. destruct e;
    [by apply ty_set_NfiqSig, sy_core|by apply ty_set_NirqSig, sy_core].
Qed.

Lemma sy_set_EventSet s v : sys_typed s -> is_u32 v -> sys_typed (set_EventSet s v).
Proof. intros [] ?. by split. Qed.

Lemma sy_envoke_slot s i : sys_typed s -> sys_typed (envoke_slot i s).
Proof.
  intros Hs. unfold envoke_slot. generalize (default [] (EventPtr s !! i)). intros l.
  assert (Hl : forall l s, sys_typed s -> sys_typed (foldl (fun s e =>
    set_EventSet (on_st (event_func e) s) (u32 (EventSet s - 1))) s l)).
  { clear. induction l as [|e l IH]; intros s Hs; cbn; [done|]. apply IH.
    apply sy_set_EventSet; [by apply sy_event|apply u32_range]. }
  specialize (Hl l s Hs). set (s' := foldl _ _ _) in *. clearbody s'. destruct Hl. split; cbn; try done. by rewrite length_insert.
Qed.

Lemma sy_EnvokeList s from to : sys_typed s -> sys_typed (EnvokeList s from to).
Proof.
  unfold EnvokeList. generalize (seqZ from (to - from + 1)). intros l. revert s.
  induction l as [|i l IH]; intros s Hs; cbn; [done|]. by apply IH, sy_envoke_slot.
Qed.

Lemma sy_set_Now s v : sys_typed s -> is_u32 v -> sys_typed (set_Now s v).
Proof. intros [] ?. by split. Qed.

Lemma sy_EnvokeEvent s : sys_typed s -> sys_typed (ARMul_EnvokeEvent s).
Proof.
  intros Hs. unfold ARMul_EnvokeEvent. cbv zeta.
  assert (Hn : is_u32 (ARMul_Time s mod EVENTLISTSIZE)).
  { pose proof (Z.mod_pos_bound (ARMul_Time s) EVENTLISTSIZE ltac:(done)) as Hb.
    change EVENTLISTSIZE with 1024 in *. unfold is_u32. lia. }
  repeat case_match; auto using sy_EnvokeList, sy_set_Now.
Qed.

Lemma sy_ScheduleEvent s delay e : sys_typed s -> sys_typed (ARMul_ScheduleEvent s delay e).
Proof.
  intros Hs. unfold ARMul_ScheduleEvent. cbv zeta.
  set (s1 := if EventSet s =? 0 then _ else s).
  assert (H1 : sys_typed s1)
    by (unfold s1; case_match; [apply sy_set_Now; [done|apply u32_range]|done]).
  clearbody s1. destruct H1. split; cbn; try done; [by rewrite length_alter|apply u32_range].
Qed.

(** ** Co-processors *)

Definition keeps (r : result (Z * arm_sys B)) : Prop := holds (fun '(_, s) => sys_typed s) r.
Definition keeps_out (r : result (Z * option Z * arm_sys B)) : Prop :=
  holds (fun '(_, out, s) => (forall v, out = Some v -> is_u32 v) /\ sys_typed s) r.

Record cps_ok (cps : cp_ops (B := B)) : Prop := {
  co_LDC n ty i d s : sys_typed s -> is_u32 d -> keeps (cp_LDC cps n ty i d s);
  co_STC n ty i s : sys_typed s -> keeps_out (cp_STC cps n ty i s);
  co_MRC n ty i s : sys_typed s -> keeps_out (cp_MRC cps n ty i s);
  co_MCR n ty i d s : sys_typed s -> is_u32 d -> keeps (cp_MCR cps n ty i d s);
  co_CDP n ty i s : sys_typed s -> keeps (cp_CDP cps n ty i s)
}.

Lemma Time_u32 s : is_u32 (ARMul_Time s).
Proof. apply u32_range. Qed.

Lemma ValLDC_keeps ty i d s : sys_typed s -> is_u32 d -> keeps (ValLDC ty i d s).
Proof.
  intros Hs Hd. unfold ValLDC. case_match; [destruct Hs; by split|]. cbv zeta.
  pose proof (sy_Val s (BITS i 12 15) d Hs Hd) as Hv. case_match; [destruct Hv; by split|done].
Qed.

Lemma ValSTC_keeps ty i s : sys_typed s -> keeps_out (ValSTC ty i s).
Proof.
  intros Hs. unfold ValSTC. case_match; [split; [done|destruct Hs; by split]|]. cbv zeta.
  pose proof (sy_val_reg s (BITS i 12 15) Hs) as Hv.
  case_match; cbn; (split; [by intros ? [= <-]|]); [destruct Hs; by split|done].
Qed.

Lemma ValCDP_keeps ty i s : sys_typed s -> keeps (ValCDP ty i s).
Proof. intros Hs. unfold ValCDP. repeat case_match; try done; destruct Hs; by split. Qed.

Lemma IntCDP_keeps ty i s : sys_typed s -> keeps (IntCDP ty i s).
Proof.
  intros Hs. unfold IntCDP. cbv zeta.
  assert (Hw : forall e v, is_u32 v -> sys_typed
    (if nthZ (ValReg s) (BITS i 0 3) =? 0 then on_st (fun st => ARMul_Abort st v) s
     else ARMul_ScheduleEvent s (nthZ (ValReg s) (BITS i 0 3)) e)).
  { intros e v Hv. case_match; [|by apply sy_ScheduleEvent].
    apply sy_on_st; [done|]. by apply ty_Abort, Hv; apply sy_core. }
  repeat match goal with |- keeps (if ?b then _ else _) => destruct b end;
    unfold keeps; cbn [holds]; try (by apply Hw); try (by destruct Hs; split).
  - apply sy_on_st; [done|]. by apply ty_set_NfiqSig, sy_core.
  - apply sy_on_st; [done|]. by apply ty_set_NirqSig, sy_core.
  - apply sy_Val; [done|apply Time_u32].
Qed.

Lemma control_frame_typed m m' :
  machine_typed user_link m -> unit_ok m' -> control_frame m m' -> machine_typed user_link m'.
Proof.
  intros [Hc _] Hu Hf. split; [|done]. destruct Hf as [-> |[c ->]]; [done|by apply ty_set_control].
Qed.

Lemma std_cps_ok : cps_ok (std_cps ops).
Proof.
  split; intros n ty i; cbn [cp_LDC cp_STC cp_MRC cp_MCR cp_CDP std_cps].
  - intros d s Hs Hd. case_match; [by apply ValLDC_keeps|done].
  - intros s Hs. case_match; [by apply ValSTC_keeps|done].
  - intros s Hs. case_match; [|case_match]; cbn; (split; [|done]); intros v; [| |done].
    + intros [= <-]. by apply sy_val_reg.
    + intros [= <-]. apply u32_range.
  - intros d s Hs Hd. case_match; [by apply sy_Val|]. case_match; [|done].
    unfold keeps, MMUMCR. eapply holds_bind; [apply (ok_mcr ops Hops), (core_unit user_link), Hs|].
    intros m [Hu Hf]. apply sy_set_proc; [done|]. eapply control_frame_typed; [apply Hs|done..].
  - intros s Hs. case_match; [by apply ValCDP_keeps|]. case_match; [by apply IntCDP_keeps|done].
Qed.

(** ** Co-processor instructions *)

Section instructions.
Context (cps : cp_ops (B := B)) (Hcps : cps_ok cps).

Lemma sy_Icycles s n : sys_typed s -> sys_typed (on_st (fun st => ARMul_Icycles st n) s).
Proof. intros Hs. apply sy_on_st; [done|]. by apply ty_Icycles, sy_core. Qed.

Lemma sy_Abort s v : sys_typed s -> is_u32 v -> sys_typed (on_st (fun st => ARMul_Abort st v) s).
Proof. intros Hs Hv. apply sy_on_st; [done|]. apply ty_Abort; [by apply sy_core|done]. Qed.

Lemma sy_IntPending s :
  sys_typed s -> arm_typed_at user_link (IntPending (st_of s)).2.
Proof.
  intros Hs. pose proof (sy_core s Hs) as Hc. unfold IntPending.
  repeat (case_match; cbn [snd]; [apply ty_Abort; [done|by vm_compute]|]). done.
Qed.

Lemma sy_undef s : sys_typed s -> sys_typed (cp_undef s).
Proof. intros Hs. by apply (sy_Abort s ARMul_UndefinedInstrV). Qed.

Lemma sy_takeabort s : sys_typed s -> sys_typed (takeabort s).
Proof.
  intros Hs. apply sy_on_st; [done|]. apply ty_Abort; [by apply sy_core|by case_match].
Qed.

Lemma sy_CPTAKEABORT s : sys_typed s -> sys_typed (CPTAKEABORT s).
Proof.
  intros Hs. unfold CPTAKEABORT.
  case_match; [by apply (sy_Abort s ARMul_UndefinedInstrV)|by apply sy_takeabort].
Qed.

Lemma sy_INTERNALABORT s a : sys_typed s -> sys_typed (INTERNALABORT a s).
Proof. intros Hs. apply sy_on_st; [done|]. by apply ty_set_Aborted, sy_core. Qed.

Lemma sy_Ccycles s n : sys_typed s -> sys_typed (ARMul_Ccycles s n).
Proof.
  intros Hs. unfold ARMul_Ccycles.
  assert (H1 : sys_typed (set_NumCcycles s (u32 (NumCcycles s + n)))) by (destruct Hs; by split).
  apply sy_on_st; [done|]. apply ty_abortSig, (sy_core _ H1).
Qed.

Lemma sy_BUSUSEDINCPCN s : sys_typed s -> sys_typed (on_st BUSUSEDINCPCN s).
Proof. intros Hs. apply sy_on_st; [done|]. by apply ty_BUSUSEDINCPCN, sy_core. Qed.

Lemma sy_set_reg s i v : sys_typed s -> is_u32 v -> sys_typed (on_st (fun st => set_reg st i v) s).
Proof. intros Hs Hv. apply sy_on_st; [done|]. apply ty_set_reg; [by apply sy_core|done]. Qed.

Lemma sy_NextInstr s f :
  sys_typed s -> sys_typed (on_st (fun st => set_NextInstr st (f st)) s).
Proof. intros Hs. apply sy_on_st; [done|]. by apply ty_set_NextInstr, sy_core. Qed.

#[local] Hint Resolve sy_Icycles sy_Abort sy_undef sy_takeabort sy_CPTAKEABORT sy_INTERNALABORT
  sy_Ccycles sy_BUSUSEDINCPCN sy_set_reg sy_NextInstr u32_range : run.

(** A call, whatever [call] does with its pointer. *)
Definition call_keeps (call : Z -> arm_sys B -> result (Z * option Z * arm_sys B)) : Prop :=
  forall ty s, sys_typed s -> keeps_out (call ty s).

Definition out_u32 (out : option Z) : Prop := forall v, out = Some v -> is_u32 v.

Lemma busy_wait_typed fuel call : call_keeps call -> forall cpab out s,
  out_u32 out -> sys_typed s ->
  wholds (fun '(r, s) => (forall c o, r = Some (c, o) -> out_u32 o) /\ sys_typed s)
    (busy_wait fuel call cpab out s).
Proof.
  intros Hcall. induction fuel as [|fuel IH]; intros cpab out s Ho Hs; cbn [busy_wait].
  { case_match; [|done]. split; [by intros c o [= <- <-]|done]. }
  case_match; [split; [by intros c o [= <- <-]|done]|]. cbv zeta.
  pose proof (sy_Icycles s 1 Hs) as Hy1. set (s1 := on_st _ s) in *. clearbody s1.
  pose proof (sy_IntPending s1 Hy1) as Hy2. destruct (IntPending (st_of s1)) as [pending st].
  cbn [snd] in Hy2. assert (Hy3 : sys_typed (on_st (fun _ => st) s1)) by (by apply sy_on_st).
  destruct pending.
  - eapply (wholds_bind (fun '(_, s) => sys_typed s)).
    + eapply holds_impl; [|by apply Hcall]. intros [[c o] s'] [_ Hs']. exact Hs'.
    + intros [[c o] s'] Hs'. by split.
  - eapply (wholds_bind (fun '(_, o, s) => out_u32 o /\ sys_typed s)); [by apply Hcall|].
    intros [[c o] s'] [Ho' Hs']. apply IH; [|done]. unfold stored_last. by destruct o.
Qed.

Lemma cp_call_typed fuel call s k :
  call_keeps call -> sys_typed s ->
  (forall r s', (forall c o, r = Some (c, o) -> out_u32 o) -> sys_typed s' ->
     wholds sys_typed (k r s')) ->
  wholds sys_typed (cp_call fuel call s k).
Proof.
  intros Hcall Hs Hk. unfold cp_call.
  eapply (wholds_bind (fun '(_, o, s) => out_u32 o /\ sys_typed s)); [by apply Hcall|].
  intros [[c o] s'] [Ho Hs']. eapply wholds_bind; [by apply busy_wait_typed|].
  intros [r s2] [Hr Hs2]. by apply Hk.
Qed.

Lemma no_out_keeps f : (forall ty s, sys_typed s -> keeps (f ty s)) -> call_keeps (no_out f).
Proof.
  intros Hf ty s Hs. unfold no_out. eapply holds_bind; [by apply Hf|]. intros [c s'] Hs'.
  by split.
Qed.

Lemma cp_load_typed s a :
  sys_typed s -> holds (fun '(d, s) => is_u32 d /\ sys_typed s) (cp_load ops s a).
Proof.
  intros Hs. unfold cp_load. eapply holds_bind; [apply (LoadWordN_typed ops Hops user_link), Hs|].
  intros [d m] [Hd Hm]. split; [done|by apply sy_set_proc].
Qed.

Lemma cp_store_typed s a d : sys_typed s -> is_u32 d -> holds sys_typed (cp_store ops s a d).
Proof.
  intros Hs Hd. unfold cp_store.
  eapply holds_bind; [apply (StoreWordN_typed ops Hops user_link); [apply Hs|done]|].
  intros m Hm. by apply sy_set_proc.
Qed.

Lemma cp_finish_typed instr s : sys_typed s -> sys_typed (cp_finish instr s).
Proof.
  intros Hs. unfold cp_finish. cbv zeta.
  set (s1 := if BIT instr 21 && _ then _ else s).
  assert (H1 : sys_typed s1) by (unfold s1; case_match; [apply sy_set_reg; [done|apply Hs]|done]).
  case_match; auto with run.
Qed.

Lemma ldc_words_typed instr : forall fuel cpab a s,
  sys_typed s -> wholds sys_typed (ldc_words_loop ops cps fuel instr cpab a s).
Proof.
  induction fuel as [|fuel IH]; intros cpab a s Hs; cbn [ldc_words_loop]; [by case_match|].
  case_match; [done|]. cbv zeta.
  eapply (wholds_bind (fun '(d, s) => is_u32 d /\ sys_typed s)); [by apply cp_load_typed|].
  intros [d s1] [Hd Hs1]. destruct (abort_seen s1); [done|].
  eapply (wholds_bind (fun '(_, s) => sys_typed s)); [by apply (co_LDC _ Hcps)|].
  intros [c s2] Hs2. by apply IH.
Qed.

Lemma ARMul_LDC_typed fuel s instr a :
  sys_typed s -> wholds sys_typed (ARMul_LDC ops cps fuel s instr a).
Proof.
  intros Hs. unfold ARMul_LDC. case_match; [cbn [wholds holds]; auto with run|]. cbv zeta.
  apply cp_call_typed; [|by case_match; auto with run|].
  - apply no_out_keeps. intros ty s' Hs'. apply (co_LDC _ Hcps); [done|]. apply is_u32_0.
  - intros [[c o]|] s1 _ Hs1; [|done]. case_match; [cbn [wholds holds]; auto with run|]. unfold ldc_transfer.
    eapply (wholds_bind (fun '(_, s) => sys_typed s));
      [apply (co_LDC _ Hcps); [done|apply is_u32_0]|]. intros [c2 s2] Hs2.
    eapply (wholds_bind (fun '(d, s) => is_u32 d /\ sys_typed s)); [by apply cp_load_typed|].
    intros [d s3] [Hd Hs3]. eapply (wholds_bind sys_typed).
    + destruct (abort_seen s3); [done|]. cbv zeta.
      eapply (wholds_bind (fun '(_, s) => sys_typed s));
        [apply (co_LDC _ Hcps); auto with run|]. intros [c4 s4] Hs4. by apply ldc_words_typed.
    + intros s5 Hs5. cbn [wholds holds]. by apply cp_finish_typed.
Qed.

Lemma stc_data_typed instr data s :
  out_u32 data -> sys_typed s ->
  holds (fun '(_, d, s) => out_u32 d /\ sys_typed s) (stc_data cps instr data s).
Proof.
  intros Hd Hs. unfold stc_data. eapply holds_bind; [by apply (co_STC _ Hcps)|].
  intros [[c d] s'] [Hd' Hs']. split; [|done]. unfold stored_last. by destruct d.
Qed.

Lemma stc_store_typed s a data :
  out_u32 data -> sys_typed s -> holds sys_typed (stc_store ops s a data).
Proof. intros Hd Hs. destruct data as [d|]; [|done]. apply cp_store_typed; auto. Qed.

Lemma stc_words_typed instr : forall fuel cpab a data s,
  out_u32 data -> sys_typed s ->
  wholds sys_typed (stc_words_loop ops cps fuel instr cpab a data s).
Proof.
  induction fuel as [|fuel IH]; intros cpab a data s Hd Hs; cbn [stc_words_loop]; [by case_match|].
  case_match; [done|]. cbv zeta.
  eapply (wholds_bind (fun '(_, d, s) => out_u32 d /\ sys_typed s)); [by apply stc_data_typed|].
  intros [[c d] s1] [Hd1 Hs1]. eapply (wholds_bind sys_typed); [by apply stc_store_typed|].
  intros s2 Hs2. destruct (abort_seen s2); [done|]. by apply IH.
Qed.

Lemma ARMul_STC_typed fuel s instr a :
  sys_typed s -> wholds sys_typed (ARMul_STC ops cps fuel s instr a).
Proof.
  intros Hs. unfold ARMul_STC. case_match; [cbn [wholds holds]; auto with run|]. cbv zeta.
  apply cp_call_typed; [|by case_match; auto with run|].
  - intros ty s' Hs'. by apply (co_STC _ Hcps).
  - intros [[c o]|] s1 Ho Hs1; [|done]. case_match; [cbn [wholds holds]; auto with run|].
    specialize (Ho c o eq_refl). unfold stc_transfer. cbv zeta.
    eapply (wholds_bind (fun '(_, d, s) => out_u32 d /\ sys_typed s)).
    { apply stc_data_typed; [done|]. apply sy_BUSUSEDINCPCN. case_match; auto with run. }
    intros [[c2 d] s2] [Hd Hs2]. eapply (wholds_bind sys_typed); [by apply stc_store_typed|].
    intros s3 Hs3. eapply (wholds_bind sys_typed).
    + destruct (abort_seen s3); [done|]. by apply stc_words_typed.
    + intros s5 Hs5. cbn [wholds holds]. by apply cp_finish_typed.
Qed.

Lemma ARMul_MCR_typed fuel s instr v :
  sys_typed s -> is_u32 v -> wholds sys_typed (ARMul_MCR cps fuel s instr v).
Proof.
  intros Hs Hv. unfold ARMul_MCR. case_match; [cbn [wholds holds]; auto with run|].
  apply cp_call_typed; [|done|].
  - apply no_out_keeps. intros ty s' Hs'. apply (co_MCR _ Hcps); [done|].
    case_match; [apply is_u32_0|done].
  - intros [[c o]|] s1 _ Hs1; [|done]. cbn [wholds holds].
    case_match; [by apply (sy_Abort s1 ARMul_UndefinedInstrV)|auto with run].
Qed.

Lemma ECC_u32 st : arm_typed_at user_link st -> is_u32 (ECC st).
Proof.
  intros [[]]. unfold ECC.
  destruct td_N as [-> | ->], td_Z as [-> | ->], td_C as [-> | ->], td_V as [-> | ->],
    td_S as [-> | ->]; by vm_compute.
Qed.

Lemma ARMul_MRC_typed fuel s instr k :
  sys_typed s -> (forall v s, is_u32 v -> sys_typed s -> sys_typed (k v s)) ->
  wholds sys_typed (ARMul_MRC cps fuel s instr k).
Proof.
  intros Hs Hk. unfold ARMul_MRC.
  case_match; [cbn [wholds holds]; apply Hk; [apply is_u32_0|auto with run]|].
  apply cp_call_typed; [|done|].
  - intros ty s' Hs'. by apply (co_MRC _ Hcps).
  - intros [[c o]|] s1 Ho Hs1; [|by cbn [wholds holds]; apply Hk; [apply is_u32_0|]].
    cbn [wholds holds]. case_match.
    + pose proof (sy_Abort s1 ARMul_UndefinedInstrV Hs1 ltac:(by vm_compute)) as Ha.
      apply Hk; [apply ECC_u32, sy_core, Ha|exact Ha].
    + apply Hk; [|auto with run]. destruct o as [v|]; cbn; [by apply (Ho c (Some v))|apply is_u32_0].
Qed.

Lemma ARMul_CDP_typed fuel s instr : sys_typed s -> wholds sys_typed (ARMul_CDP cps fuel s instr).
Proof.
  intros Hs. unfold ARMul_CDP. case_match; [cbn [wholds holds]; auto with run|].
  apply cp_call_typed; [|done|].
  - apply no_out_keeps. intros ty s' Hs'. by apply (co_CDP _ Hcps).
  - intros [[c o]|] s1 _ Hs1; [|done]. cbn [wholds holds].
    case_match; [by apply (sy_Abort s1 ARMul_UndefinedInstrV)|auto with run].
Qed.

(** ** The cases *)

Lemma cp_transfer_typed load fuel s instr k :
  sys_typed s -> wholds sys_typed (cp_transfer ops cps load fuel s instr k).
Proof.
  intros Hs. unfold cp_transfer. cbv zeta. set (s1 := if Z.testbit k 1 then _ else s).
  assert (Hs1 : sys_typed s1)
    by (unfold s1; case_match; [apply sy_set_Base; [done|apply u32_range]|done]).
  destruct load; [by apply ARMul_LDC_typed|by apply ARMul_STC_typed].
Qed.

Lemma cp_mcr_or_cdp_typed fuel s instr :
  sys_typed s -> wholds sys_typed (cp_mcr_or_cdp cps fuel s instr).
Proof.
  intros Hs. unfold cp_mcr_or_cdp. case_match; [|by apply ARMul_CDP_typed].
  apply ARMul_MCR_typed; [done|]. case_match; [apply u32_range|by apply sy_reg].
Qed.

Lemma mrc_dest_typed instr v s : is_u32 v -> sys_typed s -> sys_typed (mrc_dest instr v s).
Proof.
  intros Hv Hs. unfold mrc_dest. case_match; [|by apply sy_set_reg].
  apply sy_on_st; [done|]. cbv zeta. pose proof (sy_core s Hs).
  auto using is_flag_b2z with typed.
Qed.

Lemma cp_mrc_or_cdp_typed fuel s instr :
  sys_typed s -> wholds sys_typed (cp_mrc_or_cdp cps fuel s instr).
Proof.
  intros Hs. unfold cp_mrc_or_cdp. case_match; [|by apply ARMul_CDP_typed].
  apply ARMul_MRC_typed; [done|]. intros. by apply mrc_dest_typed.
Qed.

Lemma xscale_move_typed s instr f s' :
  sys_typed s -> (forall s, sys_typed s -> sys_typed (f s)) -> xscale_move s instr f = Some s' ->
  sys_typed s'.
Proof.
  intros Hs Hf. unfold xscale_move. case_match; [|done]. intros E. apply (inj Some) in E as <-.
  repeat case_match; auto with run.
Qed.

Lemma xscale_mra_typed instr s : sys_typed s -> sys_typed (xscale_mra instr s).
Proof.
  intros Hs. unfold xscale_mra. cbv zeta. apply sy_set_reg; [auto with run|].
  case_match; [apply u32_range|]. apply land_small_u32. by vm_compute.
Qed.

Lemma xscale_mia_typed s instr s' : sys_typed s -> xscale_mia s instr = Some s' -> sys_typed s'.
Proof.
  intros Hs. unfold xscale_mia, accumulate. cbv zeta.
  repeat case_match; try done; intros E; apply (inj Some) in E as <-; auto with run.
Qed.

Lemma cp_switch_typed fuel s instr k :
  sys_typed s -> wholds sys_typed (cp_switch ops cps fuel s instr k).
Proof.
  intros Hs. unfold cp_switch.
  case_match; [case_match eqn:E; [|by apply cp_transfer_typed]|].
  { cbn [wholds holds]. eapply xscale_move_typed; [exact Hs| |exact E]. intros s1 Hs1. by apply sy_accumulate. }
  case_match; [case_match eqn:E; [|by apply cp_transfer_typed]|].
  { cbn [wholds holds]. eapply xscale_move_typed; [exact Hs| |exact E]. apply xscale_mra_typed. }
  case_match; [by apply cp_transfer_typed|].
  case_match; [|by case_match; [apply cp_mrc_or_cdp_typed|apply cp_mcr_or_cdp_typed]].
  case_match; [cbn [wholds holds]; auto with run|].
  destruct (if c_true _ then _ else None) as [s1|] eqn:E; [|by apply cp_mcr_or_cdp_typed].
  cbn [wholds holds]. destruct (c_true _); [|done]. by eapply xscale_mia_typed.
Qed.

(** ** Fetches *)

Lemma prefetch_typed m a :
  machine_typed user_link m ->
  is_u32 (prefetch_abort a m).1 /\ machine_typed user_link (prefetch_abort a m).2.
Proof.
  intros Hm. unfold prefetch_abort, ARMul_PREFETCHABORT. cbn [fst snd].
  split; [apply ABORTWORD_u32|]. apply mt_on_core; [done|]. pose proof (core_typed _ _ Hm).
  case_match; [by apply ty_set_AbortAddr|done].
Qed.

Lemma fetch_word_gives m a : unit_ok m -> gives m word_result (fetch_word ops m a).
Proof.
  intros Hm. unfold fetch_word.
  case_match; [by apply (ok_load_instr ops Hops)|by apply (ok_read_word ops Hops)].
Qed.

Lemma clear_abort_typed m : machine_typed user_link m -> machine_typed user_link (on_core ARMul_CLEARABORT m).
Proof. intros Hm. apply mt_on_core; [done|]. by apply ty_CLEARABORT, core_typed. Qed.

Lemma ReLoadInstr_typed m a size :
  machine_typed user_link m -> loads user_link (ARMul_ReLoadInstr ops m a size).
Proof.
  intros Hm. pose proof (core_unit _ _ Hm) as Hu. unfold ARMul_ReLoadInstr, loads.
  case_match.
  - eapply holds_bind; [by apply fetch_word_gives|]. intros [[f lo] m1] [Hlo Hst].
    pose proof (mt_step _ _ _ Hm Hst) as Hm1.
    eapply (holds_bind (fun '(f, hi, m) => word_result (f, hi) /\ machine_typed user_link m)).
    { case_match; [|by split].
      eapply holds_impl; [|apply fetch_word_gives, (core_unit _ _ Hm1)]. intros [[f2 hi] m2] [Hhi Hst2].
      split; [done|by eapply mt_step]. }
    intros [[f2 hi] m2] [Hhi Hm2].
    case_match; [|by destruct (prefetch_typed m2 a Hm2); destruct (prefetch_abort a m2)].
    destruct lo as [lo|]; [|done]. destruct hi as [hi|]; [|done]. cbn [holds].
    split; [|by apply clear_abort_typed]. specialize (Hlo lo eq_refl). specialize (Hhi hi eq_refl).
    case_match; apply lor_u32; try apply u32_range; apply shiftr_u32; (done || lia).
  - eapply holds_bind; [by apply fetch_word_gives|]. intros [[f w] m1] [Hw Hst].
    pose proof (mt_step _ _ _ Hm Hst) as Hm1.
    case_match; [|by destruct (prefetch_typed m1 a Hm1); destruct (prefetch_abort a m1)].
    destruct w as [w|]; [|done]. split; [by apply Hw|by apply clear_abort_typed].
Qed.

Lemma fetch_with_typed f s a :
  (forall m a size, machine_typed user_link m -> loads user_link (f m a size)) -> sys_typed s ->
  holds (fun '(w, s) => is_u32 w /\ sys_typed s) (fetch_with f s a).
Proof.
  intros Hf Hs. unfold fetch_with. eapply holds_bind; [apply Hf, Hs|]. intros [w m] [Hw Hm].
  split; [done|by apply sy_set_proc].
Qed.

Lemma LoadInstrS_typed m a size :
  machine_typed user_link m -> loads user_link (ARMul_LoadInstrS ops m a size).
Proof. intros Hm. by apply ReLoadInstr_typed, mt_count_S. Qed.
Lemma LoadInstrN_typed m a size :
  machine_typed user_link m -> loads user_link (ARMul_LoadInstrN ops m a size).
Proof. intros Hm. by apply ReLoadInstr_typed, mt_count_N. Qed.

Definition fetched (r : result (Z * arm_sys B * pipe)) : Prop :=
  holds (fun '(w, s, p) => is_u32 w /\ sys_typed s /\ pipe_typed p) r.

Lemma advance_typed seq inced normal s p :
  sys_typed s -> pipe_typed p -> fetched (advance ops seq inced normal s p).
Proof.
  intros Hs (Hd & Hl & Hp). unfold advance, fetched. cbv zeta.
  set (s1 := if inced then s else _).
  assert (Hs1 : sys_typed s1).
  { unfold s1. destruct inced; [done|]. apply sy_on_st; [done|].
    apply ty_set_reg; [by apply sy_core|apply u32_range]. }
  eapply holds_bind; [apply fetch_with_typed; [|exact Hs1]|].
  { destruct seq; [apply LoadInstrS_typed|apply LoadInstrN_typed]. }
  intros [w s2] [Hw Hs2]. split; [done|]. split.
  - destruct normal; [|done]. by apply (sy_NextInstr s2 (fun _ => SEQ)).
  - split; [done|]. split; [done|apply u32_range].
Qed.

Lemma refill_typed resume s : sys_typed s -> fetched (refill ops resume s).
Proof.
  intros Hs. unfold refill, fetched. cbv zeta.
  assert (Hp : is_u32 (reg (st_of s) 15)) by (by apply sy_reg).
  set (s1 := on_st _ (on_st _ s)).
  assert (Hs1 : sys_typed s1).
  { unfold s1. apply sy_on_st; [auto with run|].
    apply ty_set_AbortAddr, ty_set_Aborted, sy_core. auto with run. }
  assert (Hfirst : forall (b : bool) m a size, machine_typed user_link m ->
    loads user_link ((if b then ARMul_ReLoadInstr ops else ARMul_LoadInstrN ops) m a size))
    by (intros [|]; auto using ReLoadInstr_typed, LoadInstrN_typed).
  assert (Hnext : forall (b : bool) m a size, machine_typed user_link m ->
    loads user_link ((if b then ARMul_ReLoadInstr ops else ARMul_LoadInstrS ops) m a size))
    by (intros [|]; auto using ReLoadInstr_typed, LoadInstrS_typed).
  eapply holds_bind; [apply fetch_with_typed; [apply Hfirst|exact Hs1]|]. intros [w s2] [Hw Hs2].
  eapply holds_bind; [apply fetch_with_typed; [apply Hnext|exact Hs2]|]. intros [d s3] [Hd Hs3].
  eapply holds_bind; [apply fetch_with_typed; [apply Hnext|exact Hs3]|]. intros [l s4] [Hl Hs4].
  split; [done|]. split; [by apply (sy_NextInstr s4 (fun _ => SEQ))|done].
Qed.

Lemma fetch_typed s p : sys_typed s -> pipe_typed p -> fetched (fetch ops s p).
Proof.
  intros. unfold fetch. cbv zeta.
  repeat (case_match; [by apply advance_typed|]). by apply refill_typed.
Qed.

(** ** The loop *)

Definition lift_typed (r : result (arm_machine B)) (s : arm_sys B) :
  holds (machine_typed user_link) r -> sys_typed s ->
  holds sys_typed (let! m := r in Val (set_proc s m)).
Proof. intros Hr Hs. eapply holds_bind; [exact Hr|]. intros m Hm. by apply sy_set_proc. Qed.

Lemma sys_execute_typed fuel s instr pc :
  sys_typed s -> wholds sys_typed (sys_execute ops cps fuel s instr pc).
Proof.
  intros Hs. unfold sys_execute.
  pose proof (machine_execute_typed ops Hops user_link (proc s) instr pc (fun _ => eq_refl)
                (sy_proc _ Hs)) as Hx.
  destruct (machine_execute ops (proc s) instr pc); [by apply lift_typed|by apply cp_switch_typed].
Qed.

Lemma sys_step_typed fuel s instr pc :
  sys_typed s -> wholds sys_typed (sys_step ops cps fuel s instr pc).
Proof.
  intros Hs. unfold sys_step. case_match; [|by apply sys_execute_typed].
  pose proof (ty_ThumbDecode (st_of s) pc instr (sy_core s Hs)) as Hd.
  destruct (ARMul_ThumbDecode (st_of s) pc instr) as [[d new] st]. cbn [snd] in Hd.
  assert (Hs1 : sys_typed (on_st (fun _ => st) s)) by (by apply sy_on_st).
  destruct d; [|by apply sys_execute_typed|done].
  apply sy_on_st; [done|]. by apply ty_Abort.
Qed.

(** What the machine does between two instructions keeps the invariant. *)
Record env_ok (env : run_env B) : Prop := {
  en_cycle s : sys_typed s -> holds sys_typed (mach_io_do_cycle env s);
  en_debug s : sys_typed s -> sys_typed (ARMul_Debug env s)
}.

Section loop.
Context (env : run_env B) (Henv : env_ok env).

Lemma io_do_cycle_typed s : sys_typed s -> holds sys_typed (io_do_cycle env s).
Proof.
  intros Hs. unfold io_do_cycle. cbv zeta. case_match.
  - apply (en_cycle _ Henv). destruct Hs. by split.
  - destruct Hs. by split.
Qed.

Lemma tea_break_typed pc s : sys_typed s -> sys_typed (tea_break env pc s).
Proof.
  intros Hs. unfold tea_break.
  case_match; [pose proof (en_debug _ Henv s Hs) as []|destruct Hs]; by split.
Qed.

Lemma test_emulate_typed s : sys_typed s -> sys_typed (test_emulate s).2.
Proof.
  intros Hs. unfold test_emulate. case_match; [|by case_match].
  apply sy_on_st; [done|]. by apply ty_set_Emulate, sy_core.
Qed.

Lemma emulate_body_typed fuel s p :
  sys_typed s -> pipe_typed p ->
  wholds (fun '(_, s, p) => sys_typed s /\ pipe_typed p) (emulate_body ops cps env fuel s p).
Proof.
  intros Hs Hp. unfold emulate_body. cbv zeta.
  assert (Hs1 : sys_typed (on_st (fun st => set_isize st (INSN_SIZE st)) s))
    by (apply sy_on_st; [done|]; by apply ty_set_isize, sy_core).
  eapply (wholds_bind (fun '(w, s, p) => is_u32 w /\ sys_typed s /\ pipe_typed p));
    [by apply fetch_typed|]. intros [[w s2] p2] (Hw & Hs2 & Hp2).
  set (s3 := if EventSet s2 =? 0 then s2 else _).
  assert (Hs3 : sys_typed s3) by (unfold s3; case_match; [done|by apply sy_EnvokeEvent]).
  clearbody s3. destruct (pending_vector (st_of s3)) as [v|] eqn:E.
  { split; [|done]. apply sy_Abort; [done|]. unfold pending_vector in E.
    repeat case_match; try done; by injection E as <-; vm_compute. }
  case_match; [split; [by apply (sy_NextInstr s3 (fun _ => RESUME))|done]|].
  eapply (wholds_bind sys_typed); [by apply io_do_cycle_typed|]. intros s4 Hs4.
  eapply (wholds_bind sys_typed).
  { apply sys_step_typed. destruct Hs4. by split. }
  intros s5 Hs5. pose proof (tea_break_typed (ppc p2) s5 Hs5) as Hs6.
  pose proof (test_emulate_typed _ Hs6) as Hs7. destruct (test_emulate _) as [f s7]. by split.
Qed.

Lemma emulate_loop_typed fuel : forall n s p,
  sys_typed s -> pipe_typed p ->
  wholds (fun '(s, p) => sys_typed s /\ pipe_typed p) (emulate_loop ops cps env n fuel s p).
Proof.
  induction n as [|n IH]; intros s p Hs Hp; cbn [emulate_loop]; [done|].
  eapply (wholds_bind (fun '(_, s, p) => sys_typed s /\ pipe_typed p));
    [by apply emulate_body_typed|]. intros [[f s1] p1] [Hs1 Hp1]. destruct f; [done|by apply IH].
Qed.

End loop.
End instructions.
End run.
