(* ===== verification/ArmCoproProps.v ===== *)
(** * Co-processor waits end

    The loops of the co-processor instructions, on ARMul_BUSY and on ARMul_INC, with the
    handlers that [ARMul_CoProInit] installs: a wait lasts at most as many cycles as the
    register of the validation co-processor says, a long transfer has five words. *)

From Stdlib Require Import ZArith Lia Bool.
From stdpp Require Import base numbers option list.
From S2P Require Import Prelude Words Bus ArmState ArmSupp ArmShift ArmExec.
From S2P Require Import ArmMachine ArmTlb ArmCache ArmMmu ArmMem ArmTransfer ArmCopro.

Section waits.
Context {B : Type} `{Bus B} (ops : mmu_ops_t B).
Implicit Types (s : arm_sys B).

Definition ends {A} (w : wait A) : Prop := exists r, w = Some r.

Lemma ends_bind {A C} (w : wait A) (k : A -> wait C) :
  ends w -> (forall a, w = Some (Val a) -> ends (k a)) -> ends (wbind w k).
Proof. intros [[a| | |] ->] Hk; cbn; [by apply Hk|by eexists..]. Qed.

Lemma ends_val {A} (r : result A) : ends (Some r).
Proof. by eexists. Qed.

(** ** Waiting for a time *)

Definition tick (s : arm_sys B) : arm_sys B := on_st (fun st => ARMul_Icycles st 1) s.

Lemma Time_tick s : ARMul_Time (tick s) = u32 (ARMul_Time s + 1).
Proof.
  unfold ARMul_Time, tick. cbn. unfold u32. rewrite Zplus_mod_idemp_l.
  set (N := 4294967296). set (i := NumIcycles (st_of s)).
  set (a := NumScycles (proc s) + NumNcycles (proc s) + NumCcycles s + NumFcycles s).
  transitivity ((a + (i + 1) mod N) mod N); [f_equal; lia|].
  rewrite Zplus_mod_idemp_r. f_equal. lia.
Qed.

Lemma Time_range s : 0 <= ARMul_Time s < 4294967296.
Proof. apply u32_range. Qed.

Lemma Val_inj2 {X Y} (a a' : X) (b b' : Y) : Val (a, b) = Val (a', b') -> a = a' /\ b = b'.
Proof. intros E. by injection E. Qed.

(** A handler that is done at a time it keeps. *)
Definition timer (fin : arm_sys B -> Z)
    (call : Z -> arm_sys B -> result (Z * option Z * arm_sys B)) : Prop :=
  (forall s, call ARMul_BUSY s
     = Val (if fin s <=? ARMul_Time s then ARMul_DONE else ARMul_BUSY, None, s))
  /\ (forall s f, fin (on_st f s) = fin s).

Lemma busy_step fin call fuel out s :
  timer fin call ->
  (fin s <= ARMul_Time (tick s) \/ forall out s', ARMul_Time s' = ARMul_Time (tick s) ->
     fin s' = fin s -> ends (busy_wait fuel call ARMul_BUSY out s')) ->
  ends (busy_wait (S fuel) call ARMul_BUSY out s).
Proof.
  intros [Hcall Hfin] Hk. cbn [busy_wait]. fold (tick s).
  change (negb (ARMul_BUSY =? ARMul_BUSY)) with false. cbv iota.
  destruct (IntPending (st_of (tick s))) as [pending st] eqn:E. destruct pending.
  - apply ends_bind; [apply ends_val|]. intros [[c o] s'] _. apply ends_val.
  - assert (Est : st = st_of (tick s)).
    { unfold IntPending in E. repeat case_match; congruence. }
    subst st. set (s1 := on_st _ (tick s)). rewrite Hcall. cbn [wbind].
    change (ARMul_Time s1) with (ARMul_Time (tick s)).
    assert (Ef : fin s1 = fin s) by (unfold s1, tick; by rewrite !Hfin). rewrite Ef.
    destruct (Z.leb_spec (fin s) (ARMul_Time (tick s))).
    + destruct fuel; cbn [busy_wait]; apply ends_val.
    + destruct Hk as [?|Hk]; [lia|]. by apply Hk.
Qed.

Lemma busy_until fin call : timer fin call -> forall fuel out s,
  0 <= fin s < 4294967296 -> ARMul_Time s < fin s -> fin s - ARMul_Time s <= Z.of_nat fuel ->
  ends (busy_wait fuel call ARMul_BUSY out s).
Proof.
  intros Ht. induction fuel as [|fuel IH]; intros out s Hf Hlt Hle; [lia|].
  pose proof (Time_range s). pose proof (Time_tick s) as E. rewrite u32_id in E by (unfold is_u32; lia).
  eapply busy_step; [exact Ht|]. destruct (Z.le_gt_cases (fin s) (ARMul_Time (tick s))); [by left|].
  right. intros out' s' Et Ef. apply IH; lia.
Qed.

(** A wait of [h] cycles from now ends, after at most [h] of them, although the time may
    wrap around. *)
Lemma busy_ends fin call fuel out s h :
  timer fin call -> 0 < h < 4294967296 -> fin s = u32 (ARMul_Time s + h) ->
  h <= Z.of_nat fuel -> ends (busy_wait fuel call ARMul_BUSY out s).
Proof.
  intros Ht Hh Hf Hle. pose proof (Time_range s) as Hr.
  destruct (Z.lt_ge_cases (ARMul_Time s + h) 4294967296) as [Hs|Hw].
  - rewrite u32_id in Hf by (unfold is_u32; lia). apply (busy_until fin); try done; lia.
  - assert (Hf' : fin s = ARMul_Time s + h - 4294967296).
    { rewrite Hf. unfold u32. symmetry. apply (Z.mod_unique_pos _ _ 1); lia. }
    destruct fuel as [|fuel]; [lia|]. eapply busy_step; [exact Ht|]. rewrite Time_tick.
    destruct (Z.eq_dec (ARMul_Time s) 4294967295) as [E|E].
    + rewrite E. change (u32 (4294967295 + 1)) with 0.
      destruct (Z.eq_dec (fin s) 0) as [H0|H0]; [left; lia|right]. intros out' s' Et Ef.
      apply (busy_until fin); try done; lia.
    + left. rewrite u32_id by (unfold is_u32; lia). lia.
Qed.

(** ** The handlers *)

Lemma Val_inj3 {X Y W} (a a' : X) (b b' : Y) (c c' : W) :
  Val (a, b, c) = Val (a', b', c') -> a = a' /\ b = b' /\ c = c'.
Proof. intros E. by injection E. Qed.

Definition no_wait (call : Z -> arm_sys B -> result (Z * option Z * arm_sys B)) : Prop :=
  forall s c o s', call ARMul_FIRST s = Val (c, o, s') -> c <> ARMul_BUSY.

Lemma cp_call_ends fuel call s k :
  (forall c o s', call ARMul_FIRST s = Val (c, o, s') -> ends (busy_wait fuel call c o s')) ->
  (forall r s', ends (k r s')) -> ends (cp_call fuel call s k).
Proof.
  intros Hw Hk. unfold cp_call. apply ends_bind; [apply ends_val|]. intros [[c o] s'] E.
  injection E as E. apply ends_bind; [by apply Hw|]. intros [r s2] _. apply Hk.
Qed.

Lemma not_busy_ends fuel call c o s : c <> ARMul_BUSY -> ends (busy_wait fuel call c o s).
Proof.
  intros Hc. destruct fuel; cbn [busy_wait]; rewrite (proj2 (Z.eqb_neq _ _) Hc); apply ends_val.
Qed.

(** The longest wait the registers of the validation co-processor ask for. *)
Definition longest_wait (s : arm_sys B) : Z := foldr Z.max 0 (ValReg s).

Lemma longest_wait_reg s i : nthZ (ValReg s) i <= longest_wait s.
Proof.
  unfold longest_wait, nthZ. case_match; [|induction (ValReg s); cbn; lia].
  generalize (Z.to_nat i). induction (ValReg s) as [|v l IH]; intros [|n]; cbn; try lia.
  specialize (IH n). lia.
Qed.

Section std.
Context (s : arm_sys B) (fuel : nat) (Hval : Forall is_u32 (ValReg s))
  (Hfuel : longest_wait s + 5 <= Z.of_nat fuel).

Lemma val_u32 i : is_u32 (nthZ (ValReg s) i).
Proof. by apply (nthZ_Forall is_u32). Qed.

(** The answer to the first call of a CDP. *)
Lemma ValCDP_ends instr c o s' :
  no_out (fun ty => ValCDP ty instr) ARMul_FIRST s = Val (c, o, s') ->
  ends (busy_wait fuel (no_out (fun ty => ValCDP ty instr)) c o s').
Proof.
  intros Hx. pose proof (val_u32 (BITS instr 0 3)) as Hu.
  pose proof (longest_wait_reg s (BITS instr 0 3)) as Hl.
  unfold no_out in Hx. unfold ValCDP in Hx. destruct (BITS instr 20 23 =? 0) eqn:Ek; cbn [negb rbind Z.eqb ARMul_FIRST] in Hx;
    apply Val_inj3 in Hx as (<- & <- & <-); [|by apply not_busy_ends].
  case_match eqn:Eh; [by apply not_busy_ends|].
  apply Z.eqb_neq in Eh.
  apply (busy_ends val_finish _ _ _ _ (nthZ (ValReg s) (BITS instr 0 3)));
    [|unfold is_u32 in Hu; lia|done|lia].
  split; [|done]. intros s1. unfold no_out, ValCDP. rewrite Ek. cbn. by case_match.
Qed.

Lemma IntCDP_ends instr c o s' :
  no_out (fun ty => IntCDP ty instr) ARMul_FIRST s = Val (c, o, s') ->
  ends (busy_wait fuel (no_out (fun ty => IntCDP ty instr)) c o s').
Proof.
  intros Hx. pose proof (val_u32 (BITS instr 0 3)) as Hu.
  pose proof (longest_wait_reg s (BITS instr 0 3)) as Hl.
  unfold no_out in Hx. unfold IntCDP in Hx. cbv zeta in Hx. destruct (BITS instr 20 23 =? 0) eqn:Ek.
  - cbn [rbind Z.eqb ARMul_FIRST] in Hx. apply Val_inj3 in Hx as (<- & <- & <-). case_match eqn:Eh; [by apply not_busy_ends|].
    apply Z.eqb_neq in Eh.
    apply (busy_ends int_finish _ _ _ _ (nthZ (ValReg s) (BITS instr 0 3)));
      [|unfold is_u32 in Hu; lia|done|lia].
    split; [|done]. intros s1. unfold no_out, IntCDP. rewrite Ek. cbn. by case_match.
  - revert Hx. repeat case_match; intros Hx; cbn [rbind] in Hx;
      apply Val_inj3 in Hx as (<- & <- & <-); by apply not_busy_ends.
Qed.

Lemma ARMul_CDP_ends instr : ends (ARMul_CDP (std_cps ops) fuel s instr).
Proof.
  unfold ARMul_CDP. case_match; [apply ends_val|]. apply cp_call_ends.
  - cbn [cp_CDP std_cps]. destruct (CPNum instr =? 4); [apply ValCDP_ends|].
    destruct (CPNum instr =? 5); [apply IntCDP_ends|].
    intros c o s' [= <- <- <-]. by apply not_busy_ends.
  - intros [[c o]|] s'; apply ends_val.
Qed.

Lemma ARMul_MCR_ends instr v : ends (ARMul_MCR (std_cps ops) fuel s instr v).
Proof.
  unfold ARMul_MCR. case_match; [apply ends_val|]. apply cp_call_ends.
  - intros c o s' Hx. apply not_busy_ends. revert Hx.
    unfold no_out, mcr_call. change (ARMul_FIRST =? ARMul_INTERRUPT) with false.
    cbn [cp_MCR std_cps]. unfold ValMCR, MMUMCR, NoCoPro4R.
    case_match; [cbn [rbind]; intros Hx; by apply Val_inj3 in Hx as (<- & _)|].
    case_match; [|cbn [rbind]; intros Hx; by apply Val_inj3 in Hx as (<- & _)].
    destruct (mmu_mcr ops (proc s) instr v); try done. cbn [rbind]. intros Hx.
    by apply Val_inj3 in Hx as (<- & _).
  - intros [[c o]|] s'; apply ends_val.
Qed.

Lemma ARMul_MRC_ends instr k : ends (ARMul_MRC (std_cps ops) fuel s instr k).
Proof.
  unfold ARMul_MRC. case_match; [apply ends_val|]. apply cp_call_ends.
  - intros c o s' Hx. apply not_busy_ends. revert Hx.
    cbn [cp_MRC std_cps]. unfold ValMRC, MMUMRC, NoCoPro4W.
    repeat case_match; intros Hx; by apply Val_inj3 in Hx as (<- & _).
  - intros [[c o]|] s'; apply ends_val.
Qed.

Lemma LDC_first_ends instr c o s1 s' :
  no_out (fun ty => cp_LDC (std_cps ops) (CPNum instr) ty instr 0) ARMul_FIRST s1 = Val (c, o, s') ->
  ends (busy_wait fuel (no_out (fun ty => cp_LDC (std_cps ops) (CPNum instr) ty instr 0)) c o s').
Proof.
  intros Hx. apply not_busy_ends. revert Hx. unfold no_out. cbn [cp_LDC std_cps].
  case_match; cbn [rbind ValLDC NoCoPro4R ARMul_FIRST ARMul_DATA Z.eqb negb]; intros Hx;
    by apply Val_inj3 in Hx as (<- & _).
Qed.

(** The words of a long transfer that are left when [words] is [w]. *)
Lemma ldc_loop_ends n : forall instr cpab a s1,
  cpab <> ARMul_INC \/ (1 <= ldc_words s1 <= 4 /\ 5 - ldc_words s1 <= Z.of_nat n) ->
  ends (ldc_words_loop ops (std_cps ops) n instr cpab a s1).
Proof.
  induction n as [|n IH]; intros instr cpab a s1 Hc; cbn [ldc_words_loop].
  { destruct Hc as [Hc|]; [|lia]. rewrite (proj2 (Z.eqb_neq _ _) Hc). apply ends_val. }
  destruct (Z.eqb_spec cpab ARMul_INC); [|apply ends_val]. cbn [negb].
  destruct Hc as [?|[Hw Hn]]; [done|]. cbv zeta.
  apply ends_bind; [apply ends_val|]. intros [d s2] E.
  assert (Ew : ldc_words s2 = ldc_words s1).
  { apply (inj Some) in E. unfold cp_load in E.
    destruct (ARMul_LoadWordN _ _ _) as [[d' m]| | |]; try done. by apply Val_inj2 in E as [_ <-]. }
  destruct (abort_seen s2); [apply ends_val|].
  apply ends_bind; [apply ends_val|]. intros [c s3] E3. apply IH.
  apply (inj Some) in E3. cbn [cp_LDC std_cps] in E3. case_match.
  - unfold ValLDC in E3. cbn [negb Z.eqb ARMul_DATA Pos.eqb] in E3. cbv zeta in E3.
    case_match; apply Val_inj2 in E3 as [<- <-]; [|by left].
    cbn [ldc_words set_ldc_words set_ValReg]. rewrite Ew.
    destruct (Z.eqb_spec (ldc_words s1) 4); [by left|right].
    rewrite u32_id by (unfold is_u32; lia). lia.
  - apply Val_inj2 in E3 as [<- _]. by left.
Qed.

Lemma ARMul_LDC_ends instr a s1 :
  5 <= Z.of_nat fuel -> ends (ARMul_LDC ops (std_cps ops) fuel s1 instr a).
Proof.
  intros Hf. unfold ARMul_LDC. case_match; [apply ends_val|]. cbv zeta. apply cp_call_ends.
  - intros c o s'. apply LDC_first_ends.
  - intros [[c o]|] s2; [|apply ends_val]. case_match; [apply ends_val|]. unfold ldc_transfer.
    apply ends_bind; [apply ends_val|]. intros [c3 s3] E3.
    apply ends_bind; [apply ends_val|]. intros [d s4] E4.
    apply ends_bind; [|intros; apply ends_val]. destruct (abort_seen s4); [apply ends_val|]. cbv zeta.
    apply ends_bind; [apply ends_val|]. intros [c5 s5] E5. apply ldc_loop_ends.
    apply (inj Some) in E3, E4, E5. cbn [cp_LDC std_cps] in E3, E5.
    destruct ((CPNum instr =? 4) || (CPNum instr =? 2)).
    + unfold ValLDC in E3, E5. cbn [negb Z.eqb ARMul_DATA ARMul_TRANSFER Pos.eqb] in E3, E5.
      cbv zeta in E5. apply Val_inj2 in E3 as [<- <-].
      assert (Ew : ldc_words s4 = 0).
      { unfold cp_load in E4. destruct (ARMul_LoadWordN _ _ _) as [[d' m]| | |]; try done.
        by apply Val_inj2 in E4 as [_ <-]. }
      case_match; apply Val_inj2 in E5 as [<- <-]; [|by left].
      change (ldc_words (set_ValReg _ _)) with (ldc_words s4). rewrite Ew. right.
      cbn [ldc_words set_ldc_words]. change (u32 (0 + 1)) with 1. lia.
    + apply Val_inj2 in E5 as [<- _]. by left.
Qed.

Lemma stc_loop_ends n : forall instr cpab a d s1,
  cpab <> ARMul_INC \/ (1 <= stc_words s1 <= 4 /\ 5 - stc_words s1 <= Z.of_nat n) ->
  ends (stc_words_loop ops (std_cps ops) n instr cpab a d s1).
Proof.
  induction n as [|n IH]; intros instr cpab a d s1 Hc; cbn [stc_words_loop].
  { destruct Hc as [Hc|]; [|lia]. rewrite (proj2 (Z.eqb_neq _ _) Hc). apply ends_val. }
  destruct (Z.eqb_spec cpab ARMul_INC); [|apply ends_val]. cbn [negb].
  destruct Hc as [?|[Hw Hn]]; [done|]. cbv zeta.
  apply ends_bind; [apply ends_val|]. intros [[c d2] s2] E2.
  apply ends_bind; [apply ends_val|]. intros s3 E3.
  destruct (abort_seen s3); [apply ends_val|]. apply IH.
  apply (inj Some) in E2, E3.
  assert (Ew : stc_words s3 = stc_words s2).
  { destruct d2 as [v|]; [|done]. cbn [stc_store] in E3. unfold cp_store in E3.
    destruct (ARMul_StoreWordN _ _ _ _) as [m| | |]; try done. by injection E3 as <-. }
  rewrite Ew. unfold stc_data in E2. cbn [cp_STC std_cps] in E2.
  destruct ((CPNum instr =? 4) || (CPNum instr =? 2)).
  - unfold ValSTC in E2. cbn [negb Z.eqb ARMul_DATA Pos.eqb] in E2. cbv zeta in E2.
    destruct (BIT instr 22); cbn [rbind] in E2; apply Val_inj3 in E2 as (<- & _ & <-); [|by left].
    cbn [stc_words set_stc_words].
    destruct (Z.eqb_spec (stc_words s1) 4); [by left|right].
    rewrite u32_id by (unfold is_u32; lia). lia.
  - apply Val_inj3 in E2 as (<- & _). by left.
Qed.

Lemma ARMul_STC_ends instr a s1 :
  5 <= Z.of_nat fuel -> ends (ARMul_STC ops (std_cps ops) fuel s1 instr a).
Proof.
  intros Hf. unfold ARMul_STC. case_match; [apply ends_val|]. cbv zeta.
  unfold cp_call. apply ends_bind; [apply ends_val|]. intros [[c o] s2] E2.
  apply (inj Some) in E2. cbn [cp_STC std_cps] in E2.
  assert (H2 : c <> ARMul_BUSY /\ (c = ARMul_CANT \/ stc_words s2 = 0)).
  { case_match; apply Val_inj3 in E2 as (<- & _ & <-); [split; [done|by right]|split; [done|by left]]. }
  destruct H2 as [Hc H2]. apply ends_bind; [by apply not_busy_ends|]. intros [r s3] E3.
  assert (Er : r = Some (c, o) /\ s3 = s2).
  { destruct fuel; cbn [busy_wait] in E3; rewrite (proj2 (Z.eqb_neq _ _) Hc) in E3;
      apply (inj Some), Val_inj2 in E3 as [<- <-]; done. }
  destruct Er as [-> ->]. destruct (Z.eqb_spec c ARMul_CANT); [apply ends_val|].
  destruct H2 as [?|H2]; [done|]. unfold stc_transfer. cbv zeta.
  apply ends_bind; [apply ends_val|]. intros [[c4 d4] s4] E4.
  apply ends_bind; [apply ends_val|]. intros s5 E5.
  apply ends_bind; [|intros; apply ends_val]. destruct (abort_seen s5); [apply ends_val|].
  apply stc_loop_ends. apply (inj Some) in E4, E5.
  assert (Ew : stc_words s5 = stc_words s4).
  { destruct d4 as [v|]; [|done]. cbn [stc_store] in E5. unfold cp_store in E5.
    destruct (ARMul_StoreWordN _ _ _ _) as [m| | |]; try done. by injection E5 as <-. }
  rewrite Ew. unfold stc_data in E4. cbn [cp_STC std_cps] in E4. set (s3 := on_st _ _) in *.
  assert (E3' : stc_words s3 = 0) by (unfold s3; destruct (ADDREXCEPT s2 a || VECTORACCESS s2 a); exact H2).
  clearbody s3.
  destruct ((CPNum instr =? 4) || (CPNum instr =? 2)).
  - unfold ValSTC in E4. cbn [negb Z.eqb ARMul_DATA Pos.eqb] in E4. cbv zeta in E4.
    destruct (BIT instr 22); cbn [rbind] in E4; apply Val_inj3 in E4 as (<- & _ & <-); [|by left].
    rewrite E3'. right.
    cbn [stc_words set_stc_words]. change (u32 (0 + 1)) with 1. lia.
  - apply Val_inj3 in E4 as (<- & _). by left.
Qed.

(** C10: Every co-processor instruction ends, with the handlers [ARMul_CoProInit] installs:
    a busy wait lasts no longer than the largest wait a register of the validation
    co-processor asks for, although the cycle counter it compares with may wrap around or
    an interrupt may cut it short, and a long transfer stops after five words; one more
    iteration than both is enough fuel. *)
Theorem cp_instructions_terminate instr k : ends (cp_switch ops (std_cps ops) fuel s instr k).
Proof.
  assert (Hf : 5 <= Z.of_nat fuel).
  { pose proof (longest_wait_reg s (-1)) as Hl. change (nthZ (ValReg s) (-1)) with 0 in Hl. lia. }
  assert (Ht : forall b, ends (cp_transfer ops (std_cps ops) b fuel s instr k))
    by (intros [|]; [by apply ARMul_LDC_ends|by apply ARMul_STC_ends]).
  assert (Hm : ends (cp_mcr_or_cdp (std_cps ops) fuel s instr))
    by (unfold cp_mcr_or_cdp; case_match; [apply ARMul_MCR_ends|apply ARMul_CDP_ends]).
  unfold cp_switch. repeat (case_match; try apply ends_val; try apply Ht; try apply Hm).
  unfold cp_mrc_or_cdp. case_match; [apply ARMul_MRC_ends|apply ARMul_CDP_ends].
Qed.
End std.
End waits.
