(* ===== verification/ArmTransferProps.v ===== *)
(** * Loads and stores of one register

    The sixty-four cases of the switch for LDR, STR, LDRB and STRB, written out one by one
    in the source, against one definition that decodes the bits I, P, U, B, W and L of
    the instruction ([single_transfer]). *)

From Stdlib Require Import ZArith Lia Bool.
From stdpp Require Import base numbers option list.
From S2P Require Import Prelude Words Bus ArmState ArmSupp ArmShift ArmExec Thumb.
From S2P Require Import ArmMachine ArmTlb ArmCache ArmMmu ArmMem ArmTransfer.
From S2P Require Import ArmLemmas ArmBanks ArmTyped ArmMmuTyped ArmMachineTyped.

(** ** The reference *)

(** The offset: an immediate of 12 bits or a register shifted by an immediate. *)
Definition transfer_offset (st : ARMul_State) (instr : Z) : Z :=
  if BIT instr 25 then
    let (t, n) := DecodeImmShift (BITS instr 5 6) (BITS instr 7 11) in
    fst (Shift_C (reg st (RHSReg instr)) t n (c_true (CFlag st)))
  else instr mod 2 ^ 12.

Definition transfer_base (st : ARMul_State) (instr : Z) : Z :=
  if LHSReg instr =? 15 then reg st 15 / 4 * 4 else reg st (LHSReg instr).

Definition transfer_sum (st : ARMul_State) (instr : Z) : Z :=
  let base := transfer_base st instr in
  (if BIT instr 23 then base + transfer_offset st instr
   else base - transfer_offset st instr) mod 2 ^ 32.

Section reference.
Context {B : Type} `{Bus B} (ops : mmu_ops_t B).

Definition write_back (m : arm_machine B) (instr v : Z) : arm_machine B :=
  on_core (fun st => set_reg st (LHSReg instr) v) m.

(** The boolean is whether the base may be written. *)
Definition transfer_load (m : arm_machine B) (instr addr : Z) : result (bool * arm_machine B) :=
  let byte := BIT instr 22 in
  let! (v, m) := (if byte then ARMul_LoadByte ops else ARMul_LoadWordN ops) m addr in
  if aborted m then Val (false, on_core (fun st => ARMul_Abort st ARMul_DataAbortV) m)
  else
    let put st :=
      if byte then WRITEDEST st instr v else WRITEDESTB st instr (rotr v (8 * (addr mod 4))) in
    Val (negb (DESTReg instr =? LHSReg instr), icycles 1 (on_core put m)).

Definition transfer_store (m : arm_machine B) (instr addr : Z) : result (bool * arm_machine B) :=
  let m := on_core (fun st => set_NextInstr st (Z.lor (NextInstr st) NONSEQ)) m in
  let v := reg (core m) (DESTReg instr) in
  let! m := (if BIT instr 22 then ARMul_StoreByte ops else ARMul_StoreWordN ops) m addr v in
  if aborted m then Val (false, on_core (fun st => ARMul_Abort st ARMul_DataAbortV) m)
  else Val (true, m).

(** Post-indexed without P, with write-back of the sum if post-indexed or with W; a
    post-indexed transfer with W is made with the rights of the user. *)
Definition single_transfer (m : arm_machine B) (instr : Z) : result (arm_machine B) :=
  let pre_indexed := BIT instr 24 in
  let user := negb pre_indexed && BIT instr 21 in
  let sum := transfer_sum (core m) instr in
  let addr := if pre_indexed then sum else transfer_base (core m) instr in
  let m := if user then on_core (fun st => set_NtransSig st 0) m else m in
  let! (ok, m) :=
    if BIT instr 20 then transfer_load m instr addr else transfer_store m instr addr in
  let m := if ok && (negb pre_indexed || BIT instr 21) then write_back m instr sum else m in
  Val (if user
       then on_core (fun st => set_NtransSig st (Z.b2z (c_true (Z.land (Mode st) 3)))) m else m).
End reference.

(** ** Addressing *)

Lemma land_word_align x : is_u32 x -> Z.land x 0xfffffffc = x / 4 * 4.
Proof.
  intros Hx. change 0xfffffffc with (Z.shiftl (Z.ones 30) 2).
  apply Z.bits_inj'. intros i Hi. change 4 with (2 ^ 2).
  rewrite <- Z.shiftl_mul_pow2, <- Z.shiftr_div_pow2, Z.land_spec by lia.
  destruct (Z.lt_ge_cases i 2); [rewrite !Z.shiftl_spec_low by lia; apply andb_false_r|].
  rewrite !Z.shiftl_spec, Z.shiftr_spec, Z.sub_add by lia.
  destruct (Z.lt_ge_cases i 32) as [Hl|Hl].
  - rewrite Z.ones_spec_low by lia. apply andb_true_r.
  - by rewrite testbit_above_32 by (done || lia).
Qed.

Section addressing.
Context (K : bank_link) (st : ARMul_State) (Ht : arm_typed_at K st) (instr : Z).

Lemma LHS_base : LHS st instr = transfer_base st instr.
Proof.
  unfold LHS, transfer_base. case_match; [|done]. apply land_word_align, td_reg, (ty_data K), Ht.
Qed.

(** The offset in the words of the source. *)
Definition offset_of (reg_offset : bool) : Z :=
  if reg_offset then LSRegRHS st instr else LSImmRHS instr.

Lemma offset_ref :
  BIT instr 25 && BIT instr 4 = false -> offset_of (BIT instr 25) = transfer_offset st instr.
Proof.
  unfold offset_of, transfer_offset. destruct (BIT instr 25); cbn; intros H4.
  - rewrite <- (shift_by_imm_ok (BITS instr 5 6) _ (BITS instr 7 11)).
    + unfold LSRegRHS, GetLSRegRHS. destruct (Z.eqb_spec (BITS instr 4 11) 0) as [E|]; [|done].
      rewrite BITS_spec in E by lia. rewrite !BITS_spec by lia.
      assert (E1 : (instr / 2 ^ 5) mod 2 ^ (6 - 5 + 1) = LSL) by (Z.div_mod_to_equations; unfold LSL; lia).
      assert (E2 : (instr / 2 ^ 7) mod 2 ^ (11 - 7 + 1) = 0) by (Z.div_mod_to_equations; lia).
      rewrite E1, E2. cbn. unfold shl. rewrite Z.shiftl_0_r. symmetry.
      apply u32_id, td_reg, (ty_data K), Ht.
    + apply td_reg, (ty_data K), Ht.
    + apply (BITS_range instr 7 11); lia.
    + apply (ty_data K), Ht.
  - unfold LSImmRHS. rewrite BITS_spec by lia. by rewrite Z.div_1_r.
Qed.
End addressing.

(** What the address computation looks at. *)
Definition same_operands (st st' : ARMul_State) : Prop := Reg st' = Reg st /\ CFlag st' = CFlag st.

Lemma same_operands_offset st st' instr r :
  same_operands st st' -> offset_of st' instr r = offset_of st instr r.
Proof.
  intros [Er Ec]. unfold offset_of, LSRegRHS, GetLSRegRHS, reg. by rewrite Er, Ec.
Qed.

(** The updates of the cases by the bits I and U. *)
Definition update_of (i u : bool) (instr : Z) : ARMul_State -> Z -> Z :=
  match i, u with
  | false, false => sub_imm instr
  | false, true => add_imm instr
  | true, false => sub_reg instr
  | true, true => add_reg instr
  end.

Lemma update_of_spec i u instr st lhs :
  update_of i u instr st lhs
  = u32 (if u then lhs + offset_of st instr i else lhs - offset_of st instr i).
Proof. by destruct i, u. Qed.

(** ** One access *)

Section access.
Context {B : Type} `{BusLaws B} (ops : mmu_ops_t B) (Hops : ops_ok ops) (K : bank_link).
Implicit Types (m : arm_machine B).

(** An architecture with the pipeline of version 4 whose aborts restore the base. *)
Record plain_machine m : Prop := {
  pl_typed : machine_typed K m;
  pl_v4 : is_v4 (core m) <> 0;
  pl_late : lateabtSig m = 0
}.

Definition read_of (byte : bool) : arm_machine B -> Z -> result (Z * arm_machine B) :=
  if byte then ARMul_LoadByte ops else ARMul_LoadWordN ops.
Definition write_of (byte : bool) : arm_machine B -> Z -> Z -> result (arm_machine B) :=
  if byte then ARMul_StoreByte ops else ARMul_StoreWordN ops.

Lemma read_of_spec byte m addr :
  plain_machine m ->
  holds (fun '(v, m') => is_u32 v /\ lateabtSig m' = 0) (read_of byte m addr).
Proof.
  intros [Hm _ Hl].
  assert (Hg : gives (count_N m) word_result
            ((if byte then mmu_read_byte ops else mmu_read_word ops) (count_N m) addr)).
  { pose proof (core_unit K _ (mt_count_N K m Hm)) as Hu.
    destruct byte; [by apply (ok_read_byte ops Hops)|by apply (ok_read_word ops Hops)]. }
  replace (read_of byte m addr)
    with (loaded addr ((if byte then mmu_read_byte ops else mmu_read_word ops) (count_N m) addr))
    by (by destruct byte).
  unfold loaded. eapply holds_bind; [exact Hg|]. intros [[fault v] m'] [Hv [_ Hf]].
  pose proof (fr_late _ _ Hf) as Hl'. cbn in Hl'.
  destruct (fault =? NO_FAULT).
  - destruct v as [w|]; cbn; [|done]. split; [by apply Hv|congruence].
  - cbn. split; [apply ABORTWORD_u32|congruence].
Qed.

(** A store that completes changes no register and no flag, and one that aborts says so. *)
Lemma write_of_spec byte m addr v :
  plain_machine m -> is_u32 v ->
  holds (fun m' => lateabtSig m' = 0 /\ same_operands (core m) (core m')) (write_of byte m addr v).
Proof.
  intros [Hm _ Hl] Hv.
  assert (Hg : gives (count_N m) (fun _ => True)
            ((if byte then mmu_write_byte ops else mmu_write_word ops) (count_N m) addr v)).
  { pose proof (core_unit K _ (mt_count_N K m Hm)) as Hu.
    destruct byte; [by apply (ok_write_byte ops Hops)|by apply (ok_write_word ops Hops)]. }
  replace (write_of byte m addr v)
    with (stored addr ((if byte then mmu_write_byte ops else mmu_write_word ops) (count_N m) addr v))
    by (by destruct byte).
  unfold stored. eapply holds_bind; [exact Hg|]. intros [fault m'] [_ [_ Hf]].
  pose proof (fr_late _ _ Hf) as Hl'. pose proof (fr_core _ _ Hf) as Hc. cbn in Hl', Hc.
  destruct (fault =? NO_FAULT); cbn; rewrite Hc; (split; [congruence|done]).
Qed.

Lemma align_rotr addr v :
  is_u32 v -> 0 <= addr ->
  (if c_true (Z.land addr 3) then ARMul_Align addr v else Val v) = Val (rotr v (8 * (addr mod 4))).
Proof.
  intros Hv Ha. unfold ARMul_Align. change 3 with (Z.ones 2). rewrite Z.land_ones by lia.
  change (2 ^ 2) with 4. pose proof (Z.mod_pos_bound addr 4 ltac:(lia)) as Hb.
  set (k := addr mod 4) in *. clearbody k.
  assert (Hr : 0 < 8 * k < 32 -> rotr v (8 * k) = ror v (8 * k)) by (intros; by apply rotr_ror).
  enum_Z k 0 4; [by rewrite (rotr_0 v Hv : rotr v (8 * 0) = v)|..]; rewrite Hr by lia; unfold ror;
    by rewrite Z.lor_comm.
Qed.

Lemma on_core_id m f : f (core m) = core m -> on_core f m = m.
Proof. unfold on_core, set_core. intros ->. by destruct m. Qed.

Lemma v4_INCPCS m : is_v4 (core m) <> 0 -> on_core BUSUSEDINCPCS m = m.
Proof.
  intros Hv. apply on_core_id. unfold BUSUSEDINCPCS, c_true.
  by rewrite (proj2 (Z.eqb_neq _ _) Hv).
Qed.

Definition load_of (byte : bool) : xfer := if byte then LoadByteU ops else LoadWord ops.
Definition store_of (byte : bool) : xfer := if byte then StoreByte ops else StoreWord ops.

(** The value of an [xfer] is the boolean of the reference. *)
Definition as_xfer (r : result (bool * arm_machine B)) : result (Z * arm_machine B) :=
  let! (ok, m) := r in Val (Z.b2z ok, m).

Lemma load_of_spec byte m instr addr :
  plain_machine m -> BIT instr 22 = byte -> 0 <= addr ->
  load_of byte m instr addr = as_xfer (transfer_load ops m instr addr).
Proof.
  intros Hp Hb Ha. pose proof (read_of_spec byte m addr Hp) as Hr.
  unfold transfer_load. rewrite Hb.
  destruct byte; unfold load_of, LoadByteU, LoadByte, LoadWord, read_of, as_xfer in *;
    cbn [andb]; rewrite v4_INCPCS by apply Hp.
  - destruct (ARMul_LoadByte ops m addr) as [[v m']| | |]; try done. destruct Hr as [Hv Hl].
    cbn [rbind]. destruct (aborted m'); cbn [rbind]; [|done]. by rewrite Hl.
  - destruct (ARMul_LoadWordN ops m addr) as [[v m']| | |]; try done. destruct Hr as [Hv Hl].
    cbn [rbind]. destruct (aborted m'); cbn [rbind]; [by rewrite Hl|].
    rewrite align_rotr by done. done.
Qed.

Lemma v4_INCPCN m :
  is_v4 (core m) <> 0 ->
  on_core BUSUSEDINCPCN m = on_core (fun st => set_NextInstr st (Z.lor (NextInstr st) NONSEQ)) m.
Proof.
  intros Hv. unfold on_core, BUSUSEDINCPCN, c_true. by rewrite (proj2 (Z.eqb_neq _ _) Hv).
Qed.

Lemma store_of_spec byte m instr addr :
  plain_machine m -> BIT instr 22 = byte ->
  store_of byte m instr addr = as_xfer (transfer_store ops m instr addr)
  /\ holds (fun '(ok, m') => ok = true -> same_operands (core m) (core m'))
       (transfer_store ops m instr addr).
Proof.
  intros Hp Hb. pose proof Hp as [Hm Hv Hl].
  set (m1 := on_core BUSUSEDINCPCN m).
  assert (Hp1 : plain_machine m1).
  { split; [|unfold m1, BUSUSEDINCPCN; cbn; by destruct (c_true _)|done].
    apply mt_on_core; [done|]. apply ty_BUSUSEDINCPCN, (core_typed K), Hm. }
  assert (E1 : m1 = on_core (fun st => set_NextInstr st (Z.lor (NextInstr st) NONSEQ)) m)
    by (by apply v4_INCPCN).
  assert (Hs1 : same_operands (core m) (core m1)) by (by rewrite E1).
  set (v := reg (core m1) (DESTReg instr)).
  assert (Hw : is_u32 v) by (apply (core_reg K), Hp1).
  pose proof (write_of_spec byte m1 addr v Hp1 Hw) as Hr.
  replace (store_of byte m instr addr)
    with (let! m := write_of byte m1 addr v in
          if aborted m then Val (lateabtSig m, TAKEABORT m) else Val (1, m))
    by (by destruct byte).
  unfold transfer_store. rewrite <- E1, Hb. fold v. fold (write_of byte).
  destruct (write_of byte m1 addr v) as [m2| | |]; try done. destruct Hr as [Hl2 Hs2].
  cbn [rbind]. unfold as_xfer. destruct (aborted m2); cbn [rbind holds].
  - rewrite Hl2. done.
  - split; [done|]. intros _. destruct Hs1, Hs2. split; congruence.
Qed.

(** ** The cases *)

Record transfer_bits (i p u b w l : bool) (instr : Z) : Prop := {
  tb_i : BIT instr 25 = i;
  tb_p : BIT instr 24 = p;
  tb_u : BIT instr 23 = u;
  tb_b : BIT instr 22 = b;
  tb_w : BIT instr 21 = w;
  tb_l : BIT instr 20 = l
}.

Definition access_of (l b : bool) : xfer := if l then load_of b else store_of b.
Definition access_ref (l : bool) (m : arm_machine B) (instr addr : Z) :=
  if l then transfer_load ops m instr addr else transfer_store ops m instr addr.

Lemma access_of_spec l b m instr addr :
  plain_machine m -> BIT instr 22 = b -> 0 <= addr ->
  access_of l b m instr addr = as_xfer (access_ref l m instr addr)
  /\ (l = false ->
      holds (fun '(ok, m') => ok = true -> same_operands (core m) (core m'))
        (access_ref l m instr addr)).
Proof.
  intros Hp Hb Ha. destruct l; [split; [by apply load_of_spec|done]|].
  split; [|intros _]; by apply (store_of_spec b).
Qed.

Lemma base_u32 m instr : plain_machine m -> is_u32 (transfer_base (core m) instr).
Proof.
  intros Hp. unfold transfer_base. pose proof (core_reg K m) as Hr.
  case_match; [|apply Hr, Hp]. pose proof (Hr 15 (pl_typed _ Hp)) as H15. unfold is_u32 in *.
  Z.div_mod_to_equations. lia.
Qed.

Lemma sum_spec i p u b w l m instr :
  plain_machine m -> transfer_bits i p u b w l instr -> i && BIT instr 4 = false ->
  forall st, same_operands (core m) st ->
    update_of i u instr st (LHS (core m) instr) = transfer_sum (core m) instr.
Proof.
  intros Hp [Hi _ Hu _ _ _] H4 st Hs. pose proof (core_typed K m (pl_typed _ Hp)) as Ht.
  rewrite update_of_spec, (same_operands_offset (core m) st) by done.
  rewrite (LHS_base K) by done. unfold transfer_sum. rewrite Hu.
  rewrite <- (offset_ref K (core m) Ht instr) by (by rewrite Hi). rewrite Hi.
  destruct u; apply u32_pow.
Qed.

Lemma post_spec i u b w l early m instr :
  plain_machine m -> transfer_bits i false u b w l instr -> i && BIT instr 4 = false ->
  early = true \/ i = false \/ l = false ->
  post (access_of l b) early w (update_of i u instr) m instr = single_transfer ops m instr.
Proof.
  intros Hp Hb H4 He. unfold post, single_transfer.
  rewrite (tb_p _ _ _ _ _ _ _ Hb), (tb_w _ _ _ _ _ _ _ Hb), (tb_l _ _ _ _ _ _ _ Hb).
  cbn [negb andb orb]. cbv zeta.
  pose proof (sum_spec i false u b w l m instr Hp Hb H4) as Hsum.
  rewrite (Hsum (core m)) by done.
  assert (Hbase : LHS (core m) instr = transfer_base (core m) instr)
    by (apply (LHS_base K), core_typed, Hp).
  set (m0 := if w then on_core (fun st => set_NtransSig st 0) m else m).
  assert (Hp0 : plain_machine m0).
  { destruct Hp as [Hm Hv Hl]. unfold m0. destruct w; [|done]. split; [|done..].
    apply mt_on_core; [done|]. apply ty_NtransSig, (core_typed K), Hm. }
  assert (Hs0 : same_operands (core m) (core m0)) by (unfold m0; by destruct w).
  destruct (access_of_spec l b m0 instr (LHS (core m) instr) Hp0 (tb_b _ _ _ _ _ _ _ Hb))
    as [Hx Hs]; [rewrite Hbase; apply base_u32, Hp|].
  rewrite Hx. rewrite Hbase in *. fold (access_ref l m0 instr (transfer_base (core m) instr)).
  destruct (access_ref l m0 instr _) as [[ok m1]| | |]; try done.
  unfold as_xfer. cbn [rbind]. destruct ok; [|done]. cbn [Z.b2z c_true andb].
  change (c_true 1) with true. cbv iota.
  assert (Hlate : (if early then transfer_sum (core m) instr
             else update_of i u instr (core m1) (transfer_base (core m) instr))
            = transfer_sum (core m) instr); [|by rewrite Hlate].
  destruct early; [done|]. destruct He as [?|[-> | ->]]; [done|..].
  - rewrite <- (Hsum (core m)) by done. by destruct u.
  - apply Hsum. specialize (Hs eq_refl eq_refl). destruct Hs0, Hs. split; congruence.
Qed.

Lemma pre_spec i u b w l m instr :
  plain_machine m -> transfer_bits i true u b w l instr -> i && BIT instr 4 = false ->
  pre (access_of l b) w (update_of i u instr) m instr = single_transfer ops m instr.
Proof.
  intros Hp Hb H4. unfold pre, single_transfer.
  rewrite (tb_p _ _ _ _ _ _ _ Hb), (tb_w _ _ _ _ _ _ _ Hb), (tb_l _ _ _ _ _ _ _ Hb).
  cbn [negb andb orb]. cbv zeta. rewrite (sum_spec i true u b w l m instr Hp Hb H4) by done.
  destruct (access_of_spec l b m instr (transfer_sum (core m) instr) Hp (tb_b _ _ _ _ _ _ _ Hb))
    as [Hx _]; [apply Z.mod_pos_bound; lia|].
  rewrite Hx. fold (access_ref l m instr (transfer_sum (core m) instr)).
  destruct (access_ref l m instr _) as [[ok m1]| | |]; try done. by destruct ok, w.
Qed.

Lemma switch_transfers m instr pc k :
  BITS instr 20 27 = k -> 0x40 <= k < 0xa0 ->
  machine_switch ops m instr pc = Some (xfer_switch ops k m instr).
Proof.
  intros Ek Hk. unfold machine_switch, xscale_double, mainswitch.
  assert (E : BITS instr 25 27 = k / 32).
  { rewrite <- Ek, !BITS_spec by lia. change (2 ^ (27 - 20 + 1)) with 256.
    change (2 ^ (27 - 25 + 1)) with 8. change (2 ^ 25) with (2 ^ 20 * 32).
    rewrite <- Z.div_div by lia. Z.div_mod_to_equations. lia. }
  rewrite Ek, E. rewrite (proj2 (Z.eqb_neq (k / 32) 0)) by (Z.div_mod_to_equations; lia).
  rewrite andb_false_r. cbn [andb].
  rewrite (proj2 (Z.ltb_ge k 0x40)), (proj2 (Z.ltb_ge k 0x20)) by lia.
  rewrite (proj2 (Z.leb_gt 0xa0 k)), (proj2 (Z.leb_gt 0xb0 k)), (proj2 (Z.leb_gt 0xf0 k)) by lia.
  rewrite (proj2 (Z.leb_le 0x40 k)) by lia.
  rewrite (proj2 (Z.ltb_lt k 0xa0)) by lia. by destruct (xscale_double _ _).
Qed.

(** The bits of a case, and the lemma for its way of indexing. *)
Ltac transfer_case k Hp Hb H4 :=
  let v n := eval vm_compute in (Z.testbit k n) in
  let i := v 5 in let p := v 4 in let u := v 3 in let b := v 2 in let w := v 1 in let l := v 0 in
  lazymatch p with
  | true =>
      apply (pre_spec i u b w l);
      [exact Hp|by apply Hb|by rewrite ?H4]
  | false =>
      (apply (post_spec i u b w l true) || apply (post_spec i u b w l false));
      [exact Hp|by apply Hb|by rewrite ?H4|by auto]
  end.

(** C6: Every LDR, STR, LDRB and STRB, with an immediate or a scaled register offset,
    added or subtracted, before or after the access, with or without write-back and with
    the rights of the user: the case the source has for it does what one definition that
    decodes the fields of the instruction says, with its memory access and the abort that
    leaves the base as it was, and a word from an unaligned address rotated. *)
Theorem single_transfer_reference m instr pc :
  plain_machine m -> 0x40 <= BITS instr 20 27 < 0x80 -> BIT instr 25 && BIT instr 4 = false ->
  machine_switch ops m instr pc = Some (single_transfer ops m instr).
Proof.
  intros Hp Hk H4. set (k := BITS instr 20 27) in *.
  assert (Hb : forall i p u b w l,
    Z.testbit k 5 = i -> Z.testbit k 4 = p -> Z.testbit k 3 = u -> Z.testbit k 2 = b ->
    Z.testbit k 1 = w -> Z.testbit k 0 = l -> transfer_bits i p u b w l instr).
  { intros i p u b w l. unfold k. rewrite !testbit_BITS by lia. intros. by split. }
  rewrite (switch_transfers m instr pc k) by (done || lia). f_equal.
  assert (H4' : 0x60 <= k -> BIT instr 4 = false).
  { intros Hi. destruct (BIT instr 25) eqn:E; [by destruct (BIT instr 4)|].
    unfold BIT in E. rewrite <- (field_bit instr 20 27) in E by lia. fold k in E.
    rewrite (proj2 (Z.testbit_true k (25 - 20) ltac:(lia))) in E; [done|].
    change (2 ^ (25 - 20)) with 32. Z.div_mod_to_equations. lia. }
  clearbody k. destruct (Z.lt_ge_cases k 0x60).
  - enum_Z k 64 96.
    all: lazymatch goal with |- xfer_switch _ ?k _ _ = _ => transfer_case k Hp Hb H4 end.
  - specialize (H4' ltac:(lia)). enum_Z k 96 128.
    all: lazymatch goal with |- xfer_switch _ ?k _ _ = _ =>
           cbv beta delta [xfer_switch
                   xfer_60 xfer_61 xfer_62 xfer_63 xfer_64 xfer_65 xfer_66
                   xfer_67 xfer_68 xfer_69 xfer_6a xfer_6b xfer_6c xfer_6d
                   xfer_6e xfer_6f xfer_70 xfer_71 xfer_72 xfer_73 xfer_74
                   xfer_75 xfer_76 xfer_77 xfer_78 xfer_79 xfer_7a xfer_7b
                   xfer_7c xfer_7d xfer_7e xfer_7f];
           cbv [Z.eqb Pos.eqb]; rewrite H4'; transfer_case k Hp Hb H4'
         end.
Qed.
End access.
