(* ===== verification/ArmStackProps.v ===== *)
(** * Register lists on RAM

    STM and LDM with the memory management unit off, on memory that is RAM: where each
    register of the list goes, and that a load of a list gives back what a store of the
    same list saved, as in the entry and exit of a procedure. *)

From Stdlib Require Import ZArith Lia Bool.
From stdpp Require Import base numbers option list.
From S2P Require Import Prelude Words Bus LoadStoreProps ArmState ArmSupp ArmShift ArmExec Thumb.
From S2P Require Import ArmMachine ArmTlb ArmCache ArmMmu ArmMem ArmTransfer ArmLemmas.
From S2P Require Import ArmTransferProps.

(** ** Counting the registers of a list *)

(** The number of registers of the list among the [n] from [t] on. *)
Fixpoint regs_in (instr t : Z) (n : nat) : Z :=
  match n with O => 0 | S n => Z.b2z (BIT instr t) + regs_in instr (t + 1) n end.

(** The registers of the list below [j], counted from [t]. *)
Definition rank (instr t j : Z) : Z := regs_in instr t (Z.to_nat (j - t)).

Lemma regs_in_nonneg instr t n : 0 <= regs_in instr t n <= Z.of_nat n.
Proof.
  revert t. induction n as [|n IH]; intros t; cbn [regs_in]; [lia|]. specialize (IH (t + 1)).
  destruct (BIT instr t); cbn [Z.b2z]; lia.
Qed.

Lemma rank_step instr t j : t < j -> rank instr t j = Z.b2z (BIT instr t) + rank instr (t + 1) j.
Proof.
  intros. unfold rank. replace (Z.to_nat (j - t)) with (S (Z.to_nat (j - (t + 1)))) by lia. done.
Qed.

Lemma rank_self instr t : rank instr t t = 0.
Proof. unfold rank. by rewrite Z.sub_diag. Qed.

Lemma regs_in_app instr t n k :
  regs_in instr t (n + k) = regs_in instr t n + regs_in instr (t + Z.of_nat n) k.
Proof.
  revert t. induction n as [|n IH]; intros t; cbn [regs_in Nat.add].
  - by rewrite Z.add_0_r.
  - rewrite IH. replace (t + 1 + Z.of_nat n) with (t + Z.of_nat (S n)) by lia. lia.
Qed.

Lemma rank_split instr t i j : t <= i <= j -> rank instr t j = rank instr t i + rank instr i j.
Proof.
  intros. unfold rank. replace (Z.to_nat (j - t)) with (Z.to_nat (i - t) + Z.to_nat (j - i))%nat by lia.
  rewrite regs_in_app. do 3 f_equal. lia.
Qed.

Lemma rank_nonneg instr t j : 0 <= rank instr t j.
Proof. apply regs_in_nonneg. Qed.

(** Two registers of the list have different ranks. *)
Lemma rank_lt instr t i j : t <= i < j -> BIT instr i = true -> rank instr t i < rank instr t j.
Proof.
  intros Hij Hi. rewrite (rank_split instr t i j), (rank_step instr i j), Hi by lia.
  pose proof (rank_nonneg instr (i + 1) j). cbn [Z.b2z]. lia.
Qed.

(** [BitList] counts the bits of a byte, four bytes for each. *)
Lemma bitlist_from_spec n t x c :
  0 <= t ->
  bitlist_from n (Z.shiftl 1 t) x c = c + regs_in x t n.
Proof.
  revert t c. induction n as [|n IH]; intros t c Ht; cbn [bitlist_from regs_in]; [lia|].
  rewrite Z.shiftl_shiftl by lia. rewrite IH by lia.
  assert (E : (0 <? Z.land x (Z.shiftl 1 t)) = BIT x t).
  { unfold BIT. rewrite Z.shiftl_1_l. destruct (Z.testbit x t) eqn:E.
    - apply Z.ltb_lt. assert (Z.land x (2 ^ t) = 2 ^ t) as ->; [|apply pow2_pos; lia].
      apply Z.bits_inj'. intros i Hi. rewrite Z.land_spec, Z.pow2_bits_eqb by lia.
      destruct (Z.eqb_spec t i) as [<-|]; [by rewrite E|apply andb_false_r].
    - apply Z.ltb_ge. assert (Z.land x (2 ^ t) = 0) as ->; [|lia].
      apply Z.bits_inj'. intros i Hi. rewrite Z.land_spec, Z.pow2_bits_eqb, Z.bits_0 by lia.
      destruct (Z.eqb_spec t i) as [<-|]; [by rewrite E|apply andb_false_r]. }
  rewrite E. destruct (BIT x t); cbn [Z.b2z]; lia.
Qed.

Lemma regs_in_field instr m n t k :
  0 <= m <= n -> n <= 31 -> 0 <= t -> t + Z.of_nat k <= n - m + 1 ->
  regs_in (BITS instr m n) t k = regs_in instr (t + m) k.
Proof.
  intros Hm Hn. revert t. induction k as [|k IH]; intros t Ht Hk; cbn [regs_in]; [done|].
  rewrite IH by lia. unfold BIT. rewrite testbit_BITS, (proj2 (Z.leb_le t (n - m))) by lia.
  cbn [andb]. by replace (t + 1 + m) with (t + m + 1) by lia.
Qed.

Lemma LSMNumRegs_spec instr : LSMNumRegs instr = 4 * rank instr 0 16.
Proof.
  unfold LSMNumRegs, ARMul_BitList. change 1 with (Z.shiftl 1 0).
  rewrite !bitlist_from_spec by lia.
  rewrite (regs_in_field instr 0 7 0 8), (regs_in_field instr 8 15 0 8) by lia.
  rewrite (rank_split instr 0 8 16) by lia. unfold rank.
  pose proof (regs_in_nonneg instr 0 8). pose proof (regs_in_nonneg instr 8 8).
  change (0 + 0) with 0. change (0 + 8) with 8.
  change (Z.to_nat (8 - 0)) with 8%nat. change (Z.to_nat (16 - 8)) with 8%nat.
  rewrite u32_id by (unfold is_u32; lia). lia.
Qed.

(** The first register of a list. *)
Lemma first_bit_spec n t instr :
  0 < regs_in instr t n -> exists i, first_bit n instr t = Val i
    /\ t <= i < t + Z.of_nat n /\ BIT instr i = true /\ rank instr t i = 0.
Proof.
  revert t. induction n as [|n IH]; intros t; cbn [regs_in first_bit]; [lia|].
  destruct (BIT instr t) eqn:E; cbn [Z.b2z].
  - intros _. exists t. rewrite rank_self. repeat split; (done || lia).
  - intros Hr. destruct (IH (t + 1)) as (i & Hf & Hi & Hb & Hk); [lia|].
    exists i. rewrite rank_step, E by lia. repeat split; (done || (cbn; lia)).
Qed.

Lemma first_bit_fuel n k instr t i :
  first_bit n instr t = Val i -> first_bit (n + k) instr t = Val i.
Proof.
  revert t. induction n as [|n IH]; intros t; cbn [first_bit Nat.add]; [done|].
  destruct (BIT instr t); auto.
Qed.

Lemma first_reg_spec instr :
  0 < rank instr 0 16 ->
  exists i, first_reg instr = Val i /\ 0 <= i < 16 /\ BIT instr i = true /\ rank instr 0 i = 0.
Proof.
  intros Hr. destruct (first_bit_spec 16 0 instr Hr) as (i & Hf & Hi & Hb & Hk).
  exists i. unfold first_reg. change 32%nat with (16 + 16)%nat.
  rewrite (first_bit_fuel 16 16 instr 0 i Hf). cbn [rbind].
  rewrite (proj2 (Z.ltb_lt i 16)) by lia. repeat split; (done || lia).
Qed.

(** ** Words of RAM *)

(** All but the registers, the cycle counts and the state of the pipeline. *)
Definition at_rest (st : ARMul_State) : ARMul_State :=
  set_NumIcycles (set_NextInstr (set_abortSig (set_Reg st []) 0) 0) 0.

Section ram.
Context {B : Type} `{RamBus B}.
Implicit Types (m : arm_machine B).
Abbreviation ops := (arm7100_mmu_ops (B := B)).

(** No translation, no abort pending, the pipeline of version 4. *)
Record direct m : Prop := {
  di_mmu : mmu_on m CONTROL_MMU = false;
  di_v4 : is_v4 (core m) <> 0;
  di_aborted : Aborted (core m) = 0;
  di_regs : length (Reg (core m)) = 16%nat
}.

Record xfer_frame m m' : Prop := {
  xf_core : at_rest (core m') = at_rest (core m);
  xf_mmu : mmu m' = mmu m;
  xf_len : length (Reg (core m')) = length (Reg (core m))
}.

Lemma xfer_frame_refl m : xfer_frame m m.
Proof. by split. Qed.

Lemma xfer_frame_trans m1 m2 m3 : xfer_frame m1 m2 -> xfer_frame m2 m3 -> xfer_frame m1 m3.
Proof. intros [? ? ?] [? ? ?]. split; congruence. Qed.

Lemma direct_frame m m' : direct m -> xfer_frame m m' -> direct m'.
Proof.
  intros [Hm Hv Ha Hr] [Hq _ Hl].
  pose proof (f_equal mmu_control Hq) as E1. pose proof (f_equal is_v4 Hq) as E2.
  pose proof (f_equal Aborted Hq) as E3. cbn in E1, E2, E3.
  split; [unfold mmu_on in *|..]; congruence.
Qed.

Lemma xfer_frame_core m f :
  at_rest (f (core m)) = at_rest (core m) -> length (Reg (f (core m))) = length (Reg (core m)) ->
  xfer_frame m (on_core f m).
Proof. by split. Qed.

Lemma reg_set_reg_frame m i v : xfer_frame m (on_core (fun st => set_reg st i v) m).
Proof. apply xfer_frame_core; [done|]. apply length_updZ. Qed.

Lemma read_word_ram m a :
  direct m -> ram_at (abus m) a ->
  exists m', ARMul_ReadWord ops m a = Val (word_at (abus m) a, m')
    /\ is_u32 (word_at (abus m) a)
    /\ xfer_frame m m' /\ Reg (core m') = Reg (core m) /\ abortSig (core m') = 0
    /\ ram_same (abus m) (abus m').
Proof.
  intros Hd Ha. destruct (ram_read (abus m) a Ha) as (Hu & b & Hr & Hs).
  unfold ARMul_ReadWord. cbn [mmu_read_word arm7100_mmu_ops]. unfold a71_mmu_read.
  rewrite (di_mmu _ Hd). cbn [negb]. unfold phys_read. cbn [access_bits]. rewrite Hr.
  cbn [rbind loaded]. eexists. split; [reflexivity|]. split; [done|]. by split; [split|].
Qed.

Lemma write_word_ram m a v :
  direct m -> ram_at (abus m) a -> is_u32 v ->
  exists m', ARMul_WriteWord ops m a v = Val m'
    /\ xfer_frame m m' /\ Reg (core m') = Reg (core m) /\ abortSig (core m') = 0
    /\ forall a', ram_at (abus m) a' ->
         ram_at (abus m') a' /\ word_at (abus m') a' = if a' =? a then v else word_at (abus m) a'.
Proof.
  intros Hd Ha Hv. destruct (ram_write (abus m) a v Ha Hv) as (b & Hr & Hs).
  unfold ARMul_WriteWord. cbn [mmu_write_word arm7100_mmu_ops]. unfold a71_mmu_write.
  rewrite (di_mmu _ Hd). cbn [negb]. unfold phys_write. cbn [access_bits]. rewrite Hr.
  cbn [rbind stored]. eexists. split; [reflexivity|]. by split; [split|].
Qed.

(** ** Lists *)

(** The address of a register of a list that starts at [lo]. *)
Definition slot (instr lo j : Z) : Z := lo + 4 * rank instr 0 j.

(** The words of the list, the registers from [t] on, are RAM below the end of the
    address space. *)
Definition slots_ram (instr lo t : Z) (b : B) : Prop :=
  forall j, t <= j < 16 -> BIT instr j = true -> is_u32 (slot instr lo j) /\ ram_at b (slot instr lo j).

Lemma slots_ram_same instr lo t b b' :
  (forall a, ram_at b a -> ram_at b' a) -> slots_ram instr lo t b -> slots_ram instr lo t b'.
Proof. intros Hb Hs j Hj Hl. destruct (Hs j Hj Hl) as [Hu Ha]. split; [done|by apply Hb]. Qed.

Lemma slot_step instr lo t :
  0 <= t -> slot instr lo (t + 1) = slot instr lo t + 4 * Z.b2z (BIT instr t).
Proof.
  intros Ht. unfold slot. rewrite (rank_split instr 0 t (t + 1)), (rank_step instr t (t + 1)) by lia.
  rewrite rank_self. lia.
Qed.

(** The registers from [t] on are loaded from the words of [b]. *)
Definition regs_loaded (instr lo t : Z) (b : B) (st st' : ARMul_State) : Prop :=
  forall j, 0 <= j < 16 ->
    reg st' j = if (t <=? j) && BIT instr j then word_at b (slot instr lo j) else reg st j.

Lemma regs_loaded_next instr lo t b st0 st st' :
  0 <= t -> 
  (forall j, 0 <= j < 16 ->
     reg st j = if (j =? t) && BIT instr t then word_at b (slot instr lo t) else reg st0 j) ->
  regs_loaded instr lo (t + 1) b st st' -> regs_loaded instr lo t b st0 st'.
Proof.
  intros Ht H1 H2 j Hj. rewrite (H2 j Hj), (H1 j Hj).
  destruct (Z.leb_spec (t + 1) j), (Z.leb_spec t j), (Z.eqb_spec j t); try (exfalso; lia);
    subst; cbn [andb]; try done.
Qed.

(** One register of a list, with the cycle counted either way. *)
Lemma load_one m m0 a t :
  m0 = count_N m \/ m0 = count_S m -> direct m -> ram_at (abus m) a -> 0 <= t < 16 ->
  exists m1, ARMul_ReadWord ops m0 a = Val (word_at (abus m) a, m1)
    /\ let m2 := loaded_reg (no_abort m1) t (word_at (abus m) a) a m1 in
       aborted m2 = false /\ direct m2 /\ xfer_frame m m2 /\ ram_same (abus m) (abus m2)
       /\ forall j, 0 <= j < 16 ->
            reg (core m2) j = if j =? t then word_at (abus m) a else reg (core m) j.
Proof.
  intros Hm0 Hd Ha Ht.
  assert (H0m : direct m0 /\ xfer_frame m m0 /\ Reg (core m0) = Reg (core m) /\ abus m0 = abus m)
    by (destruct Hm0 as [-> | ->]; (split; [by split; apply Hd|done])).
  destruct H0m as (Hd0 & Hf0 & HR0 & Hb0). rewrite <- Hb0 in *.
  destruct (read_word_ram m0 a Hd0 Ha) as (m1 & Hr & Hv & Hf & HR & Hz & Hs1).
  exists m1. split; [done|]. cbv zeta. pose proof (direct_frame _ _ Hd0 Hf) as Hd1.
  unfold loaded_reg, no_abort, aborted. rewrite Hz, (di_aborted _ Hd1). cbn [c_true Z.eqb negb andb].
  assert (Hf2 : xfer_frame m1 (on_core (fun st => set_reg st t (word_at (abus m0) a)) m1))
    by apply reg_set_reg_frame.
  pose proof (direct_frame _ _ Hd1 Hf2) as Hd2. rewrite (di_aborted _ Hd2).
  split; [done|]. split; [done|]. split; [by repeat (eapply xfer_frame_trans; [eassumption|])|].
  split; [exact Hs1|]. intros j Hj. cbn [core on_core set_core].
  rewrite reg_set_reg by (apply Hd1 || lia). unfold reg. by rewrite HR, HR0.
Qed.

Lemma load_regs_ram instr lo n : forall t a m b,
  0 <= t -> t + Z.of_nat n = 16 -> a + 4 = slot instr lo t ->
  direct m -> ram_same b (abus m) -> slots_ram instr lo t b ->
  exists m', load_regs ops n t instr a m = Val m' /\ xfer_frame m m' /\ ram_same b (abus m')
    /\ regs_loaded instr lo t b (core m) (core m').
Proof.
  induction n as [|n IH]; intros t a m b Ht Hn Ha Hd Hb Hs; cbn [load_regs].
  { exists m. split; [done|]. split; [by split|]. split; [done|]. intros j Hj.
    by rewrite (proj2 (Z.leb_gt t j)) by lia. }
  assert (Hs' : slots_ram instr lo (t + 1) b) by (intros j Hj; apply Hs; lia).
  destruct (BIT instr t) eqn:E.
  - destruct (Hs t ltac:(lia) E) as [Hu Hat]. cbv zeta. rewrite Ha, u32_id by done.
    destruct (Hb _ Hat) as [Hat' Hw].
    destruct (load_one m (count_S m) (slot instr lo t) t)
      as (m1 & Hr & Ha2 & Hd2 & Hf2 & Hs2 & Hr2); [by right|done|done|lia|].
    unfold ARMul_LoadWordS. rewrite Hr. cbn [rbind]. set (m2 := loaded_reg _ _ _ _ _) in *.
    rewrite Ha2.
    destruct (IH (t + 1) (slot instr lo t) m2 b) as (m' & Hx & Hf' & Hb' & Hl'); try done; try lia.
    + rewrite slot_step, E by lia. cbn. lia.
    + by etransitivity.
    + exists m'. split; [exact Hx|]. split; [by eapply xfer_frame_trans|]. split; [done|].
      eapply regs_loaded_next; [done| |exact Hl'].
      intros j Hj. by rewrite Hr2, E, andb_true_r, Hw by done.
  - destruct (IH (t + 1) a m b) as (m' & Hx & Hf' & Hb' & Hl'); try done; try lia.
    + rewrite slot_step, E by lia. cbn. lia.
    + exists m'. split; [exact Hx|]. split; [done|]. split; [done|].
      eapply regs_loaded_next; [done| |exact Hl']. intros j Hj. by rewrite E, andb_false_r.
Qed.

(** The registers from [t] on are stored to their words, other words are left. *)
Definition regs_stored (instr lo t : Z) (st : ARMul_State) (b b' : B) : Prop :=
  forall a, ram_at b a -> ram_at b' a
    /\ (forall j, t <= j < 16 -> BIT instr j = true -> a = slot instr lo j -> word_at b' a = reg st j)
    /\ ((forall j, t <= j < 16 -> BIT instr j = true -> a <> slot instr lo j) ->
        word_at b' a = word_at b a).

Lemma slot_inj instr lo i j :
  0 <= i -> 0 <= j -> BIT instr i = true -> BIT instr j = true ->
  slot instr lo i = slot instr lo j -> i = j.
Proof.
  intros Hi Hj Bi Bj E. unfold slot in E.
  destruct (Z.lt_trichotomy i j) as [Hl|[?|Hl]]; [|done|].
  - pose proof (rank_lt instr 0 i j ltac:(lia) Bi). lia.
  - pose proof (rank_lt instr 0 j i ltac:(lia) Bj). lia.
Qed.

Lemma regs_stored_next instr lo t st b0 b b' :
  0 <= t < 16 -> BIT instr t = true ->
  (forall a, ram_at b0 a -> ram_at b a
     /\ word_at b a = if a =? slot instr lo t then reg st t else word_at b0 a) ->
  regs_stored instr lo (t + 1) st b b' -> regs_stored instr lo t st b0 b'.
Proof.
  intros Ht E H1 H2 a Ha. destruct (H1 a Ha) as [Ha1 Hw]. destruct (H2 a Ha1) as (Ha2 & Hi & Ho).
  split; [done|]. split.
  - intros j Hj Bj Ej. destruct (Z.eq_dec j t) as [->|]; [|apply Hi; (done || lia)].
    rewrite Ho, Hw, Ej, Z.eqb_refl; [done|]. intros i Hi' Bi Ei. rewrite Ej in Ei.
    pose proof (slot_inj instr lo t i ltac:(lia) ltac:(lia) E Bi Ei). lia.
  - intros Hn. rewrite Ho, Hw by (intros j Hj; apply Hn; lia).
    rewrite (proj2 (Z.eqb_neq _ _)); [done|]. apply Hn; [lia|done].
Qed.

Lemma regs_stored_skip instr lo t st b b' :
  BIT instr t = false -> regs_stored instr lo (t + 1) st b b' -> regs_stored instr lo t st b b'.
Proof.
  intros E Hst a Ha. destruct (Hst a Ha) as (Ha' & Hi & Ho). split; [done|].
  assert (Hne : forall j, BIT instr j = true -> j <> t) by (intros j Bj ->; congruence). split.
  - intros j Hj Bj. apply Hi; [|done]. specialize (Hne j Bj). lia.
  - intros Hn. apply Ho. intros j Hj. apply Hn. lia.
Qed.

Lemma store_one m m0 a v :
  m0 = count_N m \/ m0 = count_S m -> direct m -> ram_at (abus m) a -> is_u32 v ->
  exists m1, ARMul_WriteWord ops m0 a v = Val m1
    /\ stored_reg a m1 = m1 /\ aborted m1 = false /\ direct m1 /\ xfer_frame m m1
    /\ Reg (core m1) = Reg (core m)
    /\ forall a', ram_at (abus m) a' ->
         ram_at (abus m1) a' /\ word_at (abus m1) a' = if a' =? a then v else word_at (abus m) a'.
Proof.
  intros Hm0 Hd Ha Hv.
  assert (H0m : direct m0 /\ xfer_frame m m0 /\ Reg (core m0) = Reg (core m) /\ abus m0 = abus m)
    by (destruct Hm0 as [-> | ->]; (split; [by split; apply Hd|done])).
  destruct H0m as (Hd0 & Hf0 & HR0 & Hb0). rewrite <- Hb0 in *.
  destruct (write_word_ram m0 a v Hd0 Ha Hv) as (m1 & Hw & Hf & HR & Hz & Hb1).
  exists m1. split; [done|]. pose proof (direct_frame _ _ Hd0 Hf) as Hd1.
  unfold stored_reg, aborted. rewrite Hz, (di_aborted _ Hd1). cbn [c_true Z.eqb negb andb].
  split; [done|]. split; [done|]. split; [done|]. split; [by eapply xfer_frame_trans|].
  split; [congruence|done].
Qed.

Lemma store_regs_ram instr lo n : forall t a m,
  0 <= t -> t + Z.of_nat n = 16 -> a + 4 = slot instr lo t ->
  direct m -> Forall is_u32 (Reg (core m)) -> slots_ram instr lo t (abus m) ->
  exists m', store_regs ops n t instr a m = Val m' /\ xfer_frame m m'
    /\ Reg (core m') = Reg (core m) /\ regs_stored instr lo t (core m) (abus m) (abus m').
Proof.
  induction n as [|n IH]; intros t a m Ht Hn Ha Hd Hr Hs; cbn [store_regs].
  { exists m. split; [done|]. split; [by split|]. split; [done|]. intros a' Ha'.
    split; [done|]. split; [intros; lia|done]. }
  destruct (BIT instr t) eqn:E.
  - destruct (Hs t ltac:(lia) E) as [Hu Hat]. cbv zeta. rewrite Ha, u32_id by done.
    destruct (store_one m (count_S m) (slot instr lo t) (reg (core m) t))
      as (m1 & Hw & Hst1 & Ha1 & Hd1 & Hf1 & HR & Hb1);
      [by right|done|done|by apply (nthZ_Forall is_u32)|].
    unfold ARMul_StoreWordS. rewrite Hw. cbn [rbind]. rewrite Hst1, Ha1.
    destruct (IH (t + 1) (slot instr lo t) m1) as (m' & Hx & Hf' & HR' & Hst); try done; try lia.
    + rewrite slot_step, E by lia. cbn. lia.
    + by rewrite HR.
    + apply (slots_ram_same _ _ _ (abus m)); [|intros j Hj; apply Hs; lia].
      intros a' Ha'. by apply Hb1.
    + exists m'. split; [exact Hx|]. split; [by eapply xfer_frame_trans|]. split; [congruence|].
      eapply regs_stored_next; [lia|done|exact Hb1|]. unfold regs_stored, reg in *. by rewrite HR in Hst.
  - destruct (IH (t + 1) a m) as (m' & Hx & Hf' & HR' & Hst); try done; try lia.
    + rewrite slot_step, E by lia. cbn. lia.
    + intros j Hj. apply Hs. lia.
    + exists m'. split; [exact Hx|]. split; [done|]. split; [done|]. by apply regs_stored_skip.
Qed.

(** Nothing is listed below the first register of a list. *)
Lemma rank_zero_unlisted instr i j : 0 <= j < i -> rank instr 0 i = 0 -> BIT instr j = false.
Proof.
  intros Hj Hr. destruct (BIT instr j) eqn:E; [|done].
  pose proof (rank_lt instr 0 j i ltac:(lia) E). pose proof (rank_nonneg instr 0 j). lia.
Qed.

Definition set_base (instr v : Z) (m : arm_machine B) : arm_machine B :=
  on_core (fun st => set_reg st (LHSReg instr) v) m.

(** A list that leaves out the program counter, with write-back. *)
Record plain_list (instr : Z) : Prop := {
  pl_some : 0 < rank instr 0 16;
  pl_wb : wb_base instr = true;
  pl_pc : BIT instr 15 = false
}.

Lemma LoadMult_ram instr lo v m :
  plain_list instr -> direct m -> slots_ram instr lo 0 (abus m) ->
  exists m1, LoadMult ops m instr lo v = Val (set_base instr v m1) /\ xfer_frame m m1
    /\ ram_same (abus m) (abus m1) /\ regs_loaded instr lo 0 (abus m) (core m) (core m1).
Proof.
  intros [Hsome Hwb Hpc] Hd Hs. destruct (first_reg_spec instr Hsome) as (i & Hf & Hi & Bi & Ri).
  unfold LoadMult. rewrite v4_INCPCS by apply Hd. rewrite Hf. cbn [rbind].
  assert (Hlo : slot instr lo i = lo) by (unfold slot; lia).
  destruct (Hs i ltac:(lia) Bi) as [Hu Hat]. rewrite Hlo in Hu, Hat.
  destruct (load_one m (count_N m) lo i) as (m1 & Hr & Ha2 & Hd2 & Hf2 & Hs2 & Hr2); [by left|done..|].
  unfold ARMul_LoadWordN. rewrite Hr. cbn [rbind]. set (m2 := loaded_reg _ _ _ _ _) in *.
  rewrite Ha2.
  destruct (load_regs_ram instr lo (Z.to_nat (15 - i)) (i + 1) lo m2 (abus m))
    as (m3 & Hx & Hf3 & Hb3 & Hl3); try done; try lia.
  { rewrite slot_step, Bi, Hlo by lia. done. }
  { intros j Hj. apply Hs. lia. }
  rewrite Hx. cbn [rbind]. rewrite Hpc, Hwb. cbn [andb].
  pose proof (direct_frame _ _ Hd2 Hf3) as Hd3.
  assert (Hf4 : xfer_frame m3 (icycles 1 m3)) by (by apply xfer_frame_core).
  unfold aborted. rewrite (di_aborted _ (direct_frame _ _ Hd3 Hf4)). cbn [c_true Z.eqb negb].
  exists (icycles 1 m3). split; [done|].
  split; [by repeat (eapply xfer_frame_trans; [eassumption|])|]. split; [exact Hb3|].
  intros j Hj. change (reg (core (icycles 1 m3)) j) with (reg (core m3) j).
  rewrite (Hl3 j Hj), Hr2 by done. rewrite (proj2 (Z.leb_le 0 j)) by lia. cbn [andb].
  destruct (Z.leb_spec (i + 1) j); cbn [andb].
  - rewrite (proj2 (Z.eqb_neq j i)) by lia. done.
  - destruct (Z.eqb_spec j i) as [->|]; [by rewrite Bi, Hlo|].
    by rewrite (rank_zero_unlisted instr i j) by lia.
Qed.

Lemma StoreMult_ram instr lo v m :
  plain_list instr -> direct m -> Forall is_u32 (Reg (core m)) -> slots_ram instr lo 0 (abus m) ->
  exists m1, StoreMult ops m instr lo v = Val (set_base instr v m1) /\ xfer_frame m m1
    /\ Reg (core m1) = Reg (core m) /\ regs_stored instr lo 0 (core m) (abus m) (abus m1).
Proof.
  intros [Hsome Hwb Hpc] Hd Hr Hs. destruct (first_reg_spec instr Hsome) as (i & Hf & Hi & Bi & Ri).
  unfold StoreMult, store_list.
  set (m0 := if c_true (TFlag (core m)) then m else on_core BUSUSEDINCPCN m).
  assert (H0m : xfer_frame m m0 /\ Reg (core m0) = Reg (core m) /\ abus m0 = abus m).
  { unfold m0. destruct (c_true (TFlag _)); [done|]. by rewrite v4_INCPCN by apply Hd. }
  destruct H0m as (Hf0 & HR0 & Hb0). clearbody m0. pose proof (direct_frame _ _ Hd Hf0) as Hd0.
  rewrite Hf. cbn [rbind]. assert (Hlo : slot instr lo i = lo) by (unfold slot; lia).
  destruct (Hs i ltac:(lia) Bi) as [Hu Hat]. rewrite Hlo in Hu, Hat. rewrite <- Hb0 in Hat.
  destruct (store_one m0 (count_N m0) lo (reg (core m0) i))
    as (m1 & Hw & Hst1 & Ha1 & Hd1 & Hf1 & HR & Hb1);
    [by left|done|done|rewrite <- HR0 in Hr; by apply (nthZ_Forall is_u32)|].
  unfold ARMul_StoreWordN. rewrite Hw. cbn [rbind]. rewrite Hst1, Ha1.
  destruct (store_regs_ram instr lo (Z.to_nat (15 - i)) (i + 1) lo m1)
    as (m' & Hx & Hf' & HR' & Hst); try done; try lia.
  { rewrite slot_step, Bi, Hlo by lia. done. }
  { by rewrite HR, HR0. }
  { apply (slots_ram_same _ _ _ (abus m)); [|intros j Hj; apply Hs; lia].
    rewrite <- Hb0. intros a' Ha'. by apply Hb1. }
  rewrite Hx. cbn [rbind]. unfold stm_takeabort. rewrite Hwb. unfold keep_base, aborted.
  pose proof (direct_frame _ _ Hd1 Hf') as Hd'. rewrite (di_aborted _ Hd').
  cbn [c_true Z.eqb negb andb]. rewrite andb_false_r. cbn [andb negb].
  set (m2 := set_LSBase m' instr v). assert (Hf2 : xfer_frame m' m2) by apply reg_set_reg_frame.
  rewrite (di_aborted _ (direct_frame _ _ Hd' Hf2)). cbn [c_true Z.eqb negb].
  clear Hf2. exists m'. split; [done|].
  split; [by repeat (eapply xfer_frame_trans; [eassumption|])|]. split; [congruence|].
  assert (Hst' : regs_stored instr lo i (core m) (abus m) (abus m')).
  { rewrite <- Hb0. eapply regs_stored_next; [lia|done| |].
    - rewrite Hlo. unfold reg in *. rewrite HR0 in Hb1. exact Hb1.
    - unfold regs_stored, reg in *. by rewrite HR, HR0 in Hst. }
  intros a Ha. destruct (Hst' a Ha) as (Ha' & Hin & Hout). split; [done|]. split.
  - intros j Hj Bj Ej. apply Hin; [|done..]. destruct (Z.lt_ge_cases j i); [|lia].
    by rewrite (rank_zero_unlisted instr i j) in Bj by lia.
  - intros Hn. apply Hout. intros j Hj. apply Hn. lia.
Qed.

(** ** A procedure's entry and exit *)

(** The condition, the kind of the transfer and the list of a decrement-before store and
    of an increment-after load. *)
Record push_pop (push pop : Z) : Prop := {
  pp_push : BITS push 20 27 = 0x92;
  pp_pop : BITS pop 20 27 = 0x8b;
  pp_base : LHSReg pop = LHSReg push;
  pp_list : BITS pop 0 15 = BITS push 0 15;
  pp_some : BITS push 0 15 <> 0;
  pp_no_pc : BIT push 15 = false;
  pp_no_base : BIT push (LHSReg push) = false;
  pp_base_pc : LHSReg push <> 15
}.

Lemma rank_same i1 i2 t j :
  0 <= t -> j <= 16 -> BITS i1 0 15 = BITS i2 0 15 -> rank i1 t j = rank i2 t j.
Proof.
  intros Ht Hj E. unfold rank. destruct (Z.le_gt_cases j t).
  { by replace (Z.to_nat (j - t)) with 0%nat by lia. }
  rewrite <- (Z.add_0_r t), <- !(regs_in_field _ 0 15 t) by lia. by rewrite E.
Qed.

Lemma rank_some instr : BITS instr 0 15 <> 0 -> 0 < rank instr 0 16.
Proof.
  intros Hn. destruct (Z.lt_ge_cases 0 (rank instr 0 16)) as [|Hle]; [done|]. destruct Hn.
  pose proof (rank_nonneg instr 0 16). apply Z.bits_inj'. intros k Hk.
  rewrite Z.bits_0, testbit_BITS by lia. destruct (Z.leb_spec k (15 - 0)); [|done]. cbn [andb].
  apply (rank_zero_unlisted instr 16); lia.
Qed.

Lemma field_wb instr k :
  BITS instr 20 27 = k -> Z.testbit k 1 = true -> LHSReg instr <> 15 -> wb_base instr = true.
Proof.
  intros <- Hb Hn. rewrite testbit_BITS in Hb by lia. change (BIT instr 21 = true) in Hb.
  unfold wb_base. by rewrite Hb, (proj2 (Z.eqb_neq _ _) Hn).
Qed.


(** What a machine must be for the pair: the stack is RAM. *)
Record stack_ready (push : Z) m : Prop := {
  sr_direct : direct m;
  sr_words : Forall is_u32 (Reg (core m));
  sr_room : 0 <= reg (core m) (LHSReg push) - 4 * rank push 0 16;
  sr_ram : slots_ram push (reg (core m) (LHSReg push) - 4 * rank push 0 16) 0 (abus m)
}.

Lemma push_step m push pop pc :
  push_pop push pop -> stack_ready push m ->
  let sp := reg (core m) (LHSReg push) in
  let lo := sp - 4 * rank push 0 16 in
  exists m1, machine_switch ops m push pc = Some (Val (set_base push lo m1))
    /\ xfer_frame m m1 /\ Reg (core m1) = Reg (core m)
    /\ regs_stored push lo 0 (core m) (abus m) (abus m1).
Proof.
  intros Hpp [Hd Hw Hroom Hram] sp lo. pose proof (rank_some push (pp_some _ _ Hpp)) as Hsome.
  assert (Hl : plain_list push).
  { split; [done| |apply Hpp]. by eapply field_wb; [apply Hpp| |apply Hpp]. }
  destruct (StoreMult_ram push lo lo m Hl Hd Hw Hram) as (m1 & Hx & Hf & HR & Hst).
  exists m1. split; [|done]. rewrite (switch_transfers ops m push pc 0x92) by (apply Hpp || lia).
  change (xfer_switch ops 0x92 m push) with (xfer_92 ops m push). unfold xfer_92, LSBase.
  rewrite LSMNumRegs_spec. fold sp.
  assert (Hsp : is_u32 sp) by (by apply (nthZ_Forall is_u32)).
  pose proof (rank_nonneg push 0 16). fold sp lo in Hroom.
  assert (E : u32 (sp - 4 * rank push 0 16) = lo) by (apply u32_id; unfold is_u32 in *; lia).
  rewrite E. by rewrite Hx.
Qed.

Lemma same_list_bit push pop j :
  push_pop push pop -> 0 <= j < 16 -> BIT pop j = BIT push j.
Proof.
  intros Hpp Hj. unfold BIT.
  rewrite <- (field_bit pop 0 15 j), <- (field_bit push 0 15 j) by lia. by rewrite (pp_list _ _ Hpp).
Qed.

(** The exit, on any machine with the same stack pointer and stack. *)
Lemma pop_step m push pop pc :
  push_pop push pop -> direct m ->
  let lo := reg (core m) (LHSReg push) in
  is_u32 (lo + 4 * rank push 0 16) -> slots_ram push lo 0 (abus m) ->
  exists m1, machine_switch ops m pop pc = Some (Val m1)
    /\ (forall j, 0 <= j < 16 -> reg (core m1) j =
          if j =? LHSReg push then lo + 4 * rank push 0 16
          else if BIT push j then word_at (abus m) (slot push lo j) else reg (core m) j)
    /\ xfer_frame m m1 /\ ram_same (abus m) (abus m1).
Proof.
  intros Hpp Hd lo Hsp Hram. pose proof (fun j => same_list_bit push pop j Hpp) as Hbit.
  assert (Hrank : forall j, j <= 16 -> rank pop 0 j = rank push 0 j)
    by (intros; apply rank_same; [lia|done|apply Hpp]).
  assert (Hslot : forall j, j <= 16 -> slot pop lo j = slot push lo j)
    by (intros; unfold slot; by rewrite Hrank).
  assert (Hl : plain_list pop).
  { split; [rewrite Hrank by lia; apply rank_some, Hpp| |rewrite Hbit by lia; apply Hpp].
    eapply field_wb; [apply Hpp|done|rewrite (pp_base _ _ Hpp); apply Hpp]. }
  assert (Hs : slots_ram pop lo 0 (abus m)).
  { intros j Hj Bj. rewrite Hslot by lia. rewrite Hbit in Bj by lia. by apply Hram. }
  destruct (LoadMult_ram pop lo (lo + 4 * rank push 0 16) m Hl Hd Hs) as (m1 & Hx & Hf & Hsame & Hlo).
  rewrite (switch_transfers ops m pop pc 0x8b) by (apply Hpp || lia).
  change (xfer_switch ops 0x8b m pop) with (xfer_8b ops m pop). unfold xfer_8b, LSBase.
  rewrite LSMNumRegs_spec, Hrank, (pp_base _ _ Hpp) by lia. fold lo. rewrite u32_id by done.
  exists (set_base pop (lo + 4 * rank push 0 16) m1). split; [by rewrite Hx|].
  pose proof (direct_frame _ _ Hd Hf) as Hd1.
  assert (Hr : 0 <= LHSReg push < 16) by (unfold LHSReg; apply (BITS_range push 16 19); lia).
  split; [|split; [eapply xfer_frame_trans; [exact Hf|apply reg_set_reg_frame]|exact Hsame]].
  intros j Hj. unfold set_base. cbn [core on_core set_core]. rewrite (pp_base _ _ Hpp).
  rewrite reg_set_reg by (apply Hd1 || lia). case_match; [done|]. rewrite (Hlo j Hj).
  rewrite (proj2 (Z.leb_le 0 j)), Hbit, Hslot by lia. done.
Qed.

(** C7: On a stack in RAM, with the memory management unit off, STMDB base!, list lowers
    the base by a word for each register of the list, and LDMIA base!, list, on whatever
    machine has the same base and the same memory, gives every register of the list and
    the base the value it had before the store, and leaves the other registers and the
    memory as they are: a procedure may change any register it saved. *)
Theorem push_pop_roundtrip m push pop pc pc' :
  push_pop push pop -> stack_ready push m ->
  exists m1, machine_switch ops m push pc = Some (Val m1)
    /\ reg (core m1) (LHSReg push) = reg (core m) (LHSReg push) - 4 * rank push 0 16
    /\ forall m2, direct m2 -> ram_same (abus m1) (abus m2) ->
         reg (core m2) (LHSReg push) = reg (core m1) (LHSReg push) ->
         exists m3, machine_switch ops m2 pop pc' = Some (Val m3)
           /\ (forall j, 0 <= j < 16 -> BIT push j = true \/ j = LHSReg push ->
                 reg (core m3) j = reg (core m) j)
           /\ (forall j, 0 <= j < 16 -> BIT push j = false -> j <> LHSReg push ->
                 reg (core m3) j = reg (core m2) j)
           /\ xfer_frame m2 m3 /\ ram_same (abus m2) (abus m3).
Proof.
  intros Hpp Hsr. destruct (push_step m push pop pc Hpp Hsr) as (m1 & Hx & Hf & HR & Hst).
  destruct Hsr as [Hd Hw Hroom Hram]. set (lo := _ - _) in *.
  assert (Hr : 0 <= LHSReg push < 16) by (unfold LHSReg; apply (BITS_range push 16 19); lia).
  exists (set_base push lo m1). split; [exact Hx|].
  assert (Hlo : reg (core (set_base push lo m1)) (LHSReg push) = lo).
  { unfold set_base. cbn [core on_core set_core].
    rewrite reg_set_reg, Z.eqb_refl; [done|apply (direct_frame _ _ Hd Hf)|lia..]. }
  split; [exact Hlo|]. rewrite Hlo. intros m2 Hd2 Hb2 Hlo2.
  assert (Hsp : is_u32 (reg (core m) (LHSReg push))) by (by apply (nthZ_Forall is_u32)).
  destruct (pop_step m2 push pop pc' Hpp Hd2) as (m3 & Hx3 & Hr3 & Hf3 & Hs3).
  { rewrite Hlo2. unfold lo. by rewrite Z.sub_add. }
  { rewrite Hlo2. apply (slots_ram_same _ _ _ (abus m)); [|done].
    intros a Ha. apply (Hb2 a), Hst, Ha. }
  exists m3. split; [exact Hx3|]. split; [|split; [|done]].
  - intros j Hj Hin. rewrite Hr3, Hlo2 by done. destruct (Z.eqb_spec j (LHSReg push)) as [->|Hne].
    { unfold lo. lia. }
    destruct Hin as [Bj|?]; [|done]. rewrite Bj.
    destruct (Hram j ltac:(lia) Bj) as [_ Ha]. destruct (Hst _ Ha) as (Ha1 & Hv & _).
    rewrite (proj2 (Hb2 _ Ha1)). by apply Hv.
  - intros j Hj Bj Hne. rewrite Hr3, Bj, (proj2 (Z.eqb_neq _ _) Hne) by done. done.
Qed.
End ram.
