(* ===== verification/ArmPipeProps.v ===== *)
(** * The pipeline is transparent

    [ARMul_Emulate32] keeps two prefetched instructions and a program counter that runs
    two instructions ahead.  As long as the program does not change the code that is
    already fetched, each iteration executes the word that is in memory at the address of
    the instruction, in the order the program says. *)

From Stdlib Require Import ZArith Lia Bool.
From stdpp Require Import base numbers option list.
From S2P Require Import Prelude Words Bus LoadStoreProps ArmState ArmSupp ArmShift ArmExec Thumb.
From S2P Require Import ArmMachine ArmTlb ArmCache ArmMmu ArmMem ArmTransfer ArmCopro ArmRun.
From S2P Require Import ArmLemmas.

Section pipeline.
Context {B : Type} `{RamBus B} (cps : cp_ops (B := B)) (env : run_env B).
Implicit Types (s : arm_sys B) (p : pipe).
Abbreviation ops := (arm7100_mmu_ops (B := B)).

Definition code_at (s : arm_sys B) (a : Z) : Z := word_at (abus (proc s)) (u32 a).
Definition is_code (s : arm_sys B) (a : Z) : Prop := ram_at (abus (proc s)) (u32 a).

(** The address of the next instruction of the program. *)
Definition next_pc (s : arm_sys B) (p : pipe) : Z :=
  if NextInstr (st_of s) <? PRIMEPIPE then u32 (ppc p + 4) else reg (st_of s) 15.

(** No translation, ARM state, an architecture whose instructions leave the program
    counter to the pipeline. *)
Record arm_mode (s : arm_sys B) : Prop := {
  am_mmu : mmu_on (proc s) CONTROL_MMU = false;
  am_T : TFlag (st_of s) = 0;
  am_next : NextInstr (st_of s) = SEQ \/ NextInstr (st_of s) = NONSEQ
            \/ PRIMEPIPE <= NextInstr (st_of s);
  am_regs : length (Reg (st_of s)) = 16%nat
}.

(** The pipeline holds what is in memory, unless it is about to be filled again. *)
Definition in_step (s : arm_sys B) (p : pipe) : Prop :=
  NextInstr (st_of s) < PRIMEPIPE ->
  decoded p = code_at s (ppc p + 4) /\ loaded p = code_at s (ppc p + 8)
  /\ reg (st_of s) 15 = u32 (ppc p + 8).

(** What a fetch may change besides register 15: the cycle counts, the signals of aborts,
    the state of the pipeline and what the bus keeps besides its memory. *)
Definition fetch_quiet (st : ARMul_State) : ARMul_State :=
  set_AbortAddr (set_Aborted (set_NextInstr (set_abortSig (set_Reg st []) 0) 0) 0) 0.

Record fetch_frame (s s' : arm_sys B) : Prop := {
  ff_core : fetch_quiet (st_of s') = fetch_quiet (st_of s);
  ff_mmu : mmu (proc s') = mmu (proc s);
  ff_ram : ram_same (abus (proc s)) (abus (proc s'));
  ff_regs : forall i, 0 <= i < 15 -> reg (st_of s') i = reg (st_of s) i;
  ff_len : length (Reg (st_of s')) = length (Reg (st_of s));
  ff_events : EventSet s' = EventSet s
}.

Lemma fetch_frame_refl s : fetch_frame s s.
Proof. by split. Qed.

Lemma fetch_frame_trans s1 s2 s3 : fetch_frame s1 s2 -> fetch_frame s2 s3 -> fetch_frame s1 s3.
Proof.
  intros [? ? Ha Hb ? ?] [? ? Hc Hd ? ?]. split; try congruence; [by etransitivity|].
  intros i Hi. by rewrite Hd, Hb.
Qed.

Lemma frame_mmu_off s s' : fetch_frame s s' -> mmu_on (proc s) CONTROL_MMU = false ->
  mmu_on (proc s') CONTROL_MMU = false.
Proof.
  intros [Hc _ _ _ _ _] Hm. pose proof (f_equal mmu_control Hc) as E. cbn in E.
  unfold mmu_on in *. by rewrite E.
Qed.

Lemma frame_isize s s' : fetch_frame s s' -> isize (st_of s') = isize (st_of s).
Proof. intros [Hc _ _ _ _ _]. exact (f_equal isize Hc). Qed.

Lemma code_at_frame s s' a : fetch_frame s s' -> is_code s a ->
  is_code s' a /\ code_at s' a = code_at s a.
Proof. intros Hf Ha. exact (ff_ram _ _ Hf _ Ha). Qed.

(** One fetch, counted any way. *)
Definition fetches (f : arm_machine B -> Z -> Z -> result (Z * arm_machine B)) : Prop :=
  exists count, (count = id \/ count = count_N (B := B) \/ count = count_S (B := B))
    /\ forall m a size, f m a size = ARMul_ReLoadInstr ops (count m) a size.

Lemma fetch_with_code f s a :
  fetches f -> mmu_on (proc s) CONTROL_MMU = false -> isize (st_of s) = 4 -> is_code s a ->
  exists s', fetch_with f s a = Val (code_at s a, s') /\ fetch_frame s s'
    /\ NextInstr (st_of s') = NextInstr (st_of s) /\ Reg (st_of s') = Reg (st_of s).
Proof.
  intros (count & Hc & Hf) Hm Hi Ha. unfold fetch_with. rewrite Hf, Hi.
  unfold ARMul_ReLoadInstr. change (4 =? 2) with false. cbn [andb].
  assert (Hfw : forall m', abus m' = abus (proc s) -> core m' = st_of s ->
    exists b', fetch_word ops m' (u32 a) = Val (NO_FAULT, Some (code_at s a), set_abus m' b')
      /\ ram_same (abus (proc s)) b').
  { intros m' Eb Ec. destruct (ram_read (abus (proc s)) (u32 a) Ha) as (_ & b' & Hr & Hs).
    exists b'. split; [|exact Hs]. unfold fetch_word. cbn [mmu_load_instr mmu_read_word arm7100_mmu_ops].
    assert (E : a71_mmu_read m' (u32 a) ARM_WORD_TYPE = phys_read m' ARM_WORD_TYPE (u32 a)).
    { unfold a71_mmu_read. unfold mmu_on in *. rewrite Ec, Hm. done. }
    rewrite E. unfold phys_read. cbn [access_bits]. rewrite Eb, Hr. cbn [rbind]. by case_match. }
  destruct (Hfw (count (proc s))) as (b' & Hx & Hs);
    [by destruct Hc as [-> | [-> | ->]]|by destruct Hc as [-> | [-> | ->]]|].
  rewrite Hx. cbn [rbind Z.eqb NO_FAULT]. eexists. split; [reflexivity|].
  destruct Hc as [-> | [-> | ->]]; by split; [split|].
Qed.

Lemma fetches_S : fetches (ARMul_LoadInstrS ops).
Proof. exists (count_S (B := B)). auto. Qed.
Lemma fetches_N : fetches (ARMul_LoadInstrN ops).
Proof. exists (count_N (B := B)). auto. Qed.
Lemma fetches_again : fetches (ARMul_ReLoadInstr ops).
Proof. exists id. auto. Qed.

Lemma frame_on_st s f :
  fetch_quiet (f (st_of s)) = fetch_quiet (st_of s) ->
  (forall i, 0 <= i < 15 -> reg (f (st_of s)) i = reg (st_of s) i) ->
  length (Reg (f (st_of s))) = length (Reg (st_of s)) -> fetch_frame s (on_st f s).
Proof. by split. Qed.

Lemma frame_set_pc s v :
  length (Reg (st_of s)) = 16%nat -> fetch_frame s (on_st (fun st => set_reg st 15 v) s).
Proof.
  intros Hl. apply frame_on_st; [done| |cbn; apply length_updZ].
  intros i Hi. rewrite reg_set_reg by lia. by rewrite (proj2 (Z.eqb_neq i 15)) by lia.
Qed.

(** What the loop holds after a fetch at [pc]. *)
Record fetched_at (s : arm_sys B) (pc : Z) (s1 : arm_sys B) (p1 : pipe) : Prop := {
  fa_frame : fetch_frame s s1;
  fa_next : NextInstr (st_of s1) = SEQ;
  fa_pc : reg (st_of s1) 15 = u32 (pc + 8);
  fa_pipe : p1 = {| decoded := code_at s (pc + 4); loaded := code_at s (pc + 8); ppc := u32 pc |}
}.

Lemma code_at_u32 s x y : code_at s (u32 x + y) = code_at s (x + y).
Proof. unfold code_at. by rewrite u32_add_l. Qed.

Lemma advance_code seq normal s p :
  mmu_on (proc s) CONTROL_MMU = false -> isize (st_of s) = 4 -> length (Reg (st_of s)) = 16%nat ->
  in_step s p -> NextInstr (st_of s) < PRIMEPIPE -> (normal = false -> NextInstr (st_of s) = SEQ) ->
  is_code s (ppc p + 4 + 8) ->
  exists s1 p1, advance ops seq false normal s p = Val (code_at s (ppc p + 4), s1, p1)
    /\ fetched_at s (ppc p + 4) s1 p1.
Proof.
  intros Hm Hi Hl Hin Hn Hnorm Ha. destruct (Hin Hn) as (Ed & El & Er).
  unfold advance. rewrite Hi. cbv zeta.
  set (s0 := on_st (fun st => set_reg st 15 (u32 (reg st 15 + 4))) s).
  assert (Hf0 : fetch_frame s s0).
  { apply frame_on_st; [done| |cbn; apply length_updZ].
    intros i Hii. rewrite reg_set_reg by lia. by rewrite (proj2 (Z.eqb_neq i 15)) by lia. }
  destruct (code_at_frame _ _ _ Hf0 Ha) as [Ha0 Ec].
  assert (Ea : u32 (ppc p + 4) + 4 * 2 = u32 (ppc p + 4) + 8) by lia. rewrite Ea.
  assert (Ha1 : is_code s0 (u32 (ppc p + 4) + 8)) by (unfold is_code; by rewrite u32_add_l).
  destruct (fetch_with_code (if seq then ARMul_LoadInstrS ops else ARMul_LoadInstrN ops) s0
              (u32 (ppc p + 4) + 8)) as (s2 & Hx & Hf & En & ER);
    [destruct seq; [apply fetches_S|apply fetches_N]|by eapply frame_mmu_off|
     by rewrite (frame_isize _ _ Hf0)|done|].
  rewrite Hx. cbn [rbind]. rewrite code_at_u32, Ec, Ed, El.
  set (s3 := if normal then _ else s2).
  assert (Hf3 : fetch_frame s2 s3) by (unfold s3; destruct normal; [by apply frame_on_st|apply fetch_frame_refl]).
  eexists s3, _. split; [reflexivity|]. split.
  - eapply fetch_frame_trans; [exact Hf0|]. by eapply fetch_frame_trans.
  - unfold s3. destruct normal; [done|]. rewrite En. by apply Hnorm.
  - assert (E3 : Reg (st_of s3) = Reg (st_of s0)) by (unfold s3; by destruct normal).
    unfold reg at 1. rewrite E3.
    change (reg (set_reg (st_of s) 15 (u32 (reg (st_of s) 15 + 4))) 15 = u32 (ppc p + 4 + 8)).
    rewrite reg_set_reg, Er by (done || lia). cbn [Z.eqb Pos.eqb]. rewrite u32_add_l. f_equal. lia.
  - f_equal. f_equal. lia.
Qed.

Lemma refill_code resume s :
  mmu_on (proc s) CONTROL_MMU = false -> isize (st_of s) = 4 -> length (Reg (st_of s)) = 16%nat ->
  is_u32 (reg (st_of s) 15) ->
  (forall k, k = 0 \/ k = 4 \/ k = 8 -> is_code s (reg (st_of s) 15 + k)) ->
  exists s1 p1, refill ops resume s = Val (code_at s (reg (st_of s) 15), s1, p1)
    /\ fetched_at s (reg (st_of s) 15) s1 p1.
Proof.
  intros Hm Hi Hl Hu Ha. unfold refill. rewrite Hi. cbv zeta. set (pc := reg (st_of s) 15) in *.
  set (s0 := on_st (fun st => set_AbortAddr (set_Aborted st 0) 1)
               (on_st (fun st => set_reg st 15 (u32 (pc + 4 * 2))) s)).
  assert (Hf0 : fetch_frame s s0).
  { eapply fetch_frame_trans; [by apply (frame_set_pc s (u32 (pc + 4 * 2)))|by apply frame_on_st]. }
  assert (Hfirst : fetches (if resume then ARMul_ReLoadInstr ops else ARMul_LoadInstrN ops))
    by (destruct resume; [apply fetches_again|apply fetches_N]).
  assert (Hnext : fetches (if resume then ARMul_ReLoadInstr ops else ARMul_LoadInstrS ops))
    by (destruct resume; [apply fetches_again|apply fetches_S]).
  assert (Hat : forall s' k, fetch_frame s s' -> k = 0 \/ k = 4 \/ k = 8 ->
    is_code s' (pc + k) /\ code_at s' (pc + k) = code_at s (pc + k))
    by (intros s' k Hf Hk; apply (code_at_frame _ _ _ Hf), Ha, Hk).
  destruct (Hat s0 0 Hf0 ltac:(auto)) as [Hc0 E0]. rewrite Z.add_0_r in Hc0, E0.
  destruct (fetch_with_code _ s0 pc Hfirst) as (s1 & Hx1 & Hf1 & _ & ER1);
    [by eapply frame_mmu_off|by rewrite (frame_isize _ _ Hf0)|done|].
  rewrite Hx1. cbn [rbind]. pose proof (fetch_frame_trans _ _ _ Hf0 Hf1) as Hf01.
  destruct (Hat s1 4 Hf01 ltac:(auto)) as [Hc1 E1].
  destruct (fetch_with_code _ s1 (pc + 4) Hnext) as (s2 & Hx2 & Hf2 & _ & ER2);
    [by eapply frame_mmu_off|by rewrite (frame_isize _ _ Hf01)|done|].
  rewrite Hx2. cbn [rbind]. pose proof (fetch_frame_trans _ _ _ Hf01 Hf2) as Hf02.
  destruct (Hat s2 8 Hf02 ltac:(auto)) as [Hc2 E2]. change (4 * 2) with 8.
  destruct (fetch_with_code _ s2 (pc + 8) Hnext) as (s3 & Hx3 & Hf3 & _ & ER3);
    [by eapply frame_mmu_off|by rewrite (frame_isize _ _ Hf02)|done|].
  rewrite Hx3. cbn [rbind]. pose proof (fetch_frame_trans _ _ _ Hf02 Hf3) as Hf03.
  rewrite E0, E1, E2. eexists _, _. split; [reflexivity|]. split.
  - eapply fetch_frame_trans; [exact Hf03|by apply frame_on_st].
  - done.
  - change (reg (st_of s3) 15 = u32 (pc + 8)). unfold reg. rewrite ER3, ER2, ER1.
    change (reg (set_reg (st_of s) 15 (u32 (pc + 8))) 15 = u32 (pc + 8)).
    by rewrite reg_set_reg by (done || lia).
  - by rewrite u32_id.
Qed.

(** A fetch gives the word at the address of the next instruction and runs ahead. *)
Lemma fetch_code s p :
  arm_mode s -> in_step s p -> isize (st_of s) = 4 -> is_u32 (reg (st_of s) 15) ->
  (forall k, k = 0 \/ k = 4 \/ k = 8 -> is_code s (next_pc s p + k)) ->
  exists s1 p1, fetch ops s p = Val (code_at s (next_pc s p), s1, p1)
    /\ fetched_at s (next_pc s p) s1 p1.
Proof.
  intros [Hm HT Hn Hl] Hin Hi Hu Ha. unfold fetch, next_pc in *. cbv zeta.
  assert (Hu4 : forall k, is_code s (u32 (ppc p + 4) + k) -> is_code s (ppc p + 4 + k))
    by (intros k; unfold is_code; by rewrite u32_add_l).
  assert (Hat : forall s1 p1, fetched_at s (ppc p + 4) s1 p1 -> fetched_at s (u32 (ppc p + 4)) s1 p1).
  { intros s1 p1 [Hf Hx Hpc Hp]. split; try done.
    - by rewrite u32_add_l.
    - rewrite !code_at_u32, u32_idem. exact Hp. }
  destruct Hn as [Hn|[Hn|Hn]].
  - rewrite Hn in Ha |- *. cbn [Z.ltb Z.compare Pos.compare Pos.compare_cont Z.eqb PRIMEPIPE SEQ] in Ha |- *.
    destruct (advance_code true false s p) as (s1 & p1 & Hx & Hf); try done.
    { by rewrite Hn. } { apply Hu4, Ha. auto. }
    exists s1, p1. rewrite Hx. split; [|by apply Hat].
    unfold code_at. by rewrite u32_idem.
  - rewrite Hn in Ha |- *. cbn [Z.ltb Z.compare Pos.compare Pos.compare_cont Z.eqb PRIMEPIPE SEQ NONSEQ] in Ha |- *.
    destruct (advance_code false true s p) as (s1 & p1 & Hx & Hf); try done.
    { by rewrite Hn. } { apply Hu4, Ha. auto. }
    exists s1, p1. rewrite Hx. split; [|by apply Hat].
    unfold code_at. by rewrite u32_idem.
  - rewrite (proj2 (Z.ltb_ge _ _)) in Ha |- * by done. change PRIMEPIPE with 4 in Hn.
    assert (Hne : forall k, k < 4 -> (NextInstr (st_of s) =? k) = false)
      by (intros; apply Z.eqb_neq; lia).
    rewrite (Hne SEQ), (Hne NONSEQ), (Hne PCINCEDSEQ), (Hne PCINCEDNONSEQ) by done.
    apply refill_code; done.
Qed.

(** ** An iteration *)

(** Nothing but the program: no event, no interrupt, not stopped. *)
Record undisturbed (s : arm_sys B) : Prop := {
  un_events : EventSet s = 0;
  un_exception : pending_vector (st_of s) = None;
  un_run : Emulate (st_of s) = RUN
}.

(** The rest of an iteration, from the instruction on. *)
Definition run_instr (fuel : nat) (s : arm_sys B) (p : pipe) (instr pc : Z)
    : wait (flow * arm_sys B * pipe) :=
  wbind (Some (io_do_cycle env s)) (fun s =>
    let s := set_NumInstrs s (u64 (NumInstrs s + 1)) in
    wbind (sys_step ops cps fuel s instr pc) (fun s =>
      let (f, s) := test_emulate (tea_break env pc s) in Some (Val (f, s, p)))).

End pipeline.
