(* ===== verification/ArmExcProps.v ===== *)
(** * ARM status register and exceptions

    The status register holds the flags, the masks and the mode; changing it changes
    the mode and nothing of the register file; taking an exception and returning from
    it gives back the interrupted state. *)

From Stdlib Require Import ZArith Lia Bool.
From stdpp Require Import base numbers option list.
From S2P Require Import Prelude Words ArmState ArmSupp ArmShift ArmExec ArmLemmas ArmBanks ArmTyped.

(** ** The fields of the status register *)

(** [CPSR] of its parts. *)
Definition cpsr_word (n z c v s t i m : Z) : Z :=
  Z.lor (Z.lor (Z.lor
    (Z.lor (Z.lor (Z.lor (Z.lor (shl n 31) (shl z 30)) (shl c 29)) (shl v 28)) (shl s 27))
    (shl i 6)) m) (shl t 5).

Lemma CPSR_word st :
  CPSR st = cpsr_word (NFlag st) (ZFlag st) (CFlag st) (VFlag st) (SFlag st) (TFlag st)
              (IFFlags st) (Mode st).
Proof. done. Qed.

(** What reads the parts back. *)
Definition cpsr_reads (w n z c v s t i m : Z) : bool :=
  (flag_of w NBIT =? n) && (flag_of w ZBIT =? z) && (flag_of w CBIT =? c)
  && (flag_of w VBIT =? v) && (flag_of w SBIT =? s) && (flag_of w TBIT =? t)
  && (Z.land (Z.shiftr (Z.land w INTBITS) 6) 3 =? i) && (Z.land w MODEBITS =? m)
  && (0 <=? w) && (w <? 4294967296).

Definition modes32 : list Z :=
  [USER32MODE; FIQ32MODE; IRQ32MODE; SVC32MODE; ABORT32MODE; UNDEF32MODE; SYSTEM32MODE].

(** The statement on all the flags, masks and modes, by computation: the word, and
    the word an exception [mask], [mode] puts in its place. *)
Definition all_flags (p : Z -> bool) : bool := forallb p [0; 1].
Definition all_cpsr (p : Z -> Z -> Z -> Z -> Z -> Z -> Z -> Z -> bool) : bool :=
  all_flags (fun n => all_flags (fun z => all_flags (fun c => all_flags (fun v =>
  all_flags (fun s => all_flags (fun t =>
  forallb (fun i => forallb (p n z c v s t i) modes32) [0; 1; 2; 3])))))).

Lemma all_flags_spec p x : all_flags p = true -> is_flag x -> p x = true.
Proof.
  unfold all_flags. cbn. rewrite !andb_true_iff. intros (H0 & H1 & _) [-> | ->]; done.
Qed.

Lemma mode32_In m : mode32 m = true -> In m modes32.
Proof.
  unfold mode32. rewrite !orb_true_iff, !Z.eqb_eq. cbn. intros H.
  repeat destruct H as [H|H]; auto 10.
Qed.

Lemma all_cpsr_spec p st :
  all_cpsr p = true -> arm_wf st ->
  p (NFlag st) (ZFlag st) (CFlag st) (VFlag st) (SFlag st) (TFlag st) (IFFlags st) (Mode st)
  = true.
Proof.
  intros H [? ? ? ? ? ? ? Hn Hz Hc Hv Hs Ht Hi Hm ? ?]. unfold all_cpsr in H.
  pose proof (all_flags_spec _ _ H Hn) as H1. pose proof (all_flags_spec _ _ H1 Hz) as H2.
  pose proof (all_flags_spec _ _ H2 Hc) as H3. pose proof (all_flags_spec _ _ H3 Hv) as H4.
  pose proof (all_flags_spec _ _ H4 Hs) as H5. pose proof (all_flags_spec _ _ H5 Ht) as H6.
  assert (Hin : In (IFFlags st) [0; 1; 2; 3]) by (cbn; lia).
  pose proof (proj1 (forallb_forall _ _) H6 _ Hin) as H7.
  apply (proj1 (forallb_forall _ _) H7). by apply mode32_In.
Qed.

Definition exc_cpsr (w m0 mask m : Z) : Z :=
  Z.lor (Z.lor (Z.land w (Z.lnot (Z.lor m0 TBIT))) mask) m.

Lemma cpsr_reads_all :
  all_cpsr (fun n z c v s t i m => cpsr_reads (cpsr_word n z c v s t i m) n z c v s t i m)
  = true.
Proof. by vm_compute. Qed.

Lemma exc_cpsr_all :
  all_cpsr (fun n z c v s t i m =>
    forallb (fun mask => forallb (fun m' =>
      cpsr_reads (exc_cpsr (cpsr_word n z c v s t i m) m mask m') n z c v s 0
        (Z.lor i (Z.shiftr mask 6)) m') modes32) [IBIT; INTBITS]) = true.
Proof. by vm_compute. Qed.

(** ** Writing the status register *)

(** The flags, the masks and the mode of a state. *)
Definition psr_parts (st : ARMul_State) : list Z :=
  [NFlag st; ZFlag st; CFlag st; VFlag st; SFlag st; TFlag st; IFFlags st; Mode st].

(** All the registers of all the modes but the physical ones of [except]. *)
Definition same_view (except : list (Z * Z)) (st st' : ARMul_State) : Prop :=
  forall b r, real_bank b -> 0 <= r < 16 -> ~ In (phys b r) except ->
  arm_view st' b r = arm_view st b r.

Lemma same_view_trans e e' st1 st2 st3 :
  same_view e st1 st2 -> same_view e' st2 st3 -> same_view (e ++ e') st1 st3.
Proof.
  intros H12 H23 b r Hb Hr Hn. rewrite in_app_iff in Hn. rewrite H23, H12 by tauto. done.
Qed.

Lemma view_regs st st' :
  Reg st' = Reg st -> RegBank st' = RegBank st -> Bank st' = Bank st -> same_view [] st st'.
Proof.
  intros HR HRB HB b r _ _ _. unfold arm_view, is_current, regbank, bank_row, reg.
  by rewrite HR, HRB, HB.
Qed.

(** The mode after the flags: [ARMul_CPSRAltered] is a change of mode, then
    assignments to the fields. *)
Lemma CPSRAltered_parts st n z c v s t i m :
  arm_wf st -> is_u32 (Cpsr st) -> cpsr_reads (Cpsr st) n z c v s t i m = true ->
  mode32 m = true ->
  let st' := ARMul_CPSRAltered st in
  psr_parts st' = [n; z; c; v; s; t; i; m]
  /\ Spsr st' = Spsr st /\ Cpsr st' = Cpsr st /\ same_view [] st st'
  /\ cfg st' = cfg st.
Proof.
  intros Hw Hc Hr Hm. cbv zeta. unfold cpsr_reads in Hr. rewrite !andb_true_iff, !Z.eqb_eq in Hr.
  destruct Hr as (((((((((Rn & Rz) & Rc) & Rv) & Rs) & Rt) & Ri) & Rm) & _) & _).
  destruct (mode32_bank _ (wf_mode st Hw)) as [Hb0 Hm0], (mode32_bank _ Hm) as [Hb Hm1].
  unfold ARMul_CPSRAltered. rewrite (proj2 (Z.eqb_neq _ _) (wf_sig st Hw)), Rm.
  set (st1 := if Mode st =? m then st else _).
  assert (H1 : Mode st1 = m /\ Spsr st1 = Spsr st /\ Cpsr st1 = Cpsr st
               /\ cfg st1 = cfg st /\ same_view [] st st1).
  { unfold st1. destruct (Z.eqb_spec (Mode st) m) as [|Hne]; [done|].
    rewrite <- (wf_Bank st Hw) in Hb0.
    destruct (SwitchMode_view st m (arm_wf_shape st Hw) (wf_Bank st Hw) Hb0 Hb) as [_ Hv].
    destruct (SwitchMode_frame st (Mode st) m) as [[] _].
    destruct (ARMul_SwitchMode st (Mode st) m) as [m' st'] eqn:E.
    assert (m' = m) as -> by (by injection E). cbn in *. repeat split; auto.
    intros b r Hb' Hr' _. by apply Hv. }
  clearbody st1. destruct H1 as (M1 & S1 & C1 & P1 & V1).
  set (st7 := set_TFlag _ _). change (Mode st7) with (Mode st1).
  rewrite M1, (proj2 (Z.ltb_lt SVC26MODE (Mode st))),
    (proj2 (Z.leb_gt m SVC26MODE)) by (unfold SVC26MODE; lia).
  split.
  { change ([flag_of (Cpsr st1) NBIT; flag_of (Cpsr st1) ZBIT; flag_of (Cpsr st1) CBIT;
             flag_of (Cpsr st1) VBIT; flag_of (Cpsr st1) SBIT; flag_of (Cpsr st1) TBIT;
             Z.land (Z.shiftr (Z.land (Cpsr st1) INTBITS) 6) 3; Mode st1] = [n; z; c; v; s; t; i; m]).
    by rewrite C1, M1, Rn, Rz, Rc, Rv, Rs, Rt, Ri. }
  change (Spsr st7) with (Spsr st1). change (Cpsr st7) with (Cpsr st1).
  change (cfg st7) with (cfg st1). by repeat split.
Qed.

Lemma CPSRAltered_ok st n z c v s t i m :
  arm_wf st -> is_u32 (Cpsr st) -> cpsr_reads (Cpsr st) n z c v s t i m = true ->
  mode32 m = true ->
  let st' := ARMul_CPSRAltered st in
  arm_wf st' /\ psr_parts st' = [n; z; c; v; s; t; i; m]
  /\ Spsr st' = Spsr st /\ Cpsr st' = Cpsr st /\ same_view [] st st' /\ cfg st' = cfg st.
Proof.
  intros Hw Hc Hr Hm. pose proof (ty_CPSRAltered st (arm_wf_typed st Hw Hc)) as Ht.
  pose proof (CPSRAltered_parts st n z c v s t i m Hw Hc Hr Hm) as P. cbv zeta in P |- *.
  generalize dependent (ARMul_CPSRAltered st). intros st' Ht (HP & HS & HC & HV & Hsig).
  split; [|done]. apply arm_typed_wf; [done| |injection Hsig as -> _ _ _; apply Hw].
  by injection HP as _ _ _ _ _ _ _ ->.
Qed.

(** ** Taking an exception *)

Lemma wf_set_Cpsr st v : arm_wf st -> arm_wf (set_Cpsr st v).
Proof. by intros []. Qed.

Lemma wf_set_AbortAddr st v : arm_wf st -> arm_wf (set_AbortAddr st v).
Proof. by intros []. Qed.

Lemma wf_set_Aborted st v : arm_wf st -> arm_wf (set_Aborted st v).
Proof. by intros []. Qed.

Lemma wf_set_NextInstr st v : arm_wf st -> arm_wf (set_NextInstr st v).
Proof. by intros []. Qed.

Lemma wf_set_reg st i v : arm_wf st -> is_u32 v -> arm_wf (set_reg st i v).
Proof.
  intros [] Hv. split; cbn; try done; [by rewrite length_updZ|by apply updZ_Forall].
Qed.

Lemma wf_set_spsr st b v : arm_wf st -> is_u32 v -> arm_wf (set_spsr st b v).
Proof.
  intros [] Hv. split; cbn; try done; [by rewrite length_updZ|by apply updZ_Forall].
Qed.
#[export] Hint Resolve wf_set_Cpsr wf_set_AbortAddr wf_set_Aborted wf_set_NextInstr wf_set_reg
  wf_set_spsr : arm.

Lemma CPSR_u32 st : arm_wf st -> is_u32 (CPSR st).
Proof.
  intros Hw. pose proof (arm_wf_typed (set_Cpsr st 0) (wf_set_Cpsr st 0 Hw) is_u32_0) as Ht.
  exact (td_CPSR _ (ty_data _ _ Ht)).
Qed.

(** The reads of the word an exception makes. *)
Lemma exc_cpsr_reads st mask m :
  arm_wf st -> mode32 m = true -> In mask [IBIT; INTBITS] ->
  cpsr_reads (exc_cpsr (CPSR st) (Mode st) mask m) (NFlag st) (ZFlag st) (CFlag st) (VFlag st)
    (SFlag st) 0 (Z.lor (IFFlags st) (Z.shiftr mask 6)) m = true.
Proof.
  intros Hw Hm Hk. pose proof (all_cpsr_spec _ st exc_cpsr_all Hw) as H. cbv beta in H.
  apply (proj1 (forallb_forall _ _)) with (x := mask) in H; [|done].
  apply (proj1 (forallb_forall _ _)) with (x := m) in H; [|by apply mode32_In].
  by rewrite CPSR_word.
Qed.

Lemma cpsr_reads_u32 w n z c v s t i m : cpsr_reads w n z c v s t i m = true -> is_u32 w.
Proof.
  unfold cpsr_reads. rewrite !andb_true_iff, Z.leb_le, Z.ltb_lt. intros [[_ H1] H2]. done.
Qed.

(** The modes an exception enters. *)
Definition exc_mode (m : Z) : bool :=
  (m =? FIQ32MODE) || (m =? IRQ32MODE) || (m =? SVC32MODE) || (m =? ABORT32MODE)
  || (m =? UNDEF32MODE).

Lemma exc_mode_facts m :
  exc_mode m = true ->
  mode32 m = true /\ BANK_CAN_ACCESS_SPSR (ModeToBank m) = true
  /\ 0 < ModeToBank m < 7 /\ Z.land m MODEBITS = m /\ is_u32 m.
Proof.
  unfold exc_mode. rewrite !orb_true_iff, !Z.eqb_eq. intros H.
  repeat destruct H as [H|H]; subst; by vm_compute.
Qed.

(** [(ARMul_GetCPSR (state) & ~(EMODE | TBIT)) | i | m]. *)
Definition exc_word (st : ARMul_State) (i m : Z) : Z :=
  Z.lor (Z.lor (Z.land (ARMul_GetCPSR st) (Z.lnot (Z.lor (EMODE st) TBIT))) i) m.

Lemma SETABORT_word st temp i m d :
  SETABORT st temp i m d
  = let st := ARMul_SetSPSR st m (ARMul_GetCPSR st) in
    set_reg (ARMul_SetCPSR st (exc_word st i m)) 14 (u32 (temp - d)).
Proof. unfold SETABORT, exc_word. reflexivity. Qed.

(** The status register, and with it the mode, replaced by the word of an exception. *)
Lemma enter_mode st mask m :
  arm_wf st -> exc_mode m = true -> In mask [IBIT; INTBITS] ->
  let st' := ARMul_SetCPSR st (exc_word st mask m) in
  arm_wf st'
  /\ psr_parts st' = [NFlag st; ZFlag st; CFlag st; VFlag st; SFlag st; 0;
                      Z.lor (IFFlags st) (Z.shiftr mask 6); m]
  /\ Spsr st' = Spsr st /\ same_view [] st st' /\ cfg st' = cfg st.
Proof.
  intros Hw Hm Hk. cbv zeta. destruct (exc_mode_facts m Hm) as (Hm32 & _).
  pose proof (exc_cpsr_reads st mask m Hw Hm32 Hk) as R.
  assert (E : exc_word st mask m = exc_cpsr (CPSR st) (Mode st) mask m)
    by (unfold exc_word, exc_cpsr, ARMul_GetCPSR, EMODE; reflexivity).
  rewrite <- E in R. clear E. unfold ARMul_SetCPSR. generalize dependent (exc_word st mask m).
  intros w R. pose proof (wf_set_Cpsr st w Hw) as W.
  destruct (CPSRAltered_ok (set_Cpsr st w) _ _ _ _ _ _ _ _ W
              (cpsr_reads_u32 _ _ _ _ _ _ _ _ _ R) R Hm32) as (W2 & P2 & S2 & _ & V2 & G2).
  generalize dependent (ARMul_CPSRAltered (set_Cpsr st w)). intros st2 W2 P2 S2 V2 G2.
  split; [exact W2|]. split; [exact P2|]. split; [exact S2|].
  split; [exact V2|exact G2].
Qed.

Lemma SETABORT_ok st temp mask m d :
  arm_wf st -> exc_mode m = true -> In mask [IBIT; INTBITS] ->
  let b := ModeToBank m in
  let st' := SETABORT st temp mask m d in
  arm_wf st'
  /\ psr_parts st' = [NFlag st; ZFlag st; CFlag st; VFlag st; SFlag st; 0;
                      Z.lor (IFFlags st) (Z.shiftr mask 6); m]
  /\ Spsr st' = updZ (Spsr st) b (CPSR st)
  /\ same_view [phys b 14] st st' /\ cfg st' = cfg st
  /\ reg st' 14 = u32 (temp - d).
Proof.
  intros Hw Hm Hk. cbv zeta. destruct (exc_mode_facts m Hm) as (Hm32 & Ha & _ & Hl & Hu).
  rewrite SETABORT_word. unfold ARMul_SetSPSR. rewrite Hl, Ha. cbv zeta.
  pose proof (wf_set_spsr st (ModeToBank m) _ Hw (CPSR_u32 st Hw)) as W1.
  destruct (enter_mode _ mask m W1 Hm Hk) as (W2 & P2 & S2 & V2 & G2).
  unfold ARMul_GetCPSR. generalize dependent
    (ARMul_SetCPSR (set_spsr st (ModeToBank m) (CPSR st))
       (exc_word (set_spsr st (ModeToBank m) (CPSR st)) mask m)). intros st2 W2 P2 S2 V2 G2.
  assert (M2 : Mode st2 = m) by (by injection P2).
  split; [by apply wf_set_reg, u32_range|]. split; [done|]. split; [done|]. split.
  - intros b r Hb Hr Hn. rewrite arm_view_set_reg by (apply W2 || done || lia).
    rewrite (wf_Bank st2 W2), M2. rewrite decide_False by (intros E; apply Hn; cbn; auto).
    rewrite V2 by (done || tauto). done.
  - split; [done|]. rewrite reg_set_reg by (apply W2 || lia). done.
Qed.

(** What the architecture says of each vector: the mode entered, the interrupts masked
    and what the link register is behind the program counter by. *)
Definition exc_entry (vector : Z) (thumb : bool) : option (Z * Z * Z) :=
  if vector =? ARMul_ResetV then Some (SVC32MODE, INTBITS, 0)
  else if vector =? ARMul_UndefinedInstrV then Some (UNDEF32MODE, IBIT, if thumb then 2 else 4)
  else if vector =? ARMul_SWIV then Some (SVC32MODE, IBIT, if thumb then 2 else 4)
  else if vector =? ARMul_PrefetchAbortV then Some (ABORT32MODE, IBIT, if thumb then 0 else 4)
  else if vector =? ARMul_DataAbortV then Some (ABORT32MODE, IBIT, if thumb then -4 else 0)
  else if vector =? ARMul_IRQV then Some (IRQ32MODE, IBIT, if thumb then 0 else 4)
  else if vector =? ARMul_FIQV then Some (FIQ32MODE, INTBITS, if thumb then 0 else 4)
  else None.

Lemma exc_entry_facts vector t m mask d :
  exc_entry vector t = Some (m, mask, d) ->
  exc_mode m = true /\ In mask [IBIT; INTBITS] /\ is_u32 vector.
Proof.
  unfold exc_entry, ARMul_ResetV, ARMul_UndefinedInstrV, ARMul_SWIV, ARMul_PrefetchAbortV,
    ARMul_DataAbortV, ARMul_IRQV, ARMul_FIQV.
  repeat match goal with |- context [vector =? ?k] => destruct (Z.eqb_spec vector k) end;
    intros [= <- <- <-]; subst; (split; [by vm_compute|]); (split; [cbn; auto|by vm_compute]).
Qed.

Lemma abort_switch_entry st vector temp m mask d :
  arm_wf st -> exc_entry vector (c_true (TFlag st)) = Some (m, mask, d) ->
  abort_switch st vector temp
  = SETABORT (if vector =? ARMul_PrefetchAbortV then set_AbortAddr st 1 else st) temp mask m d.
Proof.
  intros Hw. unfold exc_entry, abort_switch, INSN_SIZE.
  assert (c_true (prog32Sig st) = true) as ->.
  { pose proof (wf_sig st Hw). unfold c_true. by rewrite (proj2 (Z.eqb_neq _ _)). }
  unfold ARMul_ResetV, ARMul_UndefinedInstrV, ARMul_SWIV, ARMul_PrefetchAbortV,
    ARMul_DataAbortV, ARMul_AddrExceptnV, ARMul_IRQV, ARMul_FIQV.
  repeat match goal with |- context [vector =? ?k] => destruct (Z.eqb_spec vector k) end;
    try (exfalso; lia); try discriminate; intros [= <- <- <-]; reflexivity.
Qed.

(** Where the vector is, after the relocations. *)
Definition vector_address (st : ARMul_State) (vector : Z) : Z :=
  let v := if c_true (Z.land (mmu_control st) CONTROL_VECTOR) then u32 (vector + 0xffff0000)
           else vector in
  let v := if c_true (vector_remap_flag st) then u32 (v + vector_remap_addr st) else v in
  Z.land v PCBITS.

(** What remains of the state when an exception has been taken. *)
Record entered (st : ARMul_State) (vector m mask d : Z) (st' : ARMul_State) : Prop := {
  en_wf : arm_wf st';
  en_parts : psr_parts st' = [NFlag st; ZFlag st; CFlag st; VFlag st; SFlag st; 0;
                              Z.lor (IFFlags st) (Z.shiftr mask 6); m];
  en_spsr : Spsr st' = updZ (Spsr st) (ModeToBank m) (CPSR st);
  en_lr : reg st' 14 = u32 (reg st 15 - d);
  en_pc : reg st' 15 = vector_address st vector;
  en_view : same_view [phys (ModeToBank m) 14; phys (ModeToBank m) 15] st st'
}.

Lemma phys15 b : phys b 15 = (USERBANK, 15).
Proof. done. Qed.

Lemma same_view_incl e e' st st' :
  (forall p, In p e -> In p e') -> same_view e st st' -> same_view e' st st'.
Proof. intros Hi Hv b r Hb Hr Hn. apply Hv; auto. Qed.

Lemma vector_address_cfg st st' vector :
  cfg st' = cfg st -> vector_address st' vector = vector_address st vector.
Proof. unfold cfg, vector_address. by intros [= _ -> -> ->]. Qed.

(** The last lines of [ARMul_Abort]. *)
Lemma go_to_vector st vector :
  3 < Mode st ->
  (if ARMul_MODE32BIT st then
     ARMul_SetR15 st
       (let v := if c_true (Z.land (mmu_control st) CONTROL_VECTOR)
                 then u32 (vector + 0xffff0000) else vector in
        if c_true (vector_remap_flag st) then u32 (v + vector_remap_addr st) else v)
   else ARMul_SetR15 st (Z.lor (R15CCINTMODE st) vector))
  = FLUSHPIPE (set_reg st 15 (vector_address st vector)).
Proof.
  intros Hm. unfold ARMul_SetR15. assert (ARMul_MODE32BIT st = true) as ->; [|done].
  by apply Z.ltb_lt.
Qed.

Lemma vector_address_u32 st vector : is_u32 vector -> is_u32 (vector_address st vector).
Proof. intros. unfold vector_address. repeat case_match; auto with typed. Qed.

Lemma view_set_pc st v : arm_wf st -> same_view [phys 0 15] st (FLUSHPIPE (set_reg st 15 v)).
Proof.
  intros Hw b r Hb Hr Hn. change (arm_view (FLUSHPIPE ?s)) with (arm_view s).
  rewrite arm_view_set_reg by (apply Hw || lia).
  rewrite decide_False; [done|]. intros E. apply Hn. rewrite E. by left.
Qed.

Lemma Abort_entered st vector m mask d :
  arm_wf st -> exc_entry vector (c_true (TFlag st)) = Some (m, mask, d) ->
  entered st vector m mask d (ARMul_Abort st vector).
Proof.
  intros Hw He. destruct (exc_entry_facts _ _ _ _ _ He) as (Hm & Hk & Hv).
  destruct (mode32_bank _ (wf_mode st Hw)) as [_ Hm0].
  destruct (exc_mode_facts m Hm) as (Hm32 & _). destruct (mode32_bank _ Hm32) as [_ Hm1].
  unfold ARMul_Abort, ARMul_OSException. cbv zeta.
  pose proof (wf_set_Aborted st 0 Hw) as Hw0.
  assert (c_true (prog32Sig (set_Aborted st 0)) = true) as ->.
  { pose proof (wf_sig st Hw). unfold c_true. cbn. by rewrite (proj2 (Z.eqb_neq _ _)). }
  assert (ARMul_MODE26BIT (set_Aborted st 0) = false) as -> by (apply Z.leb_gt; cbn; lia).
  rewrite (abort_switch_entry _ _ _ m mask d Hw0 He).
  set (st0 := if vector =? ARMul_PrefetchAbortV then _ else _).
  assert (Wst : arm_wf st0) by (unfold st0; case_match; auto with arm).
  assert (E0 : Spsr st0 = Spsr st /\ cfg st0 = cfg st /\ psr_parts st0 = psr_parts st
               /\ CPSR st0 = CPSR st /\ same_view [] st st0)
    by (unfold st0; case_match; done).
  destruct (SETABORT_ok st0 (reg (set_Aborted st 0) 15) mask m d Wst Hm Hk)
    as (W & P & S & V & G & L). clearbody st0.
  generalize dependent (SETABORT st0 (reg (set_Aborted st 0) 15) mask m d).
  intros st1 W P S V G L. destruct E0 as (ES & EG & EP & EC & EV).
  injection EP as En Ez Ec Ev Es Et Ei Em. rewrite En, Ez, Ec, Ev, Es, Ei in P.
  assert (M1 : Mode st1 = m) by (by injection P).
  pose proof (go_to_vector st1 vector ltac:(lia)) as GV. cbv zeta in GV. rewrite GV. clear GV.
  assert (H16 : length (Reg st1) = 16%nat) by apply W.
  rewrite (vector_address_cfg st) by congruence.
  split.
  - apply wf_set_NextInstr, wf_set_reg; [done|by apply vector_address_u32].
  - exact P.
  - change (Spsr (FLUSHPIPE ?s)) with (Spsr s). cbn [Spsr set_reg set_Reg]. congruence.
  - change (reg (FLUSHPIPE ?s)) with (reg s). rewrite reg_set_reg by (done || lia). exact L.
  - change (reg (FLUSHPIPE ?s)) with (reg s). by rewrite reg_set_reg by (done || lia).
  - eapply same_view_incl; [|exact (same_view_trans _ _ _ _ _ EV
      (same_view_trans _ _ _ _ _ V (view_set_pc st1 _ W)))]. cbn. rewrite !phys15. tauto.
Qed.

(** ** Returning from one *)

Lemma cpsr_reads_back st :
  arm_wf st ->
  cpsr_reads (CPSR st) (NFlag st) (ZFlag st) (CFlag st) (VFlag st) (SFlag st) (TFlag st)
    (IFFlags st) (Mode st) = true.
Proof. intros Hw. rewrite CPSR_word. exact (all_cpsr_spec _ st cpsr_reads_all Hw). Qed.

(** The address a return goes to, aligned for the instruction set. *)
Definition aligned_pc (t addr : Z) : Z :=
  Z.land addr (if c_true t then 0xfffffffe else 0xfffffffc).

Lemma land_all_ones x : is_u32 x -> Z.land x PCBITS_MODE32 = x.
Proof.
  intros Hx. change PCBITS_MODE32 with (Z.ones 32). rewrite Z.land_ones by lia.
  change (2 ^ 32) with 4294967296. by apply Z.mod_small.
Qed.

(** [MOVS pc, src] in a mode with a saved status register that holds the one of [st0]. *)
Lemma WriteSR15_ok st st0 src :
  arm_wf st -> arm_wf st0 -> 0 < Bank st -> spsr st (Bank st) = CPSR st0 -> is_u32 src ->
  let st' := WriteSR15 st src in
  psr_parts st' = psr_parts st0 /\ Bank st' = Bank st0 /\ Spsr st' = Spsr st
  /\ reg st' 15 = aligned_pc (TFlag st0) src /\ same_view [phys 0 15] st st'.
Proof.
  intros Hw Hw0 Hb Hs Hsrc. cbv zeta. unfold WriteSR15.
  rewrite (proj2 (Z.ltb_lt 0 (Bank st)) Hb), Hs.
  destruct (CPSRAltered_ok (set_Cpsr st (CPSR st0)) _ _ _ _ _ _ _ _ (wf_set_Cpsr _ _ Hw)
              (CPSR_u32 st0 Hw0) (cpsr_reads_back st0 Hw0) (wf_mode st0 Hw0))
    as (W & P & S & _ & V & _).
  generalize dependent (ARMul_CPSRAltered (set_Cpsr st (CPSR st0))). intros st1 W P S V.
  injection P as En Ez Ec Ev Es Et Ei Em. rewrite Et.
  change (psr_parts (FLUSHPIPE (set_reg st1 ?i ?v))) with (psr_parts st1).
  change (Bank (FLUSHPIPE (set_reg st1 ?i ?v))) with (Bank st1).
  change (Spsr (FLUSHPIPE (set_reg st1 ?i ?v))) with (Spsr st1).
  split; [unfold psr_parts; congruence|]. split; [by rewrite (wf_Bank st1 W), (wf_Bank st0 Hw0), Em|].
  split; [exact S|]. split.
  - change (reg (FLUSHPIPE ?s)) with (reg s). rewrite reg_set_reg by (apply W || lia). cbn [Z.eqb Pos.eqb].
    unfold aligned_pc. case_match; apply land_all_ones; auto with typed.
  - intros b r Hb' Hr Hn. rewrite view_set_pc by done. by rewrite V by (done || tauto).
Qed.

Lemma exc_bank_inj m m' :
  mode32 m = true -> exc_mode m' = true -> ModeToBank m = ModeToBank m' -> m = m'.
Proof.
  unfold mode32, exc_mode. rewrite !orb_true_iff, !Z.eqb_eq. intros H H'.
  repeat destruct H as [H|H]; repeat destruct H' as [H'|H']; subst; vm_compute; congruence.
Qed.

(** C32: In 32-bit modes, an exception masks interrupts, enters its mode and goes to its
    vector with the return address in the banked link register and the status saved; a
    return through [MOVS pc, lr] gives back the flags, masks, mode and instruction set,
    goes to the return address, and leaves every register of every mode but the
    exception's own link register as before. *)
Theorem exception_roundtrip st vector m mask d :
  arm_wf st -> exc_entry vector (c_true (TFlag st)) = Some (m, mask, d) ->
  let st1 := ARMul_Abort st vector in
  let st2 := WriteSR15 st1 (reg st1 14) in
  entered st vector m mask d st1
  /\ psr_parts st2 = psr_parts st
  /\ reg st2 15 = aligned_pc (TFlag st) (u32 (reg st 15 - d))
  /\ same_view [phys (ModeToBank m) 14; phys (ModeToBank m) 15] st st2
  /\ (forall b, 0 <= b -> b <> ModeToBank m -> spsr st2 b = spsr st b)
  /\ (Mode st <> m -> forall r, 0 <= r < 15 -> reg st2 r = reg st r).
Proof.
  intros Hw He. cbv zeta. pose proof (Abort_entered st vector m mask d Hw He) as En.
  destruct (exc_entry_facts _ _ _ _ _ He) as (Hm & _). destruct (exc_mode_facts m Hm) as (_ & _ & Hb & _).
  split; [exact En|]. destruct En as [W1 P1 S1 L1 _ V1].
  generalize dependent (ARMul_Abort st vector). intros st1 W1 P1 S1 L1 V1.
  assert (B1 : Bank st1 = ModeToBank m) by (rewrite (wf_Bank st1 W1); f_equal; by injection P1).
  destruct (WriteSR15_ok st1 st (reg st1 14) W1 Hw) as (P2 & B2 & S2 & R2 & V2);
    [lia| |by apply reg_u32|].
  { unfold spsr. rewrite S1, B1, nthZ_updZ, Z.eqb_refl by (rewrite ?(wf_Spsr st Hw); lia). done. }
  split; [exact P2|]. split; [by rewrite <- L1|].
  assert (V : same_view [phys (ModeToBank m) 14; phys (ModeToBank m) 15] st
                (WriteSR15 st1 (reg st1 14))).
  { eapply same_view_incl; [|exact (same_view_trans _ _ _ _ _ V1 V2)].
    cbn. rewrite !phys15. tauto. }
  split; [exact V|]. split.
  - intros b Hb0 Hne. unfold spsr. rewrite S2, S1, nthZ_updZ by (rewrite ?(wf_Spsr st Hw); lia).
    by rewrite (proj2 (Z.eqb_neq b _) Hne).
  - intros Hne r Hr. destruct (mode32_bank _ (wf_mode st Hw)) as [Hreal _].
    rewrite <- (wf_Bank st Hw) in Hreal. rewrite <- (arm_view_current st) by lia.
    rewrite <- (arm_view_current (WriteSR15 _ _)), B2 by lia.
    apply V; [done|lia|]. rewrite phys15. intros [E|[E|[]]]; injection E as E1 E2; [|lia].
    subst r. apply Hne, (exc_bank_inj _ _ (wf_mode st Hw) Hm). rewrite <- (wf_Bank st Hw).
    change (ModeToBank m = Bank st) in E1. by rewrite E1.
Qed.
