(* ===== verification/Config.v ===== *)
(** * The configuration file

    utils/config/skyeye_config.c: the split of a line into parameters and the table of
    options; skyeye_options.c: [split_param] and the options that only set fields of the
    configuration; memory/parse_mem.c: the memory banks.  The options that open devices,
    files or call an architecture give [None]: they are not modelled.  Messages are not
    modelled. *)

From Stdlib Require Import ZArith Lia Bool Ascii String.
From stdpp Require Import base numbers option list strings.
From S2P Require Import Prelude Words Bus Isa Memory.

Open Scope Z_scope.
Open Scope list_scope.

(** ** C strings: the characters before the NUL *)

Definition cstr : Type := list ascii.
Definition lit (s : string) : cstr := list_ascii_of_string s.
Definition slen (s : cstr) : Z := Z.of_nat (length s).
Definition ch (a : ascii) : Z := Z.of_N (N_of_ascii a).

(** [!strncmp (key, s, strlen (s))]: [s] is a prefix of [key], the empty string
    included. *)
Fixpoint strncmp_len (key s : cstr) : bool :=
  match s, key with
  | [], _ => true
  | _ :: _, [] => false
  | a :: s, b :: key => Ascii.eqb a b && strncmp_len key s
  end.

(** [!strncmp (a, b, n)]. *)
Definition strncmp_n (a b : cstr) (n : nat) : bool :=
  bool_decide (firstn n a = firstn n b).

Definition isspace (a : ascii) : bool := (ch a =? 32) || ((9 <=? ch a) && (ch a <=? 13)).

(** ** strtoul *)

(** The value of a digit, in any base up to 16. *)
Definition digit_of (a : ascii) : option Z :=
  let c := ch a in
  if (48 <=? c) && (c <=? 57) then Some (c - 48)
  else if (97 <=? c) && (c <=? 102) then Some (c - 87)
  else if (65 <=? c) && (c <=? 70) then Some (c - 55)
  else None.

Fixpoint strtoul_digits (base acc : Z) (s : cstr) : Z :=
  match s with
  | [] => acc
  | a :: s =>
      match digit_of a with
      | Some d => if d <? base then strtoul_digits base (acc * base + d) s else acc
      | None => acc
      end
  end.

Fixpoint skip_spaces (s : cstr) : cstr :=
  match s with
  | [] => []
  | a :: s' => if isspace a then skip_spaces s' else s
  end.

(** ULONG_MAX, by the width of the host's [long]. *)
Definition ULONG_MAX (lp64 : bool) : Z := if lp64 then 18446744073709551615 else 4294967295.

(** [strtoul (s, NULL, base)] for the bases 10 and 16: a sign is allowed and a value
    that is too large gives ULONG_MAX. *)
Definition strtoul (lp64 : bool) (s : cstr) (base : Z) : Z :=
  let s := skip_spaces s in
  let '(neg, s) :=
    match s with
    | a :: s' => if ch a =? 45 then (true, s') else if ch a =? 43 then (false, s') else (false, s)
    | [] => (false, s)
    end in
  let s :=
    match s with
    | a :: b :: s' =>
        if (base =? 16) && (ch a =? 48) && ((ch b =? 120) || (ch b =? 88)) then s' else s
    | _ => s
    end in
  let v := strtoul_digits base 0 s in
  if ULONG_MAX lp64 <? v then ULONG_MAX lp64
  else if neg then (- v) mod (ULONG_MAX lp64 + 1) else v.

(** [strtoul (s, NULL, 0)]: the base is the one of the prefix. *)
Definition strtoul0 (lp64 : bool) (s : cstr) : Z :=
  let t := skip_spaces s in
  let t := match t with
           | a :: t' => if (ch a =? 45) || (ch a =? 43) then t' else t
           | [] => t
           end in
  match t with
  | a :: b :: _ =>
      if (ch a =? 48) && ((ch b =? 120) || (ch b =? 88)) then strtoul lp64 s 16
      else if ch a =? 48 then strtoul lp64 s 8 else strtoul lp64 s 10
  | _ => strtoul lp64 s 10
  end.

(** [if (value[0] == '0' && value[1] == 'x') strtoul (value, NULL, 16) else ...10]. *)
Definition parse_number (lp64 : bool) (value : cstr) : Z :=
  match value with
  | a :: b :: _ =>
      if (ch a =? 48) && (ch b =? 120) then u32 (strtoul lp64 value 16)
      else u32 (strtoul lp64 value 10)
  | _ => u32 (strtoul lp64 value 10)
  end.

(** ** Parameters (skyeye_options.c) *)

Definition MAX_PARAM_NAME : Z := 32.
Definition MAX_OPTION_NAME : Z := 32.

(** A local [char value[MAX_PARAM_NAME]]: not set before the first value is stored. *)
Definition buffer : Type := option cstr.

(** The characters before the first [c], and the rest from it on. *)
Fixpoint span_until (c : ascii) (s : cstr) : cstr * cstr :=
  match s with
  | [] => ([], [])
  | a :: s' =>
      if Ascii.eqb a c then ([], s)
      else let (p, r) := span_until c s' in (a :: p, r)
  end.

(** The return value, the name and the value; a name or a value that does not fit its
    buffer overruns it.  Without an equals sign the value keeps what it had. *)
Definition split_param (param : cstr) (value : buffer) : result (Z * cstr * buffer) :=
  let (name, src) := span_until "=" param in
  if MAX_PARAM_NAME <=? slen name then Undef
  else match src with
       | [] => Val (-1, name, value)
       | _ :: src => if MAX_PARAM_NAME <=? slen src then Undef else Val (0, name, Some src)
       end.

(** A use of a local that may not be set. *)
Definition need {A : Type} (v : option A) : result A :=
  match v with Some a => Val a | None => Undef end.

(** The loop of the options: [split_param], whose failure only prints, and the body. *)
Fixpoint each_param {S : Type} (body : S -> cstr -> buffer -> result S) (params : list cstr)
    (value : buffer) (s : S) : result S :=
  match params with
  | [] => Val s
  | p :: params =>
      let! (_, name, value) := split_param p value in
      let! s := body s name value in
      each_param body params value s
  end.

(** ** The configuration *)

(** The memory map, with the fields the look-up of bank_ops.c does not use. *)
Record memconf : Type := {
  map_of : mem_config;
  bank_num : Z;
  filenames : list cstr;  (* mem_banks[i].filename *)
  start_address : Z  (* skyeye_config.start_address *)
}.

Record energy_config : Type := {
  energy_prof : Z;
  energy_filename : cstr;
  energy_logfile : cstr
}.

Record dbct_config : Type := { no_dbct : Z; tb_tbt_size : Z; tb_tbp_size : Z }.

Record code_cov_config : Type := {
  prof_on : Z;
  prof_filename : cstr;
  cov_start : Z;
  cov_end : Z
}.

(** [skyeye_config] and the counters [do_num] of the option table; [arch] is an index
    of [skyeye_archs]. *)
Record config : Type := {
  conf_mem : memconf;
  arch : option nat;
  energy : energy_config;
  dbct : dbct_config;
  code_cov : code_cov_config;
  can_step_disassemble : Z;
  do_nums : list Z
}.

Definition set_conf_mem (c : config) (v : memconf) : config :=
  {| conf_mem := v; arch := arch c; energy := energy c; dbct := dbct c;
     code_cov := code_cov c; can_step_disassemble := can_step_disassemble c;
     do_nums := do_nums c |}.
Definition set_arch (c : config) (v : option nat) : config :=
  {| conf_mem := conf_mem c; arch := v; energy := energy c; dbct := dbct c;
     code_cov := code_cov c; can_step_disassemble := can_step_disassemble c;
     do_nums := do_nums c |}.
Definition set_energy (c : config) (v : energy_config) : config :=
  {| conf_mem := conf_mem c; arch := arch c; energy := v; dbct := dbct c;
     code_cov := code_cov c; can_step_disassemble := can_step_disassemble c;
     do_nums := do_nums c |}.
Definition set_dbct (c : config) (v : dbct_config) : config :=
  {| conf_mem := conf_mem c; arch := arch c; energy := energy c; dbct := v;
     code_cov := code_cov c; can_step_disassemble := can_step_disassemble c;
     do_nums := do_nums c |}.
Definition set_code_cov (c : config) (v : code_cov_config) : config :=
  {| conf_mem := conf_mem c; arch := arch c; energy := energy c; dbct := dbct c;
     code_cov := v; can_step_disassemble := can_step_disassemble c; do_nums := do_nums c |}.
Definition set_step (c : config) (v : Z) : config :=
  {| conf_mem := conf_mem c; arch := arch c; energy := energy c; dbct := dbct c;
     code_cov := code_cov c; can_step_disassemble := v; do_nums := do_nums c |}.
Definition set_do_nums (c : config) (v : list Z) : config :=
  {| conf_mem := conf_mem c; arch := arch c; energy := energy c; dbct := dbct c;
     code_cov := code_cov c; can_step_disassemble := can_step_disassemble c; do_nums := v |}.

(** ** Memory banks (parse_mem.c) *)

(** [mb[num].field = ...;]: the bank a parameter changes. *)
Definition upd_bank (m : memconf) (num : nat) (f : mem_bank -> mem_bank) : memconf :=
  let mc := map_of m in
  {| map_of := {| current_num := current_num mc; mem_banks := alter f num (mem_banks mc);
                  mbp := mbp mc; insn_mbp := insn_mbp mc |};
     bank_num := bank_num m; filenames := filenames m; start_address := start_address m |}.

Definition bank_set_map (r : bank_reader) (w : bank_writer) (t : Z) (b : mem_bank) : mem_bank :=
  {| bank_addr := bank_addr b; bank_len := bank_len b; bank_write_op := Some w;
     bank_read_op := Some r; has_filename := has_filename b; bank_type := t |}.
Definition bank_set_readonly (b : mem_bank) : mem_bank :=
  {| bank_addr := bank_addr b; bank_len := bank_len b; bank_write_op := Some warn_write_fn;
     bank_read_op := bank_read_op b; has_filename := has_filename b;
     bank_type := if bank_type b =? MEMTYPE_RAM then MEMTYPE_ROM else bank_type b |}.
Definition bank_set_addr (v : Z) (b : mem_bank) : mem_bank :=
  {| bank_addr := v; bank_len := bank_len b; bank_write_op := bank_write_op b;
     bank_read_op := bank_read_op b; has_filename := has_filename b; bank_type := bank_type b |}.
Definition bank_set_len (v : Z) (b : mem_bank) : mem_bank :=
  {| bank_addr := bank_addr b; bank_len := v; bank_write_op := bank_write_op b;
     bank_read_op := bank_read_op b; has_filename := has_filename b; bank_type := bank_type b |}.
Definition bank_set_file (v : bool) (b : mem_bank) : mem_bank :=
  {| bank_addr := bank_addr b; bank_len := bank_len b; bank_write_op := bank_write_op b;
     bank_read_op := bank_read_op b; has_filename := v; bank_type := bank_type b |}.

(** [strncpy (mb[num].filename, value, strlen (value) + 1)]: at most 32 of 1024 bytes. *)
Definition set_filename (m : memconf) (num : nat) (v : cstr) : memconf :=
  let m := upd_bank m num (bank_set_file (negb (slen v =? 0))) in
  {| map_of := map_of m; bank_num := bank_num m; filenames := <[num := v]> (filenames m);
     start_address := start_address m |}.
Definition set_start (m : memconf) (v : Z) : memconf :=
  {| map_of := map_of m; bank_num := bank_num m; filenames := filenames m; start_address := v |}.

Section host.
Context (lp64 : bool).

(** The body of the loop. *)
Definition mem_param (num : nat) (m : memconf) (name : cstr) (value : buffer)
    : result memconf :=
  if strncmp_len (lit "map") name then
    let! v := need value in
    if strncmp_len (lit "M") v then
      Val (upd_bank m num (bank_set_map mem_read_fn mem_write_fn MEMTYPE_RAM))
    else if strncmp_len (lit "I") v then
      Val (upd_bank m num (bank_set_map io_read_fn io_write_fn MEMTYPE_IO))
    else if strncmp_len (lit "F") v then
      Val (upd_bank m num (bank_set_map flash_read_fn flash_write_fn MEMTYPE_FLASH))
    else Val m
  else if strncmp_len (lit "type") name then
    let! v := need value in
    if strncmp_len (lit "R") v then Val (upd_bank m num bank_set_readonly) else Val m
  else if strncmp_len (lit "addr") name then
    let! v := need value in Val (upd_bank m num (bank_set_addr (parse_number lp64 v)))
  else if strncmp_len (lit "size") name then
    let! v := need value in Val (upd_bank m num (bank_set_len (parse_number lp64 v)))
  else if strncmp_len (lit "file") name then
    let! v := need value in Val (set_filename m num v)
  else if strncmp_len (lit "boot") name then
    let! v := need value in
    if strncmp_len (lit "yes") v then
      let! b := need (mem_banks (map_of m) !! num) in Val (set_start m (bank_addr b))
    else Val m
  else Val m.

(** [mc->bank_num = mc->current_num++; mb[num].filename[0] = '\0';] *)
Definition new_bank (m : memconf) : memconf :=
  let mc := map_of m in
  {| map_of := {| current_num := current_num mc + 1; mem_banks := mem_banks mc;
                  mbp := mbp mc; insn_mbp := insn_mbp mc |};
     bank_num := current_num mc; filenames := filenames m; start_address := start_address m |}.

(** The table has MAX_BANK entries. *)
Definition parse_mem (params : list cstr) (m : memconf) : result (Z * memconf) :=
  let num := current_num (map_of m) in
  if (num <? 0) || (MAX_BANK <=? num) then Undef
  else
    let n := Z.to_nat num in
    let m := set_filename (new_bank m) n [] in
    let! m := each_param (mem_param n) params None m in
    Val (0, m).

(** ** The other options that set fields (skyeye_options.c) *)

Definition energy_param (e : energy_config) (name : cstr) (value : buffer)
    : result energy_config :=
  if strncmp_len (lit "state") name then
    let! v := need value in
    Val {| energy_prof := if strncmp_len (lit "on") v then 1 else 0;
           energy_filename := energy_filename e; energy_logfile := energy_logfile e |}
  else if strncmp_len (lit "filename") name then
    let! v := need value in
    Val {| energy_prof := energy_prof e; energy_filename := v;
           energy_logfile := energy_logfile e |}
  else if strncmp_len (lit "logfile") name then
    let! v := need value in
    Val {| energy_prof := energy_prof e; energy_filename := energy_filename e;
           energy_logfile := v |}
  else Val e.

(** Three tests one after the other, not alternatives. *)
Definition dbct_param (d : dbct_config) (name : cstr) (value : buffer) : result dbct_config :=
  let! d :=
    (if strncmp_len (lit "state") name then
       let! v := need value in
       Val {| no_dbct := if strncmp_len (lit "on") v then 0 else 1;
              tb_tbt_size := tb_tbt_size d; tb_tbp_size := tb_tbp_size d |}
     else Val d) in
  let! d :=
    (if strncmp_len (lit "tbt") name then
       let! v := need value in
       Val {| no_dbct := no_dbct d; tb_tbt_size := u32 (strtoul0 lp64 v);
              tb_tbp_size := tb_tbp_size d |}
     else Val d) in
  if strncmp_len (lit "tbp") name then
    let! v := need value in
    Val {| no_dbct := no_dbct d; tb_tbt_size := tb_tbt_size d;
           tb_tbp_size := u32 (strtoul0 lp64 v) |}
  else Val d.

(** [start] and [end] are [int] fields. *)
Definition code_cov_param (d : code_cov_config) (name : cstr) (value : buffer)
    : result code_cov_config :=
  if strncmp_len (lit "state") name then
    let! v := need value in
    Val {| prof_on := if strncmp_len (lit "on") v then 1 else 0;
           prof_filename := prof_filename d; cov_start := cov_start d; cov_end := cov_end d |}
  else if strncmp_len (lit "filename") name then
    let! v := need value in
    Val {| prof_on := prof_on d; prof_filename := v; cov_start := cov_start d;
           cov_end := cov_end d |}
  else if strncmp_len (lit "start") name then
    let! v := need value in
    Val {| prof_on := prof_on d; prof_filename := prof_filename d;
           cov_start := s32 (strtoul0 lp64 v); cov_end := cov_end d |}
  else if strncmp_len (lit "end") name then
    let! v := need value in
    Val {| prof_on := prof_on d; prof_filename := prof_filename d; cov_start := cov_start d;
           cov_end := s32 (strtoul0 lp64 v) |}
  else Val d.

Definition do_energy_option (params : list cstr) (c : config) : result (Z * config) :=
  let! e := each_param energy_param params None (energy c) in Val (0, set_energy c e).
Definition do_dbct_option (params : list cstr) (c : config) : result (Z * config) :=
  let! d := each_param dbct_param params None (dbct c) in Val (0, set_dbct c d).
Definition do_code_cov_option (params : list cstr) (c : config) : result (Z * config) :=
  let! d := each_param code_cov_param params None (code_cov c) in Val (0, set_code_cov c d).
Definition do_mem_bank_option (params : list cstr) (c : config) : result (Z * config) :=
  let! (r, m) := parse_mem params (conf_mem c) in Val (r, set_conf_mem c m).

(** The loop returns in its first pass or goes on with the same parameter. *)
Definition do_step_disassemble_option (params : list cstr) (c : config) : result (Z * config) :=
  match params with
  | [] => Val (-1, c)
  | p :: _ =>
      if strncmp_n p (lit "on") 2 || strncmp_n p (lit "ON") 2 then Val (0, set_step c 1)
      else if strncmp_n p (lit "off") 3 || strncmp_n p (lit "OFF") 3 then Val (0, set_step c 0)
      else Val (-1, c)
  end.

(** [skyeye_archs]: the names of the registered architectures. *)
Context (skyeye_archs : list (option cstr)).

Fixpoint find_arch (i : nat) (l : list (option cstr)) (name : cstr) : option nat :=
  match l with
  | [] => None
  | None :: l => find_arch (S i) l name
  | Some n :: l =>
      if strncmp_n name n (Z.to_nat MAX_PARAM_NAME) then Some i else find_arch (S i) l name
  end.

(** Without a parameter the comparison reads through a null pointer. *)
Definition do_arch_option (params : list cstr) (c : config) : result (Z * config) :=
  match params with
  | [] => Undef
  | name :: _ =>
      match find_arch 0 skyeye_archs name with
      | Some i => Val (0, set_arch c (Some i))
      | None => Val (-1, c)
      end
  end.

(** ** The option table (skyeye_config.c) *)

Inductive option_fun : Type :=
| do_arch | do_mem_bank | do_energy | do_dbct | do_step_disassemble | do_code_cov
| do_unmodelled.

Record skyeye_option_t : Type := {
  opt_name : cstr;
  do_option : option_fun;
  max_do_num : Z
}.

Definition opt (name : string) (f : option_fun) (m : Z) : skyeye_option_t :=
  {| opt_name := lit name; do_option := f; max_do_num := m |}.

Definition skyeye_options : list skyeye_option_t :=
  [opt "arch" do_arch 1; opt "cpu" do_unmodelled 1; opt "mach" do_unmodelled 1;
   opt "mem_bank" do_mem_bank MAX_BANK; opt "net" do_unmodelled 10; opt "energy" do_energy 1;
   opt "uart" do_unmodelled 8; opt "lcd" do_unmodelled 1; opt "flash" do_unmodelled 1;
   opt "nandflash" do_unmodelled 1; opt "touchscreen" do_unmodelled 1;
   opt "sound" do_unmodelled 1; opt "rwio" do_unmodelled 1; opt "sefsio" do_unmodelled 1;
   opt "dbct" do_dbct 3; opt "log" do_unmodelled 3; opt "regfile" do_unmodelled 1;
   opt "load_addr" do_unmodelled 3; opt "step_disassemble" do_step_disassemble 1;
   opt "code_coverage" do_code_cov 1].

(** What a line does; [None] is an option that is not modelled. *)
Definition run_option (f : option_fun) (params : list cstr) (c : config)
    : option (result (Z * config)) :=
  match f with
  | do_arch => Some (do_arch_option params c)
  | do_mem_bank => Some (do_mem_bank_option params c)
  | do_energy => Some (do_energy_option params c)
  | do_dbct => Some (do_dbct_option params c)
  | do_step_disassemble => Some (do_step_disassemble_option params c)
  | do_code_cov => Some (do_code_cov_option params c)
  | do_unmodelled => None
  end.

(** The search in the table from entry [i] on. *)
Fixpoint find_option (i : nat) (l : list skyeye_option_t) (name : cstr)
    : option (nat * skyeye_option_t) :=
  match l with
  | [] => None
  | o :: l =>
      if strncmp_n (opt_name o) name (Z.to_nat MAX_OPTION_NAME) then Some (i, o)
      else find_option (S i) l name
  end.

Definition parse_line_formatted (params : list cstr) (c : config)
    : option (result (Z * config)) :=
  match params with
  | [] => Some (Val (0, c))
  | name :: args =>
      match find_option 0 skyeye_options name with
      | None => Some (Val (-1, c))
      | Some (i, o) =>
          let num := nth i (do_nums c) 0 + 1 in
          let c := set_do_nums c (<[i := num]> (do_nums c)) in
          if max_do_num o <? num then Some (Val (-1, c)) else run_option (do_option o) args c
      end
  end.

(** ** The split of a line *)

(** One call of [strtok]: the separators in front are skipped, the token ends at the
    next one. *)
Fixpoint skip_sep (c : ascii) (s : cstr) : cstr :=
  match s with
  | [] => []
  | a :: s' => if Ascii.eqb a c then skip_sep c s' else s
  end.

Definition strtok (c : ascii) (s : cstr) : option (cstr * cstr) :=
  match skip_sep c s with
  | [] => None
  | s => let (tok, rest) := span_until c s in Some (tok, tl rest)
  end.

(** The characters of a token that are kept: quotes (34) toggle, a [#] outside quotes starts
    a comment, spaces outside quotes are dropped. *)
Fixpoint scan_token (tok : cstr) (inquotes : bool) : cstr * bool * bool :=
  match tok with
  | [] => ([], inquotes, false)
  | a :: tok =>
      if ch a =? 34 then scan_token tok (negb inquotes)
      else if Ascii.eqb a "#" && negb inquotes then ([], inquotes, true)
      else
        let '(s, q, comment) := scan_token tok inquotes in
        (if negb (isspace a) || inquotes then a :: s else s, q, comment)
  end.

Definition STRING_LEN : Z := 512.
Definition MAX_PARAMS_LEN : Z := 40.

(** The loop over the tokens: the parameters so far, in order.  The 41st is stored
    behind the array, which is tested before the count is; [None] is out of fuel. *)
Fixpoint params_loop (fuel : nat) (tok : option (cstr * cstr)) (inquotes comment : bool)
    (params : list cstr) : option (result (list cstr)) :=
  match tok with
  | None => Some (Val params)
  | Some (tok, rest) =>
      if comment then Some (Val params)
      else match fuel with
           | O => None
           | S fuel =>
               let '(s, inquotes, comment) := scan_token tok inquotes in
               if STRING_LEN <=? slen s then Some Undef
               else if slen s =? 0 then Some (Val params)
               else if MAX_PARAMS_LEN <=? Z.of_nat (length params) then Some Undef
               else params_loop fuel (strtok "," rest) inquotes comment (params ++ [s])
           end
  end.

Definition split_line (line : cstr) : option (result (list cstr)) :=
  params_loop (S (length line)) (strtok ":" line) false false [].

Definition parse_line_unformatted (line : cstr) (c : config) : option (result (Z * config)) :=
  if forallb isspace line then Some (Val (0, c))
  else match split_line line with
       | Some (Val params) => parse_line_formatted params c
       | Some (Exit n) => Some (Exit n)
       | Some Sigint => Some Sigint
       | Some Undef => Some Undef
       | None => None
       end.

(** ** The lines of the file (skyeye_read_config) *)

(** [fgets (line, n + 1, config_fd)]: the characters read and the ones left; whether
    the end of the file was met. *)
Fixpoint fgets (n : nat) (file : cstr) : cstr * cstr * bool :=
  match n with
  | O => ([], file, false)
  | S n =>
      match file with
      | [] => ([], [], true)
      | a :: file =>
          if ch a =? 10 then ([a], file, false)
          else let '(s, rest, eof) := fgets n file in (a :: s, rest, eof)
      end
  end.

Definition LINE_LEN : nat := 1022.

(** The loop up to the end of the file or the first error: the last character of the
    line is cut off, newline or not. *)
Fixpoint read_lines (fuel : nat) (file : cstr) (line : buffer) (c : config)
    : option (result (Z * config)) :=
  match fuel with
  | O => None
  | S fuel =>
      let '(s, rest, eof) := fgets LINE_LEN file in
      let null := match s with [] => true | _ => false end in
      let line := if null then line else Some s in
      match line with
      | None => Some Undef
      | Some l =>
          let l := removelast l in
          let r :=
            if negb null && negb (slen l =? 0) then parse_line_unformatted l c
            else Some (Val (0, c)) in
          match r with
          | Some (Val (code, c)) =>
              if code <? 0 then Some (Val (-1, c))
              else if eof then Some (Val (0, c)) else read_lines fuel rest (Some l) c
          | r => r
          end
      end
  end.
End host.
