(* ===== verification/ConfigProps.v ===== *)
(** * The configuration file: lines, numbers and the bank table *)

From Stdlib Require Import ZArith Lia Bool Ascii String.
From stdpp Require Import base numbers option list strings.
From S2P Require Import Prelude Words Bus Isa Memory Config.

Open Scope Z_scope.
Open Scope list_scope.

(** ** Splitting a line always ends *)

Lemma span_until_length c s : (length (span_until c s).1 + length (span_until c s).2 = length s)%nat.
Proof.
  induction s as [|a s IH]; cbn; [done|]. destruct (Ascii.eqb a c); cbn; [done|].
  destruct (span_until c s) as [p r]. cbn in *. lia.
Qed.

Lemma skip_sep_length c s : (length (skip_sep c s) <= length s)%nat.
Proof. induction s as [|a s IH]; cbn; [done|]. destruct (Ascii.eqb a c); cbn; lia. Qed.

Lemma skip_sep_head c s a t : skip_sep c s = a :: t -> Ascii.eqb a c = false.
Proof.
  induction s as [|b s IH]; cbn; [done|]. destruct (Ascii.eqb b c) eqn:E; [done|].
  by intros [= -> ->].
Qed.

(** A token is at least one character long. *)
Lemma strtok_shorter c s tok rest : strtok c s = Some (tok, rest) -> (length rest < length s)%nat.
Proof.
  unfold strtok. pose proof (skip_sep_length c s) as Hl.
  destruct (skip_sep c s) as [|a t] eqn:E; [done|]. apply skip_sep_head in E.
  pose proof (span_until_length c (a :: t)) as Hs. cbn [span_until] in *. rewrite E in *.
  destruct (span_until c t) as [p r]. cbn in *. intros [= _ <-].
  destruct r; cbn in *; lia.
Qed.

Lemma params_loop_total fuel tok q comment params :
  (forall t r, tok = Some (t, r) -> (length r < fuel)%nat) ->
  params_loop fuel tok q comment params <> None.
Proof.
  revert tok q comment params. induction fuel as [|fuel IH]; intros tok q comment params H;
    destruct tok as [[t r]|]; cbn; try done.
  - specialize (H t r eq_refl). lia.
  - destruct comment; [done|]. destruct (scan_token t q) as [[s q'] comment'].
    repeat case_match; try done. apply IH. intros t' r' E. apply strtok_shorter in E.
    specialize (H t r eq_refl). lia.
Qed.

(** The split of a line into parameters ends for every line: the loop over the
    tokens runs at most once per character and never out of fuel. *)
Theorem split_line_total line : split_line line <> None.
Proof.
  apply params_loop_total. intros t r E. apply strtok_shorter in E. lia.
Qed.

(** ** A line made of a name and parameters gives them back *)

(** The characters that stand for themselves. *)
Definition plain (a : ascii) : bool :=
  negb (ch a =? 34) && negb (Ascii.eqb a "#") && negb (isspace a)
  && negb (Ascii.eqb a ":") && negb (Ascii.eqb a ",").

(** A parameter: plain characters and colons, at least one and at most 511. *)
Definition plain_param (p : cstr) : Prop :=
  p <> [] /\ (length p < 512)%nat /\ forallb (fun a => plain a || Ascii.eqb a ":") p = true.

Definition plain_name (p : cstr) : Prop :=
  p <> [] /\ (length p < 512)%nat /\ forallb plain p = true.

(** [name: p1, p2, ...] *)
Fixpoint print_params (ps : list cstr) : cstr :=
  match ps with
  | [] => []
  | [p] => lit " " ++ p
  | p :: ps => lit " " ++ p ++ lit "," ++ print_params ps
  end.
Definition print_line (name : cstr) (ps : list cstr) : cstr := name ++ lit ":" ++ print_params ps.

Lemma span_until_app c p s :
  forallb (fun a => negb (Ascii.eqb a c)) p = true ->
  span_until c (p ++ c :: s) = (p, c :: s) /\ span_until c p = (p, []).
Proof.
  induction p as [|a p IH]; cbn.
  - by rewrite Ascii.eqb_refl.
  - rewrite andb_true_iff, negb_true_iff. intros [-> Hp]. by destruct (IH Hp) as [-> ->].
Qed.

Lemma strtok_app c a p s :
  forallb (fun a => negb (Ascii.eqb a c)) (a :: p) = true ->
  strtok c ((a :: p) ++ c :: s) = Some (a :: p, s) /\ strtok c (a :: p) = Some (a :: p, []).
Proof.
  intros Hp. destruct (span_until_app c (a :: p) s Hp) as [E1 E2].
  cbn in Hp. rewrite andb_true_iff, negb_true_iff in Hp. destruct Hp as [Ha _].
  unfold strtok. cbn [skip_sep app]. rewrite Ha.
  rewrite app_comm_cons, E1. by rewrite E2.
Qed.

Lemma forallb_impl {A} (p q : A -> bool) l :
  (forall a, p a = true -> q a = true) -> forallb p l = true -> forallb q l = true.
Proof. rewrite !forallb_forall. auto. Qed.

(** A token of plain characters, and of a space in front of them, is kept. *)
Lemma scan_plain p :
  forallb (fun a => plain a || Ascii.eqb a ":") p = true -> scan_token p false = (p, false, false).
Proof.
  induction p as [|a p IH]; cbn [scan_token forallb]; [done|]. rewrite andb_true_iff.
  intros [Ha Hp]. rewrite (IH Hp).
  assert (H : (ch a =? 34) = false /\ Ascii.eqb a "#" = false /\ isspace a = false).
  { apply orb_true_iff in Ha as [Ha|Ha].
    - unfold plain in Ha. rewrite !andb_true_iff, !negb_true_iff in Ha. tauto.
    - apply Ascii.eqb_eq in Ha. by subst. }
  destruct H as (-> & -> & ->). done.
Qed.

Lemma scan_space p :
  forallb (fun a => plain a || Ascii.eqb a ":") p = true ->
  scan_token (lit " " ++ p) false = (p, false, false).
Proof. intros Hp. cbn. by rewrite scan_plain. Qed.

Lemma print_params_cons p ps :
  print_params (p :: ps)
  = (lit " " ++ p) ++ match ps with [] => [] | _ => lit "," ++ print_params ps end.
Proof. destruct ps; cbn; [by rewrite app_nil_r|done]. Qed.

Lemma strtok_print p ps :
  plain_param p ->
  strtok "," (print_params (p :: ps)) = Some (lit " " ++ p, print_params ps).
Proof.
  intros (Hne & _ & Hp). rewrite print_params_cons.
  assert (Hc : forallb (fun a => negb (Ascii.eqb a ",")) (lit " " ++ p) = true).
  { cbn. eapply forallb_impl; [|exact Hp]. intros a Ha. apply orb_true_iff in Ha as [Ha|Ha].
    - unfold plain in Ha. rewrite !andb_true_iff in Ha. tauto.
    - apply Ascii.eqb_eq in Ha. by subst. }
  destruct (strtok_app "," " " p (print_params ps) Hc) as [E1 E2].
  destruct ps; [by rewrite app_nil_r|exact E1].
Qed.

Lemma params_loop_print fuel ps acc :
  Forall plain_param ps -> (length ps <= fuel)%nat -> (length acc + length ps <= 40)%nat ->
  params_loop fuel (strtok "," (print_params ps)) false false acc = Some (Val (acc ++ ps)).
Proof.
  intros Hps. revert fuel acc. induction Hps as [|p ps Hp Hps IH]; intros fuel acc Hf Hl.
  - cbn. destruct fuel; cbn; by rewrite app_nil_r.
  - rewrite strtok_print by done. destruct Hp as (Hne & Hlen & Hpl). cbn in Hf, Hl.
    destruct fuel as [|fuel]; [lia|]. cbn [params_loop]. rewrite scan_space by done.
    unfold slen, STRING_LEN, MAX_PARAMS_LEN.
    rewrite (proj2 (Z.leb_gt 512 _)), (proj2 (Z.leb_gt 40 _)) by lia.
    rewrite (proj2 (Z.eqb_neq (Z.of_nat (length p)) 0)) by (destruct p; cbn; [done|lia]).
    rewrite IH by (rewrite ?length_app; cbn; lia). by rewrite <- app_assoc.
Qed.

Lemma print_params_length ps : (length ps <= length (print_params ps))%nat.
Proof.
  induction ps as [|p ps IH]; [done|]. rewrite print_params_cons, length_app.
  destruct ps; cbn in *; lia.
Qed.

Lemma split_print name ps :
  plain_name name -> Forall plain_param ps -> (length ps < 40)%nat ->
  split_line (print_line name ps) = Some (Val (name :: ps)).
Proof.
  intros (Hne & Hlen & Hpl) Hps Hn. destruct name as [|a name]; [done|].
  unfold split_line, print_line. change (lit ":" ++ print_params ps) with (":"%char :: print_params ps).
  assert (Hc : forallb (fun b => negb (Ascii.eqb b ":")) (a :: name) = true).
  { eapply forallb_impl; [|exact Hpl]. intros b Hb. unfold plain in Hb.
    rewrite !andb_true_iff in Hb. tauto. }
  destruct (strtok_app ":" a name (print_params ps) Hc) as [-> _]. cbn [params_loop].
  rewrite scan_plain by (eapply forallb_impl; [|exact Hpl]; intros b ->; done).
  unfold slen, STRING_LEN, MAX_PARAMS_LEN.
  rewrite (proj2 (Z.leb_gt 512 _)) by lia. rewrite (proj2 (Z.eqb_neq _ 0)) by (cbn; lia).
  cbn [length Z.of_nat Z.leb Z.compare]. rewrite params_loop_print; [done|done| |cbn; lia].
  rewrite length_app. cbn. pose proof (print_params_length ps). lia.
Qed.

(** ** Numbers *)

Definition hex_digit (d : Z) : ascii :=
  ascii_of_N (Z.to_N (if d <? 10 then 48 + d else 87 + d)).

(** The [n] low hexadecimal digits. *)
Fixpoint hex (n : nat) (v : Z) : cstr :=
  match n with O => [] | S n => hex n (v / 16) ++ [hex_digit (v mod 16)] end.

Lemma hex_length n v : length (hex n v) = n.
Proof. revert v. induction n as [|n IH]; intros v; cbn; [done|]. rewrite length_app, IH. cbn. lia. Qed.

Lemma hex_digit_ok d :
  0 <= d < 16 -> digit_of (hex_digit d) = Some d /\ plain (hex_digit d) = true.
Proof. intros Hd. enum_Z d 0 16; by vm_compute. Qed.

Lemma hex_plain n v : forallb plain (hex n v) = true.
Proof.
  revert v. induction n as [|n IH]; intros v; cbn; [done|]. rewrite forallb_app, IH. cbn.
  rewrite (proj2 (hex_digit_ok (v mod 16) ltac:(apply Z.mod_pos_bound; lia))). done.
Qed.

Lemma strtoul_hex n v acc s :
  strtoul_digits 16 acc (hex n v ++ s) = strtoul_digits 16 (acc * 16 ^ Z.of_nat n + v mod 16 ^ Z.of_nat n) s.
Proof.
  revert v acc s. induction n as [|n IH]; intros v acc s.
  - cbn [hex app]. change (16 ^ Z.of_nat 0) with 1. rewrite Z.mod_1_r. f_equal. lia.
  - cbn [hex]. rewrite <- app_assoc, IH. cbn [app strtoul_digits].
    assert (Hd : 0 <= v mod 16 < 16) by (apply Z.mod_pos_bound; lia).
    rewrite (proj1 (hex_digit_ok (v mod 16) Hd)), (proj2 (Z.ltb_lt (v mod 16) 16)) by lia.
    f_equal. rewrite Nat2Z.inj_succ, Z.pow_succ_r by lia.
    pose proof (Z.pow_pos_nonneg 16 (Z.of_nat n) ltac:(lia) ltac:(lia)).
    rewrite (Z.rem_mul_r v 16 (16 ^ Z.of_nat n)) by lia. ring.
Qed.

Definition hex32 (v : Z) : cstr := lit "0x" ++ hex 8 v.

Lemma strtoul_0x lp64 s :
  strtoul lp64 (lit "0x" ++ s) 16
  = let v := strtoul_digits 16 0 s in if ULONG_MAX lp64 <? v then ULONG_MAX lp64 else v.
Proof. reflexivity. Qed.

Lemma parse_hex32 lp64 v : is_u32 v -> parse_number lp64 (hex32 v) = v.
Proof.
  intros Hv. change (parse_number lp64 (hex32 v)) with (u32 (strtoul lp64 (lit "0x" ++ hex 8 v) 16)).
  rewrite strtoul_0x, <- (app_nil_r (hex 8 v)), strtoul_hex. cbn [strtoul_digits].
  change (16 ^ Z.of_nat 8) with 4294967296. rewrite Z.mul_0_l, Z.add_0_l.
  unfold is_u32 in Hv. rewrite Z.mod_small by lia. cbv zeta.
  rewrite (proj2 (Z.ltb_ge (ULONG_MAX lp64) v)) by (destruct lp64; cbn; lia).
  by apply u32_id.
Qed.

(** ** The bank table *)

(** The entry of [mem_bank] in the option table. *)
Definition mem_bank_entry : nat := 3.

Lemma find_mem_bank :
  find_option 0 skyeye_options (lit "mem_bank")
  = Some (mem_bank_entry, opt "mem_bank" do_mem_bank MAX_BANK).
Proof. by vm_compute. Qed.

(** The table: its size, the banks past the current number still empty, and no more
    banks than the option has been used. *)
Record conf_ok (c : config) : Prop := {
  ok_len : length (mem_banks (map_of (conf_mem c))) = 32%nat;
  ok_files : length (filenames (conf_mem c)) = 32%nat;
  ok_nums : length (do_nums c) = 20%nat;
  ok_num : 0 <= current_num (map_of (conf_mem c)) <= MAX_BANK;
  ok_used : current_num (map_of (conf_mem c)) <= nth mem_bank_entry (do_nums c) 0;
  ok_empty : forall i b, mem_banks (map_of (conf_mem c)) !! i = Some b ->
               current_num (map_of (conf_mem c)) <= Z.of_nat i -> bank_len b = 0
}.

Lemma split_param_eq (name v : cstr) buf :
  forallb (fun a => negb (Ascii.eqb a "=")) name = true ->
  (length name < 32)%nat -> (length v < 32)%nat ->
  split_param (name ++ "="%char :: v) buf = Val (0, name, Some v).
Proof.
  intros Hn Hl Hv. unfold split_param. destruct (span_until_app "=" name v Hn) as [-> _].
  unfold slen, MAX_PARAM_NAME. by rewrite !(proj2 (Z.leb_gt 32 _)) by lia.
Qed.

(** The bank under construction. *)
Definition with_bank (m : memconf) (n : nat) (x : mem_bank) : memconf :=
  upd_bank m n (fun _ => x).

Lemma upd_with_bank m n x f : upd_bank (with_bank m n x) n f = with_bank m n (f x).
Proof. unfold with_bank, upd_bank. cbn. by rewrite list_alter_alter_eq. Qed.

Lemma upd_bank_with m n x f :
  mem_banks (map_of m) !! n = Some x -> upd_bank m n f = with_bank m n (f x).
Proof.
  intros Hx. unfold with_bank, upd_bank. do 2 f_equal. apply list_eq. intros i.
  destruct (decide (i = n)) as [->|Hne].
  - by rewrite !list_lookup_alter_eq, Hx.
  - by rewrite !list_lookup_alter_ne.
Qed.

(** ** A bank printed and parsed *)

Inductive map_kind : Type := map_M | map_I | map_F.

Record bank_spec : Type := {
  bs_map : map_kind;
  bs_readonly : bool;
  bs_addr : Z;
  bs_size : Z;
  bs_boot : bool
}.

(** [name=value]. *)
Definition param (name : string) (v : cstr) : cstr := lit name ++ "="%char :: v.

Definition bank_params (b : bank_spec) : list cstr :=
  [param "map" (match bs_map b with map_M => lit "M" | map_I => lit "I" | map_F => lit "F" end);
   param "type" (if bs_readonly b then lit "R" else lit "RW");
   param "addr" (hex32 (bs_addr b));
   param "size" (hex32 (bs_size b))]
  ++ (if bs_boot b then [param "boot" (lit "yes")] else []).

Definition bank_line (b : bank_spec) : cstr := print_line (lit "mem_bank") (bank_params b).

(** The entry the line asks for. *)
Definition bank_of (b : bank_spec) : mem_bank :=
  {| bank_addr := bs_addr b; bank_len := bs_size b;
     bank_write_op := Some (if bs_readonly b then warn_write_fn
                            else match bs_map b with
                                 | map_M => mem_write_fn
                                 | map_I => io_write_fn
                                 | map_F => flash_write_fn
                                 end);
     bank_read_op := Some (match bs_map b with
                           | map_M => mem_read_fn
                           | map_I => io_read_fn
                           | map_F => flash_read_fn
                           end);
     has_filename := false;
     bank_type := match bs_map b with
                  | map_M => if bs_readonly b then MEMTYPE_ROM else MEMTYPE_RAM
                  | map_I => MEMTYPE_IO
                  | map_F => MEMTYPE_FLASH
                  end |}.

Lemma hex32_length v : length (hex32 v) = 10%nat.
Proof. unfold hex32. rewrite length_app, hex_length. done. Qed.

Lemma hex32_plain v : forallb plain (hex32 v) = true.
Proof. unfold hex32. rewrite forallb_app, hex_plain. done. Qed.

Lemma plain_param_app (a b : cstr) :
  a <> [] -> (length a + length b < 512)%nat -> forallb plain a = true ->
  forallb plain b = true -> plain_param (a ++ b).
Proof.
  intros Hne Hl Ha Hb. split; [by destruct a|]. rewrite length_app. split; [done|].
  eapply forallb_impl; [|rewrite forallb_app, Ha, Hb; done]. by intros x ->.
Qed.

Lemma bank_params_plain b : Forall plain_param (bank_params b).
Proof.
  unfold bank_params. apply Forall_app. split.
  - repeat (apply Forall_cons_2; [|]); [| | | |apply Forall_nil_2]; apply plain_param_app;
      cbn [length forallb]; rewrite ?hex32_length, ?hex32_plain;
      destruct (bs_map b), (bs_readonly b); done || (cbn; lia).
  - destruct (bs_boot b); [|apply Forall_nil_2]. apply Forall_cons_2; [|apply Forall_nil_2].
    split; [done|]. split; [cbn; lia|done].
Qed.

(** ** The loop over the parameters of the line *)

Lemma each_param_step {S} (body : S -> cstr -> buffer -> result S) name (v : cstr) ps value s s' :
  forallb (fun a => negb (Ascii.eqb a "=")) (lit name) = true ->
  (length (lit name) < 32)%nat -> (length v < 32)%nat ->
  body s (lit name) (Some v) = Val s' ->
  each_param body (param name v :: ps) value s = each_param body ps (Some v) s'.
Proof.
  intros Hn Hl Hv Hb. unfold param. cbn [each_param]. rewrite split_param_eq by done.
  cbn [rbind]. by rewrite Hb.
Qed.

(** What each parameter of the line does to the bank. *)
Definition map_fun (k : map_kind) : mem_bank -> mem_bank :=
  match k with
  | map_M => bank_set_map mem_read_fn mem_write_fn MEMTYPE_RAM
  | map_I => bank_set_map io_read_fn io_write_fn MEMTYPE_IO
  | map_F => bank_set_map flash_read_fn flash_write_fn MEMTYPE_FLASH
  end.

Lemma mem_param_addr lp64 n m v :
  mem_param lp64 n m (lit "addr") (Some v)
  = Val (upd_bank m n (bank_set_addr (parse_number lp64 v))).
Proof. reflexivity. Qed.

Lemma mem_param_size lp64 n m v :
  mem_param lp64 n m (lit "size") (Some v)
  = Val (upd_bank m n (bank_set_len (parse_number lp64 v))).
Proof. reflexivity. Qed.

Lemma mem_param_boot lp64 n m x :
  (n < length (mem_banks (map_of m)))%nat ->
  mem_param lp64 n (with_bank m n x) (lit "boot") (Some (lit "yes"))
  = Val (set_start (with_bank m n x) (bank_addr x)).
Proof.
  intros Hn. change (mem_param lp64 n (with_bank m n x) (lit "boot") (Some (lit "yes")))
    with (let! b := need (alter (fun _ => x) n (mem_banks (map_of m)) !! n) in
          Val (set_start (with_bank m n x) (bank_addr b))).
  rewrite list_lookup_alter_eq. destruct (lookup_lt_is_Some_2 _ _ Hn) as [y ->]. done.
Qed.

Lemma bank_params_run lp64 b n m x :
  is_u32 (bs_addr b) -> is_u32 (bs_size b) -> has_filename x = false ->
  (n < length (mem_banks (map_of m)))%nat ->
  each_param (mem_param lp64 n) (bank_params b) None (with_bank m n x)
  = let m := with_bank m n (bank_of b) in
    Val (if bs_boot b then set_start m (bs_addr b) else m).
Proof.
  intros Ha Hs Hf Hn. unfold bank_params.
  set (y := map_fun (bs_map b) x). set (z := if bs_readonly b then bank_set_readonly y else y).
  assert (E : bank_of b = bank_set_len (bs_size b) (bank_set_addr (bs_addr b) z)).
  { unfold z, y, bank_of. destruct x, (bs_map b), (bs_readonly b); cbn in *; by subst. }
  cbn [app].
  transitivity (each_param (mem_param lp64 n) (if bs_boot b then [param "boot" (lit "yes")] else [])
                  (Some (hex32 (bs_size b))) (with_bank m n (bank_of b))).
  - rewrite (each_param_step _ "map" _ _ _ _ (with_bank m n y))
      by (unfold y; destruct (bs_map b); try done; cbn; rewrite ?upd_with_bank; done || lia).
    rewrite (each_param_step _ "type" _ _ _ _ (with_bank m n z))
      by (unfold z; destruct (bs_readonly b); try done; cbn; rewrite ?upd_with_bank; done || lia).
    rewrite (each_param_step _ "addr" (hex32 (bs_addr b)) _ _ _
               (with_bank m n (bank_set_addr (bs_addr b) z))); [|done|cbn; lia|rewrite hex32_length; lia|].
    2: { by rewrite mem_param_addr, parse_hex32, upd_with_bank. }
    rewrite (each_param_step _ "size" (hex32 (bs_size b)) _ _ _ (with_bank m n (bank_of b)));
      [done|done|cbn; lia|rewrite hex32_length; lia|].
    by rewrite mem_param_size, parse_hex32, upd_with_bank, E.
  - cbv zeta. destruct (bs_boot b); [|done].
    rewrite (each_param_step _ "boot" _ _ _ _ (set_start (with_bank m n (bank_of b)) (bs_addr b)));
      [done|done|cbn; lia|cbn; lia|by apply mem_param_boot].
Qed.

(** ** A line of the file *)

Definition mem_uses (c : config) : Z := nth mem_bank_entry (do_nums c) 0.

(** The line in front of the option's function. *)
Lemma mem_bank_guard lp64 archs args c :
  parse_line_formatted lp64 archs (lit "mem_bank" :: args) c
  = let c' := set_do_nums c (<[mem_bank_entry := mem_uses c + 1]> (do_nums c)) in
    Some (if MAX_BANK <? mem_uses c + 1 then Val (-1, c')
          else do_mem_bank_option lp64 args c').
Proof.
  unfold parse_line_formatted. rewrite find_mem_bank. cbv zeta. unfold mem_uses.
  change (max_do_num (opt "mem_bank" do_mem_bank MAX_BANK)) with MAX_BANK.
  by destruct (MAX_BANK <? _).
Qed.

(** The first bank of the loop is the old entry with no file. *)
Lemma parse_mem_eq lp64 params m x :
  let n := Z.to_nat (current_num (map_of m)) in
  0 <= current_num (map_of m) < MAX_BANK ->
  mem_banks (map_of m) !! n = Some x ->
  exists m0,
    parse_mem lp64 params m
    = (let! m' := each_param (mem_param lp64 n) params None (with_bank m0 n (bank_set_file false x))
       in Val (0, m'))
    /\ map_of m0 = map_of (new_bank m) /\ start_address m0 = start_address m
    /\ filenames m0 = <[n := []]> (filenames m).
Proof.
  cbv zeta. intros Hn Hx. unfold parse_mem.
  rewrite (proj2 (Z.ltb_ge _ 0)), (proj2 (Z.leb_gt MAX_BANK _)) by lia. cbn [orb].
  set (n := Z.to_nat _) in *. unfold set_filename.
  rewrite (upd_bank_with (new_bank m) n x) by exact Hx. cbv zeta.
  exists {| map_of := map_of (new_bank m); bank_num := bank_num (new_bank m);
            filenames := <[n := []]> (filenames m); start_address := start_address m |}.
  split; [reflexivity|done].
Qed.

(** C37: A line "mem_bank: map=.., type=.., addr=0x.., size=0x..[, boot=yes]" fills the
    next free entry of the bank table with the bank it describes, counts it, sets the
    start address when it says so, and leaves the other entries alone. *)
Theorem mem_bank_line_roundtrip lp64 archs b c :
  conf_ok c -> mem_uses c < MAX_BANK -> is_u32 (bs_addr b) -> is_u32 (bs_size b) ->
  let m := conf_mem c in
  let n := Z.to_nat (current_num (map_of m)) in
  exists c',
    parse_line_unformatted lp64 archs (bank_line b) c = Some (Val (0, c'))
    /\ mem_banks (map_of (conf_mem c')) = <[n := bank_of b]> (mem_banks (map_of m))
    /\ current_num (map_of (conf_mem c')) = current_num (map_of m) + 1
    /\ start_address (conf_mem c') = (if bs_boot b then bs_addr b else start_address m)
    /\ mem_uses c' = mem_uses c + 1.
Proof.
  intros [Hl Hf Hd Hn Hu _] Huse Ha Hs. cbv zeta. unfold mem_uses in Huse.
  set (m := conf_mem c) in *. set (n := Z.to_nat _).
  assert (Hlt : (n < length (mem_banks (map_of m)))%nat) by (unfold MAX_BANK in *; lia).
  destruct (lookup_lt_is_Some_2 _ _ Hlt) as [x Hx].
  destruct (parse_mem_eq lp64 (bank_params b) m x) as (m0 & Hp & Hm0 & Hst & _);
    [lia|exact Hx|].
  unfold parse_line_unformatted.
  assert (forallb isspace (bank_line b) = false) as -> by done.
  unfold bank_line. rewrite split_print;
    [|by split; [|split; [cbn; lia|]]|apply bank_params_plain|unfold bank_params; destruct (bs_boot b); cbn; lia].
  rewrite mem_bank_guard. cbv zeta. unfold mem_uses.
  rewrite (proj2 (Z.ltb_ge MAX_BANK _)) by lia.
  set (c1 := set_do_nums c _). unfold do_mem_bank_option. change (conf_mem c1) with m.
  rewrite Hp. fold n. rewrite bank_params_run by (done || (rewrite Hm0; exact Hlt)).
  cbv zeta. cbn [rbind]. eexists. split; [reflexivity|].
  split; [|split; [|split]].
  - transitivity (alter (fun _ => bank_of b) n (mem_banks (map_of m0))); [by destruct (bs_boot b)|].
    rewrite Hm0. by rewrite list_insert_alter.
  - transitivity (current_num (map_of m0)); [by destruct (bs_boot b)|]. by rewrite Hm0.
  - destruct (bs_boot b); [done|exact Hst].
  - change (nth mem_bank_entry (<[mem_bank_entry := nth mem_bank_entry (do_nums c) 0 + 1]> (do_nums c)) 0
            = nth mem_bank_entry (do_nums c) 0 + 1).
    rewrite nth_lookup. rewrite list_lookup_insert_eq; [done|]. rewrite Hd. unfold mem_bank_entry. lia.
Qed.

(** ** The table stays well formed *)

(** What a parameter changes: entry [n], and not how many there are. *)
Record bank_frame (n : nat) (m m' : memconf) : Prop := {
  fr_len : length (mem_banks (map_of m')) = length (mem_banks (map_of m));
  fr_files : length (filenames m') = length (filenames m);
  fr_num : current_num (map_of m') = current_num (map_of m);
  fr_mbp : mbp (map_of m') = mbp (map_of m);
  fr_other : forall i, i <> n -> mem_banks (map_of m') !! i = mem_banks (map_of m) !! i
}.

#[export] Instance bank_frame_preorder n : PreOrder (bank_frame n).
Proof.
  split.
  - intros m. by split.
  - intros m1 m2 m3 [] []. split; try congruence. intros i Hi. rewrite fr_other1, fr_other0; done.
Qed.

Lemma frame_upd_bank n m f : bank_frame n m (upd_bank m n f).
Proof.
  split; cbn; try done; [apply length_alter|]. intros i Hi. by apply list_lookup_alter_ne.
Qed.

Lemma frame_set_filename n m v : bank_frame n m (set_filename m n v).
Proof.
  pose proof (frame_upd_bank n m (bank_set_file (negb (slen v =? 0)))) as [].
  split; cbn in *; try done. apply length_insert.
Qed.

Lemma frame_set_start n m v : bank_frame n m (set_start m v).
Proof. done. Qed.

Lemma frame_refl n m : bank_frame n m m.
Proof. done. Qed.

Create HintDb config.
#[export] Hint Resolve frame_upd_bank frame_set_filename frame_set_start frame_refl : config.

Lemma mem_param_frame lp64 n m name value :
  holds (bank_frame n m) (mem_param lp64 n m name value).
Proof.
  unfold mem_param. destruct value as [v|]; cbn [need rbind];
    repeat match goal with |- holds _ (if ?b then _ else _) => destruct b end;
    cbn [holds]; auto with config.
  destruct (mem_banks (map_of m) !! n); cbn; auto with config.
Qed.

Lemma each_param_frame lp64 n ps value m :
  holds (bank_frame n m) (each_param (mem_param lp64 n) ps value m).
Proof.
  revert value m. induction ps as [|p ps IH]; intros value m; cbn [each_param]; [apply frame_refl|].
  destruct (split_param p value) as [[[r name] v]| | |]; cbn [rbind]; try done.
  pose proof (mem_param_frame lp64 n m name v) as H1.
  destruct (mem_param lp64 n m name v) as [m1| | |]; cbn in *; try done.
  eapply holds_impl; [|apply IH]. intros m2 H2. by etrans.
Qed.

(** A parameter that fits the buffers and has an equals sign. *)
Definition fits (p : cstr) : Prop :=
  exists (name v : cstr), p = name ++ "="%char :: v /\ (length name < 32)%nat /\ (length v < 32)%nat
    /\ forallb (fun a => negb (Ascii.eqb a "=")) name = true.

Lemma mem_param_defined lp64 n m name v :
  (n < length (mem_banks (map_of m)))%nat -> exists m', mem_param lp64 n m name (Some v) = Val m'.
Proof.
  intros Hn. unfold mem_param. cbn [need rbind].
  destruct (lookup_lt_is_Some_2 _ _ Hn) as [b ->]. cbn [need rbind].
  repeat match goal with |- context [if ?b then _ else _] => destruct b end; eauto.
Qed.

Lemma each_param_defined lp64 n ps value m :
  Forall fits ps -> (n < length (mem_banks (map_of m)))%nat ->
  exists m', each_param (mem_param lp64 n) ps value m = Val m'.
Proof.
  intros Hps. revert value m. induction Hps as [|p ps (name & v & -> & Hl & Hv & Hn) _ IH];
    intros value m Hlt; cbn [each_param]; [eauto|].
  rewrite split_param_eq by done. cbn [rbind].
  destruct (mem_param_defined lp64 n m name v Hlt) as [m1 E]. rewrite E. cbn [rbind].
  assert (F : holds (bank_frame n m) (Val m1)) by (rewrite <- E; apply mem_param_frame).
  apply IH. by rewrite (fr_len _ _ _ F).
Qed.

(** ** The lines keep the table *)

Lemma nth_insert (l : list Z) i j v :
  (i < length l)%nat -> nth j (<[i := v]> l) 0 = if (i =? j)%nat then v else nth j l 0.
Proof.
  intros Hi. rewrite !nth_lookup. destruct (Nat.eqb_spec i j) as [->|Hne].
  - by rewrite list_lookup_insert_eq.
  - by rewrite list_lookup_insert_ne.
Qed.

(** Counting an option. *)
Lemma ok_count c i :
  conf_ok c -> (i < 20)%nat ->
  conf_ok (set_do_nums c (<[i := nth i (do_nums c) 0 + 1]> (do_nums c))).
Proof.
  intros [] Hi. split; cbn; try done; [by rewrite length_insert|].
  rewrite nth_insert by lia. destruct (Nat.eqb_spec i mem_bank_entry) as [->|]; lia.
Qed.

(** An option that leaves the memory map and the counters alone. *)
Lemma ok_same c c' :
  conf_ok c -> conf_mem c' = conf_mem c -> do_nums c' = do_nums c -> conf_ok c'.
Proof. intros [] Hm Hd. split; rewrite ?Hm, ?Hd; done. Qed.

Lemma ok_mem_bank lp64 args c r c' :
  conf_ok c -> current_num (map_of (conf_mem c)) < mem_uses c -> 
  current_num (map_of (conf_mem c)) < MAX_BANK ->
  do_mem_bank_option lp64 args c = Val (r, c') -> conf_ok c'.
Proof.
  intros [Hl Hf Hd Hn _ He] Hu Hlt. unfold do_mem_bank_option.
  set (m := conf_mem c) in *. set (n := Z.to_nat (current_num (map_of m))).
  assert (Hi : (n < length (mem_banks (map_of m)))%nat) by (unfold MAX_BANK in *; lia).
  destruct (lookup_lt_is_Some_2 _ _ Hi) as [x Hx].
  destruct (parse_mem_eq lp64 args m x ltac:(lia) Hx) as (m0 & -> & Hm0 & _ & Hf0).
  fold n. pose proof (each_param_frame lp64 n args None (with_bank m0 n (bank_set_file false x))) as F.
  destruct (each_param _ _ _ _) as [m'| | |]; cbn in *; try done. intros [= <- <-].
  assert (T : bank_frame n m0 m') by (etrans; [apply frame_upd_bank|exact F]).
  destruct T as [T1 T2 T3 _ T5]. rewrite Hm0 in T1, T3, T5. rewrite Hf0, length_insert in T2.
  cbn [map_of new_bank mem_banks current_num] in T1, T3, T5. unfold mem_uses in Hu.
  fold m in Hl, Hn, He.
  split; cbn [conf_mem set_conf_mem do_nums]; rewrite ?T1, ?T2, ?T3; try done; [lia|lia|].
  intros i b Hb Hle. rewrite T5 in Hb by lia. apply (He i b Hb). lia.
Qed.

Lemma find_option_lookup l k name i o :
  find_option k l name = Some (i, o) -> (k <= i)%nat /\ l !! (i - k)%nat = Some o.
Proof.
  revert k. induction l as [|o' l IH]; intros k; cbn [find_option]; [done|].
  destruct (strncmp_n _ _ _).
  - intros [= <- <-]. by rewrite Nat.sub_diag.
  - intros H. destruct (IH _ H) as [Hle Hl]. split; [lia|].
    by replace (i - k)%nat with (S (i - S k)) by lia.
Qed.

(** Only entry 3 handles the memory banks. *)
Lemma options_mem_bank i o :
  skyeye_options !! i = Some o -> do_option o = do_mem_bank ->
  i = mem_bank_entry /\ max_do_num o = MAX_BANK.
Proof.
  intros Hi Ho. do 20 (destruct i as [|i]; [injection Hi as <-; done|]). done.
Qed.

Lemma parse_formatted_ok lp64 archs params c r c' :
  conf_ok c -> parse_line_formatted lp64 archs params c = Some (Val (r, c')) -> conf_ok c'.
Proof.
  intros Hc. unfold parse_line_formatted. destruct params as [|name args]; [by intros [= _ <-]|].
  destruct (find_option 0 skyeye_options name) as [[i o]|] eqn:E; [|by intros [= _ <-]].
  apply find_option_lookup in E as [_ Hi]. rewrite Nat.sub_0_r in Hi. cbv zeta.
  assert (H20 : (i < 20)%nat) by (apply lookup_lt_Some in Hi; exact Hi).
  pose proof (ok_count c i Hc H20) as H1.
  set (c1 := set_do_nums c _) in *.
  destruct (Z.ltb_spec (max_do_num o) (nth i (do_nums c) 0 + 1)) as [|Hmax]; [by intros [= _ <-]|].
  destruct (do_option o) eqn:Ef; cbn [run_option]; try done; intros [= Ho].
  - unfold do_arch_option in Ho. repeat case_match; try done; injection Ho as _ <-; by apply (ok_same c1).
  - destruct (options_mem_bank i o Hi Ef) as [-> Em]. rewrite Em in Hmax.
    assert (Hu : mem_uses c1 = mem_uses c + 1).
    { unfold mem_uses, c1. cbn. rewrite nth_insert by (rewrite (ok_nums c Hc); lia). done. }
    pose proof (ok_used c Hc) as Hused. fold (mem_uses c) in Hused, Hmax.
    change (conf_mem c) with (conf_mem c1) in Hused.
    apply (ok_mem_bank lp64 args c1 r c' H1); [lia|lia|exact Ho].
  - unfold do_energy_option in Ho. destruct (each_param _ _ _ _); try done.
    injection Ho as _ <-. by apply (ok_same c1).
  - unfold do_dbct_option in Ho. destruct (each_param _ _ _ _); try done.
    injection Ho as _ <-. by apply (ok_same c1).
  - unfold do_step_disassemble_option in Ho. repeat case_match; try done; injection Ho as _ <-;
      by apply (ok_same c1).
  - unfold do_code_cov_option in Ho. destruct (each_param _ _ _ _); try done.
    injection Ho as _ <-. by apply (ok_same c1).
Qed.

(** A look-up in a table that ends with an empty bank. *)
Lemma bank_search_defined l i addr :
  (exists k b, l !! k = Some b /\ bank_len b = 0) -> exists r, bank_search l i addr = Val r.
Proof.
  revert i. induction l as [|b l IH]; intros i (k & b' & Hk & Hz); [done|]. cbn [bank_search].
  destruct (Z.eqb_spec (bank_len b) 0); [by eexists|]. destruct (bank_hit b addr); [by eexists|].
  apply IH. destruct k as [|k]; [|by exists k, b']. injection Hk as ->. done.
Qed.

Lemma bank_ptr_defined mc addr :
  cache_ok (mem_banks mc) (mbp mc) ->
  (exists k b, mem_banks mc !! k = Some b /\ bank_len b = 0) ->
  exists r, bank_ptr addr mc = Val r.
Proof.
  intros Hc Hz. unfold bank_ptr, bank_lookup.
  destruct (bank_search_defined (mem_banks mc) 0 addr Hz) as [[r i] E].
  destruct (mbp mc) as [j|] eqn:Em; [|rewrite E; by eexists].
  specialize (Hc j eq_refl). destruct (lookup_lt_is_Some_2 _ _ Hc) as [b ->].
  destruct (bank_hit b addr); [by eexists|]. rewrite E. by eexists.
Qed.

