(* ===== verification/ArmWitnesses.v ===== *)
(** * The theorems on the ARM, Thumb, the whole machine and configuration at concrete inputs *)

From Stdlib Require Import ZArith Lia Bool Ascii String.
From stdpp Require Import base numbers option list strings.
From S2P Require Import Prelude Words Bus Memory MemProps LoadStoreProps Leon2 Leon2Props.
From S2P Require Import BoardProps Witnesses ArmState ArmSupp ArmShift ArmExec Thumb.
From S2P Require Import ArmMachine ArmTlb ArmCache ArmMmu ArmMem ArmTransfer ArmCopro ArmRun.
From S2P Require Import ArmMmuTyped ArmLemmas ArmDPProps ArmMulProps ArmBanks ThumbProps.
From S2P Require Import ArmTyped ArmTlbProps ArmMachineTyped ArmRunTyped ArmCoproProps.
From S2P Require Import ArmTransferProps ArmStackProps ArmPipeProps ArmExcProps Config.
From S2P Require Import ConfigProps.

Open Scope Z_scope.
Open Scope list_scope.

(** ** States *)

(** A processor in mode [m] with the program counter at [pc], the Thumb flag [t]. *)
Definition arm_at (m pc t : Z) : ARMul_State :=
  {| Emulate := 0; Reg := [0; 0xFFFFFFFB; 7; 3; 4; 5; 6; 7; 8; 9; 10; 11; 12; 13; 14; pc];
     RegBank := replicate 7 (replicate 16 1); Cpsr := 0; Spsr := replicate 7 0;
     NFlag := 0; ZFlag := 1; CFlag := 1; VFlag := 0; IFFlags := 0; SFlag := 0; TFlag := t;
     Bank := ModeToBank m; Mode := m; NumIcycles := 0; NextInstr := 0; NtransSig := 1;
     abortSig := 0; Aborted := 0; AbortAddr := 1; bigendSig := 0; prog32Sig := 1;
     NresetSig := 1; NfiqSig := 1; NirqSig := 1; is_v4 := 1; is_v5 := 1; is_v5e := 1;
     is_XScale := 0; vector_remap_flag := 0; vector_remap_addr := 0; mmu_control := 0;
     isize := 4 |}.

Ltac words := repeat (apply Forall_cons_2; [unfold is_u32; lia|]); apply Forall_nil_2.

Lemma arm_at_wf m pc t :
  mode32 m = true -> is_u32 pc -> is_flag t -> arm_wf (arm_at m pc t).
Proof.
  intros Hm Hpc Ht. split; cbn; try done; try (by left); try (by right).
  - repeat (apply Forall_cons_2; [try exact Hpc; unfold is_u32; lia|]). apply Forall_nil_2.
  - repeat (apply Forall_cons_2; [done|]). apply Forall_nil_2.
  - repeat (apply Forall_cons_2; [words|]). apply Forall_nil_2.
  - words.
Qed.

Definition arm_user : ARMul_State := arm_at USER32MODE 0x8008 0.
Definition thumb_user : ARMul_State := arm_at USER32MODE 0x8004 1.

Lemma arm_user_wf : arm_wf arm_user.
Proof. apply arm_at_wf; [done|unfold is_u32; lia|by left]. Qed.
Lemma thumb_user_wf : arm_wf thumb_user.
Proof. apply arm_at_wf; [done|unfold is_u32; lia|by right]. Qed.
Lemma arm_user_typed : arm_typed arm_user.
Proof. apply arm_wf_typed; [exact arm_user_wf|apply is_u32_0]. Qed.

(** ** ARM *)

(** ADDS r0, r1, r2, LSL #2. *)
Definition adds_word : Z := 0xE0910102.

Lemma adds_is_dp : is_dp adds_word.
Proof. split; try (by vm_compute); [by right; left|by left]. Qed.

Lemma arm_dp_reference_witness :
  arm_wf arm_user /\ is_dp adds_word
  /\ mainswitch arm_user adds_word 0x8000 = Some (Val (dp_spec arm_user adds_word)).
Proof.
  split; [exact arm_user_wf|]. split; [exact adds_is_dp|].
  apply arm_dp_reference; [exact arm_user_wf|exact adds_is_dp].
Defined.

(** SMLALS r4, r5, r1, r2: -5 times 7 added to r5:r4. *)
Definition smlals_word : Z := 0xE0F54291.

Lemma long_multiply_exact_witness :
  exists st',
    mainswitch arm_user smlals_word 0x8000 = Some (Val st')
    /\ word64 (reg st' 5) (reg st' 4) = ((-5) * 7 + word64 5 4) mod W64
    /\ (forall i, 0 <= i -> i <> 5 -> i <> 4 -> reg st' i = reg arm_user i)
    /\ NFlag st' = 0 /\ ZFlag st' = 0 /\ CFlag st' = 1 /\ VFlag st' = 0.
Proof.
  exact (long_multiply_exact arm_user smlals_word 0x8000 arm_user_wf
           ltac:(unfold is_u32, smlals_word; lia) eq_refl eq_refl eq_refl).
Defined.

(** User mode, FIQ mode, a banked and a shared register written, and back. *)
Definition ops : list bank_op :=
  [op_write 8 100; op_mode FIQ32MODE; op_write 8 200; op_write 3 33; op_mode SVC32MODE;
   op_write 13 300; op_read 8; op_mode FIQ32MODE; op_read 8; op_read 3; op_mode USER32MODE;
   op_read 8; op_read 13].

Definition file_of (st : ARMul_State) (p : Z * Z) : Z := arm_view st p.1 p.2.

Lemma user_represents : represents arm_user {| a_mode := USER32MODE; a_file := file_of arm_user |}.
Proof.
  split; try done; [apply arm_wf_shape, arm_user_wf|].
  intros b r Hb Hr. unfold real_bank, DUMMYBANK in Hb. cbn [a_file].
  enum_Z b 0 6; enum_Z r 0 16; by vm_compute.
Qed.

Lemma register_banks_refine_witness :
  let a := {| a_mode := USER32MODE; a_file := file_of arm_user |} in
  represents arm_user a /\ Forall op_ok ops
  /\ (run_ops arm_step arm_user ops).2 = [100; 200; 33; 100; 13]
  /\ (run_ops arm_step arm_user ops).2 = (run_ops arch_step a ops).2.
Proof.
  cbv zeta. split; [exact user_represents|].
  assert (Hok : Forall op_ok ops)
    by (repeat (apply Forall_cons_2; [by vm_compute|]); apply Forall_nil_2).
  split; [exact Hok|]. split; [by vm_compute|].
  apply (register_banks_refine ops arm_user _ user_represents Hok).
Defined.

Definition after (s : step) : ARMul_State :=
  match s with Some (Val st) => st | _ => arm_user end.

Lemma execute_typed_witness :
  let st' := after (execute arm_user adds_word 0x8000) in
  execute arm_user adds_word 0x8000 = Some (Val st') /\ arm_typed st'.
Proof.
  cbv zeta. assert (E : execute arm_user adds_word 0x8000
                        = Some (Val (after (execute arm_user adds_word 0x8000)))) by by vm_compute.
  split; [exact E|]. exact (execute_typed _ _ _ _ arm_user_typed E).
Defined.

Lemma exception_roundtrip_witness :
  let st1 := ARMul_Abort arm_user ARMul_IRQV in
  let st2 := WriteSR15 st1 (reg st1 14) in
  exc_entry ARMul_IRQV (c_true (TFlag arm_user)) = Some (IRQ32MODE, IBIT, 4)
  /\ psr_parts st2 = psr_parts arm_user /\ reg st2 15 = 0x8004 /\ reg st2 13 = 13.
Proof.
  destruct (exception_roundtrip arm_user ARMul_IRQV IRQ32MODE IBIT 4 arm_user_wf eq_refl)
    as (_ & H1 & H2 & _ & _ & H3).
  split; [reflexivity|]. split; [exact H1|]. split; [exact H2|].
  exact (H3 ltac:(done) 13 ltac:(lia)).
Defined.

(** ** Thumb *)

(** LDR r1, [r2, #20]. *)
Definition ldr_thumb : thumb_instr := T_ls_imm 0 1 5 2 1.


(** CMP r1, r2 and BLT back by 16 bytes: r1 is -5, r2 is 7. *)
Lemma thumb_compare_branch_witness :
  exists st1 st2,
    execute thumb_user (enc_thumb (T_alu tCMP 2 1)) 0x8000 = Some (Val st1)
    /\ execute st1 (enc_bcc cond_LT 0xF8) 0x8002 = Some (Val st2) /\ reg st2 15 = 0x7FF6.
Proof.
  destruct (thumb_compare_branch thumb_user 2 1 cond_LT 0xF8 (enc_thumb (T_alu tCMP 2 1))
              (enc_bcc cond_LT 0xF8) 0x8000 0x8002 thumb_user_wf eq_refl ltac:(done)
              ltac:(lia) ltac:(lia) eq_refl ltac:(lia) eq_refl eq_refl)
    as (st1 & st2 & H1 & H2 & H3 & _).
  exists st1, st2. split; [exact H1|]. split; [exact H2|exact H3].
Defined.

Lemma thumb_bl_pair_witness :
  exists st',
    execute thumb_user (enc_bl2 2 * 65536 + enc_bl1 2047) 0x8000 = Some (Val st')
    /\ reg st' 15 = 0x7008 /\ reg st' 14 = 0x8005.
Proof.
  destruct (thumb_bl_pair thumb_user (enc_bl2 2 * 65536 + enc_bl1 2047) 0x8000 2047 2
              thumb_user_wf eq_refl eq_refl ltac:(lia) ltac:(lia) eq_refl)
    as (st' & H1 & H2 & H3 & _).
  exists st'. split; [exact H1|]. split; [exact H2|exact H3].
Defined.

(** ** The configuration *)

Definition empty_bank : mem_bank :=
  {| bank_addr := 0; bank_len := 0; bank_write_op := None; bank_read_op := None;
     has_filename := false; bank_type := 0 |}.

(** The static variables before the first line. *)
Definition config0 : config :=
  {| conf_mem :=
       {| map_of := {| current_num := 0; mem_banks := replicate 32 empty_bank; mbp := None;
                       insn_mbp := None |};
          bank_num := 0; filenames := replicate 32 []; start_address := 0 |};
     arch := None;
     energy := {| energy_prof := 0; energy_filename := []; energy_logfile := [] |};
     dbct := {| no_dbct := 1; tb_tbt_size := 0; tb_tbp_size := 0 |};
     code_cov := {| prof_on := 0; prof_filename := []; cov_start := 0; cov_end := 0 |};
     can_step_disassemble := 0; do_nums := replicate 20 0 |}.

Lemma config0_ok : conf_ok config0.
Proof.
  split; try done. intros i b Hb _.
  apply (list_elem_of_lookup_2 (replicate 32 empty_bank)), elem_of_replicate in Hb as [-> _].
  done.
Qed.

Definition sdram : bank_spec :=
  {| bs_map := map_M; bs_readonly := false; bs_addr := 0x40000000; bs_size := 0x800000;
     bs_boot := true |}.

Lemma mem_bank_line_roundtrip_witness :
  exists c',
    parse_line_unformatted true []
      (lit "mem_bank: map=M, type=RW, addr=0x40000000, size=0x00800000, boot=yes") config0
    = Some (Val (0, c'))
    /\ start_address (conf_mem c') = 0x40000000 /\ current_num (map_of (conf_mem c')) = 1.
Proof.
  destruct (mem_bank_line_roundtrip true [] sdram config0 config0_ok ltac:(done)
              ltac:(unfold is_u32; cbn; lia) ltac:(unfold is_u32; cbn; lia))
    as (c' & H1 & _ & H2 & H3 & _).
  exists c'. split; [exact H1|]. split; [exact H3|exact H2].
Defined.


(** * The theorems on the ARM machine at concrete inputs

    A machine with one RAM bank at 0, a processor in user mode and the memory management
    unit after its initialisation; translation tables with one section; a stack; the loop
    on a program of three instructions. *)

Open Scope Z_scope.
Open Scope list_scope.

(** ** A machine with RAM *)

Definition junk_entry : tlb_entry_t :=
  {| virt_addr := 0; phys_addr := 0; perms := 0; domain := 0; mapping := TLB_INVALID |}.
Definition mmu_zero : mmu_state :=
  {| translation_table_base := 0; domain_access_control := 0; fault_status := 0;
     fault_address := 0; last_domain := 0;
     the_cache := mmu_cache_init 0 16 4 128 CACHE_WRITE_THROUGH;
     the_tlb := mmu_tlb_init junk_entry 64 |}.

(** The words [prog] at 0, the processor [st]. *)
Definition ram_machine (prog : list Z) (st : ARMul_State) : arm_machine (memsys leon2) :=
  let m :=
    a71_mmu_init junk_entry 0
      {| core := st; mmu := mmu_zero; abus := board prog l0 None; NumScycles := 0;
         NumNcycles := 0; lateabtSig := 0; is_v6 := 0; EndCondition := 0;
         cpu_val := 0x41807100; is_armv4 := true; skyeye_cachetype := 0 |} in
  set_core m st.

Lemma board_inv prog :
  Forall is_u32 prog -> bus_inv (board prog l0 None).
Proof.
  intros Hu. split; [done| |exact l0_wf]. apply Forall_cons_2; [done|by apply Forall_cons_2].
Qed.

Lemma ram_machine_typed K prog st :
  arm_typed_at K st -> Forall is_u32 prog -> machine_typed K (ram_machine prog st).
Proof.
  intros Ht Hu. split; [done|]. unfold ram_machine. cbv zeta.
  assert (Hm : unit_ok (a71_mmu_init junk_entry 0
    {| core := st; mmu := mmu_zero; abus := board prog l0 None; NumScycles := 0;
         NumNcycles := 0; lateabtSig := 0; is_v6 := 0; EndCondition := 0;
         cpu_val := 0x41807100; is_armv4 := true; skyeye_cachetype := 0 |})).
  { apply a71_mmu_init_ok; [unfold is_u32; lia|by apply board_inv]. }
  destruct Hm as [Hs Hb]. by split.
Qed.

(** The RAM of the board. *)
Definition board_ram (prog : list Z) : RamBus (memsys leon2) :=
  bank_ram_bus 0 (ram_at_0 (4 * Z.of_nat (length prog))).

Lemma board_ram_at prog a :
  ram_size_ok prog -> Forall is_u32 prog -> 0 <= a -> a + 4 <= 4 * Z.of_nat (length prog) ->
  a mod 4 = 0 -> ram_at (RamBus := board_ram prog) (board prog l0 None) a.
Proof.
  intros Hp Hu Ha Hl Hm. split; [by apply board_ram_bank|]. split; [|done].
  unfold in_bank. cbn [bank_addr bank_len ram_at_0]. lia.
Qed.

Lemma board_word_at prog a :
  word_at (RamBus := board_ram prog) (board prog l0 None) a = nthZ prog (a / 4).
Proof. cbn [word_at board_ram bank_ram_bus]. unfold bank_word. cbn. by rewrite Z.sub_0_r. Qed.

(** ** One instruction *)

Definition zeros (n : nat) : list Z := replicate n 0.

(** LDR r1, [r2, #21]: 28 is a word address, and r2 is 7. *)
Definition ldr_word : Z := 0xE5921015.
Definition data_prog : list Z := zeros 7 ++ [0x12345678].

Lemma data_prog_u32 : Forall is_u32 data_prog.
Proof. unfold data_prog, zeros; cbn. words. Qed.

Definition after_m (w : wait (arm_machine (memsys leon2))) : arm_machine (memsys leon2) :=
  match w with Some (Val m) => m | _ => ram_machine [] arm_user end.

(** The processor about to fetch from [pc]. *)
Definition starting (pc : Z) : ARMul_State := set_NextInstr (arm_at USER32MODE pc 0) PRIMEPIPE.

Lemma starting_user_link pc : is_u32 pc -> arm_typed_at user_link (starting pc).
Proof.
  intros Hpc. assert (Hw : arm_wf (arm_at USER32MODE pc 0)) by (apply arm_at_wf; [done|done|by left]).
  pose proof (arm_wf_typed _ Hw is_u32_0) as [[Hs] HB]. split; [|by right].
  destruct Hs. by split.
Qed.

Lemma machine_step_typed_witness :
  let m := ram_machine data_prog arm_user in
  let m' := after_m (machine_step arm7100_mmu_ops m ldr_word 0x8000) in
  machine_step arm7100_mmu_ops m ldr_word 0x8000 = Some (Val m')
  /\ reg (core m') 1 = 0x12345678 /\ machine_typed mode_link m'.
Proof.
  intros m m'. assert (E : machine_step arm7100_mmu_ops m ldr_word 0x8000 = Some (Val m'))
    by (by vm_compute).
  split; [exact E|]. split; [by vm_compute|].
  refine (proj2 (machine_step_typed arm7100_mmu_ops arm7100_ops_ok _ _ _ _ E) _ _).
  - apply ram_machine_typed; [exact arm_user_typed|exact data_prog_u32].
  - by vm_compute.
Defined.

Lemma single_transfer_reference_witness :
  let m := ram_machine data_prog arm_user in
  plain_machine mode_link m
  /\ machine_switch arm7100_mmu_ops m ldr_word 0x8000
     = Some (single_transfer arm7100_mmu_ops m ldr_word).
Proof.
  intros m. assert (Hp : plain_machine mode_link m).
  { split; [apply ram_machine_typed; [exact arm_user_typed|exact data_prog_u32]|done|done]. }
  split; [exact Hp|].
  apply (single_transfer_reference arm7100_mmu_ops arm7100_ops_ok mode_link m ldr_word 0x8000 Hp);
    [split; by vm_compute|reflexivity].
Defined.

(** ** Translation tables *)

(** A table whose first descriptor maps the first megabyte to itself, with access for all
    in domain 0, and whose other descriptors are faults. *)
Definition table_prog : list Z := 0xC02 :: zeros 4095.

Lemma table_prog_u32 : Forall is_u32 table_prog.
Proof. apply Forall_cons_2; [unfold is_u32; lia|]. by apply Forall_replicate, is_u32_0. Qed.

Lemma nth_zeros n k : nth k (zeros n) 0 = 0.
Proof.
  unfold zeros. revert k.
  induction n as [|n IH]; intros [|k]; cbn [replicate nth]; [done..|apply IH].
Qed.

Lemma table_word i : nthZ table_prog i = if i =? 0 then 0xC02 else 0.
Proof.
  destruct (Z.eqb_spec i 0) as [->|Hi]; [done|]. unfold nthZ.
  destruct (Z.leb_spec 0 i); [|done].
  destruct (Z.to_nat i) as [|n] eqn:E; [lia|]. cbn [nth table_prog]. apply nth_zeros.
Qed.

Lemma table_walk ttb va :
  ttb = 0 -> is_u32 va ->
  ref_walk (fun a => nthZ table_prog (a / 4)) ttb false va
  = if va / 2 ^ 20 =? 0 then Some (TLB_SECTION, 0xC02, 0) else None.
Proof.
  intros -> Hv. unfold ref_walk, ref_l1. rewrite table_word.
  replace ((0 / 2 ^ 14 * 2 ^ 14 + 4 * (va / 2 ^ 20)) / 4) with (va / 2 ^ 20)
    by (Z.div_mod_to_equations; lia).
  by destruct (va / 2 ^ 20 =? 0).
Qed.

(** The unit after a flush of its buffer, with the table at 0 and domain 0 for clients. *)
Definition mapped_machine : arm_machine (memsys leon2) :=
  let m := ram_machine table_prog (set_control arm_user CONTROL_MMU) in
  set_mmu m (set_domain_access_control (set_translation_table_base (mmu m) 0) 1).

Lemma mapped_coherent : tlb_coherent (H0 := board_ram table_prog) mapped_machine.
Proof.
  assert (Hsz : ram_size_ok table_prog) by (unfold ram_size_ok; cbn; lia).
  assert (Hw : forall va, is_u32 va ->
    word_at (RamBus := board_ram table_prog) (abus mapped_machine) (ref_l1 0 va)
    = if va / 2 ^ 20 =? 0 then 0xC02 else 0).
  { intros va Hv. etransitivity; [apply board_word_at|]. rewrite table_word. unfold ref_l1.
    by replace ((0 / 2 ^ 14 * 2 ^ 14 + 4 * (va / 2 ^ 20)) / 4) with (va / 2 ^ 20)
      by (Z.div_mod_to_equations; lia). }
  split.
  - apply tlb_init_ok.
  - apply is_u32_0.
  - intros va Hv. unfold is_u32 in Hv. split.
    + change (ref_l1 _ va) with (4 * (va / 2 ^ 20)).
      assert (Hi : 0 <= va / 2 ^ 20 < 4096) by (Z.div_mod_to_equations; lia).
      apply board_ram_at; [done|exact table_prog_u32|lia| |by rewrite Z.mul_comm, Z.mod_mul].
      change (Z.of_nat (length table_prog)) with 4096. lia.
    + cbv zeta. change (translation_table_base (mmu mapped_machine)) with 0.
      rewrite (Hw va Hv). by destruct (va / 2 ^ 20 =? 0).
  - intros va va' mp desc d Hmp Hv Hv' _ Hx.
    change (translation_table_base (mmu mapped_machine)) with 0 in Hx.
    unfold ref_walk in Hx. rewrite (Hw va Hv) in Hx. cbv zeta in Hx.
    by destruct (va / 2 ^ 20 =? 0); destruct Hmp as [-> | ->].
  - apply Forall_replicate. intros va Hv Hh. discriminate.
Qed.


(** ** A stack *)

(** STMDB sp!, {r4, r5, lr} and LDMIA sp!, {r4, r5, lr}. *)
Definition push_word : Z := 0xE92D4030.
Definition pop_word : Z := 0xE8BD4030.
Definition stack_machine : arm_machine (memsys leon2) :=
  ram_machine (zeros 8) (set_reg arm_user 13 32).
Definition pushed : arm_machine (memsys leon2) :=
  after_m (machine_switch arm7100_mmu_ops stack_machine push_word 0).

(** The procedure clears what it saved. *)
Definition in_procedure : arm_machine (memsys leon2) :=
  on_core (fun st => set_reg (set_reg (set_reg st 4 0) 5 0) 14 0) pushed.

Lemma push_pop_words : push_pop push_word pop_word.
Proof. by split. Qed.

Lemma zeros_ram a :
  0 <= a -> a + 4 <= 32 -> a mod 4 = 0 ->
  ram_at (RamBus := board_ram (zeros 8)) (board (zeros 8) l0 None) a.
Proof.
  intros Ha Hl Hm. apply board_ram_at; [by vm_compute| |done..].
  by apply Forall_replicate, is_u32_0.
Qed.

Lemma stack_machine_ready : stack_ready (H0 := board_ram (zeros 8)) push_word stack_machine.
Proof.
  split; [by split| |by vm_compute|].
  - cbn. words.
  - intros j Hj Hb.
    enum_Z j 0 16; try done;
      (split; [unfold is_u32; by vm_compute|apply zeros_ram; by vm_compute]).
Qed.

Lemma push_pop_roundtrip_witness :
  reg (core in_procedure) 13 = 20 /\ reg (core in_procedure) 4 = 0
  /\ exists m3, machine_switch arm7100_mmu_ops in_procedure pop_word 0 = Some (Val m3)
       /\ reg (core m3) 13 = 32 /\ reg (core m3) 4 = 4 /\ reg (core m3) 5 = 5
       /\ reg (core m3) 14 = 14.
Proof.
  split; [by vm_compute|]. split; [by vm_compute|].
  destruct (push_pop_roundtrip (H0 := board_ram (zeros 8)) stack_machine push_word pop_word 0 0
              push_pop_words stack_machine_ready) as (m1 & Hx & _ & Hpop).
  assert (E : pushed = m1) by (unfold pushed; by rewrite Hx).
  destruct (Hpop in_procedure) as (m3 & H3 & Hr & _).
  { split; by vm_compute. }
  { rewrite <- E. intros a Ha. exact (conj Ha eq_refl). }
  { rewrite <- E. by vm_compute. }
  exists m3. split; [exact H3|]. clear - Hr.
  rewrite (Hr 13 ltac:(lia) (or_intror eq_refl)), (Hr 4 ltac:(lia) (or_introl eq_refl)).
  rewrite (Hr 5 ltac:(lia) (or_introl eq_refl)), (Hr 14 ltac:(lia) (or_introl eq_refl)).
  repeat split; by vm_compute.
Defined.

(** ** The loop *)

Definition sys_of (m : arm_machine (memsys leon2)) : arm_sys (memsys leon2) :=
  {| proc := m; ValReg := [3; 0; 0; 0; 0; 0; 0; 0; 0; 0; 0; 0; 0; 0; 0; 0]; ldc_words := 0;
     stc_words := 0; val_finish := 0; int_finish := 0; Accumulator := 0; Base := 0;
     NumCcycles := 0; NumFcycles := 0; NumInstrs := 0; data32Sig := 1; copro_access := 0;
     EventSet := 0; EventPtr := replicate 1024 []; Now := 0; s_decoded := 0; s_loaded := 0;
     s_pc := 0; tea_break_ok := 0; tea_break_addr := 0; prescale := 10; io_cycle_divisor := 10 |}.

(** A board whose devices have no cycle. *)
Definition idle_env : run_env (memsys leon2) :=
  {| mach_io_do_cycle := Val; ARMul_Debug s := s |}.

Lemma idle_env_ok : env_ok idle_env.
Proof. by split. Qed.

(** MOV r1, #5; ADDS r0, r1, r2, LSL #2; CDP p4 with a wait in register 0. *)
Definition code_prog : list Z := [0xE3A01005; adds_word; 0xEE000400; 0; 0; 0; 0; 0].

Lemma code_prog_u32 : Forall is_u32 code_prog.
Proof. unfold code_prog, adds_word. words. Qed.

Definition run_start : arm_sys (memsys leon2) :=
  sys_of (ram_machine code_prog (set_Emulate (starting 0) RUN)).

Lemma run_start_typed : sys_typed run_start.
Proof.
  split; try done; cbn [proc run_start sys_of Accumulator Base Now EventSet ValReg].
  - apply ram_machine_typed; [|exact code_prog_u32].
    destruct (starting_user_link 0 is_u32_0) as [[[]] ?]. by split.
  - words.
Qed.

(** One instruction, MOV, then the debugger's stop. *)
Definition once : arm_sys (memsys leon2) := on_st (fun st => set_Emulate st ONCE) run_start.

Lemma once_typed : sys_typed once.
Proof. apply sy_on_st; [exact run_start_typed|]. apply ty_set_Emulate, sy_core, run_start_typed. Qed.

Definition result_of (w : wait (Z * arm_sys (memsys leon2))) : Z * arm_sys (memsys leon2) :=
  match w with Some (Val r) => r | _ => (0, once) end.
Definition once_run : Z * arm_sys (memsys leon2) :=
  result_of (ARMul_Emulate32 arm7100_mmu_ops (std_cps arm7100_mmu_ops) idle_env 3 8 once).


(** The CDP waits for three cycles. *)
Lemma cp_instructions_terminate_witness :
  Forall is_u32 (ValReg run_start)
  /\ ends (cp_switch arm7100_mmu_ops (std_cps arm7100_mmu_ops) 8 run_start 0xEE000400 0xe0).
Proof.
  assert (Hv : Forall is_u32 (ValReg run_start)) by (cbn; words).
  split; [exact Hv|].
  apply (cp_instructions_terminate arm7100_mmu_ops run_start 8 Hv). by vm_compute.
Defined.

