(* ===== verification/MipsState.v ===== *)
(** * The state of the MIPS processor (src/arch_mips/common)

    The macros of inttypes.h on 64-bit words, the constants of instr.h, cpu.h and emul.h,
    and [MIPS_State].  A pointer to an entry of the translation buffer is its index.  The
    caches and the instruction buffers of the state are left: [load], [store] and the step
    go to the memory, and no instruction reaches them. *)

From Stdlib Require Import ZArith Lia Bool.
From stdpp Require Import base numbers option list.
From S2P Require Import Prelude Words.

(** ** Macros (inttypes.h) *)

Definition bitmask (n : Z) : Z := Z.shiftl 1 n.
Definition bitsmask (n m : Z) : Z :=
  Z.shiftr (u64 (Z.shiftl (Z.shiftr (Z.ones 64) m) (63 - n + m))) (63 - n).
Definition bit (x n : Z) : Z := Z.land (Z.shiftr x n) 1.
Definition bits (x n m : Z) : Z := Z.shiftr (u64 (Z.shiftl x (63 - n))) (63 - n + m).
Definition set_bit (x n : Z) : Z := Z.lor x (bitmask n).
Definition clear_bit (x n : Z) : Z := Z.land x (Z.lnot (bitmask n)).
Definition set_bits (x n m : Z) : Z := Z.lor x (bitsmask n m).
Definition clear_bits (x n m : Z) : Z := Z.land x (Z.lnot (bitsmask n m)).
Definition copy_bits (x y n m : Z) : Z :=
  Z.lor (clear_bits x n m) (u64 (Z.shiftl (bits y (n - m) 0) m)).
Definition round_down (x size : Z) : Z := Z.land x (u32 (- size)).

(** [sign_extend_UInt32]: an unsigned shift is never negative, and a field of the whole
    width falls through to the last return. *)
Definition sign_extend_UInt32 (x n : Z) : Z :=
  if n <? 32 then
    if bit x (n - 1) =? 0 then u32 (clear_bits x 31 n) else u32 (set_bits x 31 n)
  else 0.

Definition c_bool (b : bool) : Z := if b then 1 else 0.

(** ** The state (emul.h) *)

Record TLBEntry : Type := {
  e_next : option nat;  (* the hash chain *)
  e_prev : option nat;
  e_hi : Z;
  e_lo_reg : Z * Z;
  e_index : Z;
  e_hash : Z
}.

Record MIPS_State : Type := {
  pc : Z;  (* program counter *)
  gpr : list Z;  (* general purpose registers *)
  fpr : list Z;  (* floating-point registers *)
  fir : Z;  (* floating-point implementation register *)
  cp0 : list Z;  (* registers of co-processor 0 *)
  cp0_config1 : Z;
  cp1 : list Z;  (* registers of co-processor 1 *)
  hi : Z;  (* multiply and divide registers *)
  lo : Z;
  ll_bit : Z;
  now : Z;  (* the clock *)
  warm : Z;  (* warm or cold reset *)
  nop_count : Z;
  events : Z;  (* external events *)
  pipeline : Z;  (* whether the current instruction is in a delay slot *)
  mode : Z;  (* mode bits *)
  sync_bit : Z;
  branch_target : Z;  (* next pc after the delay slot *)
  random_seed : Z;
  count_seed : Z;
  tlb : list TLBEntry;  (* the entries *)
  tlb_map : list (option nat);  (* the heads of the hash chains *)
  bigendSig : Z;
  irq_pending : Z
}.

Definition set_pc (st : MIPS_State) (v : Z) : MIPS_State :=
  {| pc := v; gpr := gpr st; fpr := fpr st; fir := fir st; cp0 := cp0 st;
     cp0_config1 := cp0_config1 st; cp1 := cp1 st; hi := hi st; lo := lo st;
     ll_bit := ll_bit st; now := now st; warm := warm st; nop_count := nop_count st;
     events := events st; pipeline := pipeline st; mode := mode st; sync_bit := sync_bit st;
     branch_target := branch_target st; random_seed := random_seed st;
     count_seed := count_seed st; tlb := tlb st; tlb_map := tlb_map st;
     bigendSig := bigendSig st; irq_pending := irq_pending st |}.

Definition set_gpr (st : MIPS_State) (v : list Z) : MIPS_State :=
  {| pc := pc st; gpr := v; fpr := fpr st; fir := fir st; cp0 := cp0 st;
     cp0_config1 := cp0_config1 st; cp1 := cp1 st; hi := hi st; lo := lo st;
     ll_bit := ll_bit st; now := now st; warm := warm st; nop_count := nop_count st;
     events := events st; pipeline := pipeline st; mode := mode st; sync_bit := sync_bit st;
     branch_target := branch_target st; random_seed := random_seed st;
     count_seed := count_seed st; tlb := tlb st; tlb_map := tlb_map st;
     bigendSig := bigendSig st; irq_pending := irq_pending st |}.

Definition set_fpr (st : MIPS_State) (v : list Z) : MIPS_State :=
  {| pc := pc st; gpr := gpr st; fpr := v; fir := fir st; cp0 := cp0 st;
     cp0_config1 := cp0_config1 st; cp1 := cp1 st; hi := hi st; lo := lo st;
     ll_bit := ll_bit st; now := now st; warm := warm st; nop_count := nop_count st;
     events := events st; pipeline := pipeline st; mode := mode st; sync_bit := sync_bit st;
     branch_target := branch_target st; random_seed := random_seed st;
     count_seed := count_seed st; tlb := tlb st; tlb_map := tlb_map st;
     bigendSig := bigendSig st; irq_pending := irq_pending st |}.

Definition set_cp0 (st : MIPS_State) (v : list Z) : MIPS_State :=
  {| pc := pc st; gpr := gpr st; fpr := fpr st; fir := fir st; cp0 := v;
     cp0_config1 := cp0_config1 st; cp1 := cp1 st; hi := hi st; lo := lo st;
     ll_bit := ll_bit st; now := now st; warm := warm st; nop_count := nop_count st;
     events := events st; pipeline := pipeline st; mode := mode st; sync_bit := sync_bit st;
     branch_target := branch_target st; random_seed := random_seed st;
     count_seed := count_seed st; tlb := tlb st; tlb_map := tlb_map st;
     bigendSig := bigendSig st; irq_pending := irq_pending st |}.

Definition set_cp1 (st : MIPS_State) (v : list Z) : MIPS_State :=
  {| pc := pc st; gpr := gpr st; fpr := fpr st; fir := fir st; cp0 := cp0 st;
     cp0_config1 := cp0_config1 st; cp1 := v; hi := hi st; lo := lo st; ll_bit := ll_bit st;
     now := now st; warm := warm st; nop_count := nop_count st; events := events st;
     pipeline := pipeline st; mode := mode st; sync_bit := sync_bit st;
     branch_target := branch_target st; random_seed := random_seed st;
     count_seed := count_seed st; tlb := tlb st; tlb_map := tlb_map st;
     bigendSig := bigendSig st; irq_pending := irq_pending st |}.

Definition set_hi (st : MIPS_State) (v : Z) : MIPS_State :=
  {| pc := pc st; gpr := gpr st; fpr := fpr st; fir := fir st; cp0 := cp0 st;
     cp0_config1 := cp0_config1 st; cp1 := cp1 st; hi := v; lo := lo st; ll_bit := ll_bit st;
     now := now st; warm := warm st; nop_count := nop_count st; events := events st;
     pipeline := pipeline st; mode := mode st; sync_bit := sync_bit st;
     branch_target := branch_target st; random_seed := random_seed st;
     count_seed := count_seed st; tlb := tlb st; tlb_map := tlb_map st;
     bigendSig := bigendSig st; irq_pending := irq_pending st |}.

Definition set_lo (st : MIPS_State) (v : Z) : MIPS_State :=
  {| pc := pc st; gpr := gpr st; fpr := fpr st; fir := fir st; cp0 := cp0 st;
     cp0_config1 := cp0_config1 st; cp1 := cp1 st; hi := hi st; lo := v; ll_bit := ll_bit st;
     now := now st; warm := warm st; nop_count := nop_count st; events := events st;
     pipeline := pipeline st; mode := mode st; sync_bit := sync_bit st;
     branch_target := branch_target st; random_seed := random_seed st;
     count_seed := count_seed st; tlb := tlb st; tlb_map := tlb_map st;
     bigendSig := bigendSig st; irq_pending := irq_pending st |}.

Definition set_ll_bit (st : MIPS_State) (v : Z) : MIPS_State :=
  {| pc := pc st; gpr := gpr st; fpr := fpr st; fir := fir st; cp0 := cp0 st;
     cp0_config1 := cp0_config1 st; cp1 := cp1 st; hi := hi st; lo := lo st; ll_bit := v;
     now := now st; warm := warm st; nop_count := nop_count st; events := events st;
     pipeline := pipeline st; mode := mode st; sync_bit := sync_bit st;
     branch_target := branch_target st; random_seed := random_seed st;
     count_seed := count_seed st; tlb := tlb st; tlb_map := tlb_map st;
     bigendSig := bigendSig st; irq_pending := irq_pending st |}.

Definition set_now (st : MIPS_State) (v : Z) : MIPS_State :=
  {| pc := pc st; gpr := gpr st; fpr := fpr st; fir := fir st; cp0 := cp0 st;
     cp0_config1 := cp0_config1 st; cp1 := cp1 st; hi := hi st; lo := lo st;
     ll_bit := ll_bit st; now := v; warm := warm st; nop_count := nop_count st;
     events := events st; pipeline := pipeline st; mode := mode st; sync_bit := sync_bit st;
     branch_target := branch_target st; random_seed := random_seed st;
     count_seed := count_seed st; tlb := tlb st; tlb_map := tlb_map st;
     bigendSig := bigendSig st; irq_pending := irq_pending st |}.

Definition set_nop_count (st : MIPS_State) (v : Z) : MIPS_State :=
  {| pc := pc st; gpr := gpr st; fpr := fpr st; fir := fir st; cp0 := cp0 st;
     cp0_config1 := cp0_config1 st; cp1 := cp1 st; hi := hi st; lo := lo st;
     ll_bit := ll_bit st; now := now st; warm := warm st; nop_count := v;
     events := events st; pipeline := pipeline st; mode := mode st; sync_bit := sync_bit st;
     branch_target := branch_target st; random_seed := random_seed st;
     count_seed := count_seed st; tlb := tlb st; tlb_map := tlb_map st;
     bigendSig := bigendSig st; irq_pending := irq_pending st |}.

Definition set_events (st : MIPS_State) (v : Z) : MIPS_State :=
  {| pc := pc st; gpr := gpr st; fpr := fpr st; fir := fir st; cp0 := cp0 st;
     cp0_config1 := cp0_config1 st; cp1 := cp1 st; hi := hi st; lo := lo st;
     ll_bit := ll_bit st; now := now st; warm := warm st; nop_count := nop_count st;
     events := v; pipeline := pipeline st; mode := mode st; sync_bit := sync_bit st;
     branch_target := branch_target st; random_seed := random_seed st;
     count_seed := count_seed st; tlb := tlb st; tlb_map := tlb_map st;
     bigendSig := bigendSig st; irq_pending := irq_pending st |}.

Definition set_pipeline (st : MIPS_State) (v : Z) : MIPS_State :=
  {| pc := pc st; gpr := gpr st; fpr := fpr st; fir := fir st; cp0 := cp0 st;
     cp0_config1 := cp0_config1 st; cp1 := cp1 st; hi := hi st; lo := lo st;
     ll_bit := ll_bit st; now := now st; warm := warm st; nop_count := nop_count st;
     events := events st; pipeline := v; mode := mode st; sync_bit := sync_bit st;
     branch_target := branch_target st; random_seed := random_seed st;
     count_seed := count_seed st; tlb := tlb st; tlb_map := tlb_map st;
     bigendSig := bigendSig st; irq_pending := irq_pending st |}.

Definition set_mode (st : MIPS_State) (v : Z) : MIPS_State :=
  {| pc := pc st; gpr := gpr st; fpr := fpr st; fir := fir st; cp0 := cp0 st;
     cp0_config1 := cp0_config1 st; cp1 := cp1 st; hi := hi st; lo := lo st;
     ll_bit := ll_bit st; now := now st; warm := warm st; nop_count := nop_count st;
     events := events st; pipeline := pipeline st; mode := v; sync_bit := sync_bit st;
     branch_target := branch_target st; random_seed := random_seed st;
     count_seed := count_seed st; tlb := tlb st; tlb_map := tlb_map st;
     bigendSig := bigendSig st; irq_pending := irq_pending st |}.

Definition set_sync_bit (st : MIPS_State) (v : Z) : MIPS_State :=
  {| pc := pc st; gpr := gpr st; fpr := fpr st; fir := fir st; cp0 := cp0 st;
     cp0_config1 := cp0_config1 st; cp1 := cp1 st; hi := hi st; lo := lo st;
     ll_bit := ll_bit st; now := now st; warm := warm st; nop_count := nop_count st;
     events := events st; pipeline := pipeline st; mode := mode st; sync_bit := v;
     branch_target := branch_target st; random_seed := random_seed st;
     count_seed := count_seed st; tlb := tlb st; tlb_map := tlb_map st;
     bigendSig := bigendSig st; irq_pending := irq_pending st |}.

Definition set_branch_target (st : MIPS_State) (v : Z) : MIPS_State :=
  {| pc := pc st; gpr := gpr st; fpr := fpr st; fir := fir st; cp0 := cp0 st;
     cp0_config1 := cp0_config1 st; cp1 := cp1 st; hi := hi st; lo := lo st;
     ll_bit := ll_bit st; now := now st; warm := warm st; nop_count := nop_count st;
     events := events st; pipeline := pipeline st; mode := mode st; sync_bit := sync_bit st;
     branch_target := v; random_seed := random_seed st; count_seed := count_seed st;
     tlb := tlb st; tlb_map := tlb_map st; bigendSig := bigendSig st;
     irq_pending := irq_pending st |}.

Definition set_random_seed (st : MIPS_State) (v : Z) : MIPS_State :=
  {| pc := pc st; gpr := gpr st; fpr := fpr st; fir := fir st; cp0 := cp0 st;
     cp0_config1 := cp0_config1 st; cp1 := cp1 st; hi := hi st; lo := lo st;
     ll_bit := ll_bit st; now := now st; warm := warm st; nop_count := nop_count st;
     events := events st; pipeline := pipeline st; mode := mode st; sync_bit := sync_bit st;
     branch_target := branch_target st; random_seed := v; count_seed := count_seed st;
     tlb := tlb st; tlb_map := tlb_map st; bigendSig := bigendSig st;
     irq_pending := irq_pending st |}.

Definition set_count_seed (st : MIPS_State) (v : Z) : MIPS_State :=
  {| pc := pc st; gpr := gpr st; fpr := fpr st; fir := fir st; cp0 := cp0 st;
     cp0_config1 := cp0_config1 st; cp1 := cp1 st; hi := hi st; lo := lo st;
     ll_bit := ll_bit st; now := now st; warm := warm st; nop_count := nop_count st;
     events := events st; pipeline := pipeline st; mode := mode st; sync_bit := sync_bit st;
     branch_target := branch_target st; random_seed := random_seed st; count_seed := v;
     tlb := tlb st; tlb_map := tlb_map st; bigendSig := bigendSig st;
     irq_pending := irq_pending st |}.

Definition set_tlb (st : MIPS_State) (v : list TLBEntry) : MIPS_State :=
  {| pc := pc st; gpr := gpr st; fpr := fpr st; fir := fir st; cp0 := cp0 st;
     cp0_config1 := cp0_config1 st; cp1 := cp1 st; hi := hi st; lo := lo st;
     ll_bit := ll_bit st; now := now st; warm := warm st; nop_count := nop_count st;
     events := events st; pipeline := pipeline st; mode := mode st; sync_bit := sync_bit st;
     branch_target := branch_target st; random_seed := random_seed st;
     count_seed := count_seed st; tlb := v; tlb_map := tlb_map st; bigendSig := bigendSig st;
     irq_pending := irq_pending st |}.

Definition set_tlb_map (st : MIPS_State) (v : list (option nat)) : MIPS_State :=
  {| pc := pc st; gpr := gpr st; fpr := fpr st; fir := fir st; cp0 := cp0 st;
     cp0_config1 := cp0_config1 st; cp1 := cp1 st; hi := hi st; lo := lo st;
     ll_bit := ll_bit st; now := now st; warm := warm st; nop_count := nop_count st;
     events := events st; pipeline := pipeline st; mode := mode st; sync_bit := sync_bit st;
     branch_target := branch_target st; random_seed := random_seed st;
     count_seed := count_seed st; tlb := tlb st; tlb_map := v; bigendSig := bigendSig st;
     irq_pending := irq_pending st |}.

Definition set_irq_pending (st : MIPS_State) (v : Z) : MIPS_State :=
  {| pc := pc st; gpr := gpr st; fpr := fpr st; fir := fir st; cp0 := cp0 st;
     cp0_config1 := cp0_config1 st; cp1 := cp1 st; hi := hi st; lo := lo st;
     ll_bit := ll_bit st; now := now st; warm := warm st; nop_count := nop_count st;
     events := events st; pipeline := pipeline st; mode := mode st; sync_bit := sync_bit st;
     branch_target := branch_target st; random_seed := random_seed st;
     count_seed := count_seed st; tlb := tlb st; tlb_map := tlb_map st;
     bigendSig := bigendSig st; irq_pending := v |}.

(** The registers of co-processor 0, their fields (cpu.h). *)
Definition Index : Z := 0.
Definition Random : Z := 1.
Definition EntryLo0 : Z := 2.
Definition EntryLo1 : Z := 3.
Definition Context : Z := 4.
Definition Wired : Z := 6.
Definition BadVAddr : Z := 8.
Definition Count : Z := 9.
Definition EntryHi : Z := 10.
Definition Compare : Z := 11.
Definition SR : Z := 12.
Definition Cause : Z := 13.
Definition EPC : Z := 14.
Definition PRId : Z := 15.
Definition Config : Z := 16.

(** Bits of the status, cause and entry registers. *)
Definition SR_IEC : Z := 0.
Definition SR_IM7 : Z := 15.
Definition SR_BEV : Z := 22.
Definition SR_CU0 : Z := 28.
Definition SR_CU1 : Z := 29.
Definition Cause_IP0 : Z := 8.
Definition Cause_IP1 : Z := 9.
Definition Cause_IP2 : Z := 10.
Definition Cause_IP7 : Z := 15.
Definition Cause_IP_First : Z := 8.
Definition Cause_CE_First : Z := 28.
Definition Cause_BD : Z := 31.
Definition EntryLo_G : Z := 8.

(** Exception codes. *)
Definition EXC_Int : Z := 0.
Definition EXC_Mod : Z := 4.
Definition EXC_TLBL : Z := 8.
Definition EXC_TLBS : Z := 12.
Definition EXC_AdEL : Z := 16.
Definition EXC_AdES : Z := 20.
Definition EXC_IBE : Z := 24.
Definition EXC_DBE : Z := 28.
Definition EXC_Sys : Z := 32.
Definition EXC_Bp : Z := 36.
Definition EXC_CpU : Z := 44.
Definition EXC_Ov : Z := 48.
Definition EXC_Tr : Z := 52.
Definition EXC_FPE : Z := 60.

(** Events, modes, pipeline states, results, sizes and vectors (emul.h, cpu.h, cache.h). *)
Definition cold_reset_event : Z := 1.
Definition soft_reset_event : Z := 2.
Definition bmode : Z := 4.
Definition umode : Z := 16.
Definition kmode : Z := 64.
Definition nothing_special : Z := 0.
Definition branch_delay : Z := 1.
Definition instr_addr_error : Z := 2.
Definition branch_nodelay : Z := 3.
Definition TLB_FAIL : Z := -1.
Definition TLB_SUCC : Z := 0.
Definition TLB_EXP : Z := 1.
Definition instr_fetch : Z := 0.
Definition data_load : Z := 1.
Definition data_store : Z := 2.
Definition tlb_size : Z := 48.
Definition tlb_map_size : Z := 64.
Definition tlb_refill_vector : Z := 0.
Definition common_vector : Z := 384.
Definition general_vector_base : Z := 2147483648.
Definition boot_vector_base : Z := 2147483648.
Definition reset_vector_base : Z := 3217031168.
Definition reset_vector : Z := 0.
Definition kseg1 : Z := 2684354560.
Definition kseg0 : Z := 2147483648.
Definition kuseg : Z := 0.

(** The opcode field (instr.h); the doubleword codes, which are all reserved, are left. *)
Definition SPECIAL : Z := 0.
Definition REGIMM : Z := 1.
Definition J : Z := 2.
Definition JAL : Z := 3.
Definition BEQ : Z := 4.
Definition BNE : Z := 5.
Definition BLEZ : Z := 6.
Definition BGTZ : Z := 7.
Definition ADDI : Z := 8.
Definition ADDIU : Z := 9.
Definition SLTI : Z := 10.
Definition SLTIU : Z := 11.
Definition ANDI : Z := 12.
Definition ORI : Z := 13.
Definition XORI : Z := 14.
Definition LUI : Z := 15.
Definition COP0 : Z := 16.
Definition COP1 : Z := 17.
Definition COP2 : Z := 18.
Definition BEQL : Z := 20.
Definition BNEL : Z := 21.
Definition BLEZL : Z := 22.
Definition BGTZL : Z := 23.
Definition SPECIAL2 : Z := 28.
Definition LB : Z := 32.
Definition LH : Z := 33.
Definition LWL : Z := 34.
Definition LW : Z := 35.
Definition LBU : Z := 36.
Definition LHU : Z := 37.
Definition LWR : Z := 38.
Definition SB : Z := 40.
Definition SH : Z := 41.
Definition SWL : Z := 42.
Definition SW : Z := 43.
Definition SWR : Z := 46.
Definition CACHE : Z := 47.
Definition LL : Z := 48.
Definition LWC1 : Z := 49.
Definition PREF : Z := 51.
Definition SC : Z := 56.
Definition SWC1 : Z := 57.

(** The function field. *)
Definition SLL : Z := 0.
Definition SRL : Z := 2.
Definition SRA : Z := 3.
Definition SLLV : Z := 4.
Definition SRLV : Z := 6.
Definition SRAV : Z := 7.
Definition JR : Z := 8.
Definition JALR : Z := 9.
Definition MOVZ : Z := 10.
Definition MOVN : Z := 11.
Definition SYSCALL : Z := 12.
Definition BREAK : Z := 13.
Definition SYNC : Z := 15.
Definition MFHI : Z := 16.
Definition MTHI : Z := 17.
Definition MFLO : Z := 18.
Definition MTLO : Z := 19.
Definition MULT : Z := 24.
Definition MULTU : Z := 25.
Definition DIV : Z := 26.
Definition DIVU : Z := 27.
Definition ADD : Z := 32.
Definition ADDU : Z := 33.
Definition SUB : Z := 34.
Definition SUBU : Z := 35.
Definition AND : Z := 36.
Definition OR : Z := 37.
Definition XOR : Z := 38.
Definition NOR : Z := 39.
Definition SLT : Z := 42.
Definition SLTU : Z := 43.
Definition TEQ : Z := 52.
Definition TNE : Z := 54.

(** The rt field of REGIMM. *)
Definition BLTZ : Z := 0.
Definition BGEZ : Z := 1.
Definition BLTZL : Z := 2.
Definition BGEZL : Z := 3.
Definition BLTZAL : Z := 16.
Definition BGEZAL : Z := 17.

(** The fields of co-processor instructions and of SPECIAL2. *)
Definition MFCz : Z := 0.
Definition CFCz : Z := 2.
Definition MTCz : Z := 4.
Definition TLBR : Z := 1.
Definition TLBWI : Z := 2.
Definition TLBWR : Z := 6.
Definition TLBP : Z := 8.
Definition RFE : Z := 16.
Definition ERET : Z := 24.
Definition WAIT : Z := 32.
Definition MADD : Z := 0.
Definition FMUL : Z := 2.
Definition CVT_S : Z := 32.
Definition CF : Z := 2.

(** ** Fields of an instruction (instr.h) *)

Definition opcode (instr : Z) : Z := bits instr 31 26.
Definition rs (instr : Z) : Z := bits instr 25 21.
Definition rt (instr : Z) : Z := bits instr 20 16.
Definition sel (instr : Z) : Z := bits instr 2 0.
Definition immediate (instr : Z) : Z := bits instr 15 0.
Definition base (instr : Z) : Z := bits instr 25 21.
Definition offset (instr : Z) : Z := bits instr 15 0.
Definition target (instr : Z) : Z := bits instr 25 0.
Definition rd (instr : Z) : Z := bits instr 15 11.
Definition shamt (instr : Z) : Z := bits instr 10 6.
Definition funct (instr : Z) : Z := bits instr 5 0.
Definition fmt (instr : Z) : Z := bits instr 25 21.
Definition ft (instr : Z) : Z := bits instr 20 16.
Definition fs (instr : Z) : Z := bits instr 15 11.
Definition function (instr : Z) : Z := bits instr 5 0.

(** ** Access *)

Definition GPR (st : MIPS_State) (i : Z) : Z := nthZ (gpr st) i.
Definition set_GPR (st : MIPS_State) (i v : Z) : MIPS_State := set_gpr st (updZ (gpr st) i v).
Definition CP0 (st : MIPS_State) (i : Z) : Z := nthZ (cp0 st) i.
Definition set_CP0 (st : MIPS_State) (i v : Z) : MIPS_State := set_cp0 st (updZ (cp0 st) i v).
