(* ===== verification/MipsLemmas.v ===== *)
(** * Lemmas on the macros and the registers of the MIPS processor

    The fields of words as quotients and remainders, sign extension, and reads after
    writes of the register files. *)

From Stdlib Require Import ZArith Lia Bool.
From stdpp Require Import base numbers option list.
From S2P Require Import Prelude Words MipsState.

Create HintDb mips.

(** An equation of boolean comparisons, by cases. *)
Ltac bool_tests :=
  repeat match goal with
  | |- context [?a <=? ?b] => destruct (Z.leb_spec a b)
  | |- context [?a <? ?b] => destruct (Z.ltb_spec a b)
  | |- context [?a =? ?b] => destruct (Z.eqb_spec a b)
  end; cbn [xorb negb andb orb]; (done || lia).

(** ** Fields *)

Lemma mtestbit_u64 x i : 0 <= i -> Z.testbit (u64 x) i = (i <? 64) && Z.testbit x i.
Proof.
  intros Hi. unfold u64. change 18446744073709551616 with (2 ^ 64).
  destruct (Z.ltb_spec i 64).
  - by rewrite Z.mod_pow2_bits_low by lia.
  - by rewrite Z.mod_pow2_bits_high by lia.
Qed.

Lemma mtestbit_bits x n m i :
  0 <= m <= n -> n <= 63 -> 0 <= i ->
  Z.testbit (bits x n m) i = (i <=? n - m) && Z.testbit x (i + m).
Proof.
  intros Hm Hn Hi. unfold bits. rewrite Z.shiftr_spec, mtestbit_u64, Z.shiftl_spec by lia.
  replace (i + (63 - n + m) - (63 - n)) with (i + m) by lia.
  destruct (Z.leb_spec i (n - m)), (Z.ltb_spec (i + (63 - n + m)) 64); (done || lia).
Qed.

Lemma mbits_div x n m :
  0 <= m <= n -> n <= 63 -> bits x n m = (x / 2 ^ m) mod 2 ^ (n - m + 1).
Proof.
  intros Hm Hn. apply Z.bits_inj'. intros i Hi. rewrite mtestbit_bits by lia.
  destruct (Z.leb_spec i (n - m)).
  - by rewrite Z.mod_pow2_bits_low, Z.div_pow2_bits by lia.
  - by rewrite Z.mod_pow2_bits_high by lia.
Qed.

Lemma mbits_range x n m :
  0 <= m <= n -> n <= 63 -> 0 <= bits x n m < 2 ^ (n - m + 1).
Proof. intros Hm Hn. rewrite mbits_div by lia. apply Z.mod_pos_bound. lia. Qed.

Lemma mbit_div x n : 0 <= n -> bit x n = (x / 2 ^ n) mod 2.
Proof.
  intros Hn. unfold bit. rewrite Z.shiftr_div_pow2 by lia.
  change 1 with (Z.ones 1) at 1. by rewrite Z.land_ones by lia.
Qed.

Lemma mbit_zero x n : 0 <= n -> (bit x n =? 0) = negb (Z.testbit x n).
Proof.
  intros Hn. rewrite mbit_div, Z.testbit_eqb by lia.
  pose proof (Z.mod_pos_bound (x / 2 ^ n) 2 ltac:(lia)).
  destruct (Z.eqb_spec ((x / 2 ^ n) mod 2) 0), (Z.eqb_spec ((x / 2 ^ n) mod 2) 1); (done || lia).
Qed.

(** A mask of one bit. *)
Lemma mland_bit_zero x n : 0 <= n -> (Z.land x (2 ^ n) =? 0) = negb (Z.testbit x n).
Proof.
  intros Hn. destruct (Z.testbit x n) eqn:E; cbn [negb].
  - apply Z.eqb_neq. intros H0. assert (Hb : Z.testbit (Z.land x (2 ^ n)) n = false)
      by (by rewrite H0, Z.bits_0).
    by rewrite Z.land_spec, E, Z.pow2_bits_true in Hb.
  - apply Z.eqb_eq, Z.bits_inj'. intros i Hi. rewrite Z.land_spec, Z.bits_0.
    destruct (Z.eq_dec i n) as [->|Hne]; [by rewrite E|].
    by rewrite Z.pow2_bits_false, andb_false_r by lia.
Qed.

Lemma mtestbit_bitsmask n m i :
  0 <= m <= n -> n <= 63 -> 0 <= i -> Z.testbit (bitsmask n m) i = (m <=? i) && (i <=? n).
Proof.
  intros Hm Hn Hi. unfold bitsmask. rewrite Z.shiftr_spec, mtestbit_u64 by lia.
  destruct (Z.leb_spec m i) as [Hmi|Hmi]; cbn [andb].
  - rewrite Z.shiftl_spec, Z.shiftr_spec by lia.
    replace (i + (63 - n) - (63 - n + m) + m) with i by lia.
    destruct (Z.leb_spec i n), (Z.ltb_spec (i + (63 - n)) 64); cbn [andb]; try done; try lia.
    apply Z.ones_spec_low. lia.
  - rewrite Z.shiftl_spec_low by lia. apply andb_false_r.
Qed.

Lemma mtestbit_copy_bits x y n m i :
  0 <= m <= n -> n <= 63 -> 0 <= i ->
  Z.testbit (copy_bits x y n m) i
  = if (m <=? i) && (i <=? n) then Z.testbit y (i - m) else Z.testbit x i.
Proof.
  intros Hm Hn Hi. unfold copy_bits, clear_bits.
  rewrite Z.lor_spec, Z.land_spec, Z.lnot_spec, mtestbit_bitsmask, mtestbit_u64 by lia.
  destruct (Z.leb_spec m i) as [Hmi|Hmi]; cbn [andb].
  - rewrite Z.shiftl_spec, mtestbit_bits, Z.sub_0_r, Z.add_0_r by lia.
    destruct (Z.leb_spec i n); cbn [negb].
    + rewrite andb_false_r. cbn [orb].
      by rewrite (proj2 (Z.ltb_lt i 64)), (proj2 (Z.leb_le _ _)) by lia.
    + rewrite andb_true_r, (proj2 (Z.leb_gt (i - m) _)) by lia.
      cbn [andb]. by rewrite andb_false_r, orb_false_r.
  - rewrite Z.shiftl_spec_low by lia. by rewrite andb_false_r, andb_true_r, orb_false_r.
Qed.

(** ** Sign extension *)

Lemma mbitsmask_high n : 0 <= n <= 31 -> bitsmask 31 n = Z.ones (32 - n) * 2 ^ n.
Proof.
  intros Hn. apply Z.bits_inj'. intros i Hi. rewrite mtestbit_bitsmask by lia.
  rewrite Z.mul_pow2_bits by lia. destruct (Z.leb_spec n i); cbn [andb].
  - destruct (Z.leb_spec i 31); symmetry; [apply Z.ones_spec_low|apply Z.ones_spec_high]; lia.
  - by rewrite Z.testbit_neg_r by lia.
Qed.

Lemma sign_extend_spec x n :
  1 <= n < 32 -> 0 <= x < 2 ^ n ->
  sign_extend_UInt32 x n = if x <? 2 ^ (n - 1) then x else x + 2 ^ 32 - 2 ^ n.
Proof.
  intros Hn Hx. assert (E : 2 ^ n = 2 * 2 ^ (n - 1)) by (rewrite <- Z.pow_succ_r by lia; f_equal; lia).
  assert (Hp : 2 ^ n <= 2 ^ 31) by (apply Z.pow_le_mono_r; lia).
  pose proof (pow2_pos (n - 1) ltac:(lia)) as Hp1.
  unfold sign_extend_UInt32. rewrite (proj2 (Z.ltb_lt n 32)), mbit_div by lia.
  destruct (Z.ltb_spec x (2 ^ (n - 1))).
  - rewrite Z.div_small by lia. cbn [Z.eqb Z.modulo Z.div_eucl].
    unfold clear_bits. rewrite mbitsmask_high by lia.
    assert (Hc : Z.land x (Z.lnot (Z.ones (32 - n) * 2 ^ n)) = x); [|rewrite Hc; apply u32_id; unfold is_u32; lia].
    apply Z.bits_inj'. intros i Hi. rewrite Z.land_spec, Z.lnot_spec, Z.mul_pow2_bits by lia.
    destruct (Z.lt_ge_cases i n); [by rewrite (Z.testbit_neg_r (Z.ones _)), andb_true_r by lia|].
    by rewrite (testbit_small x n i) by lia.
  - replace (x / 2 ^ (n - 1)) with 1 by (apply Z.div_unique with (x - 2 ^ (n - 1)); lia).
    cbn [Z.eqb Z.modulo Z.div_eucl]. change (1 mod 2 =? 0) with false.
    unfold set_bits. rewrite mbitsmask_high, Z.lor_comm, lor_low by lia.
    rewrite Z.ones_equiv, u32_id; unfold is_u32.
    + rewrite Z.mul_pred_l, <- Z.pow_add_r by lia. replace (32 - n + n) with 32 by lia. lia.
    + rewrite Z.mul_pred_l, <- Z.pow_add_r by lia. replace (32 - n + n) with 32 by lia. lia.
Qed.

Lemma sign_extend_s32 x n :
  1 <= n < 32 -> 0 <= x < 2 ^ n ->
  is_u32 (sign_extend_UInt32 x n)
  /\ s32 (sign_extend_UInt32 x n) = if x <? 2 ^ (n - 1) then x else x - 2 ^ n.
Proof.
  intros Hn Hx. rewrite sign_extend_spec by done.
  assert (E : 2 ^ n = 2 * 2 ^ (n - 1)) by (rewrite <- Z.pow_succ_r by lia; f_equal; lia).
  assert (Hp : 2 ^ n <= 2 ^ 31) by (apply Z.pow_le_mono_r; lia).
  unfold s32, is_u32. destruct (Z.ltb_spec x (2 ^ (n - 1))); (split; [lia|]).
  - rewrite u32_id by (unfold is_u32; lia). case_match; lia.
  - rewrite u32_id by (unfold is_u32; lia). case_match; lia.
Qed.
