(* ===== verification/MipsTlb.v ===== *)
(** * Exceptions and the translation buffer of the MIPS processor
    (src/arch_mips/common/exception.c, emul.c, tlb.c)

    The entries of the buffer are in an array and in doubly linked chains by a hash of
    their page; the heads of the chains are [tlb_map], whose last chain holds the unused
    entries.  An index outside an array, and the search of a chain that does not end, are
    [Undef]. *)

From Stdlib Require Import ZArith Lia Bool.
From stdpp Require Import base numbers option list.
From S2P Require Import Prelude Words MipsState.

(** ** Modes (emul.c) *)

Definition vaddr_region (va : Z) : Z := bits va 31 29.

Definition enter_kernel_mode (st : MIPS_State) : MIPS_State := set_mode st kmode.

Definition leave_kernel_mode (st : MIPS_State) : MIPS_State :=
  let st := set_CP0 st SR (u32 (copy_bits (CP0 st SR) (bits (CP0 st SR) 5 2) 3 0)) in
  let st :=
    set_CP0 st SR
      (u32 (copy_bits (CP0 st SR) (u64 (Z.shiftl (bits (CP0 st SR) 3 2) 4)) 5 4)) in
  if bit (CP0 st SR) 1 =? 0 then set_mode st (Z.lor (mode st) kmode) else set_mode st umode.

(** [UInt64] arithmetic but for the number of free entries, an [int] that may be negative;
    its overflow and a division by zero are undefined. *)
Definition get_random (st : MIPS_State) : result Z :=
  let wired := s32 (CP0 st Wired) in
  let free := tlb_size - wired in
  if (free =? 0) || (0x7FFFFFFF <? free) then Undef
  else
    Val (u32 (u64 (tlb_size - 1 - wired + u64 (now st - random_seed st)) mod u64 free + wired)).

Definition branch_delay_slot (st : MIPS_State) : bool := pipeline st =? branch_delay.

(** ** Exceptions (exception.c, emul.c) *)

(** The address to return to and the cause, with the bit for a delay slot. *)
Definition exception_point (st : MIPS_State) (cause : Z) : Z * Z :=
  if negb (branch_delay_slot st) then (pc st, cause)
  else (u32 (pc st - 4), set_bit cause Cause_BD).

Definition process_exception (st : MIPS_State) (cause vec : Z) : MIPS_State :=
  let exc_code := Z.land cause 0x7f in
  let st := set_now st (u64 (now st + 5)) in
  let (epc, cause) := exception_point st cause in
  let st :=
    set_pipeline st
      (if (exc_code =? EXC_Sys) || (exc_code =? EXC_TLBL) || (exc_code =? EXC_CpU)
          || (exc_code =? EXC_TLBS) || (exc_code =? EXC_Mod)
       then branch_nodelay else nothing_special) in
  let st := set_CP0 st Cause (Z.land (CP0 st Cause) 0xFFFFFF83) in
  let st := set_CP0 st Cause (Z.lor (CP0 st Cause) cause) in
  let st := set_CP0 st EPC epc in
  let st :=
    set_pc st
      (u32 (vec + if bit (CP0 st SR) SR_BEV =? 0 then boot_vector_base
                  else general_vector_base)) in
  let st := set_CP0 st SR (Z.lor (CP0 st SR) 0x2) in
  let st := set_CP0 st SR (Z.land (CP0 st SR) 0xFFFFFFFD) in
  enter_kernel_mode st.

Definition process_address_error (st : MIPS_State) (type va : Z) : MIPS_State :=
  let exc := if type =? data_store then EXC_AdES else EXC_AdEL in
  process_exception (set_CP0 st BadVAddr va) exc common_vector.

(** The registers a fault of the buffer sets; [>>] binds tighter than [&]. *)
Definition tlb_fault_registers (st : MIPS_State) (va : Z) : MIPS_State :=
  let st := set_CP0 st BadVAddr va in
  let st :=
    set_CP0 st Context
      (Z.lor (Z.land va (Z.shiftr 0xFFFFe000 9)) (Z.land (CP0 st Context) 0x7FFFF0)) in
  set_CP0 st EntryHi (Z.lor (Z.land va 0xFFFFE000) (Z.land (CP0 st EntryHi) 0x1FFF)).

Definition tlb_code (type : Z) : Z := if type =? data_store then EXC_TLBS else EXC_TLBL.

Definition process_tlb_refill (st : MIPS_State) (type va : Z) : MIPS_State :=
  process_exception (tlb_fault_registers st va) (tlb_code type) tlb_refill_vector.
Definition process_tlb_invalid (st : MIPS_State) (type va : Z) : MIPS_State :=
  process_exception (tlb_fault_registers st va) (tlb_code type) common_vector.
Definition process_tlb_modified (st : MIPS_State) (va : Z) : MIPS_State :=
  process_exception (tlb_fault_registers st va) EXC_Mod common_vector.
Definition process_integer_overflow (st : MIPS_State) : MIPS_State :=
  process_exception st EXC_Ov common_vector.
Definition process_syscall (st : MIPS_State) : MIPS_State :=
  process_exception st EXC_Sys common_vector.
Definition process_coprocessor_unusable (st : MIPS_State) (c : Z) : MIPS_State :=
  process_exception st (Z.lor EXC_CpU (Z.shiftl c Cause_CE_First)) common_vector.

(** Wrappers that no instruction calls. *)
Definition process_bus_error (st : MIPS_State) (type : Z) : MIPS_State :=
  process_exception st (if type =? instr_fetch then EXC_IBE else EXC_DBE) common_vector.
Definition process_trap (st : MIPS_State) : MIPS_State :=
  process_exception st EXC_Tr common_vector.
Definition process_breakpoint (st : MIPS_State) : MIPS_State :=
  process_exception st EXC_Bp common_vector.
Definition process_fp_exception (st : MIPS_State) : MIPS_State :=
  process_exception st EXC_FPE common_vector.
Definition process_interrupt (st : MIPS_State) : MIPS_State :=
  process_exception st EXC_Int common_vector.

(** The exception behind [skyeye_exit] is not reached. *)
Definition process_reserved_instruction {A : Type} (st : MIPS_State) : result A := Exit (-1).

(** ** The array and the chains *)

Definition tlb_get (st : MIPS_State) (i : nat) : result TLBEntry :=
  match tlb st !! i with Some e => Val e | None => Undef end.
Definition tlb_put (st : MIPS_State) (i : nat) (e : TLBEntry) : MIPS_State :=
  set_tlb st (<[i := e]> (tlb st)).
Definition map_get (st : MIPS_State) (h : Z) : result (option nat) :=
  match tlb_map st !! Z.to_nat h with Some p => Val p | None => Undef end.
Definition map_put (st : MIPS_State) (h : Z) (p : option nat) : result MIPS_State :=
  if (0 <=? h) && (h <? Z.of_nat (length (tlb_map st))) then
    Val (set_tlb_map st (<[Z.to_nat h := p]> (tlb_map st)))
  else Undef.

Definition with_next (e : TLBEntry) (p : option nat) : TLBEntry :=
  {| e_next := p; e_prev := e_prev e; e_hi := e_hi e; e_lo_reg := e_lo_reg e;
     e_index := e_index e; e_hash := e_hash e |}.
Definition with_prev (e : TLBEntry) (p : option nat) : TLBEntry :=
  {| e_next := e_next e; e_prev := p; e_hi := e_hi e; e_lo_reg := e_lo_reg e;
     e_index := e_index e; e_hash := e_hash e |}.
Definition with_place (e : TLBEntry) (index hash : Z) : TLBEntry :=
  {| e_next := e_next e; e_prev := e_prev e; e_hi := e_hi e; e_lo_reg := e_lo_reg e;
     e_index := index; e_hash := hash |}.
Definition with_page (e : TLBEntry) (hi : Z) (lo : Z * Z) : TLBEntry :=
  {| e_next := e_next e; e_prev := e_prev e; e_hi := hi; e_lo_reg := lo;
     e_index := e_index e; e_hash := e_hash e |}.

(** [entry->next->prev = p], [entry->prev->next = p] and the like. *)
Definition set_prev_of (st : MIPS_State) (i : nat) (p : option nat) : result MIPS_State :=
  let! e := tlb_get st i in Val (tlb_put st i (with_prev e p)).
Definition set_next_of (st : MIPS_State) (i : nat) (p : option nat) : result MIPS_State :=
  let! e := tlb_get st i in Val (tlb_put st i (with_next e p)).

(** Entry [i] in front of chain [hash]. *)
Definition push_entry (st : MIPS_State) (i : nat) (hash : Z) : result MIPS_State :=
  let! head := map_get st hash in
  let! st := match head with Some j => set_prev_of st j (Some i) | None => Val st end in
  let! head := map_get st hash in
  let! st := set_next_of st i head in
  let! st := set_prev_of st i None in
  map_put st hash (Some i).

(** ** Reset (tlb.c) *)

Definition reset_entry (st : MIPS_State) (i : nat) : result MIPS_State :=
  let! e := tlb_get st i in
  push_entry (tlb_put st i (with_place e (Z.of_nat i) tlb_map_size)) i tlb_map_size.

Fixpoint reset_entries (st : MIPS_State) (l : list nat) : result MIPS_State :=
  match l with
  | [] => Val st
  | i :: l => let! st := reset_entry st i in reset_entries st l
  end.

Definition reset_tlb (st : MIPS_State) : result MIPS_State :=
  reset_entries (set_tlb_map st (replicate (Z.to_nat (tlb_map_size + 1)) None))
    (seq 0 (Z.to_nat tlb_size)).

(** ** Writing an entry *)

Definition tlb_hash (va : Z) : Z := bits va 31 13 mod tlb_map_size.

(** Remove entry [i] from its chain. *)
Definition unlink_entry (st : MIPS_State) (i : nat) : result MIPS_State :=
  let! e := tlb_get st i in
  let! st := match e_next e with Some j => set_prev_of st j (e_prev e) | None => Val st end in
  let! e := tlb_get st i in
  match e_prev e with
  | Some j => set_next_of st j (e_next e)
  | None => map_put st (e_hash e) (e_next e)
  end.

(** The page of the new entry; the global bit is copied into bit 12 of its high half. *)
Definition entry_hi (st : MIPS_State) : Z :=
  if bit (CP0 st EntryLo0) EntryLo_G =? 0 then CP0 st EntryHi
  else Z.lor (CP0 st EntryHi) 0x1000.

Definition set_tlb_entry (st : MIPS_State) (n : Z) : result MIPS_State :=
  let hash := tlb_hash (CP0 st EntryHi) in
  if tlb_size <=? u32 n then Val st
  else
    let i := Z.to_nat (u32 n) in
    let! st := unlink_entry st i in
    let! e := tlb_get st i in
    let e := with_page e (entry_hi st) (CP0 st EntryLo0, CP0 st EntryLo1) in
    push_entry (tlb_put st i (with_place e (u32 n) hash)) i hash.

(** ** Look-up *)

Definition entry_matches (asid va : Z) (e : TLBEntry) : bool :=
  (negb (Z.land (e_hi e) 0x1000 =? 0) || (Z.land (e_hi e) 0xFF =? Z.land asid 0xFF))
  && (Z.shiftr va 13 =? Z.shiftr (e_hi e) 13).

(** [n] bounds the steps along the chain. *)
Fixpoint probe_from (n : nat) (st : MIPS_State) (va : Z) (p : option nat)
    : result (option TLBEntry) :=
  match p, n with
  | None, _ => Val None
  | Some _, O => Undef
  | Some i, S n =>
      let! e := tlb_get st i in
      if entry_matches (CP0 st EntryHi) va e then Val (Some e)
      else probe_from n st va (e_next e)
  end.

Definition probe_tlb (st : MIPS_State) (va : Z) : result (option TLBEntry) :=
  let! head := map_get st (tlb_hash va) in
  probe_from (length (tlb st)) st va head.

(** Through the buffer: the code, the physical address and the state. *)
Definition translate_mapped (st : MIPS_State) (va type : Z)
    : result (Z * option Z * MIPS_State) :=
  let! found := probe_tlb st va in
  match found with
  | None => Val (TLB_EXP, None, process_tlb_refill st type va)
  | Some e =>
      let lo := if Z.land (Z.shiftr va 12) 0x1 =? 0 then (e_lo_reg e).1 else (e_lo_reg e).2 in
      if Z.land lo 0x2 =? 0 then Val (TLB_EXP, None, process_tlb_invalid st type va)
      else if (type =? data_store) && (Z.land lo 0x4 =? 0) then
        Val (TLB_EXP, None, process_tlb_modified st va)
      else
        Val (TLB_SUCC,
             Some (Z.lor (Z.land (u32 (Z.shiftl lo 6)) 0xFFFFF000) (Z.land va 0xFFF)), st)
  end.

Definition user_mode (st : MIPS_State) : bool := negb (Z.land (mode st) umode =? 0).

Definition translate_vaddr (st : MIPS_State) (va type : Z)
    : result (Z * option Z * MIPS_State) :=
  let region := vaddr_region va in
  if (vaddr_region kuseg <=? region) && (region <? vaddr_region kseg0) then
    translate_mapped st va type
  else if region =? vaddr_region kseg0 then
    if user_mode st then Val (TLB_FAIL, None, process_address_error st type va)
    else Val (TLB_SUCC, Some (Z.land va (u32 (Z.lnot 0x80000000))), st)
  else if region =? vaddr_region kseg1 then
    if user_mode st then Val (TLB_FAIL, None, process_address_error st type va)
    else Val (TLB_SUCC, Some (Z.land va (u32 (Z.lnot 0xE0000000))), st)
  else if user_mode st then Val (TLB_FAIL, None, process_address_error st type va)
  else translate_mapped st va type.
