(* ===== verification/MipsDecode.v ===== *)
(** * The instructions of the MIPS processor (src/arch_mips/common/decoder.c, cp0.c)

    [decode]: a switch on the opcode, and within it on the function, the condition of a
    branch or the co-processor operation.  It returns the state of the pipeline for the
    next instruction.  The codes that [decoder.c] lists only to reject them, those of the
    doubleword instructions and of the traps, fall into the default of each switch, as
    both end the simulator.  [sync], which flushes the files of the host, is left: the
    flag that asks for it is never set. *)

From Stdlib Require Import ZArith Lia Bool.
From stdpp Require Import base numbers option list.
From S2P Require Import Prelude Words Bus MipsState MipsTlb.

(** The processor and the memory. *)
Record mips (B : Type) : Type := { mst : MIPS_State; mbus : B }.
Arguments mst {B} m : rename.
Arguments mbus {B} m : rename.

(** What the board does. *)
Record mips_env (B : Type) : Type := {
  mach_set_intr : Z -> mips B -> result (mips B);
  mips_mach_io_do_cycle : mips B -> result (mips B)
}.
Arguments mach_set_intr {B} m n s : rename.
Arguments mips_mach_io_do_cycle {B} m s : rename.

Section decode.
Context {B : Type} `{Bus B} (env : mips_env B).
Implicit Types (m : mips B).

Definition on_mst (f : MIPS_State -> MIPS_State) m : mips B :=
  {| mst := f (mst m); mbus := mbus m |}.
Definition set_mst m (st : MIPS_State) : mips B := {| mst := st; mbus := mbus m |}.
Definition nothing m : result (Z * mips B) := Val (nothing_special, m).
Definition put_gpr m (i v : Z) : mips B := on_mst (fun st => set_GPR st i v) m.

(** ** Memory (mips_arch_interface.c, dcache.c) *)

(** The addresses of the unmapped segments are physical addresses. *)
Definition unmapped (pa : Z) : Z :=
  let pa :=
    if (0x80000000 <=? pa) && (pa <? 0xA0000000) then Z.land pa (u32 (Z.lnot 0x80000000))
    else pa in
  if (0xA0000000 <=? pa) && (pa <? 0xC0000000) then Z.land pa (u32 (Z.lnot 0xE0000000))
  else pa.

Definition mips_mem_read m (pa len : Z) : result (option Z * mips B) :=
  let! (_, v, b) := bus_read (len * 8) (unmapped pa) (mbus m) in
  Val (v, {| mst := mst m; mbus := b |}).
Definition mips_mem_write m (pa data len : Z) : result (mips B) :=
  let! (_, b) := bus_write (len * 8) (unmapped pa) data (mbus m) in
  Val {| mst := mst m; mbus := b |}.

(** [load] into a variable that is 0. *)
Definition load m (pa size : Z) : result (Z * mips B) :=
  let! (v, m) := mips_mem_read m pa size in Val (default 0 v, m).
Definition store m (data pa size : Z) : result (mips B) := mips_mem_write m pa data size.

(** Translate the address and go on with the physical one. *)
Definition translated_at m (va type : Z) (k : Z -> mips B -> result (Z * mips B))
    : result (Z * mips B) :=
  let! (code, pa, st) := translate_vaddr (mst m) va type in
  let m := set_mst m st in
  if code =? TLB_SUCC then
    match pa with Some pa => k pa m | None => Undef end
  else nothing m.

Definition data_va m (instr : Z) : Z :=
  u32 (sign_extend_UInt32 (offset instr) 16 + GPR (mst m) (base instr)).

(** A load; [finish] makes the new register from the value. *)
Definition load_op m (instr va size : Z) (finish : Z -> Z) : result (Z * mips B) :=
  translated_at m va data_load (fun pa m =>
    let! (y, m) := load m pa size in nothing (put_gpr m (rt instr) (finish y))).

(** The exception of an address that is not aligned, after which the access goes on. *)
Definition check_aligned m (bad : bool) (type va : Z) : mips B :=
  if bad then on_mst (fun st => process_address_error st type va) m else m.

Definition odd (va : Z) : bool := negb (bit va 0 =? 0).

(** The word around an address. *)
Definition big_endian_cpu (st : MIPS_State) : bool := negb (Z.land (mode st) bmode =? 0).
Definition syscmd_left m (va : Z) : Z :=
  if negb (big_endian_cpu (mst m)) then Z.lxor (bits va 1 0) (bitsmask 1 0) else bits va 1 0.
Definition syscmd_right m (va : Z) : Z :=
  if big_endian_cpu (mst m) then Z.lxor (bits va 1 0) (bitsmask 1 0) else bits va 1 0.

Definition load_word_at m (instr va : Z) (merge : mips B -> Z -> Z -> Z)
    : result (Z * mips B) :=
  translated_at m va data_load (fun pa m =>
    let! (mem, m) := load m (round_down pa 4) 4 in
    nothing (put_gpr m (rt instr) (merge m (GPR (mst m) (rt instr)) mem))).

Definition merge_left (va : Z) m (reg mem : Z) : Z :=
  u32 (copy_bits reg mem 31 (syscmd_left m va * 8)).
Definition merge_right (va : Z) m (reg mem : Z) : Z :=
  let s := syscmd_right m va * 8 in u32 (copy_bits reg (bits mem 31 s) (31 - s) 0).

Definition store_op m (instr va size : Z) : result (Z * mips B) :=
  translated_at m va data_store (fun pa m =>
    let! m := store m (GPR (mst m) (rt instr)) pa size in nothing m).

Definition store_word_at m (instr va : Z) (merge : mips B -> Z -> Z -> Z)
    : result (Z * mips B) :=
  translated_at m va data_store (fun pa m =>
    let! (mem, m) := load m (round_down pa 4) 4 in
    let! m := store m (merge m (GPR (mst m) (rt instr)) mem) (round_down pa 4) 4 in
    nothing m).

Definition store_left (va : Z) m (reg mem : Z) : Z :=
  let s := syscmd_left m va * 8 in u32 (copy_bits mem (bits reg 31 s) (31 - s) 0).
Definition store_right (va : Z) m (reg mem : Z) : Z :=
  u32 (copy_bits mem reg 31 (syscmd_right m va * 8)).

(** LL and SC: no link is kept. *)
Definition decode_linked m (instr : Z) : result (Z * mips B) :=
  let op := opcode instr in
  let va := data_va m instr in
  if op =? LL then
    translated_at m va data_load (fun pa m =>
      let! (v, m) := mips_mem_read m pa 4 in
      match v with Some data => nothing (put_gpr m (rt instr) data) | None => Undef end)
  else
    (* SC *)
    translated_at m va data_load (fun pa m =>
      let! m := mips_mem_write m pa (GPR (mst m) (rt instr)) 4 in
      nothing (put_gpr m (rt instr) 1)).

(** The cases of the stores. *)
Definition decode_store m (instr : Z) : result (Z * mips B) :=
  let op := opcode instr in
  let va := data_va m instr in
  if op =? SB then store_op m instr va 1
  else if op =? SH then store_op (check_aligned m (odd va) data_store va) instr va 2
  else if op =? SWL then store_word_at m instr va (store_left va)
  else if op =? SW then
    if negb (bits va 1 0 =? 0) then Exit (-1) else store_op m instr va 4
  else if op =? SWR then store_word_at m instr va (store_right va)
  else decode_linked m instr.

(** The cases of the loads; 32 bits are the width of the register. *)
Definition decode_memory m (instr : Z) : result (Z * mips B) :=
  let op := opcode instr in
  let va := data_va m instr in
  if op =? LB then load_op m instr va 1 (fun y => sign_extend_UInt32 (Z.land y 0xff) 8)
  else if op =? LH then
    load_op (check_aligned m (odd va) data_load va) instr va 2
      (fun y => sign_extend_UInt32 (Z.land y 0xffff) 16)
  else if op =? LWL then load_word_at m instr va (merge_left va)
  else if op =? LW then
    load_op (check_aligned m (negb (Z.land va 3 =? 0)) data_load va) instr va 4 (fun y => y)
  else if op =? LBU then load_op m instr va 1 (fun y => Z.land y 0xff)
  else if op =? LHU then
    load_op (check_aligned m (odd va) data_load va) instr va 2 (fun y => Z.land y 0xffff)
  else if op =? LWR then load_word_at m instr va (merge_right va)
  else decode_store m instr.

(** ** Branches *)

Definition branch_address (st : MIPS_State) (instr : Z) : Z :=
  u32 (pc st + 4 + u32 (Z.shiftl (sign_extend_UInt32 (offset instr) 16) 2)).

Definition branch m (instr : Z) (taken : bool) : result (Z * mips B) :=
  Val (branch_delay,
       on_mst (fun st =>
         set_branch_target st
           (if taken then branch_address st instr else u32 (pc st + 8))) m).

(** A likely branch that is not taken skips its delay slot. *)
Definition branch_likely m (instr : Z) (taken : bool) : result (Z * mips B) :=
  if taken then branch m instr true
  else
    nothing
      (on_mst (fun st =>
         set_pipeline (set_branch_target st (u32 (pc st + 8))) branch_delay) m).

Definition link m (i : Z) : mips B := on_mst (fun st => set_GPR st i (u32 (pc st + 8))) m.

Definition jump m (instr : Z) : result (Z * mips B) :=
  Val (branch_delay,
       on_mst (fun st =>
         set_branch_target st
           (u32 (Z.lor (clear_bits (u32 (pc st + 4)) 27 0) (Z.shiftl (target instr) 2)))) m).

Definition jump_register m (v : Z) : result (Z * mips B) :=
  Val (if bits v 1 0 =? 0 then branch_delay else instr_addr_error,
       on_mst (fun st => set_branch_target st v) m).

Definition decode_regimm m (instr : Z) : result (Z * mips B) :=
  let x := s32 (GPR (mst m) (rs instr)) in
  let op := rt instr in
  if op =? BLTZ then branch m instr (x <? 0)
  else if op =? BGEZ then branch m instr (0 <=? x)
  else if op =? BLTZL then branch_likely m instr (x <? 0)
  else if op =? BGEZL then branch_likely m instr (0 <=? x)
  else if op =? BLTZAL then branch (link m 31) instr (x <? 0)
  else if op =? BGEZAL then branch (link m 31) instr (0 <=? x)
  else process_reserved_instruction (mst m).

Definition decode_likely m (instr : Z) : result (Z * mips B) :=
  let op := opcode instr in
  let x := GPR (mst m) (rs instr) in
  let y := GPR (mst m) (rt instr) in
  if op =? BEQL then branch_likely m instr (s32 x =? s32 y)
  else if op =? BNEL then branch_likely m instr (negb (s32 x =? s32 y))
  else if op =? BLEZL then branch_likely m instr (s32 x <=? 0)
  else (* BGTZL *) branch_likely m instr (0 <? s32 x).

Definition decode_branch m (instr : Z) : result (Z * mips B) :=
  let op := opcode instr in
  let x := GPR (mst m) (rs instr) in
  let y := GPR (mst m) (rt instr) in
  if op =? J then jump m instr
  else if op =? JAL then jump (link m 31) instr
  else if op =? BEQ then branch m instr (x =? y)
  else if op =? BNE then branch m instr (negb (x =? y))
  else if op =? BLEZ then branch m instr (s32 x <=? 0)
  else if op =? BGTZ then branch m instr (0 <? s32 x)
  else decode_likely m instr.

(** ** Arithmetic *)

Definition put_rd m (instr v : Z) : result (Z * mips B) := nothing (put_gpr m (rd instr) v).
Definition put_rt m (instr v : Z) : result (Z * mips B) := nothing (put_gpr m (rt instr) v).
Definition set_hilo m (h l : Z) : mips B := on_mst (fun st => set_lo (set_hi st h) l) m.

(** The exception of an overflow, after which the result is written. *)
Definition check_overflow m (bad : bool) : mips B :=
  if bad then on_mst process_integer_overflow m else m.
Definition add_overflows (x y z : Z) : bool :=
  (bit (Z.lxor x y) 31 =? 0) && negb (bit (Z.lxor x z) 31 =? 0).
Definition sub_overflows (x y z : Z) : bool :=
  (y <? 0) && (z <? x) || (0 <? y) && (x <? z).

Definition sra_word (x s : Z) : Z := sign_extend_UInt32 (Z.shiftr x s) (32 - s).
Definition srav_word (x s : Z) : Z :=
  let sign_bits :=
    if Z.land 0x80000000 x =? 0 then 0
    else Z.land 0xFFFFFFFF (u32 (Z.lnot (Z.shiftr 0xFFFFFFFF s))) in
  Z.lor sign_bits (Z.shiftr x s).

(** [ldiv] on a [long] of 64 bits or, where it has 32, with its overflow undefined. *)
Definition divide_Int32 (host_lp64 : bool) m (a b : Z) : result (mips B) :=
  if b =? 0 then Undef
  else if negb host_lp64 && (a =? -0x80000000) && (b =? -1) then Undef
  else Val (set_hilo m (u32 (Z.rem a b)) (u32 (Z.quot a b))).
Definition divide_UInt32 m (a b : Z) : result (mips B) :=
  if b =? 0 then Undef else Val (set_hilo m (a mod b) (a / b)).

Definition shift_amount (x : Z) : Z := bits x 4 0.

(** The codes of SPECIAL from the multiplications on. *)
Definition decode_special_arith (host_lp64 : bool) m (instr : Z) : result (Z * mips B) :=
  let f := function instr in
  let x := GPR (mst m) (rs instr) in
  let y := GPR (mst m) (rt instr) in
  if (f =? MULT) || (f =? MULTU) then
    let z := u64 (x * y) in
    nothing (set_hilo m (Z.land (Z.shiftr z 32) 0xFFFFFFFF) (Z.land z 0xFFFFFFFF))
  else if f =? DIV then let! m := divide_Int32 host_lp64 m (s32 x) (s32 y) in nothing m
  else if f =? DIVU then let! m := divide_UInt32 m x y in nothing m
  else if f =? ADD then
    let z := u32 (x + y) in put_rd (check_overflow m (add_overflows x y z)) instr z
  else if f =? ADDU then put_rd m instr (u32 (x + y))
  else if f =? SUB then
    let z := u32 (x - y) in
    put_rd (check_overflow m (sub_overflows (s32 x) (s32 y) (s32 z))) instr z
  else if f =? SUBU then put_rd m instr (u32 (x - y))
  else if f =? AND then put_rd m instr (Z.land x y)
  else if f =? OR then put_rd m instr (Z.lor x y)
  else if f =? XOR then put_rd m instr (Z.lxor x y)
  else if f =? NOR then put_rd m instr (u32 (Z.lnot (Z.lor x y)))
  else if f =? SLT then put_rd m instr (c_bool (s32 x <? s32 y))
  else if f =? SLTU then put_rd m instr (c_bool (x <? y))
  else process_reserved_instruction (mst m).

(** The codes of SPECIAL. *)
Definition decode_special (host_lp64 : bool) m (instr : Z) : result (Z * mips B) :=
  let f := function instr in
  let x := GPR (mst m) (rs instr) in
  let y := GPR (mst m) (rt instr) in
  if f =? SLL then
    if rd instr =? 0 then nothing m else put_rd m instr (u32 (Z.shiftl y (shamt instr)))
  else if f =? SRL then put_rd m instr (Z.shiftr y (shamt instr))
  else if f =? SRA then put_rd m instr (sra_word y (shamt instr))
  else if f =? SLLV then put_rd m instr (u32 (Z.shiftl y (shift_amount x)))
  else if f =? SRLV then put_rd m instr (Z.shiftr y (shift_amount x))
  else if f =? SRAV then put_rd m instr (srav_word y (shift_amount x))
  else if f =? MOVZ then if y =? 0 then put_rd m instr x else nothing m
  else if f =? MOVN then if negb (y =? 0) then put_rd m instr x else nothing m
  else if f =? JR then jump_register m x
  else if f =? JALR then jump_register (link m (rd instr)) x
  else if f =? SYSCALL then nothing (on_mst process_syscall m)
  else if (f =? BREAK) || (f =? SYNC) || (f =? TEQ) || (f =? TNE) then nothing m
  else if f =? MFHI then put_rd m instr (hi (mst m))
  else if f =? MTHI then nothing (on_mst (fun st => set_hi st x) m)
  else if f =? MFLO then put_rd m instr (lo (mst m))
  else if f =? MTLO then nothing (on_mst (fun st => set_lo st x) m)
  else decode_special_arith host_lp64 m instr.

(** The loop of CLZ from bit [n - 1] down: the index of the first bit found, or -1. *)
Fixpoint highest_set (n : nat) (x : Z) : Z :=
  match n with
  | O => -1
  | S n => if Z.testbit x (Z.of_nat n) then Z.of_nat n else highest_set n x
  end.

Definition decode_special2 m (instr : Z) : result (Z * mips B) :=
  let f := function instr in
  let x := GPR (mst m) (rs instr) in
  let y := GPR (mst m) (rt instr) in
  if f =? MADD then
    let temp1 := u64 (Z.shiftl (hi (mst m)) 32 + lo (mst m)) in
    let temp2 := u64 (u32 (x * y) + temp1) in
    nothing (set_hilo m (u32 (Z.shiftr temp2 32)) (u32 temp2))
  else if f =? FMUL then put_rd m instr (u32 (x * y))
  else if f =? CVT_S then put_rd m instr (u32 (31 - highest_set 32 x))
  else process_reserved_instruction (mst m).

(** The instructions with an immediate operand. *)
Definition decode_immediate m (instr : Z) : result (Z * mips B) :=
  let op := opcode instr in
  let x := GPR (mst m) (rs instr) in
  let y := sign_extend_UInt32 (immediate instr) 16 in
  if op =? ADDI then
    let z := u32 (x + y) in put_rt (check_overflow m (add_overflows x y z)) instr z
  else if op =? ADDIU then put_rt m instr (u32 (x + s32 y))
  else if op =? SLTI then put_rt m instr (c_bool (s32 x <? s32 y))
  else if op =? SLTIU then put_rt m instr (c_bool (x <? y))
  else if op =? ANDI then put_rt m instr (Z.land (u16 x) (bits (immediate instr) 15 0))
  else if op =? ORI then put_rt m instr (Z.lor x (immediate instr))
  else if op =? XORI then put_rt m instr (Z.lxor x (immediate instr))
  else (* LUI *) put_rt m instr (u32 (Z.shiftl (immediate instr) 16)).

(** ** Co-processors (cp0.c) *)

Definition elapsed (st : MIPS_State) : Z := u64 (now st - count_seed st) / 2.

Definition read_cp0 (st : MIPS_State) (n sel : Z) : result Z :=
  if n =? Random then get_random st
  else if n =? Count then Val (u32 (CP0 st Count + elapsed st))
  else if n =? Config then Val (if sel =? 0 then CP0 st Config else cp0_config1 st)
  else Val (CP0 st n).

(** The clock is put forward to the next timer interrupt. *)
Definition forward (st : MIPS_State) : MIPS_State :=
  set_now st
    (u64 (now st + u64 (u64 (CP0 st Compare - u64 (CP0 st Count + elapsed st)) * 2))).

Definition write_cp0 (st : MIPS_State) (n x : Z) : MIPS_State :=
  if (n =? Index) || (n =? EntryLo0) || (n =? EntryLo1) || (n =? EntryHi) || (n =? EPC)
  then set_CP0 st n x
  else if n =? Context then set_CP0 st Context (u32 (clear_bits x 1 0))
  else if n =? Count then forward (set_CP0 (set_count_seed st (now st)) Count x)
  else if n =? Compare then
    let st := set_CP0 st Compare x in
    let st := set_events st (u16 (clear_bit (events st) (7 + Cause_IP_First))) in
    let st := forward st in
    set_CP0 st Cause (Z.land (CP0 st Cause) 0xFFFF7FFF)
  else if n =? SR then
    set_CP0 st SR
      (Z.land x (u64 (Z.lnot (Z.lor (Z.lor (bitsmask 27 26) (bitsmask 24 23)) (bitsmask 7 6)))))
  else if n =? Cause then
    set_events st (u16 (Z.lor (events st) (Z.land x (bitsmask Cause_IP1 Cause_IP0))))
  else st.

Definition kernel_mode (st : MIPS_State) : bool := negb (Z.land (mode st) kmode =? 0).

(** The operations on the translation buffer and the returns from exceptions. *)
Definition decode_cop0_op m (instr : Z) : result (Z * mips B) :=
  let f := funct instr in
  let st := mst m in
  if f =? TLBR then
    let! e := tlb_get st (Z.to_nat (bits (CP0 st Index) 13 6)) in
    let st := set_CP0 st EntryHi (e_hi e) in
    let st := set_CP0 st EntryLo0 (e_lo_reg e).1 in
    nothing (set_mst m (set_CP0 st EntryLo1 (e_lo_reg e).2))
  else if f =? TLBWI then
    let! st := set_tlb_entry st (CP0 st Index) in nothing (set_mst m st)
  else if f =? TLBWR then
    let! n := get_random st in
    let! st := set_tlb_entry st n in nothing (set_mst m st)
  else if f =? TLBP then
    let! e := probe_tlb st (CP0 st EntryHi) in
    nothing
      (set_mst m
         (set_CP0 st Index (match e with Some e => e_index e | None => bitmask 31 end)))
  else if f =? RFE then nothing (on_mst leave_kernel_mode m)
  else if f =? ERET then
    let st := set_CP0 st SR (Z.lor (CP0 st SR) 0x1) in
    let m := set_mst m (set_pc st (CP0 st EPC)) in
    let! m :=
      if Z.land (CP0 (mst m) Cause) (Z.shiftl 1 Cause_IP2) =? 0 then Val m
      else mach_set_intr env 0 m in
    nothing (on_mst (fun st => set_pipeline st branch_nodelay) m)
  else process_reserved_instruction st.

(** An unusable co-processor raises its exception and the instruction goes on. *)
Definition decode_cop0 m (instr : Z) : result (Z * mips B) :=
  let m :=
    if negb (kernel_mode (mst m)) && (bit (CP0 (mst m) SR) SR_CU0 =? 0)
    then on_mst (fun st => process_coprocessor_unusable st 0) m else m in
  if negb (bit instr 25 =? 0) then decode_cop0_op m instr
  else if rs instr =? MFCz then
    let! v := read_cp0 (mst m) (rd instr) (sel instr) in put_rt m instr v
  else if rs instr =? CFCz then nothing m
  else if rs instr =? MTCz then
    nothing (on_mst (fun st => write_cp0 st (rd instr) (GPR st (rt instr))) m)
  else process_reserved_instruction (mst m).

Definition decode_cop1 m (instr : Z) : result (Z * mips B) :=
  if bit (CP0 (mst m) SR) SR_CU1 =? 0 then
    nothing (on_mst (fun st => process_coprocessor_unusable st 1) m)
  else if function instr =? WAIT then nothing m
  else if (fmt instr =? CF) && (fs instr =? 0) then
    nothing (put_gpr m (ft instr) (fir (mst m)))
  else nothing m.

(** ** The switch *)

Definition is_branch (op : Z) : bool :=
  (J <=? op) && (op <=? BGTZ) || (BEQL <=? op) && (op <=? BGTZL).
Definition is_memory (op : Z) : bool :=
  (LB <=? op) && (op <=? LWR) || (SB <=? op) && (op <=? SW) || (op =? SWR) || (op =? LL)
  || (op =? SC).

Definition decode (host_lp64 : bool) m (instr : Z) : result (Z * mips B) :=
  let op := opcode instr in
  if op =? SPECIAL then decode_special host_lp64 m instr
  else if op =? REGIMM then decode_regimm m instr
  else if is_branch op then decode_branch m instr
  else if (ADDI <=? op) && (op <=? LUI) then decode_immediate m instr
  else if op =? COP0 then decode_cop0 m instr
  else if op =? COP1 then decode_cop1 m instr
  else if op =? SPECIAL2 then decode_special2 m instr
  else if is_memory op then decode_memory m instr
  else if (op =? PREF) || (op =? CACHE) || (op =? LWC1) || (op =? SWC1) then nothing m
  else process_reserved_instruction (mst m).
End decode.
