(* ===== verification/MipsRun.v ===== *)
(** * The MIPS machine (src/arch_mips/common/mips_arch_interface.c, exception.c, interrupt.c)

    Reset, interrupts and one step.  [mips_mem_reset] works on a table of banks that no
    file fills, and does nothing; the reset of the caches, which hold no data, is left. *)

From Stdlib Require Import ZArith Lia Bool.
From stdpp Require Import base numbers option list.
From S2P Require Import Prelude Words Bus MipsState MipsTlb MipsDecode.

(** ** Reset *)

Definition deliver_cold_reset (st : MIPS_State) : MIPS_State :=
  set_events st (Z.lor (events st) cold_reset_event).
Definition deliver_soft_reset (st : MIPS_State) : MIPS_State :=
  set_events st (Z.lor (events st) soft_reset_event).

Definition process_reset (st : MIPS_State) : result MIPS_State :=
  let st := set_now st (u64 (now st + 5)) in
  let! st :=
    if Z.land (events st) cold_reset_event =? 0 then Val st
    else
      let st := set_CP0 st Random (tlb_size - 1) in
      reset_tlb (set_random_seed st (now st)) in
  let st := set_CP0 st SR (set_bit (CP0 st SR) SR_BEV) in
  let st := set_pc st (u32 (reset_vector_base + reset_vector)) in
  let st := enter_kernel_mode (set_pipeline st nothing_special) in
  Val (set_events st 0).

(** [memset] clears the size of one register of each file. *)
Definition mips_reset_state (st : MIPS_State) : result MIPS_State :=
  let cold := warm st =? 0 in
  let st :=
    if cold then
      let st := set_fpr (set_cp1 st (updZ (cp1 st) 0 0)) (updZ (fpr st) 0 0) in
      set_nop_count (set_count_seed st (now st)) 0
    else st in
  let st := set_sync_bit (set_ll_bit st 0) 0 in
  process_reset (if cold then deliver_cold_reset st else deliver_soft_reset st).

(** ** Interrupts *)

Definition mips_trigger_irq (st : MIPS_State) : MIPS_State :=
  let (epc, cause) := exception_point st (CP0 st Cause) in
  let st := set_CP0 (set_CP0 st Cause cause) EPC epc in
  let st :=
    set_pc st (if bit (CP0 st SR) SR_BEV =? 0 then 0x80000180 else 0xbfc00380) in
  set_pipeline st nothing_special.

(** ** One step *)

Definition mips_set_pc (st : MIPS_State) (addr : Z) : MIPS_State := set_pc st addr.
Definition mips_get_pc (st : MIPS_State) : Z := pc st.

(** The timer: [Count] is compared with [Compare] once a step. *)
Definition timer_step (st : MIPS_State) : MIPS_State :=
  if CP0 st Compare =? 0 then st
  else
    let st := set_CP0 st Count (u32 (CP0 st Count + 1)) in
    if CP0 st Count <? CP0 st Compare then st
    else
      let st := set_CP0 st Count 0 in
      if negb (Z.land (CP0 st SR) (Z.shiftl 1 SR_IEC) =? 0)
         && negb (Z.land (CP0 st SR) (Z.shiftl 1 SR_IM7) =? 0)
         && (Z.land (CP0 st Cause) (Z.shiftl 1 Cause_IP7) =? 0)
         && (Z.land (CP0 st SR) 0x2 =? 0)
      then
        let st := set_CP0 st Cause (Z.lor (CP0 st Cause) (Z.shiftl 1 Cause_IP7)) in
        process_exception st EXC_Int common_vector
      else st.

Section step.
Context {B : Type} `{Bus B} (env : mips_env B) (host_lp64 : bool).
Implicit Types (m : mips B).

(** Fetch and execute: the next state of the pipeline. *)
Definition fetch_decode m : result (Z * mips B) :=
  let va := pc (mst m) in
  let! (code, pa, st) := translate_vaddr (mst m) va instr_fetch in
  let m := set_mst m st in
  if code =? TLB_SUCC then
    match pa with
    | Some pa =>
        let! (v, m) := mips_mem_read m pa 4 in
        match v with Some instr => decode env host_lp64 m instr | None => Undef end
    | None => Undef
    end
  else Val (0, m).

(** The program counter moves by what the instruction left in [pipeline]: [None] when the
    step returns. *)
Definition advance_pc (st : MIPS_State) : bool * MIPS_State :=
  let p := pipeline st in
  if p =? nothing_special then (true, set_pc st (u32 (pc st + 4)))
  else if p =? branch_delay then (true, set_pc st (branch_target st))
  else if p =? instr_addr_error then
    (false, set_pipeline (process_address_error st instr_fetch (branch_target st)) nothing_special)
  else if p =? branch_nodelay then (false, set_pipeline st nothing_special)
  else (true, st).

Definition mips_step_once m : result (mips B) :=
  let m := on_mst (fun st => set_GPR st 0 0) m in
  let m := if irq_pending (mst m) =? 0 then m else on_mst mips_trigger_irq m in
  let! (next_state, m) := fetch_decode m in
  let (go, st) := advance_pc (mst m) in
  if go then
    mips_mach_io_do_cycle env (set_mst m (timer_step (set_pipeline st next_state)))
  else Val (set_mst m st).

Fixpoint mips_run (n : nat) m : result (mips B) :=
  match n with
  | O => Val m
  | S n => let! m := mips_step_once m in mips_run n m
  end.
End step.
