(* ===== verification/MipsTlbSpec.v ===== *)
(** * The translation buffer of the MIPS processor is associative

    The hash chains of tlb.c, doubly linked through the array of entries, against the
    buffer of the architecture: the pages written, the latest first, of which a look-up
    takes the first that answers. *)

From Stdlib Require Import ZArith Lia Bool.
From stdpp Require Import base numbers option list sets.
From S2P Require Import Prelude Words MipsState MipsLemmas MipsTlb.

Section chains.
Implicit Types (t : list TLBEntry) (e : TLBEntry) (c : list nat).

(** ** Doubly linked segments

    [dseg t pp p q qn c]: from [p] on, the entries [c] are linked forwards up to [qn] and
    backwards down to [pp]; [q] is the last of them, or [pp]. *)
Fixpoint dseg t (pp p q qn : option nat) c : Prop :=
  match c with
  | [] => p = qn /\ pp = q
  | i :: c =>
      p = Some i
      /\ exists e, t !! i = Some e /\ e_prev e = pp /\ dseg t (Some i) (e_next e) q qn c
  end.

Lemma dseg_app t pp p q qn c1 c2 :
  dseg t pp p q qn (c1 ++ c2) <->
  exists j jn, dseg t pp p j jn c1 /\ dseg t j jn q qn c2.
Proof.
  revert pp p. induction c1 as [|i c1 IH]; intros pp p; cbn [app dseg].
  - split; [intros Hc; by exists pp, p|intros (j & jn & [-> ->] & Hc); done].
  - split.
    + intros (-> & e & He & Hp & Hc). apply IH in Hc as (j & jn & H1 & H2).
      exists j, jn. split; [|done]. split; [done|]. by exists e.
    + intros (j & jn & (-> & e & He & Hp & H1) & H2). split; [done|].
      exists e. split; [done|]. split; [done|]. apply IH. by exists j, jn.
Qed.

Lemma dseg_put t pp p q qn c i e :
  i ∉ c -> dseg (<[i := e]> t) pp p q qn c <-> dseg t pp p q qn c.
Proof.
  revert pp p. induction c as [|k c IH]; intros pp p Hi; cbn [dseg]; [done|].
  apply not_elem_of_cons in Hi as [Hk Hi].
  rewrite list_lookup_insert_ne by done.
  split; intros (-> & e' & He & Hp & Hc); (split; [done|]); exists e';
    (split; [done|]); (split; [done|]); by apply IH.
Qed.

(** A new predecessor of the first entry, a new successor of the last. *)
Lemma dseg_first t pp p q qn i c e pp' :
  dseg t pp p q qn (i :: c) -> t !! i = Some e -> i ∉ c ->
  dseg (<[i := with_prev e pp']> t) pp' p q qn (i :: c).
Proof.
  intros (-> & e' & He' & Hp & Hc) He Hi. rewrite He in He'. injection He' as <-. split; [done|].
  exists (with_prev e pp'). split; [by eapply list_lookup_insert_eq, lookup_lt_Some|].
  split; [done|]. by apply dseg_put.
Qed.

Lemma dseg_last t pp p q qn i c e qn' :
  dseg t pp p q qn (c ++ [i]) -> t !! i = Some e -> i ∉ c ->
  q = Some i /\ dseg (<[i := with_next e qn']> t) pp p (Some i) qn' (c ++ [i]).
Proof.
  intros Hs He Hi. apply dseg_app in Hs as (j & jn & H1 & -> & e' & He' & Hp & _ & <-).
  rewrite He in He'. injection He' as <-. split; [done|].
  apply dseg_app. exists j, (Some i).
  split; [by apply dseg_put|]. split; [done|].
  exists (with_next e qn'). split; [by eapply list_lookup_insert_eq, lookup_lt_Some|].
  by split.
Qed.

(** The entries of a segment exist, and its head is its first entry. *)
Lemma dseg_lookup t pp p q qn c i : dseg t pp p q qn c -> i ∈ c -> is_Some (t !! i).
Proof.
  revert pp p. induction c as [|k c IH]; intros pp p Hs Hi; [by apply not_elem_of_nil in Hi|].
  destruct Hs as (_ & e & He & _ & Hs). apply elem_of_cons in Hi as [->|Hi]; [by exists e|].
  by eapply IH.
Qed.

Lemma dseg_head t pp q qn c p : dseg t pp p q qn c -> p = match c with [] => qn | i :: _ => Some i end.
Proof. destruct c; cbn; [by intros [-> _]|by intros (-> & _)]. Qed.

Lemma dseg_tail t pp p q qn c : dseg t pp p q qn c -> q = match last c with Some i => Some i | None => pp end.
Proof.
  revert pp p. induction c as [|i c IH]; intros pp p; cbn [dseg]; [by intros [_ ->]|].
  intros (_ & e & _ & _ & Hs). rewrite (IH _ _ Hs), last_cons. by destruct (last c).
Qed.

(** ** A whole chain *)

Definition chain t (p : option nat) c : Prop := exists q, dseg t None p q None c.

Lemma chain_put t p c i e : i ∉ c -> chain (<[i := e]> t) p c <-> chain t p c.
Proof. intros Hi. by split; intros [q Hs]; exists q; eapply dseg_put. Qed.

Lemma chain_head t p c : chain t p c -> p = head c.
Proof. intros [q Hs]. by destruct c; [apply Hs|apply Hs]. Qed.

(** ** Entries that agree but for their links *)

Definition page_of e : Z * (Z * Z) * Z * Z := (e_hi e, e_lo_reg e, e_index e, e_hash e).
Definition same_pages t t' : Prop := (page_of <$> t') = (page_of <$> t).

Lemma same_pages_put t i e e' :
  t !! i = Some e -> page_of e' = page_of e -> same_pages t (<[i := e']> t).
Proof.
  intros He Hp. unfold same_pages. rewrite list_fmap_insert, Hp.
  apply list_insert_id. rewrite list_lookup_fmap, He. done.
Qed.

Lemma same_pages_lookup t t' i e :
  same_pages t t' -> t !! i = Some e -> exists e', t' !! i = Some e' /\ page_of e' = page_of e.
Proof.
  intros Hs He. assert (Hl : (page_of <$> t') !! i = Some (page_of e)) by (by rewrite Hs, list_lookup_fmap, He).
  apply list_lookup_fmap_Some in Hl as (e' & He' & Hp). exists e'. by split.
Qed.

(** The halves of the pages. *)
Definition page_words t : list (Z * (Z * Z)) := (fun e => (e_hi e, e_lo_reg e)) <$> t.

Lemma same_pages_words t t' : same_pages t t' -> page_words t' = page_words t.
Proof.
  intros Hs. apply (f_equal (fmap (fun x : Z * (Z * Z) * Z * Z => x.1.1))) in Hs.
  by rewrite <- !list_fmap_compose in Hs.
Qed.

Lemma place_words t i e index hash :
  t !! i = Some e -> page_words (<[i := with_place e index hash]> t) = page_words t.
Proof.
  intros He. unfold page_words. rewrite list_fmap_insert. apply list_insert_id.
  by rewrite list_lookup_fmap, He.
Qed.

#[export] Instance same_pages_preorder : PreOrder same_pages.
Proof. split; [by intros t|]. intros t1 t2 t3 H1 H2. unfold same_pages in *. congruence. Qed.

(** ** Taking an entry out of its chain and putting one in front of a chain *)

(** Only the links change. *)
Record relinked (st st' : MIPS_State) : Prop := {
  rl_state : st' = set_tlb_map (set_tlb st (tlb st')) (tlb_map st');
  rl_pages : same_pages (tlb st) (tlb st')
}.

Lemma relinked_put st i e e' :
  tlb st !! i = Some e -> page_of e' = page_of e -> relinked st (tlb_put st i e').
Proof. intros He Hp. split; [by destruct st|]. by eapply same_pages_put. Qed.

Lemma relinked_map st m : relinked st (set_tlb_map st m).
Proof. split; [by destruct st|done]. Qed.

#[export] Instance relinked_preorder : PreOrder relinked.
Proof.
  split; [intros st; split; [by destruct st|done]|].
  intros s1 s2 s3 [E1 P1] [E2 P2]. split; [|by transitivity (tlb s2)].
  rewrite E2, E1. by destruct s1.
Qed.

Definition apart c c' : Prop := forall k, k ∈ c -> k ∉ c'.

Lemma apart_not_in c c' k : apart c c' -> k ∈ c' -> k ∉ c.
Proof. intros Ha Hk Hc. by apply (Ha k). Qed.

Lemma get_some st i e : tlb st !! i = Some e -> tlb_get st i = Val e.
Proof. intros He. unfold tlb_get. by rewrite He. Qed.

Lemma map_put_Val st h p :
  0 <= h < Z.of_nat (length (tlb_map st)) ->
  map_put st h p = Val (set_tlb_map st (<[Z.to_nat h := p]> (tlb_map st))).
Proof.
  intros Hh. unfold map_put. by rewrite (proj2 (Z.leb_le _ _)), (proj2 (Z.ltb_lt _ _)) by lia.
Qed.

(** The successor of [i] gets its predecessor. *)
Lemma unlink_next st pp p qn q i c e :
  dseg (tlb st) pp p q qn (i :: c) -> tlb st !! i = Some e -> NoDup (i :: c) -> qn = None ->
  exists st' q',
    match e_next e with Some j => set_prev_of st j (e_prev e) | None => Val st end = Val st'
    /\ dseg (tlb st') pp (e_next e) q' qn c /\ relinked st st' /\ tlb_map st' = tlb_map st
    /\ tlb st' !! i = Some e /\ (forall c', apart c c' -> forall pp' p' q'' qn',
         dseg (tlb st') pp' p' q'' qn' c' <-> dseg (tlb st) pp' p' q'' qn' c').
Proof.
  intros (_ & e' & He' & <- & Hs) He Hnd ->. rewrite He in He'. injection He' as <-.
  apply NoDup_cons in Hnd as [Hi Hnd]. pose proof (dseg_head _ _ _ _ _ _ Hs) as Hh.
  destruct c as [|j c]; rewrite Hh in *.
  - exists st, (e_prev e). split_and!; done.
  - apply NoDup_cons in Hnd as [Hj _]. apply not_elem_of_cons in Hi as [Hij _].
    destruct (dseg_lookup _ _ _ _ _ _ j Hs ltac:(left)) as [ej Hej].
    unfold set_prev_of. rewrite (get_some _ _ _ Hej). cbn [rbind].
    eexists _, q. split; [reflexivity|]. split; [by eapply dseg_first|].
    split; [by eapply relinked_put|]. split; [done|].
    split; [cbn [tlb tlb_put set_tlb]; by rewrite list_lookup_insert_ne|].
    intros c' Ha pp' p' q'' qn'. apply dseg_put, Ha. left.
Qed.

Lemma unlink_chain st i e c1 c2 p :
  tlb st !! i = Some e -> chain (tlb st) p (c1 ++ i :: c2) -> NoDup (c1 ++ i :: c2) ->
  tlb_map st !! Z.to_nat (e_hash e) = Some p -> 0 <= e_hash e ->
  exists st', unlink_entry st i = Val st'
    /\ chain (tlb st') (head (c1 ++ c2)) (c1 ++ c2)
    /\ tlb_map st' = <[Z.to_nat (e_hash e) := head (c1 ++ c2)]> (tlb_map st)
    /\ relinked st st'
    /\ (forall c' p', apart (c1 ++ i :: c2) c' -> chain (tlb st') p' c' <-> chain (tlb st) p' c').
Proof.
  intros He [q Hs] Hnd Hp Hh. pose proof (lookup_lt_Some _ _ _ Hp) as Hlt.
  apply dseg_app in Hs as (j & jn & H1 & H2).
  apply NoDup_app in Hnd as (Hnd1 & Hdis & Hnd2).
  destruct (unlink_next _ _ _ _ _ _ _ _ H2 He Hnd2 eq_refl)
    as (st1 & q1 & Hx & Hs2 & Hr1 & Hm1 & He1 & Hother1).
  destruct H2 as (-> & e' & He' & Hpj & _). rewrite He in He'. injection He' as <-.
  unfold unlink_entry. rewrite (get_some _ _ _ He). cbn [rbind]. rewrite Hx. cbn [rbind].
  rewrite (get_some _ _ _ He1). cbn [rbind].
  assert (H1' : dseg (tlb st1) None p j (Some i) c1).
  { apply Hother1; [|done]. intros k Hk Hk1. apply (Hdis k Hk1). by right. }
  pose proof (dseg_tail _ _ _ _ _ _ H1) as Hj.
  destruct (last c1) as [k|] eqn:Hlast; rewrite Hpj; rewrite Hj in *.
  - apply last_Some in Hlast as [c1' ->].
    destruct (dseg_lookup _ _ _ _ _ _ k H1' ltac:(set_solver)) as [ek Hek].
    unfold set_next_of. rewrite (get_some _ _ _ Hek). cbn [rbind].
    eexists. split; [reflexivity|].
    apply NoDup_app in Hnd1 as (_ & Hk1 & _).
    destruct (dseg_last _ _ _ _ _ _ _ _ (e_next e) H1' Hek ltac:(set_solver)) as [_ Hd].
    split; [|split; [|split]].
    + assert (Hc : chain (<[k := with_next ek (e_next e)]> (tlb st1)) p ((c1' ++ [k]) ++ c2)).
      { exists q1. apply dseg_app. exists (Some k), (e_next e). split; [done|].
        apply dseg_put; [|done]. intros Hk. apply (Hdis k); [set_solver|by right]. }
      by rewrite <- (chain_head _ _ _ Hc).
    + cbn [tlb_map tlb_put set_tlb]. rewrite Hm1. symmetry. apply list_insert_id.
      rewrite Hp. f_equal. rewrite (dseg_head _ _ _ _ _ _ H1). by destruct c1'.
    + etransitivity; [exact Hr1|]. by eapply relinked_put.
    + intros c' p' Ha. cbn [tlb tlb_put set_tlb]. rewrite chain_put by (apply Ha; set_solver).
      split; intros [q' Hc]; exists q'; (apply Hother1; [|done]); intros x Hx'; apply Ha; set_solver.
  - apply last_None in Hlast as ->. destruct H1 as [-> _].
    rewrite map_put_Val by (rewrite Hm1; lia). eexists. split; [reflexivity|]. cbn [app].
    assert (Hc : chain (tlb st1) (e_next e) c2) by (by exists q1).
    rewrite <- (chain_head _ _ _ Hc). split; [done|]. split; [by rewrite <- Hm1|].
    split; [etransitivity; [exact Hr1|apply relinked_map]|].
    intros c' p' Ha. cbn [tlb set_tlb_map].
    split; intros [q' Hc']; exists q'; (apply Hother1; [|done]); intros x Hx'; apply Ha; set_solver.
Qed.

Lemma push_chain st i h c p :
  tlb_map st !! Z.to_nat h = Some p -> 0 <= h -> chain (tlb st) p c -> NoDup (i :: c) ->
  is_Some (tlb st !! i) ->
  exists st', push_entry st i h = Val st'
    /\ chain (tlb st') (Some i) (i :: c)
    /\ tlb_map st' = <[Z.to_nat h := Some i]> (tlb_map st)
    /\ relinked st st'
    /\ (forall c' p', apart (i :: c) c' -> chain (tlb st') p' c' <-> chain (tlb st) p' c').
Proof.
  intros Hp Hh [q Hs] Hnd [e He]. pose proof (lookup_lt_Some _ _ _ Hp) as Hlt.
  apply NoDup_cons in Hnd as [Hi Hnd]. pose proof (dseg_head _ _ _ _ _ _ Hs) as Hhd.
  unfold push_entry, map_get at 1. rewrite Hp. cbn [rbind].
  assert (Hfirst : exists st1 q1,
    match p with Some j => set_prev_of st j (Some i) | None => Val st end = Val st1
    /\ dseg (tlb st1) (Some i) p q1 None c /\ relinked st st1 /\ tlb_map st1 = tlb_map st
    /\ tlb st1 !! i = Some e
    /\ (forall c' p', apart c c' -> chain (tlb st1) p' c' <-> chain (tlb st) p' c')).
  { destruct c as [|j c]; subst p.
    { exists st, (Some i). split_and!; done. }
    apply NoDup_cons in Hnd as [Hj _]. apply not_elem_of_cons in Hi as [Hij _].
    destruct (dseg_lookup _ _ _ _ _ _ j Hs ltac:(left)) as [ej Hej].
    unfold set_prev_of. rewrite (get_some _ _ _ Hej). cbn [rbind].
    eexists _, q. split; [reflexivity|]. split; [by eapply dseg_first|].
    split; [by eapply relinked_put|]. split; [done|].
    split; [cbn [tlb tlb_put set_tlb]; by rewrite list_lookup_insert_ne|].
    intros c' p' Ha. cbn [tlb tlb_put set_tlb]. apply chain_put, Ha. left. }
  destruct Hfirst as (st1 & q1 & -> & Hs1 & Hr1 & Hm1 & He1 & Hother1). cbn [rbind].
  unfold map_get. rewrite Hm1, Hp. cbn [rbind].
  unfold set_next_of. rewrite (get_some _ _ _ He1). cbn [rbind].
  unfold set_prev_of, tlb_get at 1. cbn [tlb tlb_put set_tlb].
  rewrite list_lookup_insert_eq by (by eapply lookup_lt_Some). cbn [rbind].
  rewrite map_put_Val by (cbn [tlb_map tlb_put set_tlb]; rewrite Hm1; lia).
  eexists. split; [reflexivity|]. cbn [tlb tlb_map tlb_put set_tlb set_tlb_map].
  rewrite list_insert_insert_eq.
  split; [|split; [by rewrite Hm1|split]].
  - exists q1. split; [done|]. eexists.
    split; [by eapply list_lookup_insert_eq, lookup_lt_Some|]. split; [done|].
    by apply dseg_put.
  - etransitivity; [exact Hr1|]. split; [by destruct st1|].
    cbn [tlb tlb_put set_tlb set_tlb_map]. rewrite list_insert_insert_eq.
    by eapply same_pages_put.
  - intros c' p' Ha. rewrite chain_put by (apply Ha; left).
    apply Hother1. intros k Hk. apply Ha. by right.
Qed.

(** ** All the chains

    [cs] gives the entries of each chain, the last being that of the unused ones. *)
Definition last_chain : nat := 64.

Record chains_ok (st : MIPS_State) (cs : nat -> list nat) : Prop := {
  co_len : length (tlb st) = 48%nat;
  co_map : length (tlb_map st) = 65%nat;
  co_chain h : (h <= last_chain)%nat ->
    exists p, tlb_map st !! h = Some p /\ chain (tlb st) p (cs h);
  co_nodup h : NoDup (cs h);
  co_apart h h' : h <> h' -> apart (cs h) (cs h');
  co_place i : (i < 48)%nat ->
    exists e, tlb st !! i = Some e /\ 0 <= e_hash e <= 64 /\ i ∈ cs (Z.to_nat (e_hash e))
              /\ e_index e = Z.of_nat i
}.

Definition without (i : nat) c : list nat := filter (fun k => k <> i) c.

Lemma without_notin i c : i ∉ c -> without i c = c.
Proof.
  induction c as [|k c IH]; intros Hi; [done|]. apply not_elem_of_cons in Hi as [Hk Hi].
  unfold without in *. rewrite filter_cons_True by done. by rewrite IH.
Qed.

Lemma without_split i c1 c2 :
  NoDup (c1 ++ i :: c2) -> without i (c1 ++ i :: c2) = c1 ++ c2.
Proof.
  intros Hnd. apply NoDup_app in Hnd as (_ & H1 & Hnd2). apply NoDup_cons in Hnd2 as [H2 _].
  unfold without. rewrite filter_app, filter_cons_False by (intros Hn; by apply Hn).
  f_equal; apply without_notin; [|done]. intros Hi. apply (H1 i Hi). left.
Qed.

Lemma not_in_without i c : i ∉ without i c.
Proof. intros [Hi _]%list_elem_of_filter. by apply Hi. Qed.

Lemma without_sub i c : without i c ⊆ c.
Proof. intros k [_ Hk]%list_elem_of_filter. done. Qed.

(** Taken out of its chain, an entry is in none. *)
Record out_of_chains (i : nat) (st : MIPS_State) (cs : nat -> list nat) : Prop := {
  oc_chain h : (h <= last_chain)%nat ->
    exists p, tlb_map st !! h = Some p /\ chain (tlb st) p (without i (cs h));
  oc_map : length (tlb_map st) = 65%nat
}.

Lemma unlink_ok st cs i :
  chains_ok st cs -> (i < 48)%nat ->
  exists st', unlink_entry st i = Val st' /\ out_of_chains i st' cs /\ relinked st st'.
Proof.
  intros Hc Hi. destruct (co_place _ _ Hc i Hi) as (e & He & Hh & Hin & _).
  set (h0 := Z.to_nat (e_hash e)) in *. assert (Hh0 : (h0 <= last_chain)%nat) by (unfold last_chain; lia).
  destruct (co_chain _ _ Hc h0 Hh0) as (p & Hp & Hch).
  apply list_elem_of_split in Hin as (c1 & c2 & Hsplit). rewrite Hsplit in Hch.
  pose proof (co_nodup _ _ Hc h0) as Hnd. rewrite Hsplit in Hnd.
  destruct (unlink_chain st i e c1 c2 p He Hch Hnd Hp ltac:(lia))
    as (st' & Hx & Hch' & Hm & Hr & Hother).
  exists st'. split; [done|]. split; [|done]. split.
  - intros h Hle. rewrite Hm. destruct (decide (h = h0)) as [->|Hne].
    + rewrite list_lookup_insert_eq by (by eapply lookup_lt_Some).
      eexists. split; [reflexivity|]. by rewrite Hsplit, without_split.
    + rewrite list_lookup_insert_ne by done. destruct (co_chain _ _ Hc h Hle) as (ph & Hph & Hchh).
      exists ph. split; [done|].
      assert (Ha : apart (c1 ++ i :: c2) (cs h)) by (rewrite <- Hsplit; by apply (co_apart _ _ Hc)).
      rewrite without_notin by (apply Ha; set_solver). by apply Hother.
  - rewrite Hm, length_insert. apply Hc.
Qed.

(** Put in front of chain [h]. *)
Definition moved (i h : nat) (cs : nat -> list nat) (k : nat) : list nat :=
  if decide (k = h) then i :: without i (cs k) else without i (cs k).

Lemma moved_nodup i h cs k : (forall k, NoDup (cs k)) -> NoDup (moved i h cs k).
Proof.
  intros Hnd. assert (Hw : NoDup (without i (cs k))) by (apply NoDup_filter, Hnd).
  unfold moved. case_decide; [|done]. apply NoDup_cons. split; [apply not_in_without|done].
Qed.

Lemma elem_moved i h cs k j : j ∈ moved i h cs k -> j = i /\ k = h \/ j <> i /\ j ∈ cs k.
Proof.
  unfold moved, without. case_decide; [rewrite elem_of_cons|]; rewrite ?list_elem_of_filter; naive_solver.
Qed.

Lemma moved_apart i h cs k k' :
  (forall k k', k <> k' -> apart (cs k) (cs k')) -> k <> k' -> apart (moved i h cs k) (moved i h cs k').
Proof.
  intros Ha Hk j Hj Hj'. apply elem_moved in Hj, Hj'. specialize (Ha k k' Hk j). naive_solver.
Qed.

Lemma push_ok i h st cs :
  out_of_chains i st cs -> (h <= last_chain)%nat -> is_Some (tlb st !! i) ->
  (forall k, NoDup (cs k)) -> (forall k k', k <> k' -> apart (cs k) (cs k')) ->
  exists st', push_entry st i (Z.of_nat h) = Val st' /\ relinked st st'
    /\ (forall k, (k <= last_chain)%nat ->
          exists p, tlb_map st' !! k = Some p /\ chain (tlb st') p (moved i h cs k))
    /\ length (tlb_map st') = 65%nat.
Proof.
  intros [Hch Hmap] Hh Hi Hnd Ha. destruct (Hch h Hh) as (p & Hp & Hc).
  destruct (push_chain st i (Z.of_nat h) (without i (cs h)) p) as (st' & Hx & Hc' & Hm & Hr & Hother);
    [by rewrite Nat2Z.id|lia|done| |done|].
  { apply NoDup_cons. split; [apply not_in_without|apply NoDup_filter, Hnd]. }
  exists st'. split; [done|]. split; [done|]. rewrite Nat2Z.id in Hm.
  split; [|by rewrite Hm, length_insert].
  intros k Hk. rewrite Hm. unfold moved. case_decide as Hkh.
  - subst k. rewrite list_lookup_insert_eq by (by eapply lookup_lt_Some).
    eexists. split; [reflexivity|done].
  - rewrite list_lookup_insert_ne by done. destruct (Hch k Hk) as (pk & Hpk & Hck).
    exists pk. split; [done|]. apply Hother; [|done].
    intros j Hj Hjk. apply elem_of_cons in Hj as [->|Hj]; [by apply not_in_without in Hjk|].
    by apply (Ha h k ltac:(done) j); eapply without_sub.
Qed.

(** ** Writing an entry *)

Lemma put_out i e st cs : out_of_chains i st cs -> out_of_chains i (tlb_put st i e) cs.
Proof.
  intros [Hch Hm]. split; [|done]. intros h Hh. destruct (Hch h Hh) as (p & Hp & Hc).
  exists p. split; [done|]. apply chain_put; [apply not_in_without|done].
Qed.

Lemma relinked_CP0 st st' n : relinked st st' -> CP0 st' n = CP0 st n.
Proof. intros [-> _]. done. Qed.

Lemma page_fields e e' : page_of e' = page_of e ->
  e_hi e' = e_hi e /\ e_lo_reg e' = e_lo_reg e /\ e_index e' = e_index e /\ e_hash e' = e_hash e.
Proof. unfold page_of. by intros [= -> -> -> ->]. Qed.

(** What a write leaves: entry [i] is the page, the other entries keep theirs. *)
Record wrote_page (st : MIPS_State) (i : nat) (pg : Z * (Z * Z) * Z * Z) (st' : MIPS_State)
    : Prop := {
  wp_state : st' = set_tlb_map (set_tlb st (tlb st')) (tlb_map st');
  wp_new : exists e, tlb st' !! i = Some e /\ page_of e = pg;
  wp_old j e : j <> i -> tlb st !! j = Some e ->
    exists e', tlb st' !! j = Some e' /\ page_of e' = page_of e
}.

Lemma place_ok st cs i e h :
  out_of_chains i st cs -> length (tlb st) = 48%nat -> (i < 48)%nat -> (h <= last_chain)%nat ->
  (forall k, NoDup (cs k)) -> (forall k k', k <> k' -> apart (cs k) (cs k')) ->
  (forall j, (j < 48)%nat -> j <> i ->
     exists e, tlb st !! j = Some e /\ 0 <= e_hash e <= 64 /\ j ∈ cs (Z.to_nat (e_hash e))
               /\ e_index e = Z.of_nat j) ->
  exists st',
    push_entry (tlb_put st i (with_place e (Z.of_nat i) (Z.of_nat h))) i (Z.of_nat h) = Val st'
    /\ chains_ok st' (moved i h cs)
    /\ wrote_page st i (e_hi e, e_lo_reg e, Z.of_nat i, Z.of_nat h) st'.
Proof.
  intros Ho Hlen Hi Hh Hnd Ha Hplace. set (e1 := with_place e (Z.of_nat i) (Z.of_nat h)).
  assert (Hi1 : tlb (tlb_put st i e1) !! i = Some e1) by (apply list_lookup_insert_eq; lia).
  destruct (push_ok i h _ cs (put_out i e1 st cs Ho) Hh ltac:(by exists e1) Hnd Ha)
    as (st' & Hx & Hr & Hch & Hm).
  exists st'. split; [done|]. pose proof (rl_pages _ _ Hr) as Hsp.
  assert (Hold : forall j ej, j <> i -> tlb st !! j = Some ej ->
            exists e', tlb st' !! j = Some e' /\ page_of e' = page_of ej).
  { intros j ej Hj Hej. eapply same_pages_lookup; [exact Hsp|].
    cbn [tlb tlb_put set_tlb]. by rewrite list_lookup_insert_ne. }
  destruct (same_pages_lookup _ _ _ _ Hsp Hi1) as (e2 & He2 & Hp2).
  split; split.
  - apply (f_equal length) in Hsp. rewrite !length_fmap in Hsp.
    cbn [tlb tlb_put set_tlb] in Hsp. rewrite length_insert in Hsp. lia.
  - done.
  - done.
  - intros k. by apply moved_nodup.
  - intros k k' Hk. by apply moved_apart.
  - intros j Hj. destruct (decide (j = i)) as [->|Hji].
    + exists e2. apply page_fields in Hp2 as (_ & _ & Hx2 & Hh2). rewrite Hx2, Hh2.
      cbn [e_index e_hash with_place e1]. split; [done|].
      split; [unfold last_chain in Hh; lia|]. split; [|done]. rewrite Nat2Z.id.
      unfold moved. rewrite decide_True by done. left.
    + destruct (Hplace j Hj Hji) as (ej & Hej & Hhj & Hin & Hxj).
      destruct (Hold j ej Hji Hej) as (e' & He' & Hp'). exists e'.
      apply page_fields in Hp' as (_ & _ & Hx' & Hh'). rewrite Hx', Hh'.
      split; [done|]. split; [done|]. split; [|done].
      assert (Hw : j ∈ without i (cs (Z.to_nat (e_hash ej)))) by (by apply list_elem_of_filter).
      unfold moved. case_decide; [by right|done].
  - rewrite (rl_state _ _ Hr) at 1. by destruct st.
  - exists e2. split; [done|]. by rewrite Hp2.
  - exact Hold.
Qed.

Lemma tlb_hash_range va : 0 <= tlb_hash va < 64.
Proof. apply Z.mod_pos_bound. done. Qed.

Lemma set_tlb_entry_ok st cs n :
  chains_ok st cs -> u32 n < 48 ->
  let i := Z.to_nat (u32 n) in
  let h := Z.to_nat (tlb_hash (CP0 st EntryHi)) in
  exists st', set_tlb_entry st n = Val st' /\ chains_ok st' (moved i h cs)
    /\ wrote_page st i (entry_hi st, (CP0 st EntryLo0, CP0 st EntryLo1), u32 n, Z.of_nat h) st'.
Proof.
  intros Hc Hn i h. pose proof (u32_range n) as Hu. unfold is_u32 in Hu.
  pose proof (tlb_hash_range (CP0 st EntryHi)) as Hh.
  unfold set_tlb_entry. rewrite (proj2 (Z.leb_gt tlb_size (u32 n))) by (unfold tlb_size; lia).
  destruct (unlink_ok st cs i Hc ltac:(unfold i; lia)) as (st1 & Hx & Ho & Hr).
  fold i. rewrite Hx. cbn [rbind]. pose proof (rl_pages _ _ Hr) as Hsp.
  destruct (co_place _ _ Hc i ltac:(unfold i; lia)) as (e0 & He0 & _).
  destruct (same_pages_lookup _ _ _ _ Hsp He0) as (e & He & _).
  rewrite (get_some _ _ _ He). cbn [rbind].
  unfold entry_hi. rewrite !(relinked_CP0 _ _ _ Hr). fold (entry_hi st).
  replace (u32 n) with (Z.of_nat i) by (unfold i; lia).
  replace (tlb_hash (CP0 st EntryHi)) with (Z.of_nat h) by (unfold h; lia).
  destruct (place_ok st1 cs i (with_page e (entry_hi st) (CP0 st EntryLo0, CP0 st EntryLo1)) h)
    as (st' & Hx' & Hc' & Hw); try done.
  - apply (f_equal length) in Hsp. rewrite !length_fmap in Hsp. rewrite Hsp. apply Hc.
  - unfold i. lia.
  - unfold h, last_chain. lia.
  - apply Hc.
  - apply Hc.
  - intros j Hj Hji. destruct (co_place _ _ Hc j Hj) as (ej & Hej & Hrest).
    destruct (same_pages_lookup _ _ _ _ Hsp Hej) as (e' & He' & Hp'). exists e'.
    apply page_fields in Hp' as (_ & _ & Hx' & Hh'). by rewrite Hx', Hh'.
  - exists st'. split; [exact Hx'|]. split; [done|]. destruct Hw as [Hws Hwn Hwo]. split.
    + rewrite Hws, (rl_state _ _ Hr). by destruct st.
    + exact Hwn.
    + intros j ej Hji Hej. destruct (same_pages_lookup _ _ _ _ Hsp Hej) as (e1 & He1 & Hp1).
      destruct (Hwo j e1 Hji He1) as (e2 & He2 & Hp2). exists e2. split; [done|congruence].
Qed.

(** ** Reset *)

(** The first [k] entries are in the chain of the unused ones. *)
Definition unused_upto (k : nat) (h : nat) : list nat :=
  if decide (h = last_chain) then rev (seq 0 k) else [].

Lemma in_unused k h j : j ∈ unused_upto k h -> (j < k)%nat /\ h = last_chain.
Proof.
  unfold unused_upto. case_decide; [|intros Hj; by apply not_elem_of_nil in Hj].
  rewrite list_elem_of_In, <- in_rev, in_seq. lia.
Qed.

Lemma unused_nodup k h : NoDup (unused_upto k h).
Proof.
  unfold unused_upto. case_decide; [|apply NoDup_nil_2].
  apply NoDup_ListNoDup, List.NoDup_rev, List.seq_NoDup.
Qed.

Lemma unused_apart k h h' : h <> h' -> apart (unused_upto k h) (unused_upto k h').
Proof. intros Hh j Hj Hj'. apply in_unused in Hj as [_ ->], Hj' as [_ ->]. done. Qed.

Record reset_upto (k : nat) (st st' : MIPS_State) : Prop := {
  ru_state : st' = set_tlb_map (set_tlb st (tlb st')) (tlb_map st');
  ru_len : length (tlb st') = 48%nat;
  ru_map : length (tlb_map st') = 65%nat;
  ru_words : page_words (tlb st') = page_words (tlb st);
  ru_chain h : (h <= last_chain)%nat ->
    exists p, tlb_map st' !! h = Some p /\ chain (tlb st') p (unused_upto k h);
  ru_place i : (i < k)%nat ->
    exists e, tlb st' !! i = Some e /\ e_hash e = 64 /\ e_index e = Z.of_nat i
}.

Lemma reset_entry_ok k st st1 :
  reset_upto k st st1 -> (k < 48)%nat ->
  exists st2, reset_entry st1 k = Val st2 /\ reset_upto (S k) st st2.
Proof.
  intros Hru Hk. destruct Hru as [Hst Hlen Hmap Hwords Hch Hpl].
  destruct (lookup_lt_is_Some_2 (tlb st1) k ltac:(lia)) as [e He].
  assert (Hk' : forall h, without k (unused_upto k h) = unused_upto k h).
  { intros h. apply without_notin. intros Hin. apply in_unused in Hin. lia. }
  unfold reset_entry. rewrite (get_some _ _ _ He). cbn [rbind].
  set (e1 := with_place e (Z.of_nat k) tlb_map_size).
  assert (Ho : out_of_chains k (tlb_put st1 k e1) (unused_upto k)).
  { apply put_out. split; [|done]. intros h Hh. rewrite Hk'. by apply Hch. }
  assert (He1 : tlb (tlb_put st1 k e1) !! k = Some e1) by (apply list_lookup_insert_eq; lia).
  destruct (push_ok k last_chain _ _ Ho ltac:(done) ltac:(by exists e1) (unused_nodup k)
              (unused_apart k)) as (st2 & Hx & Hr & Hch2 & Hm2).
  exists st2. split; [exact Hx|]. pose proof (rl_pages _ _ Hr) as Hsp. split.
  - rewrite (rl_state _ _ Hr), Hst. by destruct st.
  - apply (f_equal length) in Hsp. rewrite !length_fmap in Hsp.
    cbn [tlb tlb_put set_tlb] in Hsp. rewrite length_insert in Hsp. lia.
  - done.
  - rewrite (same_pages_words _ _ Hsp), <- Hwords. by apply place_words.
  - intros h Hh. destruct (Hch2 h Hh) as (p & Hp & Hc). exists p. split; [done|].
    revert Hc. unfold moved. rewrite Hk'. unfold unused_upto. repeat case_decide; try done.
    by rewrite (seq_S k 0), rev_unit.
  - intros i Hi. destruct (decide (i = k)) as [->|Hik].
    + destruct (same_pages_lookup _ _ _ _ Hsp He1) as (e2 & He2 & Hp2).
      apply page_fields in Hp2 as (_ & _ & Hx2 & Hh2). exists e2. by rewrite Hx2, Hh2.
    + destruct (Hpl i ltac:(lia)) as (ei & Hei & Hhi & Hxi).
      destruct (same_pages_lookup _ _ i ei Hsp) as (e2 & He2 & Hp2).
      { cbn [tlb tlb_put set_tlb]. by rewrite list_lookup_insert_ne. }
      apply page_fields in Hp2 as (_ & _ & Hx2 & Hh2). exists e2. by rewrite Hx2, Hh2.
Qed.

Lemma reset_entries_ok n k st st1 :
  reset_upto k st st1 -> (k + n <= 48)%nat ->
  exists st2, reset_entries st1 (seq k n) = Val st2 /\ reset_upto (k + n) st st2.
Proof.
  revert k st1. induction n as [|n IH]; intros k st1 Hru Hn; cbn [seq reset_entries].
  - exists st1. split; [done|]. by rewrite Nat.add_0_r.
  - destruct (reset_entry_ok k st st1 Hru ltac:(lia)) as (st2 & -> & Hru2). cbn [rbind].
    destruct (IH (S k) st2 Hru2 ltac:(lia)) as (st3 & Hx & Hru3). exists st3.
    split; [done|]. by rewrite <- Nat.add_succ_comm.
Qed.

Lemma reset_tlb_ok st :
  length (tlb st) = 48%nat ->
  exists st', reset_tlb st = Val st' /\ chains_ok st' (unused_upto 48)
    /\ st' = set_tlb_map (set_tlb st (tlb st')) (tlb_map st')
    /\ page_words (tlb st') = page_words (tlb st).
Proof.
  intros Hlen. destruct (reset_entries_ok 48 0 st (set_tlb_map st (replicate 65 None)))
    as (st' & Hx & Hru); [|done|].
  { split; try done; [|intros; lia].
    intros h Hh. exists None. split; [apply lookup_replicate; unfold last_chain in Hh; split; [done|lia]|].
    exists None. unfold unused_upto. by case_decide. }
  exists st'. split; [exact Hx|]. destruct Hru as [Hst Hl Hm Hw Hch Hpl].
  split; [|by split].
  split; try done; [apply unused_nodup|apply unused_apart|].
  intros i Hi. destruct (Hpl i Hi) as (e & He & Hh & Hix). exists e. rewrite Hh.
  split; [done|]. split; [lia|]. split; [|done].
  unfold unused_upto. rewrite decide_True by done.
  rewrite list_elem_of_In, <- in_rev, in_seq. lia.
Qed.

End chains.

(** * The MIPS translation buffer refines an associative memory

    The buffer of the architecture is the pages written, the latest first, each with its
    place; a look-up takes the first that answers.  The hash chains give the same answers,
    whatever is written, looked up and translated after a reset. *)

(** ** The associative memory *)

(** A page: its high half, with the global flag in bit 12, and its two low halves. *)
Notation page := (Z * (Z * Z))%type.
Notation associative := (list (nat * (Z * (Z * Z)))).

Definition a_write (a : associative) (i : nat) (pg : page) : associative :=
  (i, pg) :: filter (fun x => x.1 <> i) a.

Definition answers (asid va : Z) (pg : page) : bool :=
  (Z.testbit pg.1 12 || (pg.1 mod 256 =? asid mod 256)) && (va / 8192 =? pg.1 / 8192).

Definition a_probe (a : associative) (asid va : Z) : option (nat * page) :=
  head (filter (fun x => answers asid va x.2 = true) a).

(** The page of a write. *)
Definition page_of_registers (hi lo0 lo1 : Z) : page :=
  (if Z.testbit lo0 8 then Z.setbit hi 12 else hi, (lo0, lo1)).

(** The segments of the address space and the pages of the mapped ones. *)
Definition a_mapped (a : associative) (asid va type : Z) : Z * option Z :=
  match a_probe a asid va with
  | None => (TLB_EXP, None)
  | Some (_, pg) =>
      let lo := if Z.odd (va / 4096) then pg.2.2 else pg.2.1 in
      if negb (Z.testbit lo 1) then (TLB_EXP, None)
      else if (type =? data_store) && negb (Z.testbit lo 2) then (TLB_EXP, None)
      else (TLB_SUCC, Some ((lo / 64) mod 2 ^ 20 * 4096 + va mod 4096))
  end.

Definition a_translate (a : associative) (user : bool) (asid va type : Z) : Z * option Z :=
  if va <? 0x80000000 then a_mapped a asid va type
  else if user then (TLB_FAIL, None)
  else if va <? 0xA0000000 then (TLB_SUCC, Some (va - 0x80000000))
  else if va <? 0xC0000000 then (TLB_SUCC, Some (va - 0xA0000000))
  else a_mapped a asid va type.

(** ** Operations and what they show *)

Inductive tlb_op : Type :=
| OpWrite (n hi lo0 lo1 : Z)
| OpProbe (asid va : Z)
| OpTranslate (user : bool) (asid va type : Z).

Inductive tlb_seen : Type :=
| SawNothing
| SawPage (p : option (Z * page))
| SawAddress (code : Z) (pa : option Z).

Definition seen_entry (e : TLBEntry) : Z * page := (e_index e, (e_hi e, e_lo_reg e)).

Definition op_step (st : MIPS_State) (o : tlb_op) : result (tlb_seen * MIPS_State) :=
  match o with
  | OpWrite n hi lo0 lo1 =>
      let st := set_CP0 (set_CP0 (set_CP0 st EntryHi hi) EntryLo0 lo0) EntryLo1 lo1 in
      let! st := set_tlb_entry st n in Val (SawNothing, st)
  | OpProbe asid va =>
      let st := set_CP0 st EntryHi asid in
      let! e := probe_tlb st va in Val (SawPage (seen_entry <$> e), st)
  | OpTranslate user asid va type =>
      let st := set_mode (set_CP0 st EntryHi asid) (if user then umode else kmode) in
      let! (code, pa, st) := translate_vaddr st va type in Val (SawAddress code pa, st)
  end.

Definition a_step (a : associative) (o : tlb_op) : tlb_seen * associative :=
  match o with
  | OpWrite n hi lo0 lo1 =>
      (SawNothing,
       if u32 n <? 48 then a_write a (Z.to_nat (u32 n)) (page_of_registers hi lo0 lo1) else a)
  | OpProbe asid va =>
      (SawPage ((fun x => (Z.of_nat x.1, x.2)) <$> a_probe a asid va), a)
  | OpTranslate user asid va type =>
      let r := a_translate a user asid va type in (SawAddress r.1 r.2, a)
  end.

Fixpoint op_run (st : MIPS_State) (os : list tlb_op) : result (list tlb_seen) :=
  match os with
  | [] => Val []
  | o :: os => let! (s, st) := op_step st o in let! l := op_run st os in Val (s :: l)
  end.

Fixpoint a_run (a : associative) (os : list tlb_op) : list tlb_seen :=
  match os with
  | [] => []
  | o :: os => (a_step a o).1 :: a_run (a_step a o).2 os
  end.

Definition op_ok (o : tlb_op) : Prop :=
  match o with OpTranslate _ _ va _ => is_u32 va | _ => True end.

(** ** Look-up *)

Lemma entry_matches_answers asid va e :
  entry_matches asid va e = answers asid va (seen_entry e).2.
Proof.
  unfold entry_matches, answers. cbn [seen_entry fst snd].
  change 0x1000 with (2 ^ 12). rewrite mland_bit_zero, negb_involutive by lia.
  change 0xFF with (Z.ones 8). rewrite !Z.land_ones, !Z.shiftr_div_pow2 by lia. done.
Qed.

Lemma tlb_hash_div va : tlb_hash va = (va / 8192) mod 64.
Proof.
  unfold tlb_hash, tlb_map_size. rewrite mbits_div by lia.
  change (2 ^ (31 - 13 + 1)) with (64 * 8192). change (2 ^ 13) with 8192.
  rewrite Z.rem_mul_r by lia. rewrite Z.mul_comm, Z.mod_add, Z.mod_mod by lia. done.
Qed.

Lemma answers_hash asid va pg : answers asid va pg = true -> tlb_hash pg.1 = tlb_hash va.
Proof.
  unfold answers. intros [_ Hp%Z.eqb_eq]%andb_true_iff. by rewrite !tlb_hash_div, Hp.
Qed.

Definition chain_of (a : associative) (h : nat) : list nat :=
  (filter (fun x => Z.to_nat (tlb_hash x.2.1) = h) a).*1.

Record represents (st : MIPS_State) (a : associative) (cs : nat -> list nat) : Prop := {
  rp_chains : chains_ok st cs;
  rp_cs h : (h < last_chain)%nat -> cs h = chain_of a h;
  rp_pages i pg : (i, pg) ∈ a -> exists e, tlb st !! i = Some e /\ seen_entry e = (Z.of_nat i, pg)
}.

(** Along a chain. *)
Lemma probe_chain st a va n pp p q :
  (forall i pg, (i, pg) ∈ a -> exists e, tlb st !! i = Some e /\ seen_entry e = (Z.of_nat i, pg)) ->
  dseg (tlb st) pp p q None (chain_of a (Z.to_nat (tlb_hash va))) ->
  (length (chain_of a (Z.to_nat (tlb_hash va))) <= n)%nat ->
  exists r, probe_from n st va p = Val r
    /\ seen_entry <$> r = (fun x => (Z.of_nat x.1, x.2)) <$> a_probe a (CP0 st EntryHi) va.
Proof.
  revert n pp p. unfold chain_of, a_probe.
  induction a as [|[i pg] a IH]; intros n pp p Hpg Hs Hn.
  { destruct Hs as [-> _]. exists None. by destruct n. }
  rewrite filter_cons in Hs, Hn. rewrite filter_cons. cbn [fst snd] in *.
  assert (Hpg' : forall j pg', (j, pg') ∈ a -> exists e, tlb st !! j = Some e /\ seen_entry e = (Z.of_nat j, pg'))
    by (intros; apply Hpg; by right).
  destruct (decide (answers (CP0 st EntryHi) va pg = true)) as [Ha|Ha].
  - rewrite (answers_hash _ _ _ Ha), decide_True in Hs, Hn by done.
    cbn [fmap list_fmap length fst dseg] in Hn, Hs. destruct Hs as (-> & e & He & _ & _).
    destruct n as [|n]; [lia|]. exists (Some e). cbn [probe_from].
    rewrite (get_some _ _ _ He). cbn [rbind]. rewrite entry_matches_answers.
    destruct (Hpg i pg ltac:(left)) as (e' & He' & Hseen). rewrite He in He'. injection He' as <-.
    rewrite Hseen. cbn [snd]. rewrite Ha. split; [done|]. cbn. by rewrite Hseen.
  - case_decide as Hh; [|by eapply IH].
    cbn [fmap list_fmap length fst dseg] in Hn, Hs. destruct Hs as (-> & e & He & _ & Hs).
    destruct n as [|n]; [lia|]. cbn [probe_from]. rewrite (get_some _ _ _ He). cbn [rbind].
    destruct (Hpg i pg ltac:(left)) as (e' & He' & Hseen). rewrite He in He'. injection He' as <-.
    rewrite entry_matches_answers, Hseen. cbn [snd].
    destruct (answers (CP0 st EntryHi) va pg); [done|]. eapply IH; [done|exact Hs|lia].
Qed.

Lemma chain_short st cs h : chains_ok st cs -> (h <= last_chain)%nat -> (length (cs h) <= 48)%nat.
Proof.
  intros Hc Hh. destruct (co_chain _ _ Hc h Hh) as (p & _ & q & Hs).
  rewrite <- (length_seq 48 0). apply submseteq_length, NoDup_submseteq; [apply Hc|].
  intros i Hi. destruct (dseg_lookup _ _ _ _ _ _ i Hs Hi) as [e He].
  apply lookup_lt_Some in He. rewrite (co_len _ _ Hc) in He. apply elem_of_seq. lia.
Qed.

Lemma probe_tlb_answers st a cs va :
  represents st a cs ->
  exists r, probe_tlb st va = Val r
    /\ seen_entry <$> r = (fun x => (Z.of_nat x.1, x.2)) <$> a_probe a (CP0 st EntryHi) va.
Proof.
  intros [Hc Hcs Hpg]. pose proof (tlb_hash_range va) as Hr.
  set (h := Z.to_nat (tlb_hash va)). assert (Hh : (h < last_chain)%nat) by (unfold h, last_chain; lia).
  destruct (co_chain _ _ Hc h ltac:(lia)) as (p & Hp & q & Hs).
  pose proof (chain_short _ _ h Hc ltac:(lia)) as Hlen. rewrite (Hcs h Hh) in Hs, Hlen.
  unfold probe_tlb, map_get. fold h. rewrite Hp. cbn [rbind].
  eapply probe_chain; [done|exact Hs|]. fold h. by rewrite (co_len _ _ Hc).
Qed.

(** ** Writes *)

Lemma chain_of_without a i h :
  chain_of (filter (fun x => x.1 <> i) a) h = without i (chain_of a h).
Proof.
  unfold chain_of, without. induction a as [|[j pg] a IH]; [done|].
  rewrite filter_cons, (filter_cons _ (j, pg)). cbn [fst snd].
  destruct (decide (j <> i)) as [Hj|Hj].
  - rewrite filter_cons. cbn [fst snd]. case_decide; [|done].
    cbn [fmap list_fmap fst]. rewrite filter_cons_True by done. by f_equal.
  - case_decide; [|done]. cbn [fmap list_fmap fst]. by rewrite filter_cons_False.
Qed.

Lemma chain_of_write a i pg h cs :
  cs h = chain_of a h -> chain_of (a_write a i pg) h = moved i (Z.to_nat (tlb_hash pg.1)) cs h.
Proof.
  intros Hcs. unfold a_write, moved. rewrite Hcs, <- chain_of_without.
  unfold chain_of at 1. rewrite filter_cons. cbn [fst snd].
  repeat case_decide; by subst.
Qed.

Lemma entry_hi_registers st :
  entry_hi st = (page_of_registers (CP0 st EntryHi) (CP0 st EntryLo0) (CP0 st EntryLo1)).1.
Proof.
  unfold entry_hi, page_of_registers, EntryLo_G. cbn [fst].
  rewrite mbit_zero by lia. destruct (Z.testbit (CP0 st EntryLo0) 8); [|done].
  cbn [negb]. by rewrite Z.setbit_spec'.
Qed.

Lemma entry_hi_hash st : tlb_hash (entry_hi st) = tlb_hash (CP0 st EntryHi).
Proof.
  unfold entry_hi. destruct (_ =? 0); [done|]. rewrite !tlb_hash_div. f_equal.
  change 8192 with (2 ^ 13). rewrite <- !Z.shiftr_div_pow2, Z.shiftr_lor by lia.
  apply Z.lor_0_r.
Qed.

Lemma write_represents st a cs n :
  represents st a cs -> u32 n < 48 ->
  let i := Z.to_nat (u32 n) in
  let pg := page_of_registers (CP0 st EntryHi) (CP0 st EntryLo0) (CP0 st EntryLo1) in
  exists st' cs', set_tlb_entry st n = Val st' /\ cp0 st' = cp0 st
    /\ represents st' (a_write a i pg) cs'.
Proof.
  intros [Hc Hcs Hpg] Hn i pg. pose proof (u32_range n) as Hu. unfold is_u32 in Hu.
  destruct (set_tlb_entry_ok st cs n Hc Hn) as (st' & Hx & Hc' & [Hst Hnew Hold]).
  fold i in Hc', Hnew, Hold. eexists st', _. split; [exact Hx|]. split; [by rewrite Hst|].
  assert (Hpg1 : pg = (entry_hi st, (CP0 st EntryLo0, CP0 st EntryLo1)))
    by (rewrite entry_hi_registers; done).
  split; [exact Hc'| |].
  - intros h Hh. rewrite (chain_of_write a i pg h cs) by (by apply Hcs).
    rewrite Hpg1. cbn [fst]. by rewrite entry_hi_hash.
  - intros j pg' Hin. apply elem_of_cons in Hin as [[= -> ->]|[Hj Hin]%list_elem_of_filter].
    + destruct Hnew as (e & He & Hpe). exists e. split; [done|]. rewrite Hpg1.
      unfold page_of in Hpe. injection Hpe as E1 E2 E3 _. unfold seen_entry.
      rewrite E1, E2, E3. f_equal. unfold i. lia.
    + destruct (Hpg j pg' Hin) as (e & He & Hs). destruct (Hold j e Hj He) as (e' & He' & Hp').
      exists e'. split; [done|]. rewrite <- Hs.
      apply page_fields in Hp' as (E1 & E2 & E3 & _). unfold seen_entry. by rewrite E1, E2, E3.
Qed.

(** Nothing but the array and the heads matters. *)
Lemma represents_kept st st' a cs :
  tlb st' = tlb st /\ tlb_map st' = tlb_map st -> represents st a cs -> represents st' a cs.
Proof.
  intros [E1 E2] [[C1 C2 C3 C4 C5 C6] Hcs Hpg].
  split; [split|..]; rewrite ?E1, ?E2; done.
Qed.

(** ** Translation *)

(** The buffer is kept, and the number of the registers of co-processor 0. *)
Definition buffer_kept (st st' : MIPS_State) : Prop :=
  tlb st' = tlb st /\ tlb_map st' = tlb_map st /\ length (cp0 st') = length (cp0 st).

Lemma set_CP0_kept st i v : buffer_kept st (set_CP0 st i v).
Proof. split_and!; try done. apply length_updZ. Qed.

#[export] Instance buffer_kept_preorder : PreOrder buffer_kept.
Proof. split; [by intros st|]. intros s1 s2 s3 (? & ? & ?) (? & ? & ?). split_and!; congruence. Qed.

Lemma process_exception_kept st c v : buffer_kept st (process_exception st c v).
Proof.
  unfold process_exception. cbn zeta. destruct (exception_point _ _).
  split_and!; try done. cbn [cp0 enter_kernel_mode set_mode set_CP0 set_cp0 set_pc set_pipeline set_now].
  by rewrite !length_updZ.
Qed.

Lemma fault_kept st va c v :
  buffer_kept st (process_exception (tlb_fault_registers st va) c v).
Proof.
  transitivity (tlb_fault_registers st va); [|apply process_exception_kept].
  split_and!; try done. unfold tlb_fault_registers. cbn [cp0 set_CP0 set_cp0].
  by rewrite !length_updZ.
Qed.

Definition address_kind (c : Z * option Z * MIPS_State) : Z * option Z := (c.1.1, c.1.2).

Lemma mland_bits x n : 0 <= n -> Z.land x (Z.ones n) = x mod 2 ^ n.
Proof. apply Z.land_ones. Qed.

Lemma frame_address lo va :
  Z.lor (Z.land (u32 (Z.shiftl lo 6)) 0xFFFFF000) (Z.land va 0xFFF)
  = (lo / 64) mod 2 ^ 20 * 4096 + va mod 4096.
Proof.
  change 0xFFF with (Z.ones 12). rewrite Z.land_ones by lia. change (2 ^ 12) with 4096.
  pose proof (Z.mod_pos_bound va 4096 ltac:(lia)).
  replace (Z.land (u32 (Z.shiftl lo 6)) 0xFFFFF000) with ((lo / 64) mod 2 ^ 20 * 2 ^ 12).
  { rewrite lor_low by lia. done. }
  apply Z.bits_inj'. intros i Hi. rewrite Z.land_spec, Z.mul_pow2_bits by lia.
  change 0xFFFFF000 with (Z.shiftl (Z.ones 20) 12). rewrite Z.shiftl_spec by lia.
  unfold u32. change 4294967296 with (2 ^ 32). change 64 with (2 ^ 6).
  destruct (Z.lt_ge_cases i 12).
  { rewrite (Z.testbit_neg_r (Z.ones 20)), andb_false_r, Z.testbit_neg_r by lia. done. }
  destruct (Z.lt_ge_cases i 32).
  - rewrite !Z.mod_pow2_bits_low, Z.div_pow2_bits, Z.shiftl_spec, Z.ones_spec_low, andb_true_r by lia.
    f_equal. lia.
  - rewrite !Z.mod_pow2_bits_high by lia. done.
Qed.

Lemma translate_mapped_answers st a cs va type :
  represents st a cs ->
  exists c, translate_mapped st va type = Val c
    /\ address_kind c = a_mapped a (CP0 st EntryHi) va type
    /\ buffer_kept st c.2.
Proof.
  intros Hr. destruct (probe_tlb_answers st a cs va Hr) as (r & Hp & Hs).
  unfold translate_mapped, a_mapped. rewrite Hp. cbn [rbind].
  destruct r as [e|], (a_probe a _ va) as [[i pg]|]; try discriminate Hs.
  2: { eexists. split; [reflexivity|]. split; [done|]. apply fault_kept. }
  cbn in Hs. injection Hs as Ei Epg. rewrite <- Epg. cbn [snd].
  rewrite (mland_bits _ 1), Z.shiftr_div_pow2, Zmod_odd by lia.
  change (2 ^ 12) with 4096.
  replace (if (if Z.odd (va / 4096) then 1 else 0) =? 0 then (e_lo_reg e).1 else (e_lo_reg e).2)
    with (if Z.odd (va / 4096) then (e_lo_reg e).2 else (e_lo_reg e).1)
    by (by destruct (Z.odd _)).
  set (lo := if Z.odd (va / 4096) then (e_lo_reg e).2 else (e_lo_reg e).1).
  rewrite (mland_bit_zero lo 1 ltac:(lia) : (Z.land lo 0x2 =? 0) = _).
  rewrite (mland_bit_zero lo 2 ltac:(lia) : (Z.land lo 0x4 =? 0) = _).
  destruct (Z.testbit lo 1); cbn [negb].
  2: { eexists. split; [reflexivity|]. split; [done|]. apply fault_kept. }
  destruct (type =? data_store), (Z.testbit lo 2); cbn [andb negb];
    (eexists; split; [reflexivity|]; split;
     [unfold address_kind; cbn [fst snd]; rewrite ?frame_address; done
     |first [done|apply fault_kept]]).
Qed.

Lemma region_div va :
  is_u32 va -> vaddr_region va = va / 2 ^ 29.
Proof.
  intros Hva. unfold is_u32 in Hva. unfold vaddr_region. rewrite mbits_div by lia.
  apply Z.mod_small. split; [apply Z.div_pos; lia|].
  apply Z.div_lt_upper_bound; lia.
Qed.

Lemma strip_top va n :
  is_u32 va -> 0 <= n <= 32 -> Z.land va (u32 (Z.lnot (2 ^ 32 - 2 ^ n))) = va mod 2 ^ n.
Proof.
  intros Hva Hn. replace (u32 (Z.lnot (2 ^ 32 - 2 ^ n))) with (Z.ones n); [apply Z.land_ones; lia|].
  pose proof (pow2_pos n ltac:(lia)). assert (2 ^ n <= 2 ^ 32) by (apply Z.pow_le_mono_r; lia).
  rewrite Z.ones_equiv. unfold Z.lnot, u32.
  apply Z.mod_unique with (-1); lia.
Qed.

Lemma translate_answers st a cs va type :
  represents st a cs -> is_u32 va ->
  exists c, translate_vaddr st va type = Val c
    /\ address_kind c = a_translate a (user_mode st) (CP0 st EntryHi) va type
    /\ buffer_kept st c.2.
Proof.
  intros Hr Hva. unfold translate_vaddr, a_translate. cbn zeta.
  change (vaddr_region kuseg) with 0. change (vaddr_region kseg0) with 4.
  change (vaddr_region kseg1) with 5. rewrite region_div by done.
  pose proof (Z.div_mod va (2 ^ 29) ltac:(lia)). pose proof (Z.mod_pos_bound va (2 ^ 29) ltac:(lia)).
  unfold is_u32 in Hva. change (2 ^ 29) with 536870912 in *. set (r := va / 536870912) in *.
  assert (Hbad : exists c, Val (TLB_FAIL, None, process_address_error st type va) = Val c
            /\ address_kind c = (TLB_FAIL, None) /\ buffer_kept st c.2).
  { eexists. split; [reflexivity|]. split; [done|].
    etransitivity; [|apply process_exception_kept]. apply set_CP0_kept. }
  destruct (Z.leb_spec 0 r); [|lia].
  destruct (Z.ltb_spec r 4); cbn [andb].
  { rewrite (proj2 (Z.ltb_lt va 0x80000000)) by lia. by eapply translate_mapped_answers. }
  rewrite (proj2 (Z.ltb_ge va 0x80000000)) by lia.
  destruct (Z.eqb_spec r 4) as [E|].
  { destruct (user_mode st); [done|]. rewrite (proj2 (Z.ltb_lt va 0xA0000000)) by lia.
    eexists. split; [reflexivity|]. split; [|done]. unfold address_kind. cbn [fst snd].
    rewrite (strip_top va 31 ltac:(done) ltac:(lia) : Z.land va (u32 (Z.lnot 0x80000000)) = _).
    do 2 f_equal. symmetry. apply Z.mod_unique with 1; lia. }
  destruct (Z.eqb_spec r 5) as [E|].
  { destruct (user_mode st); [done|]. rewrite (proj2 (Z.ltb_ge va 0xA0000000)) by lia.
    rewrite (proj2 (Z.ltb_lt va 0xC0000000)) by lia.
    eexists. split; [reflexivity|]. split; [|done]. unfold address_kind. cbn [fst snd].
    rewrite (strip_top va 29 ltac:(done) ltac:(lia) : Z.land va (u32 (Z.lnot 0xE0000000)) = _).
    do 2 f_equal. symmetry. apply Z.mod_unique with 5; lia. }
  destruct (user_mode st); [done|].
  rewrite (proj2 (Z.ltb_ge va 0xA0000000)), (proj2 (Z.ltb_ge va 0xC0000000)) by lia.
  by eapply translate_mapped_answers.
Qed.

(** ** The refinement *)

Lemma step_refines st a cs o :
  represents st a cs -> length (cp0 st) = 32%nat -> op_ok o ->
  exists st' cs', op_step st o = Val ((a_step a o).1, st') /\ length (cp0 st') = 32%nat
    /\ represents st' (a_step a o).2 cs'.
Proof.
  intros Hr Hlen Ho. destruct o as [n hi lo0 lo1|asid va|user asid va type]; cbn [op_step a_step].
  - set (st1 := set_CP0 (set_CP0 (set_CP0 st EntryHi hi) EntryLo0 lo0) EntryLo1 lo1).
    assert (Hr1 : represents st1 a cs) by (by apply (represents_kept st)).
    assert (Hl1 : length (cp0 st1) = 32%nat) by (cbn; by rewrite !length_updZ).
    destruct (Z.ltb_spec (u32 n) 48) as [Hn|Hn].
    + destruct (write_represents st1 a cs n Hr1 Hn) as (st' & cs' & -> & Hcp & Hr').
      exists st', cs'. cbn [rbind fst snd]. split; [done|]. split; [by rewrite Hcp|].
      unfold st1, CP0 in Hr'. cbn [cp0 set_CP0 set_cp0] in Hr'.
      rewrite !nthZ_updZ in Hr' by (rewrite ?length_updZ, ?Hlen; unfold EntryHi, EntryLo0, EntryLo1; lia).
      exact Hr'.
    + unfold set_tlb_entry. rewrite (proj2 (Z.leb_le tlb_size (u32 n))) by (unfold tlb_size; lia).
      by exists st1, cs.
  - assert (Hr1 : represents (set_CP0 st EntryHi asid) a cs) by (by apply (represents_kept st)).
    destruct (probe_tlb_answers _ a cs va Hr1) as (r & -> & Hs). cbn [rbind fst snd].
    eexists _, cs. split; [|split; [|exact Hr1]]; [|cbn; by rewrite length_updZ].
    rewrite Hs. unfold CP0. cbn [cp0 set_CP0 set_cp0].
    by rewrite nthZ_updZ by (rewrite ?Hlen; unfold EntryHi; lia).
  - set (st1 := set_mode _ _).
    assert (Hr1 : represents st1 a cs) by (by apply (represents_kept st)).
    destruct (translate_answers st1 a cs va type Hr1 Ho) as ([[code pa] st'] & -> & Hk & E1 & E2 & E3).
    cbn [rbind fst snd] in *. unfold address_kind in Hk. cbn [fst snd] in Hk.
    assert (Hu : user_mode st1 = user) by (by destruct user).
    assert (Ha : CP0 st1 EntryHi = asid).
    { unfold CP0, st1. cbn [cp0 set_mode set_CP0 set_cp0].
      by rewrite nthZ_updZ by (rewrite ?Hlen; unfold EntryHi; lia). }
    rewrite Hu, Ha in Hk. rewrite <- Hk. exists st', cs. split; [done|].
    split; [rewrite E3; cbn; by rewrite length_updZ|]. by apply (represents_kept st1).
Qed.

Lemma run_refines st a cs os :
  represents st a cs -> length (cp0 st) = 32%nat -> Forall op_ok os ->
  op_run st os = Val (a_run a os).
Proof.
  intros Hr Hlen Hos. revert st a cs Hr Hlen.
  induction Hos as [|o os Ho Hos IH]; intros st a cs Hr Hlen; cbn [op_run a_run]; [done|].
  destruct (step_refines st a cs o Hr Hlen Ho) as (st' & cs' & -> & Hlen' & Hr'). cbn [rbind].
  by rewrite (IH _ _ _ Hr' Hlen').
Qed.

Lemma reset_represents st :
  length (tlb st) = 48%nat ->
  exists st', reset_tlb st = Val st' /\ cp0 st' = cp0 st /\ represents st' [] (unused_upto 48).
Proof.
  intros Hlen. destruct (reset_tlb_ok st Hlen) as (st' & Hx & Hc & Hst & _).
  exists st'. split; [done|]. split; [by rewrite Hst|]. split; [done| |].
  - intros h Hh. unfold unused_upto. rewrite decide_False by lia. done.
  - intros i pg Hin. by apply elem_of_nil in Hin.
Qed.

(** C12: after a reset, whatever sequence of writes to entries ([TLBWI]: any index, page and
    flags), of probes ([TLBP]) and of translations in user or kernel mode is made, the hash
    chains of tlb.c show what an associative memory shows: a probe and a translation find
    the page written last that answers the address and the address space, or none; the
    segments, the valid and the dirty flag decide the outcome and the physical address.  No
    step runs off the array or fails to end. *)
Theorem tlb_refines_associative st os :
  length (tlb st) = 48%nat -> length (cp0 st) = 32%nat -> Forall op_ok os ->
  (let! st := reset_tlb st in op_run st os) = Val (a_run [] os).
Proof.
  intros Hlen Hcp Hos. destruct (reset_represents st Hlen) as (st' & -> & Hcp' & Hr).
  cbn [rbind]. eapply run_refines; [exact Hr|by rewrite Hcp'|done].
Qed.
