(* ===== verification/MipsAluProps.v ===== *)
(** * The arithmetic of the MIPS decoder against the manual

    Instructions are assembled from their fields; [decode] of the word leaves what the
    table of the architecture gives on signed and unsigned integers. *)

From Stdlib Require Import ZArith Lia Bool.
From stdpp Require Import base numbers option list.
From S2P Require Import Prelude Words Bus MipsState MipsLemmas MipsTlb MipsDecode.

(** ** Assembling *)

Definition r_word (op rs rt rd sh f : Z) : Z :=
  ((((op * 32 + rs) * 32 + rt) * 32 + rd) * 32 + sh) * 64 + f.
Definition i_word (op rs rt imm : Z) : Z := ((op * 32 + rs) * 32 + rt) * 65536 + imm.

Ltac fields :=
  rewrite !mbits_div by lia;
  repeat match goal with |- context [2 ^ ?e] =>
    let v := eval compute in (2 ^ e) in change (2 ^ e) with v end;
  repeat split; Z.div_mod_to_equations; lia.

Definition five_bits (x : Z) : Prop := 0 <= x < 32.

Lemma r_word_fields op s t d sh f :
  0 <= op < 64 -> five_bits s -> five_bits t -> five_bits d -> five_bits sh -> 0 <= f < 64 ->
  let w := r_word op s t d sh f in
  opcode w = op /\ rs w = s /\ rt w = t /\ rd w = d /\ shamt w = sh /\ function w = f.
Proof.
  unfold five_bits. intros Ho Hs Ht Hd Hsh Hf. unfold opcode, rs, rt, rd, shamt, function, r_word.
  fields.
Qed.

Lemma i_word_fields op s t imm :
  0 <= op < 64 -> five_bits s -> five_bits t -> 0 <= imm < 65536 ->
  let w := i_word op s t imm in
  opcode w = op /\ rs w = s /\ rt w = t /\ immediate w = imm /\ base w = s /\ offset w = imm.
Proof.
  unfold five_bits. intros Ho Hs Ht Hi. unfold opcode, rs, rt, immediate, base, offset, i_word.
  fields.
Qed.

(** ** Shifts *)

(** An arithmetic shift right, on the bits. *)
Definition asr (x s : Z) : Z := u32 (s32 x / 2 ^ s).

Lemma asr_bits x s :
  is_u32 x -> 0 <= s < 32 ->
  asr x s = if x <? 2 ^ 31 then x / 2 ^ s else x / 2 ^ s + 2 ^ 32 - 2 ^ (32 - s).
Proof.
  unfold is_u32. intros Hx Hs. pose proof (pow2_pos s ltac:(lia)) as Hp.
  assert (E : 2 ^ 32 = 2 ^ (32 - s) * 2 ^ s) by (rewrite <- Z.pow_add_r by lia; f_equal; lia).
  assert (Hq : 0 <= x / 2 ^ s < 2 ^ (32 - s)).
  { split; [apply Z.div_pos; lia|]. apply Z.div_lt_upper_bound; lia. }
  assert (2 ^ (32 - s) <= 2 ^ 32) by (apply Z.pow_le_mono_r; lia).
  unfold asr, s32. rewrite (u32_id x) by done.
  change (2 ^ 31) with 2147483648. change (2 ^ 32) with 4294967296 in *.
  destruct (Z.ltb_spec x 2147483648).
  - apply u32_id. unfold is_u32. lia.
  - replace (x - 4294967296) with (x + - 2 ^ (32 - s) * 2 ^ s) by lia.
    rewrite Z.div_add by lia. assert (Hlow : 2 ^ (31 - s) <= x / 2 ^ s).
    { apply Z.div_le_lower_bound; [lia|]. rewrite <- Z.pow_add_r by lia.
      replace (s + (31 - s)) with 31 by lia. lia. }
    pose proof (pow2_pos (31 - s) ltac:(lia)).
    unfold u32. symmetry. apply Z.mod_unique with (-1); lia.
Qed.

Lemma shifted_range x s : is_u32 x -> 0 <= s < 32 -> 0 <= x / 2 ^ s < 2 ^ (32 - s).
Proof.
  unfold is_u32. intros Hx Hs. pose proof (pow2_pos s ltac:(lia)).
  assert (E : 2 ^ 32 = 2 ^ (32 - s) * 2 ^ s) by (rewrite <- Z.pow_add_r by lia; f_equal; lia).
  split; [apply Z.div_pos; lia|]. apply Z.div_lt_upper_bound; lia.
Qed.

Lemma sra_word_asr x s : is_u32 x -> 1 <= s < 32 -> sra_word x s = asr x s.
Proof.
  intros Hx Hs. pose proof (shifted_range x s Hx ltac:(lia)) as Hq.
  unfold sra_word. rewrite Z.shiftr_div_pow2, sign_extend_spec, asr_bits by (done || lia).
  replace (32 - s - 1) with (31 - s) by lia.
  pose proof (pow2_pos s ltac:(lia)) as Hp.
  assert (E : 2 ^ 31 = 2 ^ (31 - s) * 2 ^ s) by (rewrite <- Z.pow_add_r by lia; f_equal; lia).
  pose proof (Z.div_mod x (2 ^ s) ltac:(lia)) as Hd.
  pose proof (Z.mod_pos_bound x (2 ^ s) ltac:(lia)) as Hm.
  destruct (Z.ltb_spec x (2 ^ 31)), (Z.ltb_spec (x / 2 ^ s) (2 ^ (31 - s))); try done; nia.
Qed.

Lemma srav_word_asr x s : is_u32 x -> 0 <= s < 32 -> srav_word x s = asr x s.
Proof.
  intros Hx Hs. pose proof (shifted_range x s Hx ltac:(lia)) as Hq. rewrite asr_bits by (done || lia).
  unfold srav_word. rewrite !Z.shiftr_div_pow2, Z.land_comm by lia.
  rewrite (mland_bit_zero x 31 ltac:(lia) : (Z.land x 0x80000000 =? 0) = _).
  pose proof (pow2_pos s ltac:(lia)) as Hp. pose proof (pow2_pos (32 - s) ltac:(lia)) as Hp'.
  assert (E : 2 ^ 32 = 2 ^ (32 - s) * 2 ^ s) by (rewrite <- Z.pow_add_r by lia; f_equal; lia).
  assert (Htop : Z.testbit x 31 = negb (x <? 2 ^ 31)).
  { unfold is_u32 in Hx. rewrite Z.testbit_eqb by lia. change (2 ^ 31) with 2147483648.
    destruct (Z.ltb_spec x 2147483648); cbn [negb]; [apply Z.eqb_neq|apply Z.eqb_eq];
      Z.div_mod_to_equations; lia. }
  rewrite Htop, negb_involutive. destruct (Z.ltb_spec x (2 ^ 31)); [apply Z.lor_0_l|].
  replace (0xFFFFFFFF / 2 ^ s) with (2 ^ (32 - s) - 1)
    by (apply Z.div_unique with (2 ^ s - 1); lia).
  replace (u32 (Z.lnot (2 ^ (32 - s) - 1))) with ((2 ^ s - 1) * 2 ^ (32 - s)).
  2: { unfold u32, Z.lnot. apply Z.mod_unique with (-1); nia. }
  change 0xFFFFFFFF with (Z.ones 32). rewrite Z.land_comm, Z.land_ones, Z.mod_small by nia.
  rewrite lor_low by lia. lia.
Qed.

(** ** The instructions with three registers *)

Inductive r_op : Type :=
| Sll | Srl | Sra | Sllv | Srlv | Srav | Movz | Movn | Add | Addu | Sub | Subu | And | Or | Xor
| Nor | Slt | Sltu | Mul | Clz.

Definition r_opcode (o : r_op) : Z :=
  match o with Mul | Clz => SPECIAL2 | _ => SPECIAL end.

Definition r_function (o : r_op) : Z :=
  match o with
  | Sll => SLL | Srl => SRL | Sra => SRA | Sllv => SLLV | Srlv => SRLV | Srav => SRAV
  | Movz => MOVZ | Movn => MOVN | Add => ADD | Addu => ADDU | Sub => SUB | Subu => SUBU
  | And => AND | Or => OR | Xor => XOR | Nor => NOR | Slt => SLT | Sltu => SLTU
  | Mul => FMUL | Clz => CVT_S
  end.

(** Whether a sum is not a signed word. *)
Definition overflows (z : Z) : bool := (z <? - 2 ^ 31) || (2 ^ 31 <=? z).

Definition leading_zeros (x : Z) : Z := if x =? 0 then 32 else 31 - Z.log2 x.

(** The table of the manual: the value, if one is written. *)
Definition r_value (o : r_op) (x y sh : Z) : option Z :=
  match o with
  | Sll => Some (u32 (y * 2 ^ sh))
  | Srl => Some (y / 2 ^ sh)
  | Sra => Some (asr y sh)
  | Sllv => Some (u32 (y * 2 ^ (x mod 32)))
  | Srlv => Some (y / 2 ^ (x mod 32))
  | Srav => Some (asr y (x mod 32))
  | Movz => if y =? 0 then Some x else None
  | Movn => if y =? 0 then None else Some x
  | Add | Addu => Some (u32 (s32 x + s32 y))
  | Sub | Subu => Some (u32 (s32 x - s32 y))
  | And => Some (Z.land x y)
  | Or => Some (Z.lor x y)
  | Xor => Some (Z.lxor x y)
  | Nor => Some (2 ^ 32 - 1 - Z.lor x y)
  | Slt => Some (if s32 x <? s32 y then 1 else 0)
  | Sltu => Some (if x <? y then 1 else 0)
  | Mul => Some (u32 (s32 x * s32 y))
  | Clz => Some (leading_zeros x)
  end.

Definition r_overflows (o : r_op) (x y : Z) : bool :=
  match o with
  | Add => overflows (s32 x + s32 y)
  | Sub => overflows (s32 x - s32 y)
  | _ => false
  end.

(** Two shifts the code treats apart: register 0 as the destination of SLL, which is NOP,
    and SRA by 0. *)
Definition r_covered (o : r_op) (d sh : Z) : Prop :=
  match o with Sll => d <> 0 | Sra => 1 <= sh | _ => True end.

(** ** The instructions with an immediate operand *)

Inductive i_op : Type := Addi | Addiu | Slti | Sltiu | Andi | Ori | Xori | Lui.

Definition i_opcode (o : i_op) : Z :=
  match o with
  | Addi => ADDI | Addiu => ADDIU | Slti => SLTI | Sltiu => SLTIU | Andi => ANDI | Ori => ORI
  | Xori => XORI | Lui => LUI
  end.

(** An immediate operand as a signed number. *)
Definition signed_imm (imm : Z) : Z := if imm <? 2 ^ 15 then imm else imm - 2 ^ 16.

Definition i_value (o : i_op) (x imm : Z) : Z :=
  match o with
  | Addi | Addiu => u32 (s32 x + signed_imm imm)
  | Slti => if s32 x <? signed_imm imm then 1 else 0
  | Sltiu => if x <? u32 (signed_imm imm) then 1 else 0
  | Andi => Z.land x imm
  | Ori => Z.lor x imm
  | Xori => Z.lxor x imm
  | Lui => imm * 2 ^ 16
  end.

Definition i_overflows (o : i_op) (x imm : Z) : bool :=
  match o with Addi => overflows (s32 x + signed_imm imm) | _ => false end.

(** ** Values *)

Lemma u32_s32_add x y : u32 (s32 x + s32 y) = u32 (x + y).
Proof. rewrite <- u32_add_l, <- u32_add_r, !u32_s32. by rewrite u32_add_l, u32_add_r. Qed.

Lemma u32_shifted x k : u32 (x + k * 4294967296) = u32 x.
Proof. apply Z.mod_add. lia. Qed.

Lemma u32_s32_sub x y : u32 (s32 x - s32 y) = u32 (x - y).
Proof.
  destruct (s32_congr x) as [k ->], (s32_congr y) as [k' ->].
  rewrite <- (u32_shifted (x - y) (k - k')). f_equal. lia.
Qed.

Lemma u32_s32_mul x y : u32 (s32 x * s32 y) = u32 (x * y).
Proof.
  destruct (s32_congr x) as [k ->], (s32_congr y) as [k' ->].
  rewrite <- (u32_shifted (x * y) (k * y + k' * x + k * k' * 4294967296)). f_equal. lia.
Qed.

Lemma shift_amount_mod x : shift_amount x = x mod 32.
Proof. unfold shift_amount. rewrite mbits_div by lia. by rewrite Z.div_1_r. Qed.

Lemma u32_lnot a : is_u32 a -> u32 (Z.lnot a) = 2 ^ 32 - 1 - a.
Proof.
  unfold is_u32. intros Ha. unfold u32, Z.lnot. symmetry.
  apply Z.mod_unique with (-1); lia.
Qed.

Lemma mtop_bit x : is_u32 x -> Z.testbit x 31 = (2 ^ 31 <=? x).
Proof.
  unfold is_u32. intros Hx. rewrite Z.testbit_eqb by lia. change (2 ^ 31) with 2147483648.
  destruct (Z.leb_spec 2147483648 x); [apply Z.eqb_eq|apply Z.eqb_neq]; Z.div_mod_to_equations; lia.
Qed.

Lemma add_overflows_exact x y :
  is_u32 x -> is_u32 y -> add_overflows x y (u32 (x + y)) = overflows (s32 x + s32 y).
Proof.
  intros Hx Hy. unfold add_overflows, overflows. rewrite !mbit_zero, !Z.lxor_spec by lia.
  pose proof (u32_range (x + y)) as Hz. rewrite !mtop_bit by done.
  unfold s32. rewrite (u32_id x), (u32_id y) by done. unfold is_u32, u32 in *.
  change (2 ^ 31) with 2147483648 in *.
  assert (Hs : (x + y) mod 4294967296 = if x + y <? 4294967296 then x + y else x + y - 4294967296).
  { case_tests; symmetry; [apply Z.mod_unique with 0|apply Z.mod_unique with 1]; lia. }
  rewrite Hs. case_tests; bool_tests.
Qed.

Lemma sub_overflows_exact x y :
  is_u32 x -> is_u32 y ->
  sub_overflows (s32 x) (s32 y) (s32 (u32 (x - y))) = overflows (s32 x - s32 y).
Proof.
  intros Hx Hy. unfold sub_overflows, overflows, s32. rewrite !u32_idem, (u32_id x), (u32_id y) by done.
  unfold is_u32, u32 in *. change (2 ^ 31) with 2147483648 in *.
  assert (Hs : (x - y) mod 4294967296 = if x <? y then x - y + 4294967296 else x - y).
  { case_tests; symmetry; [apply Z.mod_unique with (-1)|apply Z.mod_unique with 0]; lia. }
  rewrite Hs. case_tests; bool_tests.
Qed.

Lemma highest_set_log2 n x :
  0 <= x < 2 ^ Z.of_nat n -> highest_set n x = if x =? 0 then -1 else Z.log2 x.
Proof.
  induction n as [|n IH]; intros Hx; cbn [highest_set].
  - change (2 ^ Z.of_nat 0) with 1 in Hx. by replace x with 0 by lia.
  - rewrite Nat2Z.inj_succ in Hx. pose proof (Z.pow_succ_r 2 (Z.of_nat n) ltac:(lia)) as E.
    rewrite Z.testbit_eqb by lia. pose proof (pow2_pos (Z.of_nat n) ltac:(lia)).
    destruct (Z.lt_ge_cases x (2 ^ Z.of_nat n)) as [Hlt|Hge].
    + rewrite Z.div_small by lia. change (0 mod 2 =? 1) with false. apply IH. lia.
    + replace (x / 2 ^ Z.of_nat n) with 1 by (apply Z.div_unique with (x - 2 ^ Z.of_nat n); lia).
      change (1 mod 2 =? 1) with true. rewrite (proj2 (Z.eqb_neq x 0)) by lia.
      symmetry. apply Z.log2_unique; lia.
Qed.

Lemma clz_value x : is_u32 x -> u32 (31 - highest_set 32 x) = leading_zeros x.
Proof.
  intros Hx. rewrite highest_set_log2 by exact Hx. unfold leading_zeros.
  destruct (Z.eqb_spec x 0); [done|]. unfold is_u32 in Hx.
  apply u32_id. unfold is_u32. pose proof (Z.log2_nonneg x).
  assert (Z.log2 x < 32) by (apply Z.log2_lt_pow2; lia). lia.
Qed.

Lemma immediate_value imm :
  0 <= imm < 65536 ->
  is_u32 (sign_extend_UInt32 imm 16) /\ s32 (sign_extend_UInt32 imm 16) = signed_imm imm.
Proof. intros Hi. apply (sign_extend_s32 imm 16); lia. Qed.

Lemma land_low x imm : 0 <= imm < 65536 -> Z.land (u16 x) imm = Z.land x imm.
Proof.
  intros Hi. apply Z.bits_inj'. intros i H0. rewrite !Z.land_spec. unfold u16.
  change 65536 with (2 ^ 16) in *. destruct (Z.lt_ge_cases i 16).
  - by rewrite Z.mod_pow2_bits_low by lia.
  - rewrite (testbit_small imm 16 i) by lia. by rewrite !andb_false_r.
Qed.

(** ** The decoder *)

(** The tests on constants. *)
Ltac eval_codes :=
  repeat match goal with
  | |- context [?a =? ?b] => first [change (a =? b) with true | change (a =? b) with false]
  | |- context [?a <=? ?b] => first [change (a <=? b) with true | change (a <=? b) with false]
  end; cbn [andb orb].

Section decode_alu.
Context {B : Type} `{Bus B} (env : mips_env B) (host_lp64 : bool).
Implicit Types (m : mips B).

(** What an instruction that gives a value leaves: an overflow is an exception, after which
    the value is written. *)
Definition wrote_value m (over : bool) (d : Z) (v : option Z) : mips B :=
  match v with Some v => put_gpr (check_overflow m over) d v | None => m end.

Lemma decode_r o s t d sh m :
  five_bits s -> five_bits t -> five_bits d -> five_bits sh ->
  let w := r_word (r_opcode o) s t d sh (r_function o) in
  decode env host_lp64 m w
  = match o with Mul | Clz => decode_special2 m w | _ => decode_special host_lp64 m w end.
Proof.
  intros Hs Ht Hd Hsh w. destruct (r_word_fields (r_opcode o) s t d sh (r_function o)) as (E & _);
    try done; [by destruct o..|].
  fold w in E. unfold decode. rewrite E. destruct o; reflexivity.
Qed.

Lemma decode_r_value o s t d sh m :
  five_bits s -> five_bits t -> five_bits d -> five_bits sh -> r_covered o d sh ->
  let x := GPR (mst m) s in
  let y := GPR (mst m) t in
  is_u32 x -> is_u32 y ->
  decode env host_lp64 m (r_word (r_opcode o) s t d sh (r_function o))
  = Val (nothing_special, wrote_value m (r_overflows o x y) d (r_value o x y sh)).
Proof.
  intros Hs Ht Hd Hsh Hc x y Hx Hy. rewrite decode_r by done.
  destruct (r_word_fields (r_opcode o) s t d sh (r_function o)) as (_ & Es & Et & Ed & Esh & Ef);
    try done; [by destruct o..|].
  set (w := r_word _ _ _ _ _ _) in *. unfold five_bits in *.
  unfold decode_special, decode_special_arith, decode_special2, put_rd, nothing. rewrite Es, Et, Ed, Esh, Ef.
  fold x y. clearbody x y w.
  destruct o; cbn [r_function r_value r_overflows wrote_value r_covered] in *; eval_codes.
  - by rewrite (proj2 (Z.eqb_neq d 0)), Z.shiftl_mul_pow2 by lia.
  - by rewrite Z.shiftr_div_pow2 by lia.
  - by rewrite sra_word_asr by (done || lia).
  - by rewrite shift_amount_mod, Z.shiftl_mul_pow2 by (apply Z.mod_pos_bound; lia).
  - by rewrite shift_amount_mod, Z.shiftr_div_pow2 by (apply Z.mod_pos_bound; lia).
  - by rewrite shift_amount_mod, srav_word_asr by (done || apply Z.mod_pos_bound; lia).
  - by destruct (y =? 0).
  - by destruct (y =? 0).
  - by rewrite add_overflows_exact, u32_s32_add.
  - by rewrite u32_s32_add.
  - by rewrite sub_overflows_exact, u32_s32_sub.
  - by rewrite u32_s32_sub.
  - done.
  - done.
  - done.
  - by rewrite u32_lnot by (by apply lor_u32).
  - done.
  - done.
  - by rewrite u32_s32_mul.
  - by rewrite clz_value.
Qed.

Lemma decode_i_value o s t imm m :
  five_bits s -> five_bits t -> 0 <= imm < 65536 -> is_u32 (GPR (mst m) s) ->
  let x := GPR (mst m) s in
  decode env host_lp64 m (i_word (i_opcode o) s t imm)
  = Val (nothing_special, wrote_value m (i_overflows o x imm) t (Some (i_value o x imm))).
Proof.
  intros Hs Ht Hi Hx x.
  destruct (i_word_fields (i_opcode o) s t imm) as (Eo & Es & Et & Ei & _);
    try done; [by destruct o..|].
  set (w := i_word _ _ _ _) in *. destruct (immediate_value imm Hi) as [Hy Es'].
  unfold decode. rewrite Eo. unfold is_branch.
  assert (Ed : forall A (a b : A), (if (ADDI <=? i_opcode o) && (i_opcode o <=? LUI) then a else b) = a)
    by (by destruct o).
  rewrite Ed. clear Ed.
  unfold decode_immediate, put_rt, nothing. rewrite Eo, Es, Et, Ei.
  fold x in Hx |- *. set (y := sign_extend_UInt32 imm 16) in *. clearbody x y w.
  destruct o; cbn [i_opcode i_value i_overflows wrote_value] in *; eval_codes;
    rewrite <- ?Es'.
  - by rewrite add_overflows_exact, u32_s32_add.
  - by rewrite u32_s32_add, <- (u32_add_r x (s32 y)), u32_s32, u32_add_r.
  - done.
  - by rewrite u32_s32, (u32_id y).
  - rewrite mbits_div, Z.div_1_r, Z.mod_small by lia. by rewrite land_low.
  - done.
  - done.
  - rewrite Z.shiftl_mul_pow2, u32_id by (unfold is_u32; lia). done.
Qed.

(** ** The table *)

Inductive alu_instr : Type :=
| R_instr (o : r_op) (s t d sh : Z)
| I_instr (o : i_op) (s t imm : Z).

Definition alu_word (i : alu_instr) : Z :=
  match i with
  | R_instr o s t d sh => r_word (r_opcode o) s t d sh (r_function o)
  | I_instr o s t imm => i_word (i_opcode o) s t imm
  end.

Definition alu_ok (i : alu_instr) : Prop :=
  match i with
  | R_instr o s t d sh =>
      five_bits s /\ five_bits t /\ five_bits d /\ five_bits sh /\ r_covered o d sh
  | I_instr o s t imm => five_bits s /\ five_bits t /\ 0 <= imm < 65536
  end.

(** The destination, the value and whether it overflows. *)
Definition alu_outcome (st : MIPS_State) (i : alu_instr) : Z * option Z * bool :=
  match i with
  | R_instr o s t d sh =>
      (d, r_value o (GPR st s) (GPR st t) sh, r_overflows o (GPR st s) (GPR st t))
  | I_instr o s t imm => (t, Some (i_value o (GPR st s) imm), i_overflows o (GPR st s) imm)
  end.

Lemma decode_alu_word i m :
  alu_ok i -> Forall is_u32 (gpr (mst m)) ->
  decode env host_lp64 m (alu_word i)
  = let '(d, v, over) := alu_outcome (mst m) i in
    Val (nothing_special, wrote_value m over d v).
Proof.
  intros Hi Hg.
  assert (Hu : forall n, is_u32 (GPR (mst m) n)) by (intros n; by apply (nthZ_Forall is_u32)).
  destruct i as [o s t d sh|o s t imm]; cbn [alu_word alu_outcome alu_ok] in *; destruct_and!.
  - by rewrite decode_r_value.
  - by rewrite decode_i_value.
Qed.
End decode_alu.
