(* ===== verification/MipsMemProps.v ===== *)
(** * Words at any address on the MIPS processor

    [LWR] and [LWL], [SWR] and [SWL], each of which merges part of a word of memory with a
    register, make together the load and the store of a word that is not aligned. *)

From Stdlib Require Import ZArith Lia Bool.
From stdpp Require Import base numbers option list.
From S2P Require Import Prelude Words Bus LoadStoreProps MipsState MipsLemmas MipsTlb.
From S2P Require Import MipsDecode MipsTlbSpec MipsAluProps.

(** ** Addresses *)

(** Kernel code on a little-endian processor, which is the only order [mode] has. *)
Record kernel_le (st : MIPS_State) : Prop := {
  kl_user : user_mode st = false;
  kl_order : big_endian_cpu st = false
}.

Definition in_kseg0 (va : Z) : Prop := 0x80000000 <= va < 0xA0000000.
Definition phys (va : Z) : Z := va - 0x80000000.

Lemma translate_kseg0 st va type :
  user_mode st = false -> in_kseg0 va ->
  translate_vaddr st va type = Val (TLB_SUCC, Some (phys va), st).
Proof.
  unfold in_kseg0. intros Hu Hva. assert (Hv : is_u32 va) by (unfold is_u32; lia).
  unfold translate_vaddr. cbn zeta.
  change (vaddr_region kuseg) with 0. change (vaddr_region kseg0) with 4.
  rewrite region_div, Hu by done.
  replace (va / 2 ^ 29) with 4 by (apply Z.div_unique with (va - 4 * 2 ^ 29); lia).
  change ((0 <=? 4) && (4 <? 4)) with false. change (4 =? 4) with true.
  rewrite (strip_top va 31 ltac:(done) ltac:(lia) : Z.land va (u32 (Z.lnot 0x80000000)) = _).
  do 4 f_equal. unfold phys. symmetry.
  apply Z.mod_unique with 1; lia.
Qed.

Lemma unmapped_phys pa : 0 <= pa < 0x20000000 -> unmapped pa = pa.
Proof.
  intros Hpa. unfold unmapped. rewrite (proj2 (Z.leb_gt 0x80000000 pa)) by lia. cbn [andb].
  by rewrite (proj2 (Z.leb_gt 0xA0000000 pa)) by lia.
Qed.

Lemma round_down_4 pa : is_u32 pa -> round_down pa 4 = pa - pa mod 4.
Proof.
  intros Hpa. unfold round_down. rewrite (Z.mod_eq pa 4) by lia.
  replace (pa - (pa - 4 * (pa / 4))) with (pa / 2 ^ 2 * 2 ^ 2) by (change (2 ^ 2) with 4; lia).
  change (u32 (Z.opp 4)) with (Z.shiftl (Z.ones 30) 2).
  apply Z.bits_inj'. intros i Hi. rewrite Z.land_spec, Z.mul_pow2_bits, Z.shiftl_spec by lia.
  destruct (Z.lt_ge_cases i 2).
  { rewrite (Z.testbit_neg_r (Z.ones 30)), andb_false_r, Z.testbit_neg_r by lia. done. }
  rewrite Z.div_pow2_bits by lia. replace (i - 2 + 2) with i by lia.
  destruct (Z.lt_ge_cases i 32).
  - by rewrite Z.ones_spec_low, andb_true_r by lia.
  - by rewrite testbit_above_32 by done.
Qed.

(** ** Unaligned words *)

Section unaligned.
Context {B : Type} `{RamBus B} (env : mips_env B) (host_lp64 : bool).
Implicit Types (m : mips B).

(** The aligned word around an address and the next one. *)
Definition around (b : B) (a : Z) : Z :=
  word_at b (a - a mod 4) + word_at b (a - a mod 4 + 4) * 2 ^ 32.
Definition around_ram (b : B) (a : Z) : Prop :=
  ram_at b (a - a mod 4) /\ ram_at b (a - a mod 4 + 4).

(** The word that starts at a byte address, least significant byte first. *)
Definition word_from (b : B) (a : Z) : Z := (around b a / 2 ^ (8 * (a mod 4))) mod 2 ^ 32.

Lemma testbit_around b a i :
  around_ram b a -> 0 <= i ->
  Z.testbit (around b a) i
  = if i <? 32 then Z.testbit (word_at b (a - a mod 4)) i
    else Z.testbit (word_at b (a - a mod 4 + 4)) (i - 32).
Proof.
  intros [Hl Hh] Hi. destruct (ram_read b _ Hl) as [Hu0 _]. unfold around.
  rewrite Z.add_comm, <- lor_low, Z.lor_spec, Z.mul_pow2_bits by (done || lia).
  destruct (Z.ltb_spec i 32).
  - by rewrite Z.testbit_neg_r by lia.
  - rewrite (testbit_above_32 (word_at b (a - a mod 4))) by (done || lia). by rewrite orb_false_r.
Qed.

(** The two halves, as they are merged. *)
Lemma load_word_kseg0 m instr va merge :
  kernel_le (mst m) -> in_kseg0 va -> ram_at (mbus m) (phys va - phys va mod 4) ->
  exists b', ram_same (mbus m) b'
    /\ load_word_at m instr va merge
       = let m' := {| mst := mst m; mbus := b' |} in
         Val (nothing_special,
              put_gpr m' (rt instr)
                (merge m' (GPR (mst m) (rt instr)) (word_at (mbus m) (phys va - phys va mod 4)))).
Proof.
  intros [Hu _] Hva Hram. unfold load_word_at, translated_at.
  rewrite translate_kseg0 by done. cbn [rbind set_mst mst mbus]. eval_codes.
  destruct (ram_read _ _ Hram) as (_ & b' & Hrd & Hsame). exists b'. split; [exact Hsame|].
  unfold load, mips_mem_read, in_kseg0, phys in *. cbn [mbus set_mst].
  rewrite round_down_4 by (unfold is_u32; lia).
  pose proof (Z.mod_pos_bound (va - 0x80000000) 4 ltac:(lia)).
  rewrite unmapped_phys by (Z.div_mod_to_equations; lia).
  change (4 * 8) with 32. rewrite Hrd. done.
Qed.

Lemma store_word_kseg0 m instr va merge :
  kernel_le (mst m) -> in_kseg0 va -> ram_at (mbus m) (phys va - phys va mod 4) ->
  let a := phys va - phys va mod 4 in
  let v := merge m (GPR (mst m) (rt instr)) (word_at (mbus m) a) in
  (forall b', merge {| mst := mst m; mbus := b' |} = merge m) -> is_u32 v ->
  exists b',
    store_word_at m instr va merge = Val (nothing_special, {| mst := mst m; mbus := b' |})
    /\ forall a', ram_at (mbus m) a' ->
         ram_at b' a' /\ word_at b' a' = if a' =? a then v else word_at (mbus m) a'.
Proof.
  intros [Hu _] Hva Hram a v Hm Hv. unfold store_word_at, translated_at.
  rewrite translate_kseg0 by done. cbn [rbind set_mst mst mbus]. eval_codes.
  destruct (ram_read _ _ Hram) as (_ & b1 & Hrd & Hsame).
  destruct (Hsame a Hram) as [Hram1 _].
  destruct (ram_write b1 a v Hram1 Hv) as (b2 & Hwr & H2). exists b2.
  unfold load, store, mips_mem_read, mips_mem_write, in_kseg0, phys in *. cbn [mbus set_mst].
  rewrite round_down_4 by (unfold is_u32; lia).
  pose proof (Z.mod_pos_bound (va - 0x80000000) 4 ltac:(lia)).
  rewrite unmapped_phys by (Z.div_mod_to_equations; lia).
  change (4 * 8) with 32. rewrite Hrd. cbn [rbind mbus mst default from_option id].
  rewrite Hm. cbn [mst set_mst]. fold a. fold v. rewrite Hwr. split; [done|].
  intros a' Ha'. destruct (Hsame a' Ha') as [Ha1 E1]. destruct (H2 a' Ha1) as [Ha2 E2].
  split; [done|]. by rewrite E2, E1.
Qed.

(** The merges, bit by bit. *)
Lemma low_xor k : 0 <= k < 4 -> Z.lxor k (bitsmask 1 0) = 3 - k.
Proof. intros Hk. enum_Z k 0 4; reflexivity. Qed.

Lemma syscmd_right_le m va : kernel_le (mst m) -> syscmd_right m va = va mod 4.
Proof. intros [_ Ho]. unfold syscmd_right. rewrite Ho, mbits_div, Z.div_1_r by lia. done. Qed.

Lemma syscmd_left_le m va : kernel_le (mst m) -> syscmd_left m va = 3 - va mod 4.
Proof.
  intros [_ Ho]. unfold syscmd_left. rewrite Ho, mbits_div, Z.div_1_r by lia.
  cbn [negb]. apply low_xor, Z.mod_pos_bound. lia.
Qed.

Lemma testbit_copy_u32 x y n l i :
  0 <= l <= n -> n <= 31 -> 0 <= i ->
  Z.testbit (u32 (copy_bits x y n l)) i
  = (i <? 32) && if (l <=? i) && (i <=? n) then Z.testbit y (i - l) else Z.testbit x i.
Proof. intros Hl Hn Hi. rewrite testbit_u32, mtestbit_copy_bits, andb_comm by lia. done. Qed.

Lemma merge_left_bit m va reg mem i :
  kernel_le (mst m) -> 0 <= i ->
  let s := 8 * (3 - va mod 4) in
  Z.testbit (merge_left va m reg mem) i
  = (i <? 32) && if s <=? i then Z.testbit mem (i - s) else Z.testbit reg i.
Proof.
  intros Hk Hi s. pose proof (Z.mod_pos_bound va 4 ltac:(lia)). unfold merge_left.
  rewrite syscmd_left_le by done. replace ((3 - va mod 4) * 8) with s by lia.
  rewrite testbit_copy_u32 by lia.
  destruct (Z.ltb_spec i 32); [cbn [andb]|done]. rewrite (proj2 (Z.leb_le i 31)) by lia.
  by rewrite andb_true_r.
Qed.

Lemma merge_right_bit m va reg mem i :
  kernel_le (mst m) -> 0 <= i ->
  let s := 8 * (va mod 4) in
  Z.testbit (merge_right va m reg mem) i
  = (i <? 32) && if i <=? 31 - s then Z.testbit mem (i + s) else Z.testbit reg i.
Proof.
  intros Hk Hi s. pose proof (Z.mod_pos_bound va 4 ltac:(lia)). unfold merge_right.
  rewrite syscmd_right_le by done. replace (va mod 4 * 8) with s by lia. cbn zeta.
  rewrite testbit_copy_u32 by lia. rewrite (proj2 (Z.leb_le 0 i)) by lia. cbn [andb].
  destruct (Z.leb_spec i (31 - s)); [|done].
  rewrite Z.sub_0_r, mtestbit_bits by lia. by rewrite (proj2 (Z.leb_le i (31 - s))) by lia.
Qed.

Lemma store_left_bit m va reg mem i :
  kernel_le (mst m) -> 0 <= i ->
  let s := 8 * (3 - va mod 4) in
  Z.testbit (store_left va m reg mem) i
  = (i <? 32) && if i <=? 31 - s then Z.testbit reg (i + s) else Z.testbit mem i.
Proof.
  intros Hk Hi s. pose proof (Z.mod_pos_bound va 4 ltac:(lia)). unfold store_left.
  rewrite syscmd_left_le by done. replace ((3 - va mod 4) * 8) with s by lia. cbn zeta.
  rewrite testbit_copy_u32 by lia. rewrite (proj2 (Z.leb_le 0 i)) by lia. cbn [andb].
  destruct (Z.leb_spec i (31 - s)); [|done].
  rewrite Z.sub_0_r, mtestbit_bits by lia. by rewrite (proj2 (Z.leb_le i (31 - s))) by lia.
Qed.

Lemma store_right_bit m va reg mem i :
  kernel_le (mst m) -> 0 <= i ->
  let s := 8 * (va mod 4) in
  Z.testbit (store_right va m reg mem) i
  = (i <? 32) && if s <=? i then Z.testbit reg (i - s) else Z.testbit mem i.
Proof.
  intros Hk Hi s. pose proof (Z.mod_pos_bound va 4 ltac:(lia)). unfold store_right.
  rewrite syscmd_right_le by done. replace (va mod 4 * 8) with s by lia.
  rewrite testbit_copy_u32 by lia.
  destruct (Z.ltb_spec i 32); [cbn [andb]|done]. rewrite (proj2 (Z.leb_le i 31)) by lia.
  by rewrite andb_true_r.
Qed.

(** What the two loads make of the register. *)
Lemma testbit_word_from b a i :
  0 <= i -> Z.testbit (word_from b a) i = (i <? 32) && Z.testbit (around b a) (i + 8 * (a mod 4)).
Proof.
  intros Hi. pose proof (Z.mod_pos_bound a 4 ltac:(lia)). unfold word_from.
  destruct (Z.ltb_spec i 32).
  - by rewrite Z.mod_pow2_bits_low, Z.div_pow2_bits by lia.
  - by rewrite Z.mod_pow2_bits_high by lia.
Qed.

(** The aligned words the two instructions use. *)
Lemma aligned_of a : (a + 3) - (a + 3) mod 4 = if a mod 4 =? 0 then a - a mod 4 else a - a mod 4 + 4.
Proof. case_match eqn:E; [apply Z.eqb_eq in E|apply Z.eqb_neq in E]; Z.div_mod_to_equations; lia. Qed.

Lemma plus_3_mod a : (a + 3) mod 4 = if a mod 4 =? 0 then 3 else a mod 4 - 1.
Proof. case_match eqn:E; [apply Z.eqb_eq in E|apply Z.eqb_neq in E]; Z.div_mod_to_equations; lia. Qed.

Lemma phys_mod va : phys va mod 4 = va mod 4.
Proof. unfold phys. Z.div_mod_to_equations. lia. Qed.

Lemma loads_merge b m m' va reg :
  kernel_le (mst m) -> kernel_le (mst m') -> around_ram b (phys va) ->
  merge_left (va + 3) m'
    (merge_right va m reg (word_at b (phys va - phys va mod 4)))
    (word_at b (phys (va + 3) - phys (va + 3) mod 4))
  = word_from b (phys va).
Proof.
  intros Hk Hk' Har. apply Z.bits_inj'. intros i Hi.
  rewrite testbit_word_from, merge_left_bit, merge_right_bit by done.
  destruct (Z.ltb_spec i 32); [cbn [andb]|done]. pose proof (Z.mod_pos_bound va 4 ltac:(lia)).
  rewrite testbit_around by (rewrite ?phys_mod; (done || lia)).
  replace (phys (va + 3)) with (phys va + 3) by (unfold phys; lia).
  rewrite aligned_of, plus_3_mod, !phys_mod.
  destruct (Z.eqb_spec (va mod 4) 0) as [E|E].
  - rewrite E, (proj2 (Z.leb_le _ i)), (proj2 (Z.ltb_lt _ 32)) by lia. f_equal; lia.
  - destruct (Z.leb_spec (8 * (3 - (va mod 4 - 1))) i).
    + rewrite (proj2 (Z.ltb_ge _ 32)) by lia. f_equal; lia.
    + by rewrite (proj2 (Z.leb_le i _)), (proj2 (Z.ltb_lt _ 32)) by lia.
Qed.

(** [v] in place of 32 bits of a pair of words. *)
Definition spliced (old new v s : Z) : Prop :=
  forall i, 0 <= i ->
    Z.testbit new i = if (s <=? i) && (i <? s + 32) then Z.testbit v (i - s) else Z.testbit old i.

(** The memory after both stores. *)
Record stored_from (b b' : B) (a v : Z) : Prop := {
  sf_ram a' : ram_at b a' -> ram_at b' a';
  sf_word : spliced (around b a) (around b' a) v (8 * (a mod 4));
  sf_other a' : ram_at b a' -> a' <> a - a mod 4 -> a' <> a - a mod 4 + 4 ->
    word_at b' a' = word_at b a'
}.

Lemma stores_merge b b1 b2 m m' va v :
  kernel_le (mst m) -> kernel_le (mst m') -> around_ram b (phys va) -> is_u32 v ->
  let a0 := phys va - phys va mod 4 in
  let a1 := phys (va + 3) - phys (va + 3) mod 4 in
  (forall a', ram_at b a' -> ram_at b1 a'
     /\ word_at b1 a' = if a' =? a0 then store_right va m v (word_at b a0) else word_at b a') ->
  (forall a', ram_at b1 a' -> ram_at b2 a'
     /\ word_at b2 a' = if a' =? a1 then store_left (va + 3) m' v (word_at b1 a1)
                        else word_at b1 a') ->
  stored_from b b2 (phys va) v.
Proof.
  intros Hk Hk' Har Hv a0 a1 H1 H2. pose proof (Z.mod_pos_bound va 4 ltac:(lia)).
  pose proof Har as [Hr0 Hr1]. fold a0 in Hr0, Hr1.
  assert (Ea1 : a1 = if va mod 4 =? 0 then a0 else a0 + 4).
  { unfold a1. replace (phys (va + 3)) with (phys va + 3) by (unfold phys; lia).
    unfold a0. by rewrite aligned_of, !phys_mod. }
  assert (Hram : forall a', ram_at b a' -> ram_at b2 a') by (intros a' Ha'; by apply H2, H1).
  assert (Hat : forall a', ram_at b a' -> word_at b2 a'
    = if a' =? a1
      then store_left (va + 3) m' v
             (if a1 =? a0 then store_right va m v (word_at b a0) else word_at b a1)
      else if a' =? a0 then store_right va m v (word_at b a0) else word_at b a').
  { intros a' Ha'. destruct (H1 a' Ha') as [Ha1 E1]. destruct (H2 a' Ha1) as [_ E2].
    rewrite E2, E1. assert (Hra1 : ram_at b a1) by (rewrite Ea1; by destruct (_ =? 0)).
    by rewrite (proj2 (H1 a1 Hra1)). }
  split; [exact Hram| |].
  2: { intros a' Ha' Hn0 Hn1. fold a0 in Hn0, Hn1. rewrite Hat by done.
       rewrite (proj2 (Z.eqb_neq a' a1)) by (rewrite Ea1; destruct (va mod 4 =? 0); done).
       by rewrite (proj2 (Z.eqb_neq a' a0)). }
  intros i Hi. rewrite !testbit_around by (done || split; fold a0; by apply Hram).
  fold a0. rewrite !Hat by done. rewrite Z.eqb_refl, phys_mod.
  assert (E10 : (a0 + 4 =? a0) = false) by (apply Z.eqb_neq; lia).
  rewrite E10, Ea1. destruct (Z.eqb_spec (va mod 4) 0) as [E|E].
  - rewrite !Z.eqb_refl, E10, E. change (8 * 0) with 0.
    destruct (Z.ltb_spec i 32).
    + rewrite store_left_bit, plus_3_mod, E by done. cbn [Z.eqb].
      rewrite (proj2 (Z.ltb_lt i 32)), (proj2 (Z.leb_le i _)), (proj2 (Z.leb_le 0 i)) by lia.
      rewrite (proj2 (Z.ltb_lt i (0 + 32))) by lia. cbn [andb]. f_equal; lia.
    + rewrite (proj2 (Z.ltb_ge i (0 + 32))) by lia. by rewrite andb_false_r.
  - rewrite Z.eqb_refl, (Z.eqb_sym a0), E10.
    destruct (Z.ltb_spec i 32).
    + rewrite store_right_bit by done. rewrite (proj2 (Z.ltb_lt i 32)) by lia. cbn [andb].
      by rewrite (proj2 (Z.ltb_lt i (_ + 32))), andb_true_r by lia.
    + rewrite store_left_bit, plus_3_mod by (done || lia).
      rewrite (proj2 (Z.eqb_neq _ 0) E), (proj2 (Z.leb_le (8 * _) i)) by lia. cbn [andb].
      destruct (Z.ltb_spec (i - 32) 32); cbn [andb].
      * destruct (Z.leb_spec (i - 32) (31 - 8 * (3 - (va mod 4 - 1)))).
        -- rewrite (proj2 (Z.ltb_lt i _)) by lia. f_equal; lia.
        -- by rewrite (proj2 (Z.ltb_ge i _)) by lia.
      * rewrite (proj2 (Z.ltb_ge i _)) by lia. symmetry. apply testbit_above_32; [|lia].
        by apply (ram_read b (a0 + 4)).
Qed.

(** ** The pairs of instructions *)

(** The address of an operand with a displacement, and what the theorems ask of it. *)
Definition operand_va (st : MIPS_State) (s imm : Z) : Z := u32 (imm + GPR st s).

Record operand_ok m (s t imm : Z) : Prop := {
  op_s : five_bits s;
  op_t : five_bits t;
  op_imm : 0 <= imm < 0x7FFD;
  op_kernel : kernel_le (mst m);
  op_regs : length (gpr (mst m)) = 32%nat /\ Forall is_u32 (gpr (mst m));
  op_kseg0 : in_kseg0 (operand_va (mst m) s imm) /\ in_kseg0 (operand_va (mst m) s imm + 3);
  op_ram : around_ram (mbus m) (phys (operand_va (mst m) s imm))
}.

Definition unaligned_load m (s t imm : Z) : result (mips B) :=
  let! (_, m) := decode env host_lp64 m (i_word LWR s t imm) in
  let! (_, m) := decode env host_lp64 m (i_word LWL s t (imm + 3)) in Val m.
Definition unaligned_store m (s t imm : Z) : result (mips B) :=
  let! (_, m) := decode env host_lp64 m (i_word SWR s t imm) in
  let! (_, m) := decode env host_lp64 m (i_word SWL s t (imm + 3)) in Val m.

Lemma decode_unaligned op s t imm m :
  five_bits s -> five_bits t -> 0 <= imm < 0x8000 ->
  op = LWL \/ op = LWR \/ op = SWL \/ op = SWR ->
  let w := i_word op s t imm in
  let va := operand_va (mst m) s imm in
  rt w = t
  /\ decode env host_lp64 m w
     = if op =? LWL then load_word_at m w va (merge_left va)
       else if op =? LWR then load_word_at m w va (merge_right va)
       else if op =? SWL then store_word_at m w va (store_left va)
       else store_word_at m w va (store_right va).
Proof.
  intros Hs Ht Hi Hop w va.
  assert (Hop' : 0 <= op < 64) by (by destruct Hop as [->|[->|[->| ->]]]).
  destruct (i_word_fields op s t imm) as (Eo & _ & Et & _ & Eb & Ef); try done; [lia|].
  fold w in Eo, Et, Eb, Ef. split; [exact Et|].
  assert (Eva : data_va m w = va).
  { unfold data_va. rewrite Ef, Eb, sign_extend_spec by lia.
    by rewrite (proj2 (Z.ltb_lt imm (2 ^ (16 - 1)))) by lia. }
  unfold decode, decode_memory, decode_store. rewrite Eo, Eva.
  destruct Hop as [->|[->|[->| ->]]]; reflexivity.
Qed.

Lemma operand_va_3 st s imm :
  in_kseg0 (operand_va st s imm) -> operand_va st s (imm + 3) = operand_va st s imm + 3.
Proof.
  unfold operand_va, in_kseg0. intros Hk.
  replace (imm + 3 + GPR st s) with (imm + GPR st s + 3) by lia.
  rewrite <- u32_add_l. apply u32_id. unfold is_u32. lia.
Qed.

Lemma put_gpr_kernel m i v : kernel_le (mst m) -> kernel_le (mst (put_gpr m i v)).
Proof. intros [Hu Ho]. by split. Qed.

Lemma GPR_put m i j v :
  length (gpr (mst m)) = 32%nat -> five_bits i -> 0 <= j ->
  GPR (mst (put_gpr m i v)) j = if j =? i then v else GPR (mst m) j.
Proof. unfold five_bits. intros Hl Hi Hj. apply nthZ_updZ; lia. Qed.

Lemma put_gpr_twice m (b : B) i v v' :
  put_gpr {| mst := mst (put_gpr m i v); mbus := b |} i v' = put_gpr {| mst := mst m; mbus := b |} i v'.
Proof.
  unfold put_gpr, on_mst, set_GPR, updZ. cbn [mst mbus set_gpr gpr].
  case_match; [|done]. by rewrite list_insert_insert_eq.
Qed.

(** [LWR] and [LWL] on the addresses of its first and last byte load the word that
    starts at any byte address of an unmapped segment, least significant byte first,
    whatever the register held; the memory is unchanged. *)
Theorem unaligned_load_exact m s t imm :
  operand_ok m s t imm -> s <> t ->
  exists b',
    unaligned_load m s t imm
    = Val (put_gpr {| mst := mst m; mbus := b' |} t
             (word_from (mbus m) (phys (operand_va (mst m) s imm))))
    /\ ram_same (mbus m) b'.
Proof.
  intros [Hs Ht Hi Hk [Hlen Hreg] [Hk0 Hk3] Har] Hst. set (va := operand_va (mst m) s imm) in *.
  destruct (decode_unaligned LWR s t imm m) as [Et1 Hd1]; [done..|lia|tauto|].
  unfold unaligned_load. rewrite Hd1. eval_codes. fold va.
  destruct (load_word_kseg0 m (i_word LWR s t imm) va (merge_right va) Hk Hk0 (proj1 Har))
    as (b1 & Hsame1 & ->). cbn [rbind]. rewrite Et1.
  set (v1 := merge_right va _ _ _). set (m1 := put_gpr _ t v1).
  destruct (decode_unaligned LWL s t (imm + 3) m1) as [Et2 Hd2]; [done..|lia|tauto|].
  assert (Eva : operand_va (mst m1) s (imm + 3) = va + 3).
  { unfold va. rewrite <- operand_va_3 by exact Hk0. unfold operand_va, m1. f_equal.
    rewrite GPR_put by (done || (unfold five_bits in *; lia)). by rewrite (proj2 (Z.eqb_neq s t)). }
  rewrite Hd2, Eva. eval_codes.
  assert (Hram : ram_at (mbus m) (phys (va + 3) - phys (va + 3) mod 4)).
  { replace (phys (va + 3)) with (phys va + 3) by (unfold phys; lia). rewrite aligned_of.
    destruct (phys va mod 4 =? 0); apply Har. }
  destruct (Hsame1 _ Hram) as [Hram1 Ew].
  destruct (load_word_kseg0 m1 (i_word LWL s t (imm + 3)) (va + 3) (merge_left (va + 3))
              (put_gpr_kernel _ _ _ Hk) Hk3 Hram1) as (b2 & Hsame2 & ->).
  cbn [rbind]. rewrite Et2. exists b2. split; [|by transitivity b1].
  change (mbus m1) with b1. rewrite Ew.
  assert (Eg : GPR (mst m1) t = v1) by (unfold m1; rewrite GPR_put, Z.eqb_refl by (done || apply Ht); done).
  rewrite Eg.
  unfold v1 at 1. rewrite loads_merge by (done || by apply put_gpr_kernel).
  unfold m1. by rewrite put_gpr_twice.
Qed.
(** [SWR] and [SWL]: the 32 bits from the address on are replaced and nothing else is. *)
Lemma unaligned_store_ok m s t imm :
  operand_ok m s t imm ->
  exists b',
    unaligned_store m s t imm = Val {| mst := mst m; mbus := b' |}
    /\ stored_from (mbus m) b' (phys (operand_va (mst m) s imm)) (GPR (mst m) t).
Proof.
  intros [Hs Ht Hi Hk [Hlen Hreg] [Hk0 Hk3] Har]. set (va := operand_va (mst m) s imm) in *.
  destruct (decode_unaligned SWR s t imm m) as [Et1 Hd1]; [done..|lia|tauto|].
  unfold unaligned_store. rewrite Hd1. eval_codes. fold va.
  destruct (store_word_kseg0 m (i_word SWR s t imm) va (store_right va) Hk Hk0 (proj1 Har))
    as (b1 & -> & H1); [done|apply u32_range|]. cbn [rbind]. rewrite Et1 in H1.
  set (m1 := {| mst := mst m; mbus := b1 |}).
  destruct (decode_unaligned SWL s t (imm + 3) m1) as [Et2 Hd2]; [done..|lia|tauto|].
  rewrite Hd2. eval_codes.
  assert (Eva : operand_va (mst m1) s (imm + 3) = va + 3) by (by apply operand_va_3).
  rewrite Eva.
  assert (Hram : ram_at (mbus m) (phys (va + 3) - phys (va + 3) mod 4)).
  { replace (phys (va + 3)) with (phys va + 3) by (unfold phys; lia). rewrite aligned_of.
    destruct (phys va mod 4 =? 0); apply Har. }
  destruct (store_word_kseg0 m1 (i_word SWL s t (imm + 3)) (va + 3) (store_left (va + 3))
              Hk Hk3 (proj1 (H1 _ Hram))) as (b2 & -> & H2); [done|apply u32_range|].
  cbn [rbind]. exists b2. split; [done|]. rewrite Et2 in H2.
  eapply (stores_merge _ b1 b2 m m1); [done..|by apply (nthZ_Forall is_u32)|exact H1|exact H2].
Qed.

Lemma word_from_stored b b' a v :
  is_u32 v -> stored_from b b' a v -> word_from b' a = v.
Proof.
  intros Hv [_ Hw _]. pose proof (Z.mod_pos_bound a 4 ltac:(lia)).
  apply Z.bits_inj'. intros i Hi. rewrite testbit_word_from by done.
  destruct (Z.ltb_spec i 32); [cbn [andb]|symmetry; by apply testbit_above_32].
  rewrite Hw by lia.
  rewrite (proj2 (Z.leb_le _ _)), (proj2 (Z.ltb_lt _ _)) by lia. cbn [andb]. f_equal. lia.
Qed.

End unaligned.
