(* ===== verification/MipsTyped.v ===== *)
(** * Every run of the MIPS machine keeps its state typed

    The registers stay words, the clocks words of 64 bits, the state of the pipeline one
    of its four, and the hash chains of the translation buffer disjoint doubly linked
    lists over its 48 entries, for every instruction word and every run of the step. *)

From Stdlib Require Import ZArith Lia Bool.
From stdpp Require Import base numbers option list.
From S2P Require Import Prelude Words Bus MipsState MipsLemmas MipsTlb MipsDecode MipsRun.
From S2P Require Import MipsTlbSpec.

(** ** Typed states *)

Definition is_u64 (z : Z) : Prop := 0 <= z < 2 ^ 64.
Definition words_32 (l : list Z) : Prop := length l = 32%nat /\ Forall is_u32 l.
Definition page_typed (p : Z * (Z * Z)) : Prop := is_u32 p.1 /\ is_u32 p.2.1 /\ is_u32 p.2.2.

Record words_typed (st : MIPS_State) : Prop := {
  wt_gpr : words_32 (gpr st);
  wt_cp0 : words_32 (cp0 st);
  wt_pc : is_u32 (pc st);
  wt_hi : is_u32 (hi st);
  wt_lo : is_u32 (lo st);
  wt_fir : is_u32 (fir st);
  wt_config1 : is_u32 (cp0_config1 st);
  wt_branch : is_u32 (branch_target st);
  wt_now : is_u64 (now st);
  wt_random : is_u64 (random_seed st);
  wt_count : is_u64 (count_seed st);
  wt_events : 0 <= events st < 65536;
  wt_pipeline : 0 <= pipeline st <= 3;
  wt_pages : Forall page_typed (page_words (tlb st))
}.

Definition chains_typed (st : MIPS_State) : Prop := exists cs, chains_ok st cs.
Definition mips_typed (st : MIPS_State) : Prop := words_typed st /\ chains_typed st.

(** ** Words *)

Lemma u64_range z : is_u64 (u64 z).
Proof. apply Z.mod_pos_bound. done. Qed.

Lemma u64_nonneg z : 0 <= u64 z.
Proof. apply u64_range. Qed.

Lemma u16_range z : 0 <= u16 z < 65536.
Proof. apply Z.mod_pos_bound. done. Qed.

Lemma mlxor_u32 a b : is_u32 a -> is_u32 b -> is_u32 (Z.lxor a b).
Proof.
  intros Ha Hb. apply is_u32_testbit.
  - apply Z.lxor_nonneg. split; intros _; [apply Hb|apply Ha].
  - intros i Hi. by rewrite Z.lxor_spec, !testbit_above_32.
Qed.

Lemma land_r_u32 a b : 0 <= a -> is_u32 b -> is_u32 (Z.land a b).
Proof. intros Ha Hb. rewrite Z.land_comm. by apply land_u32. Qed.

Lemma sign_extend_u32 x n : is_u32 (sign_extend_UInt32 x n).
Proof. unfold sign_extend_UInt32. repeat case_match; try apply u32_range. done. Qed.

Lemma mbits_u32 x n m : 0 <= m <= n -> n - m < 32 -> n <= 63 -> is_u32 (bits x n m).
Proof.
  intros Hm Hd Hn. pose proof (mbits_range x n m Hm Hn) as Hr. unfold is_u32.
  pose proof (Z.pow_le_mono_r 2 (n - m + 1) 32 ltac:(lia) ltac:(lia)). lia.
Qed.

Lemma c_bool_u32 b : is_u32 (c_bool b).
Proof. by destruct b. Qed.

Lemma is_u32_nonneg x : is_u32 x -> 0 <= x.
Proof. unfold is_u32. lia. Qed.

#[export] Hint Resolve u32_range u64_range u64_nonneg u16_range mlxor_u32 sign_extend_u32 c_bool_u32
  land_u32 lor_u32 shiftr_u32 is_u32_nonneg : mips.

#[export] Hint Extern 8 (is_u32 ?z) =>
  (lazymatch z with Z0 => done | Z.pos _ => done | _ => is_const z; done end) : mips.
#[export] Hint Extern 8 (0 <= ?z) =>
  (lazymatch z with Z0 => done | Z.pos _ => done | _ => is_const z; done end) : mips.

Lemma GPR_u32 st i : words_typed st -> is_u32 (GPR st i).
Proof. intros Hw. apply (nthZ_Forall is_u32); [done|apply Hw]. Qed.

Lemma CP0_u32 st i : words_typed st -> is_u32 (CP0 st i).
Proof. intros Hw. apply (nthZ_Forall is_u32); [done|apply Hw]. Qed.

Lemma updZ_words l i v : words_32 l -> is_u32 v -> words_32 (updZ l i v).
Proof. intros [Hl Hf] Hv. split; [by rewrite length_updZ|by apply updZ_Forall]. Qed.

#[export] Hint Resolve GPR_u32 CP0_u32 updZ_words wt_pc wt_hi wt_lo wt_fir wt_config1 wt_branch
  wt_now wt_random wt_count : mips.

(** ** Setters *)

Lemma chains_same st st' :
  tlb st' = tlb st -> tlb_map st' = tlb_map st -> chains_typed st -> chains_typed st'.
Proof.
  intros E1 E2 [cs [C1 C2 C3 C4 C5 C6]]. exists cs. split; rewrite ?E1, ?E2; done.
Qed.

Ltac setter st := intros [[] ?]; intros; split;
  [split; cbn [gpr cp0 pc hi lo fir cp0_config1 branch_target now random_seed count_seed events
               pipeline tlb set_GPR set_CP0 set_gpr set_cp0 set_pc set_hi set_lo set_branch_target
               set_now set_random_seed set_count_seed set_events set_pipeline set_mode];
   auto with mips
  |by apply (chains_same st)].

Section setters.
Context (st : MIPS_State).

Lemma mt_set_GPR i v : mips_typed st -> is_u32 v -> mips_typed (set_GPR st i v).
Proof. setter st. Qed.
Lemma mt_set_CP0 i v : mips_typed st -> is_u32 v -> mips_typed (set_CP0 st i v).
Proof. setter st. Qed.
Lemma mt_set_pc v : mips_typed st -> is_u32 v -> mips_typed (set_pc st v).
Proof. setter st. Qed.
Lemma mt_set_hi v : mips_typed st -> is_u32 v -> mips_typed (set_hi st v).
Proof. setter st. Qed.
Lemma mt_set_lo v : mips_typed st -> is_u32 v -> mips_typed (set_lo st v).
Proof. setter st. Qed.
Lemma mt_set_branch v : mips_typed st -> is_u32 v -> mips_typed (set_branch_target st v).
Proof. setter st. Qed.
Lemma mt_set_now v : mips_typed st -> is_u64 v -> mips_typed (set_now st v).
Proof. setter st. Qed.
Lemma mt_set_count_seed v : mips_typed st -> is_u64 v -> mips_typed (set_count_seed st v).
Proof. setter st. Qed.
Lemma mt_set_events v : mips_typed st -> 0 <= v < 65536 -> mips_typed (set_events st v).
Proof. setter st. Qed.
Lemma mt_set_pipeline v : mips_typed st -> 0 <= v <= 3 -> mips_typed (set_pipeline st v).
Proof. setter st. Qed.
Lemma mt_set_mode v : mips_typed st -> mips_typed (set_mode st v).
Proof. setter st. Qed.
End setters.
#[export] Hint Resolve mt_set_GPR mt_set_CP0 mt_set_pc mt_set_hi mt_set_lo mt_set_branch mt_set_now
  mt_set_count_seed mt_set_events mt_set_pipeline mt_set_mode : mips.

Lemma mt_GPR st i : mips_typed st -> is_u32 (GPR st i).
Proof. intros [Hw _]. auto with mips. Qed.
Lemma mt_CP0 st i : mips_typed st -> is_u32 (CP0 st i).
Proof. intros [Hw _]. auto with mips. Qed.
Lemma mt_pc st : mips_typed st -> is_u32 (pc st).
Proof. intros [Hw _]. auto with mips. Qed.
#[export] Hint Resolve mt_GPR mt_CP0 mt_pc : mips.

(** ** Modes and exceptions *)

Lemma mset_bit_u32 x n : 0 <= n < 32 -> is_u32 x -> is_u32 (set_bit x n).
Proof.
  intros Hn Hx. apply lor_u32; [done|]. unfold bitmask, is_u32. rewrite Z.shiftl_1_l.
  pose proof (Z.pow_lt_mono_r 2 n 32 ltac:(lia) ltac:(lia) ltac:(lia)). lia.
Qed.

Lemma mt_leave_kernel_mode st : mips_typed st -> mips_typed (leave_kernel_mode st).
Proof. intros Hs. unfold leave_kernel_mode. cbn zeta. case_match; auto 6 with mips. Qed.

Lemma exception_point_typed st cause :
  mips_typed st -> is_u32 cause ->
  is_u32 (exception_point st cause).1 /\ is_u32 (exception_point st cause).2.
Proof.
  intros Hs Hc. unfold exception_point. case_match; cbn [fst snd]; split; auto with mips.
  apply mset_bit_u32; [done|done].
Qed.

Lemma mt_process_exception st cause vec :
  mips_typed st -> is_u32 cause -> mips_typed (process_exception st cause vec).
Proof.
  intros Hs Hc. unfold process_exception. cbn zeta.
  set (st1 := set_now st _). assert (H1 : mips_typed st1) by (apply mt_set_now; auto with mips).
  pose proof (exception_point_typed st1 cause H1 Hc) as [He Hca].
  destruct (exception_point st1 cause) as [epc cause']. cbn [fst snd] in *. clearbody st1.
  unfold enter_kernel_mode. apply mt_set_mode.
  assert (Hp : 0 <= (if (Z.land cause 127 =? EXC_Sys) || (Z.land cause 127 =? EXC_TLBL)
      || (Z.land cause 127 =? EXC_CpU) || (Z.land cause 127 =? EXC_TLBS)
      || (Z.land cause 127 =? EXC_Mod) then branch_nodelay else nothing_special) <= 3)
    by (by destruct (_ || _)).
  set (p := if _ : bool then branch_nodelay else nothing_special) in *. clearbody p.
  set (st2 := set_CP0 (set_pipeline st1 p) Cause _).
  assert (H2 : mips_typed st2) by (unfold st2; auto 7 with mips lia).
  clearbody st2. set (st3 := set_CP0 st2 Cause _).
  assert (H3 : mips_typed st3) by (unfold st3; auto 7 with mips). clearbody st3.
  set (st4 := set_pc (set_CP0 st3 EPC epc) _).
  assert (H4 : mips_typed st4) by (unfold st4; auto 7 with mips). clearbody st4.
  set (st5 := set_CP0 st4 SR (Z.lor (CP0 st4 SR) 0x2)).
  assert (H5 : mips_typed st5) by (apply mt_set_CP0; [done|]; apply lor_u32; [auto with mips|done]).
  apply mt_set_CP0; [done|]. apply land_u32; [auto with mips|done].
Qed.

Lemma mt_process_address_error st type va :
  mips_typed st -> is_u32 va -> mips_typed (process_address_error st type va).
Proof.
  intros Hs Hv. unfold process_address_error. cbn zeta. apply mt_process_exception; [auto with mips|].
  by case_match.
Qed.

Lemma mt_tlb_fault_registers st va :
  mips_typed st -> is_u32 va -> mips_typed (tlb_fault_registers st va).
Proof.
  intros Hs Hv. unfold tlb_fault_registers. cbn zeta. set (st1 := set_CP0 st BadVAddr va).
  assert (H1 : mips_typed st1) by (apply mt_set_CP0; auto with mips). clearbody st1.
  set (st2 := set_CP0 st1 Context _).
  assert (H2 : mips_typed st2).
  { apply mt_set_CP0; [done|]. apply lor_u32; apply land_u32; auto with mips; done. }
  apply mt_set_CP0; [done|]. apply lor_u32; apply land_u32; auto with mips; done.
Qed.

Lemma mt_tlb_fault st va c v :
  mips_typed st -> is_u32 va -> is_u32 c ->
  mips_typed (process_exception (tlb_fault_registers st va) c v).
Proof. intros. apply mt_process_exception; [by apply mt_tlb_fault_registers|done]. Qed.

Lemma tlb_code_u32 type : is_u32 (tlb_code type).
Proof. unfold tlb_code. by case_match. Qed.

#[export] Hint Resolve mt_leave_kernel_mode mt_process_exception mt_process_address_error mt_tlb_fault
  tlb_code_u32 : mips.

Lemma mt_trigger_irq st : mips_typed st -> mips_typed (mips_trigger_irq st).
Proof.
  intros Hs. unfold mips_trigger_irq.
  pose proof (exception_point_typed st (CP0 st Cause) Hs ltac:(auto with mips)) as [He Hc].
  destruct (exception_point st (CP0 st Cause)) as [epc cause]. cbn [fst snd] in *.
  apply mt_set_pipeline; [|done]. apply mt_set_pc; [auto with mips|]. by case_match.
Qed.

(** ** The translation buffer *)

Lemma get_random_u32 st : holds is_u32 (get_random st).
Proof. unfold get_random. cbn zeta. case_match; [done|]. cbn. apply u32_range. Qed.

Lemma chains_lookup st i :
  chains_typed st -> (i < 48)%nat -> exists e, tlb st !! i = Some e /\ e_index e = Z.of_nat i.
Proof.
  intros [cs Hc] Hi. destruct (co_place _ _ Hc i Hi) as (e & He & _ & _ & Hx). by exists e.
Qed.

Lemma pages_lookup st i e :
  words_typed st -> tlb st !! i = Some e -> page_typed (e_hi e, e_lo_reg e).
Proof.
  intros Hw He. eapply Forall_lookup_1; [apply Hw|]. unfold page_words.
  by rewrite list_lookup_fmap, He.
Qed.

Lemma mt_set_tlb_entry st n : mips_typed st -> holds mips_typed (set_tlb_entry st n).
Proof.
  intros [Hw [cs Hc]]. pose proof (u32_range n) as Hu. unfold is_u32 in Hu.
  destruct (Z.lt_ge_cases (u32 n) 48) as [Hn|Hn].
  2: { unfold set_tlb_entry. rewrite (proj2 (Z.leb_le tlb_size (u32 n))) by (unfold tlb_size; lia).
       split; [done|by exists cs]. }
  destruct (set_tlb_entry_ok st cs n Hc Hn) as (st' & -> & Hc' & [Hst (e & He & Hpe) Hold]).
  split; [|by eexists]. assert (Hpg : Forall page_typed (page_words (tlb st'))).
  { apply Forall_lookup_2. intros j p Hj. unfold page_words in Hj.
    apply list_lookup_fmap_Some in Hj as (e' & -> & He').
    destruct (decide (j = Z.to_nat (u32 n))) as [->|Hji].
    - rewrite He in He'. injection He' as <-. unfold page_of in Hpe. injection Hpe as -> -> _ _.
      split_and!; cbn [fst snd]; auto with mips. unfold entry_hi.
      case_match; [auto with mips|]. apply lor_u32; [auto with mips|done].
    - assert (Hj : (j < 48)%nat)
        by (rewrite <- (co_len _ _ Hc'); by apply lookup_lt_is_Some_1; eexists).
      destruct (chains_lookup st j ltac:(by exists cs) Hj) as (e0 & He0 & _).
      destruct (Hold j e0 Hji He0) as (e1 & He1 & Hp1). rewrite He' in He1. injection He1 as <-.
      apply page_fields in Hp1 as (-> & -> & _). by eapply pages_lookup. }
  rewrite Hst. destruct Hw. by split.
Qed.

Lemma probe_from_entry st n va p :
  holds (fun e => forall x, e = Some x -> exists i, tlb st !! i = Some x) (probe_from n st va p).
Proof.
  revert p. induction n as [|n IH]; intros [i|]; cbn [probe_from]; try done.
  unfold tlb_get. destruct (tlb st !! i) as [e|] eqn:E; cbn [rbind]; [|done].
  case_match; [|apply IH]. intros x [= <-]. by exists i.
Qed.

Lemma probe_tlb_entry st va :
  holds (fun e => forall x, e = Some x -> exists i, tlb st !! i = Some x) (probe_tlb st va).
Proof.
  unfold probe_tlb, map_get. destruct (tlb_map st !! _); cbn [rbind]; [|done]. apply probe_from_entry.
Qed.

Definition translation_typed (r : Z * option Z * MIPS_State) : Prop :=
  (forall pa, r.1.2 = Some pa -> is_u32 pa) /\ mips_typed r.2.

Lemma translate_mapped_typed st va type :
  mips_typed st -> is_u32 va -> holds translation_typed (translate_mapped st va type).
Proof.
  intros Hs Hv. unfold translate_mapped. eapply holds_bind; [apply probe_tlb_entry|].
  intros [e|] Hx.
  2: { split; [done|]. cbn [snd]. unfold process_tlb_refill. auto with mips. }
  cbn zeta. repeat case_match; cbn [holds]; (split; [cbn [fst snd]|cbn [snd]; unfold process_tlb_invalid, process_tlb_modified; auto with mips]);
    try done; intros pa [= <-]; apply lor_u32; apply land_u32; auto with mips; done.
Qed.

Lemma translate_vaddr_typed st va type :
  mips_typed st -> is_u32 va -> holds translation_typed (translate_vaddr st va type).
Proof.
  intros Hs Hv. unfold translate_vaddr. cbn zeta.
  repeat case_match; try (by apply translate_mapped_typed); cbn [holds];
    (split; cbn [fst snd]; [|auto with mips]); try done; intros pa [= <-]; apply land_u32;
    auto with mips; done.
Qed.

(** ** The machine *)

(** The tests of a switch, one goal for each case. *)
Ltac split_ifs := repeat match goal with |- holds _ (if ?b then _ else _) => destruct b end.

Section machine.
Context {B : Type} `{BusLaws B} (env : mips_env B) (host_lp64 : bool).
Implicit Types (m : mips B).

Definition m_ok m : Prop := mips_typed (mst m) /\ bus_inv (mbus m).

(** The next state of the pipeline with the machine. *)
Definition next_ok (r : Z * mips B) : Prop := 0 <= r.1 <= 3 /\ m_ok r.2.

(** The board keeps the machine typed. *)
Class mips_env_ok : Prop := {
  ek_set_intr n m : m_ok m -> holds m_ok (mach_set_intr env n m);
  ek_cycle m : m_ok m -> holds m_ok (mips_mach_io_do_cycle env m)
}.

Lemma mk_on_mst f m : m_ok m -> (mips_typed (mst m) -> mips_typed (f (mst m))) -> m_ok (on_mst f m).
Proof. intros [Hs Hb] Hf. split; [by apply Hf|done]. Qed.

Lemma mk_set_mst m st : m_ok m -> mips_typed st -> m_ok (set_mst m st).
Proof. intros [_ Hb] Hs. by split. Qed.

Lemma mk_typed m : m_ok m -> mips_typed (mst m).
Proof. by intros []. Qed.

Lemma nothing_ok m : m_ok m -> holds next_ok (nothing m).
Proof. intros Hm. split; [done|done]. Qed.

Lemma put_gpr_ok m i v : m_ok m -> is_u32 v -> m_ok (put_gpr m i v).
Proof. intros Hm Hv. apply mk_on_mst; auto with mips. Qed.

Lemma set_hilo_ok m h l : m_ok m -> is_u32 h -> is_u32 l -> m_ok (set_hilo m h l).
Proof. intros Hm Hh Hl. apply mk_on_mst; auto with mips. Qed.

Lemma put_rd_ok m instr v : m_ok m -> is_u32 v -> holds next_ok (put_rd m instr v).
Proof. intros. by apply nothing_ok, put_gpr_ok. Qed.
Lemma put_rt_ok m instr v : m_ok m -> is_u32 v -> holds next_ok (put_rt m instr v).
Proof. intros. by apply nothing_ok, put_gpr_ok. Qed.

Lemma mk_GPR m i : m_ok m -> is_u32 (GPR (mst m) i).
Proof. intros [Hs _]. auto with mips. Qed.
Lemma mk_CP0 m i : m_ok m -> is_u32 (CP0 (mst m) i).
Proof. intros [Hs _]. auto with mips. Qed.

Local Hint Resolve mk_typed nothing_ok put_gpr_ok set_hilo_ok put_rd_ok put_rt_ok mk_GPR mk_CP0
  mk_set_mst : mips.

(** ** Loads and stores *)

Lemma mem_read_ok m pa len :
  m_ok m -> holds (fun '(v, m') => (forall w, v = Some w -> is_u32 w) /\ m_ok m') (mips_mem_read m pa len).
Proof.
  intros [Hs Hb]. unfold mips_mem_read. eapply holds_bind; [by apply bus_read_law|].
  intros [[c v] b] (_ & Hv & Hb'). by split; [|split].
Qed.

Lemma mem_write_ok m pa v len : m_ok m -> holds m_ok (mips_mem_write m pa v len).
Proof.
  intros [Hs Hb]. unfold mips_mem_write. eapply holds_bind; [by apply bus_write_law|].
  intros [c b] [_ Hb']. by split.
Qed.

Lemma load_ok m pa size : m_ok m -> holds (fun '(v, m') => is_u32 v /\ m_ok m') (load m pa size).
Proof.
  intros Hm. unfold load. eapply holds_bind; [by apply mem_read_ok|].
  intros [[v|] m'] [Hv Hm']; (split; [|done]); [by apply Hv|done].
Qed.

Lemma translated_at_ok m va type k :
  m_ok m -> is_u32 va ->
  (forall pa m', is_u32 pa -> m_ok m' -> holds next_ok (k pa m')) ->
  holds next_ok (translated_at m va type k).
Proof.
  intros Hm Hva Hk. unfold translated_at.
  eapply holds_bind; [apply translate_vaddr_typed; auto with mips|].
  intros [[code pa] st] [Hpa Hs]. cbn [fst snd] in *. cbn zeta.
  case_match; [|auto with mips]. destruct pa as [pa|]; [|done]. apply Hk; auto with mips.
Qed.

Lemma load_op_ok m instr va size finish :
  m_ok m -> is_u32 va -> (forall y, is_u32 y -> is_u32 (finish y)) ->
  holds next_ok (load_op m instr va size finish).
Proof.
  intros Hm Hva Hf. apply translated_at_ok; [done..|]. intros pa m' _ Hm'.
  eapply holds_bind; [by apply load_ok|]. intros [y m1] [Hy Hm1]. auto with mips.
Qed.

Lemma load_word_at_ok m instr va merge :
  m_ok m -> is_u32 va -> (forall m r w, is_u32 (merge m r w)) ->
  holds next_ok (load_word_at m instr va merge).
Proof.
  intros Hm Hva Hf. apply translated_at_ok; [done..|]. intros pa m' _ Hm'.
  eapply holds_bind; [by apply load_ok|]. intros [y m1] [Hy Hm1]. auto with mips.
Qed.

Lemma store_op_ok m instr va size :
  m_ok m -> is_u32 va -> holds next_ok (store_op m instr va size).
Proof.
  intros Hm Hva. apply translated_at_ok; [done..|]. intros pa m' _ Hm'.
  eapply holds_bind; [by apply mem_write_ok|]. intros m1 Hm1. auto with mips.
Qed.

Lemma store_word_at_ok m instr va merge :
  m_ok m -> is_u32 va -> holds next_ok (store_word_at m instr va merge).
Proof.
  intros Hm Hva. apply translated_at_ok; [done..|]. intros pa m' _ Hm'.
  eapply holds_bind; [by apply load_ok|]. intros [y m1] [Hy Hm1].
  eapply holds_bind; [by apply mem_write_ok|]. intros m2 Hm2. auto with mips.
Qed.

Lemma check_aligned_ok m bad type va : m_ok m -> is_u32 va -> m_ok (check_aligned m bad type va).
Proof.
  intros Hm Hva. unfold check_aligned. case_match; [|done]. apply mk_on_mst; auto with mips.
Qed.

Lemma decode_memory_ok m instr : m_ok m -> holds next_ok (decode_memory m instr).
Proof.
  intros Hm. unfold decode_memory, decode_store, decode_linked. cbn zeta.
  assert (Hva : is_u32 (data_va m instr)) by apply u32_range.
  generalize dependent (data_va m instr). intros va Hva.
  pose proof (check_aligned_ok m) as Hal.
  split_ifs;
    match goal with
    | |- holds _ (load_op _ _ _ _ _) => apply load_op_ok; auto with mips
    | |- holds _ (load_word_at _ _ _ _) =>
        apply load_word_at_ok; [done|done|intros; apply u32_range]
    | |- holds _ (store_op _ _ _ _) => apply store_op_ok; auto with mips
    | |- holds _ (store_word_at _ _ _ _) => by apply store_word_at_ok
    | _ => idtac
    end; [done|..].
  - apply translated_at_ok; [done..|]. intros pa m' _ Hm'.
    eapply holds_bind; [by apply mem_read_ok|]. intros [[v|] m1] [Hv Hm1]; [|done]. auto with mips.
  - apply translated_at_ok; [done..|]. intros pa m' _ Hm'.
    eapply holds_bind; [by apply mem_write_ok|]. intros m1 Hm1. auto with mips.
Qed.

(** ** Branches *)

Lemma branch_ok m instr taken : m_ok m -> holds next_ok (branch m instr taken).
Proof.
  intros Hm. split; [done|]. apply mk_on_mst; [done|]. intros Hs.
  apply mt_set_branch; [done|]. case_match; apply u32_range.
Qed.

Lemma branch_likely_ok m instr taken : m_ok m -> holds next_ok (branch_likely m instr taken).
Proof.
  intros Hm. unfold branch_likely. case_match; [by apply branch_ok|].
  apply nothing_ok, mk_on_mst; [done|]. intros Hs. apply mt_set_pipeline; [auto with mips|done].
Qed.

Lemma link_ok m i : m_ok m -> m_ok (link m i).
Proof. intros Hm. apply mk_on_mst; auto with mips. Qed.

Lemma jump_ok m instr : m_ok m -> holds next_ok (jump m instr).
Proof. intros Hm. split; [done|]. apply mk_on_mst; auto with mips. Qed.

Lemma jump_register_ok m v : m_ok m -> is_u32 v -> holds next_ok (jump_register m v).
Proof.
  intros Hm Hv. split; [cbn [fst]; by case_match|]. apply mk_on_mst; auto with mips.
Qed.

Local Hint Resolve branch_ok branch_likely_ok link_ok jump_ok jump_register_ok : mips.

Lemma decode_regimm_ok m instr : m_ok m -> holds next_ok (decode_regimm m instr).
Proof. intros Hm. unfold decode_regimm. cbn zeta. split_ifs; auto with mips. done. Qed.

Lemma decode_branch_ok m instr : m_ok m -> holds next_ok (decode_branch m instr).
Proof. intros Hm. unfold decode_branch, decode_likely. cbn zeta. split_ifs; auto with mips. Qed.
(** ** Arithmetic *)

Lemma check_overflow_ok m bad : m_ok m -> m_ok (check_overflow m bad).
Proof.
  intros Hm. unfold check_overflow. case_match; [|done]. apply mk_on_mst; [done|].
  intros Hs. by apply mt_process_exception.
Qed.

Lemma divide_Int32_ok m a b : m_ok m -> holds m_ok (divide_Int32 host_lp64 m a b).
Proof. intros Hm. unfold divide_Int32. split_ifs; try done. cbn. auto with mips. Qed.

Lemma divide_UInt32_ok m a b :
  m_ok m -> is_u32 a -> is_u32 b -> holds m_ok (divide_UInt32 m a b).
Proof.
  intros Hm Ha Hb. unfold divide_UInt32. destruct (Z.eqb_spec b 0); [done|].
  unfold is_u32 in *. cbn. apply set_hilo_ok; [done|unfold is_u32..].
  - pose proof (Z.mod_pos_bound a b ltac:(lia)). lia.
  - split; [apply Z.div_pos; lia|]. apply Z.div_lt_upper_bound; nia.
Qed.

Lemma shamt_range instr : 0 <= shamt instr.
Proof. apply (mbits_range instr 10 6); lia. Qed.

Lemma shift_amount_range x : 0 <= shift_amount x.
Proof. apply (mbits_range x 4 0); lia. Qed.

Lemma immediate_u32 instr : is_u32 (immediate instr).
Proof. apply mbits_u32; lia. Qed.

Lemma srav_word_u32 x s : is_u32 x -> 0 <= s -> is_u32 (srav_word x s).
Proof.
  intros Hx Hs. unfold srav_word. apply lor_u32; [|auto with mips].
  case_match; [done|]. apply land_u32; [done|]. apply is_u32_nonneg, u32_range.
Qed.

Local Hint Resolve check_overflow_ok shamt_range shift_amount_range immediate_u32 srav_word_u32
  : mips.

Lemma decode_special_ok m instr : m_ok m -> holds next_ok (decode_special host_lp64 m instr).
Proof.
  intros Hm. unfold decode_special, decode_special_arith. cbn zeta.
  assert (Hx : is_u32 (GPR (mst m) (rs instr))) by auto with mips.
  assert (Hy : is_u32 (GPR (mst m) (rt instr))) by auto with mips.
  generalize dependent (GPR (mst m) (rs instr)). intros x Hx.
  generalize dependent (GPR (mst m) (rt instr)). intros y Hy.
  assert (Hhi : is_u32 (hi (mst m)) /\ is_u32 (lo (mst m))) by (split; apply Hm).
  split_ifs; try done; try (apply put_rd_ok; [auto with mips|]); auto with mips.
  all: try (unfold sra_word; auto with mips; fail).
  all: try tauto.
  - apply nothing_ok, mk_on_mst; [done|]. intros Hs. by apply mt_process_exception.
  - apply nothing_ok, mk_on_mst; auto with mips.
  - apply nothing_ok, mk_on_mst; auto with mips.
  - apply nothing_ok, set_hilo_ok; [done|..]; apply land_r_u32; try done;
      try (apply Z.shiftr_nonneg); pose proof (u64_range (x * y)) as Hz; apply Hz.
  - eapply holds_bind; [by apply divide_Int32_ok|]. intros. by apply nothing_ok.
  - eapply holds_bind; [by apply divide_UInt32_ok|]. intros. by apply nothing_ok.
Qed.

Lemma decode_special2_ok m instr : m_ok m -> holds next_ok (decode_special2 m instr).
Proof. intros Hm. unfold decode_special2. cbn zeta. split_ifs; auto with mips. done. Qed.

Lemma decode_immediate_ok m instr : m_ok m -> holds next_ok (decode_immediate m instr).
Proof.
  intros Hm. unfold decode_immediate. cbn zeta. split_ifs; auto with mips.
  apply put_rt_ok; [done|]. apply land_r_u32; [apply Z.mod_pos_bound; lia|].
  apply mbits_u32; lia.
Qed.
(** ** Co-processors *)

Lemma read_cp0_ok st n k : mips_typed st -> holds is_u32 (read_cp0 st n k).
Proof.
  intros Hs. unfold read_cp0. split_ifs; cbn [holds]; auto with mips; [apply get_random_u32|].
  case_match; [auto with mips|apply Hs].
Qed.

Lemma mt_forward st : mips_typed st -> mips_typed (forward st).
Proof. intros Hs. unfold forward. auto with mips. Qed.

Lemma write_cp0_ok st n x : mips_typed st -> is_u32 x -> mips_typed (write_cp0 st n x).
Proof.
  intros Hs Hx. assert (Hn : is_u64 (now st)) by apply Hs. unfold write_cp0. cbn zeta.
  repeat match goal with |- mips_typed (if ?b then _ else _) => destruct b end; auto with mips.
  - apply mt_forward. auto with mips.
  - set (st1 := set_CP0 st Compare x). assert (G1 : mips_typed st1) by (apply mt_set_CP0; auto).
    set (st2 := set_events st1 _). assert (G2 : mips_typed st2) by (apply mt_set_events; auto with mips).
    pose proof (mt_forward st2 G2) as G3. apply mt_set_CP0; [done|].
    apply land_u32; [auto with mips|done].
Qed.

Lemma tlb_entry_typed st i e :
  mips_typed st -> tlb st !! i = Some e -> page_typed (e_hi e, e_lo_reg e) /\ is_u32 (e_index e).
Proof.
  intros [Hw Hc] He. split; [by eapply pages_lookup|].
  assert (Hi : (i < 48)%nat).
  { destruct Hc as [cs Hc]. rewrite <- (co_len _ _ Hc). by eapply lookup_lt_Some. }
  destruct (chains_lookup st i Hc Hi) as (e' & He' & Hx). rewrite He in He'. injection He' as <-.
  rewrite Hx. unfold is_u32. lia.
Qed.

Lemma decode_cop0_op_ok `{!mips_env_ok} m instr :
  m_ok m -> holds next_ok (decode_cop0_op env m instr).
Proof.
  intros Hm. unfold decode_cop0_op. cbn zeta. pose proof (mk_typed m Hm) as Hs. split_ifs; try done.
  - unfold tlb_get. destruct (tlb (mst m) !! _) as [e|] eqn:E; cbn [rbind]; [|done].
    destruct (tlb_entry_typed _ _ _ Hs E) as [(G1 & G2 & G3) _]. cbn [fst snd] in *.
    apply nothing_ok, mk_set_mst; auto 6 with mips.
  - eapply holds_bind; [by apply mt_set_tlb_entry|]. intros st Hst. auto with mips.
  - eapply holds_bind; [apply get_random_u32|]. intros n _.
    eapply holds_bind; [by apply mt_set_tlb_entry|]. intros st Hst. auto with mips.
  - eapply holds_bind; [apply probe_tlb_entry|]. intros e He. apply nothing_ok, mk_set_mst; [done|].
    apply mt_set_CP0; [done|]. destruct e as [e|]; [|done].
    destruct (He e eq_refl) as [i Hi]. by destruct (tlb_entry_typed _ _ _ Hs Hi).
  - apply nothing_ok, mk_on_mst; auto with mips.
  - set (st1 := set_CP0 (mst m) SR _). assert (G1 : mips_typed st1) by (apply mt_set_CP0; auto with mips).
    set (m2 := set_mst m _). assert (G2 : m_ok m2) by (apply mk_set_mst; auto with mips).
    eapply (holds_bind m_ok).
    + case_match; [done|]. by apply ek_set_intr.
    + intros m3 G3. apply nothing_ok, mk_on_mst; [done|]. intros. by apply mt_set_pipeline.
Qed.

Lemma decode_cop0_ok `{!mips_env_ok} m instr : m_ok m -> holds next_ok (decode_cop0 env m instr).
Proof.
  intros Hm. unfold decode_cop0. cbn zeta. set (m1 := if _ : bool then on_mst _ m else m).
  assert (G1 : m_ok m1).
  { unfold m1. case_match; [|done]. apply mk_on_mst; [done|]. intros Hs.
    by apply mt_process_exception. }
  clearbody m1. split_ifs; [by apply decode_cop0_op_ok|..|auto with mips| |exact I].
  - eapply holds_bind; [apply read_cp0_ok; auto with mips|]. intros v Hv. auto with mips.
  - apply nothing_ok, mk_on_mst; [done|]. intros Hs. apply write_cp0_ok; auto with mips.
Qed.

Lemma decode_cop1_ok m instr : m_ok m -> holds next_ok (decode_cop1 m instr).
Proof.
  intros Hm. unfold decode_cop1. split_ifs; auto with mips.
  - apply nothing_ok, mk_on_mst; [done|]. intros Hs. by apply mt_process_exception.
  - apply nothing_ok, put_gpr_ok; [done|apply Hm].
Qed.

(** ** The switch, the step and the run *)

Lemma decode_ok `{!mips_env_ok} m instr : m_ok m -> holds next_ok (decode env host_lp64 m instr).
Proof.
  intros Hm. unfold decode. cbn zeta.
  split_ifs; auto using decode_special_ok, decode_regimm_ok, decode_branch_ok, decode_immediate_ok,
    decode_cop0_ok, decode_cop1_ok, decode_special2_ok, decode_memory_ok, nothing_ok.
  done.
Qed.

Lemma fetch_decode_ok `{!mips_env_ok} m : m_ok m -> holds next_ok (fetch_decode env host_lp64 m).
Proof.
  intros Hm. unfold fetch_decode. cbn zeta.
  eapply holds_bind; [apply translate_vaddr_typed; [auto with mips|apply Hm]|].
  intros [[code pa] st] [Hpa Hs]. cbn [fst snd] in *.
  case_match; [|split; [done|by apply mk_set_mst]]. destruct pa as [pa|]; [|done].
  eapply holds_bind; [apply mem_read_ok; by apply mk_set_mst|].
  intros [[v|] m'] [Hv Hm']; [|done]. by apply decode_ok.
Qed.

Lemma advance_pc_ok st : mips_typed st -> mips_typed (advance_pc st).2.
Proof.
  intros Hs. unfold advance_pc. cbn zeta. assert (Hb : is_u32 (branch_target st)) by apply Hs.
  repeat match goal with |- context [if ?b then _ else _] => destruct b end; cbn [snd];
    auto with mips; try (apply mt_set_pipeline; [auto with mips|done]).
Qed.

Lemma timer_step_ok st : mips_typed st -> mips_typed (timer_step st).
Proof.
  intros Hs. unfold timer_step. cbn zeta. case_match; [done|].
  set (st1 := set_CP0 st Count _). assert (G1 : mips_typed st1) by (apply mt_set_CP0; auto with mips).
  case_match; [done|]. set (st2 := set_CP0 st1 Count 0).
  assert (G2 : mips_typed st2) by (apply mt_set_CP0; [done|done]). clearbody st2.
  case_match; [|done]. apply mt_process_exception; [|done].
  apply mt_set_CP0; [done|]. apply lor_u32; [auto with mips|done].
Qed.

Lemma mips_step_ok `{!mips_env_ok} m : m_ok m -> holds m_ok (mips_step_once env host_lp64 m).
Proof.
  intros Hm. unfold mips_step_once. cbn zeta. set (m1 := on_mst _ m).
  assert (G1 : m_ok m1) by (apply mk_on_mst; [done|]; intros; by apply mt_set_GPR).
  set (m2 := if _ : bool then m1 else _).
  assert (G2 : m_ok m2)
    by (unfold m2; case_match; [done|apply mk_on_mst; [done|apply mt_trigger_irq]]).
  clearbody m2. eapply holds_bind; [by apply fetch_decode_ok|].
  intros [p m3] [Hp G3]. cbn [fst snd] in *.
  pose proof (advance_pc_ok (mst m3) ltac:(apply G3)) as Ha.
  destruct (advance_pc (mst m3)) as [go st]. cbn [snd] in Ha.
  case_match; [|by apply mk_set_mst]. apply ek_cycle, mk_set_mst; [done|].
  apply timer_step_ok, mt_set_pipeline; [done|lia].
Qed.

Lemma mips_run_ok `{!mips_env_ok} n m : m_ok m -> holds m_ok (mips_run env host_lp64 n m).
Proof.
  revert m. induction n as [|n IH]; intros m Hm; cbn [mips_run]; [done|].
  eapply holds_bind; [by apply mips_step_ok|]. intros m' Hm'. by apply IH.
Qed.
End machine.

(** ** Reset *)

(** The state as the reset finds it: the arrays have their sizes and the chains are those of
    an earlier reset, unless this is the first. *)
Record before_reset (st : MIPS_State) : Prop := {
  br_words : words_typed st;
  br_len : length (tlb st) = 48%nat;
  br_chains : warm st = 0 \/ chains_typed st
}.

Lemma words_set_CP0 st i v : words_typed st -> is_u32 v -> words_typed (set_CP0 st i v).
Proof. intros []. split; cbn; auto with mips. Qed.

Lemma words_set_now st v : words_typed st -> is_u64 v -> words_typed (set_now st v).
Proof. intros []. by split. Qed.

Lemma words_set_random st v : words_typed st -> is_u64 v -> words_typed (set_random_seed st v).
Proof. intros []. by split. Qed.

Lemma mt_reset_tlb st :
  words_typed st -> length (tlb st) = 48%nat ->
  exists st', reset_tlb st = Val st' /\ mips_typed st' /\ cp0 st' = cp0 st.
Proof.
  intros Hw Hl. destruct (reset_tlb_ok st Hl) as (st' & Hx & Hc & Hst & Hpw).
  exists st'. split; [exact Hx|]. split; [|by rewrite Hst]. split; [|by eexists].
  destruct Hw as [W1 W2 W3 W4 W5 W6 W7 W8 W9 W10 W11 W12 W13 W14].
  assert (Hp : Forall page_typed (page_words (tlb st'))) by (by rewrite Hpw).
  rewrite Hst. split; try done.
Qed.

Lemma process_reset_typed st :
  words_typed st -> length (tlb st) = 48%nat ->
  Z.land (events st) cold_reset_event <> 0 \/ chains_typed st ->
  exists st', process_reset st = Val st' /\ mips_typed st' /\ pc st' = 0xBFC00000
    /\ mode st' = kmode /\ pipeline st' = nothing_special /\ events st' = 0.
Proof.
  intros Hw Hl Hc. unfold process_reset. cbn zeta. set (st1 := set_now st _).
  assert (W1 : words_typed st1) by (apply words_set_now; auto with mips).
  assert (Hmid : exists st2,
    (if Z.land (events st1) cold_reset_event =? 0 then Val st1
     else reset_tlb (set_random_seed (set_CP0 st1 Random (tlb_size - 1))
                       (now (set_CP0 st1 Random (tlb_size - 1))))) = Val st2 /\ mips_typed st2).
  { destruct (Z.eqb_spec (Z.land (events st1) cold_reset_event) 0) as [E|E].
    - exists st1. split; [done|]. split; [done|]. destruct Hc as [Hc|Hc]; [done|].
      by apply (chains_same st).
    - destruct (mt_reset_tlb (set_random_seed (set_CP0 st1 Random (tlb_size - 1))
                       (now (set_CP0 st1 Random (tlb_size - 1))))) as (st2 & -> & Ht & _);
        [|done|by exists st2].
      apply words_set_random; [by apply words_set_CP0|apply W1]. }
  destruct Hmid as (st2 & -> & H2). cbn [rbind]. eexists. split; [reflexivity|].
  split; [|done]. apply mt_set_events; [|done]. apply mt_set_mode, mt_set_pipeline; [|done].
  apply mt_set_pc; [|done]. apply mt_set_CP0; [done|]. apply mset_bit_u32; auto with mips. done.
Qed.

Lemma lor_u16 x y : 0 <= x < 65536 -> 0 <= y < 65536 -> 0 <= Z.lor x y < 65536.
Proof.
  intros Hx Hy. split; [apply Z.lor_nonneg; lia|].
  assert (E : Z.shiftr (Z.lor x y) 16 = 0).
  { rewrite Z.shiftr_lor, !Z.shiftr_div_pow2, !Z.div_small by lia. done. }
  rewrite Z.shiftr_div_pow2 in E by lia. change (2 ^ 16) with 65536 in E.
  pose proof (Z.div_mod (Z.lor x y) 65536 ltac:(lia)).
  pose proof (Z.mod_pos_bound (Z.lor x y) 65536 ltac:(lia)). lia.
Qed.

Lemma cold_event x : Z.land (Z.lor x cold_reset_event) cold_reset_event <> 0.
Proof.
  intros E. apply (f_equal (fun z => Z.testbit z 0)) in E.
  by rewrite Z.land_spec, Z.lor_spec, orb_true_r in E.
Qed.

