(* ===== verification/MipsRunProps.v ===== *)
(** * Delay slots, and exceptions with their return, on the MIPS machine

    Programs in an unmapped segment, on a board whose devices are quiet: a branch with the
    instruction in its delay slot, and a system call with the return from its handler. *)

From Stdlib Require Import ZArith Lia Bool.
From stdpp Require Import base numbers option list.
From S2P Require Import Prelude Words Bus LoadStoreProps MipsState MipsLemmas MipsTlb MipsDecode MipsRun.
From S2P Require Import MipsTlbSpec MipsAluProps MipsMemProps MipsTyped.

(** ** Branches *)

Inductive condition : Type := IfEq | IfNe | IfLez | IfGtz | IfLtz | IfGez.

(** The word of a branch; the last two conditions are in the field of the second register. *)
Definition branch_word (c : condition) (likely : bool) (s t off : Z) : Z :=
  match c, likely with
  | IfEq, false => i_word BEQ s t off
  | IfNe, false => i_word BNE s t off
  | IfLez, false => i_word BLEZ s t off
  | IfGtz, false => i_word BGTZ s t off
  | IfLtz, false => i_word REGIMM s BLTZ off
  | IfGez, false => i_word REGIMM s BGEZ off
  | IfEq, true => i_word BEQL s t off
  | IfNe, true => i_word BNEL s t off
  | IfLez, true => i_word BLEZL s t off
  | IfGtz, true => i_word BGTZL s t off
  | IfLtz, true => i_word REGIMM s BLTZL off
  | IfGez, true => i_word REGIMM s BGEZL off
  end.

(** The manual's condition, on signed numbers. *)
Definition condition_holds (c : condition) (x y : Z) : bool :=
  match c with
  | IfEq => s32 x =? s32 y
  | IfNe => negb (s32 x =? s32 y)
  | IfLez => s32 x <=? 0
  | IfGtz => 0 <? s32 x
  | IfLtz => s32 x <? 0
  | IfGez => 0 <=? s32 x
  end.

Lemma signed_eqb x y : is_u32 x -> is_u32 y -> (s32 x =? s32 y) = (x =? y).
Proof.
  intros Hx Hy. unfold s32. rewrite !u32_id by done. unfold is_u32 in *. case_tests; bool_tests.
Qed.

Section run_props.
Context {B : Type} `{RamBus B} (env : mips_env B) (host_lp64 : bool).
Implicit Types (m : mips B).

Lemma decode_branch_word c likely s t off m :
  five_bits s -> five_bits t -> 0 <= off < 65536 ->
  is_u32 (GPR (mst m) s) -> is_u32 (GPR (mst m) t) ->
  let w := branch_word c likely s t off in
  let taken := condition_holds c (GPR (mst m) s) (GPR (mst m) t) in
  decode env host_lp64 m w = (if likely then branch_likely m w taken else branch m w taken)
  /\ branch_address (mst m) w = u32 (pc (mst m) + 4 + 4 * signed_imm off).
Proof.
  intros Hs Ht Ho Hx Hy w taken.
  assert (Hf : exists op t', w = i_word op s t' off /\ 0 <= op < 64 /\ five_bits t').
  { destruct c, likely; eexists _, _; (split; [reflexivity|]); done. }
  assert (Ha : branch_address (mst m) w = u32 (pc (mst m) + 4 + 4 * signed_imm off)).
  { destruct Hf as (op & t' & -> & Hop & Ht').
    destruct (i_word_fields op s t' off Hop Hs Ht' Ho) as (_ & _ & _ & _ & _ & Eo).
    unfold branch_address. rewrite Eo, u32_add_r, Z.shiftl_mul_pow2 by lia.
    destruct (immediate_value off Ho) as [_ <-].
    destruct (s32_congr (sign_extend_UInt32 off 16)) as [k ->].
    rewrite <- (u32_shifted (pc (mst m) + 4 + sign_extend_UInt32 off 16 * 2 ^ 2) (4 * k)).
    f_equal. lia. }
  split; [|exact Ha]. clear Hf Ha.
  destruct c, likely; cbn [branch_word] in w;
    match goal with w := i_word ?op ?s ?t ?off |- _ =>
      destruct (i_word_fields op s t off) as (E1 & E2 & E3 & _); [done..|]; fold w in E1, E2, E3
    end;
    unfold decode, decode_regimm, decode_branch, decode_likely, is_branch; rewrite E1, ?E2, ?E3; eval_codes;
    unfold taken, condition_holds; rewrite ?signed_eqb by done; reflexivity.
Qed.
(** ** One step *)

(** Kernel code with the timer off and no interrupt waiting. *)
Record quiet (st : MIPS_State) : Prop := {
  qu_irq : irq_pending st = 0;
  qu_timer : CP0 st Compare = 0;
  qu_kernel : user_mode st = false;
  qu_gpr : words_32 (gpr st)
}.

(** An instruction in RAM in an unmapped segment. *)
Definition code_at m (va instr : Z) : Prop :=
  in_kseg0 va /\ ram_at (mbus m) (phys va) /\ word_at (mbus m) (phys va) = instr.

Lemma code_at_same m m' va instr :
  ram_same (mbus m) (mbus m') -> code_at m va instr -> code_at m' va instr.
Proof.
  intros Hsame (Hk & Hr & Hw). destruct (Hsame _ Hr) as [Hr' Hw']. split; [done|].
  by rewrite Hw'.
Qed.

Lemma step_code m instr :
  quiet (mst m) -> code_at m (pc (mst m)) instr ->
  exists b', ram_same (mbus m) b'
    /\ mips_step_once env host_lp64 m
       = let! (p, m') := decode env host_lp64 {| mst := set_GPR (mst m) 0 0; mbus := b' |} instr in
         let (go, st) := advance_pc (mst m') in
         if go then mips_mach_io_do_cycle env (set_mst m' (timer_step (set_pipeline st p)))
         else Val (set_mst m' st).
Proof.
  intros [Hi _ Hu _] (Hk & Hr & Hw). destruct (ram_read _ _ Hr) as (_ & b' & Hrd & Hsame).
  exists b'. split; [exact Hsame|]. unfold mips_step_once, fetch_decode.
  cbn [on_mst mst irq_pending set_GPR set_gpr]. rewrite Hi. eval_codes.
  cbn [pc set_GPR set_gpr mst on_mst]. rewrite translate_kseg0 by done. cbn [rbind]. eval_codes.
  unfold mips_mem_read, set_mst. cbn [mbus on_mst mst]. unfold in_kseg0, phys in *.
  rewrite unmapped_phys by lia. change (4 * 8) with 32. rewrite Hrd. cbn [rbind].
  by rewrite Hw.
Qed.

Lemma timer_off st : CP0 st Compare = 0 -> timer_step st = st.
Proof. intros E. unfold timer_step. by rewrite E. Qed.

Context (Hcycle : forall m, mips_mach_io_do_cycle env m = Val m).

(** The state after an instruction that writes at most one register. *)
Definition after_alu (st : MIPS_State) (i : alu_instr) (pc' : Z) : MIPS_State :=
  let st := set_GPR st 0 0 in
  let '(d, v, _) := alu_outcome st i in
  set_pipeline (set_pc (match v with Some v => set_GPR st d v | None => st end) pc')
    nothing_special.

Definition no_overflow (st : MIPS_State) (i : alu_instr) : Prop :=
  (alu_outcome (set_GPR st 0 0) i).2 = false.

Lemma quiet_zero st : quiet st -> quiet (set_GPR st 0 0).
Proof. intros []. split; try done. by apply updZ_words. Qed.

Lemma step_alu m i :
  quiet (mst m) -> code_at m (pc (mst m)) (alu_word i) -> alu_ok i -> no_overflow (mst m) i ->
  pipeline (mst m) = nothing_special \/ pipeline (mst m) = branch_delay ->
  exists b', ram_same (mbus m) b'
    /\ mips_step_once env host_lp64 m
       = Val {| mst := after_alu (mst m) i
                         (if pipeline (mst m) =? branch_delay then branch_target (mst m)
                          else u32 (pc (mst m) + 4));
                mbus := b' |}.
Proof.
  intros Hq Hc Hi Ho Hp. destruct (step_code m _ Hq Hc) as (b' & Hsame & ->).
  exists b'. split; [exact Hsame|]. pose proof (quiet_zero _ Hq) as Hq'.
  rewrite decode_alu_word by (done || apply Hq'). cbn [mst].
  unfold after_alu, no_overflow in *. destruct (alu_outcome _ i) as [[d v] over].
  cbn [snd] in Ho. subst over. cbn [rbind]. unfold wrote_value, check_overflow.
  set (m1 := match v with Some _ => _ | None => _ end).
  assert (E : m1 = {| mst := match v with Some v => set_GPR (set_GPR (mst m) 0 0) d v
                                     | None => set_GPR (mst m) 0 0 end; mbus := b' |})
    by (by destruct v).
  rewrite E. clear m1 E. cbn [mst]. set (st1 := match v with Some _ => _ | None => _ end).
  assert (E1 : pipeline st1 = pipeline (mst m) /\ pc st1 = pc (mst m)
    /\ branch_target st1 = branch_target (mst m) /\ CP0 st1 Compare = 0).
  { destruct Hq as [_ Ht _ _]. by unfold st1; destruct v. }
  destruct E1 as (E1 & E2 & E3 & E4). unfold advance_pc. rewrite E1, E2, E3.
  destruct Hp as [-> | ->]; eval_codes; by rewrite timer_off, Hcycle.
Qed.

(** A branch at the program counter, not in a delay slot itself. *)
Lemma step_branch m c likely s t off :
  quiet (mst m) -> code_at m (pc (mst m)) (branch_word c likely s t off) ->
  five_bits s -> five_bits t -> 0 <= off < 65536 -> pipeline (mst m) = nothing_special ->
  let st := set_GPR (mst m) 0 0 in
  let taken := condition_holds c (GPR st s) (GPR st t) in
  let bt := if taken then u32 (pc (mst m) + 4 + 4 * signed_imm off) else u32 (pc (mst m) + 8) in
  let skip := likely && negb taken in
  exists b', ram_same (mbus m) b'
    /\ mips_step_once env host_lp64 m
       = Val {| mst := set_pipeline
                         (set_pc (set_branch_target st bt)
                            (if skip then u32 (pc (mst m) + 8) else u32 (pc (mst m) + 4)))
                         (if skip then nothing_special else branch_delay);
                mbus := b' |}.
Proof.
  intros Hq Hc Hs Ht Ho Hp st taken bt skip. destruct (step_code m _ Hq Hc) as (b' & Hsame & ->).
  exists b'. split; [exact Hsame|]. pose proof (quiet_zero _ Hq) as Hq'. fold st in Hq' |- *.
  assert (Hu : forall i, is_u32 (GPR st i)) by (intros; apply (nthZ_Forall is_u32); [done|apply Hq']).
  set (m1 := {| mst := st; mbus := b' |}).
  destruct (decode_branch_word c likely s t off m1 Hs Ht Ho (Hu s) (Hu t)) as [-> Ea].
  unfold branch_likely, branch, nothing. change (mst m1) with st in *.
  change (pc st) with (pc (mst m)). fold taken.
  assert (Ep : pipeline st = nothing_special) by done.
  assert (Et : CP0 st Compare = 0) by apply Hq.
  unfold bt, skip. destruct likely, taken; cbn [rbind andb negb on_mst mst m1 branch]; rewrite ?Ea;
    unfold advance_pc; cbn [pipeline set_branch_target set_pipeline]; rewrite ?Ep; eval_codes;
    by rewrite timer_off, Hcycle.
Qed.
(** ** A branch and its delay slot *)

(** The program counter and the pipeline before an instruction do not matter after it. *)
Lemma after_alu_again st i p0 pc0 pc' :
  after_alu (set_pipeline (set_pc st pc0) p0) i pc' = after_alu st i pc'.
Proof.
  unfold after_alu. cbn zeta.
  replace (alu_outcome (set_GPR (set_pipeline (set_pc st pc0) p0) 0 0) i)
    with (alu_outcome (set_GPR st 0 0) i) by (by destruct i).
  destruct (alu_outcome (set_GPR st 0 0) i) as [[d [v|]] over]; reflexivity.
Qed.

(** C15: a conditional branch of any of the twelve kinds, at an address of an unmapped segment
    with an instruction in its delay slot, decides on the signed registers before the slot:
    the instruction in the slot is executed, whether or not the branch is taken, and then
    control is at the target (the address of the slot plus four times the signed
    displacement) or after the slot; a likely branch that is not taken takes one step and
    skips the slot.  The memory is unchanged. *)
Theorem branch_with_delay_slot m c likely s t off i :
  quiet (mst m) -> pipeline (mst m) = nothing_special ->
  five_bits s -> five_bits t -> 0 <= off < 65536 -> alu_ok i ->
  no_overflow (set_GPR (mst m) 0 0) i ->
  code_at m (pc (mst m)) (branch_word c likely s t off) ->
  code_at m (u32 (pc (mst m) + 4)) (alu_word i) ->
  let st := set_GPR (mst m) 0 0 in
  let taken := condition_holds c (GPR st s) (GPR st t) in
  let bt := if taken then u32 (pc (mst m) + 4 + 4 * signed_imm off) else u32 (pc (mst m) + 8) in
  exists b', ram_same (mbus m) b'
    /\ if likely && negb taken
       then mips_run env host_lp64 1 m
            = Val {| mst := set_pipeline (set_pc (set_branch_target st bt) bt) nothing_special;
                     mbus := b' |}
       else mips_run env host_lp64 2 m
            = Val {| mst := after_alu (set_branch_target st bt) i bt; mbus := b' |}.
Proof.
  intros Hq Hp Hs Ht Ho Hi Hov Hcb Hci st taken bt. cbn [mips_run].
  destruct (step_branch m c likely s t off Hq Hcb Hs Ht Ho Hp) as (b1 & Hsame1 & ->).
  fold st taken bt. cbn [rbind]. destruct (likely && negb taken) eqn:Eskip.
  - exists b1. split; [exact Hsame1|]. apply andb_true_iff in Eskip as [_ Et%negb_true_iff].
    unfold bt. by rewrite Et.
  - set (m1 := {| mst := _; mbus := b1 |}).
    assert (Hq1 : quiet (mst m1)) by (destruct (quiet_zero _ Hq); by split).
    destruct (step_alu m1 i Hq1) as (b2 & Hsame2 & ->);
      [by apply (code_at_same m)|done|exact Hov|by right|].
    exists b2. split; [by transitivity b1|]. cbn [rbind]. change (pipeline (mst m1) =? branch_delay) with true.
    cbn match. do 2 f_equal.
    by apply after_alu_again.
Qed.
(** ** A system call and the return from its handler *)

Definition syscall_word : Z := r_word SPECIAL 0 0 0 0 SYSCALL.
Definition eret_word : Z := r_word COP0 16 0 0 0 ERET.
Definition handler_va : Z := 0x80000180.

Lemma decode_syscall m :
  decode env host_lp64 m syscall_word = nothing (on_mst process_syscall m).
Proof. reflexivity. Qed.

(** ERET when the interrupt line it acknowledges is low. *)
Definition eret_state (st : MIPS_State) : MIPS_State :=
  set_pipeline
    (set_pc (set_CP0 st SR (Z.lor (CP0 st SR) 0x1)) (CP0 (set_CP0 st SR (Z.lor (CP0 st SR) 0x1)) EPC))
    branch_nodelay.

Lemma decode_eret m :
  kernel_mode (mst m) = true ->
  Z.land (CP0 (set_CP0 (mst m) SR (Z.lor (CP0 (mst m) SR) 0x1)) Cause) (Z.shiftl 1 Cause_IP2) = 0 ->
  decode env host_lp64 m eret_word = nothing (on_mst eret_state m).
Proof.
  intros Hk Hc.
  assert (E : decode env host_lp64 m eret_word = decode_cop0 env m eret_word) by reflexivity.
  rewrite E. unfold decode_cop0. rewrite Hk. cbn [negb andb].
  change (bit eret_word 25 =? 0) with false. cbn [negb].
  unfold decode_cop0_op. change (funct eret_word) with ERET. eval_codes. cbn zeta.
  cbn [mst set_mst]. change (CP0 (set_pc ?a ?b) Cause) with (CP0 a Cause).
  rewrite Hc. eval_codes. reflexivity.
Qed.

(** The registers of an exception. *)
Record raised (st st' : MIPS_State) (delay : bool) (code : Z) : Prop := {
  ra_epc : CP0 st' EPC = if delay then u32 (pc st - 4) else pc st;
  ra_code : bits (CP0 st' Cause) 6 2 = code;
  ra_delay : delay = true -> Z.testbit (CP0 st' Cause) 31 = true;
  ra_mode : mode st' = kmode;
  ra_gpr : gpr st' = gpr st;
  ra_hilo : hi st' = hi st /\ lo st' = lo st;
  ra_tlb : tlb st' = tlb st /\ tlb_map st' = tlb_map st
}.
End run_props.

Lemma CP0_set st i j v :
  length (cp0 st) = 32%nat -> 0 <= i < 32 -> 0 <= j ->
  CP0 (set_CP0 st i v) j = if j =? i then v else CP0 st j.
Proof. intros Hl Hi Hj. apply nthZ_updZ; lia. Qed.

(** What an exception leaves in the registers of co-processor 0. *)
Lemma process_exception_cp0 st cause vec j :
  length (cp0 st) = 32%nat -> 0 <= j -> j <> SR ->
  CP0 (process_exception st cause vec) j
  = if j =? EPC then (exception_point st cause).1
    else if j =? Cause then
      Z.lor (Z.land (CP0 st Cause) 0xFFFFFF83) (exception_point st cause).2
    else CP0 st j.
Proof.
  intros Hl Hj Hsr. unfold process_exception. cbn zeta.
  set (st0 := set_now st _).
  assert (Ep : exception_point st0 cause = exception_point st cause) by done.
  rewrite Ep. destruct (exception_point st cause) as [epc cause']. cbn [fst snd].
  set (p := if _ : bool then branch_nodelay else nothing_special). clearbody p.
  assert (Hset : forall s i v, length (cp0 s) = 32%nat -> length (cp0 (set_CP0 s i v)) = 32%nat)
    by (intros; cbn; by rewrite length_updZ).
  change (CP0 (enter_kernel_mode ?s) j) with (CP0 s j).
  set (st1 := set_pipeline st0 p). assert (L1 : length (cp0 st1) = 32%nat) by done.
  set (st2 := set_CP0 st1 Cause _). assert (L2 : length (cp0 st2) = 32%nat) by (by apply Hset).
  set (st3 := set_CP0 st2 Cause _). assert (L3 : length (cp0 st3) = 32%nat) by (by apply Hset).
  set (st4 := set_CP0 st3 EPC epc). assert (L4 : length (cp0 st4) = 32%nat) by (by apply Hset).
  set (st5 := set_pc st4 _). assert (L5 : length (cp0 st5) = 32%nat) by done.
  set (st6 := set_CP0 st5 SR (Z.lor _ _)). assert (L6 : length (cp0 st6) = 32%nat) by (by apply Hset).
  unfold st6. rewrite !CP0_set by (done || by apply Hset).
  rewrite (proj2 (Z.eqb_neq j SR) Hsr). change (CP0 st5 j) with (CP0 st4 j).
  unfold st4. rewrite CP0_set by done. destruct (j =? EPC); [done|].
  unfold st3. rewrite CP0_set by done. destruct (Z.eqb_spec j Cause) as [->|Hc].
  - unfold st2. by rewrite CP0_set by done.
  - unfold st2. rewrite CP0_set by done. by rewrite (proj2 (Z.eqb_neq j Cause) Hc).
Qed.

Lemma process_exception_rest st cause vec :
  let st' := process_exception st cause vec in
  mode st' = kmode /\ gpr st' = gpr st /\ hi st' = hi st /\ lo st' = lo st
  /\ irq_pending st' = irq_pending st /\ pc st' = u32 (vec + 0x80000000).
Proof.
  unfold process_exception. cbn zeta. destruct (exception_point _ _) as [epc cause'].
  split_and!; try done. cbn [pc enter_kernel_mode set_mode set_CP0 set_cp0 set_pc].
  by destruct (_ =? 0).
Qed.

(** The exception of a system call. *)
Lemma syscall_raised st :
  length (cp0 st) = 32%nat ->
  let st' := process_syscall st in
  raised st st' (branch_delay_slot st) 8
  /\ pc st' = 0x80000180 /\ pipeline st' = branch_nodelay
  /\ CP0 st' Compare = CP0 st Compare /\ irq_pending st' = irq_pending st
  /\ Z.testbit (CP0 st' Cause) 10 = Z.testbit (CP0 st Cause) 10
  /\ length (cp0 st') = 32%nat.
Proof.
  intros Hl st'.
  destruct (process_exception_rest st EXC_Sys common_vector) as (E1 & E2 & E3 & E4 & E5 & E6).
  destruct (process_exception_kept st EXC_Sys common_vector) as (K1 & K2 & K3).
  pose proof (fun j => process_exception_cp0 st EXC_Sys common_vector j Hl) as Hcp.
  change (process_exception st EXC_Sys common_vector) with st' in *.
  assert (Ec : CP0 st' Cause = Z.lor (Z.land (CP0 st Cause) 0xFFFFFF83)
                (if branch_delay_slot st then 0x80000020 else 32)).
  { rewrite Hcp by done. eval_codes. f_equal. unfold exception_point.
    by destruct (branch_delay_slot st). }
  assert (Hbit : forall i, 0 <= i -> Z.testbit (CP0 st' Cause) i
            = Z.testbit (CP0 st Cause) i && Z.testbit 0xFFFFFF83 i
              || Z.testbit (if branch_delay_slot st then 0x80000020 else 32) i)
    by (intros; by rewrite Ec, Z.lor_spec, Z.land_spec).
  split; [|split_and!; try done].
  - split; try done.
    + rewrite Hcp by done. eval_codes. unfold exception_point. by destruct (branch_delay_slot st).
    + apply Z.bits_inj'. intros i Hi. rewrite mtestbit_bits, Hbit by lia.
      destruct (Z.leb_spec i (6 - 2)); cbn [andb].
      * enum_Z i 0 5; rewrite andb_false_r; by destruct (branch_delay_slot st).
      * symmetry. apply (testbit_small 8 4); lia.
    + intros Hd. rewrite Hbit, Hd by done. by rewrite orb_true_r.
  - unfold st', process_syscall, process_exception. cbn zeta. by destruct (exception_point _ _).
  - by rewrite Hcp by done.
  - rewrite Hbit by done. rewrite andb_true_r. by destruct (branch_delay_slot st); rewrite orb_false_r.
  - by rewrite K3.
Qed.

Lemma eret_state_fields st :
  length (cp0 st) = 32%nat ->
  pc (eret_state st) = CP0 st EPC /\ pipeline (eret_state st) = branch_nodelay
  /\ gpr (eret_state st) = gpr st /\ hi (eret_state st) = hi st /\ lo (eret_state st) = lo st.
Proof.
  intros Hl. split; [|done]. unfold eret_state. cbn [pc set_pipeline set_pc].
  by rewrite CP0_set by done.
Qed.

Lemma updZ_twice l i v w : updZ (updZ l i v) i w = updZ l i w.
Proof. unfold updZ. case_match; [|done]. by rewrite list_insert_insert_eq. Qed.

Section call_return.
Context {B : Type} `{RamBus B} (env : mips_env B) (host_lp64 : bool).
Implicit Types (m : mips B).

(** C16: a system call at an address of an unmapped segment, in a delay slot or not, takes one
    step to the handler at 0x80000180, with the code 8 in Cause, the address of the call in
    EPC or, from a delay slot, that of the branch, with the flag that says so, the kernel
    mode, and the registers and the translation buffer unchanged; ERET there takes one step
    back to the address in EPC, with the same registers and memory. *)
Theorem syscall_eret_roundtrip m :
  quiet (mst m) -> length (cp0 (mst m)) = 32%nat ->
  Z.testbit (CP0 (mst m) Cause) 10 = false ->
  code_at m (pc (mst m)) syscall_word -> code_at m handler_va eret_word ->
  let st := set_GPR (mst m) 0 0 in
  exists m1 m2,
    mips_run env host_lp64 1 m = Val m1
    /\ raised st (mst m1) (branch_delay_slot st) 8 /\ pc (mst m1) = handler_va
    /\ mips_run env host_lp64 2 m = Val m2 /\ pc (mst m2) = CP0 (mst m1) EPC
    /\ pipeline (mst m2) = nothing_special
    /\ gpr (mst m2) = gpr st /\ hi (mst m2) = hi st /\ lo (mst m2) = lo st
    /\ ram_same (mbus m) (mbus m2).
Proof.
  intros Hq Hl Hip Hcs Hch st. pose proof (quiet_zero _ Hq) as Hq0. fold st in Hq0.
  destruct (step_code env host_lp64 m _ Hq Hcs) as (b1 & Hsame1 & E1). fold st in E1.
  rewrite decode_syscall in E1. unfold nothing in E1. cbn [rbind on_mst mst mbus] in E1.
  destruct (syscall_raised st Hl) as (Hr & Hpc & Hpi & Hcmp & Hirq & Hb10 & Hl1).
  set (s1 := process_syscall st) in *. unfold advance_pc in E1. rewrite Hpi in E1.
  revert E1. eval_codes. intros E1.
  set (s1' := set_pipeline s1 nothing_special) in *.
  set (m1 := {| mst := s1'; mbus := b1 |}).
  assert (Em1 : mips_step_once env host_lp64 m = Val m1) by exact E1.
  assert (Hr1 : raised st s1' (branch_delay_slot st) 8) by (destruct Hr; by split).
  assert (Hq1 : quiet (mst m1)).
  { split; [by rewrite <- (qu_irq _ Hq0)|by rewrite <- (qu_timer _ Hq0)| |].
    - cbn. unfold user_mode. cbn [mode set_pipeline s1']. by rewrite (ra_mode _ _ _ _ Hr).
    - cbn [mst m1 gpr s1' set_pipeline]. rewrite (ra_gpr _ _ _ _ Hr). apply Hq0. }
  assert (Hc1 : code_at m1 (pc (mst m1)) eret_word).
  { apply (code_at_same m); [exact Hsame1|]. cbn [mst m1 pc s1' set_pipeline]. by rewrite Hpc. }
  destruct (step_code env host_lp64 m1 _ Hq1 Hc1) as (b2 & Hsame2 & E2).
  set (s2 := set_GPR (mst m1) 0 0) in *.
  assert (Hm2 : mode s2 = kmode) by (cbn; apply Hr).
  assert (Hl2 : length (cp0 s2) = 32%nat) by exact Hl1.
  destruct (eret_state_fields s2 Hl2) as (P1 & P2 & P3 & P4 & P5).
  rewrite decode_eret in E2.
  2: { cbn [mst]. unfold kernel_mode. by rewrite Hm2. }
  2: { cbn [mst]. rewrite CP0_set by done. change (Cause =? SR) with false.
       rewrite Z.shiftl_1_l. apply Z.eqb_eq. rewrite mland_bit_zero by done.
       change (negb (Z.testbit (CP0 s1 Cause) 10) = true).
       by rewrite Hb10, (Hip : Z.testbit (CP0 st Cause) 10 = false). }
  unfold nothing in E2. cbn [rbind on_mst mst mbus] in E2. unfold advance_pc in E2.
  rewrite P2 in E2. revert E2. eval_codes. intros E2.
  set (m2 := set_mst _ _) in E2. exists m1, m2.
  assert (Eg : gpr s2 = gpr st).
  { cbn [s2 gpr set_GPR set_gpr mst m1 s1' set_pipeline]. rewrite (ra_gpr _ _ _ _ Hr).
    cbn [st gpr set_GPR set_gpr]. by rewrite updZ_twice. }
  cbn [mips_run]. rewrite Em1. cbn [rbind]. rewrite E2. cbn [rbind].
  split; [done|]. split; [done|]. split; [exact Hpc|]. split; [done|].
  cbn [m2 mst mbus set_mst pc pipeline gpr hi lo set_pipeline].
  split; [rewrite P1; done|]. split; [done|]. split; [by rewrite P3|].
  split; [rewrite P4; apply Hr|]. split; [rewrite P5; apply Hr|]. by transitivity b1.
Qed.
End call_return.
