(* ===== verification/MipsWitnesses.v ===== *)
(** * The theorems on the MIPS processor at concrete inputs

    A processor as it is allocated, a board with one RAM bank at 0 and quiet devices, and
    short programs there. *)

From Stdlib Require Import ZArith Lia Bool.
From stdpp Require Import base numbers option list.
From S2P Require Import Prelude Words Bus Memory MemProps LoadStoreProps Leon2 Leon2Props BoardProps.
From S2P Require Import Witnesses ArmWitnesses MipsState MipsLemmas MipsTlb MipsDecode MipsRun.
From S2P Require Import MipsTlbSpec MipsAluProps MipsMemProps MipsTyped MipsRunProps.

Open Scope Z_scope.
Open Scope list_scope.

(** ** A processor and a board *)

Definition free_entry : TLBEntry :=
  {| e_next := None; e_prev := None; e_hi := 0; e_lo_reg := (0, 0); e_index := 0; e_hash := 0 |}.

(** Registers [g], about to execute at [p] in kernel mode. *)
Definition mips_at (p : Z) (g : list Z) : MIPS_State :=
  {| pc := p; gpr := g; fpr := zeros 32; fir := 0; cp0 := zeros 32; cp0_config1 := 0;
     cp1 := zeros 32; hi := 0; lo := 0; ll_bit := 0; now := 0; warm := 0; nop_count := 0;
     events := 0; pipeline := nothing_special; mode := kmode; sync_bit := 0;
     branch_target := 0; random_seed := 0; count_seed := 0; tlb := replicate 48 free_entry;
     tlb_map := replicate 65 None; bigendSig := 0; irq_pending := 0 |}.

Definition mips_new : MIPS_State := mips_at 0 (zeros 32).

Definition quiet_env : mips_env (memsys leon2) :=
  {| mach_set_intr _ m := Val m; mips_mach_io_do_cycle m := Val m |}.

Lemma quiet_env_ok : mips_env_ok quiet_env.
Proof. by split. Qed.

Lemma zeros_u32 n : Forall is_u32 (zeros n).
Proof. by apply Forall_replicate. Qed.

Lemma mips_new_words : words_typed mips_new.
Proof.
  split; try done; try (split; [done|apply zeros_u32]).
  unfold page_words. cbn [tlb mips_new mips_at]. rewrite fmap_replicate.
  by apply Forall_replicate.
Qed.


(** ** The translation buffer *)

(** Two pages of one chain, one of them global, and a rewrite of the first entry. *)
Definition tlb_ops : list tlb_op :=
  [OpWrite 5 0x00400001 0x00001046 0x00002042;
   OpWrite 6 0x10400001 0x00003146 0x00004142;
   OpProbe 1 0x00400123;
   OpTranslate true 1 0x00401123 data_load;
   OpTranslate true 1 0x00401123 data_store;
   OpTranslate true 7 0x10400008 data_store;
   OpWrite 5 0x20400001 0x00005046 0x00006042;
   OpProbe 1 0x00400123;
   OpTranslate false 1 0x80001234 instr_fetch].

Lemma tlb_refines_associative_witness :
  (let! st := reset_tlb mips_new in op_run st tlb_ops)
  = Val [SawNothing; SawNothing; SawPage (Some (5, (0x00400001, (0x00001046, 0x00002042))));
         SawAddress TLB_SUCC (Some 0x81123); SawAddress TLB_EXP None;
         SawAddress TLB_SUCC (Some 0xC5008); SawNothing; SawPage None;
         SawAddress TLB_SUCC (Some 0x1234)].
Proof.
  transitivity (Val (a_run [] tlb_ops)); [|by vm_compute].
  apply (tlb_refines_associative mips_new tlb_ops); [done|done|].
  repeat (apply Forall_cons_2; [done|]). by apply Forall_nil_2.
Defined.

(** ** Arithmetic *)

(** $1 = 5, $2 = -7, $3 the greatest signed number. *)
Definition three_regs : list Z := [0; 5; 0xFFFFFFF9; 0x7FFFFFFF] ++ zeros 28.

Definition on_board (st : MIPS_State) (prog : list Z) : mips (memsys leon2) :=
  {| mst := st; mbus := board prog l0 None |}.

Lemma three_regs_words : words_32 three_regs.
Proof. split; [done|]. by repeat (apply Forall_cons_2; [done|]). Qed.


(** ** Memory *)

(** $1 points to 2 bytes past a word in RAM, $2 is stored. *)
Definition pointer_regs : list Z := [0; 0x80000006; 0x12345678] ++ zeros 29.

Lemma pointer_regs_words : words_32 pointer_regs.
Proof. split; [done|]. by repeat (apply Forall_cons_2; [done|]). Qed.

Lemma zeros_8_ram a :
  0 <= a -> a + 4 <= 32 -> a mod 4 = 0 ->
  ram_at (RamBus := board_ram (zeros 8)) (board (zeros 8) l0 None) a.
Proof. intros. by apply board_ram_at; [|apply zeros_u32|..]. Qed.


(** ** Control *)

(** At 0: BNE $1, $2, -4 with SUBU $4, $1, $2 in its delay slot; at 0x180: ERET. *)
Definition branch_slot : alu_instr := R_instr Subu 1 2 4 0.
Definition branch_prog : list Z :=
  [branch_word IfNe false 1 2 0xFFFC; alu_word branch_slot; syscall_word] ++ zeros 93
  ++ [eret_word].

Lemma branch_prog_u32 : Forall is_u32 branch_prog.
Proof. by repeat (apply Forall_cons_2; [done|]). Qed.

Lemma branch_prog_code st a w :
  0 <= a -> a + 4 <= 388 -> a mod 4 = 0 -> nthZ branch_prog (a / 4) = w ->
  code_at (H0 := board_ram branch_prog) (on_board st branch_prog) (a + 0x80000000) w.
Proof.
  intros Ha Hl Hm Hw. split; [unfold in_kseg0; lia|].
  unfold phys. replace (a + 0x80000000 - 0x80000000) with a by lia. split.
  - by apply board_ram_at; [|exact branch_prog_u32|..].
  - rewrite <- Hw. exact (board_word_at branch_prog a).
Qed.

Lemma mips_at_quiet p : quiet (mips_at p three_regs).
Proof. split; try done. exact three_regs_words. Qed.

(** The branch at 4, to 4 + 4 - 16 in the segment. *)
Lemma branch_with_delay_slot_witness :
  let m := on_board (mips_at 0x80000000 three_regs) branch_prog in
  exists m', mips_run quiet_env true 2 m = Val m'
    /\ pc (mst m') = 0x7FFFFFF4 /\ GPR (mst m') 4 = 12.
Proof.
  intros m.
  destruct (branch_with_delay_slot (H0 := board_ram branch_prog) quiet_env true
    (fun _ => eq_refl) m IfNe false 1 2 0xFFFC branch_slot) as (b' & _ & Hrun).
  - apply mips_at_quiet.
  - done.
  - done.
  - done.
  - done.
  - by split_and!.
  - by vm_compute.
  - by apply (branch_prog_code _ 0).
  - by apply (branch_prog_code _ 4).
  - eexists. split; [exact Hrun|]. split; [reflexivity|reflexivity].
Defined.

Lemma syscall_eret_roundtrip_witness :
  let m := on_board (mips_at 0x80000008 three_regs) branch_prog in
  exists m1 m2, mips_run quiet_env true 1 m = Val m1 /\ pc (mst m1) = handler_va
    /\ mips_run quiet_env true 2 m = Val m2 /\ pc (mst m2) = 0x80000008.
Proof.
  intros m.
  destruct (syscall_eret_roundtrip (H0 := board_ram branch_prog) quiet_env true m)
    as (m1 & m2 & H1 & Hr & Hpc & H2 & Hpc2 & _).
  - apply mips_at_quiet.
  - done.
  - done.
  - by apply (branch_prog_code _ 8).
  - by apply (branch_prog_code _ 384).
  - exists m1, m2. split; [exact H1|]. split; [exact Hpc|]. split; [exact H2|].
    rewrite Hpc2. apply Hr.
Defined.
