(* ===== verification/FlashBoard.v ===== *)
(** * Devices that reach the memory of the simulator

    The flash devices of src/device/flash answer for a bank of memory and reach the words
    behind it.  A device of this kind is a structure of its own and the memory system; this
    file puts one among the devices that io.c and flash.c ask, and gives [bus_read] and
    [bus_write] of bank_ops.c over it. *)

From Stdlib Require Import ZArith.
From stdpp Require Import base numbers option list.
From S2P Require Import Prelude Words Bus Memory.

(** The structure of the device and the memory. *)
Record board_dev (I W : Type) : Type := { fio : I; fmem : memsys W }.
Arguments fio {I W} d : rename.
Arguments fmem {I W} d : rename.

Section board.
Context {I W : Type}.

Definition set_fio (d : board_dev I W) io : board_dev I W := {| fio := io; fmem := fmem d |}.
Definition set_fmem (d : board_dev I W) st : board_dev I W := {| fio := fio d; fmem := st |}.
Definition on_fio (f : I -> I) (d : board_dev I W) : board_dev I W := set_fio d (f (fio d)).

Context `{Mach W} (dev : device_desc (board_dev I W)).

(** The other devices of the machine, which do not see the flash memory. *)
Definition lift_read (f : Z -> W -> result (Z * option Z * W)) (addr : Z) (d : board_dev I W)
    : result (Z * option Z * board_dev I W) :=
  let! (s, v, w) := f addr (mach (fmem d)) in Val (s, v, set_fmem d (set_mach (fmem d) w)).
Definition lift_write (f : Z -> Z -> W -> result (Z * W)) (addr data : Z) (d : board_dev I W)
    : result (Z * board_dev I W) :=
  let! (s, w) := f addr data (mach (fmem d)) in Val (s, set_fmem d (set_mach (fmem d) w)).
Definition lift_value (f : Z -> W -> result (Z * W)) (addr : Z) (d : board_dev I W)
    : result (Z * board_dev I W) :=
  let! (v, w) := f addr (mach (fmem d)) in Val (v, set_fmem d (set_mach (fmem d) w)).
Definition lift_store (f : Z -> Z -> W -> result W) (addr data : Z) (d : board_dev I W)
    : result (board_dev I W) :=
  let! w := f addr data (mach (fmem d)) in Val (set_fmem d (set_mach (fmem d) w)).

Definition lift_desc (dv : device_desc W) : device_desc (board_dev I W) :=
  {| dev_base := dev_base dv; dev_size := dev_size dv;
     dev_read_byte := lift_read <$> dev_read_byte dv;
     dev_read_halfword := lift_read <$> dev_read_halfword dv;
     dev_read_word := lift_read <$> dev_read_word dv;
     dev_write_byte := lift_write <$> dev_write_byte dv;
     dev_write_halfword := lift_write <$> dev_write_halfword dv;
     dev_write_word := lift_write <$> dev_write_word dv |}.

#[local] Instance flash_mach : Mach (board_dev I W) :=
  {| devices := dev :: (lift_desc <$> devices);
     mach_io_read_byte := lift_value mach_io_read_byte;
     mach_io_read_halfword := lift_value mach_io_read_halfword;
     mach_io_read_word := lift_value mach_io_read_word;
     mach_io_write_byte := lift_store mach_io_write_byte;
     mach_io_write_halfword := lift_store mach_io_write_halfword;
     mach_io_write_word := lift_store mach_io_write_word |}.

(** [bus_read] and [bus_write] of bank_ops.c, with the device among those that flash.c and
    io.c ask. *)
Definition board_reader (f : bank_reader) (size addr : Z) (d : board_dev I W)
    : result (Z * option Z * board_dev I W) :=
  match f with
  | mem_read_fn => let! (s, v, st) := mem_read size addr (fmem d) in Val (s, v, set_fmem d st)
  | io_read_fn => io_read size addr d
  | flash_read_fn => flash_read size addr d
  end.
Definition board_writer (f : bank_writer) (size addr value : Z) (d : board_dev I W)
    : result (Z * board_dev I W) :=
  match f with
  | mem_write_fn => let! (s, st) := mem_write size addr value (fmem d) in Val (s, set_fmem d st)
  | io_write_fn => io_write size addr value d
  | flash_write_fn => flash_write size addr value d
  | warn_write_fn => Val (-1, d)
  end.

Definition board_bus_read (size addr : Z) (d : board_dev I W) : result (Z * option Z * board_dev I W) :=
  let! (r, mc) := bank_ptr (u32 addr) (memmap (fmem d)) in
  let d := set_fmem d (set_memmap (fmem d) mc) in
  match r with
  | None => Val (0, None, d)
  | Some i =>
      match mem_banks mc !! i with
      | None => Undef
      | Some b =>
          match bank_read_op b with
          | None => Val (0, None, d)
          | Some f => let! (s, v, d) := board_reader f size (u32 addr) d in Val (0, v, d)
          end
      end
  end.

Definition board_bus_write (size addr value : Z) (d : board_dev I W) : result (Z * board_dev I W) :=
  let! (r, mc) := bank_ptr (u32 addr) (memmap (fmem d)) in
  let d := set_fmem d (set_memmap (fmem d) mc) in
  match r with
  | None => Val (0, d)
  | Some i =>
      match mem_banks mc !! i with
      | None => Undef
      | Some b =>
          match bank_write_op b with
          | None => Undef
          | Some f => let! (s, d) := board_writer f size (u32 addr) value d in Val (0, d)
          end
      end
  end.
End board.
