(* ===== verification/FlashIntel.v ===== *)
(** * The Intel 28F128J3A flash memory

    src/device/flash/dev_flash_intel.c and dev_flash_intel.h: the write state machine of
    a pair of flash chips on a 32-bit bus, as a device of src/memory/flash.c.  A write of
    a word is a command or an operand of the command begun; what a read gives depends on
    the mode a command left.  The contents are the bank in the memory of the simulator
    (src/memory/ram.c), which the device reaches through [mem_read] and [mem_write]. *)

From Stdlib Require Import ZArith Lia Bool.
From stdpp Require Import base numbers option list.
From S2P Require Import Prelude Words Bus Memory FlashBoard.

(** ** dev_flash_intel.h *)

Definition INTEL28F128J3A_SIZE : Z := 0x2000000.
Definition INTEL_MANUFACTURER_CODE : Z := 0x0089.
Definition INTEL_28F128J3A_DEVICE_CODE : Z := 0x0018.
Definition INTEL_WRITEBUFFER_SIZE : Z := 0x10.
Definition INTEL_WRITEBUFFER_MASK : Z := 0xf.
Definition INTEL_QUERYTABLE_SIZE : Z := 0x47.
Definition FLASH_SECTOR_SIZE : Z := 0x40000.
Definition FLASH_SECTOR_MASK : Z := 0xfffc0000.
Definition FLASH_SECTOR_OFF : Z := 0x3ffff.
Definition FLASH_SECTOR_SHIFT : Z := 18.
Definition SECTOR_ADDR (x : Z) : Z := Z.shiftr x FLASH_SECTOR_SHIFT.
Definition WORD_SHIFT : Z := 2.
Definition WORD_ADDR (x : Z) : Z := Z.shiftr x WORD_SHIFT.

Definition WSM_READ_ARRAY : Z := 0xff.
Definition WSM_READ_ID : Z := 0x90.
Definition WSM_READ_STATUS : Z := 0x70.
Definition WSM_CLEAR_STATUS : Z := 0x50.
Definition WSM_READ_QUERY : Z := 0x98.
Definition WSM_WRITE_BUFFER : Z := 0xe8.
Definition WSM_PROGRAM : Z := 0x40.
Definition WSM_PROGRAM2 : Z := 0x10.
Definition WSM_BLOCK_ERASE : Z := 0x20.
Definition WSM_SUSPEND : Z := 0xB0.
Definition WSM_RESUME : Z := 0xD0.
Definition WSM_LOCK_ACCESS : Z := 0x60.
Definition WSM_CONFIRM : Z := 0xD0.
Definition WSM_READY : Z := 0x00.

Definition ADDR_HIT : Z := 1.

(** The same 16 bits for both chips. *)
Definition BOTHCHIP (x : Z) : Z := Z.lor (u32 (Z.shiftl (Z.land x 0xffff) 16)) (Z.land x 0xffff).

(** The [xxxx_busy], [xxxx_suspended] and error bytes. *)
Record wsm_flags : Type := {
  program_busy : Z;
  progbuf_busy : Z;
  erase_busy : Z;
  lock_busy : Z;
  program_suspended : Z;
  progbuf_suspended : Z;
  erase_suspended : Z;
  protection_error : Z;
  program_setlb_error : Z;
  erase_clearlb_error : Z;
  program_volt_error : Z
}.

(** The state of the buffer program handler. *)
Record prog_buffer : Type := {
  pb_count : Z;
  pb_loaded : Z;
  pb_start : Z;
  pb_buf : list Z
}.

(** The structure, with the two groups above as records of their own. *)
Record flash_intel_io : Type := {
  lock : list Z;
  io_size : Z;
  read_mode : Z;
  wsm_mode : Z;
  vpen : Z;
  program_latch_addr : Z;
  program_latch_data : Z;
  progbuf_latch_addr : Z;
  erase_latch_addr : Z;
  pb_state : prog_buffer;
  wflags : wsm_flags
}.

Definition with_program_busy (fl : wsm_flags) x : wsm_flags :=
  {| program_busy := x; progbuf_busy := progbuf_busy fl; erase_busy := erase_busy fl;
     lock_busy := lock_busy fl; program_suspended := program_suspended fl;
     progbuf_suspended := progbuf_suspended fl; erase_suspended := erase_suspended fl;
     protection_error := protection_error fl; program_setlb_error := program_setlb_error fl;
     erase_clearlb_error := erase_clearlb_error fl;
     program_volt_error := program_volt_error fl |}.
Definition with_progbuf_busy (fl : wsm_flags) x : wsm_flags :=
  {| program_busy := program_busy fl; progbuf_busy := x; erase_busy := erase_busy fl;
     lock_busy := lock_busy fl; program_suspended := program_suspended fl;
     progbuf_suspended := progbuf_suspended fl; erase_suspended := erase_suspended fl;
     protection_error := protection_error fl; program_setlb_error := program_setlb_error fl;
     erase_clearlb_error := erase_clearlb_error fl;
     program_volt_error := program_volt_error fl |}.
Definition with_erase_busy (fl : wsm_flags) x : wsm_flags :=
  {| program_busy := program_busy fl; progbuf_busy := progbuf_busy fl; erase_busy := x;
     lock_busy := lock_busy fl; program_suspended := program_suspended fl;
     progbuf_suspended := progbuf_suspended fl; erase_suspended := erase_suspended fl;
     protection_error := protection_error fl; program_setlb_error := program_setlb_error fl;
     erase_clearlb_error := erase_clearlb_error fl;
     program_volt_error := program_volt_error fl |}.
Definition with_lock_busy (fl : wsm_flags) x : wsm_flags :=
  {| program_busy := program_busy fl; progbuf_busy := progbuf_busy fl;
     erase_busy := erase_busy fl; lock_busy := x; program_suspended := program_suspended fl;
     progbuf_suspended := progbuf_suspended fl; erase_suspended := erase_suspended fl;
     protection_error := protection_error fl; program_setlb_error := program_setlb_error fl;
     erase_clearlb_error := erase_clearlb_error fl;
     program_volt_error := program_volt_error fl |}.
Definition with_program_suspended (fl : wsm_flags) x : wsm_flags :=
  {| program_busy := program_busy fl; progbuf_busy := progbuf_busy fl;
     erase_busy := erase_busy fl; lock_busy := lock_busy fl; program_suspended := x;
     progbuf_suspended := progbuf_suspended fl; erase_suspended := erase_suspended fl;
     protection_error := protection_error fl; program_setlb_error := program_setlb_error fl;
     erase_clearlb_error := erase_clearlb_error fl;
     program_volt_error := program_volt_error fl |}.
Definition with_progbuf_suspended (fl : wsm_flags) x : wsm_flags :=
  {| program_busy := program_busy fl; progbuf_busy := progbuf_busy fl;
     erase_busy := erase_busy fl; lock_busy := lock_busy fl;
     program_suspended := program_suspended fl; progbuf_suspended := x;
     erase_suspended := erase_suspended fl; protection_error := protection_error fl;
     program_setlb_error := program_setlb_error fl;
     erase_clearlb_error := erase_clearlb_error fl;
     program_volt_error := program_volt_error fl |}.
Definition with_erase_suspended (fl : wsm_flags) x : wsm_flags :=
  {| program_busy := program_busy fl; progbuf_busy := progbuf_busy fl;
     erase_busy := erase_busy fl; lock_busy := lock_busy fl;
     program_suspended := program_suspended fl; progbuf_suspended := progbuf_suspended fl;
     erase_suspended := x; protection_error := protection_error fl;
     program_setlb_error := program_setlb_error fl;
     erase_clearlb_error := erase_clearlb_error fl;
     program_volt_error := program_volt_error fl |}.
Definition with_protection_error (fl : wsm_flags) x : wsm_flags :=
  {| program_busy := program_busy fl; progbuf_busy := progbuf_busy fl;
     erase_busy := erase_busy fl; lock_busy := lock_busy fl;
     program_suspended := program_suspended fl; progbuf_suspended := progbuf_suspended fl;
     erase_suspended := erase_suspended fl; protection_error := x;
     program_setlb_error := program_setlb_error fl;
     erase_clearlb_error := erase_clearlb_error fl;
     program_volt_error := program_volt_error fl |}.
Definition with_program_setlb_error (fl : wsm_flags) x : wsm_flags :=
  {| program_busy := program_busy fl; progbuf_busy := progbuf_busy fl;
     erase_busy := erase_busy fl; lock_busy := lock_busy fl;
     program_suspended := program_suspended fl; progbuf_suspended := progbuf_suspended fl;
     erase_suspended := erase_suspended fl; protection_error := protection_error fl;
     program_setlb_error := x; erase_clearlb_error := erase_clearlb_error fl;
     program_volt_error := program_volt_error fl |}.
Definition with_erase_clearlb_error (fl : wsm_flags) x : wsm_flags :=
  {| program_busy := program_busy fl; progbuf_busy := progbuf_busy fl;
     erase_busy := erase_busy fl; lock_busy := lock_busy fl;
     program_suspended := program_suspended fl; progbuf_suspended := progbuf_suspended fl;
     erase_suspended := erase_suspended fl; protection_error := protection_error fl;
     program_setlb_error := program_setlb_error fl; erase_clearlb_error := x;
     program_volt_error := program_volt_error fl |}.
Definition with_program_volt_error (fl : wsm_flags) x : wsm_flags :=
  {| program_busy := program_busy fl; progbuf_busy := progbuf_busy fl;
     erase_busy := erase_busy fl; lock_busy := lock_busy fl;
     program_suspended := program_suspended fl; progbuf_suspended := progbuf_suspended fl;
     erase_suspended := erase_suspended fl; protection_error := protection_error fl;
     program_setlb_error := program_setlb_error fl;
     erase_clearlb_error := erase_clearlb_error fl; program_volt_error := x |}.

Definition with_pb_count (pb : prog_buffer) x : prog_buffer :=
  {| pb_count := x; pb_loaded := pb_loaded pb; pb_start := pb_start pb; pb_buf := pb_buf pb |}.
Definition with_pb_loaded (pb : prog_buffer) x : prog_buffer :=
  {| pb_count := pb_count pb; pb_loaded := x; pb_start := pb_start pb; pb_buf := pb_buf pb |}.
Definition with_pb_start (pb : prog_buffer) x : prog_buffer :=
  {| pb_count := pb_count pb; pb_loaded := pb_loaded pb; pb_start := x; pb_buf := pb_buf pb |}.
Definition with_pb_buf (pb : prog_buffer) x : prog_buffer :=
  {| pb_count := pb_count pb; pb_loaded := pb_loaded pb; pb_start := pb_start pb;
     pb_buf := x |}.

Definition set_lock (io : flash_intel_io) x : flash_intel_io :=
  {| lock := x; io_size := io_size io; read_mode := read_mode io; wsm_mode := wsm_mode io;
     vpen := vpen io; program_latch_addr := program_latch_addr io;
     program_latch_data := program_latch_data io;
     progbuf_latch_addr := progbuf_latch_addr io; erase_latch_addr := erase_latch_addr io;
     pb_state := pb_state io; wflags := wflags io |}.
Definition set_io_size (io : flash_intel_io) x : flash_intel_io :=
  {| lock := lock io; io_size := x; read_mode := read_mode io; wsm_mode := wsm_mode io;
     vpen := vpen io; program_latch_addr := program_latch_addr io;
     program_latch_data := program_latch_data io;
     progbuf_latch_addr := progbuf_latch_addr io; erase_latch_addr := erase_latch_addr io;
     pb_state := pb_state io; wflags := wflags io |}.
Definition set_read_mode (io : flash_intel_io) x : flash_intel_io :=
  {| lock := lock io; io_size := io_size io; read_mode := x; wsm_mode := wsm_mode io;
     vpen := vpen io; program_latch_addr := program_latch_addr io;
     program_latch_data := program_latch_data io;
     progbuf_latch_addr := progbuf_latch_addr io; erase_latch_addr := erase_latch_addr io;
     pb_state := pb_state io; wflags := wflags io |}.
Definition set_wsm_mode (io : flash_intel_io) x : flash_intel_io :=
  {| lock := lock io; io_size := io_size io; read_mode := read_mode io; wsm_mode := x;
     vpen := vpen io; program_latch_addr := program_latch_addr io;
     program_latch_data := program_latch_data io;
     progbuf_latch_addr := progbuf_latch_addr io; erase_latch_addr := erase_latch_addr io;
     pb_state := pb_state io; wflags := wflags io |}.
Definition set_vpen (io : flash_intel_io) x : flash_intel_io :=
  {| lock := lock io; io_size := io_size io; read_mode := read_mode io;
     wsm_mode := wsm_mode io; vpen := x; program_latch_addr := program_latch_addr io;
     program_latch_data := program_latch_data io;
     progbuf_latch_addr := progbuf_latch_addr io; erase_latch_addr := erase_latch_addr io;
     pb_state := pb_state io; wflags := wflags io |}.
Definition set_program_latch_addr (io : flash_intel_io) x : flash_intel_io :=
  {| lock := lock io; io_size := io_size io; read_mode := read_mode io;
     wsm_mode := wsm_mode io; vpen := vpen io; program_latch_addr := x;
     program_latch_data := program_latch_data io;
     progbuf_latch_addr := progbuf_latch_addr io; erase_latch_addr := erase_latch_addr io;
     pb_state := pb_state io; wflags := wflags io |}.
Definition set_program_latch_data (io : flash_intel_io) x : flash_intel_io :=
  {| lock := lock io; io_size := io_size io; read_mode := read_mode io;
     wsm_mode := wsm_mode io; vpen := vpen io; program_latch_addr := program_latch_addr io;
     program_latch_data := x; progbuf_latch_addr := progbuf_latch_addr io;
     erase_latch_addr := erase_latch_addr io; pb_state := pb_state io; wflags := wflags io |}.
Definition set_progbuf_latch_addr (io : flash_intel_io) x : flash_intel_io :=
  {| lock := lock io; io_size := io_size io; read_mode := read_mode io;
     wsm_mode := wsm_mode io; vpen := vpen io; program_latch_addr := program_latch_addr io;
     program_latch_data := program_latch_data io; progbuf_latch_addr := x;
     erase_latch_addr := erase_latch_addr io; pb_state := pb_state io; wflags := wflags io |}.
Definition set_erase_latch_addr (io : flash_intel_io) x : flash_intel_io :=
  {| lock := lock io; io_size := io_size io; read_mode := read_mode io;
     wsm_mode := wsm_mode io; vpen := vpen io; program_latch_addr := program_latch_addr io;
     program_latch_data := program_latch_data io;
     progbuf_latch_addr := progbuf_latch_addr io; erase_latch_addr := x;
     pb_state := pb_state io; wflags := wflags io |}.
Definition set_pb_state (io : flash_intel_io) x : flash_intel_io :=
  {| lock := lock io; io_size := io_size io; read_mode := read_mode io;
     wsm_mode := wsm_mode io; vpen := vpen io; program_latch_addr := program_latch_addr io;
     program_latch_data := program_latch_data io;
     progbuf_latch_addr := progbuf_latch_addr io; erase_latch_addr := erase_latch_addr io;
     pb_state := x; wflags := wflags io |}.
Definition set_wflags (io : flash_intel_io) x : flash_intel_io :=
  {| lock := lock io; io_size := io_size io; read_mode := read_mode io;
     wsm_mode := wsm_mode io; vpen := vpen io; program_latch_addr := program_latch_addr io;
     program_latch_data := program_latch_data io;
     progbuf_latch_addr := progbuf_latch_addr io; erase_latch_addr := erase_latch_addr io;
     pb_state := pb_state io; wflags := x |}.

Definition set_program_busy io x := set_wflags io (with_program_busy (wflags io) x).
Definition set_progbuf_busy io x := set_wflags io (with_progbuf_busy (wflags io) x).
Definition set_erase_busy io x := set_wflags io (with_erase_busy (wflags io) x).
Definition set_lock_busy io x := set_wflags io (with_lock_busy (wflags io) x).
Definition set_program_suspended io x := set_wflags io (with_program_suspended (wflags io) x).
Definition set_progbuf_suspended io x := set_wflags io (with_progbuf_suspended (wflags io) x).
Definition set_erase_suspended io x := set_wflags io (with_erase_suspended (wflags io) x).
Definition set_protection_error io x := set_wflags io (with_protection_error (wflags io) x).
Definition set_program_setlb_error io x := set_wflags io (with_program_setlb_error (wflags io) x).
Definition set_erase_clearlb_error io x := set_wflags io (with_erase_clearlb_error (wflags io) x).
Definition set_program_volt_error io x := set_wflags io (with_program_volt_error (wflags io) x).
Definition set_pb_count io x := set_pb_state io (with_pb_count (pb_state io) x).
Definition set_pb_loaded io x := set_pb_state io (with_pb_loaded (pb_state io) x).
Definition set_pb_start io x := set_pb_state io (with_pb_start (pb_state io) x).
Definition set_pb_buf io x := set_pb_state io (with_pb_buf (pb_state io) x).

(** ** The query table *)

Definition query_entries : list (Z * Z) :=
  [(0x00, 0x00890089); (0x01, 0x00180018); (0x02, 0x00010001); (0x10, 0x00510051);
   (0x11, 0x00520052); (0x12, 0x00590059); (0x13, 0x00010001); (0x15, 0x00310031);
   (0x1b, 0x00270027); (0x1c, 0x00360036); (0x1f, 0x00070007); (0x20, 0x00070007);
   (0x21, 0x000A000A); (0x23, 0x00040004); (0x24, 0x00040004); (0x25, 0x00040004);
   (0x27, 0x00180018); (0x28, 0x00020002); (0x2a, 0x00050005); (0x2c, 0x00010001);
   (0x2d, 0x007F007F); (0x30, 0x00020002); (0x31, 0x00500050); (0x32, 0x00520052);
   (0x33, 0x00490049); (0x34, 0x00310031); (0x35, 0x00320032); (0x36, 0x00CE00CE);
   (0x3a, 0x00010001); (0x3b, 0x00010001); (0x3c, 0x00010001); (0x3d, 0x00330033);
   (0x3f, 0x00010001); (0x40, 0x00000000); (0x41, 0x00010001); (0x42, 0x00030003);
   (0x43, 0x00030003); (0x44, 0x00030003)].

Definition init_querytable : list Z :=
  fold_left (fun q '(i, v) => updZ q i v) query_entries
    (replicate (Z.to_nat INTEL_QUERYTABLE_SIZE) 0).

(** ** Reset *)

Definition flags_clear : wsm_flags := Build_wsm_flags 0 0 0 0 0 0 0 0 0 0 0.

Definition flash_intel_reset (io : flash_intel_io) : flash_intel_io :=
  let io := set_io_size io INTEL28F128J3A_SIZE in
  let io := set_lock io (replicate (Z.to_nat (io_size io / FLASH_SECTOR_SIZE)) 0) in
  let io := set_read_mode io WSM_READ_ARRAY in
  let io := set_wsm_mode io WSM_READY in
  let io := set_wflags io flags_clear in
  let io := set_vpen io 1 in
  set_pb_loaded (set_pb_count io 0) 0.

(** [flash_intel_setup]: the zeroed structure, reset. *)
Definition flash_intel_setup : flash_intel_io :=
  flash_intel_reset
    {| lock := []; io_size := 0; read_mode := 0; wsm_mode := 0; vpen := 0;
       program_latch_addr := 0; program_latch_data := 0; progbuf_latch_addr := 0;
       erase_latch_addr := 0;
       pb_state := {| pb_count := 0; pb_loaded := 0; pb_start := 0; pb_buf := replicate 16 0 |};
       wflags := flags_clear |}.

(** ** A new command *)

Definition device_suspended (io : flash_intel_io) : bool :=
  negb ((program_suspended (wflags io) =? 0) && (progbuf_suspended (wflags io) =? 0)
        && (erase_suspended (wflags io) =? 0)).

Definition addr_suspended (io : flash_intel_io) (x : Z) : bool :=
  let pb := pb_state io in
  negb (program_suspended (wflags io) =? 0) && (x =? program_latch_addr io)
  || negb (progbuf_suspended (wflags io) =? 0)
     && (pb_start pb <=? x) && (x <? u32 (pb_start pb + pb_count pb))
  || negb (erase_suspended (wflags io) =? 0)
     && (Z.land x FLASH_SECTOR_MASK =? Z.land (erase_latch_addr io) FLASH_SECTOR_MASK).

(** The busy handler is the one suspended or resumed. *)
Definition suspend (io : flash_intel_io) : flash_intel_io :=
  if negb (program_busy (wflags io) =? 0) then set_program_suspended io 1
  else if negb (progbuf_busy (wflags io) =? 0) then set_progbuf_suspended io 1
  else if negb (erase_busy (wflags io) =? 0) then set_erase_suspended io 1
  else io.

Definition resume (io : flash_intel_io) : flash_intel_io :=
  if negb (program_suspended (wflags io) =? 0) then set_program_suspended io 0
  else if negb (progbuf_suspended (wflags io) =? 0) then set_progbuf_suspended io 0
  else if negb (erase_suspended (wflags io) =? 0) then set_erase_suspended io 0
  else io.

Definition clear_status (io : flash_intel_io) : flash_intel_io :=
  let io := set_program_volt_error io 0 in
  let io := set_erase_clearlb_error io 0 in
  let io := set_program_setlb_error io 0 in
  let io := set_protection_error io 0 in
  set_read_mode io WSM_READ_ARRAY.

Definition write_buffer_begin (io : flash_intel_io) : flash_intel_io :=
  let io := set_wsm_mode io WSM_WRITE_BUFFER in
  let io := set_read_mode io WSM_READ_STATUS in
  let io := set_pb_count (set_pb_loaded io 0) 0 in
  set_pb_buf io (replicate (Z.to_nat INTEL_WRITEBUFFER_SIZE) 0xffffffff).

Definition init_wsm (io : flash_intel_io) (data : Z) : flash_intel_io :=
  let cmd := Z.land data 0xff in
  if cmd =? WSM_READ_ARRAY then set_read_mode io WSM_READ_ARRAY
  else if cmd =? WSM_READ_ID then set_read_mode io WSM_READ_ID
  else if cmd =? WSM_READ_STATUS then set_read_mode io WSM_READ_STATUS
  else if cmd =? WSM_READ_QUERY then set_read_mode io WSM_READ_QUERY
  else if cmd =? WSM_CLEAR_STATUS then clear_status io
  else if (cmd =? WSM_PROGRAM) || (cmd =? WSM_PROGRAM2) then set_wsm_mode io WSM_PROGRAM
  else if cmd =? WSM_WRITE_BUFFER then write_buffer_begin io
  else if cmd =? WSM_BLOCK_ERASE then set_wsm_mode io WSM_BLOCK_ERASE
  else if cmd =? WSM_SUSPEND then suspend io
  else if cmd =? WSM_RESUME then resume io
  else if cmd =? WSM_LOCK_ACCESS then set_wsm_mode io WSM_LOCK_ACCESS
  else (* WSM_CONFIG, WSM_PROTECT and unknown commands print a message at most *) io.

(** [lock[i]]. *)
Definition lock_at (io : flash_intel_io) (i : Z) : result Z :=
  if (0 <=? i) && (i <? Z.of_nat (length (lock io))) then Val (nthZ (lock io) i) else Undef.

Definition ISLOCKED (io : flash_intel_io) (x : Z) : result Z := lock_at io (SECTOR_ADDR x).

(** ** The device with the memory it stands for *)

Notation intel_dev := (board_dev flash_intel_io).

Section device.
Context {W : Type}.
Implicit Types (d : intel_dev W).

(** [mem_read (32, addr, &tmp)] and [mem_write (32, addr, value)]. *)
Definition array_read d (addr : Z) : result (Z * intel_dev W) :=
  let! (s, v, st) := mem_read 32 addr (fmem d) in
  match v with Some w => Val (w, set_fmem d st) | None => Undef end.
Definition array_write d (addr v : Z) : result (intel_dev W) :=
  let! (s, st) := mem_write 32 addr v (fmem d) in Val (set_fmem d st).
Definition array_and d (addr v : Z) : result (intel_dev W) :=
  let! (tmp, d) := array_read d addr in array_write d addr (Z.land tmp v).

Definition b2z (b : bool) : Z := if b then 1 else 0.

Definition status_word (io : flash_intel_io) : Z :=
  let f := wflags io in
  let temp :=
    b2z ((program_busy f =? 0) && (progbuf_busy f =? 0) && (lock_busy f =? 0)
         && (erase_busy f =? 0)) in
  BOTHCHIP
    (Z.lor (Z.lor (Z.lor (Z.lor (Z.lor (Z.lor (Z.shiftl temp 7)
       (Z.shiftl (erase_suspended f) 6)) (Z.shiftl (erase_clearlb_error f) 5))
       (Z.shiftl (program_setlb_error f) 4)) (Z.shiftl (program_volt_error f) 3))
       (Z.shiftl (program_suspended f) 2)) (Z.shiftl (protection_error f) 1)).

(** The identifier: the third case is not reached, because [temp] is one bit. *)
Definition id_word (io : flash_intel_io) (addr : Z) : result Z :=
  let temp := Z.land (WORD_ADDR addr) 1 in
  if temp =? 0 then Val (BOTHCHIP INTEL_MANUFACTURER_CODE)
  else if temp =? 1 then Val (BOTHCHIP INTEL_28F128J3A_DEVICE_CODE)
  else if Z.shiftr (Z.land addr FLASH_SECTOR_OFF) WORD_SHIFT =? 2 then
    let! l := ISLOCKED io addr in Val (BOTHCHIP (Z.land l 1))
  else Val 0.

Definition query_word (addr : Z) : Z :=
  let temp := WORD_ADDR (Z.land addr 0x0000ffff) in
  if temp <? INTEL_QUERYTABLE_SIZE then nthZ init_querytable temp else 0.

(** Status, value, state. *)
Definition flash_intel_read_word (addr : Z) d : result (Z * option Z * intel_dev W) :=
  let m := read_mode (fio d) in
  if m =? WSM_READ_ARRAY then let! (v, d) := array_read d addr in Val (ADDR_HIT, Some v, d)
  else if m =? WSM_READ_ID then
    let! v := id_word (fio d) addr in Val (ADDR_HIT, Some v, d)
  else if m =? WSM_READ_STATUS then Val (ADDR_HIT, Some (status_word (fio d)), d)
  else if m =? WSM_READ_QUERY then Val (ADDR_HIT, Some (query_word addr), d)
  else Val (ADDR_HIT, Some 0, d).

(** A part of the word read: [bigendSig] is the field of the ARM state. *)
Definition flash_intel_read_part (bigendSig lanes mask addr : Z) d
    : result (Z * option Z * intel_dev W) :=
  let! (ret, v, d) := flash_intel_read_word addr d in
  match v with
  | None => Undef
  | Some temp =>
      let offset := Z.shiftl (Z.lxor (u32 (bigendSig * lanes)) (Z.land addr lanes)) 3 in
      Val (ADDR_HIT, Some (Z.land (Z.shiftr temp offset) mask), d)
  end.
Definition flash_intel_read_byte (bigendSig addr : Z) d := flash_intel_read_part bigendSig 3 0xff addr d.
Definition flash_intel_read_halfword (bigendSig addr : Z) d :=
  flash_intel_read_part bigendSig 2 0xffff addr d.

(** Narrow writes print a message. *)
Definition flash_intel_write_byte (addr data : Z) d : result (Z * intel_dev W) :=
  Val (ADDR_HIT, d).
Definition flash_intel_write_halfword (addr data : Z) d : result (Z * intel_dev W) :=
  Val (ADDR_HIT, d).

(** ** The write state machine *)

(** Both error bits of a buffer program that goes wrong before its confirmation. *)
Definition buffer_error (io : flash_intel_io) : flash_intel_io :=
  set_wsm_mode (set_program_setlb_error (set_erase_clearlb_error io 1) 1) WSM_READY.

(** Step 1: the count. *)
Definition buffer_count (addr data : Z) (io : flash_intel_io) : flash_intel_io :=
  let n := Z.land data 0xff + 1 in
  let io := set_progbuf_latch_addr (set_pb_count io n) addr in
  if INTEL_WRITEBUFFER_SIZE <? n then buffer_error io
  else if negb (SECTOR_ADDR addr =? SECTOR_ADDR (u32 (addr + n - 1))) then buffer_error io
  else io.

(** Step 2: a word of data. *)
Definition buffer_load (addr data : Z) (io : flash_intel_io) : flash_intel_io :=
  if negb (SECTOR_ADDR addr =? SECTOR_ADDR (progbuf_latch_addr io)) then buffer_error io
  else
    let io := if pb_loaded (pb_state io) =? 0 then set_pb_start io addr else io in
    let io :=
      set_pb_buf io
        (updZ (pb_buf (pb_state io)) (Z.land (WORD_ADDR addr) INTEL_WRITEBUFFER_MASK) data) in
    set_pb_loaded io (pb_loaded (pb_state io) + 1).

(** The buffer into the array, [n] words from word [j] on. *)
Fixpoint copy_buffer (n : nat) (j : Z) (buf : list Z) d : result (intel_dev W) :=
  match n with
  | O => Val d
  | S n =>
      let! d := array_and d (u32 (Z.shiftl j WORD_SHIFT))
                  (nthZ buf (Z.land j INTEL_WRITEBUFFER_MASK)) in
      copy_buffer n (j + 1) buf d
  end.

(** The tests before the array is touched: the lock bit, a suspended operation, the
    voltage. *)
Definition guarded (addr : Z) (suspended : bool)
    (locked_error suspended_error volt_error : flash_intel_io -> flash_intel_io)
    (body : intel_dev W -> result (intel_dev W)) d : result (intel_dev W) :=
  let! locked := ISLOCKED (fio d) addr in
  if negb (locked =? 0) then Val (on_fio locked_error d)
  else if suspended then Val (on_fio suspended_error d)
  else if negb (vpen (fio d) =? 1) then Val (on_fio volt_error d)
  else body d.

Definition program_locked io := set_program_setlb_error (set_protection_error io 1) 1.
Definition program_refused io := set_program_setlb_error io 1.
Definition program_volt io := set_program_setlb_error (set_program_volt_error io 1) 1.
Definition erase_locked io := set_erase_clearlb_error (set_protection_error io 1) 1.
Definition erase_refused io := set_erase_clearlb_error io 1.
Definition erase_volt io := set_erase_clearlb_error (set_program_volt_error io 1) 1.

(** Step 3: the confirmation. *)
Definition buffer_begin io : flash_intel_io :=
  set_read_mode (set_progbuf_busy io 1) WSM_READ_STATUS.
Definition buffer_end io : flash_intel_io := set_progbuf_busy (set_wsm_mode io WSM_READY) 0.

Definition buffer_confirm (data : Z) d : result (intel_dev W) :=
  if Z.land data 0xff =? WSM_CONFIRM then
    let d := on_fio buffer_begin d in
    let! d :=
      guarded (progbuf_latch_addr (fio d)) (device_suspended (fio d))
        program_locked program_refused program_volt
        (fun d =>
           copy_buffer (Z.to_nat INTEL_WRITEBUFFER_SIZE) (WORD_ADDR (pb_start (pb_state (fio d))))
             (pb_buf (pb_state (fio d))) d) d in
    Val (on_fio buffer_end d)
  else Val (on_fio buffer_error d).

Definition write_buffer (addr data : Z) d : result (intel_dev W) :=
  let pb := pb_state (fio d) in
  if pb_count pb =? 0 then Val (on_fio (buffer_count addr data) d)
  else if pb_loaded pb <? pb_count pb then Val (on_fio (buffer_load addr data) d)
  else buffer_confirm data d.

(** The operand of a word program. *)
Definition program_begin (addr data : Z) io : flash_intel_io :=
  let io := set_program_latch_addr (set_program_busy io 1) addr in
  set_read_mode (set_program_latch_data io data) WSM_READ_STATUS.
Definition program_end io : flash_intel_io := set_wsm_mode (set_program_busy io 0) WSM_READY.

Definition program (addr data : Z) d : result (intel_dev W) :=
  let d := on_fio (program_begin addr data) d in
  let! d :=
    guarded (program_latch_addr (fio d)) (addr_suspended (fio d) (program_latch_addr (fio d)))
      program_locked program_refused program_volt
      (fun d => array_and d (program_latch_addr (fio d)) data) d in
  Val (on_fio program_end d).

(** [n] words from [addr + 4 * i] on. *)
Fixpoint erase_words (n : nat) (addr i : Z) d : result (intel_dev W) :=
  match n with
  | O => Val d
  | S n =>
      let! d := array_write d (u32 (addr + Z.shiftl i WORD_SHIFT)) 0xffffffff in
      erase_words n addr (i + 1) d
  end.

Definition erase_begin (addr : Z) io : flash_intel_io :=
  let io := set_erase_latch_addr (set_erase_busy io 1) (Z.land addr FLASH_SECTOR_MASK) in
  set_read_mode io WSM_READ_STATUS.
Definition erase_end io : flash_intel_io := set_wsm_mode (set_erase_busy io 0) WSM_READY.

Definition block_erase (addr data : Z) d : result (intel_dev W) :=
  if Z.land data 0xff =? WSM_CONFIRM then
    let d := on_fio (erase_begin addr) d in
    let! d :=
      guarded (erase_latch_addr (fio d)) (device_suspended (fio d))
        erase_locked erase_refused erase_volt
        (fun d =>
           erase_words (Z.to_nat (WORD_ADDR FLASH_SECTOR_SIZE)) (erase_latch_addr (fio d)) 0 d)
        d in
    Val (on_fio erase_end d)
  else Val (on_fio (fun io => set_wsm_mode io WSM_READY) d).

(** [lock[i] = v]. *)
Definition set_lock_at (io : flash_intel_io) (i v : Z) : result flash_intel_io :=
  if (0 <=? i) && (i <? Z.of_nat (length (lock io))) then Val (set_lock io (updZ (lock io) i v))
  else Undef.

(** [lock[i] = 0] for [i] from 0 to the number of sectors. *)
Definition clear_locks (io : flash_intel_io) : result flash_intel_io :=
  let n := Z.to_nat (io_size io / FLASH_SECTOR_SIZE) in
  if (n <=? length (lock io))%nat
  then Val (set_lock io (replicate n 0 ++ drop n (lock io))) else Undef.

Definition lock_access (addr data : Z) (io : flash_intel_io) : result flash_intel_io :=
  let begin io := set_read_mode (set_lock_busy io 1) WSM_READ_STATUS in
  let finish io := set_wsm_mode (set_lock_busy io 0) WSM_READY in
  if Z.land data 0xff =? 0x01 then
    let io := begin io in
    let! io :=
      if device_suspended io then Val (program_refused io)
      else if negb (vpen io =? 1) then Val (program_volt io)
      else set_lock_at io (SECTOR_ADDR addr) 1 in
    Val (finish io)
  else if Z.land data 0xff =? WSM_CONFIRM then
    let io := begin io in
    let! io :=
      if device_suspended io then Val (erase_refused io)
      else if negb (vpen io =? 1) then Val (erase_volt io)
      else clear_locks io in
    Val (finish io)
  else Val (set_wsm_mode io WSM_READY).

Definition wsm_write (addr data : Z) d : result (intel_dev W) :=
  let m := wsm_mode (fio d) in
  if m =? WSM_READY then Val (on_fio (fun io => init_wsm io data) d)
  else if m =? WSM_WRITE_BUFFER then write_buffer addr data d
  else if (m =? WSM_PROGRAM) || (m =? WSM_PROGRAM2) then program addr data d
  else if m =? WSM_BLOCK_ERASE then block_erase addr data d
  else if m =? WSM_LOCK_ACCESS then
    let! io := lock_access addr data (fio d) in Val (set_fio d io)
  else Val d.

Definition flash_intel_write_word (addr data : Z) d : result (Z * intel_dev W) :=
  let! d := wsm_write addr data d in Val (ADDR_HIT, d).
End device.

(** ** The device on the bus *)

Section board.
Context {W : Type} `{Mach W} (base dsize bigendSig : Z).

Definition flash_intel_desc : device_desc (intel_dev W) :=
  {| dev_base := base; dev_size := dsize;
     dev_read_byte := Some (flash_intel_read_byte bigendSig);
     dev_read_halfword := Some (flash_intel_read_halfword bigendSig);
     dev_read_word := Some flash_intel_read_word;
     dev_write_byte := Some flash_intel_write_byte;
     dev_write_halfword := Some flash_intel_write_halfword;
     dev_write_word := Some flash_intel_write_word |}.

Definition intel_bus_read := board_bus_read flash_intel_desc.
Definition intel_bus_write := board_bus_write flash_intel_desc.
End board.
