(* ===== verification/FlashIntelBus.v ===== *)
(** * Properties of the Intel flash memory

    The device of [FlashIntel] over a bank of memory: every access stays inside the lock
    table, the write buffer and the bank; a locked sector keeps its contents; what erase,
    buffer program and word program leave in the array, through the bus. *)

From Stdlib Require Import ZArith Lia Bool.
From stdpp Require Import base numbers option list.
From S2P Require Import Prelude Words Bus Memory MemProps FlashBoard FlashIntel.

(** ** The structure between two writes *)

Definition one_bit (z : Z) : Prop := z = 0 \/ z = 1.

Definition unsuspended (f : wsm_flags) : Prop :=
  program_suspended f = 0 /\ progbuf_suspended f = 0 /\ erase_suspended f = 0.
Definition idle (f : wsm_flags) : Prop :=
  program_busy f = 0 /\ progbuf_busy f = 0 /\ erase_busy f = 0 /\ lock_busy f = 0.

Definition errors_ok (f : wsm_flags) : Prop :=
  one_bit (protection_error f) /\ one_bit (program_setlb_error f)
  /\ one_bit (erase_clearlb_error f) /\ one_bit (program_volt_error f).

Definition read_mode_ok (m : Z) : Prop :=
  m ∈ [WSM_READ_ARRAY; WSM_READ_ID; WSM_READ_STATUS; WSM_READ_QUERY].
Definition wsm_mode_ok (m : Z) : Prop :=
  m ∈ [WSM_READY; WSM_WRITE_BUFFER; WSM_PROGRAM; WSM_BLOCK_ERASE; WSM_LOCK_ACCESS].

Section props.
Context {W : Type} `{Mach W} (i : nat) (b : mem_bank).
Implicit Types (d : intel_dev W) (io : flash_intel_io).

(** A bank of whole sectors inside the address range of the lock table. *)
Record flash_bank : Prop := {
  fb_addr : 0 <= bank_addr b /\ bank_addr b mod FLASH_SECTOR_SIZE = 0;
  fb_len : 0 < bank_len b /\ bank_len b mod FLASH_SECTOR_SIZE = 0;
  fb_end : bank_addr b + bank_len b <= INTEL28F128J3A_SIZE
}.

(** The buffer while it is filled: [n] words in the sector of the latched address. *)
Definition filling io : Prop :=
  let p := pb_state io in
  0 <= pb_loaded p <= pb_count p /\ pb_count p <= INTEL_WRITEBUFFER_SIZE
  /\ (pb_count p <> 0 -> in_bank b (progbuf_latch_addr io) 1)
  /\ (pb_loaded p <> 0 ->
      in_bank b (pb_start p) 1 /\ SECTOR_ADDR (pb_start p) = SECTOR_ADDR (progbuf_latch_addr io)).

Record io_ok io : Prop := {
  io_lock : length (lock io) = 128%nat;
  io_lock_size : io_size io = INTEL28F128J3A_SIZE;
  io_vpen : vpen io = 1;
  io_read : read_mode_ok (read_mode io);
  io_wsm : wsm_mode_ok (wsm_mode io);
  io_idle : idle (wflags io);
  io_unsuspended : unsuspended (wflags io);
  io_errors : errors_ok (wflags io);
  io_buf : length (pb_buf (pb_state io)) = 16%nat /\ Forall is_u32 (pb_buf (pb_state io));
  io_filling : wsm_mode io = WSM_WRITE_BUFFER -> filling io
}.

Definition flash_ok d : Prop := io_ok (fio d) /\ backed_bank (fmem d) i b.

(** The contents of the bank, by words. *)
Definition words d : list Z := ram_words (fmem d) i.
Definition word_no (a : Z) : Z := (a - bank_addr b) / 4.

(** [r] is a device with structure [io] over contents [ws]. *)
Definition shows d io (ws : list Z) : Prop :=
  fio d = io /\ words d = ws /\ backed_bank (fmem d) i b.
Definition gives (r : result (intel_dev W)) io ws : Prop :=
  exists d, r = Val d /\ shows d io ws.

Lemma device_gives_bind r f io ws io' ws' :
  gives r io ws -> (forall d, shows d io ws -> gives (f d) io' ws') -> gives (rbind r f) io' ws'.
Proof. intros (d & -> & Hd) Hf. by apply Hf. Qed.

Lemma gives_on_fio f d io ws : shows d io ws -> gives (Val (on_fio f d)) (f io) ws.
Proof. intros (<- & <- & Hb). by exists (on_fio f d). Qed.

(** ** The array *)

Lemma array_read_word d io ws a :
  shows d io ws -> in_bank b a 1 ->
  exists d', array_read d a = Val (nthZ ws (word_no a), d') /\ shows d' io ws.
Proof.
  intros (Hi & Hw & Hb) Ha. destruct (backed_read_word _ _ _ a Hb Ha) as (mc & E & Hb').
  exists (set_fmem d (set_memmap (fmem d) mc)). unfold array_read. rewrite E. cbn [rbind].
  split; [|done]. by rewrite <- Hw.
Qed.

Lemma array_write_word d io ws a v :
  shows d io ws -> in_bank b a 1 ->
  gives (array_write d a v) io (updZ ws (word_no a) (u32 v)).
Proof.
  intros (Hi & Hw & Hb) Ha.
  destruct (backed_write_word _ _ _ a v Hb Ha) as (st & E & Hb' & _ & _ & Hws).
  exists (set_fmem d st). unfold array_write. rewrite E. cbn [rbind].
  split; [done|]. split; [done|]. split; [|done]. unfold words. cbn. by rewrite Hws, <- Hw.
Qed.

Lemma words_u32 d io ws k : shows d io ws -> is_u32 (nthZ ws k).
Proof.
  intros (_ & <- & Hb). apply nthZ_Forall; [unfold is_u32; lia|].
  destruct (rb_rom _ _ _ Hb) as (l & E & Hu & _). unfold words, ram_words. by rewrite E.
Qed.

Lemma array_and_word d io ws a v :
  shows d io ws -> in_bank b a 1 -> is_u32 v ->
  gives (array_and d a v) io (updZ ws (word_no a) (Z.land (nthZ ws (word_no a)) v)).
Proof.
  intros Hd Ha Hv. destruct (array_read_word _ _ _ a Hd Ha) as (d' & E & Hd').
  unfold array_and. rewrite E. cbn [rbind].
  assert (Hl : is_u32 (Z.land (nthZ ws (word_no a)) v)).
  { apply land_u32; [by eapply words_u32|]. unfold is_u32 in Hv. lia. }
  rewrite <- (u32_id _ Hl) at 2. by apply array_write_word.
Qed.

(** The words of the bank, and where an address of it is. *)
Lemma shows_length d io ws : shows d io ws -> bank_len b = 4 * Z.of_nat (length ws).
Proof.
  intros (_ & <- & Hb). destruct (rb_rom _ _ _ Hb) as (l & E & _ & ->).
  unfold words, ram_words. by rewrite E.
Qed.

Lemma word_no_range d io ws a :
  shows d io ws -> in_bank b a 1 -> 0 <= word_no a < Z.of_nat (length ws).
Proof.
  intros Hd [H1 H2]. apply shows_length in Hd. unfold word_no. Z.div_mod_to_equations. lia.
Qed.

(** ** The loops *)

Lemma word_no_quarter d io ws a : shows d io ws -> word_no a = a / 4 - bank_addr b / 4.
Proof.
  intros (_ & _ & Hb). destruct (rb_addr _ _ _ Hb) as (_ & H4 & _). unfold word_no.
  Z.div_mod_to_equations. lia.
Qed.

Lemma bank_u32 d io ws a : shows d io ws -> in_bank b a 1 -> is_u32 a.
Proof.
  intros (_ & _ & Hb) [H1 H2]. destruct (rb_addr _ _ _ Hb) as (H0 & _ & H3).
  unfold is_u32. lia.
Qed.

(** One word of the array changed, seen from all addresses. *)
Lemma updated_word d io ws a v x :
  shows d io ws -> in_bank b a 1 -> in_bank b x 1 ->
  nthZ (updZ ws (word_no a) v) (word_no x) = if x / 4 =? a / 4 then v else nthZ ws (word_no x).
Proof.
  intros Hd Ha Hx. pose proof (word_no_range _ _ _ _ Hd Ha). pose proof (word_no_range _ _ _ _ Hd Hx).
  rewrite nthZ_updZ by lia. rewrite (word_no_quarter _ _ _ a Hd), (word_no_quarter _ _ _ x Hd).
  destruct (Z.eqb_spec (x / 4 - bank_addr b / 4) (a / 4 - bank_addr b / 4)),
    (Z.eqb_spec (x / 4) (a / 4)); done || lia.
Qed.

Lemma same_word d io ws x a : shows d io ws -> x / 4 = a / 4 -> word_no x = word_no a.
Proof. intros Hd E. by rewrite !(word_no_quarter d io ws), E. Qed.

Fixpoint anded (n : nat) (j : Z) (buf ws : list Z) : list Z :=
  match n with
  | O => ws
  | S n =>
      anded n (j + 1) buf
        (updZ ws (word_no (4 * j))
           (Z.land (nthZ ws (word_no (4 * j))) (nthZ buf (Z.land j INTEL_WRITEBUFFER_MASK))))
  end.

Fixpoint erased (n : nat) (addr k : Z) (ws : list Z) : list Z :=
  match n with
  | O => ws
  | S n => erased n addr (k + 1) (updZ ws (word_no (addr + 4 * k)) 0xffffffff)
  end.

Lemma word_shift a : Z.shiftl a WORD_SHIFT = 4 * a.
Proof.
  rewrite Z.shiftl_mul_pow2 by done. change (2 ^ WORD_SHIFT) with 4. apply Z.mul_comm.
Qed.

Lemma copy_buffer_gives n j buf d io ws :
  shows d io ws -> Forall is_u32 buf ->
  (forall k, j <= k < j + Z.of_nat n -> in_bank b (4 * k) 1) ->
  gives (copy_buffer n j buf d) io (anded n j buf ws).
Proof.
  intros Hd Hbuf. revert j d ws Hd. induction n as [|n IH]; intros j d ws Hd Hin; [by exists d|].
  cbn [copy_buffer anded]. assert (H4 : in_bank b (4 * j) 1) by (apply Hin; lia).
  rewrite word_shift, u32_id by (by apply (bank_u32 d io ws)).
  eapply device_gives_bind; [apply (array_and_word d io ws (4 * j)); [done|done|]|].
  - apply nthZ_Forall; [unfold is_u32; lia|done].
  - intros d1 Hd1. apply IH; [done|]. intros k Hk. apply Hin. lia.
Qed.

Lemma erase_words_gives n addr k d io ws :
  shows d io ws -> (forall l, k <= l < k + Z.of_nat n -> in_bank b (addr + 4 * l) 1) ->
  gives (erase_words n addr k d) io (erased n addr k ws).
Proof.
  revert k d ws. induction n as [|n IH]; intros k d ws Hd Hin; [by exists d|].
  cbn [erase_words erased]. assert (Ha : in_bank b (addr + 4 * k) 1) by (apply Hin; lia).
  rewrite word_shift, u32_id by (by apply (bank_u32 d io ws)).
  eapply device_gives_bind; [by apply (array_write_word d io ws _ 0xffffffff)|].
  intros d1 Hd1. apply IH; [done|]. intros l Hl. apply Hin. lia.
Qed.

(** The words after them. *)
Lemma anded_word n j buf d io ws a :
  shows d io ws -> Forall is_u32 buf ->
  (forall k, j <= k < j + Z.of_nat n -> in_bank b (4 * k) 1) -> in_bank b a 1 ->
  nthZ (anded n j buf ws) (word_no a)
  = if (j <=? a / 4) && (a / 4 <? j + Z.of_nat n)
    then Z.land (nthZ ws (word_no a)) (nthZ buf (Z.land (a / 4) INTEL_WRITEBUFFER_MASK))
    else nthZ ws (word_no a).
Proof.
  intros Hd Hbuf. revert j d ws Hd. induction n as [|n IH]; intros j d ws Hd Hin Ha.
  { destruct (Z.leb_spec j (a / 4)), (Z.ltb_spec (a / 4) (j + Z.of_nat 0)); done || lia. }
  cbn [anded]. assert (H4 : in_bank b (4 * j) 1) by (apply Hin; lia). set (v := nthZ buf _).
  assert (Hv : is_u32 v) by (apply nthZ_Forall; [unfold is_u32; lia|done]).
  destruct (array_and_word d io ws (4 * j) v Hd H4 Hv) as (d1 & _ & Hd1).
  rewrite (IH (j + 1) d1 _ Hd1) by (done || intros; apply Hin; lia).
  rewrite (updated_word _ _ _ (4 * j) _ a Hd H4 Ha).
  replace (4 * j / 4) with j by (rewrite Z.mul_comm, Z.div_mul; lia).
  destruct (Z.eqb_spec (a / 4) j) as [Ej|Hne].
  - rewrite Ej, Z.leb_refl, (proj2 (Z.leb_gt (j + 1) j)) by lia.
    rewrite (proj2 (Z.ltb_lt j (j + Z.of_nat (S n)))) by lia. cbn [andb].
    rewrite !(word_no_quarter d io ws), Ej, (Z.mul_comm 4), Z.div_mul by (done || lia). done.
  - destruct (Z.leb_spec (j + 1) (a / 4)), (Z.leb_spec j (a / 4)),
      (Z.ltb_spec (a / 4) (j + 1 + Z.of_nat n)), (Z.ltb_spec (a / 4) (j + Z.of_nat (S n)));
      try lia; done.
Qed.

Lemma erased_word n addr k d io ws a :
  shows d io ws -> addr mod 4 = 0 ->
  (forall l, k <= l < k + Z.of_nat n -> in_bank b (addr + 4 * l) 1) -> in_bank b a 1 ->
  nthZ (erased n addr k ws) (word_no a)
  = if (addr + 4 * k <=? a) && (a <? addr + 4 * (k + Z.of_nat n))
    then 0xffffffff else nthZ ws (word_no a).
Proof.
  intros Hd H4. revert k d ws Hd. induction n as [|n IH]; intros k d ws Hd Hin Hain.
  { destruct (Z.leb_spec (addr + 4 * k) a), (Z.ltb_spec a (addr + 4 * (k + Z.of_nat 0)));
      done || lia. }
  cbn [erased]. assert (Ha : in_bank b (addr + 4 * k) 1) by (apply Hin; lia).
  destruct (array_write_word d io ws _ 0xffffffff Hd Ha) as (d1 & _ & Hd1).
  change (u32 0xffffffff) with 0xffffffff in Hd1.
  rewrite (IH (k + 1) d1 _ Hd1) by (done || intros; apply Hin; lia).
  rewrite (updated_word _ _ _ (addr + 4 * k) _ a Hd Ha Hain).
  destruct (Z.leb_spec (addr + 4 * (k + 1)) a), (Z.leb_spec (addr + 4 * k) a),
    (Z.ltb_spec a (addr + 4 * (k + 1 + Z.of_nat n))), (Z.ltb_spec a (addr + 4 * (k + Z.of_nat (S n)))),
    (Z.eqb_spec (a / 4) ((addr + 4 * k) / 4)); cbn [andb]; try done; exfalso;
    Z.div_mod_to_equations; lia.
Qed.

(** ** The operations between their tests *)

Context (Hbank : flash_bank).

Lemma sector_range a : in_bank b a 1 -> 0 <= SECTOR_ADDR a < 128.
Proof.
  intros [H1 H2]. destruct Hbank as [[H0 _] _ He]. unfold SECTOR_ADDR, INTEL28F128J3A_SIZE in *.
  rewrite Z.shiftr_div_pow2 by done. change (2 ^ FLASH_SECTOR_SHIFT) with 0x40000.
  Z.div_mod_to_equations. lia.
Qed.

Lemma locked_bit io a :
  length (lock io) = 128%nat -> in_bank b a 1 ->
  ISLOCKED io a = Val (nthZ (lock io) (SECTOR_ADDR a)).
Proof.
  intros Hl Ha. pose proof (sector_range a Ha). unfold ISLOCKED, lock_at. rewrite Hl.
  rewrite (proj2 (Z.leb_le _ _)), (proj2 (Z.ltb_lt _ _)) by lia. done.
Qed.

Lemma guarded_gives a susp e1 e2 e3 body d io ws io' ws' :
  shows d io ws -> length (lock io) = 128%nat -> vpen io = 1 -> susp = false -> in_bank b a 1 ->
  (nthZ (lock io) (SECTOR_ADDR a) = 0 -> gives (body d) io' ws') ->
  gives (guarded a susp e1 e2 e3 body d)
    (if nthZ (lock io) (SECTOR_ADDR a) =? 0 then io' else e1 io)
    (if nthZ (lock io) (SECTOR_ADDR a) =? 0 then ws' else ws).
Proof.
  intros Hd Hl Hv -> Ha Hbody. unfold guarded. pose proof Hd as (Hf & _ & _).
  rewrite Hf, (locked_bit io) by done. cbn [rbind].
  destruct (Z.eqb_spec (nthZ (lock io) (SECTOR_ADDR a)) 0) as [E|E]; cbn [negb].
  - rewrite Hv. by apply Hbody.
  - by apply gives_on_fio.
Qed.

Lemma idle_device io : unsuspended (wflags io) -> device_suspended io = false.
Proof. intros (E1 & E2 & E3). unfold device_suspended. by rewrite E1, E2, E3. Qed.

Lemma idle_addr io x : unsuspended (wflags io) -> addr_suspended io x = false.
Proof. intros (E1 & E2 & E3). unfold addr_suspended. by rewrite E1, E2, E3. Qed.

(** What an operation that ends leaves of the structure. *)
Record ended io io' : Prop := {
  en_ok : io_ok io';
  en_lock : lock io' = lock io;
  en_wsm : wsm_mode io' = WSM_READY;
  en_read : read_mode io' = WSM_READ_STATUS
}.

Ltac io_fields Hio :=
  destruct Hio as [? ? ? ? ? (? & ? & ? & ?) (? & ? & ?) (? & ? & ? & ?) (? & ?) ?];
  repeat match goal with |- ended _ _ => split | |- io_ok _ => split end;
  cbn; unfold read_mode_ok, wsm_mode_ok, idle, unsuspended, errors_ok, one_bit in *; cbn;
  rewrite ?elem_of_cons in *; split_and?; auto 10; try by (let E := fresh in intros E; cbv in E).

Lemma shows_on_fio f d io ws : shows d io ws -> shows (on_fio f d) (f io) ws.
Proof. by intros (<- & <- & Hb). Qed.

(** An operation between its begin and its end. *)
Lemma operation_gives f g a susp e1 e2 e3 body d io ws ws' :
  shows d io ws -> io_ok io -> lock (f io) = lock io -> vpen (f io) = vpen io ->
  susp = false -> in_bank b a 1 ->
  (forall d, shows d (f io) ws -> gives (body d) (f io) ws') ->
  gives (let! d := guarded a susp e1 e2 e3 body (on_fio f d) in Val (on_fio g d))
    (g (if nthZ (lock io) (SECTOR_ADDR a) =? 0 then f io else e1 (f io)))
    (if nthZ (lock io) (SECTOR_ADDR a) =? 0 then ws' else ws).
Proof.
  intros Hd Hio Hl Hv Hs Ha Hbody. rewrite <- Hl. eapply device_gives_bind.
  - apply (guarded_gives a susp e1 e2 e3 body (on_fio f d) (f io) ws (f io) ws'); try done.
    + by apply shows_on_fio.
    + rewrite Hl. apply Hio.
    + rewrite Hv. apply Hio.
    + intros _. by apply Hbody, shows_on_fio.
  - intros d1 Hd1. by apply gives_on_fio.
Qed.

Lemma program_words a v d io ws :
  shows d io ws -> io_ok io -> in_bank b a 1 -> is_u32 v ->
  exists io' ws', gives (program a v d) io' ws' /\ ended io io'
    /\ forall x, in_bank b x 1 ->
         nthZ ws' (word_no x)
         = if (nthZ (lock io) (SECTOR_ADDR a) =? 0) && (x / 4 =? a / 4)
           then Z.land (nthZ ws (word_no x)) v else nthZ ws (word_no x).
Proof.
  intros Hd Hio Ha Hv. pose proof Hd as (Hf & _ & _).
  eexists _, _. split; [|split].
  - apply (operation_gives (program_begin a v) program_end a); try done.
    + apply idle_addr. cbn. rewrite Hf. apply Hio.
    + intros d1 Hd1. pose proof Hd1 as (Hf1 & _). cbv beta. rewrite Hf1.
      by apply array_and_word.
  - destruct (_ =? 0); io_fields Hio.
  - intros x Hx. destruct (_ =? 0); cbn [andb]; [|done].
    change (program_latch_addr _) with a. rewrite (updated_word d io) by done. destruct (Z.eqb_spec (x / 4) (a / 4)) as [E|]; [|done].
    by rewrite (same_word d io ws x a).
Qed.

(** The words of a sector. *)
Definition sector_base (a : Z) : Z := Z.land a FLASH_SECTOR_MASK.

Lemma sector_base_div a : is_u32 a -> sector_base a = a / 0x40000 * 0x40000.
Proof.
  intros Ha. unfold sector_base.
  replace FLASH_SECTOR_MASK with (Z.shiftl (Z.ones 14) 18) by done.
  apply Z.bits_inj'. intros k Hk. rewrite Z.land_spec. change 0x40000 with (2 ^ 18).
  rewrite <- Z.shiftl_mul_pow2, <- Z.shiftr_div_pow2 by done.
  destruct (Z.lt_ge_cases k 18).
  - rewrite !Z.shiftl_spec_low by lia. apply andb_false_r.
  - rewrite !Z.shiftl_spec, Z.shiftr_spec by lia. replace (k - 18 + 18) with k by lia.
    rewrite testbit_ones by lia. destruct (Z.ltb_spec (k - 18) 14); [apply andb_true_r|].
    rewrite (testbit_above_32 a k) by (done || lia). done.
Qed.

Lemma sector_in_bank a x :
  in_bank b a 1 -> sector_base a <= x < sector_base a + 0x40000 -> in_bank b x 1.
Proof.
  intros [H1 H2]. destruct Hbank as [[H0 Hm] [Hl Hlm] He].
  rewrite sector_base_div by (unfold is_u32, INTEL28F128J3A_SIZE in *; lia).
  unfold FLASH_SECTOR_SIZE, in_bank in *. Z.div_mod_to_equations. lia.
Qed.

Lemma sector_addr_base a x :
  in_bank b a 1 -> in_bank b x 1 ->
  (SECTOR_ADDR x =? SECTOR_ADDR a) = (sector_base a <=? x) && (x <? sector_base a + 0x40000).
Proof.
  intros Ha Hx. destruct Hbank as [[H0 _] _ He].
  rewrite sector_base_div by (unfold is_u32, in_bank, INTEL28F128J3A_SIZE in *; lia).
  unfold SECTOR_ADDR. rewrite !Z.shiftr_div_pow2 by done.
  change (2 ^ FLASH_SECTOR_SHIFT) with 0x40000.
  destruct (Z.eqb_spec (x / 0x40000) (a / 0x40000)), (Z.leb_spec (a / 0x40000 * 0x40000) x),
    (Z.ltb_spec x (a / 0x40000 * 0x40000 + 0x40000)); cbn [andb]; try done; exfalso;
    Z.div_mod_to_equations; lia.
Qed.

Lemma sector_base_spec a :
  in_bank b a 1 ->
  in_bank b (sector_base a) 1 /\ SECTOR_ADDR (sector_base a) = SECTOR_ADDR a
  /\ sector_base a mod 4 = 0.
Proof.
  intros Ha. assert (Hi : in_bank b (sector_base a) 1) by (apply (sector_in_bank a); [done|lia]).
  split; [done|]. split.
  - apply Z.eqb_eq. rewrite sector_addr_base by done.
    rewrite Z.leb_refl, (proj2 (Z.ltb_lt _ _)) by lia. done.
  - destruct Hbank as [[H0 _] _ He].
    rewrite sector_base_div by (unfold is_u32, in_bank, INTEL28F128J3A_SIZE in *; lia).
    Z.div_mod_to_equations. lia.
Qed.

Lemma block_erase_words a v d io ws :
  shows d io ws -> io_ok io -> in_bank b a 1 -> Z.land v 0xff = WSM_CONFIRM ->
  exists io' ws', gives (block_erase a v d) io' ws' /\ ended io io'
    /\ forall x, in_bank b x 1 ->
         nthZ ws' (word_no x)
         = if (nthZ (lock io) (SECTOR_ADDR a) =? 0) && (SECTOR_ADDR x =? SECTOR_ADDR a)
           then 0xffffffff else nthZ ws (word_no x).
Proof.
  intros Hd Hio Ha Hv. pose proof Hd as (Hf & _ & _).
  destruct (sector_base_spec a Ha) as (Hb & Hs & H4).
  assert (Hin : forall l, 0 <= l < 0 + Z.of_nat (Z.to_nat (WORD_ADDR FLASH_SECTOR_SIZE)) ->
                in_bank b (sector_base a + 4 * l) 1).
  { intros l Hl. apply (sector_in_bank a); [done|]. revert Hl. change (WORD_ADDR _) with 65536. lia. }
  eexists _, _. split; [|split].
  - unfold block_erase. rewrite Hv, Z.eqb_refl.
    apply (operation_gives (erase_begin a) erase_end (sector_base a)); try done.
    + apply idle_device. cbn. rewrite Hf. apply Hio.
    + intros d1 Hd1. pose proof Hd1 as (Hf1 & _). cbv beta. rewrite Hf1. by apply erase_words_gives.
  - destruct (_ =? 0); io_fields Hio.
  - intros x Hx. rewrite Hs. destruct (_ =? 0); cbn [andb]; [|done].
    change (erase_latch_addr _) with (sector_base a).
    rewrite (erased_word _ _ _ d io) by done. rewrite sector_addr_base by done.
    change (WORD_ADDR _) with 65536. rewrite Z2Nat.id by lia.
    rewrite Z.mul_0_r, Z.add_0_r. done.
Qed.

(** The sixteen words from the start of the buffer lie in the bank. *)
Definition fits io : Prop := 4 * WORD_ADDR (pb_start (pb_state io)) + 64 <= bank_addr b + bank_len b.

Lemma word_addr_div a : WORD_ADDR a = a / 4.
Proof. unfold WORD_ADDR. by rewrite Z.shiftr_div_pow2. Qed.

Lemma buffer_confirm_words v d io ws :
  shows d io ws -> io_ok io -> Z.land v 0xff = WSM_CONFIRM ->
  in_bank b (progbuf_latch_addr io) 1 -> in_bank b (pb_start (pb_state io)) 1 -> fits io ->
  exists io' ws', gives (buffer_confirm v d) io' ws' /\ ended io io'
    /\ forall x, in_bank b x 1 ->
         nthZ ws' (word_no x)
         = if (nthZ (lock io) (SECTOR_ADDR (progbuf_latch_addr io)) =? 0)
              && (pb_start (pb_state io) / 4 <=? x / 4) && (x / 4 <? pb_start (pb_state io) / 4 + 16)
           then Z.land (nthZ ws (word_no x))
                  (nthZ (pb_buf (pb_state io)) (Z.land (x / 4) INTEL_WRITEBUFFER_MASK))
           else nthZ ws (word_no x).
Proof.
  intros Hd Hio Hv Hl Hs Hfit. pose proof Hd as (<- & _ & _). set (io := fio d) in *.
  set (p := pb_state io) in *.
  assert (Hin : forall k, WORD_ADDR (pb_start p) <= k < WORD_ADDR (pb_start p)
            + Z.of_nat (Z.to_nat INTEL_WRITEBUFFER_SIZE) -> in_bank b (4 * k) 1).
  { intros k. change (Z.of_nat _) with 16. unfold fits in Hfit. fold p in Hfit.
    rewrite word_addr_div in *. destruct Hd as (_ & _ & Hb).
    destruct (rb_addr _ _ _ Hb) as (_ & H4 & _). unfold in_bank in *.
    Z.div_mod_to_equations. lia. }
  eexists _, _. split; [|split].
  - unfold buffer_confirm. rewrite Hv, Z.eqb_refl.
    apply (operation_gives buffer_begin buffer_end (progbuf_latch_addr io)); try done.
    + apply idle_device. apply Hio.
    + intros d1 Hd1. pose proof Hd1 as (Hf1 & _). cbv beta. rewrite Hf1.
      apply copy_buffer_gives; [done|apply Hio|done].
  - destruct (_ =? 0); io_fields Hio.
  - intros x Hx. destruct (_ =? 0); cbn [andb]; [|done].
    change (pb_state (buffer_begin io)) with p. rewrite (anded_word _ _ _ d io) by (done || apply Hio).
    by rewrite word_addr_div.
Qed.

(** ** Commands and operands that do not touch the array *)

Lemma set_read_mode_ok io m : io_ok io -> read_mode_ok m -> io_ok (set_read_mode io m).
Proof. by intros [] Hm. Qed.

Lemma set_wsm_mode_ok io m :
  io_ok io -> wsm_mode_ok m -> m <> WSM_WRITE_BUFFER -> io_ok (set_wsm_mode io m).
Proof. by intros [] Hm Hne. Qed.

Lemma clear_status_ok io : io_ok io -> io_ok (clear_status io).
Proof. intros Hio. io_fields Hio. Qed.

Lemma write_buffer_begin_ok io : io_ok io -> io_ok (write_buffer_begin io).
Proof. intros Hio. io_fields Hio. by apply Forall_replicate. Qed.

Ltac mode_in := unfold read_mode_ok, wsm_mode_ok; repeat constructor.

Lemma init_wsm_ok io v : io_ok io -> io_ok (init_wsm io v).
Proof.
  intros Hio. assert (Es : suspend io = io).
  { unfold suspend. destruct (io_idle _ Hio) as (-> & -> & -> & _). done. }
  assert (Er : resume io = io).
  { unfold resume. destruct (io_unsuspended _ Hio) as (-> & -> & ->). done. }
  unfold init_wsm. rewrite Es, Er.
  repeat (destruct (_ =? _); cbn [orb]; try done);
    first [ by apply set_read_mode_ok; [|mode_in] | by apply set_wsm_mode_ok; [|mode_in|]
          | by apply clear_status_ok | by apply write_buffer_begin_ok ].
Qed.

Lemma buffer_error_ok io : io_ok io -> io_ok (buffer_error io).
Proof. intros Hio. io_fields Hio. Qed.

Lemma buffer_count_ok a v io :
  io_ok io -> wsm_mode io = WSM_WRITE_BUFFER -> pb_count (pb_state io) = 0 -> in_bank b a 1 ->
  io_ok (buffer_count a v io) /\ lock (buffer_count a v io) = lock io.
Proof.
  intros Hio Hm Hc Ha. pose proof (io_filling _ Hio Hm) as (Hl & _). rewrite Hc in Hl.
  assert (Hn : 0 <= Z.land v 0xff < 256).
  { change 0xff with (Z.ones 8). rewrite Z.land_ones by lia. by apply Z.mod_pos_bound. }
  unfold buffer_count.
  destruct (Z.ltb_spec INTEL_WRITEBUFFER_SIZE (Z.land v 0xff + 1)).
  { split; [|done]. io_fields Hio. }
  destruct (_ =? _); cbn [negb].
  2: { split; [|done]. io_fields Hio. }
  split; [|done]. io_fields Hio. intros _. unfold filling. cbn. split_and!; try lia; auto.
Qed.

Lemma buffer_load_ok a v io :
  io_ok io -> wsm_mode io = WSM_WRITE_BUFFER -> in_bank b a 1 -> is_u32 v ->
  pb_loaded (pb_state io) < pb_count (pb_state io) ->
  io_ok (buffer_load a v io) /\ lock (buffer_load a v io) = lock io.
Proof.
  intros Hio Hm Ha Hv Hlt. pose proof (io_filling _ Hio Hm) as (Hl & Hc & Hlat & Hst).
  unfold buffer_load. destruct (Z.eqb_spec (SECTOR_ADDR a) (SECTOR_ADDR (progbuf_latch_addr io)))
    as [Es|]; cbn [negb]; [|split; [by apply buffer_error_ok|done]].
  split; [|by destruct (_ =? 0)].
  destruct (Z.eqb_spec (pb_loaded (pb_state io)) 0) as [E0|E0]; io_fields Hio;
    try (by rewrite length_updZ); try (by apply updZ_Forall); intros _; unfold filling; cbn;
    split_and!; auto; try lia; intros _; auto; by apply Hst.
Qed.

(** The lock command sets one bit or clears them all. *)
Lemma lock_access_ok a v io :
  io_ok io -> in_bank b a 1 ->
  exists io', lock_access a v io = Val io' /\ io_ok io' /\ wsm_mode io' = WSM_READY
    /\ lock io' = if Z.land v 0xff =? 1 then updZ (lock io) (SECTOR_ADDR a) 1
                  else if Z.land v 0xff =? WSM_CONFIRM then replicate 128 0 else lock io.
Proof.
  intros Hio Ha. pose proof (sector_range a Ha) as Hr. unfold lock_access.
  pose proof (idle_device (set_read_mode (set_lock_busy io 1) WSM_READ_STATUS)
                (io_unsuspended _ Hio)) as Hs.
  pose proof (io_vpen _ Hio) as Hv. pose proof (io_lock _ Hio) as Hl.
  pose proof (io_lock_size _ Hio) as Hsz.
  destruct (Z.land v 0xff =? 1).
  { rewrite Hs. cbn [vpen set_read_mode set_lock_busy set_wflags]. rewrite Hv. cbn [Z.eqb Pos.eqb negb].
    unfold set_lock_at. cbn [lock set_read_mode set_lock_busy set_wflags]. rewrite Hl.
    rewrite (proj2 (Z.leb_le _ _)), (proj2 (Z.ltb_lt _ _)) by lia. cbn [andb rbind].
    eexists. split; [done|]. split; [|done]. io_fields Hio. by rewrite length_updZ. }
  destruct (Z.land v 0xff =? WSM_CONFIRM).
  { rewrite Hs. cbn [vpen set_read_mode set_lock_busy set_wflags]. rewrite Hv. cbn [Z.eqb Pos.eqb negb].
    unfold clear_locks. cbn [lock io_size set_read_mode set_lock_busy set_wflags].
    rewrite Hl, Hsz. cbn [rbind]. change (Z.to_nat (INTEL28F128J3A_SIZE / FLASH_SECTOR_SIZE)) with 128%nat.
    rewrite Nat.leb_refl. cbn [rbind].
    rewrite drop_ge by lia. rewrite app_nil_r.
    eexists. split; [done|]. split; [|done]. io_fields Hio. }
  eexists. split; [done|]. split; [|done]. io_fields Hio.
Qed.

(** ** One write *)

(** The next write may confirm the buffer; its sixteen words stick out of the bank. *)
Definition overhang io : Prop :=
  wsm_mode io = WSM_WRITE_BUFFER /\ pb_count (pb_state io) <> 0
  /\ pb_loaded (pb_state io) = pb_count (pb_state io) /\ ~ fits io.

(** The buffer starts at a multiple of its size. *)
Definition aligned io : Prop :=
  wsm_mode io = WSM_WRITE_BUFFER -> pb_loaded (pb_state io) <> 0 -> pb_start (pb_state io) mod 64 = 0.

(** The locked sectors keep their words. *)
Definition kept io (ws ws' : list Z) : Prop :=
  forall x, in_bank b x 1 -> nthZ (lock io) (SECTOR_ADDR x) <> 0 ->
    nthZ ws' (word_no x) = nthZ ws (word_no x).

Lemma write_buffer_step a v d io ws :
  shows d io ws -> io_ok io -> in_bank b a 1 -> is_u32 v ->
  wsm_mode io = WSM_WRITE_BUFFER -> ~ overhang io ->
  exists io' ws', gives (write_buffer a v d) io' ws' /\ io_ok io' /\ (aligned io -> kept io ws ws').
Proof.
  intros Hd Hio Ha Hv Hm Hov. pose proof Hd as (Hf & _ & _).
  destruct (io_filling _ Hio Hm) as (Hl & Hc & Hlat & Hst).
  unfold write_buffer. rewrite Hf. destruct (Z.eqb_spec (pb_count (pb_state io)) 0) as [E0|E0].
  { destruct (buffer_count_ok a v io) as [Hok _]; try done.
    eexists _, _. split; [by apply gives_on_fio|]. split; [done|]. by intros _ x. }
  destruct (Z.ltb_spec (pb_loaded (pb_state io)) (pb_count (pb_state io))) as [Hlt|Hge].
  { destruct (buffer_load_ok a v io) as [Hok _]; try done.
    eexists _, _. split; [by apply gives_on_fio|]. split; [done|]. by intros _ x. }
  assert (El : pb_loaded (pb_state io) = pb_count (pb_state io)) by lia.
  destruct (decide (Z.land v 0xff = WSM_CONFIRM)) as [Ec|Ec].
  2: { unfold buffer_confirm. rewrite (proj2 (Z.eqb_neq _ _) Ec).
       eexists _, _. split; [by apply gives_on_fio|]. split; [by apply buffer_error_ok|].
       by intros _ x. }
  destruct (Hst ltac:(lia)) as [Hsb Hss]. specialize (Hlat E0).
  destruct (buffer_confirm_words v d io ws) as (io' & ws' & Hg & Hend & Hws); try done.
  { destruct (decide (fits io)) as [|Hn]; [done|]. by destruct Hov. }
  exists io', ws'. split; [done|]. split; [apply Hend|]. intros Hal x Hx Hlock.
  rewrite Hws by done. destruct (Z.eqb_spec (nthZ (lock io) (SECTOR_ADDR (progbuf_latch_addr io))) 0)
    as [E|]; cbn [andb]; [|done].
  specialize (Hal Hm ltac:(lia)).
  destruct (Z.leb_spec (pb_start (pb_state io) / 4) (x / 4)),
    (Z.ltb_spec (x / 4) (pb_start (pb_state io) / 4 + 16)); cbn [andb]; try done.
  destruct Hlock. rewrite <- E, <- Hss. f_equal. unfold SECTOR_ADDR.
  rewrite !Z.shiftr_div_pow2 by done. change (2 ^ FLASH_SECTOR_SHIFT) with 0x40000.
  Z.div_mod_to_equations. lia.
Qed.

Lemma wsm_write_step a v d io ws :
  shows d io ws -> io_ok io -> in_bank b a 1 -> is_u32 v -> ~ overhang io ->
  exists io' ws', gives (wsm_write a v d) io' ws' /\ io_ok io' /\ (aligned io -> kept io ws ws').
Proof.
  intros Hd Hio Ha Hv Hov. pose proof Hd as (Hf & _ & _). unfold wsm_write. rewrite Hf.
  assert (Hsame : forall io', io_ok io' -> exists io'0 ws', gives (Val (set_fio d io')) io'0 ws'
            /\ io_ok io'0 /\ (aligned io -> kept io ws ws')).
  { intros io' Hio'. exists io', ws. split; [|split; [done|by intros _ x]].
    destruct Hd as (_ & Hw & Hb). by exists (set_fio d io'). }
  destruct (Z.eqb_spec (wsm_mode io) WSM_READY).
  { unfold on_fio. rewrite Hf. by apply Hsame, init_wsm_ok. }
  destruct (Z.eqb_spec (wsm_mode io) WSM_WRITE_BUFFER); [by apply write_buffer_step|].
  destruct (_ || _).
  { destruct (program_words a v d io ws) as (io' & ws' & Hg & Hend & Hws); try done.
    exists io', ws'. split; [done|]. split; [apply Hend|]. intros _ x Hx Hlock.
    rewrite Hws by done. destruct (Z.eqb_spec (nthZ (lock io) (SECTOR_ADDR a)) 0) as [E|]; [|done].
    cbn [andb]. destruct (Z.eqb_spec (x / 4) (a / 4)); [|done]. destruct Hlock. rewrite <- E.
    f_equal. unfold SECTOR_ADDR. rewrite !Z.shiftr_div_pow2 by done.
    change (2 ^ FLASH_SECTOR_SHIFT) with 0x40000. Z.div_mod_to_equations. lia. }
  destruct (Z.eqb_spec (wsm_mode io) WSM_BLOCK_ERASE).
  { destruct (decide (Z.land v 0xff = WSM_CONFIRM)) as [Ec|Ec].
    2: { unfold block_erase. rewrite (proj2 (Z.eqb_neq _ _) Ec). unfold on_fio. rewrite Hf.
         apply Hsame. io_fields Hio. }
    destruct (block_erase_words a v d io ws) as (io' & ws' & Hg & Hend & Hws); try done.
    exists io', ws'. split; [done|]. split; [apply Hend|]. intros _ x Hx Hlock.
    rewrite Hws by done. destruct (Z.eqb_spec (nthZ (lock io) (SECTOR_ADDR a)) 0) as [E|]; [|done].
    cbn [andb]. destruct (Z.eqb_spec (SECTOR_ADDR x) (SECTOR_ADDR a)) as [Es|]; [|done].
    destruct Hlock. by rewrite Es. }
  destruct (Z.eqb_spec (wsm_mode io) WSM_LOCK_ACCESS).
  { destruct (lock_access_ok a v io Hio Ha) as (io' & -> & Hok & _). cbn [rbind]. by apply Hsame. }
  destruct Hd as (_ & Hw & Hb). exists io, ws. split; [by exists d|]. split; [done|by intros _ x].
Qed.
End props.

(** * The Intel flash memory on the bus

    Sequences of bus writes to the bank of [FlashIntel]: the device stays inside its
    tables, locked sectors keep their words, and a sector erased and programmed through
    the buffer reads back. *)

#[export] Instance overhang_dec b io : Decision (overhang b io).
Proof. unfold overhang, fits. apply _. Defined.

Section bus.
Context {W : Type} `{Mach W} (i : nat) (b : mem_bank) (base dsize bigendSig : Z).
Implicit Types (d : intel_dev W) (io : flash_intel_io) (ops : list (Z * Z)).

(** The bank goes to flash.c, and the range of the device covers it. *)
Record on_board : Prop := {
  ob_bank : flash_bank b;
  ob_read : bank_read_op b = Some flash_read_fn;
  ob_write : bank_write_op b = Some flash_write_fn;
  ob_range : 0 <= base <= bank_addr b /\ bank_addr b + bank_len b <= base + dsize < 4294967296
}.

(** A program's writes of words. *)
Fixpoint flash_run ops d : result (intel_dev W) :=
  match ops with
  | [] => Val d
  | (a, v) :: ops =>
      let! (s, d) := intel_bus_write base dsize bigendSig 32 a v d in flash_run ops d
  end.

Definition op_in_bank (op : Z * Z) : Prop := in_bank b op.1 1 /\ is_u32 op.2.

Context (Hboard : on_board).

Lemma range_hit a :
  in_bank b a 1 -> dev_range (flash_intel_desc (W := W) base dsize bigendSig) a = true.
Proof.
  intros [H1 H2]. destruct (ob_range Hboard) as [Hb [Hd He]]. unfold dev_range.
  cbn [dev_size dev_base flash_intel_desc]. destruct (Z.eqb_spec dsize 0); [done|]. cbn [orb].
  rewrite u32_id by (unfold is_u32; lia).
  rewrite (proj2 (Z.leb_le _ _)), (proj2 (Z.ltb_lt _ _)) by lia. done.
Qed.

(** The look-up finds the bank and changes its cache only. *)
Lemma flash_bank_ptr d io ws a :
  shows i b d io ws -> in_bank b a 1 ->
  exists mc, bank_ptr (u32 a) (memmap (fmem d)) = Val (Some i, mc) /\ mem_banks mc !! i = Some b
    /\ shows i b (set_fmem d (set_memmap (fmem d) mc)) io ws.
Proof.
  intros Hd Ha. rewrite u32_id by (by eapply bank_u32). destruct Hd as (Hf & Hw & Hb).
  destruct (ram_bank_ptr _ _ _ a Hb Ha) as (mc & E & Hm & Hb'). by exists mc.
Qed.

Lemma board_write_word d io ws a v :
  shows i b d io ws -> in_bank b a 1 ->
  exists d0, shows i b d0 io ws
    /\ intel_bus_write base dsize bigendSig 32 a v d = (let! d' := wsm_write a v d0 in Val (0, d')).
Proof.
  intros Hd Ha. destruct (flash_bank_ptr d io ws a Hd Ha) as (mc & E & Hm & Hd0).
  eexists. split; [exact Hd0|]. unfold intel_bus_write, board_bus_write. rewrite E. cbn [rbind]. rewrite Hm, (ob_write Hboard).
  rewrite u32_id by (by eapply bank_u32).
  cbn [board_writer flash_write Z.eqb Pos.eqb]. unfold flash_write, flash_write_word.
  cbn [Z.eqb Pos.eqb dev_write devices flash_mach]. rewrite (range_hit a Ha).
  cbn [dev_write_word flash_intel_desc]. unfold flash_intel_write_word.
  by destruct (wsm_write a v _).
Qed.

Lemma board_read_word d io ws a :
  shows i b d io ws -> in_bank b a 1 -> read_mode io = WSM_READ_ARRAY ->
  exists d', shows i b d' io ws
    /\ intel_bus_read base dsize bigendSig 32 a d = Val (0, Some (nthZ ws (word_no b a)), d').
Proof.
  intros Hd Ha Hm. destruct (flash_bank_ptr d io ws a Hd Ha) as (mc & E & Hi & Hd0).
  destruct (array_read_word i b _ io ws a Hd0 Ha) as (d' & Er & Hd').
  exists d'. split; [done|]. unfold intel_bus_read, board_bus_read. rewrite E. cbn [rbind].
  rewrite Hi, (ob_read Hboard). rewrite u32_id by (by eapply bank_u32).
  cbn [board_reader]. unfold flash_read, flash_read_word.
  cbn [Z.eqb Pos.eqb dev_read devices flash_mach]. rewrite (range_hit a Ha).
  cbn [dev_read_word flash_intel_desc]. unfold flash_intel_read_word.
  destruct Hd0 as (Hf0 & _). rewrite Hf0, Hm, Z.eqb_refl, Er.
  cbn [rbind]. change (ADDR_HIT =? ADDR_NOHIT) with false. cbn [rbind negb].
  by rewrite (u32_id (nthZ ws _)) by (by eapply words_u32).
Qed.

(** ** Runs *)

Lemma flash_run_app xs ys d :
  flash_run (xs ++ ys) d = let! d := flash_run xs d in flash_run ys d.
Proof.
  revert d. induction xs as [|[a v] xs IH]; intros d; [done|]. cbn [flash_run app].
  destruct (intel_bus_write _ _ _ _ _ _ _) as [[s d1]| | |]; [apply IH|done..].
Qed.

Lemma run_cons a v ops d io ws io1 ws1 io2 ws2 :
  shows i b d io ws -> in_bank b a 1 ->
  (forall d, shows i b d io ws -> gives i b (wsm_write a v d) io1 ws1) ->
  (forall d, shows i b d io1 ws1 -> gives i b (flash_run ops d) io2 ws2) ->
  gives i b (flash_run ((a, v) :: ops) d) io2 ws2.
Proof.
  intros Hd Ha H1 H2. destruct (board_write_word d io ws a v Hd Ha) as (d0 & Hd0 & E).
  cbn [flash_run]. rewrite E. destruct (H1 d0 Hd0) as (d1 & -> & Hd1). by apply H2.
Qed.

Lemma flash_gives_app xs ys d io1 ws1 io2 ws2 :
  gives i b (flash_run xs d) io1 ws1 ->
  (forall d, shows i b d io1 ws1 -> gives i b (flash_run ys d) io2 ws2) ->
  gives i b (flash_run (xs ++ ys) d) io2 ws2.
Proof. intros H1 H2. rewrite flash_run_app. by eapply device_gives_bind. Qed.

(** One more write, whose outcome is known up to a property. *)
Lemma run_snoc xs a v d io ws (P : flash_intel_io -> list Z -> Prop) :
  gives i b (flash_run xs d) io ws -> in_bank b a 1 ->
  (forall d, shows i b d io ws -> exists io' ws', gives i b (wsm_write a v d) io' ws' /\ P io' ws') ->
  exists io' ws', gives i b (flash_run (xs ++ [(a, v)]) d) io' ws' /\ P io' ws'.
Proof.
  intros (d1 & E1 & Hd1) Ha Hw. destruct (board_write_word d1 io ws a v Hd1 Ha) as (d0 & Hd0 & E).
  destruct (Hw d0 Hd0) as (io' & ws' & (d' & Ew & Hd') & HP).
  exists io', ws'. split; [|done]. exists d'. split; [|done].
  rewrite flash_run_app, E1. cbn [rbind flash_run]. by rewrite E, Ew.
Qed.

(** An aligned buffer does not stick out of the bank. *)
Lemma aligned_fits io : io_ok b io -> aligned io -> ~ overhang b io.
Proof.
  intros Hio Hal (Hm & Hc & Hl & Hfit). destruct (ob_bank Hboard) as [[H0 H1] [H2 H3] H4].
  destruct (io_filling _ _ Hio Hm) as (_ & _ & _ & Hst).
  destruct (Hst ltac:(lia)) as [[Hs1 Hs2] _]. specialize (Hal Hm ltac:(lia)). apply Hfit.
  unfold fits. rewrite word_addr_div. unfold FLASH_SECTOR_SIZE in *.
  Z.div_mod_to_equations. lia.
Qed.

(** The states a run goes through. *)
Definition all_along (P : intel_dev W -> Prop) ops d : Prop :=
  forall pre post d1, ops = pre ++ post -> flash_run pre d = Val d1 -> P d1.

Lemma all_along_head P ops d : all_along P ops d -> P d.
Proof. intros HP. by apply (HP [] ops). Qed.

Lemma all_along_tail P a v ops d s d1 :
  all_along P ((a, v) :: ops) d -> intel_bus_write base dsize bigendSig 32 a v d = Val (s, d1) ->
  all_along P ops d1.
Proof.
  intros HP E pre post d2 -> Hr. apply (HP ((a, v) :: pre) post); [done|]. cbn [flash_run].
  by rewrite E.
Qed.

Lemma all_along_nil P d : P d -> all_along P [] d.
Proof. intros HP [|] post d1 E; [|done]. by intros [= <-]. Qed.

Lemma all_along_cons P a v ops d :
  P d -> (forall s d1, intel_bus_write base dsize bigendSig 32 a v d = Val (s, d1) -> all_along P ops d1) ->
  all_along P ((a, v) :: ops) d.
Proof.
  intros HP Hrest [|op pre] post d1 E Hr; [by injection Hr as <-|].
  cbn [app] in E. injection E as <- E. cbn [flash_run] in Hr.
  destruct (intel_bus_write _ _ _ _ _ _ _) as [[s d2]| | |] eqn:Ew; try done.
  by apply (Hrest s d2 eq_refl pre post).
Qed.

(** The same for a write whose outcome is known. *)
Lemma all_along_step P a v ops d io ws io1 ws1 :
  shows i b d io ws -> in_bank b a 1 -> P d ->
  (forall d, shows i b d io ws -> gives i b (wsm_write a v d) io1 ws1) ->
  (forall d, shows i b d io1 ws1 -> all_along P ops d) -> all_along P ((a, v) :: ops) d.
Proof.
  intros Hd Ha HP Hw Hrest. apply all_along_cons; [done|]. intros s d1 E.
  destruct (board_write_word d io ws a v Hd Ha) as (d0 & Hd0 & E').
  destruct (Hw d0 Hd0) as (d2 & Ew & Hd2). rewrite Ew in E'. cbn [rbind] in E'.
  rewrite E' in E. injection E as <- <-. by apply Hrest.
Qed.

Lemma all_along_last P a v d io ws :
  shows i b d io ws -> in_bank b a 1 -> P d ->
  (forall d, shows i b d io ws ->
     exists io' ws', gives i b (wsm_write a v d) io' ws' /\ forall d', fio d' = io' -> P d') ->
  all_along P [(a, v)] d.
Proof.
  intros Hd Ha HP Hw. apply all_along_cons; [done|]. intros s d1 E.
  destruct (board_write_word d io ws a v Hd Ha) as (d0 & Hd0 & E').
  destruct (Hw d0 Hd0) as (io' & ws' & (d2 & Ew & Hf2 & _) & HP'). rewrite Ew in E'.
  cbn [rbind] in E'. rewrite E' in E. injection E as <- <-. by apply all_along_nil, HP'.
Qed.

(** One write on the bus. *)
Lemma board_step d a v :
  flash_ok i b d -> in_bank b a 1 -> is_u32 v -> ~ overhang b (fio d) ->
  exists d', intel_bus_write base dsize bigendSig 32 a v d = Val (0, d') /\ flash_ok i b d'
    /\ (aligned (fio d) -> kept b (fio d) (words i d) (words i d')).
Proof.
  intros [Hio Hb] Ha Hv Hov. assert (Hd : shows i b d (fio d) (words i d)) by done.
  destruct (board_write_word _ _ _ a v Hd Ha) as (d0 & Hd0 & ->).
  destruct (wsm_write_step i b (ob_bank Hboard) a v d0 _ _ Hd0 Hio Ha Hv Hov)
    as (io' & ws' & (d' & -> & Hd') & Hio' & Hk).
  exists d'. cbn [rbind]. destruct Hd' as (Hf' & Hw' & Hb'). split; [done|]. split.
  - split; [by rewrite Hf'|done].
  - by rewrite Hw'.
Qed.


(** C19: while a sector is locked, no sequence of writes of words to the flash memory changes
    a word of it, if the buffers that are filled start at multiples of their size; and the
    sequence completes. *)
Theorem locked_sector_kept n ops d :
  flash_ok i b d -> Forall op_in_bank ops ->
  all_along (fun d => aligned (fio d) /\ nthZ (lock (fio d)) n <> 0) ops d ->
  exists d', flash_run ops d = Val d' /\ flash_ok i b d'
    /\ forall x, in_bank b x 1 -> SECTOR_ADDR x = n ->
         nthZ (words i d') (word_no b x) = nthZ (words i d) (word_no b x).
Proof.
  revert d. induction ops as [|[a v] ops IH]; intros d Hd Hops Hall; [by exists d|].
  apply Forall_cons in Hops as [[Ha Hv] Hops].
  destruct (all_along_head _ _ _ Hall) as [Hal Hlock].
  destruct (board_step d a v Hd Ha Hv) as (d1 & E & Hd1 & Hk); [apply aligned_fits; [apply Hd|done]|].
  destruct (IH d1 Hd1 Hops) as (d' & Hr & Hd' & Hws); [by eapply all_along_tail|].
  exists d'. cbn [flash_run]. rewrite E. cbn [rbind]. split; [done|]. split; [done|].
  intros x Hx Hn. rewrite Hws by done. apply Hk; [done|done|by rewrite Hn].
Qed.

(** ** Erase, program, read *)

Definition erase_ops (a : Z) : list (Z * Z) := [(a, WSM_BLOCK_ERASE); (a, WSM_CONFIRM)].
Fixpoint load_ops (a : Z) (data : list Z) : list (Z * Z) :=
  match data with [] => [] | v :: data => (a, v) :: load_ops (a + 4) data end.
Definition buffer_ops (a : Z) (data : list Z) : list (Z * Z) :=
  [(a, WSM_WRITE_BUFFER); (a, Z.of_nat (length data) - 1)] ++ load_ops a data ++ [(a, WSM_CONFIRM)].

(** The buffer after some of its words. *)
Record buffer_loaded io0 (a : Z) (n : nat) (got : list Z) io : Prop := {
  ld_ok : io_ok b io;
  ld_lock : lock io = lock io0;
  ld_wsm : wsm_mode io = WSM_WRITE_BUFFER;
  ld_count : pb_count (pb_state io) = Z.of_nat n;
  ld_loaded : pb_loaded (pb_state io) = Z.of_nat (length got);
  ld_latch : progbuf_latch_addr io = a;
  ld_start : got <> [] -> pb_start (pb_state io) = a;
  ld_buf : pb_buf (pb_state io) = got ++ replicate (16 - length got) 0xffffffff
}.

Lemma block_index a k : a mod 64 = 0 -> 0 <= k < 16 ->
  Z.land (WORD_ADDR (a + 4 * k)) INTEL_WRITEBUFFER_MASK = k
  /\ SECTOR_ADDR (a + 4 * k) = SECTOR_ADDR a.
Proof.
  intros Ha Hk. rewrite word_addr_div. change INTEL_WRITEBUFFER_MASK with (Z.ones 4).
  rewrite Z.land_ones by lia. change (2 ^ 4) with 16. unfold SECTOR_ADDR.
  rewrite !Z.shiftr_div_pow2 by done. change (2 ^ FLASH_SECTOR_SHIFT) with 0x40000.
  Z.div_mod_to_equations. lia.
Qed.

Lemma buffer_put got v :
  (length got < 16)%nat ->
  updZ (got ++ replicate (16 - length got) 0xffffffff) (Z.of_nat (length got)) v
  = (got ++ [v]) ++ replicate (16 - length (got ++ [v])) 0xffffffff.
Proof.
  intros Hl. unfold updZ. rewrite (proj2 (Z.leb_le _ _)) by lia. rewrite Nat2Z.id.
  rewrite insert_app_r_alt, Nat.sub_diag by lia. rewrite <- app_assoc. f_equal.
  rewrite length_app. cbn [length]. replace (16 - length got)%nat with (S (16 - (length got + 1))) by lia.
  done.
Qed.

Lemma load_next io0 a n got v io :
  buffer_loaded io0 a n got io -> a mod 64 = 0 -> in_bank b a 64 -> is_u32 v ->
  (length got < n)%nat -> (n <= 16)%nat ->
  buffer_loaded io0 a n (got ++ [v]) (buffer_load (a + 4 * Z.of_nat (length got)) v io).
Proof.
  intros [Hok Hlock Hm Hc Hl Hlat Hs Hbuf] Ha [Hin1 Hin2] Hv Hlt Hn.
  destruct (block_index a (Z.of_nat (length got)) Ha ltac:(lia)) as [Hi Hsec].
  destruct (buffer_load_ok b (a + 4 * Z.of_nat (length got)) v io Hok Hm) as [Hok' _];
    [unfold in_bank; lia|done|lia|].
  split; [exact Hok'|..].
  all: unfold buffer_load; rewrite Hsec, Hlat, Z.eqb_refl; cbn [negb].
  all: destruct (Z.eqb_spec (pb_loaded (pb_state io)) 0) as [E|E]; cbn.
  all: try done; try (rewrite length_app; cbn; lia); try (rewrite Hbuf, Hi; by apply buffer_put; lia).
  - intros _. lia.
  - intros _. apply Hs. intros ->. by cbn in Hl.
Qed.

Fixpoint fill (a : Z) (data : list Z) io : flash_intel_io :=
  match data with [] => io | v :: data => fill (a + 4) data (buffer_load a v io) end.

Lemma loads io0 a n got data d io ws :
  shows i b d io ws -> buffer_loaded io0 a n got io -> a mod 64 = 0 -> in_bank b a 64 ->
  Forall is_u32 data -> (length got + length data = n)%nat -> (n <= 16)%nat ->
  let x := a + 4 * Z.of_nat (length got) in
  gives i b (flash_run (load_ops x data) d) (fill x data io) ws
  /\ buffer_loaded io0 a n (got ++ data) (fill x data io).
Proof.
  intros Hd Hl Ha Hin Hdata. revert got d io Hd Hl. induction data as [|v data IH];
    intros got d io Hd Hl Hn Hn16 x.
  { rewrite app_nil_r. split; [by exists d|done]. }
  apply Forall_cons in Hdata as [Hv Hdata]. cbn [load_ops fill length] in *.
  pose proof (load_next _ _ _ _ v _ Hl Ha Hin Hv ltac:(lia) Hn16) as Hl1. fold x in Hl1.
  assert (Hx : in_bank b x 1) by (unfold in_bank in *; lia).
  assert (Ew : forall d, shows i b d io ws -> gives i b (wsm_write x v d) (buffer_load x v io) ws).
  { intros d0 Hd0. destruct Hl as [Hok _ Hm Hc Hld _ _ _]. pose proof Hd0 as (Hf0 & _).
    unfold wsm_write, write_buffer.
    rewrite Hf0, Hm, Hc, Hld. change (WSM_WRITE_BUFFER =? WSM_READY) with false. rewrite Z.eqb_refl.
    rewrite (proj2 (Z.eqb_neq _ _)), (proj2 (Z.ltb_lt _ _)) by lia. by apply gives_on_fio. }
  assert (En : (length (got ++ [v]) + length data)%nat = n) by (rewrite length_app; cbn; lia).
  assert (E4 : a + 4 * Z.of_nat (length (got ++ [v])) = x + 4)
    by (rewrite length_app; cbn [length]; lia).
  pose proof (fun d Hd => IH Hdata (got ++ [v]) d _ Hd Hl1 En Hn16) as IH'.
  rewrite E4 in IH'. rewrite <- app_assoc in IH'. split.
  - eapply run_cons; [exact Hd|done|exact Ew|]. intros d1 Hd1. by apply IH'.
  - destruct (Ew d Hd) as (d1 & _ & Hd1). by apply (IH' d1).
Qed.

Lemma buffer_counted a n io :
  io_ok b io -> in_bank b a 64 -> a mod 64 = 0 -> (1 <= n <= 16)%nat ->
  buffer_loaded io a n [] (buffer_count a (Z.of_nat n - 1) (write_buffer_begin io)).
Proof.
  intros Hio Hin Ha Hn. pose proof (write_buffer_begin_ok b io Hio) as Hio1.
  pose proof (fb_end _ (ob_bank Hboard)). destruct (fb_addr _ (ob_bank Hboard)) as [Hb0 _].
  destruct (buffer_count_ok b a (Z.of_nat n - 1) _ Hio1) as [Hok Hlk];
    [done|done|unfold in_bank in *; lia|].
  revert Hok Hlk. unfold buffer_count.
  assert (En : Z.land (Z.of_nat n - 1) 0xff + 1 = Z.of_nat n).
  { change 0xff with (Z.ones 8). rewrite Z.land_ones, Z.mod_small by lia. lia. }
  rewrite En. rewrite (proj2 (Z.ltb_ge _ _)) by (change INTEL_WRITEBUFFER_SIZE with 16; lia).
  assert (Es : SECTOR_ADDR (u32 (a + Z.of_nat n - 1)) = SECTOR_ADDR a).
  { rewrite u32_id by (unfold is_u32, in_bank, INTEL28F128J3A_SIZE in *; lia).
    unfold SECTOR_ADDR. rewrite !Z.shiftr_div_pow2 by done.
    change (2 ^ FLASH_SECTOR_SHIFT) with 0x40000. Z.div_mod_to_equations. lia. }
  rewrite Es, Z.eqb_refl. cbn [negb]. intros Hok Hlk. by split.
Qed.

(** The word the buffer holds for an address of its block. *)
Lemma buffer_word a data x :
  a mod 64 = 0 -> (length data <= 16)%nat -> a <= x < a + 64 ->
  nthZ (data ++ replicate (16 - length data) 0xffffffff) (Z.land (x / 4) INTEL_WRITEBUFFER_MASK)
  = if x <? a + 4 * Z.of_nat (length data) then nthZ data ((x - a) / 4) else 0xffffffff.
Proof.
  intros Ha Hn Hx. change INTEL_WRITEBUFFER_MASK with (Z.ones 4). rewrite Z.land_ones by lia.
  change (2 ^ 4) with 16. replace ((x / 4) mod 16) with ((x - a) / 4) by (Z.div_mod_to_equations; lia).
  set (k := (x - a) / 4). assert (Hk : 0 <= k < 16) by (unfold k; Z.div_mod_to_equations; lia).
  unfold nthZ. rewrite (proj2 (Z.leb_le 0 k)), !nth_lookup_Z by lia.
  destruct (Z.ltb_spec x (a + 4 * Z.of_nat (length data))).
  - by rewrite lookup_app_l by (unfold k; Z.div_mod_to_equations; lia).
  - assert (Hge : Z.of_nat (length data) <= k) by (unfold k; Z.div_mod_to_equations; lia).
    rewrite lookup_app_r, lookup_replicate_2 by lia. done.
Qed.

Lemma buffer_opened a n d io ws :
  shows i b d io ws -> wsm_mode io = WSM_READY -> in_bank b a 1 ->
  gives i b (flash_run [(a, WSM_WRITE_BUFFER); (a, Z.of_nat n - 1)] d)
    (buffer_count a (Z.of_nat n - 1) (write_buffer_begin io)) ws.
Proof.
  intros Hd Hm Ha.
  apply run_cons with (io := io) (ws := ws) (io1 := write_buffer_begin io) (ws1 := ws); [done|done|..].
  - intros d1 Hd1. pose proof Hd1 as (Hf1 & _). unfold wsm_write. rewrite Hf1, Hm, Z.eqb_refl.
    exact (gives_on_fio i b (fun io => init_wsm io WSM_WRITE_BUFFER) d1 io ws Hd1).
  - intros d1 Hd1. apply run_cons with (io := write_buffer_begin io) (ws := ws)
      (io1 := buffer_count a (Z.of_nat n - 1) (write_buffer_begin io)) (ws1 := ws);
      [done|done| |by intros d2 Hd2; exists d2].
    intros d2 Hd2. pose proof Hd2 as (Hf2 & _). unfold wsm_write, write_buffer. rewrite Hf2.
    exact (gives_on_fio i b (buffer_count a (Z.of_nat n - 1)) d2 _ ws Hd2).
Qed.

Lemma buffer_filled a data d io ws :
  shows i b d io ws -> io_ok b io -> wsm_mode io = WSM_READY -> a mod 64 = 0 -> in_bank b a 64 ->
  Forall is_u32 data -> (1 <= length data <= 16)%nat ->
  exists io3, buffer_loaded io a (length data) data io3
    /\ gives i b (flash_run ([(a, WSM_WRITE_BUFFER); (a, Z.of_nat (length data) - 1)]
                             ++ load_ops a data) d) io3 ws.
Proof.
  intros Hd Hio Hm Ha Hin Hdata Hn.
  assert (Ha1 : in_bank b a 1) by (unfold in_bank in *; lia).
  pose proof (buffer_counted a (length data) io Hio Hin Ha Hn) as Hl2.
  destruct (buffer_opened a (length data) d io ws Hd Hm Ha1) as (d2 & E2 & Hd2).
  pose proof (loads io a (length data) [] data d2 _ ws Hd2 Hl2 Ha Hin Hdata) as Hlo.
  cbn [length Z.of_nat Z.mul app] in Hlo. rewrite Z.add_0_r in Hlo.
  destruct Hlo as [Hg Hl3]; [lia|lia|]. eexists. split; [exact Hl3|].
  rewrite flash_run_app, E2. exact Hg.
Qed.

(** A buffer of words programmed at a multiple of 64: each word of it is and-ed to the one
    in the array. *)
Lemma buffer_program a data d io ws :
  shows i b d io ws -> io_ok b io -> wsm_mode io = WSM_READY ->
  nthZ (lock io) (SECTOR_ADDR a) = 0 -> a mod 64 = 0 -> in_bank b a 64 ->
  Forall is_u32 data -> (1 <= length data <= 16)%nat ->
  exists io' ws', gives i b (flash_run (buffer_ops a data) d) io' ws' /\ ended b io io'
    /\ forall x, in_bank b x 1 ->
         nthZ ws' (word_no b x)
         = if (a <=? x) && (x <? a + 4 * Z.of_nat (length data))
           then Z.land (nthZ ws (word_no b x)) (nthZ data ((x - a) / 4)) else nthZ ws (word_no b x).
Proof.
  intros Hd Hio Hm Hlock Ha Hin Hdata Hn.
  destruct (buffer_filled a data d io ws) as (io3 & Hl3 & Hg3); try done.
  unfold buffer_ops. rewrite app_assoc. apply run_snoc with (io := io3) (ws := ws); [done| |].
  { unfold in_bank in *. lia. }
  intros d3 Hd3. destruct Hl3 as [Hok Hlk Hw3 Hc Hl Hlat Hst Hbuf].
  assert (Es : pb_start (pb_state io3) = a) by (apply Hst; intros ->; cbn in Hn; lia).
  destruct (buffer_confirm_words i b (ob_bank Hboard) WSM_CONFIRM d3 io3 ws)
    as (io' & ws' & Hg & [Hok' Hlk' Hwsm' Hrd'] & Hws); try done.
  { rewrite Hlat. unfold in_bank in *. lia. }
  { rewrite Es. unfold in_bank in *. lia. }
  { unfold fits. rewrite Es, word_addr_div. unfold in_bank in *. Z.div_mod_to_equations. lia. }
  exists io', ws'. split; [|split; [split; congruence|]].
  { destruct Hd3 as (Hf3 & Hd3). unfold wsm_write, write_buffer. rewrite Hf3, Hw3, Hc, Hl.
    change (WSM_WRITE_BUFFER =? WSM_READY) with false. rewrite Z.eqb_refl.
    rewrite (proj2 (Z.eqb_neq _ _)), (proj2 (Z.ltb_ge _ _)) by lia. done. }
  intros x Hx. rewrite Hws, Hlat, Hlk, Hlock, Es, Hbuf by done. cbn [andb Z.eqb].
  assert (Hold : Z.land (nthZ ws (word_no b x)) 0xffffffff = nthZ ws (word_no b x)).
  { change 0xffffffff with (Z.ones 32). rewrite Z.land_ones by lia.
    apply Z.mod_small. by eapply words_u32. }
  destruct (Z.leb_spec (a / 4) (x / 4)), (Z.ltb_spec (x / 4) (a / 4 + 16)); cbn [andb].
  { rewrite (buffer_word a) by (done || lia || (Z.div_mod_to_equations; lia)).
    rewrite (proj2 (Z.leb_le a x)) by (Z.div_mod_to_equations; lia). cbn [andb].
    by destruct (x <? _). }
  all: destruct (Z.leb_spec a x), (Z.ltb_spec x (a + 4 * Z.of_nat (length data))); cbn [andb];
    try done; exfalso; Z.div_mod_to_equations; lia.
Qed.

Lemma erase_program a d io ws :
  shows i b d io ws -> io_ok b io -> wsm_mode io = WSM_READY ->
  nthZ (lock io) (SECTOR_ADDR a) = 0 -> in_bank b a 1 ->
  exists io' ws', gives i b (flash_run (erase_ops a) d) io' ws' /\ ended b io io'
    /\ forall x, in_bank b x 1 ->
         nthZ ws' (word_no b x)
         = if SECTOR_ADDR x =? SECTOR_ADDR a then 0xffffffff else nthZ ws (word_no b x).
Proof.
  intros Hd Hio Hm Hlock Ha. set (io1 := set_wsm_mode io WSM_BLOCK_ERASE).
  assert (Hio1 : io_ok b io1) by (apply set_wsm_mode_ok; [done|unfold wsm_mode_ok; repeat constructor|done]).
  change (erase_ops a) with ([(a, WSM_BLOCK_ERASE)] ++ [(a, WSM_CONFIRM)]).
  apply run_snoc with (io := io1) (ws := ws); [|done|].
  - apply run_cons with (io := io) (ws := ws) (io1 := io1) (ws1 := ws);
      [done|done| |by intros d1 Hd1; exists d1].
    intros d1 Hd1. pose proof Hd1 as (Hf1 & _). unfold wsm_write. rewrite Hf1, Hm, Z.eqb_refl.
    exact (gives_on_fio i b (fun io => init_wsm io WSM_BLOCK_ERASE) d1 io ws Hd1).
  - intros d1 Hd1. pose proof Hd1 as (Hf1 & _). unfold wsm_write. rewrite Hf1.
    destruct (block_erase_words i b (ob_bank Hboard) a WSM_CONFIRM d1 io1 ws)
      as (io' & ws' & Hg & [Hok Hlk Hwsm Hrd] & Hws); try done.
    exists io', ws'. split; [exact Hg|]. split; [by split|]. intros x Hx.
    rewrite Hws by done. change (lock io1) with (lock io). by rewrite Hlock.
Qed.

Lemma read_array_op a d io ws :
  shows i b d io ws -> io_ok b io -> wsm_mode io = WSM_READY -> in_bank b a 1 ->
  gives i b (flash_run [(a, WSM_READ_ARRAY)] d) (set_read_mode io WSM_READ_ARRAY) ws.
Proof.
  intros Hd Hio Hm Ha.
  apply run_cons with (io := io) (ws := ws) (io1 := set_read_mode io WSM_READ_ARRAY) (ws1 := ws);
    [done|done| |by intros d1 Hd1; exists d1].
  intros d1 Hd1. pose proof Hd1 as (Hf1 & _). unfold wsm_write. rewrite Hf1, Hm, Z.eqb_refl.
  exact (gives_on_fio i b (fun io => init_wsm io WSM_READ_ARRAY) d1 io ws Hd1).
Qed.

(** C17: after a program on the bus erases an unlocked sector, programs up to sixteen words
    through the write buffer at a multiple of its size and goes back to reading the array,
    a bus read of any word of the flash memory gives the word programmed there, all ones
    elsewhere in the sector, and in the other sectors the word that was there before. *)
Theorem erase_program_read a data d :
  flash_ok i b d -> wsm_mode (fio d) = WSM_READY -> nthZ (lock (fio d)) (SECTOR_ADDR a) = 0 ->
  a mod 64 = 0 -> in_bank b a 64 -> Forall is_u32 data -> (1 <= length data <= 16)%nat ->
  exists d',
    flash_run (erase_ops a ++ buffer_ops a data ++ [(a, WSM_READ_ARRAY)]) d = Val d'
    /\ flash_ok i b d'
    /\ forall x, in_bank b x 1 ->
         exists d'',
           intel_bus_read base dsize bigendSig 32 x d'
           = Val (0, Some (if (a <=? x) && (x <? a + 4 * Z.of_nat (length data))
                           then nthZ data ((x - a) / 4)
                           else if SECTOR_ADDR x =? SECTOR_ADDR a then 0xffffffff
                           else nthZ (words i d) (word_no b x)), d'').
Proof.
  intros [Hio Hb] Hm Hlock Ha Hin Hdata Hn.
  assert (Ha1 : in_bank b a 1) by (unfold in_bank in *; lia).
  assert (Hd : shows i b d (fio d) (words i d)) by done.
  destruct (erase_program a d _ _ Hd Hio Hm Hlock Ha1)
    as (io1 & ws1 & (d1 & E1 & Hd1) & [Hok1 Hlk1 Hw1 _] & Hws1).
  destruct (buffer_program a data d1 io1 ws1) as (io2 & ws2 & (d2 & E2 & Hd2) & [Hok2 _ Hw2 _] & Hws2);
    try done; [by rewrite Hlk1|].
  destruct (read_array_op a d2 io2 ws2 Hd2 Hok2 Hw2 Ha1) as (d3 & E3 & Hd3).
  exists d3. split; [|split].
  - rewrite !flash_run_app, E1. cbn [rbind]. by rewrite flash_run_app, E2.
  - destruct Hd3 as (Hf3 & _ & Hb3). split; [|done]. rewrite Hf3.
    apply set_read_mode_ok; [done|unfold read_mode_ok; repeat constructor].
  - intros x Hx. destruct (board_read_word d3 _ _ x Hd3 Hx) as (d4 & _ & Er); [done|].
    exists d4. rewrite Er, Hws2, Hws1 by done. do 4 f_equal.
    destruct (Z.leb_spec a x), (Z.ltb_spec x (a + 4 * Z.of_nat (length data))); cbn [andb]; try done.
    destruct (block_index a ((x - a) / 4) Ha ltac:(Z.div_mod_to_equations; lia)) as [_ Es].
    assert (Es' : SECTOR_ADDR x = SECTOR_ADDR a).
    { rewrite <- Es. unfold SECTOR_ADDR. rewrite !Z.shiftr_div_pow2 by done.
      change (2 ^ FLASH_SECTOR_SHIFT) with 0x40000. Z.div_mod_to_equations. lia. }
    rewrite Es', Z.eqb_refl, Z.land_comm. change 0xffffffff with (Z.ones 32).
    rewrite Z.land_ones by lia. apply Z.mod_small. change (is_u32 (nthZ data ((x - a) / 4))).
    apply nthZ_Forall; [unfold is_u32; lia|done].
Qed.
End bus.
