(* ===== verification/FlashAmd.v ===== *)
(** * The AMD Am29LV and SST39LF/VF160 flash memories

    src/device/flash/dev_flash_am29.c and dev_flash_sst39lvf160.c with their headers, and
    their part of skyeye_flash.c.  Both devices recognise commands by the sequence of the
    last write cycles, and both reach their contents through [bus_read] and [bus_write],
    which lead back to the device itself: the functions take the two as arguments, and
    [bus_at] ties the knot for a stack of a given depth. *)

From Stdlib Require Import ZArith Lia Bool String.
From stdpp Require Import base numbers option list.
From S2P Require Import Prelude Words Bus Memory FlashBoard FlashIntel.

(** ** Write cycles *)

Record flash_bus : Type := { cy_addr : Z; cy_data : Z }.

Definition no_cycle : flash_bus := {| cy_addr := 0; cy_data := 0 |}.
Definition no_cycles : list flash_bus := replicate 6 no_cycle.

(** [bus[n].addr == o && bus[n].data == v] *)
Definition CMD_CHECK (l : list flash_bus) (n : nat) (o v : Z) : bool :=
  let c := nth n l no_cycle in (cy_addr c =? o) && (cy_data c =? v).

(** [bus[n] = c] *)
Definition put_cycle (l : list flash_bus) (n : Z) (c : flash_bus) : result (list flash_bus) :=
  if (0 <=? n) && (n <? Z.of_nat (List.length l)) then Val (<[Z.to_nat n := c]> l) else Undef.

(** [for (addr = start; addr < end; addr += 4) bus_write (32, addr, 0xffffffff)], with one
    unit of fuel per word, which is enough unless the end is in the last word of the address
    space, where the loop of the code does not end. *)
Fixpoint erase_range {D} (bwrite : Z -> Z -> Z -> D -> result (Z * D)) (fuel : nat) (addr stop : Z)
    (d : D) : result D :=
  match fuel with
  | O => if addr <? stop then Undef else Val d
  | S fuel =>
      if addr <? stop then
        let! (s, d) := bwrite 32 addr 0xffffffff d in
        erase_range bwrite fuel (u32 (addr + 4)) stop d
      else Val d
  end.
Definition erase_fuel (start stop : Z) : nat := Z.to_nat ((stop - start + 3) / 4).

(** The range an erase command names: none gives an empty one, and a range outside the chip
    prints a message. *)
Definition erase_checked {D} (bwrite : Z -> Z -> Z -> D -> result (Z * D)) (base chip start stop : Z)
    (d : D) : result D :=
  if (start <? stop) && (stop <=? u32 (base + chip))
  then erase_range bwrite (erase_fuel start stop) start stop d else Val d.

(** ** Am29LV *)

(** The two widths of the bus have command state of their own: [bcnt], [n_bbus], [bbus] and
    [wcnt], [n_wbus], [wbus]. *)
Record cmd_state : Type := { cnt : Z; n_bus : Z; bus : list flash_bus }.

Definition cmd_reset : cmd_state := {| cnt := 0; n_bus := 0; bus := no_cycles |}.
Definition rewind (c : cmd_state) : cmd_state := {| cnt := cnt c; n_bus := 0; bus := bus c |}.

(** The command addresses of a byte-wide and of a word-wide bus. *)
Definition byte_unlock : Z * Z := (0xaaa, 0x555).
Definition word_unlock : Z * Z := (0x555, 0x2aa).

Section commands.
Context (u : Z * Z) (c : cmd_state).

Definition CMD_UNLOCKED : bool := CMD_CHECK (bus c) 0 u.1 0xaa && CMD_CHECK (bus c) 1 u.2 0x55.
Definition CMD_PROGRAM : bool := (cnt c =? 3) && CMD_UNLOCKED && CMD_CHECK (bus c) 2 u.1 0xa0.
Definition CMD_ERASE : bool :=
  (cnt c =? 5) && CMD_UNLOCKED && CMD_CHECK (bus c) 2 u.1 0x80
  && CMD_CHECK (bus c) 3 u.1 0xaa && CMD_CHECK (bus c) 4 u.2 0x55.
Definition CMD_AUTOSELCT : bool := (cnt c =? 3) && CMD_UNLOCKED && CMD_CHECK (bus c) 2 u.1 0x90.
Definition CMD_QUERY (o : Z) : bool := (cnt c =? 1) && CMD_CHECK (bus c) 0 o 0x98.
Definition CMD_UNLOCK_BYPASS : bool := (cnt c =? 3) && CMD_UNLOCKED && CMD_CHECK (bus c) 2 u.1 0x20.
Definition CMD_UNLOCK_BYPASS_PROGRAM_RESET : bool :=
  let first := cy_data (nth 0 (bus c) no_cycle) in
  (cnt c =? 2) && (first =? 0xa0) || (first =? 0x90).
End commands.

(** The functions the pointers [bautoselect] and [wautoselect] are set to. *)
Inductive autoselect : Type := lv160_bautoselect | lv160_wautoselect | lv800_bautoselect | lv800_wautoselect.

Record flash_am29_io : Type := {
  am_type : string;
  bytes : cmd_state;
  halves : cmd_state;
  query : option (list Z);  (* with [max_query] entries *)
  bautoselect : option autoselect;
  wautoselect : option autoselect;
  chip_size : Z;
  sector_size : Z;
  dump_cnt : Z;
  dump_flags : Z
}.

Definition set_bytes io c : flash_am29_io :=
  {| am_type := am_type io; bytes := c; halves := halves io; query := query io;
     bautoselect := bautoselect io; wautoselect := wautoselect io; chip_size := chip_size io;
     sector_size := sector_size io; dump_cnt := dump_cnt io; dump_flags := dump_flags io |}.
Definition set_halves io c : flash_am29_io :=
  {| am_type := am_type io; bytes := bytes io; halves := c; query := query io;
     bautoselect := bautoselect io; wautoselect := wautoselect io; chip_size := chip_size io;
     sector_size := sector_size io; dump_cnt := dump_cnt io; dump_flags := dump_flags io |}.
Definition set_dump io n f : flash_am29_io :=
  {| am_type := am_type io; bytes := bytes io; halves := halves io; query := query io;
     bautoselect := bautoselect io; wautoselect := wautoselect io; chip_size := chip_size io;
     sector_size := sector_size io; dump_cnt := n; dump_flags := f |}.

(** [strncmp (io->type, name, 10) == 0] *)
Definition select_data (f : autoselect) (type : string) (offset : Z) : Z :=
  let o := Z.land offset 0xff in
  match f with
  | lv160_bautoselect =>
      if o =? 0 then 0x1 else if o =? 2 then (if String.prefix "Am29LV160T"%string type then 0xc4 else 0x49) else 0
  | lv160_wautoselect =>
      if o =? 0 then 0x1
      else if o =? 1 then (if String.prefix "Am29LV160T"%string type then 0x22c4 else 0x2249) else 0
  | lv800_bautoselect =>
      if o =? 0 then 0x1 else if o =? 2 then (if String.prefix "Am29LV800T"%string type then 0xda else 0x5b) else 0
  | lv800_wautoselect =>
      if o =? 0 then 0x1
      else if o =? 1 then (if String.prefix "Am29LV800T"%string type then 0x22da else 0x225b) else 0
  end.

Definition am29lv160_query : list Z :=
  replicate 16 0
  ++ [0x51; 0x52; 0x59; 0x2; 0x0; 0x40; 0x0; 0x0; 0x0; 0x0; 0x0; 0x27; 0x36; 0x0; 0x0; 0x4; 0x0;
      0xa; 0x0; 0x5; 0x0; 0x4; 0x0; 0x15; 0x2; 0x0; 0x0; 0x0; 0x4; 0x0; 0x0; 0x40; 0x0; 0x1; 0x0;
      0x20; 0x0; 0x0; 0x0; 0x80; 0x0; 0x1e; 0x0; 0x0; 0x1; 0x0; 0x0; 0x0; 0x50; 0x52; 0x49; 0x31;
      0x30; 0x0; 0x2; 0x1; 0x1; 0x4; 0x0; 0x0; 0x0].

Definition flash_am29_reset (io : flash_am29_io) : flash_am29_io :=
  set_dump (set_halves (set_bytes io cmd_reset) cmd_reset) 0xffff 0.

(** [flash_am29_setup]: nothing for a device it does not support. *)
Definition flash_am29_setup (arch_arm : bool) (dev_size : Z) (q : option (list Z))
    (bsel wsel : option autoselect) (chip sector : Z) (type : string) : option flash_am29_io :=
  let entry n := match q with Some l => nthZ l n | None => 0 end in
  let chip := if (chip =? 0) && bool_decide (is_Some q) then u32 (Z.shiftl 1 (entry 0x27)) else chip in
  let sector :=
    if (sector =? 0) && bool_decide (is_Some q)
    then chip / Z.max (Z.lor (Z.shiftl (entry 0x34) 8) (entry 0x33)) 1 else sector in
  let short := match q with Some l => Z.of_nat (List.length l) <? 0x35 | None => false end in
  if negb arch_arm || short || (negb (bool_decide (is_Some bsel)) && negb (bool_decide (is_Some wsel)))
  then None
  else if negb (dev_size =? chip) then None
  else
    Some (flash_am29_reset
            {| am_type := type; bytes := cmd_reset; halves := cmd_reset; query := q;
               bautoselect := bsel; wautoselect := wsel; chip_size := chip; sector_size := sector;
               dump_cnt := 0; dump_flags := 0 |}).

Definition ends_with (suffix type : string) : bool :=
  (String.length suffix <=? String.length type)%nat
  && String.eqb (String.substring (String.length type - String.length suffix) (String.length suffix) type) suffix.

Definition flash_am29lv160_setup (arch_arm : bool) (dev_size : Z) (type : string) : option flash_am29_io :=
  if (String.length type <? 12)%nat then None
  else if ends_with "-8"%string type then
    flash_am29_setup arch_arm dev_size (Some am29lv160_query) (Some lv160_bautoselect) None 0 0 type
  else if ends_with "-16"%string type then
    flash_am29_setup arch_arm dev_size (Some am29lv160_query) None (Some lv160_wautoselect) 0 0 type
  else None.

Definition flash_am29lv800_setup (arch_arm : bool) (dev_size : Z) (type : string) : option flash_am29_io :=
  if (String.length type <? 12)%nat then None
  else if ends_with "-8"%string type then
    flash_am29_setup arch_arm dev_size None (Some lv800_bautoselect) None 0x100000 0x10000 type
  else if ends_with "-16"%string type then
    flash_am29_setup arch_arm dev_size None None (Some lv800_wautoselect) 0x100000 0x10000 type
  else None.

Section am29.
Context {W : Type}.
Notation dev := (board_dev flash_am29_io W).
Context (base : Z) (bread : Z -> Z -> dev -> result (Z * option Z * dev))
  (bwrite : Z -> Z -> Z -> dev -> result (Z * dev)).

(** Whether a bus access leaves something in [*data]. *)
Definition or_old (v old : option Z) : option Z := match v with Some _ => v | None => old end.

(** A read of a width: what the identification modes give, then the array when no command
    is begun. *)
Definition read_width (size addr : Z) (get : flash_am29_io -> cmd_state)
    (set : flash_am29_io -> cmd_state -> flash_am29_io) (ident : flash_am29_io -> option Z) (d : dev)
    : result (Z * option Z * dev) :=
  let data := ident (fio d) in
  let! (data, d) :=
    if cnt (get (fio d)) =? 0 then
      let! (s, v, d) := bread size addr d in Val (or_old v data, d)
    else Val (data, d) in
  Val (ADDR_HIT, data, on_fio (fun io => set io (rewind (get io))) d).

Definition query_entry (io : flash_am29_io) (n : Z) : option Z :=
  match query io with
  | Some q => Some (if n <? Z.of_nat (List.length q) then nthZ q n else 0)
  | None => None
  end.

Definition byte_ident (offset : Z) (io : flash_am29_io) : option Z :=
  match bautoselect io with
  | Some f =>
      if 0 <? cnt (bytes io) then
        if CMD_AUTOSELCT byte_unlock (bytes io) then Some (u8 (select_data f (am_type io) offset))
        else if CMD_QUERY (bytes io) 0xaa then u8 <$> query_entry io (Z.shiftr offset 1)
        else None
      else None
  | None => None
  end.

Definition word_ident (offset : Z) (io : flash_am29_io) : option Z :=
  match wautoselect io with
  | Some f =>
      if 0 <? cnt (halves io) then
        if CMD_AUTOSELCT word_unlock (halves io) then Some (u16 (select_data f (am_type io) offset))
        else if CMD_QUERY (halves io) 0x55 then u16 <$> query_entry io offset
        else None
      else None
  | None => None
  end.

Definition flash_am29_read_byte (addr : Z) (d : dev) : result (Z * option Z * dev) :=
  read_width 8 addr bytes set_bytes (byte_ident (u32 (addr - base))) d.
Definition flash_am29_read_halfword (addr : Z) (d : dev) : result (Z * option Z * dev) :=
  read_width 16 addr halves set_halves (word_ident (Z.shiftr (u32 (addr - base)) 1)) d.
Definition flash_am29_read_word (addr : Z) (d : dev) : result (Z * option Z * dev) :=
  let! (s, v, d) := bread 32 addr d in Val (ADDR_HIT, v, d).

(** A cycle recorded; a sixth one is the last. *)
Definition record_cycle (offset data : Z) (c : cmd_state) : result cmd_state :=
  if n_bus c <? 6 then
    let! l := put_cycle (bus c) (n_bus c) {| cy_addr := offset; cy_data := data |} in
    Val (if data =? 0xf0 then cmd_reset else {| cnt := n_bus c + 1; n_bus := n_bus c + 1; bus := l |})
  else Val c.

(** After the cycle, unless it was the reset command: the bypass commands are not
    supported. *)
Definition after_cycle (u : Z * Z) (data : Z) (recorded : bool) (c : cmd_state) : cmd_state :=
  if recorded && (data =? 0xf0) then c
  else if CMD_UNLOCK_BYPASS u c || CMD_UNLOCK_BYPASS_PROGRAM_RESET c then cmd_reset else c.

Definition erase_command (addr data : Z) (d : dev) : result dev :=
  let io := fio d in
  let start := if data =? 0x10 then base else if data =? 0x30 then addr else 0 in
  let stop :=
    if data =? 0x10 then u32 (start + chip_size io)
    else if data =? 0x30 then u32 (start + sector_size io) else 0 in
  erase_checked bwrite base (chip_size io) start stop d.

Definition write_width (size addr data offset : Z) (u : Z * Z) (get : flash_am29_io -> cmd_state)
    (set : flash_am29_io -> cmd_state -> flash_am29_io) (d : dev) : result (Z * dev) :=
  let c := get (fio d) in
  if (n_bus c =? 0) && ((data =? 0xb0) || (data =? 0x30)) then Val (ADDR_NOHIT, d)
  else if CMD_PROGRAM u c then
    let! (s, d) := bwrite size addr data d in
    let d := on_fio (fun io => set_dump io (dump_cnt io) (Z.lor (dump_flags io) 1)) d in
    Val (ADDR_HIT, on_fio (fun io => set io cmd_reset) d)
  else if CMD_ERASE u c then
    let! d := erase_command addr data d in
    Val (ADDR_HIT, on_fio (fun io => set io cmd_reset) d)
  else
    let! c' := record_cycle offset data c in
    Val (ADDR_HIT, on_fio (fun io => set io (after_cycle u data (n_bus c <? 6) c')) d).

Definition flash_am29_write_byte (addr data : Z) (d : dev) : result (Z * dev) :=
  match bautoselect (fio d) with
  | None => Val (ADDR_NOHIT, d)
  | Some _ => write_width 8 addr data (u32 (addr - base)) byte_unlock bytes set_bytes d
  end.
Definition flash_am29_write_halfword (addr data : Z) (d : dev) : result (Z * dev) :=
  match wautoselect (fio d) with
  | None => Val (ADDR_NOHIT, d)
  | Some _ =>
      write_width 16 addr data (Z.shiftr (u32 (addr - base)) 1) word_unlock halves set_halves d
  end.
Definition flash_am29_write_word (addr data : Z) (d : dev) : result (Z * dev) := Val (ADDR_NOHIT, d).

(** The count-down to a dump of the contents; [dumped]: what [skyeye_flash_dump] returns, and
    [named]: whether a file is configured. *)
Definition flash_am29_update (named : bool) (dumped : flash_am29_io -> Z) (io : flash_am29_io)
    : flash_am29_io :=
  if negb named then io
  else if (dump_flags io =? 0) || negb (Z.land (dump_flags io) 2 =? 0) then io
  else
    let io := set_dump io (dump_cnt io - 1) (dump_flags io) in
    if dump_cnt io =? 0 then
      if negb (dumped io =? 0) then set_dump io (dump_cnt io) (Z.lor (dump_flags io) 2)
      else set_dump io 0xffff 0
    else io.
End am29.

(** ** SST39LF160 and SST39VF160 *)

Record flash_sst39lvf160_io : Type := { sst : cmd_state; sst_dump_cnt : Z; sst_dump_flags : Z }.

Definition set_sst io c : flash_sst39lvf160_io :=
  {| sst := c; sst_dump_cnt := sst_dump_cnt io; sst_dump_flags := sst_dump_flags io |}.
Definition set_sst_flags io f : flash_sst39lvf160_io :=
  {| sst := sst io; sst_dump_cnt := sst_dump_cnt io; sst_dump_flags := f |}.

Definition sst_unlock : Z * Z := (0x5555, 0x2aaa).
Definition CMD_CFI_QUERY_ENTRY (c : cmd_state) : bool :=
  (cnt c =? 3) && CMD_UNLOCKED sst_unlock c && CMD_CHECK (bus c) 2 0x5555 0x98.
Definition CMD_QUERY_EXIT (c : cmd_state) : bool :=
  (cnt c =? 1) && (cy_data (nth 0 (bus c) no_cycle) =? 0xf0)
  || (cnt c =? 3) && CMD_UNLOCKED sst_unlock c && CMD_CHECK (bus c) 2 0x5555 0xf0.

(** The query data from offset 0x10 on; the entry of the lowest voltage depends on the
    type. *)
Definition sst_query (lf : bool) : list Z :=
  [0x51; 0x52; 0x59; 0x1; 0x7; 0x0; 0x0; 0x0; 0x0; 0x0; 0x0; if lf then 0x30 else 0x27; 0x36; 0x0;
   0x0; 0x4; 0x0; 0x4; 0x6; 0x1; 0x0; 0x1; 0x1; 0x15; 0x1; 0x0; 0x0; 0x0; 0x2; 0xff; 0x1; 0x10; 0x0;
   0x1f; 0x0; 0x0; 0x1].

Definition flash_sst39lvf160_reset : flash_sst39lvf160_io :=
  {| sst := cmd_reset; sst_dump_cnt := 0xffff; sst_dump_flags := 0 |}.

Definition flash_sst39lvf160_setup (arch_arm : bool) (dev_size : Z) : option flash_sst39lvf160_io :=
  if negb arch_arm || negb (dev_size =? 0x200000) then None else Some flash_sst39lvf160_reset.

Section sst39.
Context {W : Type}.
Notation dev := (board_dev flash_sst39lvf160_io W).
Context (base : Z) (lf : bool) (bread : Z -> Z -> dev -> result (Z * option Z * dev))
  (bwrite : Z -> Z -> Z -> dev -> result (Z * dev)).

Definition sst_ident (offset : Z) (c : cmd_state) : option Z :=
  if CMD_CFI_QUERY_ENTRY c then
    Some (if (0x10 <=? offset) && (offset <=? 0x34) then nthZ (sst_query lf) (offset - 0x10) else 0)
  else if CMD_AUTOSELCT sst_unlock c then
    Some (if offset =? 0 then 0xbf else if offset =? 1 then 0x2782 else 0)
  else None.

Definition flash_sst39lvf160_read_byte (addr : Z) (d : dev) : result (Z * option Z * dev) :=
  let! (s, v, d) := bread 8 addr d in Val (ADDR_HIT, v, d).
Definition flash_sst39lvf160_write_byte (addr data : Z) (d : dev) : result (Z * dev) :=
  Val (ADDR_NOHIT, d).

Definition flash_sst39lvf160_read_halfword (addr : Z) (d : dev) : result (Z * option Z * dev) :=
  let data := sst_ident (Z.shiftr (u32 (addr - base)) 1) (sst (fio d)) in
  let! (data, d) :=
    if cnt (sst (fio d)) =? 0 then
      let! (s, v, d) := bread 16 addr d in Val (or_old v data, d)
    else Val (data, d) in
  Val (ADDR_HIT, data, on_fio (fun io => set_sst io (rewind (sst io))) d).

Definition sst_erase (addr data : Z) (d : dev) : result dev :=
  let start :=
    if data =? 0x10 then base else if (data =? 0x30) || (data =? 0x50) then addr else 0 in
  let stop :=
    if data =? 0x10 then u32 (start + 0x200000)
    else if data =? 0x30 then u32 (start + 0x1000)
    else if data =? 0x50 then u32 (start + 0x10000) else 0 in
  erase_checked bwrite base 0x200000 start stop d.

Definition sst_record (offset data : Z) (c : cmd_state) : result cmd_state :=
  if n_bus c <? 6 then
    let! l := put_cycle (bus c) (n_bus c) {| cy_addr := offset; cy_data := data |} in
    let c := {| cnt := n_bus c + 1; n_bus := n_bus c + 1; bus := l |} in
    Val (if CMD_QUERY_EXIT c then cmd_reset else c)
  else Val c.

Definition flash_sst39lvf160_write_halfword (addr data : Z) (d : dev) : result (Z * dev) :=
  let c := sst (fio d) in
  if CMD_PROGRAM sst_unlock c then
    let! (s, d) := bwrite 16 addr data d in
    let d := on_fio (fun io => set_sst_flags io (Z.lor (sst_dump_flags io) 1)) d in
    Val (ADDR_HIT, on_fio (fun io => set_sst io cmd_reset) d)
  else if CMD_ERASE sst_unlock c then
    let! d := sst_erase addr data d in Val (ADDR_HIT, on_fio (fun io => set_sst io cmd_reset) d)
  else
    let! c' := sst_record (Z.shiftr (u32 (addr - base)) 1) data c in
    Val (ADDR_HIT, on_fio (fun io => set_sst io c') d).

Definition flash_sst39lvf160_read_word (addr : Z) (d : dev) : result (Z * option Z * dev) :=
  let! (s, v, d) := bread 32 addr d in Val (ADDR_HIT, v, d).
Definition flash_sst39lvf160_write_word (addr data : Z) (d : dev) : result (Z * dev) :=
  Val (ADDR_NOHIT, d).
End sst39.

(** ** The devices on the bus *)

Section board.
Context {W : Type} `{Mach W} (base size : Z).

(** The entries of the device structure, over a bus. *)
Definition am29_desc (bread : Z -> Z -> board_dev flash_am29_io W -> result (Z * option Z * board_dev flash_am29_io W))
    (bwrite : Z -> Z -> Z -> board_dev flash_am29_io W -> result (Z * board_dev flash_am29_io W))
    : device_desc (board_dev flash_am29_io W) :=
  {| dev_base := base; dev_size := size;
     dev_read_byte := Some (flash_am29_read_byte base bread);
     dev_read_halfword := Some (flash_am29_read_halfword base bread);
     dev_read_word := Some (flash_am29_read_word bread);
     dev_write_byte := Some (flash_am29_write_byte base bwrite);
     dev_write_halfword := Some (flash_am29_write_halfword base bwrite);
     dev_write_word := Some flash_am29_write_word |}.

(** [bus_read] and [bus_write] with room for [n] more calls on the stack. *)
Fixpoint am29_bus_at (n : nat)
    : (Z -> Z -> board_dev flash_am29_io W -> result (Z * option Z * board_dev flash_am29_io W))
      * (Z -> Z -> Z -> board_dev flash_am29_io W -> result (Z * board_dev flash_am29_io W)) :=
  match n with
  | O => (fun _ _ _ => Undef, fun _ _ _ _ => Undef)
  | S n =>
      let (r, w) := am29_bus_at n in
      (board_bus_read (am29_desc r w), board_bus_write (am29_desc r w))
  end.
End board.
