(* ===== verification/FlashAmdProps.v ===== *)
(** * Properties of the Am29LV flash memory

    The device of [FlashAmd] over any bus: its cycle buffers are never left, the unlock
    sequences make exactly the bus accesses of their commands, and on a bank of flash
    memory, where the bus leads back to the device, an access in array mode never ends. *)

From Stdlib Require Import ZArith Lia Bool.
From stdpp Require Import base numbers option list.
From S2P Require Import Prelude Words Bus Memory MemProps FlashBoard FlashIntel FlashAmd.

(** ** Bounds *)

Record cmd_ok (c : cmd_state) : Prop := {
  co_length : length (bus c) = 6%nat;
  co_n_bus : 0 <= n_bus c <= 6;
  co_cnt : 0 <= cnt c <= 6
}.

(** The buffers, and the end of the chip, which is not in the last word of the address
    space. *)
Definition am29_ok (base : Z) (io : flash_am29_io) : Prop :=
  cmd_ok (bytes io) /\ cmd_ok (halves io) /\ u32 (base + chip_size io) <= 0xfffffffc.

Lemma cmd_reset_ok : cmd_ok cmd_reset.
Proof. by split. Qed.

Lemma rewind_ok c : cmd_ok c -> cmd_ok (rewind c).
Proof. intros []. by split. Qed.

Lemma record_cycle_ok o v c : cmd_ok c -> exists c', record_cycle o v c = Val c' /\ cmd_ok c'.
Proof.
  intros [Hl Hn Hc]. unfold record_cycle. destruct (Z.ltb_spec (n_bus c) 6); [|by exists c].
  unfold put_cycle. rewrite Hl. rewrite (proj2 (Z.leb_le _ _)), (proj2 (Z.ltb_lt _ _)) by lia.
  cbn [andb rbind]. eexists. split; [done|]. destruct (_ =? _); [apply cmd_reset_ok|].
  split; cbn; [by rewrite length_insert|lia|lia].
Qed.

Lemma after_cycle_ok u v r c : cmd_ok c -> cmd_ok (after_cycle u v r c).
Proof. intros Hc. unfold after_cycle. repeat case_match; done || apply cmd_reset_ok. Qed.

(** A call of a function of the device. *)
Inductive dev_call : Type :=
| Read_byte (addr : Z) | Read_halfword (addr : Z) | Read_word (addr : Z)
| Write_byte (addr data : Z) | Write_halfword (addr data : Z) | Write_word (addr data : Z).

Section bounds.
Context {W : Type} (base : Z).
Notation dev := (board_dev flash_am29_io W).
Context (bread : Z -> Z -> dev -> result (Z * option Z * dev))
  (bwrite : Z -> Z -> Z -> dev -> result (Z * dev)).

(** What the device asks of the bus: accesses return and keep its structure. *)
Definition bus_returns : Prop :=
  (forall size a d, am29_ok base (fio d) ->
     exists r, bread size a d = Val r /\ am29_ok base (fio r.2))
  /\ (forall size a v d, am29_ok base (fio d) ->
     exists r, bwrite size a v d = Val r /\ am29_ok base (fio r.2)).

Definition am29_call (c : dev_call) (d : dev) : result dev :=
  match c with
  | Read_byte a => let! (s, v, d) := flash_am29_read_byte base bread a d in Val d
  | Read_halfword a => let! (s, v, d) := flash_am29_read_halfword base bread a d in Val d
  | Read_word a => let! (s, v, d) := flash_am29_read_word bread a d in Val d
  | Write_byte a v => let! (s, d) := flash_am29_write_byte base bwrite a v d in Val d
  | Write_halfword a v => let! (s, d) := flash_am29_write_halfword base bwrite a v d in Val d
  | Write_word a v => let! (s, d) := flash_am29_write_word a v d in Val d
  end.

Fixpoint am29_calls (l : list dev_call) (d : dev) : result dev :=
  match l with [] => Val d | c :: l => let! d := am29_call c d in am29_calls l d end.

Context (Hbase : 0 <= base) (Hbus : bus_returns).

Lemma read_width_ok size a get set ident (d : dev) :
  (forall io c, am29_ok base io -> cmd_ok c -> am29_ok base (set io c)) ->
  (forall io, am29_ok base io -> cmd_ok (get io)) -> am29_ok base (fio d) ->
  exists r, read_width bread size a get set ident d = Val r /\ am29_ok base (fio r.2).
Proof.
  intros Hset Hget Hd. unfold read_width. destruct (_ =? 0).
  - destruct (proj1 Hbus size a d Hd) as ([[s v] d1] & -> & Hd1). cbn [rbind] in *.
    eexists. split; [done|]. apply Hset; [done|]. apply rewind_ok. by apply Hget.
  - eexists. split; [done|]. apply Hset; [done|]. apply rewind_ok. by apply Hget.
Qed.

Lemma erase_range_ok fuel a stop (d : dev) :
  0 <= a -> stop <= 0xfffffffc -> stop - a <= 4 * Z.of_nat fuel -> am29_ok base (fio d) ->
  exists d', erase_range bwrite fuel a stop d = Val d' /\ am29_ok base (fio d').
Proof.
  revert a d. induction fuel as [|fuel IH]; intros a d Ha Hs Hf Hd; cbn [erase_range].
  { rewrite (proj2 (Z.ltb_ge _ _)) by lia. by exists d. }
  destruct (Z.ltb_spec a stop); [|by exists d].
  destruct (proj2 Hbus 32 a 0xffffffff d Hd) as ([s d1] & -> & Hd1). cbn [rbind].
  rewrite u32_id by (unfold is_u32; lia). apply IH; done || lia.
Qed.

Lemma erase_checked_ok chip start stop (d : dev) :
  0 <= start -> u32 (base + chip) <= 0xfffffffc -> am29_ok base (fio d) ->
  exists d', erase_checked bwrite base chip start stop d = Val d' /\ am29_ok base (fio d').
Proof.
  intros Ha Hc Hd. unfold erase_checked.
  destruct (Z.ltb_spec start stop); [|by exists d].
  destruct (Z.leb_spec stop (u32 (base + chip))); [|by exists d]. cbn [andb].
  apply erase_range_ok; try done; [lia|]. unfold erase_fuel. rewrite Z2Nat.id; Z.div_mod_to_equations; lia.
Qed.

Lemma erase_command_ok a v (d : dev) :
  is_u32 a -> am29_ok base (fio d) ->
  exists d', erase_command base bwrite a v d = Val d' /\ am29_ok base (fio d').
Proof.
  intros Ha Hd. apply erase_checked_ok; [|apply Hd|done].
  unfold is_u32 in *. repeat case_match; lia.
Qed.

Lemma write_width_ok size a v o u get set (d : dev) :
  (forall io c, am29_ok base io -> cmd_ok c -> am29_ok base (set io c)) ->
  (forall io, am29_ok base io -> cmd_ok (get io)) -> is_u32 a -> am29_ok base (fio d) ->
  exists r, write_width base bwrite size a v o u get set d = Val r /\ am29_ok base (fio r.2).
Proof.
  intros Hset Hget Ha Hd. unfold write_width. destruct (_ && _); [by eexists|].
  destruct (CMD_PROGRAM _ _).
  { destruct (proj2 Hbus size a v d Hd) as ([s d1] & -> & Hd1). cbn [rbind].
    eexists. split; [done|]. apply Hset; [apply Hd1|apply cmd_reset_ok]. }
  destruct (CMD_ERASE _ _).
  { destruct (erase_command_ok a v d Ha Hd) as (d1 & -> & Hd1). cbn [rbind].
    eexists. split; [done|]. apply Hset; [done|apply cmd_reset_ok]. }
  destruct (record_cycle_ok o v (get (fio d)) (Hget _ Hd)) as (c & -> & Hc). cbn [rbind].
  eexists. split; [done|]. apply Hset; [done|]. by apply after_cycle_ok.
Qed.

Definition call_addr (c : dev_call) : Z :=
  match c with
  | Read_byte a | Read_halfword a | Read_word a
  | Write_byte a _ | Write_halfword a _ | Write_word a _ => a
  end.

Lemma am29_call_ok c (d : dev) :
  is_u32 (call_addr c) -> am29_ok base (fio d) -> exists d', am29_call c d = Val d' /\ am29_ok base (fio d').
Proof.
  intros Hc Hd.
  assert (Hb : forall io c, am29_ok base io -> cmd_ok c -> am29_ok base (set_bytes io c)) by by intros io c' (? & ? & ?).
  assert (Hh : forall io c, am29_ok base io -> cmd_ok c -> am29_ok base (set_halves io c)) by by intros io c' (? & ? & ?).
  assert (Hgb : forall io, am29_ok base io -> cmd_ok (bytes io)) by by intros ? (? & ? & ?).
  assert (Hgh : forall io, am29_ok base io -> cmd_ok (halves io)) by by intros ? (? & ? & ?).
  destruct c; cbn [am29_call].
  - destruct (read_width_ok 8 addr bytes set_bytes (byte_ident (u32 (addr - base))) d Hb Hgb Hd)
      as ([[s v] d1] & E & Hd1). unfold flash_am29_read_byte. rewrite E. by exists d1.
  - destruct (read_width_ok 16 addr halves set_halves (word_ident (Z.shiftr (u32 (addr - base)) 1))
                d Hh Hgh Hd) as ([[s v] d1] & E & Hd1).
    unfold flash_am29_read_halfword. rewrite E. by exists d1.
  - unfold flash_am29_read_word. destruct (proj1 Hbus 32 addr d Hd) as ([[s v] d1] & -> & Hd1).
    by exists d1.
  - unfold flash_am29_write_byte. destruct (bautoselect (fio d)); [|by exists d].
    destruct (write_width_ok 8 addr data (u32 (addr - base)) byte_unlock bytes set_bytes d Hb Hgb Hc Hd)
      as ([s d1] & -> & Hd1). by exists d1.
  - unfold flash_am29_write_halfword. destruct (wautoselect (fio d)); [|by exists d].
    destruct (write_width_ok 16 addr data (Z.shiftr (u32 (addr - base)) 1) word_unlock halves
                set_halves d Hh Hgh Hc Hd) as ([s d1] & -> & Hd1). by exists d1.
  - by exists d.
Qed.

End bounds.

(** ** The command sequences *)

Section commands.
Context {W : Type} (base : Z).
Notation dev := (board_dev flash_am29_io W).
Context (bread : Z -> Z -> dev -> result (Z * option Z * dev))
  (bwrite : Z -> Z -> Z -> dev -> result (Z * dev)).

(** The bus writes of an erase. *)
Fixpoint fill_words (n : nat) (a : Z) (d : dev) : result dev :=
  match n with
  | O => Val d
  | S n => let! (s, d) := bwrite 32 a 0xffffffff d in fill_words n (a + 4) d
  end.

Lemma erase_range_fill n a (d : dev) :
  0 <= a -> a + 4 * Z.of_nat n < 4294967296 ->
  erase_range bwrite n a (a + 4 * Z.of_nat n) d = fill_words n a d.
Proof.
  revert a d. induction n as [|n IH]; intros a d Ha Hn; cbn [erase_range fill_words].
  { by rewrite (proj2 (Z.ltb_ge _ _)) by lia. }
  rewrite (proj2 (Z.ltb_lt _ _)) by lia. destruct (bwrite _ _ _ _) as [[s d1]| | |]; try done.
  cbn [rbind]. rewrite u32_id by (unfold is_u32; lia).
  replace (a + 4 * Z.of_nat (S n)) with (a + 4 + 4 * Z.of_nat n) by lia. apply IH; lia.
Qed.

(** One of the two widths: its command state, and its size and command addresses. *)
Section width.
Context (size : Z) (u : Z * Z) (get : flash_am29_io -> cmd_state)
  (set : flash_am29_io -> cmd_state -> flash_am29_io)
  (Hgs : forall io c, get (set io c) = c) (Hss : forall io c c', set (set io c) c' = set io c')
  (Hsd : forall io c n f, set (set_dump io n f) c = set_dump (set io c) n f)
  (Hsc : forall io c, chip_size (set io c) = chip_size io /\ sector_size (set io c) = sector_size io)
  (armed : flash_am29_io -> bool) (Harm : forall io c, armed (set io c) = armed io).

(** A write of the width at an address and its offset. *)
Definition write_at (x : Z * Z * Z) (d : dev) : result dev :=
  let '(a, o, v) := x in
  if armed (fio d) then
    let! (s, d) := write_width base bwrite size a v o u get set d in Val d
  else Val d.
Fixpoint writes (l : list (Z * Z * Z)) (d : dev) : result dev :=
  match l with [] => Val d | x :: l => let! d := write_at x d in writes l d end.

Definition cycles (l : list (Z * Z)) : cmd_state :=
  {| cnt := Z.of_nat (length l); n_bus := Z.of_nat (length l);
     bus := map (fun '(o, v) => {| cy_addr := o; cy_data := v |}) l
            ++ replicate (6 - length l) no_cycle |}.

(** A cycle that continues a sequence that is not a command yet. *)
Lemma write_more a o v l (d : dev) :
  armed (fio d) = true -> (length l < 6)%nat -> get (fio d) = cycles l -> v <> 0xf0 ->
  (l = [] -> v <> 0xb0 /\ v <> 0x30) ->
  CMD_PROGRAM u (cycles l) = false -> CMD_ERASE u (cycles l) = false ->
  CMD_UNLOCK_BYPASS u (cycles (l ++ [(o, v)])) = false ->
  CMD_UNLOCK_BYPASS_PROGRAM_RESET (cycles (l ++ [(o, v)])) = false ->
  write_at (a, o, v) d = Val (on_fio (fun io => set io (cycles (l ++ [(o, v)]))) d).
Proof.
  intros Hd Hl Hg Hv Hfirst Hp He Hb Hr. unfold write_at, write_width. rewrite Hd, Hg, Hp, He.
  assert (E0 : (n_bus (cycles l) =? 0) && ((v =? 0xb0) || (v =? 0x30)) = false).
  { destruct l as [|x l]; [|done]. destruct (Hfirst eq_refl).
    by rewrite (proj2 (Z.eqb_neq v 0xb0)), (proj2 (Z.eqb_neq v 0x30)), andb_false_r by done. }
  rewrite E0. unfold record_cycle, put_cycle. cbn [n_bus cnt bus cycles].
  rewrite (proj2 (Z.ltb_lt _ 6)) by lia. rewrite length_app, length_map, length_replicate.
  rewrite (proj2 (Z.leb_le _ _)), (proj2 (Z.ltb_lt _ _)) by lia. cbn [andb rbind].
  rewrite (proj2 (Z.eqb_neq v 0xf0)) by done. unfold after_cycle. rewrite (proj2 (Z.eqb_neq v 0xf0)) by done.
  cbn [andb].
  assert (Ec : {| cnt := Z.of_nat (length l) + 1; n_bus := Z.of_nat (length l) + 1;
                  bus := <[Z.to_nat (Z.of_nat (length l)) := {| cy_addr := o; cy_data := v |}]>
                    (map (fun '(o, v) => {| cy_addr := o; cy_data := v |}) l
                     ++ replicate (6 - length l) no_cycle) |} = cycles (l ++ [(o, v)])).
  { unfold cycles. rewrite length_app, map_app. cbn [length map]. f_equal; [lia|lia|].
    rewrite Nat2Z.id, insert_app_r_alt by (rewrite length_map; lia).
    rewrite length_map, Nat.sub_diag, <- app_assoc. f_equal.
    by replace (6 - length l)%nat with (S (6 - (length l + 1))) by lia. }
  rewrite Ec, Hb, Hr. done.
Qed.

Lemma on_set c c' (d : dev) :
  on_fio (fun io => set io c') (on_fio (fun io => set io c) d) = on_fio (fun io => set io c') d.
Proof. unfold on_fio. cbn. by rewrite Hss. Qed.

Definition at_cycles (l : list (Z * Z)) (d : dev) : dev := on_fio (fun io => set io (cycles l)) d.

Lemma get_at l (d : dev) : get (fio (at_cycles l d)) = cycles l.
Proof. apply Hgs. Qed.

Lemma armed_at l (d : dev) : armed (fio (at_cycles l d)) = armed (fio d).
Proof. apply Harm. Qed.

Lemma at_more a o v l (d : dev) :
  armed (fio d) = true -> (length l < 6)%nat -> v <> 0xf0 -> (l = [] -> v <> 0xb0 /\ v <> 0x30) ->
  CMD_PROGRAM u (cycles l) = false -> CMD_ERASE u (cycles l) = false ->
  CMD_UNLOCK_BYPASS u (cycles (l ++ [(o, v)])) = false ->
  CMD_UNLOCK_BYPASS_PROGRAM_RESET (cycles (l ++ [(o, v)])) = false ->
  write_at (a, o, v) (at_cycles l d) = Val (at_cycles (l ++ [(o, v)]) d).
Proof.
  intros. rewrite (write_more a o v l); try done.
  - unfold at_cycles. by rewrite on_set.
  - by rewrite armed_at.
  - apply Hgs.
Qed.

Definition unlock : list (Z * Z) := [(u.1, 0xaa); (u.2, 0x55)].

Lemma unlock_writes a1 a2 (d : dev) :
  armed (fio d) = true ->
  writes [(a1, u.1, 0xaa); (a2, u.2, 0x55)] (at_cycles [] d) = Val (at_cycles unlock d).
Proof.
  intros Hd. cbn [writes]. rewrite (at_more a1 u.1 0xaa []) by (done || (cbn; lia)). cbn [rbind app].
  by rewrite (at_more a2 u.2 0x55 [(u.1, 0xaa)]) by (done || (cbn; lia)).
Qed.

Lemma writes_app l l' (d : dev) : writes (l ++ l') d = let! d := writes l d in writes l' d.
Proof.
  revert d. induction l as [|x l IH]; intros d; [done|]. cbn [app writes].
  destruct (write_at x d); try done. apply IH.
Qed.

Lemma program_writes a1 a2 a3 a o v (d : dev) :
  armed (fio d) = true ->
  writes [(a1, u.1, 0xaa); (a2, u.2, 0x55); (a3, u.1, 0xa0); (a, o, v)] (at_cycles [] d)
  = let! (s, d) := bwrite size a v (at_cycles (unlock ++ [(u.1, 0xa0)]) d) in
    Val (on_fio (fun io => set (set_dump io (dump_cnt io) (Z.lor (dump_flags io) 1)) cmd_reset) d).
Proof.
  intros Hd. change [(a1, u.1, 0xaa); (a2, u.2, 0x55); (a3, u.1, 0xa0); (a, o, v)]
    with ([(a1, u.1, 0xaa); (a2, u.2, 0x55)] ++ [(a3, u.1, 0xa0); (a, o, v)]).
  rewrite writes_app, unlock_writes by done. cbn [rbind writes].
  rewrite (at_more a3 u.1 0xa0 unlock); [|done|cbn; lia|done|done|done|done| |done].
  2: { unfold CMD_UNLOCK_BYPASS, CMD_CHECK. cbn. by rewrite !andb_false_r. }
  cbn [rbind]. unfold write_at, write_width. rewrite armed_at, Hd, get_at.
  assert (Ep : CMD_PROGRAM u (cycles (unlock ++ [(u.1, 0xa0)])) = true).
  { unfold CMD_PROGRAM, CMD_UNLOCKED, CMD_CHECK. cbn. by rewrite !Z.eqb_refl. }
  rewrite Ep. cbn [n_bus cycles length app unlock Z.of_nat Z.eqb andb].
  change (Z.pos (Pos.of_succ_nat 2) =? 0) with false. cbn [andb].
  by destruct (bwrite _ _ _ _) as [[s d1]| | |].
Qed.

Lemma erase_checked_fill chip a sector n (d : dev) :
  sector = 4 * Z.of_nat n -> 0 < sector -> 0 <= base -> base <= a ->
  a + sector <= base + chip -> base + chip < 4294967296 ->
  erase_checked bwrite base chip a (u32 (a + sector)) d = fill_words n a d.
Proof.
  intros -> Hn Hb Ha Hin Hend. unfold erase_checked.
  rewrite !u32_id by (unfold is_u32; lia).
  rewrite (proj2 (Z.ltb_lt _ _)), (proj2 (Z.leb_le _ _)) by lia. cbn [andb].
  unfold erase_fuel.
  replace (Z.to_nat ((a + 4 * Z.of_nat n - a + 3) / 4)) with n by (Z.div_mod_to_equations; lia).
  apply erase_range_fill; lia.
Qed.

(** A sector erase: the words from its address on, and no other access. *)
Lemma erase_writes a1 a2 a3 a4 a5 a o n (d : dev) :
  armed (fio d) = true -> sector_size (fio d) = 4 * Z.of_nat n -> 0 < Z.of_nat n -> 0 <= base -> base <= a ->
  a + sector_size (fio d) <= base + chip_size (fio d) -> base + chip_size (fio d) < 4294967296 ->
  writes [(a1, u.1, 0xaa); (a2, u.2, 0x55); (a3, u.1, 0x80); (a4, u.1, 0xaa); (a5, u.2, 0x55);
          (a, o, 0x30)] (at_cycles [] d)
  = let! d := fill_words n a
                (at_cycles (unlock ++ [(u.1, 0x80); (u.1, 0xaa); (u.2, 0x55)]) d) in
    Val (on_fio (fun io => set io cmd_reset) d).
Proof.
  intros Hd Hs Hn Hb Ha Hin Hend.
  change [(a1, u.1, 0xaa); (a2, u.2, 0x55); (a3, u.1, 0x80); (a4, u.1, 0xaa); (a5, u.2, 0x55); (a, o, 0x30)]
    with ([(a1, u.1, 0xaa); (a2, u.2, 0x55)]
          ++ [(a3, u.1, 0x80); (a4, u.1, 0xaa); (a5, u.2, 0x55); (a, o, 0x30)]).
  rewrite writes_app, unlock_writes by done. cbn [rbind writes].
  rewrite (at_more a3 u.1 0x80 unlock); [|done|cbn; lia|done|done|done|done| |done].
  2: { unfold CMD_UNLOCK_BYPASS, CMD_CHECK. cbn. by rewrite !andb_false_r. }
  cbn [rbind]. rewrite (at_more a4 u.1 0xaa (unlock ++ [(u.1, 0x80)]));
    [|done|cbn; lia|done|done| |done|done|done].
  2: { unfold CMD_PROGRAM, CMD_CHECK. cbn. by rewrite !andb_false_r. }
  cbn [rbind]. rewrite (at_more a5 u.2 0x55 ((unlock ++ [(u.1, 0x80)]) ++ [(u.1, 0xaa)]));
    [|done|cbn; lia|done|done|done|done|done|done].
  cbn [rbind]. unfold write_at, write_width. rewrite armed_at, Hd, get_at.
  assert (Ep : CMD_PROGRAM u (cycles (((unlock ++ [(u.1, 0x80)]) ++ [(u.1, 0xaa)]) ++ [(u.2, 0x55)])) = false)
    by done.
  assert (Ee : CMD_ERASE u (cycles (((unlock ++ [(u.1, 0x80)]) ++ [(u.1, 0xaa)]) ++ [(u.2, 0x55)])) = true).
  { unfold CMD_ERASE, CMD_UNLOCKED, CMD_CHECK. cbn. by rewrite !Z.eqb_refl. }
  rewrite Ep, Ee. cbn [n_bus cycles length app unlock].
  change (Z.of_nat 5 =? 0) with false. cbn [andb]. unfold erase_command. cbn [Z.eqb Pos.eqb].
  unfold at_cycles at 1 2 3 4. cbn [fio on_fio set_fio].
  rewrite !(proj1 (Hsc _ _)), !(proj2 (Hsc _ _)).
  rewrite (erase_checked_fill _ _ _ n) by (done || lia).
  by destruct (fill_words _ _ _).
Qed.
End width.

Definition byte_armed (io : flash_am29_io) : bool := bool_decide (is_Some (bautoselect io)).
Definition half_armed (io : flash_am29_io) : bool := bool_decide (is_Some (wautoselect io)).
Definition byte_writes := writes 8 byte_unlock bytes set_bytes byte_armed.
Definition half_writes := writes 16 word_unlock halves set_halves half_armed.

Lemma byte_calls l (d : dev) :
  am29_calls base bread bwrite (map (fun '(a, v) => Write_byte a v) l) d
  = byte_writes (map (fun '(a, v) => (a, u32 (a - base), v)) l) d.
Proof.
  revert d. induction l as [|[a v] l IH]; intros d; [done|].
  cbn [map am29_calls am29_call]. unfold byte_writes. cbn [writes write_at].
  unfold flash_am29_write_byte. destruct (bautoselect (fio d)) eqn:E; cbn [bool_decide].
  - unfold byte_armed, half_armed. rewrite E, bool_decide_true by done.
    destruct (write_width _ _ _ _ _ _ _ _ _ _) as [[s d1]| | |]; try done. apply IH.
  - unfold byte_armed, half_armed. rewrite E, bool_decide_false by (intros [? ?]; done). apply IH.
Qed.

Lemma half_calls l (d : dev) :
  am29_calls base bread bwrite (map (fun '(a, v) => Write_halfword a v) l) d
  = half_writes (map (fun '(a, v) => (a, Z.shiftr (u32 (a - base)) 1, v)) l) d.
Proof.
  revert d. induction l as [|[a v] l IH]; intros d; [done|].
  cbn [map am29_calls am29_call]. unfold half_writes. cbn [writes write_at].
  unfold flash_am29_write_halfword. destruct (wautoselect (fio d)) eqn:E; cbn [bool_decide].
  - unfold byte_armed, half_armed. rewrite E, bool_decide_true by done.
    destruct (write_width _ _ _ _ _ _ _ _ _ _) as [[s d1]| | |]; try done. apply IH.
  - unfold byte_armed, half_armed. rewrite E, bool_decide_false by (intros [? ?]; done). apply IH.
Qed.

Definition program_calls (call : Z -> Z -> dev_call) (o1 o2 a v : Z) : list dev_call :=
  [call (base + o1) 0xaa; call (base + o2) 0x55; call (base + o1) 0xa0; call a v].
Definition erase_calls (call : Z -> Z -> dev_call) (o1 o2 a : Z) : list dev_call :=
  [call (base + o1) 0xaa; call (base + o2) 0x55; call (base + o1) 0x80;
   call (base + o1) 0xaa; call (base + o2) 0x55; call a 0x30].

(** The device with a command begun, and after it. *)
Definition with_bytes (l : list (Z * Z)) : dev -> dev := on_fio (fun io => set_bytes io (cycles l)).
Definition programmed (set : flash_am29_io -> cmd_state -> flash_am29_io) : dev -> dev :=
  on_fio (fun io => set (set_dump io (dump_cnt io) (Z.lor (dump_flags io) 1)) cmd_reset).

Lemma offset_back o : 0 <= o < 4294967296 -> u32 (base + o - base) = o.
Proof. intros Ho. replace (base + o - base) with o by lia. by apply u32_id. Qed.

Definition with_halves (l : list (Z * Z)) : dev -> dev := on_fio (fun io => set_halves io (cycles l)).

Lemma idle_bytes (d : dev) : bytes (fio d) = cmd_reset -> at_cycles set_bytes [] d = d.
Proof.
  intros Hidle. destruct d as [io m]. cbn in *. unfold at_cycles, on_fio, set_fio. cbn.
  change (cycles []) with cmd_reset. rewrite <- Hidle. by destruct io.
Qed.
Lemma idle_halves (d : dev) : halves (fio d) = cmd_reset -> at_cycles set_halves [] d = d.
Proof.
  intros Hidle. destruct d as [io m]. cbn in *. unfold at_cycles, on_fio, set_fio. cbn.
  change (cycles []) with cmd_reset. rewrite <- Hidle. by destruct io.
Qed.

(** The calls of a command as the cycles the device sees. *)
Ltac command_cycles calls :=
  unfold program_calls, erase_calls;
  match goal with
  | |- am29_calls _ _ _ ?l _ = _ =>
      let l' := eval cbn in (map (fun c => match c with
                                           | Write_byte a v => (a, v)
                                           | Write_halfword a v => (a, v)
                                           | _ => (0, 0)
                                           end) l) in
      etransitivity; [exact (calls l' _)|]
  end; cbn [map]; rewrite !offset_back by lia.

End commands.

(** ** The device on the bus *)

(** Behind a bank of flash memory the bus leads back to the device: a read of a word asks
    the device, which asks the bus for the word, and with room for any number of calls it
    runs out of them. *)
Lemma am29_word_read_recurses {W} `{Mach W} base size n i b a (d : board_dev flash_am29_io W) :
  bank_read_op b = Some flash_read_fn -> backed_bank (fmem d) i b -> in_bank b a 1 -> is_u32 a ->
  0 <= base <= a -> a < base + size < 4294967296 ->
  (am29_bus_at base size n).1 32 a d = Undef.
Proof.
  intros Hop Hb Ha Hu Hbase Hsize. revert d Hb.
  induction n as [|n IH]; intros d Hb; [done|]. cbn [am29_bus_at].
  destruct (am29_bus_at base size n) as [r w]. cbn [fst] in *.
  destruct (ram_bank_ptr _ _ _ a Hb Ha) as (mc & E & Hi & Hb').
  unfold board_bus_read. rewrite (u32_id a Hu), E. cbn [rbind]. rewrite Hi, Hop.
  cbn [board_reader]. unfold flash_read, flash_read_word. cbn [Z.eqb Pos.eqb dev_read devices flash_mach].
  assert (Hr : dev_range (am29_desc base size r w) a = true).
  { unfold dev_range. cbn [dev_base dev_size am29_desc]. rewrite u32_id by (unfold is_u32; lia).
    rewrite (proj2 (Z.leb_le _ _)), (proj2 (Z.ltb_lt _ _)), orb_true_r by lia. done. }
  rewrite Hr. cbn [dev_read_word am29_desc]. unfold flash_am29_read_word.
  by rewrite (IH (set_fmem d (set_memmap (fmem d) mc)) Hb').
Qed.
