(* ===== verification/FlashWitnesses.v ===== *)
(** * The flash memory theorems at concrete inputs

    A board with one or two sectors of flash memory at address 0 and no other device. *)

From Stdlib Require Import ZArith Lia Bool String.
From stdpp Require Import base numbers option list.
From S2P Require Import Prelude Words Bus Memory MemProps FlashBoard FlashIntel FlashIntelBus FlashAmd FlashAmdProps.

(** A machine without devices of its own. *)
#[local] Instance no_mach : Mach unit :=
  {| devices := [];
     mach_io_read_byte _ _ := Undef; mach_io_read_halfword _ _ := Undef;
     mach_io_read_word _ _ := Undef; mach_io_write_byte _ _ _ := Undef;
     mach_io_write_halfword _ _ _ := Undef; mach_io_write_word _ _ _ := Undef |}.

Definition flash_at_0 (sectors : Z) : mem_bank :=
  {| bank_addr := 0; bank_len := sectors * FLASH_SECTOR_SIZE;
     bank_write_op := Some flash_write_fn; bank_read_op := Some flash_read_fn;
     has_filename := false; bank_type := MEMTYPE_FLASH |}.
Definition last_bank : mem_bank :=
  {| bank_addr := 0; bank_len := 0; bank_write_op := None; bank_read_op := None;
     has_filename := false; bank_type := 0 |}.

Definition flash_board (sectors : Z) (io : flash_intel_io) : intel_dev unit :=
  {| fio := io;
     fmem :=
       {| memmap := {| current_num := 1; mem_banks := [flash_at_0 sectors; last_bank];
                       mbp := None; insn_mbp := None |};
          rom := [Some (replicate (Z.to_nat (sectors * 0x10000)) 0x12345678); None];
          big_endian := 0; host_lp64 := true; mach := tt |} |}.

Lemma flash_board_on_board n : 0 < n <= 128 ->
  on_board (flash_at_0 n) 0 INTEL28F128J3A_SIZE.
Proof.
  intros Hn. split; try done.
  - split; cbn; unfold FLASH_SECTOR_SIZE, INTEL28F128J3A_SIZE; [done| |lia].
    split; [lia|]. by rewrite Z.mod_mul.
  - cbn. unfold FLASH_SECTOR_SIZE, INTEL28F128J3A_SIZE. lia.
Qed.

Lemma flash_board_backed n io : 0 < n <= 128 ->
  backed_bank (fmem (flash_board n io)) 0 (flash_at_0 n).
Proof.
  intros Hn. split; try done.
  - intros k c Hk. lia.
  - intros i j b c a Hi Hj Hb Hc. cbn in Hi, Hj.
    pose proof (lookup_lt_Some _ _ _ Hi). pose proof (lookup_lt_Some _ _ _ Hj). cbn [length] in *.
    assert (Hl : bank_hit last_bank a = false).
    { unfold bank_hit. cbn. pose proof (u32_range (a - 0)). unfold is_u32 in *.
      by rewrite (proj2 (Z.ltb_ge _ _)), andb_false_r by lia. }
    destruct i as [|[|i]], j as [|[|j]]; cbn in Hi, Hj; simplify_eq; try done; try lia; congruence.
  - exists last_bank. split; [|done]. apply list_elem_of_In; cbn; auto.
  - cbn [bank_addr bank_len flash_at_0]. unfold FLASH_SECTOR_SIZE. split_and!; lia || done.
  - by left.
  - eexists. split; [done|]. split; [by apply Forall_replicate|].
    rewrite length_replicate. cbn [bank_len flash_at_0]. unfold FLASH_SECTOR_SIZE. lia.
Qed.

Lemma setup_ok b : io_ok b flash_intel_setup.
Proof. split; try done; unfold read_mode_ok, wsm_mode_ok; try by repeat constructor. Qed.

Lemma flash_board_ok n : 0 < n <= 128 -> flash_ok 0 (flash_at_0 n) (flash_board n flash_intel_setup).
Proof. intros Hn. split; [apply setup_ok|by apply flash_board_backed]. Qed.

(** ** The properties *)


Definition locked_io : flash_intel_io := set_lock flash_intel_setup (<[0%nat := 1]> (lock flash_intel_setup)).

Lemma locked_sector_kept_witness :
  let b := flash_at_0 1 in
  let d := flash_board 1 locked_io in
  exists d', flash_run 0 INTEL28F128J3A_SIZE 0 [(8, 0x40); (8, 5)] d = Val d' /\ flash_ok 0 b d'
    /\ forall x, in_bank b x 1 -> SECTOR_ADDR x = 0 ->
         nthZ (words 0 d') (word_no b x) = nthZ (words 0 d) (word_no b x).
Proof.
  intros b d. assert (Hb : on_board b 0 INTEL28F128J3A_SIZE) by by apply flash_board_on_board.
  assert (Hok : flash_ok 0 b d).
  { split; [|by apply flash_board_backed]. split; try done; unfold read_mode_ok, wsm_mode_ok;
      try by repeat constructor. }
  assert (Hd : shows 0 b d locked_io (words 0 d)) by (split; [done|split; [done|apply Hok]]).
  apply (locked_sector_kept 0 b 0 INTEL28F128J3A_SIZE 0 Hb 0); [done| |].
  - repeat (apply Forall_cons; split; [by split; cbv|]). apply Forall_nil_2.
  - eapply (all_along_step 0 b); [done|exact Hd|done|done| |].
    + intros d1 Hd1. pose proof Hd1 as (Hf1 & _). unfold wsm_write. rewrite Hf1.
      exact (gives_on_fio 0 b (fun io => init_wsm io 0x40) d1 _ _ Hd1).
    + intros d1 Hd1. eapply (all_along_last 0 b); [done|exact Hd1|done|by destruct Hd1 as (-> & _)|].
      intros d2 Hd2. pose proof Hd2 as (Hf2 & _). unfold wsm_write. rewrite Hf2.
      destruct (program_words 0 b (ob_bank _ _ _ Hb) 8 5 d2 _ _ Hd2) as (io' & ws' & Hg & Hend & _);
        [by apply set_wsm_mode_ok; [apply Hok|unfold wsm_mode_ok; repeat constructor|]|done|done|].
      exists io', ws'. split; [exact Hg|]. intros d' ->. destruct Hend as [_ Hl Hw _].
      rewrite Hl. split; [|done]. intros Hm. by rewrite Hw in Hm.
Defined.

(** Two sectors of which the second is locked: a buffer that starts at the last word of the
    first, with its second word taken for the start of the block, clears the first word of
    the locked one. *)
Definition crossing_ops : list (Z * Z) :=
  [(0x3fffc, WSM_WRITE_BUFFER); (0x3fffc, 1); (0x3fffc, 0xffffffff); (0x3ffc0, 0);
   (0x3fffc, WSM_CONFIRM)].
Definition second_locked : flash_intel_io :=
  set_lock flash_intel_setup (<[1%nat := 1]> (lock flash_intel_setup)).

Lemma buffer_crosses_lock :
  match flash_run 0 INTEL28F128J3A_SIZE 0 crossing_ops (flash_board 2 second_locked) with
  | Val d => nthZ (words 0 (flash_board 2 second_locked)) 0x10000 = 0x12345678
             /\ nthZ (words 0 d) 0x10000 = 0 /\ nthZ (lock (fio d)) 1 = 1
             /\ protection_error (wflags (fio d)) = 0
  | _ => False
  end.
Proof. vm_compute. by split_and!. Qed.

Lemma erase_program_read_witness :
  let b := flash_at_0 2 in
  let d := flash_board 2 flash_intel_setup in
  exists d',
    flash_run 0 INTEL28F128J3A_SIZE 0
      (erase_ops 0x40080 ++ buffer_ops 0x40080 [1; 2; 3] ++ [(0x40080, WSM_READ_ARRAY)]) d = Val d'
    /\ flash_ok 0 b d'
    /\ forall x, in_bank b x 1 ->
         exists d'',
           intel_bus_read 0 INTEL28F128J3A_SIZE 0 32 x d'
           = Val (0, Some (if (0x40080 <=? x) && (x <? 0x4008c) then nthZ [1; 2; 3] ((x - 0x40080) / 4)
                           else if SECTOR_ADDR x =? 1 then 0xffffffff
                           else nthZ (words 0 d) (word_no b x)), d'').
Proof.
  intros b d. apply (erase_program_read 0 b 0 INTEL28F128J3A_SIZE 0).
  - by apply flash_board_on_board.
  - by apply flash_board_ok.
  - done.
  - done.
  - done.
  - split; cbv; done.
  - repeat (apply Forall_cons; split; [unfold is_u32; lia|]). apply Forall_nil_2.
  - cbn. lia.
Defined.

(** ** Am29LV *)

Definition am29_chip : flash_am29_io :=
  match flash_am29lv160_setup true 0x200000 "Am29LV160T-8"%string with
  | Some io => io
  | None =>
      {| am_type := EmptyString; bytes := cmd_reset; halves := cmd_reset; query := None;
         bautoselect := None; wautoselect := None; chip_size := 0; sector_size := 0;
         dump_cnt := 0; dump_flags := 0 |}
  end.
Definition am29_board : board_dev flash_am29_io unit :=
  {| fio := am29_chip; fmem := fmem (flash_board 8 flash_intel_setup) |}.

(** A bus that answers at once and leaves the device alone. *)
Definition quiet_read (size addr : Z) (d : board_dev flash_am29_io unit)
    : result (Z * option Z * board_dev flash_am29_io unit) := Val (0, Some 0, d).
Definition quiet_write (size addr v : Z) (d : board_dev flash_am29_io unit)
    : result (Z * board_dev flash_am29_io unit) := Val (0, d).


