(* ===== verification/GdbNet.v ===== *)
(** * The GDB stub: connection, packets and hexadecimal text

    src/utils/debugger/gdbserver.c up to the commands: [readchar], [getpkt], [putpkt] and
    the conversions between bytes and hexadecimal digits.  The socket is a sequence of
    events: a segment of bytes that has arrived, or a moment at which nothing has; after the
    last event the peer has closed the connection.  The buffers are the static arrays of
    [sim_debug], with what earlier packets left in them; an access outside is [Undef].
    The second half is what the stub asks of a processor: the class [Target], memory byte by
    byte, and the table of break points (skyeye2gdb.c). *)

From Stdlib Require Import ZArith Lia Bool.
From stdpp Require Import base numbers option list.
From S2P Require Import Prelude Words.

(** ** Buffers *)

(** [buf[i]] and [buf[i] = v]. *)
Definition buf_get (buf : list Z) (i : Z) : result Z :=
  if (0 <=? i) && (i <? Z.of_nat (length buf)) then Val (nthZ buf i) else Undef.
Definition buf_put (buf : list Z) (i v : Z) : result (list Z) :=
  if (0 <=? i) && (i <? Z.of_nat (length buf)) then Val (updZ buf i v) else Undef.

Fixpoint buf_puts (buf : list Z) (i : Z) (l : list Z) : result (list Z) :=
  match l with
  | [] => Val buf
  | v :: l => let! buf := buf_put buf i v in buf_puts buf (i + 1) l
  end.

(** The characters of the string at [i]: [strlen] runs out of a buffer without a NUL. *)
Fixpoint cstring (buf : list Z) : option (list Z) :=
  match buf with
  | [] => None
  | c :: buf => if c =? 0 then Some [] else cons c <$> cstring buf
  end.

(** A string stored with its NUL. *)
Definition put_string (buf : list Z) (i : Z) (s : list Z) : result (list Z) :=
  buf_puts buf i (s ++ [0]).

(** ** Hexadecimal digits *)

(** Anything else prints a message and counts as 0. *)
Definition fromhex (a : Z) : Z :=
  if (48 <=? a) && (a <=? 57) then a - 48
  else if (97 <=? a) && (a <=? 102) then a - 97 + 10
  else if (65 <=? a) && (a <=? 70) then a - 65 + 10
  else 0.
Definition tohex (nib : Z) : Z := if nib <? 10 then 48 + nib else 97 + nib - 10.

(** [from] and [to] are positions in two different buffers. *)
Fixpoint convert_int_to_ascii (n : nat) (src : list Z) (from : Z) (dst : list Z) (to : Z)
    : result (list Z) :=
  match n with
  | O => buf_put dst to 0
  | S n =>
      let! ch := buf_get src from in
      let! dst := buf_put dst to (tohex (Z.land (Z.shiftr (Z.land ch 0xf0) 4) 0x0f)) in
      let! dst := buf_put dst (to + 1) (tohex (Z.land ch 0x0f)) in
      convert_int_to_ascii n src (from + 1) dst (to + 2)
  end.

Fixpoint convert_ascii_to_int (n : nat) (src : list Z) (from : Z) (dst : list Z) (to : Z)
    : result (list Z) :=
  match n with
  | O => Val dst
  | S n =>
      let! c1 := buf_get src from in
      let! c2 := buf_get src (from + 1) in
      let nib1 := fromhex c1 in
      let nib2 := fromhex c2 in
      let! dst :=
        buf_put dst to
          (Z.lor (Z.land (Z.shiftl (Z.land nib1 0x0f) 4) 0xf0) (Z.land nib2 0x0f)) in
      convert_ascii_to_int n src (from + 2) dst (to + 1)
  end.

(** ** The connection *)

Record net : Type := {
  rbuf : list Z;                     (* what [readchar] has read and not yet given out *)
  incoming : list (option (list Z)); (* [Some] segment, or [None]: nothing at this moment *)
  sent : list Z;
  broken : bool                      (* writes fail *)
}.

Definition set_rbuf (s : net) r : net :=
  {| rbuf := r; incoming := incoming s; sent := sent s; broken := broken s |}.
Definition set_incoming (s : net) l : net :=
  {| rbuf := rbuf s; incoming := l; sent := sent s; broken := broken s |}.
Definition set_sent (s : net) l : net :=
  {| rbuf := rbuf s; incoming := incoming s; sent := l; broken := broken s |}.

(** [Read (remote_desc, p, n)]: waits for a segment; no byte is the end of the connection. *)
Fixpoint sock_read (n : nat) (l : list (option (list Z))) : list Z * list (option (list Z)) :=
  match l with
  | [] => ([], [])
  | None :: l => sock_read n l
  | Some seg :: l =>
      match seg with
      | [] => sock_read n l
      | _ :: _ => (take n seg, match drop n seg with [] => l | r => Some r :: l end)
      end
  end.

(** [Write (remote_desc, p, n)]: whether all was written. *)
Definition sock_write (l : list Z) (s : net) : bool * net :=
  if broken s then (false, s) else (true, set_sent s (sent s ++ l)).

Definition BUFSIZ : nat := 8192.

(** -1 at the end of the connection. *)
Definition readchar (s : net) : Z * net :=
  match rbuf s with
  | c :: r => (Z.land c 0x7f, set_rbuf s r)
  | [] =>
      let (got, l) := sock_read BUFSIZ (incoming s) in
      let s := set_incoming s l in
      match got with
      | [] => (-1, s)
      | c :: r => (Z.land c 0x7f, set_rbuf s r)
      end
  end.

(** ** Packets

    Every iteration of the loops of [getpkt] takes a character of the connection, and one of
    [putpkt] a byte, so their number is bounded by the bytes that are still to come. *)

Definition bytes_left (s : net) : nat :=
  (length (rbuf s) + sum_list_with (fun e => match e with Some seg => length seg | None => 0%nat end) (incoming s))%nat.

(** To the next dollar sign, or -1. *)
Fixpoint find_start (fuel : nat) (s : net) : result (Z * net) :=
  match fuel with
  | O => Undef
  | S fuel =>
      let (c, s) := readchar s in
      if c =? 36 then Val (c, s) else if c <? 0 then Val (-1, s) else find_start fuel s
  end.

(** The characters up to the number sign, from position [i] on: how many, and their sum. *)
Fixpoint read_body (fuel : nat) (buf : list Z) (i csum : Z) (s : net)
    : result (option (Z * Z) * list Z * net) :=
  match fuel with
  | O => Undef
  | S fuel =>
      let (c, s) := readchar s in
      if c <? 0 then Val (None, buf, s)
      else if c =? 35 then Val (Some (i, csum), buf, s)
      else
        let! buf := buf_put buf i c in
        read_body fuel buf (i + 1) (u8 (csum + c)) s
  end.

Fixpoint getpkt_loop (fuel : nat) (buf : list Z) (s : net) : result (Z * list Z * net) :=
  match fuel with
  | O => Undef
  | S fuel =>
      let! (c, s) := find_start (S (bytes_left s)) s in
      if c <? 0 then Val (-1, buf, s)
      else
        let! (r, buf, s) := read_body (S (bytes_left s)) buf 0 0 s in
        match r with
        | None => Val (-1, buf, s)
        | Some (n, csum) =>
            let! buf := buf_put buf n 0 in
            let (d1, s) := readchar s in
            let (d2, s) := readchar s in
            let c1 := fromhex d1 in
            let c2 := fromhex d2 in
            if csum =? Z.shiftl c1 4 + c2 then Val (n, buf, (sock_write [43] s).2)
            else getpkt_loop fuel buf (sock_write [45] s).2
        end
  end.

(** The length of the packet, or -1. *)
Definition getpkt (buf : list Z) (s : net) : result (Z * list Z * net) :=
  getpkt_loop (S (bytes_left s)) buf s.

Definition checksum (l : list Z) : Z := fold_left (fun csum c => u8 (csum + c)) l 0.

(** The packet around a text. *)
Definition frame (l : list Z) : list Z :=
  let csum := checksum l in
  36 :: l ++ [35; tohex (Z.land (Z.shiftr csum 4) 0xf); tohex (Z.land csum 0xf)].

(** Sent again until the acknowledgement, which is read past the buffer of [readchar]. *)
Fixpoint send_until_ack (fuel : nat) (l : list Z) (s : net) : result (Z * net) :=
  match fuel with
  | O => Undef
  | S fuel =>
      let (ok, s) := sock_write l s in
      if ok then
        let (got, r) := sock_read 1 (incoming s) in
        let s := set_incoming s r in
        match got with
        | [] => Val (-1, s)
        | c :: _ => if c =? 43 then Val (1, s) else send_until_ack fuel l s
        end
      else Val (-1, s)
  end.

(** [buf2] has 2000 bytes, the NUL included. *)
Definition putpkt (buf : list Z) (s : net) : result (Z * net) :=
  match cstring buf with
  | None => Undef
  | Some text =>
      if 2000 <? Z.of_nat (length text) + 5 then Undef
      else send_until_ack (S (bytes_left s)) (frame text) s
  end.

(** * The GDB stub: what it asks of a processor

    src/utils/debugger/skyeye2gdb.c and the accessors of gdbserver.c: the registers of
    [register_defs_t], the debugging entries of [generic_arch_t], words in the byte order of
    the processor, the memory byte by byte and the table of break points. *)

(** ** Words in a buffer *)

(** [high]: [endian_flag == HIGH]. *)
Definition frommem (high : bool) (buf : list Z) (i : Z) : result Z :=
  let! m0 := buf_get buf i in
  let! m1 := buf_get buf (i + 1) in
  let! m2 := buf_get buf (i + 2) in
  let! m3 := buf_get buf (i + 3) in
  Val (if high
       then Z.lor (Z.lor (Z.lor (Z.shiftl m0 24) (Z.shiftl m1 16)) (Z.shiftl m2 8)) m3
       else Z.lor (Z.lor (Z.lor (Z.shiftl m3 24) (Z.shiftl m2 16)) (Z.shiftl m1 8)) m0).

Definition tomem (high : bool) (buf : list Z) (i val : Z) : result (list Z) :=
  let b k := u8 (Z.shiftr val k) in
  buf_puts buf i (if high then [b 24; b 16; b 8; b 0] else [b 0; b 8; b 16; b 24]).

(** ** The processor *)

Class Target (S : Type) : Type := {
  register_raw_size : Z -> Z;
  register_bytes : Z;
  register_byte : Z -> Z;
  num_regs : Z;
  pc_regnum : Z;
  sp_regnum : Z;
  fp_regnum : Z;
  (** [store_register (rn, &memory[i])] and [fetch_register (rn, &memory[i])]. *)
  store_register : Z -> list Z -> Z -> S -> result S;
  fetch_register : Z -> list Z -> Z -> S -> result (list Z);
  (** The fault, and what is stored through the pointer. *)
  ICE_read_byte : Z -> S -> result (Z * option Z * S);
  ICE_write_byte : Z -> Z -> S -> result (Z * S);
  get_pc : S -> Z;
  step_once : S -> result S;
  arch_reset : S -> result S
}.

Section target.
Context {S : Type} `{Target S}.

(** [for (regno = 0; regno < num_regs; regno++)], the registers from [regno] on. *)
Fixpoint fetch_all (n : nat) (regno : Z) (memory : list Z) (st : S) : result (list Z) :=
  match n with
  | O => Val memory
  | Datatypes.S n =>
      let! memory := fetch_register regno memory (register_byte regno) st in
      fetch_all n (regno + 1) memory st
  end.
Definition fetch_inferior_registers (regno : Z) (memory : list Z) (st : S) : result (list Z) :=
  if (regno =? -1) || (regno =? 0) then fetch_all (Z.to_nat num_regs) 0 memory st
  else fetch_register regno memory (register_byte regno) st.

Fixpoint store_all (n : nat) (regno : Z) (memory : list Z) (st : S) : result S :=
  match n with
  | O => Val st
  | Datatypes.S n =>
      let! st := store_register regno memory (register_byte regno) st in
      store_all n (regno + 1) memory st
  end.
Definition store_inferior_registers (regno : Z) (memory : list Z) (st : S) : result S :=
  if (regno =? -1) || (regno =? 0) then store_all (Z.to_nat num_regs) 0 memory st
  else store_register regno memory (register_byte regno) st.

(** [n] bytes from [addr + i] on.  [v]: the local of [sim_read], which keeps the byte before
    when an access stores none. *)
Fixpoint sim_read_from (n : nat) (addr i : Z) (v : option Z) (buffer : list Z) (st : S)
    : result (bool * list Z * S) :=
  match n with
  | O => Val (true, buffer, st)
  | Datatypes.S n =>
      let! (fault, b, st) := ICE_read_byte (u32 (addr + i)) st in
      let v := match b with Some _ => b | None => v end in
      if negb (fault =? 0) then Val (false, buffer, st)
      else
        match v with
        | None => Undef
        | Some v' =>
            let! buffer := buf_put buffer i (u8 v') in
            sim_read_from n addr (i + 1) v buffer st
        end
  end.
Definition sim_read (addr : Z) (buffer : list Z) (size : Z) (st : S) : result (Z * list Z * S) :=
  let! (ok, buffer, st) := sim_read_from (Z.to_nat size) addr 0 None buffer st in
  Val (if ok then size else -1, buffer, st).

Fixpoint sim_write_from (n : nat) (addr i : Z) (buffer : list Z) (st : S) : result (bool * S) :=
  match n with
  | O => Val (true, st)
  | Datatypes.S n =>
      let! b := buf_get buffer i in
      let! (fault, st) := ICE_write_byte (u32 (addr + i)) b st in
      if negb (fault =? 0) then Val (false, st) else sim_write_from n addr (i + 1) buffer st
  end.
Definition sim_write (addr : Z) (buffer : list Z) (size : Z) (st : S) : result (Z * S) :=
  let! (ok, st) := sim_write_from (Z.to_nat size) addr 0 buffer st in
  Val (if ok then size else -1, st).
End target.

(** ** Break points: the first [num_bps] entries of [bps] *)

Definition MAX_BREAKPOINTS : Z := 64.

Record breakpoints : Type := { bps : list Z; num_bps : Z }.

(** The position of an address among the entries from [i] on. *)
Fixpoint bp_find (n : nat) (i : Z) (t : list Z) (addr : Z) : result (option Z) :=
  match n with
  | O => Val None
  | S n =>
      let! b := buf_get t i in
      if b =? addr then Val (Some i) else bp_find n (i + 1) t addr
  end.

Definition sim_ice_breakpoint_insert (addr : Z) (t : breakpoints) : result (Z * breakpoints) :=
  let! r := bp_find (Z.to_nat (num_bps t)) 0 (bps t) addr in
  match r with
  | Some _ => Val (1, t)
  | None =>
      if MAX_BREAKPOINTS <=? num_bps t then Val (-1, t)
      else
        let! l := buf_put (bps t) (num_bps t) addr in
        Val (0, {| bps := l; num_bps := num_bps t + 1 |})
  end.

Definition sim_ice_breakpoint_remove (addr : Z) (t : breakpoints) : result (Z * breakpoints) :=
  let! r := bp_find (Z.to_nat (num_bps t)) 0 (bps t) addr in
  match r with
  | None => Val (0, t)
  | Some i =>
      let n := num_bps t - 1 in
      if i <? n then
        let! last := buf_get (bps t) n in
        let! l := buf_put (bps t) i last in
        Val (1, {| bps := l; num_bps := n |})
      else Val (1, {| bps := bps t; num_bps := n |})
  end.
