(* ===== verification/GdbServer.v ===== *)
(** * The GDB stub: trace points and commands

    src/utils/debugger/gdb_tracepoint.c and .h, and the trace packets of gdbserver.c.  A
    chain of siblings is a list, in the order of the chain; [selected_fb] is a position in
    the list of frames.  [fresh]: what [malloc] gives.
    The second half is [sim_debug]: the commands, execution and a connection. *)

From Stdlib Require Import ZArith Lia Bool.
From stdpp Require Import base numbers option list.
From S2P Require Import Prelude Words GdbNet.

(** ** Data *)

Inductive collect_action : Type :=
| COLLECT_REGISTERS (mask : Z)
| COLLECT_MEMORY (base_reg offset len : Z)
| COLLECT_EXPRESSION.

(** An action is made and given its type in one go, so ACTION_UNASSIGNED is never seen. *)
Inductive action : Type :=
| ACTION_COLLECT (ca : collect_action)
| ACTION_WHILE (step_count remaining_steps : Z) (child : list action).

Record collect_record : Type := {
  ca : collect_action;
  collect_data : list Z;
  collect_data_length : Z
}.

Record frame_buffer : Type := {
  fb_tp_number : Z;
  frame_number : Z;
  records : list collect_record
}.

Inductive tracepoint_status : Type := TRACEPOINT_DISABLED | TRACEPOINT_ENABLED | TRACEPOINT_STEPPING.
Inductive trace_status : Type := TRACE_STARTED | TRACE_STOPPED | TRACE_FOCUSING.

Record tracepoint_def : Type := {
  tp_address : Z;
  number : Z;
  actions : list action;
  status : tracepoint_status;
  pass_count : Z;
  remaining_pass : Z;
  remaining_step : Z
}.

Definition MAX_TRACEPOINTS : Z := 64.

Record SkyEye_ICE : Type := {
  bp_table : breakpoints;
  tps_status : trace_status;
  tps : list tracepoint_def;
  num_tps : Z;
  fbs : list frame_buffer;
  num_fb : Z;
  selected_fb : option nat;
  ro_regions : list (Z * Z)
}.

(** The static structure at the start. *)
Definition no_tracepoint : tracepoint_def :=
  {| tp_address := 0; number := 0; actions := []; status := TRACEPOINT_DISABLED;
     pass_count := 0; remaining_pass := 0; remaining_step := 0 |}.
Definition skyeye_ice : SkyEye_ICE :=
  {| bp_table := {| bps := replicate 64 0; num_bps := 0 |}; tps_status := TRACE_STARTED;
     tps := replicate 64 no_tracepoint; num_tps := 0; fbs := []; num_fb := 0;
     selected_fb := None; ro_regions := [] |}.

Definition set_bp_table (e : SkyEye_ICE) x : SkyEye_ICE :=
  {| bp_table := x; tps_status := tps_status e; tps := tps e; num_tps := num_tps e;
     fbs := fbs e; num_fb := num_fb e; selected_fb := selected_fb e; ro_regions := ro_regions e |}.
Definition set_tps_status (e : SkyEye_ICE) x : SkyEye_ICE :=
  {| bp_table := bp_table e; tps_status := x; tps := tps e; num_tps := num_tps e;
     fbs := fbs e; num_fb := num_fb e; selected_fb := selected_fb e; ro_regions := ro_regions e |}.
Definition set_tps (e : SkyEye_ICE) l n : SkyEye_ICE :=
  {| bp_table := bp_table e; tps_status := tps_status e; tps := l; num_tps := n;
     fbs := fbs e; num_fb := num_fb e; selected_fb := selected_fb e; ro_regions := ro_regions e |}.
Definition set_fbs (e : SkyEye_ICE) l n : SkyEye_ICE :=
  {| bp_table := bp_table e; tps_status := tps_status e; tps := tps e; num_tps := num_tps e;
     fbs := l; num_fb := n; selected_fb := selected_fb e; ro_regions := ro_regions e |}.
Definition set_selected_fb (e : SkyEye_ICE) x : SkyEye_ICE :=
  {| bp_table := bp_table e; tps_status := tps_status e; tps := tps e; num_tps := num_tps e;
     fbs := fbs e; num_fb := num_fb e; selected_fb := x; ro_regions := ro_regions e |}.
Definition set_ro_regions (e : SkyEye_ICE) x : SkyEye_ICE :=
  {| bp_table := bp_table e; tps_status := tps_status e; tps := tps e; num_tps := num_tps e;
     fbs := fbs e; num_fb := num_fb e; selected_fb := selected_fb e; ro_regions := x |}.

Definition tp_set_actions (t : tracepoint_def) x : tracepoint_def :=
  {| tp_address := tp_address t; number := number t; actions := x; status := status t;
     pass_count := pass_count t; remaining_pass := remaining_pass t;
     remaining_step := remaining_step t |}.
Definition tp_set_status (t : tracepoint_def) x : tracepoint_def :=
  {| tp_address := tp_address t; number := number t; actions := actions t; status := x;
     pass_count := pass_count t; remaining_pass := remaining_pass t;
     remaining_step := remaining_step t |}.
Definition tp_set_counts (t : tracepoint_def) pass remaining step : tracepoint_def :=
  {| tp_address := tp_address t; number := number t; actions := actions t; status := status t;
     pass_count := pass; remaining_pass := remaining; remaining_step := step |}.

(** ** The table of trace points *)

(** [tps[id]]. *)
Definition tp_at (e : SkyEye_ICE) (id : Z) : result tracepoint_def :=
  if 0 <=? id then match tps e !! Z.to_nat id with Some t => Val t | None => Undef end else Undef.
Definition tp_put (e : SkyEye_ICE) (id : Z) (t : tracepoint_def) : result SkyEye_ICE :=
  if (0 <=? id) && (id <? Z.of_nat (length (tps e)))
  then Val (set_tps e (<[Z.to_nat id := t]> (tps e)) (num_tps e)) else Undef.
Definition tp_update (f : tracepoint_def -> tracepoint_def) (id : Z) (e : SkyEye_ICE) : result SkyEye_ICE :=
  let! t := tp_at e id in tp_put e id (f t).

Definition set_tracepoint_status (id : Z) x e := tp_update (fun t => tp_set_status t x) id e.

(** The entry keeps the actions it had. *)
Definition add_tracepoint (tp_number address : Z) (e : SkyEye_ICE) : result (Z * SkyEye_ICE) :=
  let id := num_tps e in
  if id <? MAX_TRACEPOINTS then
    let! t := tp_at e id in
    let! e :=
      tp_put e id
        {| tp_address := address; number := tp_number; actions := actions t;
           status := TRACEPOINT_DISABLED; pass_count := 0; remaining_pass := 0;
           remaining_step := 0 |} in
    Val (id, set_tps e (tps e) (id + 1))
  else Val (-1, e).

Fixpoint find_tp_from (n : nat) (i : Z) (tp_number address : Z) (e : SkyEye_ICE) : result Z :=
  match n with
  | O => Val (-1)
  | S n =>
      let! t := tp_at e i in
      if (number t =? tp_number) && (tp_address t =? address) then Val i
      else find_tp_from n (i + 1) tp_number address e
  end.
Definition find_tp_id (tp_number address : Z) (e : SkyEye_ICE) : result Z :=
  find_tp_from (Z.to_nat (num_tps e)) 0 tp_number address e.

(** The new action at the end of the chain. *)
Definition append_action (id : Z) (a : action) (e : SkyEye_ICE) : result SkyEye_ICE :=
  tp_update (fun t => tp_set_actions t (actions t ++ [a])) id e.

(** ** Regions, frames and the state of the trace *)

Definition add_ro_region (first last : Z) (e : SkyEye_ICE) : SkyEye_ICE :=
  set_ro_regions e (ro_regions e ++ [(first, last)]).

Definition is_in_ro_region (addr size : Z) (e : SkyEye_ICE) : bool :=
  existsb (fun '(first, last) => (first <=? addr) && (u32 (addr + size) <=? last)) (ro_regions e).

Definition clear_tracepoints (e : SkyEye_ICE) : SkyEye_ICE :=
  set_tps e (map (fun t => tp_set_actions t []) (tps e)) 0.
(** [num_fb] is reset only when there are frames. *)
Definition clear_frame_buffers (e : SkyEye_ICE) : SkyEye_ICE :=
  match fbs e with [] => e | _ => set_fbs e [] 0 end.
Definition init_tracepoints (e : SkyEye_ICE) : SkyEye_ICE :=
  let e := set_tps_status (clear_tracepoints e) TRACE_STOPPED in
  let e := set_selected_fb (clear_frame_buffers e) None in
  set_ro_regions e [].

Definition start_trace_recording e := set_tps_status e TRACE_STARTED.
Definition stop_trace_recording e := set_tps_status e TRACE_STOPPED.
Definition start_trace_focusing e := set_tps_status e TRACE_FOCUSING.
Definition stop_trace_focusing e := set_selected_fb (set_tps_status e TRACE_STARTED) None.

(** The first frame from position [i] on that a test accepts. *)
Fixpoint fb_find (f : frame_buffer -> bool) (l : list frame_buffer) (i : nat) : option (nat * frame_buffer) :=
  match l with
  | [] => None
  | b :: l => if f b then Some (i, b) else fb_find f l (S i)
  end.

(** The number of the trace point; the first frame is selected when none has the number. *)
Definition select_frame_buffer_by_fn (n : Z) (e : SkyEye_ICE) : option Z * SkyEye_ICE :=
  if num_fb e <? n then (None, e)
  else
    let e := set_selected_fb e (match fbs e with [] => None | _ => Some 0%nat end) in
    match fb_find (fun b => frame_number b =? n) (fbs e) 0 with
    | Some (i, b) => (Some (fb_tp_number b), set_selected_fb e (Some i))
    | None => (None, e)
    end.

(** The search begins behind the selected frame, or the first. *)
Definition select_frame_buffer_by_tpn (n : Z) (e : SkyEye_ICE) : option Z * SkyEye_ICE :=
  let e :=
    match selected_fb e with
    | None => set_selected_fb e (match fbs e with [] => None | _ => Some 0%nat end)
    | Some _ => e
    end in
  match selected_fb e with
  | None => (None, e)
  | Some i =>
      match fb_find (fun b => fb_tp_number b =? n) (drop (S i) (fbs e)) (S i) with
      | Some (j, b) => (Some (frame_number b), set_selected_fb e (Some j))
      | None => (None, e)
      end
  end.

Definition selected_records (e : SkyEye_ICE) : list collect_record :=
  match selected_fb e with
  | Some i => match fbs e !! i with Some b => records b | None => [] end
  | None => []
  end.

(** [memcpy] of the first record of registers. *)
Fixpoint trace_registers (l : list collect_record) (memory : list Z) : result (list Z) :=
  match l with
  | [] => Val memory
  | r :: l =>
      match ca r with
      | COLLECT_REGISTERS _ =>
          buf_puts memory 0 (take (Z.to_nat (collect_data_length r)) (collect_data r))
      | _ => trace_registers l memory
      end
  end.
Definition trace_fetch_registers (memory : list Z) (e : SkyEye_ICE) : result (list Z) :=
  trace_registers (selected_records e) memory.

(** [memcpy] from the first record of memory that holds the range, by the offset of its
    action. *)
Fixpoint trace_memory (l : list collect_record) (addr : Z) (buffer : list Z) (size : Z)
    : result (Z * list Z) :=
  match l with
  | [] => Val (-1, buffer)
  | r :: l =>
      match ca r with
      | COLLECT_MEMORY _ offset len =>
          if (offset <=? addr) && (u32 (addr + size) <=? u32 (offset + len)) then
            let from := addr - offset in
            if from + size <=? Z.of_nat (length (collect_data r)) then
              let! buffer :=
                buf_puts buffer 0 (take (Z.to_nat size) (drop (Z.to_nat from) (collect_data r))) in
              Val (size, buffer)
            else Undef
          else trace_memory l addr buffer size
      | _ => trace_memory l addr buffer size
      end
  end.
Definition trace_read (addr : Z) (buffer : list Z) (size : Z) (e : SkyEye_ICE) : result (Z * list Z) :=
  trace_memory (selected_records e) addr buffer size.

(** ** A trace point that is hit *)

Section hit.
Context {S : Type} `{Target S} (fresh : Z -> list Z).

(** The record of an action. *)
Definition do_action (c : collect_action) (st : S) : result (collect_record * S) :=
  match c with
  | COLLECT_REGISTERS _ =>
      let! data := fetch_inferior_registers (-1) (fresh register_bytes) st in
      Val ({| ca := c; collect_data := data; collect_data_length := register_bytes |}, st)
  | COLLECT_MEMORY base_reg offset len =>
      let! base_reg_val :=
        if base_reg =? 0xffffffff then Val 0
        else
          let! registers := fetch_inferior_registers base_reg (fresh register_bytes) st in
          let! b := buf_get registers (register_byte base_reg) in
          Val (u32 (if b <? 128 then b else b - 256)) in
      let! (size, data, st) := sim_read (u32 (base_reg_val + offset)) (fresh len) (s32 len) st in
      Val ({| ca := c; collect_data := data; collect_data_length := u32 size |}, st)
  | COLLECT_EXPRESSION => Undef
  end.

(** The actions of a chain: the records, the status of the trace point, the chain with its
    counts, the processor. *)
Fixpoint do_action_list (fuel : nat) (l : list action) (ts : tracepoint_status) (st : S)
    : result (list collect_record * tracepoint_status * list action * S) :=
  match fuel with
  | O => Undef
  | Datatypes.S fuel =>
      match l with
      | [] => Val ([], ts, [], st)
      | ACTION_COLLECT c :: l =>
          let! (r, st) := do_action c st in
          let! (rs, ts, l, st) := do_action_list fuel l ts st in
          Val (r :: rs, ts, ACTION_COLLECT c :: l, st)
      | ACTION_WHILE step_count remaining child :: l =>
          let! (rs1, ts, remaining, child, st) :=
            if remaining =? 0 then Val ([], ts, remaining, child, st)
            else
              let! (rs, ts, child, st) := do_action_list fuel child TRACEPOINT_STEPPING st in
              Val (rs, ts, remaining - 1, child, st) in
          let ts := if remaining =? 0 then TRACEPOINT_ENABLED else ts in
          let remaining := if remaining =? 0 then step_count else remaining in
          let! (rs, ts, l, st) := do_action_list fuel l ts st in
          Val (rs1 ++ rs, ts, ACTION_WHILE step_count remaining child :: l, st)
      end
  end.

(** The links of a tree of actions. *)
Fixpoint action_size (a : action) : nat :=
  match a with
  | ACTION_COLLECT _ => 1
  | ACTION_WHILE _ _ child => Datatypes.S (Datatypes.S (sum_list_with action_size child))
  end.
Definition action_fuel (l : list action) : nat := Datatypes.S (sum_list_with action_size l).

(** A new frame with the records of a chain of actions. *)
Definition record_frame (id : Z) (l : list action) (before : list action) (e : SkyEye_ICE) (st : S)
    : result (SkyEye_ICE * S) :=
  let! t := tp_at e id in
  let! (rs, ts, l, st) := do_action_list (action_fuel l) l (status t) st in
  let fb := {| fb_tp_number := number t; frame_number := num_fb e; records := rs |} in
  let e := set_fbs e (fbs e ++ [fb]) (num_fb e + 1) in
  let! e := tp_put e id (tp_set_status (tp_set_actions t (before ++ l)) ts) in
  Val (e, st).

(** The actions before the first loop, and from it on. *)
Fixpoint to_while (l : list action) : option (list action * list action) :=
  match l with
  | [] => None
  | ACTION_WHILE _ _ _ :: _ => Some ([], l)
  | a :: l => match to_while l with Some (before, l) => Some (a :: before, l) | None => None end
  end.

Definition handle_tracepoint (id : Z) (e : SkyEye_ICE) (st : S) : result (SkyEye_ICE * S) :=
  let! t := tp_at e id in
  match status t with
  | TRACEPOINT_STEPPING =>
      match actions t with
      | [] => Undef
      | _ =>
          match to_while (actions t) with
          | None => Val (e, st)
          | Some (before, l) => record_frame id l before e st
          end
      end
  | TRACEPOINT_ENABLED =>
      if pass_count t =? 0 then record_frame id (actions t) [] e st
      else if remaining_pass t =? 0 then Val (e, st)
      else
        let! e := tp_put e id (tp_set_counts t (pass_count t) (remaining_pass t - 1) (remaining_step t)) in
        record_frame id (actions t) [] e st
  | TRACEPOINT_DISABLED => Val (e, st)
  end.
End hit.

(** * The GDB stub: commands

    The commands of [sim_debug] in src/utils/debugger/gdbserver.c, the execution under the
    debugger of skyeye2gdb.c for the processors with [step_once], and a connection from its
    first packet to its end. *)

(** ** Fields of packets *)

(** The hexadecimal number at position [i], up to a character that stops it: the number and
    the position of that character.  The fuel is the length of the buffer, past which no
    position is read. *)
Fixpoint hex_field (fuel : nat) (stop : Z -> bool) (buf : list Z) (i acc : Z) : result (Z * Z) :=
  match fuel with
  | O => Undef
  | S fuel =>
      let! ch := buf_get buf i in
      if stop ch then Val (acc, i)
      else hex_field fuel stop buf (i + 1) (Z.lor (u32 (Z.shiftl acc 4)) (Z.land (fromhex ch) 0x0f))
  end.
Definition hex_until (stop : Z -> bool) (buf : list Z) (i : Z) : result (Z * Z) :=
  hex_field (S (length buf)) stop buf i 0.

Definition is_comma (c : Z) : bool := c =? 44.
Definition is_colon (c : Z) : bool := c =? 58.
Definition is_end (c : Z) : bool := c =? 0.
Definition is_dash_or_end (c : Z) : bool := (c =? 45) || (c =? 0).
Definition is_comma_or_end (c : Z) : bool := (c =? 44) || (c =? 0).

(** At most [n] digits up to the end of the text. *)
Fixpoint short_field (n : nat) (buf : list Z) (i acc : Z) : result Z :=
  match n with
  | O => Val acc
  | S n =>
      let! ch := buf_get buf i in
      if ch =? 0 then Val acc
      else short_field n buf (i + 1) (Z.lor (u32 (Z.shiftl acc 4)) (Z.land (fromhex ch) 0x0f))
  end.

(** [from] is position [i] of the buffer.  The address is an [unsigned long], of which the
    callers take the low 32 bits. *)
Definition decode_m_packet (buf : list Z) (i : Z) : result (Z * Z) :=
  let! (mem_addr, i) := hex_until is_comma buf i in
  let! len := short_field 4 buf (i + 1) 0 in
  Val (mem_addr, len).

Definition decode_M_packet (buf : list Z) (i : Z) (to : list Z) : result (Z * Z * list Z) :=
  let! (mem_addr, i) := hex_until is_comma buf i in
  let! (len, i) := hex_until is_colon buf (i + 1) in
  let! to := convert_ascii_to_int (Z.to_nat len) buf (i + 1) to 0 in
  Val (mem_addr, len, to).

(** ** Replies *)

Definition write_ok (buf : list Z) : result (list Z) := put_string buf 0 [79; 75].
Definition write_enn (buf : list Z) : result (list Z) := put_string buf 0 [69; 48; 49].

(** ["%x"]. *)
Fixpoint hex_digits (n : nat) (v : Z) (acc : list Z) : list Z :=
  match n with
  | O => acc
  | S n =>
      let acc := tohex (v mod 16) :: acc in
      if v <? 16 then acc else hex_digits n (v / 16) acc
  end.
Definition print_hex (v : Z) : list Z := hex_digits 8 v [].

Section outreg.
Context {S : Type} `{Target S} (registers : list Z).

Definition outreg (regno : Z) (buf : list Z) (i : Z) : result (list Z * Z) :=
  let regsize := register_raw_size regno in
  let! buf := buf_put buf i (tohex (Z.shiftr regno 4)) in
  let! buf := buf_put buf (i + 1) (tohex (Z.land regno 0xf)) in
  let! buf := buf_put buf (i + 2) 58 in
  let! buf := convert_int_to_ascii (Z.to_nat regsize) registers (register_byte regno) buf (i + 3) in
  let! buf := buf_put buf (i + 3 + 2 * regsize) 59 in
  Val (buf, i + 4 + 2 * regsize).

Definition prepare_resume_reply (buf : list Z) (st signo : Z) : result (list Z) :=
  let! buf := buf_put buf 0 st in
  let! buf := buf_put buf 1 (tohex (Z.shiftr (Z.land signo 0xf0) 4)) in
  let! buf := buf_put buf 2 (tohex (Z.land signo 0x0f)) in
  let! (buf, i) :=
    if st =? 84 then
      let! (buf, i) := outreg pc_regnum buf 3 in
      let! (buf, i) := outreg fp_regnum buf i in
      outreg sp_regnum buf i
    else Val (buf, 3) in
  buf_put buf i 0.
End outreg.

(** ** Trace packets *)

(** [E] and [D]: the counts of a trace point. *)
Definition trace_counts (ts : tracepoint_status) (buf : list Z) (i id : Z) (e : SkyEye_ICE)
    : result SkyEye_ICE :=
  let! (step, i) := hex_until is_colon buf (i + 2) in
  let! (pass, i) := hex_until is_dash_or_end buf (i + 1) in
  tp_update (fun t => tp_set_counts (tp_set_status t ts) pass pass step) id e.

(** [M]: a base register other than -1 loses its first digit, and its comma stops the offset
    at 0. *)
Definition memory_action (buf : list Z) (i : Z) : result collect_action :=
  let i := i + 1 in
  let! c := buf_get buf i in
  let! (base_reg, i) :=
    if c =? 45 then let! (x, j) := hex_until is_comma buf i in Val (0xffffffff, j + 1)
    else hex_until is_comma_or_end buf (i + 1) in
  let! (offset, i) := hex_until is_comma_or_end buf i in
  let! (len, i) := hex_until is_dash_or_end buf (i + 1) in
  Val (COLLECT_MEMORY base_reg offset len).

(** The new action, if the packet makes one; the fuel bounds the nesting of [S]. *)
Fixpoint decode_DP_playload (fuel : nat) (buf : list Z) (i id : Z) (e : SkyEye_ICE)
    : result (option action * SkyEye_ICE) :=
  match fuel with
  | O => Undef
  | S fuel =>
      let! c := buf_get buf i in
      if c =? 69 then let! e := trace_counts TRACEPOINT_ENABLED buf i id e in Val (None, e)
      else if c =? 68 then let! e := trace_counts TRACEPOINT_DISABLED buf i id e in Val (None, e)
      else if c =? 82 then
        let! (mask, j) := hex_until is_dash_or_end buf (i + 1) in
        Val (Some (ACTION_COLLECT (COLLECT_REGISTERS mask)), e)
      else if c =? 77 then
        let! a := memory_action buf i in Val (Some (ACTION_COLLECT a), e)
      else if c =? 83 then
        let! t := tp_at e id in
        let! (child, e) := decode_DP_playload fuel buf (i + 1) id e in
        Val (Some (ACTION_WHILE (remaining_step t) (remaining_step t) (option_list child)), e)
      else Val (None, e)
  end.

Definition decode_DP_packet (buf : list Z) (i : Z) (e : SkyEye_ICE) : result SkyEye_ICE :=
  let! c := buf_get buf i in
  let! (tp_number, i) := hex_until is_colon buf (if c =? 45 then i + 1 else i) in
  let! (address, i) := hex_until is_colon buf (i + 1) in
  let! id := find_tp_id tp_number address e in
  let! (id, e) := if id =? -1 then add_tracepoint tp_number address e else Val (id, e) in
  let! (a, e) := decode_DP_playload (S (length buf)) buf (i + 1) id e in
  match a with Some a => append_action id a e | None => Val e end.

(** ["F%xT%x"], ["F-1"]. *)
Definition frame_reply (frame tracepoint : Z) : list Z := 70 :: print_hex frame ++ 84 :: print_hex tracepoint.
Definition no_frame_reply : list Z := [70; 45; 49].

(** The selections by address and by range leave the buffer as it is. *)
Definition decode_Frame_packet (buf : list Z) (i : Z) (e : SkyEye_ICE) : result (list Z * SkyEye_ICE) :=
  let e := start_trace_focusing e in
  let! c := buf_get buf i in
  if (c =? 112) || (c =? 114) || (c =? 111) then Val (buf, e)
  else if c =? 116 then
    let! (n, j) := hex_until is_end buf (i + 4) in
    let (r, e) := select_frame_buffer_by_tpn n e in
    let! buf := put_string buf 0 (match r with Some fn => frame_reply fn n | None => no_frame_reply end) in
    Val (buf, e)
  else
    let! (n, j) := hex_until is_end buf i in
    if n =? 0xFFFFFFFF then
      let! buf := write_ok buf in Val (buf, stop_trace_focusing e)
    else
      let (r, e) := select_frame_buffer_by_fn n e in
      let! buf := put_string buf 0 (match r with Some tpn => frame_reply n tpn | None => no_frame_reply end) in
      Val (buf, e).

(** [second]: the number being read is the end of the region. *)
Fixpoint ro_loop (fuel : nat) (buf : list Z) (i first last : Z) (second : bool) (e : SkyEye_ICE)
    : result SkyEye_ICE :=
  match fuel with
  | O => Undef
  | S fuel =>
      let! ch := buf_get buf i in
      let digit x := Z.lor (u32 (Z.shiftl x 4)) (Z.land (fromhex ch) 0x0f) in
      if ch =? 0 then
        Val (if negb (first =? 0) || negb (last =? 0) then add_ro_region first last e else e)
      else if ch =? 44 then ro_loop fuel buf (i + 1) first last true e
      else if ch =? 58 then ro_loop fuel buf (i + 1) 0 0 false (add_ro_region first last e)
      else if second then ro_loop fuel buf (i + 1) first (digit last) true e
      else ro_loop fuel buf (i + 1) (digit first) last false e
  end.
Definition decode_ro_packet (buf : list Z) (i : Z) (e : SkyEye_ICE) : result (list Z * SkyEye_ICE) :=
  let! e := ro_loop (S (length buf)) buf i 0 0 false e in
  let! buf := write_ok buf in Val (buf, e).

(** From position 1 of the packet on; [false]: not a packet it knows. *)
Definition decode_Q_packet (buf : list Z) (e : SkyEye_ICE) : result (bool * list Z * SkyEye_ICE) :=
  let! c := buf_get buf 1 in
  if negb (c =? 84) then Val (false, buf, e)
  else
    let ok e := let! buf := write_ok buf in Val (true, buf, e) in
    let! c := buf_get buf 2 in
    if c =? 105 then ok (init_tracepoints e)
    else if c =? 83 then
      let! c := buf_get buf 4 in
      if c =? 97 then ok (start_trace_recording e)
      else if c =? 111 then ok (stop_trace_recording e)
      else Val (false, buf, e)
    else if c =? 68 then let! e := decode_DP_packet buf 5 e in ok e
    else if c =? 70 then let! (buf, e) := decode_Frame_packet buf 8 e in Val (true, buf, e)
    else if c =? 114 then let! (buf, e) := decode_ro_packet buf 5 e in Val (true, buf, e)
    else Val (false, buf, e).

(** ** [strtoul (p, &p, 16)] *)

Definition is_hex (c : Z) : bool :=
  (48 <=? c) && (c <=? 57) || (97 <=? c) && (c <=? 102) || (65 <=? c) && (c <=? 70).
Definition is_space (c : Z) : bool := (c =? 32) || (9 <=? c) && (c <=? 13).

(** The first position from [i] on whose character fails a test. *)
Fixpoint skip_while (fuel : nat) (f : Z -> bool) (buf : list Z) (i : Z) : result Z :=
  match fuel with
  | O => Undef
  | S fuel => let! c := buf_get buf i in if f c then skip_while fuel f buf (i + 1) else Val i
  end.

Fixpoint hex_value (n : nat) (buf : list Z) (i acc : Z) : Z :=
  match n with
  | O => acc
  | S n => hex_value n buf (i + 1) (acc * 16 + fromhex (nthZ buf i))
  end.

Section strtoul.
Context (host_lp64 : bool).

Definition ULONG_LIMIT : Z := if host_lp64 then 2 ^ 64 else 2 ^ 32.

(** The value and the position behind it; without a digit the position given. *)
Definition strtoul16 (buf : list Z) (i : Z) : result (Z * Z) :=
  let n := S (length buf) in
  let! j := skip_while n is_space buf i in
  let! c := buf_get buf j in
  let neg := c =? 45 in
  let j := if neg || (c =? 43) then j + 1 else j in
  let! c0 := buf_get buf j in
  let! prefix :=
    if c0 =? 48 then
      let! c1 := buf_get buf (j + 1) in
      if (c1 =? 120) || (c1 =? 88) then let! c2 := buf_get buf (j + 2) in Val (is_hex c2) else Val false
    else Val false in
  let j := if prefix then j + 2 else j in
  let! k := skip_while n is_hex buf j in
  if k =? j then Val (0, i)
  else
    let v := hex_value (Z.to_nat (k - j)) buf j 0 in
    Val (if ULONG_LIMIT <=? v then ULONG_LIMIT - 1 else if neg then (- v) mod ULONG_LIMIT else v, k).

Definition skip_comma (buf : list Z) (i : Z) : result Z :=
  let! c := buf_get buf i in Val (if c =? 44 then i + 1 else i).

(** The type and the address of a break point; the length is read and not used. *)
Definition decode_z_packet (buf : list Z) : result (Z * Z) :=
  let! (type, i) := strtoul16 buf 1 in
  let! i := skip_comma buf i in
  let! (addr, i) := strtoul16 buf i in
  let! i := skip_comma buf i in
  let! (len, i) := strtoul16 buf i in
  Val (u32 type, u32 addr).
End strtoul.

(** ** The stub *)

Record gdb (S : Type) : Type := {
  conn : net;
  own_buf : list Z;
  mem_buf : list Z;
  registers : list Z;
  last_status : Z;  (* [status] and [signal], which are not set before a [?] *)
  last_signal : Z;
  ice : SkyEye_ICE;
  remote_debug : bool;
  target : S
}.
Arguments conn {S} g : rename.
Arguments own_buf {S} g : rename.
Arguments mem_buf {S} g : rename.
Arguments registers {S} g : rename.
Arguments last_status {S} g : rename.
Arguments last_signal {S} g : rename.
Arguments ice {S} g : rename.
Arguments remote_debug {S} g : rename.
Arguments target {S} g : rename.

Section stub.
Context {S : Type} `{Target S} (fresh : Z -> list Z) (host_lp64 : bool).
Implicit Types g : gdb S.

Definition set_conn g x : gdb S :=
  {| conn := x; own_buf := own_buf g; mem_buf := mem_buf g; registers := registers g;
     last_status := last_status g; last_signal := last_signal g; ice := ice g;
     remote_debug := remote_debug g; target := target g |}.
Definition set_own_buf g x : gdb S :=
  {| conn := conn g; own_buf := x; mem_buf := mem_buf g; registers := registers g;
     last_status := last_status g; last_signal := last_signal g; ice := ice g;
     remote_debug := remote_debug g; target := target g |}.
Definition set_mem_buf g x : gdb S :=
  {| conn := conn g; own_buf := own_buf g; mem_buf := x; registers := registers g;
     last_status := last_status g; last_signal := last_signal g; ice := ice g;
     remote_debug := remote_debug g; target := target g |}.
Definition set_registers g x : gdb S :=
  {| conn := conn g; own_buf := own_buf g; mem_buf := mem_buf g; registers := x;
     last_status := last_status g; last_signal := last_signal g; ice := ice g;
     remote_debug := remote_debug g; target := target g |}.
Definition set_last g st sg : gdb S :=
  {| conn := conn g; own_buf := own_buf g; mem_buf := mem_buf g; registers := registers g;
     last_status := st; last_signal := sg; ice := ice g; remote_debug := remote_debug g;
     target := target g |}.
Definition set_ice g x : gdb S :=
  {| conn := conn g; own_buf := own_buf g; mem_buf := mem_buf g; registers := registers g;
     last_status := last_status g; last_signal := last_signal g; ice := x;
     remote_debug := remote_debug g; target := target g |}.
Definition set_remote_debug g x : gdb S :=
  {| conn := conn g; own_buf := own_buf g; mem_buf := mem_buf g; registers := registers g;
     last_status := last_status g; last_signal := last_signal g; ice := ice g;
     remote_debug := x; target := target g |}.
Definition set_target g x : gdb S :=
  {| conn := conn g; own_buf := own_buf g; mem_buf := mem_buf g; registers := registers g;
     last_status := last_status g; last_signal := last_signal g; ice := ice g;
     remote_debug := remote_debug g; target := x |}.

(** *** Execution *)

(** [select] without waiting, then a read of at most 100 bytes; at the end of the connection
    the socket is readable too. *)
Definition remote_interrupt g : bool * gdb S :=
  match incoming (conn g) with
  | None :: l => (false, set_conn g (set_incoming (conn g) l))
  | l => (true, set_conn g (set_incoming (conn g) (sock_read 100 l).2))
  end.

Definition at_breakpoint g : result bool :=
  let t := bp_table (ice g) in
  let! r := bp_find (Z.to_nat (num_bps t)) 0 (bps t) (get_pc (target g)) in
  Val (bool_decide (is_Some r)).

(** The trace points from [i] on, at an address. *)
Fixpoint trace_hits (n : nat) (i addr : Z) g : result (gdb S) :=
  match n with
  | O => Val g
  | Datatypes.S n =>
      let! t := tp_at (ice g) i in
      let! g :=
        if (tp_address t =? addr) && (match status t with TRACEPOINT_ENABLED => true | _ => false end)
           || (match status t with TRACEPOINT_STEPPING => true | _ => false end)
        then
          let! (e, st) := handle_tracepoint fresh i (ice g) (target g) in
          Val (set_target (set_ice g e) st)
        else Val g in
      trace_hits n (i + 1) addr g
  end.

(** The body of the loop of [sim_resume] in debug mode, and whether it returns before the
    step. *)
Definition resume_once g : result (bool * gdb S) :=
  let (stop, g) := remote_interrupt g in
  if stop then Val (true, g)
  else
    let! hit := at_breakpoint g in
    if hit then Val (true, g)
    else
      let! g :=
        match tps_status (ice g) with
        | TRACE_STARTED => trace_hits (Z.to_nat (num_tps (ice g))) 0 (get_pc (target g)) g
        | _ => Val g
        end in
      let! st := step_once (target g) in Val (false, set_target g st).

Definition gdbserver_step g : result (gdb S) := let! (stop, g) := resume_once g in Val g.

(** Every iteration that goes on takes an event of the connection. *)
Fixpoint resume_loop (fuel : nat) g : result (gdb S) :=
  match fuel with
  | O => Undef
  | Datatypes.S fuel =>
      let! (stop, g) := resume_once g in if stop then Val g else resume_loop fuel g
  end.
Definition gdbserver_cont g : result (gdb S) :=
  resume_loop (Datatypes.S (length (incoming (conn g)))) g.

(** *** Commands *)

Definition reply g (r : result (list Z)) : result (gdb S) := let! buf := r in Val (set_own_buf g buf).
Definition no_reply g : result (gdb S) := reply g (buf_put (own_buf g) 0 0).

Definition is_focusing g : bool := match tps_status (ice g) with TRACE_FOCUSING => true | _ => false end.

Definition read_registers g : result (gdb S) :=
  let! regs :=
    if is_focusing g then trace_fetch_registers (registers g) (ice g)
    else fetch_inferior_registers (-1) (registers g) (target g) in
  let g := set_registers g regs in
  reply g (convert_int_to_ascii (Z.to_nat register_bytes) regs 0 (own_buf g) 0).

Definition write_registers g : result (gdb S) :=
  let! regs := convert_ascii_to_int (Z.to_nat register_bytes) (own_buf g) 1 (registers g) 0 in
  let! st := store_inferior_registers (-1) regs (target g) in
  let g := set_target (set_registers g regs) st in
  reply g (write_ok (own_buf g)).

Definition read_memory g : result (gdb S) :=
  let! (mem_addr, len) := decode_m_packet (own_buf g) 1 in
  let! (size, g) :=
    if is_focusing g && negb (is_in_ro_region mem_addr len (ice g)) then
      let! (size, buf) := trace_read mem_addr (mem_buf g) len (ice g) in
      Val (size, set_mem_buf g buf)
    else
      let! (size, buf, st) := sim_read mem_addr (mem_buf g) len (target g) in
      Val (size, set_target (set_mem_buf g buf) st) in
  if size =? -1 then reply g (write_enn (own_buf g))
  else reply g (convert_int_to_ascii (Z.to_nat len) (mem_buf g) 0 (own_buf g) 0).

Definition write_memory g : result (gdb S) :=
  let! (mem_addr, len, buf) := decode_M_packet (own_buf g) 1 (mem_buf g) in
  let! (size, st) := sim_write mem_addr buf (s32 len) (target g) in
  let g := set_target (set_mem_buf g buf) st in
  reply g (if u32 size =? len then write_ok (own_buf g) else write_enn (own_buf g)).

Definition trace_command g : result (gdb S) :=
  let! (known, buf, e) := decode_Q_packet (own_buf g) (ice g) in
  let g := set_ice (set_own_buf g buf) e in
  if known then Val g else no_reply g.

Definition breakpoint_command (insert : bool) g : result (gdb S) :=
  let! (type, addr) := decode_z_packet host_lp64 (own_buf g) in
  if (type =? 0) || (type =? 1) then
    let! (r, t) :=
      if insert then sim_ice_breakpoint_insert addr (bp_table (ice g))
      else sim_ice_breakpoint_remove addr (bp_table (ice g)) in
    let g := set_ice g (set_bp_table (ice g) t) in
    reply g (if r <? 0 then write_enn (own_buf g) else write_ok (own_buf g))
  else reply g (write_enn (own_buf g)).

Definition resume_reply g : result (gdb S) :=
  reply g (prepare_resume_reply (registers g) (own_buf g) (last_status g) (last_signal g)).

(** The switch on the first character of the packet. *)
Definition command g : result (gdb S) :=
  let! ch := buf_get (own_buf g) 0 in
  if ch =? 100 then Val (set_remote_debug g (negb (remote_debug g)))
  else if ch =? 63 then resume_reply (set_last g 83 5)
  else if ch =? 103 then read_registers g
  else if ch =? 71 then write_registers g
  else if ch =? 109 then read_memory g
  else if ch =? 77 then write_memory g
  else if ch =? 81 then trace_command g
  else if ch =? 99 then let! g := gdbserver_cont g in resume_reply g
  else if ch =? 115 then let! g := gdbserver_step g in resume_reply g
  else if ch =? 122 then breakpoint_command false g
  else if ch =? 90 then breakpoint_command true g
  else no_reply g.

(** The loop over the packets of a connection: it ends at the end of the connection and at
    an empty packet.  Every packet takes characters of the connection. *)
Fixpoint packets (fuel : nat) g : result (gdb S) :=
  match fuel with
  | O => Undef
  | Datatypes.S fuel =>
      let! (n, buf, s) := getpkt (own_buf g) (conn g) in
      let g := set_conn (set_own_buf g buf) s in
      if n <=? 0 then Val g
      else
        let! g := command g in
        let! (ok, s) := putpkt (own_buf g) (conn g) in
        let g := set_conn g s in
        if (last_status g =? 87) || (last_status g =? 88) then Exit 0 else packets fuel g
  end.

(** A connection: the processor is reset, then the packets. *)
Definition connection g : result (gdb S) :=
  let! st := arch_reset (target g) in
  packets (Datatypes.S (bytes_left (conn g))) (set_target g st).

(** [sim_debug] at its start. *)
Definition gdb_start (s : net) (st sg : Z) (regs : list Z) (t : S) : gdb S :=
  {| conn := s; own_buf := replicate 8000 0; mem_buf := replicate 8000 0; registers := regs;
     last_status := st; last_signal := sg; ice := skyeye_ice; remote_debug := false; target := t |}.
End stub.
