(* ===== verification/GdbPackets.v ===== *)
(** * The GDB stub: buffers, characters and packets

    The contents of a buffer at a position, what a store leaves of it, the characters that a
    connection gives one after the other, and the hexadecimal text of bytes and numbers; then
    [getpkt] and [putpkt] over a line that damages packets. *)

From Stdlib Require Import ZArith Lia Bool.
From stdpp Require Import base numbers option list.
From S2P Require Import Prelude Words GdbNet GdbServer.

Notation len l := (Z.of_nat (length l)).

(** ** Contents of a buffer *)

Definition text_at (buf : list Z) (i : Z) (l : list Z) : Prop :=
  0 <= i /\ i + len l <= len buf /\ forall k, 0 <= k < len l -> nthZ buf (i + k) = nthZ l k.

Definition stored (buf : list Z) (i : Z) (l buf' : list Z) : Prop :=
  length buf' = length buf
  /\ forall j, 0 <= j -> nthZ buf' j = if (i <=? j) && (j <? i + len l) then nthZ l (j - i) else nthZ buf j.

Lemma nthZ_0 c l : nthZ (c :: l) 0 = c.
Proof. done. Qed.
Lemma nthZ_S c l k : 0 <= k -> nthZ (c :: l) (k + 1) = nthZ l k.
Proof.
  intros Hk. unfold nthZ. rewrite !(proj2 (Z.leb_le _ _)) by lia.
  by replace (Z.to_nat (k + 1)) with (S (Z.to_nat k)) by lia.
Qed.
Lemma nthZ_app l l' k : 0 <= k -> nthZ (l ++ l') k = if k <? len l then nthZ l k else nthZ l' (k - len l).
Proof.
  intros Hk. unfold nthZ. rewrite (proj2 (Z.leb_le 0 k)) by lia.
  destruct (Z.ltb_spec k (len l)).
  - rewrite app_nth1 by lia. done.
  - rewrite app_nth2 by lia. rewrite (proj2 (Z.leb_le 0 _)) by lia. f_equal. lia.
Qed.

Lemma text_cons buf i c l :
  text_at buf i (c :: l) -> buf_get buf i = Val c /\ text_at buf (i + 1) l.
Proof.
  intros (Hi & Hl & Ht). cbn [length] in Hl. split.
  - unfold buf_get. rewrite (proj2 (Z.leb_le _ _)), (proj2 (Z.ltb_lt _ _)) by lia. cbn [andb].
    specialize (Ht 0). cbn [length] in Ht. rewrite Z.add_0_r in Ht. by rewrite Ht by lia.
  - split; [lia|]. split; [lia|]. intros k Hk. specialize (Ht (k + 1)). cbn [length] in Ht.
    replace (i + 1 + k) with (i + (k + 1)) by lia. rewrite Ht by lia. apply nthZ_S. lia.
Qed.

Lemma text_app buf i l l' : text_at buf i (l ++ l') -> text_at buf i l /\ text_at buf (i + len l) l'.
Proof.
  intros (Hi & Hl & Ht). rewrite length_app in *. split; (split; [lia|split; [lia|]]).
  - intros k Hk. rewrite Ht by lia. rewrite nthZ_app by lia. by rewrite (proj2 (Z.ltb_lt _ _)) by lia.
  - intros k Hk. replace (i + len l + k) with (i + (len l + k)) by lia. rewrite Ht by lia.
    rewrite nthZ_app by lia. rewrite (proj2 (Z.ltb_ge _ _)) by lia. f_equal. lia.
Qed.

Lemma text_prefix buf l : text_at buf 0 l -> exists tail, buf = l ++ tail.
Proof.
  intros (_ & Hl & Ht). exists (drop (length l) buf). apply nthZ_inj.
  - rewrite length_app, length_drop. lia.
  - intros k Hk. rewrite nthZ_app by lia. case_tests; [by rewrite <- Ht by lia|].
    unfold nthZ. rewrite !(proj2 (Z.leb_le _ _)) by lia. rewrite !nth_lookup_Z, lookup_drop.
    do 2 f_equal. lia.
Qed.

Lemma stored_nil buf i : stored buf i [] buf.
Proof.
  split; [done|]. intros j Hj. cbn [length Z.of_nat]. destruct (_ && _) eqn:E; [|done].
  apply andb_true_iff in E as [E1%Z.leb_le E2%Z.ltb_lt]. lia.
Qed.

Lemma stored_cons buf i v l buf' :
  0 <= i < len buf -> stored (updZ buf i v) (i + 1) l buf' -> stored buf i (v :: l) buf'.
Proof.
  intros Hi [Hl Hn]. split; [by rewrite Hl, length_updZ|]. intros j Hj. rewrite Hn by done.
  rewrite nthZ_updZ by lia. cbn [length]. destruct (Z.eqb_spec j i) as [->|Hne].
  - rewrite (proj2 (Z.leb_gt _ _)), (proj2 (Z.leb_le i i)) by lia. cbn [andb].
    rewrite (proj2 (Z.ltb_lt _ _)) by lia. by rewrite Z.sub_diag.
  - destruct (Z.leb_spec (i + 1) j); cbn [andb].
    + rewrite (proj2 (Z.leb_le i j)) by lia. cbn [andb].
      replace (j <? i + Z.of_nat (S (length l))) with (j <? i + 1 + len l)
        by (f_equal; lia).
      destruct (_ <? _); [|done]. replace (j - i) with (j - (i + 1) + 1) by lia.
      by rewrite nthZ_S by lia.
    + by rewrite (proj2 (Z.leb_gt i j)) by lia.
Qed.

Lemma stored_length buf i l buf' : stored buf i l buf' -> length buf' = length buf.
Proof. by intros []. Qed.

Lemma stored_text buf i l buf' :
  stored buf i l buf' -> 0 <= i -> i + len l <= len buf -> text_at buf' i l.
Proof.
  intros [Hl Hn] Hi Hlen. split; [lia|]. split; [lia|]. intros k Hk. rewrite Hn by lia.
  rewrite (proj2 (Z.leb_le _ _)), (proj2 (Z.ltb_lt _ _)) by lia. cbn [andb]. f_equal. lia.
Qed.

Lemma stored_app buf i l l' buf1 buf2 :
  0 <= i -> i + len l <= len buf -> stored buf i l buf1 -> stored buf1 (i + len l) l' buf2 ->
  stored buf i (l ++ l') buf2.
Proof.
  intros Hi Hlen [Hl1 H1] [Hl2 H2]. split; [congruence|]. intros j Hj.
  rewrite H2, H1 by done. rewrite length_app. destruct (Z.leb_spec i j); cbn [andb].
  - rewrite nthZ_app by lia. destruct (Z.leb_spec (i + len l) j); cbn [andb].
    + replace (j <? i + Z.of_nat (length l + length l')) with (j <? i + len l + len l')
        by (f_equal; lia).
      rewrite (proj2 (Z.ltb_ge (j - i) _)), (proj2 (Z.ltb_ge j (i + len l))) by lia.
      destruct (_ <? _); [|done]. f_equal. lia.
    + rewrite (proj2 (Z.ltb_lt j (i + Z.of_nat (length l + length l')))) by lia.
      by rewrite (proj2 (Z.ltb_lt (j - i) _)), (proj2 (Z.ltb_lt j (i + len l))) by lia.
  - by rewrite (proj2 (Z.leb_gt (i + len l) j)) by lia.
Qed.

Lemma put_in buf i v : 0 <= i < len buf -> buf_put buf i v = Val (updZ buf i v).
Proof. intros Hi. unfold buf_put. by rewrite (proj2 (Z.leb_le _ _)), (proj2 (Z.ltb_lt _ _)) by lia. Qed.

Lemma puts_stored buf i l :
  0 <= i -> i + len l <= len buf -> exists buf', buf_puts buf i l = Val buf' /\ stored buf i l buf'.
Proof.
  revert buf i. induction l as [|v l IH]; intros buf i Hi Hl.
  { exists buf. split; [done|apply stored_nil]. }
  cbn [length] in Hl. cbn [buf_puts]. rewrite put_in by lia. cbn [rbind].
  destruct (IH (updZ buf i v) (i + 1)) as (buf' & E & Hs); [lia|rewrite length_updZ; lia|].
  exists buf'. split; [done|]. apply stored_cons; [lia|done].
Qed.

Lemma cstring_text buf l : text_at buf 0 (l ++ [0]) -> Forall (fun c => c <> 0) l -> cstring buf = Some l.
Proof.
  intros (tail & ->)%text_prefix Hl. rewrite <- app_assoc. cbn [app].
  induction Hl as [|c l Hc Hl IH]; [done|]. cbn [app cstring].
  by rewrite (proj2 (Z.eqb_neq c 0) Hc), IH.
Qed.

Lemma put_string_stored buf l :
  len l + 1 <= len buf ->
  exists buf', put_string buf 0 l = Val buf' /\ length buf' = length buf /\ text_at buf' 0 (l ++ [0]).
Proof.
  intros Hl. destruct (puts_stored buf 0 (l ++ [0])) as (buf' & E & Hs);
    [lia|rewrite length_app; cbn; lia|].
  exists buf'. split; [done|]. split; [by eapply stored_length|].
  eapply stored_text; [done|lia|]. rewrite length_app. cbn. lia.
Qed.

(** A test of all the numbers below a bound. *)
Lemma all_below n f b :
  forallb f (map Z.of_nat (seq 0 n)) = true -> 0 <= b < Z.of_nat n -> f b = true.
Proof.
  intros Hf Hb. apply (proj1 (forallb_forall _ _) Hf). apply in_map_iff. exists (Z.to_nat b).
  split; [lia|]. apply in_seq. lia.
Qed.

(** ** Hexadecimal text *)

Definition hex_char (c : Z) : Prop := 48 <= c <= 57 \/ 97 <= c <= 102.

Lemma tohex_char n : 0 <= n < 16 -> hex_char (tohex n).
Proof. intros Hn. unfold tohex, hex_char. case_tests; lia. Qed.

Lemma fromhex_tohex n : 0 <= n < 16 -> fromhex (tohex n) = n.
Proof. intros Hn. enum_Z n 0 16; reflexivity. Qed.

Definition hexes (l : list Z) : list Z := flat_map (fun b => [tohex (b / 16); tohex (b mod 16)]) l.

Definition is_byte (b : Z) : Prop := 0 <= b < 256.

Lemma length_hexes l : len (hexes l) = 2 * len l.
Proof. induction l as [|b l IH]; [done|]. cbn [hexes flat_map app length]. unfold hexes in IH. lia. Qed.

Lemma nibble_high b : is_byte b -> Z.land (Z.shiftr (Z.land b 0xf0) 4) 0x0f = b / 16.
Proof.
  intros Hb. apply Z.eqb_eq.
  by apply (all_below 256 (fun b => Z.land (Z.shiftr (Z.land b 0xf0) 4) 0x0f =? b / 16)).
Qed.
Lemma nibble_low b : Z.land b 0x0f = b mod 16.
Proof. change 0x0f with (Z.ones 4). by rewrite Z.land_ones. Qed.

Lemma hexes_char l : Forall is_byte l -> Forall hex_char (hexes l).
Proof.
  induction 1 as [|b l Hb Hl IH]; [constructor|]. unfold is_byte in Hb. cbn [hexes flat_map app].
  apply Forall_cons. split; [|apply Forall_cons; split; [|exact IH]];
    apply tohex_char; Z.div_mod_to_equations; lia.
Qed.

Lemma int_to_ascii bytes src from dst to :
  text_at src from bytes -> Forall is_byte bytes -> 0 <= to -> to + 2 * len bytes + 1 <= len dst ->
  exists dst', convert_int_to_ascii (length bytes) src from dst to = Val dst'
    /\ stored dst to (hexes bytes ++ [0]) dst'.
Proof.
  intros Ht Hb. revert from dst to Ht.
  induction Hb as [|b bytes Hb Hbs IH]; intros from dst to Ht Hto Hl; cbn [length] in Hl.
  { cbn [convert_int_to_ascii length]. rewrite put_in by lia. eexists. split; [done|].
    apply stored_cons; [lia|apply stored_nil]. }
  destruct (text_cons _ _ _ _ Ht) as [Hg Ht']. cbn [convert_int_to_ascii length].
  rewrite Hg. cbn [rbind]. rewrite nibble_high, nibble_low by done.
  rewrite put_in by lia. cbn [rbind]. rewrite put_in by (rewrite length_updZ; lia). cbn [rbind].
  edestruct (IH (from + 1) (updZ (updZ dst to (tohex (b / 16))) (to + 1) (tohex (b mod 16))) (to + 2))
    as (dst' & E & Hs); [done|lia|rewrite !length_updZ; lia|].
  exists dst'. split; [done|]. cbn [hexes flat_map app].
  apply stored_cons; [lia|]. apply stored_cons; [rewrite length_updZ; lia|].
  by replace (to + 1 + 1) with (to + 2) by lia.
Qed.

Lemma joined_nibbles b :
  is_byte b ->
  Z.lor (Z.land (Z.shiftl (Z.land (b / 16) 0x0f) 4) 0xf0) (Z.land (b mod 16) 0x0f) = b.
Proof.
  intros Hb. apply Z.eqb_eq.
  by apply (all_below 256 (fun b =>
    Z.lor (Z.land (Z.shiftl (Z.land (b / 16) 0x0f) 4) 0xf0) (Z.land (b mod 16) 0x0f) =? b)).
Qed.

Lemma ascii_to_int bytes src from dst to :
  text_at src from (hexes bytes) -> Forall is_byte bytes -> 0 <= to -> to + len bytes <= len dst ->
  exists dst', convert_ascii_to_int (length bytes) src from dst to = Val dst'
    /\ stored dst to bytes dst'.
Proof.
  intros Ht Hb. revert from dst to Ht.
  induction Hb as [|b bytes Hb Hbs IH]; intros from dst to Ht Hto Hl; cbn [length] in Hl.
  { eexists. split; [done|apply stored_nil]. }
  cbn [hexes flat_map app] in Ht. destruct (text_cons _ _ _ _ Ht) as [Hg1 Ht1].
  destruct (text_cons _ _ _ _ Ht1) as [Hg2 Ht2]. cbn [convert_ascii_to_int length].
  rewrite Hg1. cbn [rbind]. rewrite Hg2. cbn [rbind]. pose proof Hb as Hb'. unfold is_byte in Hb'.
  rewrite !fromhex_tohex by (Z.div_mod_to_equations; lia).
  rewrite joined_nibbles by done. rewrite put_in by lia. cbn [rbind].
  edestruct (IH (from + 2) (updZ dst to b) (to + 1)) as (dst' & E & Hs).
  - by replace (from + 2) with (from + 1 + 1) by lia.
  - lia.
  - rewrite length_updZ. lia.
  - exists dst'. split; [done|]. apply stored_cons; [lia|done].
Qed.

(** ** Numbers *)

Definition hexval (l : list Z) (acc : Z) : Z :=
  fold_left (fun acc ch => Z.lor (u32 (Z.shiftl acc 4)) (Z.land (fromhex ch) 0x0f)) l acc.

Lemma append_digit acc d : 0 <= acc -> 16 * acc + 15 < 4294967296 -> 0 <= d < 16 ->
  Z.lor (u32 (Z.shiftl acc 4)) (Z.land (fromhex (tohex d)) 0x0f) = 16 * acc + d.
Proof.
  intros Ha Hb Hd. rewrite fromhex_tohex, nibble_low, Z.mod_small by lia.
  rewrite Z.shiftl_mul_pow2, u32_id by (unfold is_u32; lia).
  rewrite lor_low by lia. lia.
Qed.

Lemma hex_digits_value n v acc :
  0 <= v < 16 ^ Z.of_nat n -> 16 ^ Z.of_nat n <= 4294967296 ->
  hexval (hex_digits n v acc) 0 = hexval acc v.
Proof.
  revert v acc. induction n as [|n IH]; intros v acc Hv Hn.
  { change (16 ^ Z.of_nat 0) with 1 in Hv. by replace v with 0 by lia. }
  rewrite Nat2Z.inj_succ, Z.pow_succ_r in * by lia. cbn [hex_digits].
  assert (Hm : 0 <= v mod 16 < 16) by (apply Z.mod_pos_bound; lia).
  destruct (Z.ltb_spec v 16).
  - cbn [hexval fold_left]. unfold hexval at 1. rewrite append_digit by lia.
    by rewrite Z.mod_small by lia.
  - rewrite IH; [|split; [apply Z.div_pos|apply Z.div_lt_upper_bound]; lia|lia].
    unfold hexval at 1. cbn [fold_left]. rewrite append_digit; [|Z.div_mod_to_equations; lia..].
    unfold hexval. f_equal. Z.div_mod_to_equations; lia.
Qed.

Lemma print_hex_value v : is_u32 v -> hexval (print_hex v) 0 = v.
Proof. intros Hv. unfold print_hex. by rewrite hex_digits_value. Qed.

Lemma hex_digits_char n v acc : 0 <= v -> Forall hex_char acc -> Forall hex_char (hex_digits n v acc).
Proof.
  revert v acc. induction n as [|n IH]; intros v acc Hv Ha; [done|]. cbn [hex_digits].
  assert (Hc : Forall hex_char (tohex (v mod 16) :: acc)).
  { apply Forall_cons. split; [|done]. apply tohex_char, Z.mod_pos_bound. lia. }
  destruct (v <? 16); [done|]. apply IH; [apply Z.div_pos; lia|done].
Qed.
Lemma print_hex_char v : 0 <= v -> Forall hex_char (print_hex v).
Proof. intros Hv. by apply hex_digits_char. Qed.

Lemma hex_digits_length n v acc m :
  0 <= v < 16 ^ Z.of_nat m -> (1 <= m)%nat -> (length (hex_digits n v acc) <= m + length acc)%nat.
Proof.
  revert v acc m. induction n as [|n IH]; intros v acc m Hv Hm; [cbn; lia|]. cbn [hex_digits].
  destruct (Z.ltb_spec v 16); [cbn; lia|]. destruct m as [|m]; [lia|].
  rewrite Nat2Z.inj_succ, Z.pow_succ_r in Hv by lia.
  destruct m as [|m]; [cbn in Hv; lia|].
  specialize (IH (v / 16) (tohex (v mod 16) :: acc) (S m)). cbn [length] in IH.
  rewrite IH; [lia| |lia]. split; [apply Z.div_pos|apply Z.div_lt_upper_bound]; lia.
Qed.

Lemma hex_field_read fuel stop buf i l c acc :
  text_at buf i (l ++ [c]) -> Forall (fun ch => stop ch = false) l -> stop c = true ->
  (length l < fuel)%nat -> hex_field fuel stop buf i acc = Val (hexval l acc, i + len l).
Proof.
  revert fuel i acc. induction l as [|ch l IH]; intros fuel i acc Ht Hl Hc Hf;
    (destruct fuel as [|fuel]; [cbn in Hf; lia|]); cbn [app] in Ht;
    destruct (text_cons _ _ _ _ Ht) as [Hg Ht']; cbn [hex_field]; rewrite Hg; cbn [rbind].
  - rewrite Hc. do 2 f_equal. cbn. lia.
  - apply Forall_cons in Hl as [Hch Hl]. rewrite Hch. rewrite (IH fuel) by (done || (cbn in Hf; lia)).
    cbn [length hexval fold_left]. unfold hexval. do 2 f_equal. lia.
Qed.

Lemma hex_until_read stop buf i v c :
  text_at buf i (print_hex v ++ [c]) -> is_u32 v -> stop c = true ->
  (forall ch, hex_char ch -> stop ch = false) ->
  hex_until stop buf i = Val (v, i + len (print_hex v)).
Proof.
  intros Ht Hv Hc Hs. unfold hex_until.
  rewrite (hex_field_read _ stop buf i (print_hex v) c 0); try done.
  - by rewrite print_hex_value.
  - eapply Forall_impl; [apply print_hex_char; apply Hv|done].
  - destruct Ht as (Hi & Hl & _). rewrite length_app in Hl. cbn [length] in Hl. lia.
Qed.

Lemma short_field_read n buf i l acc :
  text_at buf i (l ++ [0]) -> Forall (fun ch => ch <> 0) l -> (length l <= n)%nat ->
  short_field n buf i acc = Val (hexval l acc).
Proof.
  revert n i acc. induction l as [|ch l IH]; intros n i acc Ht Hl Hn.
  - destruct n; [done|]. destruct (text_cons _ _ _ _ Ht) as [Hg _]. cbn [short_field].
    by rewrite Hg.
  - destruct n as [|n]; [cbn in Hn; lia|]. destruct (text_cons _ _ _ _ Ht) as [Hg Ht'].
    apply Forall_cons in Hl as [Hch Hl]. cbn [short_field]. rewrite Hg. cbn [rbind].
    rewrite (proj2 (Z.eqb_neq ch 0) Hch). apply IH; [done|done|cbn in Hn; lia].
Qed.

(** ** The characters of a connection *)

(** The next characters that [readchar] gives. *)
Inductive reads : net -> list Z -> net -> Prop :=
| reads_nil s : reads s [] s
| reads_cons s c s1 cs s2 : readchar s = (c, s1) -> 0 <= c -> reads s1 cs s2 -> reads s (c :: cs) s2.

Definition pending (s : net) : list Z :=
  rbuf s ++ concat (map (fun e => match e with Some seg => seg | None => [] end) (incoming s)).

Definition same_output (s s' : net) : Prop := sent s' = sent s /\ broken s' = broken s.

Lemma bytes_left_pending s : bytes_left s = length (pending s).
Proof.
  unfold bytes_left, pending. rewrite length_app. f_equal.
  induction (incoming s) as [|[seg|] l IH]; cbn; rewrite ?length_app; lia.
Qed.

Lemma sock_read_pending n l :
  let flat := concat (map (fun e => match e with Some seg => seg | None => [] end) l) in
  let flat' := concat (map (fun e => match e with Some seg => seg | None => [] end) (sock_read (S n) l).2) in
  (sock_read (S n) l).1 ++ flat' = flat /\ ((sock_read (S n) l).1 = [] -> flat = []).
Proof.
  induction l as [|[seg|] l IH]; [done| |exact IH]. destruct seg as [|c seg]; [exact IH|].
  cbn [sock_read fst snd]. split; [|done]. cbn [map concat].
  rewrite <- (take_drop (S n) (c :: seg)) at 3. rewrite <- app_assoc. f_equal.
  by destruct (drop (S n) (c :: seg)).
Qed.

Lemma readchar_pending s c l :
  pending s = c :: l ->
  exists s', readchar s = (Z.land c 0x7f, s') /\ pending s' = l /\ same_output s s'.
Proof.
  unfold pending, readchar. intros Hp. destruct (rbuf s) as [|c' r] eqn:Er; cbn [app] in Hp.
  - pose proof (sock_read_pending 8191 (incoming s)) as [Hs Hn].
    change 8192%nat with BUFSIZ in *. unfold BUFSIZ in *.
    destruct (sock_read (S 8191) (incoming s)) as [got l'] eqn:E. cbn [fst snd] in *.
    change (sock_read 8192 (incoming s)) with (sock_read (S 8191) (incoming s)). rewrite E.
    destruct got as [|c' got]; [rewrite (Hn eq_refl) in Hp; done|].
    rewrite Hp in Hs. cbn [app] in Hs. injection Hs as -> Hs.
    eexists. split; [done|]. split; [exact Hs|done].
  - injection Hp as -> Hp. eexists. split; [done|]. split; [exact Hp|done].
Qed.

Lemma reads_pending s l rest :
  pending s = l ++ rest -> Forall (fun c => Z.land c 0x7f = c) l ->
  exists s', reads s l s' /\ pending s' = rest /\ same_output s s'.
Proof.
  revert s. induction l as [|c l IH]; intros s Hp Hl.
  { exists s. split; [constructor|done]. }
  apply Forall_cons in Hl as [Hc Hl]. destruct (readchar_pending s c (l ++ rest) Hp) as (s1 & E & Hp1 & Hs1 & Hb1).
  destruct (IH s1 Hp1 Hl) as (s2 & Hr & Hp2 & Hs2 & Hb2). exists s2. split.
  - rewrite Hc in E. econstructor; [exact E| |exact Hr]. rewrite <- Hc. apply Z.land_nonneg. lia.
  - split; [done|]. split; congruence.
Qed.

Lemma reads_buffered s l r :
  rbuf s = l ++ r -> Forall (fun c => Z.land c 0x7f = c) l -> reads s l (set_rbuf s r).
Proof.
  revert s. induction l as [|c l IH]; intros s Hp Hl.
  { cbn in Hp. subst r. destruct s. constructor. }
  apply Forall_cons in Hl as [Hc Hl]. cbn [app] in Hp. econstructor.
  - unfold readchar. rewrite Hp, Hc. reflexivity.
  - rewrite <- Hc. apply Z.land_nonneg. lia.
  - specialize (IH (set_rbuf s (l ++ r)) eq_refl Hl). exact IH.
Qed.

(** A segment that arrives when nothing is buffered. *)
Lemma reads_segment s seg l :
  rbuf s = [] -> incoming s = Some seg :: l -> seg <> [] -> (length seg <= BUFSIZ)%nat ->
  Forall (fun c => Z.land c 0x7f = c) seg -> reads s seg (set_incoming s l).
Proof.
  intros Hr Hi Hne Hlen Hseg. destruct seg as [|c seg]; [done|].
  apply Forall_cons in Hseg as [Hc Hseg]. econstructor.
  - unfold readchar. rewrite Hr, Hi. cbn [sock_read]. rewrite take_ge, drop_ge by done.
    rewrite Hc. reflexivity.
  - rewrite <- Hc. apply Z.land_nonneg. lia.
  - pose proof (reads_buffered (set_rbuf (set_incoming s l) seg) seg []) as Hb.
    cbn [rbuf set_rbuf] in Hb. rewrite app_nil_r in Hb. specialize (Hb eq_refl Hseg).
    replace (set_incoming s l) with (set_rbuf (set_rbuf (set_incoming s l) seg) []) at 2; [exact Hb|].
    destruct s. cbn in Hr |- *. by rewrite Hr.
Qed.

Lemma reads_app s l l' s1 s2 : reads s l s1 -> reads s1 l' s2 -> reads s (l ++ l') s2.
Proof. intros H. revert s2. induction H; intros; [done|]. econstructor; eauto. Qed.

Lemma reads_split s l l' s2 : reads s (l ++ l') s2 -> exists s1, reads s l s1 /\ reads s1 l' s2.
Proof.
  revert s. induction l as [|c l IH]; intros s Hr; [exists s; split; [constructor|done]|].
  cbn [app] in Hr. inversion Hr; subst. destruct (IH _ ltac:(eassumption)) as (s1' & Hr1 & Hr2).
  exists s1'. split; [|done]. econstructor; eauto.
Qed.

Lemma reads_length s l s' : reads s l s' -> bytes_left s = (length l + bytes_left s')%nat.
Proof.
  induction 1 as [|s c s1 cs s2 E Hc Hr IH]; [done|]. cbn [length].
  rewrite !bytes_left_pending in *. destruct (pending s) as [|c' l] eqn:Hp.
  - exfalso. revert E. unfold pending, readchar in *. apply app_eq_nil in Hp as [Hp1 Hp2].
    rewrite Hp1. pose proof (sock_read_pending 8191 (incoming s)) as [Hs Hn]. cbn zeta in Hs.
    rewrite Hp2 in Hs. apply app_eq_nil in Hs as [Hs _].
    change BUFSIZ with (S 8191). destruct (sock_read (S 8191) (incoming s)) as [got l']. cbn in Hs. subst got.
    intros [= <- <-]. lia.
  - destruct (readchar_pending s c' l Hp) as (s' & E' & Hp' & _). rewrite E in E'.
    injection E' as _ <-. rewrite Hp' in IH. cbn [length]. lia.
Qed.

(** * The GDB stub: packets over an unreliable line

    What [putpkt] puts around a text, [getpkt] takes off again, however the bytes are cut
    into segments; damaged packets are refused and asked for again. *)

Definition char7 (c : Z) : Prop := 0 <= c < 128.

Lemma char7_land c : char7 c -> Z.land c 0x7f = c.
Proof. intros Hc. change 0x7f with (Z.ones 7). rewrite Z.land_ones by lia. by apply Z.mod_small. Qed.
Lemma chars7_land l : Forall char7 l -> Forall (fun c => Z.land c 0x7f = c) l.
Proof. intros Hl. eapply Forall_impl; [exact Hl|apply char7_land]. Qed.

(** ** Reading *)

Lemma find_start_reads fuel noise s s' :
  reads s (noise ++ [36]) s' -> Forall (fun c => c <> 36) noise -> (length noise < fuel)%nat ->
  find_start fuel s = Val (36, s').
Proof.
  revert fuel s. induction noise as [|c noise IH]; intros fuel s Hr Hn Hf;
    (destruct fuel as [|fuel]; [cbn in Hf; lia|]); cbn [app] in Hr; inversion Hr; subst;
    cbn [find_start]; match goal with E : readchar s = _ |- _ => rewrite E end.
  - cbn [Z.eqb Pos.eqb]. match goal with R : reads _ [] _ |- _ => by inversion R end.
  - apply Forall_cons in Hn as [Hc Hn]. rewrite (proj2 (Z.eqb_neq c 36) Hc).
    rewrite (proj2 (Z.ltb_ge c 0)) by lia. apply IH; [done|done|cbn in Hf; lia].
Qed.

Lemma read_body_reads fuel buf i csum body s s' :
  reads s (body ++ [35]) s' -> Forall (fun c => c <> 35) body -> (length body < fuel)%nat ->
  0 <= i -> i + len body <= len buf ->
  exists buf', read_body fuel buf i csum s
      = Val (Some (i + len body, fold_left (fun x c => u8 (x + c)) body csum), buf', s')
    /\ stored buf i body buf'.
Proof.
  revert fuel buf i csum s. induction body as [|c body IH]; intros fuel buf i csum s Hr Hb Hf Hi Hl;
    (destruct fuel as [|fuel]; [cbn in Hf; lia|]); cbn [app] in Hr; inversion Hr; subst;
    cbn [read_body]; match goal with E : readchar s = _ |- _ => rewrite E end.
  - cbn [Z.ltb Z.compare Z.eqb Pos.eqb]. exists buf.
    match goal with R : reads _ [] _ |- _ => inversion R; subst end.
    split; [|apply stored_nil]. cbn [length Z.of_nat fold_left]. by rewrite Z.add_0_r.
  - apply Forall_cons in Hb as [Hc Hb]. cbn [length] in Hl, Hf.
    rewrite (proj2 (Z.ltb_ge c 0)), (proj2 (Z.eqb_neq c 35) Hc) by lia.
    rewrite put_in by lia. cbn [rbind].
    edestruct (IH fuel (updZ buf i c) (i + 1) (u8 (csum + c))) as (buf' & E & Hs);
      [eassumption|done|lia|lia|rewrite length_updZ; lia|].
    exists buf'. rewrite E. split; [|apply stored_cons; [lia|done]].
    cbn [length fold_left]. replace (i + Z.of_nat (S (length body))) with (i + 1 + len body) by lia. done.
Qed.

(** A packet on the line: what comes before its start, its text and its two last digits. *)
Record on_line : Type := { noise : list Z; body : list Z; digit1 : Z; digit2 : Z }.

Definition line (p : on_line) : list Z := noise p ++ 36 :: body p ++ [35; digit1 p; digit2 p].

Record readable (n : Z) (p : on_line) : Prop := {
  rd_chars : Forall char7 (line p);
  rd_noise : Forall (fun c => c <> 36) (noise p);
  rd_body : Forall (fun c => c <> 35) (body p);
  rd_fits : len (body p) < n
}.

Definition intact (p : on_line) : Prop :=
  checksum (body p) = Z.shiftl (fromhex (digit1 p)) 4 + fromhex (digit2 p).
#[export] Instance intact_dec p : Decision (intact p).
Proof. apply Z.eq_dec. Defined.

Lemma getpkt_packet fuel buf p s s' :
  reads s (line p) s' -> readable (len buf) p ->
  exists buf', length buf' = length buf /\ text_at buf' 0 (body p ++ [0])
    /\ getpkt_loop (S fuel) buf s
       = if decide (intact p) then Val (len (body p), buf', (sock_write [43] s').2)
         else getpkt_loop fuel buf' (sock_write [45] s').2.
Proof.
  intros Hr [_ Hn Hb Hl]. unfold line in Hr.
  change (36 :: body p ++ [35; digit1 p; digit2 p])
    with ([36] ++ body p ++ [35] ++ [digit1 p; digit2 p]) in Hr.
  rewrite !app_assoc, <- (app_assoc _ (body p)) in Hr.
  apply reads_split in Hr as (s2 & Hr & Hd). apply reads_split in Hr as (s1 & Hr1 & Hr2).
  pose proof (reads_length _ _ _ Hr1) as Hl1. pose proof (reads_length _ _ _ Hr2) as Hl2.
  rewrite length_app in Hl1, Hl2. cbn [length] in Hl1, Hl2.
  cbn [getpkt_loop]. rewrite (find_start_reads _ (noise p) s s1) by (done || lia). cbn [rbind].
  cbn [Z.ltb Z.compare].
  edestruct (read_body_reads (S (bytes_left s1)) buf 0 0 (body p)) as (buf1 & E & Hs1);
    [eassumption|done|lia|lia|lia|].
  rewrite E. cbn [rbind]. rewrite Z.add_0_l. pose proof (stored_length _ _ _ _ Hs1) as Hlen1.
  rewrite put_in by lia. cbn [rbind].
  inversion Hd as [|? ? s3 ? ? E1 _ Hd1]; subst. inversion Hd1 as [|? ? s4 ? ? E2 _ Hd2]; subst.
  inversion Hd2; subst. rewrite E1, E2.
  assert (Hs : stored buf 0 (body p ++ [0]) (updZ buf1 (len (body p)) 0)).
  { eapply stored_app; [lia|lia|exact Hs1|]. rewrite Z.add_0_l.
    apply stored_cons; [lia|apply stored_nil]. }
  exists (updZ buf1 (len (body p)) 0). split; [by rewrite length_updZ|].
  split; [eapply stored_text; [exact Hs|lia|rewrite length_app; cbn [length]; lia]|].
  change (fold_left (fun x c => u8 (x + c)) (body p) 0) with (checksum (body p)).
  unfold intact. destruct (decide _) as [Hc|Hc].
  - by rewrite (proj2 (Z.eqb_eq _ _) Hc).
  - by rewrite (proj2 (Z.eqb_neq _ _) Hc).
Qed.

(** ** What [putpkt] sends *)

Lemma checksum_byte l : is_byte (checksum l).
Proof.
  unfold checksum. assert (H : is_byte 0) by (unfold is_byte; lia). revert H. generalize 0.
  induction l as [|c l IH]; intros x Hx; [done|]. cbn [fold_left]. apply IH.
  unfold is_byte, u8. apply Z.mod_pos_bound. lia.
Qed.

(** The packet of a text. *)
Definition packet_of (noise : list Z) (l : list Z) : on_line :=
  {| noise := noise; body := l; digit1 := tohex (checksum l / 16); digit2 := tohex (checksum l mod 16) |}.

Lemma frame_line n l : line (packet_of n l) = n ++ frame l.
Proof.
  unfold line, frame. cbn [noise body digit1 digit2 packet_of]. do 4 f_equal.
  pose proof (checksum_byte l) as Hc. unfold is_byte in Hc.
  change 0xf with 0x0f. rewrite !nibble_low. rewrite Z.shiftr_div_pow2 by lia. change (2 ^ 4) with 16.
  by rewrite (Z.mod_small (checksum l / 16)) by (Z.div_mod_to_equations; lia).
Qed.

Lemma packet_intact n l : intact (packet_of n l).
Proof.
  unfold intact. cbn [body digit1 digit2 packet_of]. pose proof (checksum_byte l) as Hc.
  unfold is_byte in Hc. rewrite !fromhex_tohex by (Z.div_mod_to_equations; lia).
  rewrite Z.shiftl_mul_pow2 by lia. change (2 ^ 4) with 16. Z.div_mod_to_equations; lia.
Qed.

(** A text that can be sent. *)
Definition sendable (l : list Z) : Prop := Forall (fun c => 1 <= c < 128 /\ c <> 35) l.

Lemma packet_readable n l bound :
  Forall char7 n -> Forall (fun c => c <> 36) n -> sendable l -> len l < bound ->
  readable bound (packet_of n l).
Proof.
  intros Hn7 Hn Hl Hb. split; [|done| |done].
  - rewrite frame_line. unfold frame. apply Forall_app. split; [done|]. apply Forall_cons.
    split; [unfold char7; lia|]. apply Forall_app. split.
    + eapply Forall_impl; [exact Hl|]. intros c []. unfold char7. lia.
    + pose proof (checksum_byte l) as Hc. unfold is_byte in Hc. change 0xf with 0x0f. rewrite !nibble_low.
      assert (Hx : forall x, char7 (tohex (x mod 16))).
      { intros x. assert (H : hex_char (tohex (x mod 16))) by (apply tohex_char, Z.mod_pos_bound; lia).
        unfold hex_char in H. unfold char7. lia. }
      repeat apply Forall_cons_2; try apply Hx; [unfold char7; lia|constructor].
  - eapply Forall_impl; [exact Hl|]. by intros c [].
Qed.

Lemma sent_write l s : broken s = false -> (sock_write l s).2 = set_sent s (sent s ++ l).
Proof. intros Hb. unfold sock_write. by rewrite Hb. Qed.

Lemma putpkt_acked buf text s l :
  cstring buf = Some text -> len text <= 1995 -> broken s = false -> incoming s = Some [43] :: l ->
  putpkt buf s = Val (1, set_sent (set_incoming s l) (sent s ++ frame text)).
Proof.
  intros Hc Hl Hb Hi. unfold putpkt. rewrite Hc. rewrite (proj2 (Z.ltb_ge _ _)) by lia.
  cbn [send_until_ack]. unfold sock_write. rewrite Hb. cbn [incoming set_sent]. rewrite Hi. done.
Qed.

(** C23: whatever noise and however many damaged packets come first, and however the bytes
    are cut into segments, [getpkt] asks once for each damaged packet again, acknowledges the
    first intact one, gives its text, and leaves the bytes behind it for the next call. *)
Theorem getpkt_retransmission bad text noise rest buf s :
  broken s = false -> Forall (fun p => readable (len buf) p /\ ~ intact p) bad ->
  Forall char7 noise -> Forall (fun c => c <> 36) noise -> sendable text -> len text < len buf ->
  pending s = concat (map line bad) ++ noise ++ frame text ++ rest ->
  exists buf' s',
    getpkt buf s = Val (len text, buf', s')
    /\ length buf' = length buf /\ cstring buf' = Some text
    /\ pending s' = rest /\ sent s' = sent s ++ replicate (length bad) 45 ++ [43].
Proof.
  intros Hbr Hbad Hn7 Hn Htext Hlen Hp. unfold getpkt.
  assert (Hf : (length bad < S (bytes_left s))%nat).
  { rewrite bytes_left_pending, Hp, length_app. clear.
    assert (length bad <= length (concat (map line bad)))%nat; [|lia].
    induction bad as [|p bad IH]; [done|]. cbn [map concat length]. rewrite length_app.
    unfold line at 1. rewrite length_app. cbn [length]. lia. }
  revert Hf. generalize (S (bytes_left s)) as fuel. intros fuel Hf. clear -Hbr Hbad Hn7 Hn Htext Hlen Hp Hf.
  revert buf s fuel Hbr Hbad Hlen Hp Hf.
  induction bad as [|p bad IH]; intros buf s fuel Hbr Hbad Hlen Hp Hf;
    (destruct fuel as [|fuel]; [cbn in Hf; lia|]).
  - cbn [map concat app] in Hp. rewrite app_assoc, <- frame_line in Hp.
    pose proof (packet_readable noise text (len buf) Hn7 Hn Htext Hlen) as Hrd.
    destruct (reads_pending s _ rest Hp (chars7_land _ (rd_chars _ _ Hrd))) as (s' & Hr & Hp' & Hs & Hb).
    destruct (getpkt_packet fuel buf _ s s' Hr Hrd) as (buf' & Hl' & Ht & ->).
    rewrite decide_True by apply packet_intact. eexists _, _. split; [done|]. split; [done|].
    rewrite sent_write by congruence. cbn [sent set_sent]. rewrite Hs.
    split; [|split; [exact Hp'|done]]. apply cstring_text; [done|].
    eapply Forall_impl; [exact Htext|]. intros c []. cbn. lia.
  - apply Forall_cons in Hbad as [[Hrd Hni] Hbad]. cbn [map concat] in Hp. rewrite <- app_assoc in Hp.
    destruct (reads_pending s _ _ Hp (chars7_land _ (rd_chars _ _ Hrd))) as (s1 & Hr & Hp1 & Hs & Hb).
    destruct (getpkt_packet fuel buf p s s1 Hr Hrd) as (buf1 & Hl1 & _ & ->).
    rewrite decide_False by done. rewrite sent_write by congruence.
    destruct (IH buf1 (set_sent s1 (sent s1 ++ [45])) fuel) as (buf' & s' & E & Hl' & Hc & Hp' & Hs');
      [cbn; congruence|by rewrite Hl1|by rewrite Hl1|exact Hp1|cbn in Hf; lia|].
    exists buf', s'. split; [done|]. split; [congruence|]. split; [done|]. split; [done|].
    rewrite Hs'. cbn [sent set_sent length replicate]. rewrite Hs, <- app_assoc. done.
Qed.
