(* ===== verification/GdbSession.v ===== *)
(** * The GDB stub: sessions, and memory

    A connection is a sequence of exchanges: a packet, the acknowledgement, the reply, and
    the acknowledgement of the debugger.  The laws of a memory as the stub uses it, and what
    the commands on memory and registers answer. *)

From Stdlib Require Import ZArith Lia Bool.
From stdpp Require Import base numbers option list.
From S2P Require Import Prelude Words GdbNet GdbServer GdbPackets.

Section session.
Context {S : Type} `{Target S} (fresh : Z -> list Z) (host_lp64 : bool).
Implicit Types g : gdb S.

Definition command_of := command fresh host_lp64.
Definition packets_of := packets fresh host_lp64.

(** ** An exchange *)

(** The command with a text in the buffer, and what it answers, whatever the rest of the
    buffer holds and whatever the debugger has sent. *)
Definition answers g (text answer : list Z) g' : Prop :=
  forall buf s, len buf = 8000 -> text_at buf 0 (text ++ [0]) ->
  exists buf', command_of (set_conn (set_own_buf g buf) s) = Val (set_conn (set_own_buf g' buf') s)
    /\ len buf' = 8000 /\ cstring buf' = Some answer.

Record polite (text answer : list Z) : Prop := {
  ask_sendable : sendable text;
  ask_some : text <> [];
  ask_short : len text <= 8000 - 1;
  answer_short : len answer <= 1995
}.

Inductive talk : gdb S -> list (list Z * list Z) -> gdb S -> Prop :=
| talk_end g : talk g [] g
| talk_next g text answer g1 l g2 :
    polite text answer -> answers g text answer g1 ->
    last_status g1 <> 87 -> last_status g1 <> 88 ->
    talk g1 l g2 -> talk g ((text, answer) :: l) g2.

Definition asked (l : list (list Z * list Z)) : list (option (list Z)) :=
  flat_map (fun '(text, _) => [Some (frame text); Some [43]]) l.
Definition said (l : list (list Z * list Z)) : list Z :=
  flat_map (fun '(_, answer) => 43 :: frame answer) l.

(** What of the stub is not the buffers nor the connection. *)
Record same_stub g g' : Prop := {
  same_target : target g' = target g;
  same_ice : ice g' = ice g;
  same_registers : registers g' = registers g;
  same_memory : mem_buf g' = mem_buf g
}.

Lemma reads_frame buf s text l :
  rbuf s = [] -> incoming s = Some (frame text) :: l -> sendable text -> len text < 8000 ->
  len buf = 8000 -> broken s = false ->
  exists buf', getpkt buf s = Val (len text, buf', set_sent (set_incoming s l) (sent s ++ [43]))
    /\ len buf' = 8000 /\ text_at buf' 0 (text ++ [0]).
Proof.
  intros Hr Hi Ht Hl Hlen Hb.
  assert (Hrd : readable (len buf) (packet_of [] text))
    by (apply packet_readable; (done || constructor || lia)).
  pose proof (chars7_land _ (rd_chars _ _ Hrd)) as H7. rewrite frame_line in H7. cbn [app] in H7.
  assert (Hseg : reads s (line (packet_of [] text)) (set_incoming s l)).
  { rewrite frame_line. cbn [app]. apply reads_segment; try done.
    apply Nat2Z.inj_le. change (Z.of_nat BUFSIZ) with 8192.
    unfold frame. cbn [length]. rewrite length_app. cbn [length]. lia. }
  unfold getpkt.
  destruct (getpkt_packet (bytes_left s) buf (packet_of [] text) s _ Hseg Hrd) as (buf' & Hl' & Htx & ->).
  rewrite decide_True by apply packet_intact. exists buf'.
  rewrite sent_write by done. split; [done|]. split; [by rewrite Hl'|done].
Qed.

Lemma exchange fuel g text answer g1 l :
  polite text answer -> answers g text answer g1 -> last_status g1 <> 87 -> last_status g1 <> 88 ->
  len (own_buf g) = 8000 -> rbuf (conn g) = [] -> broken (conn g) = false ->
  incoming (conn g) = Some (frame text) :: Some [43] :: l ->
  exists buf', len buf' = 8000
    /\ packets_of (Datatypes.S fuel) g
       = packets_of fuel
           (set_conn (set_own_buf g1 buf')
              (set_sent (set_incoming (conn g) l) (sent (conn g) ++ 43 :: frame answer))).
Proof.
  intros [Hs Hne Hl1 Hl2] Ha H87 H88 Hlen Hr Hb Hi. unfold packets_of. cbn [packets].
  destruct (reads_frame (own_buf g) (conn g) text (Some [43] :: l)) as (buf1 & E & Hlen1 & Ht);
    [done|done|done|lia|done|done|].
  rewrite E. cbn [rbind]. assert (0 < len text) by (destruct text; [done|cbn [length]; lia]).
  rewrite (proj2 (Z.leb_gt _ _)) by lia.
  destruct (Ha buf1 (set_sent (set_incoming (conn g) (Some [43] :: l)) (sent (conn g) ++ [43])) Hlen1 Ht)
    as (buf2 & E2 & Hlen2 & Hc).
  unfold command_of in E2. rewrite E2. cbn [rbind conn own_buf set_conn set_own_buf].
  rewrite (putpkt_acked _ answer _ l) by (done || lia). cbn [rbind last_status set_conn set_own_buf].
  rewrite (proj2 (Z.eqb_neq _ _) H87), (proj2 (Z.eqb_neq _ _) H88). cbn [orb].
  exists buf2. split; [done|]. unfold set_conn, set_own_buf. cbn. by rewrite <- app_assoc.
Qed.

(** A whole connection: every packet is answered, in the order of the packets. *)
Lemma talk_packets g l g' fuel :
  talk g l g' -> (length l < fuel)%nat ->
  forall g0, (exists buf s, g0 = set_conn (set_own_buf g buf) s) ->
  len (own_buf g0) = 8000 -> rbuf (conn g0) = [] -> broken (conn g0) = false ->
  incoming (conn g0) = asked l ->
  exists g2, packets_of fuel g0 = Val g2 /\ same_stub g' g2
    /\ sent (conn g2) = sent (conn g0) ++ said l.
Proof.
  intros Ht. revert fuel. induction Ht as [g|g text answer g1 l g2 Hp Ha H87 H88 Ht IH];
    intros fuel Hf g0 (buf & s & ->) Hlen Hr Hb Hi; (destruct fuel as [|fuel]; [lia|]).
  - cbn [own_buf conn set_conn set_own_buf] in *. unfold packets_of. cbn [packets].
    cbn [asked flat_map] in Hi. cbn [own_buf conn set_conn set_own_buf].
    destruct s as [rb inc sn br]. cbn in Hr, Hi, Hb |- *. subst.
    eexists. split; [reflexivity|]. split; [done|]. cbn. by rewrite app_nil_r.
  - cbn [asked flat_map app] in Hi. cbn [length] in Hf.
    assert (Ha' : answers (set_conn (set_own_buf g buf) s) text answer g1) by exact Ha.
    destruct (exchange fuel _ text answer g1 (asked l) Hp Ha' H87 H88 Hlen Hr Hb Hi) as (buf' & Hlen' & ->).
    cbn [conn set_conn set_own_buf] in *.
    edestruct (IH fuel ltac:(lia)) as (g3 & -> & Hs & Hse); [by eexists _, _|done..|].
    exists g3. split; [done|]. split; [done|]. rewrite Hse. cbn [conn set_conn set_own_buf sent set_sent set_incoming].
    rewrite <- app_assoc. done.
Qed.

Lemma asked_length l s : incoming s = asked l -> (length l < Datatypes.S (bytes_left s))%nat.
Proof.
  intros Hi. rewrite bytes_left_pending. unfold pending. rewrite length_app, Hi. clear Hi.
  assert (Hl : (length l <= length (concat (map (fun e => match e with Some seg => seg | None => [] end)
                                              (asked l))))%nat); [|lia].
  induction l as [|[t a] l IH]; [done|]. cbn [asked flat_map app map concat] in *.
  rewrite !length_app. cbn [length]. unfold asked in IH. lia.
Qed.

Lemma talk_connection g st l g' :
  arch_reset (target g) = Val st -> talk (set_target g st) l g' ->
  len (own_buf g) = 8000 -> rbuf (conn g) = [] -> broken (conn g) = false ->
  incoming (conn g) = asked l ->
  exists g2, connection fresh host_lp64 g = Val g2 /\ same_stub g' g2
    /\ sent (conn g2) = sent (conn g) ++ said l.
Proof.
  intros Hr Ht Hl Hb Hbr Hi. unfold connection. rewrite Hr. cbn [rbind].
  apply (talk_packets _ l g' _ Ht (asked_length l (conn g) Hi) (set_target g st)); try done.
  exists (own_buf g), (conn g). by destruct g.
Qed.
End session.

(** * The GDB stub: memory

    What the stub needs of a memory it reads and writes byte by byte, and the answers to [m]
    and [M] packets: those of an array of bytes. *)

Class TargetMemory (S : Type) `{Target S} : Type := {
  mem_at : S -> Z -> Prop;
  byte_at : S -> Z -> Z;
  byte_read st a : mem_at st a ->
    is_byte (byte_at st a)
    /\ exists st', ICE_read_byte a st = Val (0, Some (byte_at st a), st')
       /\ forall b, mem_at st b -> mem_at st' b /\ byte_at st' b = byte_at st b;
  byte_write st a v : mem_at st a -> is_byte v ->
    exists st', ICE_write_byte a v st = Val (0, st')
       /\ forall b, mem_at st b -> mem_at st' b /\ byte_at st' b = if b =? a then v else byte_at st b
}.

(** [n] bytes of a memory from an address on, and a memory with some bytes put in. *)
Fixpoint slice (f : Z -> Z) (a : Z) (n : nat) : list Z :=
  match n with O => [] | S n => f a :: slice f (a + 1) n end.
Definition overlay (f : Z -> Z) (a : Z) (l : list Z) (b : Z) : Z :=
  if (a <=? b) && (b <? a + len l) then nthZ l (b - a) else f b.

Lemma length_slice f a n : length (slice f a n) = n.
Proof. revert a. induction n; intros a; cbn [slice length]; [done|]. by f_equal. Qed.

Lemma slice_ext f g a n :
  (forall b, a <= b < a + Z.of_nat n -> f b = g b) -> slice f a n = slice g a n.
Proof.
  revert a. induction n as [|n IH]; intros a Hfg; [done|]. cbn [slice].
  rewrite Hfg by lia. f_equal. apply IH. intros b Hb. apply Hfg. lia.
Qed.

Lemma overlay_nil f a b : overlay f a [] b = f b.
Proof.
  unfold overlay. cbn [length Z.of_nat]. destruct (_ && _) eqn:E; [|done].
  apply andb_true_iff in E as [E1%Z.leb_le E2%Z.ltb_lt]. lia.
Qed.

Lemma overlay_cons f a v l b :
  overlay f a (v :: l) b = overlay (fun b => if b =? a then v else f b) (a + 1) l b.
Proof.
  unfold overlay. cbn [length]. destruct (Z.eqb_spec b a) as [->|Hne].
  - rewrite (proj2 (Z.leb_le a a)), (proj2 (Z.leb_gt (a + 1) a)) by lia. cbn [andb].
    rewrite (proj2 (Z.ltb_lt _ _)) by lia. by rewrite Z.sub_diag.
  - replace (a + 1 <=? b) with (a <=? b)
      by (destruct (Z.leb_spec a b), (Z.leb_spec (a + 1) b); done || lia).
    destruct (Z.leb_spec a b); cbn [andb]; [|done].
    replace (a + Z.of_nat (S (length l))) with (a + 1 + len l) by lia.
    destruct (_ <? _); [|done]. replace (b - a) with (b - (a + 1) + 1) by lia.
    by rewrite nthZ_S by lia.
Qed.

Section memory.
Context {S : Type} `{TargetMemory S}.

(** The same memory, seen as a function. *)
Definition holds_bytes (st : S) (dom : Z -> Prop) (f : Z -> Z) : Prop :=
  forall a, dom a -> mem_at st a /\ byte_at st a = f a.

Lemma holds_ext st dom f g : (forall a, dom a -> f a = g a) -> holds_bytes st dom f -> holds_bytes st dom g.
Proof. intros Hfg Hs a Ha. destruct (Hs a Ha). split; [done|]. rewrite <- Hfg by done. done. Qed.

Definition range (dom : Z -> Prop) (a n : Z) : Prop :=
  0 <= a /\ a + n <= 4294967296 /\ forall b, a <= b < a + n -> dom b.

Lemma range_next dom a n : 0 <= n -> range dom a (n + 1) -> dom a /\ u32 a = a /\ range dom (a + 1) n.
Proof.
  intros Hn (Hlo & Hhi & Hd). split; [apply Hd; lia|]. split; [apply u32_id; unfold is_u32; lia|].
  split; [lia|]. split; [lia|]. intros b Hb. apply Hd. lia.
Qed.

Lemma slice_bytes st dom f a n :
  holds_bytes st dom f -> range dom a (Z.of_nat n) -> Forall is_byte (slice f a n).
Proof.
  intros Hs. revert a. induction n as [|n IH]; intros a Hr; [constructor|]. cbn [slice].
  destruct (range_next dom a (Z.of_nat n)) as (Hd & _ & Hr'); [lia| |].
  { replace (Z.of_nat n + 1) with (Z.of_nat (Datatypes.S n)) by lia. done. }
  destruct (Hs a Hd) as [Hm <-]. constructor; [by apply byte_read|by apply IH].
Qed.

Lemma sim_read_ok n addr i v buf st dom f :
  holds_bytes st dom f -> range dom (addr + i) (Z.of_nat n) -> 0 <= i -> i + Z.of_nat n <= len buf ->
  exists buf' st', sim_read_from n addr i v buf st = Val (true, buf', st')
    /\ stored buf i (slice f (addr + i) n) buf' /\ holds_bytes st' dom f.
Proof.
  revert i v buf st. induction n as [|n IH]; intros i v buf st Hs Hr Hi Hl.
  { exists buf, st. split; [done|]. split; [apply stored_nil|done]. }
  rewrite Nat2Z.inj_succ in *. destruct (range_next _ _ _ (Zle_0_nat n) Hr) as (Hd & Hu & Hr').
  destruct (Hs _ Hd) as [Hm Hf]. destruct (byte_read st _ Hm) as (Hb & st1 & E & Hst1).
  cbn [sim_read_from]. rewrite Hu, E. cbn [rbind negb Z.eqb].
  unfold u8. rewrite Z.mod_small by exact Hb. rewrite put_in by lia. cbn [rbind].
  destruct (IH (i + 1) (Some (byte_at st (addr + i))) (updZ buf i (byte_at st (addr + i))) st1)
    as (buf' & st' & -> & Hst & Hs').
  - intros b Hdb. destruct (Hs b Hdb) as [Hmb <-]. by apply Hst1.
  - by replace (addr + (i + 1)) with (addr + i + 1) by lia.
  - lia.
  - rewrite length_updZ. lia.
  - exists buf', st'. split; [done|]. split; [|done]. cbn [slice]. rewrite <- Hf.
    apply stored_cons; [lia|]. by replace (addr + i + 1) with (addr + (i + 1)) by lia.
Qed.

Lemma sim_write_ok bytes addr i buf st dom f :
  holds_bytes st dom f -> range dom (addr + i) (len bytes) -> text_at buf i bytes ->
  Forall is_byte bytes ->
  exists st', sim_write_from (length bytes) addr i buf st = Val (true, st')
    /\ holds_bytes st' dom (overlay f (addr + i) bytes).
Proof.
  revert i st f. induction bytes as [|v bytes IH]; intros i st f Hs Hr Ht Hb.
  { exists st. split; [done|]. eapply holds_ext; [|exact Hs]. intros. by rewrite overlay_nil. }
  cbn [length] in *. rewrite Nat2Z.inj_succ in *.
  destruct (range_next _ _ _ (Zle_0_nat _) Hr) as (Hd & Hu & Hr').
  destruct (text_cons _ _ _ _ Ht) as [Hg Ht']. apply Forall_cons in Hb as [Hv Hb].
  destruct (Hs _ Hd) as [Hm Hf]. destruct (byte_write st _ v Hm Hv) as (st1 & E & Hst1).
  cbn [sim_write_from]. rewrite Hg. cbn [rbind]. rewrite Hu, E. cbn [rbind negb Z.eqb].
  destruct (IH (i + 1) st1 (fun b => if b =? addr + i then v else f b)) as (st' & -> & Hs').
  - intros b Hdb. destruct (Hs b Hdb) as [Hmb <-]. by apply Hst1.
  - by replace (addr + (i + 1)) with (addr + i + 1) by lia.
  - done.
  - done.
  - exists st'. split; [done|]. eapply holds_ext; [|exact Hs']. intros b _.
    rewrite overlay_cons. by replace (addr + i + 1) with (addr + (i + 1)) by lia.
Qed.
End memory.

(** ** The packets *)

Definition m_text (addr n : Z) : list Z := 109 :: print_hex addr ++ 44 :: print_hex n.
Definition M_text (addr : Z) (l : list Z) : list Z :=
  77 :: print_hex addr ++ 44 :: print_hex (len l) ++ 58 :: hexes l.

Lemma hex_not c x : hex_char c -> ~ hex_char x -> c <> x.
Proof. by intros Hc Hx ->. Qed.

Lemma hex_stop stop : (forall c, stop c = true -> ~ hex_char c) -> forall c, hex_char c -> stop c = false.
Proof. intros Hs c Hc. destruct (stop c) eqn:E; [|done]. by destruct (Hs c E). Qed.

Lemma comma_stops c : hex_char c -> is_comma c = false.
Proof. apply hex_stop. intros x Hx%Z.eqb_eq. subst x. unfold hex_char. lia. Qed.
Lemma colon_stops c : hex_char c -> is_colon c = false.
Proof. apply hex_stop. intros x Hx%Z.eqb_eq. subst x. unfold hex_char. lia. Qed.

Lemma hex_sendable l : Forall hex_char l -> sendable l.
Proof. intros Hl. eapply Forall_impl; [exact Hl|]. intros c Hc. unfold hex_char in Hc. lia. Qed.
Lemma hex_nonzero l : Forall hex_char l -> Forall (fun c => c <> 0) l.
Proof. intros Hl. eapply Forall_impl; [exact Hl|]. intros c Hc. unfold hex_char in Hc. lia. Qed.

Lemma print_hex_length v m :
  0 <= v < 16 ^ Z.of_nat m -> (1 <= m)%nat -> (length (print_hex v) <= m)%nat.
Proof.
  intros Hv Hm. pose proof (hex_digits_length 8 v [] m Hv Hm) as Hl. cbn [length] in Hl.
  unfold print_hex. lia.
Qed.

Lemma sendable_app l l' : sendable l -> sendable l' -> sendable (l ++ l').
Proof. intros. by apply Forall_app. Qed.
Lemma sendable_cons c l : 1 <= c < 128 /\ c <> 35 -> sendable l -> sendable (c :: l).
Proof. intros. by apply Forall_cons. Qed.

Lemma decode_m buf addr n :
  text_at buf 0 (m_text addr n ++ [0]) -> is_u32 addr -> 0 <= n < 65536 ->
  decode_m_packet buf 1 = Val (addr, n).
Proof.
  intros Ht Ha Hn. unfold m_text in Ht. cbn [app] in Ht. destruct (text_cons _ _ _ _ Ht) as [_ Ht1].
  rewrite <- app_assoc in Ht1. cbn [app] in Ht1.
  change (44 :: print_hex n ++ [0]) with ([44] ++ print_hex n ++ [0]) in Ht1. rewrite app_assoc in Ht1.
  apply text_app in Ht1 as [Ht1 Ht2]. rewrite length_app, Nat2Z.inj_add, Z.add_assoc in Ht2.
  change (len [44]) with 1 in Ht2.
  unfold decode_m_packet. rewrite (hex_until_read is_comma buf _ addr 44) by (done || apply comma_stops).
  cbn [rbind]. rewrite (short_field_read 4 buf _ (print_hex n) 0).
  - cbn [rbind]. rewrite print_hex_value by (unfold is_u32; lia). done.
  - done.
  - apply hex_nonzero, print_hex_char. lia.
  - apply print_hex_length; [|lia]. change (16 ^ Z.of_nat 4) with 65536. lia.
Qed.

Lemma stored_inj buf i l buf1 buf2 : stored buf i l buf1 -> stored buf i l buf2 -> buf1 = buf2.
Proof.
  intros [Hl1 H1] [Hl2 H2]. apply nthZ_inj; [congruence|]. intros k Hk. by rewrite H1, H2 by lia.
Qed.

Lemma decode_M buf addr l to :
  text_at buf 0 (M_text addr l ++ [0]) -> is_u32 addr -> len l <= len to -> len l < 4294967296 ->
  Forall is_byte l ->
  exists to', decode_M_packet buf 1 to = Val (addr, len l, to') /\ stored to 0 l to'.
Proof.
  intros Ht Ha Hl Hu Hb. unfold M_text in Ht. cbn [app] in Ht. destruct (text_cons _ _ _ _ Ht) as [_ Ht1].
  rewrite <- app_assoc in Ht1. cbn [app] in Ht1. rewrite <- app_assoc in Ht1. cbn [app] in Ht1.
  change (44 :: ?r) with ([44] ++ r) in Ht1. rewrite app_assoc in Ht1.
  apply text_app in Ht1 as [Ht1 Ht2]. rewrite length_app, Nat2Z.inj_add, Z.add_assoc in Ht2.
  change (len [44]) with 1 in Ht2.
  change (58 :: ?r) with ([58] ++ r) in Ht2. rewrite app_assoc in Ht2.
  apply text_app in Ht2 as [Ht2 Ht3]. rewrite length_app, Nat2Z.inj_add, Z.add_assoc in Ht3.
  change (len [58]) with 1 in Ht3.
  apply text_app in Ht3 as [Ht3 _].
  unfold decode_M_packet. rewrite (hex_until_read is_comma buf _ addr 44) by (done || apply comma_stops).
  cbn [rbind].
  rewrite (hex_until_read is_colon buf _ (len l) 58); try done; [|unfold is_u32; lia|apply colon_stops].
  cbn [rbind]. rewrite Nat2Z.id.
  destruct (ascii_to_int l buf _ to 0 Ht3 Hb) as (to' & E & Hs); [lia|lia|].
  exists to'. split; [|done]. rewrite Z.add_0_l in E. by rewrite E.
Qed.

(** ** The answers *)

Section answer.
Context {S : Type} `{TargetMemory S} (fresh : Z -> list Z) (host_lp64 : bool).
Implicit Types g : gdb S.

(** The stub serves a memory [f] on [dom]. *)
Record serves (dom : Z -> Prop) (f : Z -> Z) g : Prop := {
  sv_bytes : holds_bytes (target g) dom f;
  sv_mem_buf : len (mem_buf g) = 8000;
  sv_focus : is_focusing g = false;
  sv_running : last_status g <> 87 /\ last_status g <> 88
}.

Definition OK : list Z := [79; 75].

Lemma answer_read g dom f addr n :
  serves dom f g -> is_u32 addr -> range dom addr (Z.of_nat n) -> Z.of_nat n <= 997 ->
  exists g', answers fresh host_lp64 g (m_text addr (Z.of_nat n)) (hexes (slice f addr n)) g'
    /\ serves dom f g'.
Proof.
  intros [Hb Hm Hf Hs] Ha Hr Hn.
  destruct (sim_read_ok n addr 0 None (mem_buf g) (target g) dom f Hb) as (mb & st & E & Hst & Hb');
    [by rewrite Z.add_0_r|lia|lia|].
  rewrite Z.add_0_r in Hst. pose proof (stored_length _ _ _ _ Hst) as Hlm.
  exists (set_target (set_mem_buf g mb) st).
  split; [|split; [exact Hb'|cbn [mem_buf set_target set_mem_buf]; lia|exact Hf|exact Hs]].
  intros buf s Hlen Ht. pose proof (decode_m buf addr (Z.of_nat n) Ht Ha ltac:(lia)) as Hd.
  unfold command_of, command. cbn [own_buf set_conn set_own_buf].
  destruct (text_cons _ _ _ _ Ht) as [-> _]. cbn [rbind Z.eqb Pos.eqb].
  unfold read_memory. cbn [own_buf set_conn set_own_buf]. rewrite Hd. cbn [rbind].
  unfold is_focusing in *. cbn [ice set_conn set_own_buf]. rewrite Hf. cbn [andb].
  unfold sim_read. cbn [target mem_buf set_conn set_own_buf]. rewrite Nat2Z.id, E. cbn [rbind].
  rewrite (proj2 (Z.eqb_neq _ _)) by lia.
  pose proof (slice_bytes _ _ _ _ _ Hb Hr) as Hby.
  assert (Htx : text_at mb 0 (slice f addr n))
    by (eapply stored_text; [exact Hst|lia|rewrite length_slice; lia]).
  destruct (int_to_ascii _ mb 0 buf 0 Htx Hby) as (buf' & E' & Hs'); [lia|rewrite length_slice; lia|].
  rewrite length_slice in E'. unfold reply. cbn [own_buf mem_buf set_conn set_own_buf set_target set_mem_buf].
  rewrite E'. cbn [rbind]. exists buf'. split; [done|].
  pose proof (stored_length _ _ _ _ Hs'). split; [lia|]. apply cstring_text.
  - eapply stored_text; [exact Hs'|lia|]. rewrite length_app, Nat2Z.inj_add, length_hexes, length_slice.
    cbn [length]. lia.
  - by apply hex_nonzero, hexes_char.
Qed.

Lemma OK_stored buf : len buf = 8000 ->
  exists buf', write_ok buf = Val buf' /\ len buf' = 8000 /\ cstring buf' = Some OK.
Proof.
  intros Hl. destruct (put_string_stored buf OK) as (buf' & E & Hl' & Ht); [cbn; lia|].
  exists buf'. split; [exact E|]. split; [lia|]. apply cstring_text; [exact Ht|].
  by repeat (constructor; [lia|]).
Qed.

Lemma answer_write g dom f addr l :
  serves dom f g -> is_u32 addr -> range dom addr (len l) -> len l <= 3000 -> Forall is_byte l ->
  exists g', answers fresh host_lp64 g (M_text addr l) OK g' /\ serves dom (overlay f addr l) g'.
Proof.
  intros [Hb Hm Hf Hs] Ha Hr Hn Hl.
  destruct (puts_stored (mem_buf g) 0 l) as (mb & _ & Hst); [lia|lia|].
  pose proof (stored_length _ _ _ _ Hst) as Hlm.
  assert (Htx : text_at mb 0 l) by (eapply stored_text; [exact Hst|lia|lia]).
  destruct (sim_write_ok l addr 0 mb (target g) dom f Hb) as (st & E & Hb');
    [by rewrite Z.add_0_r|done|done|]. rewrite Z.add_0_r in Hb'.
  exists (set_target (set_mem_buf g mb) st).
  split; [|split; [exact Hb'|cbn [mem_buf set_target set_mem_buf]; lia|exact Hf|exact Hs]].
  intros buf s Hlen Ht.
  destruct (decode_M buf addr l (mem_buf g) Ht Ha) as (mb' & Hd & Hst'); [lia|lia|done|].
  rewrite (stored_inj _ _ _ _ _ Hst' Hst) in Hd.
  unfold command_of, command. cbn [own_buf set_conn set_own_buf].
  destruct (text_cons _ _ _ _ Ht) as [-> _]. cbn [rbind Z.eqb Pos.eqb].
  unfold write_memory. cbn [own_buf mem_buf set_conn set_own_buf]. rewrite Hd. cbn [rbind].
  unfold sim_write. cbn [target set_conn set_own_buf]. rewrite s32_id by lia.
  rewrite Nat2Z.id, E. cbn [rbind]. rewrite u32_id, Z.eqb_refl by (unfold is_u32; lia).
  unfold reply. cbn [own_buf set_conn set_own_buf set_target set_mem_buf].
  destruct (OK_stored buf Hlen) as (buf' & -> & Hl' & Hc). cbn [rbind]. by exists buf'.
Qed.

(** ** Sequences of requests *)

Inductive mem_request : Type :=
| Read (addr : Z) (n : nat)
| Write (addr : Z) (l : list Z).

Definition request_text (r : mem_request) : list Z :=
  match r with Read addr n => m_text addr (Z.of_nat n) | Write addr l => M_text addr l end.

(** What an array of bytes answers. *)
Fixpoint array_answers (f : Z -> Z) (l : list mem_request) : list (list Z * list Z) * (Z -> Z) :=
  match l with
  | [] => ([], f)
  | r :: l =>
      let a := match r with Read addr n => hexes (slice f addr n) | Write _ _ => OK end in
      let f := match r with Read _ _ => f | Write addr l => overlay f addr l end in
      let (rest, f) := array_answers f l in ((request_text r, a) :: rest, f)
  end.

Definition request_ok (dom : Z -> Prop) (r : mem_request) : Prop :=
  match r with
  | Read addr n => is_u32 addr /\ range dom addr (Z.of_nat n) /\ Z.of_nat n <= 997
  | Write addr l => is_u32 addr /\ range dom addr (len l) /\ len l <= 3000 /\ Forall is_byte l
  end.

Lemma read_polite f addr n :
  is_u32 addr -> Z.of_nat n <= 997 -> polite (m_text addr (Z.of_nat n)) (hexes (slice f addr n)).
Proof.
  intros Ha Hn. unfold is_u32 in Ha.
  assert (Hd1 : (length (print_hex addr) <= 8)%nat)
    by (apply print_hex_length; [change (16 ^ Z.of_nat 8) with 4294967296|]; lia).
  assert (Hd2 : (length (print_hex (Z.of_nat n)) <= 4)%nat)
    by (apply print_hex_length; [change (16 ^ Z.of_nat 4) with 65536|]; lia).
  split; [|done| |].
  - repeat (apply sendable_cons; [lia|] || apply sendable_app || apply hex_sendable, print_hex_char); lia.
  - unfold m_text. cbn [length]. rewrite length_app. cbn [length]. lia.
  - rewrite length_hexes, length_slice. lia.
Qed.

Lemma write_polite addr l :
  is_u32 addr -> len l <= 3000 -> Forall is_byte l -> polite (M_text addr l) OK.
Proof.
  intros Ha Hn Hl. unfold is_u32 in Ha.
  assert (Hd1 : (length (print_hex addr) <= 8)%nat)
    by (apply print_hex_length; [change (16 ^ Z.of_nat 8) with 4294967296|]; lia).
  assert (Hd2 : (length (print_hex (len l)) <= 4)%nat)
    by (apply print_hex_length; [change (16 ^ Z.of_nat 4) with 65536|]; lia).
  split; [|done| |cbn; lia].
  - unfold M_text. repeat (apply sendable_cons; [lia|] || apply sendable_app
      || apply hex_sendable, hexes_char, Hl || apply hex_sendable, print_hex_char); lia.
  - unfold M_text. cbn [length]. rewrite !length_app. cbn [length]. rewrite length_app. cbn [length].
    pose proof (length_hexes l). lia.
Qed.

Lemma array_talk l g dom f :
  serves dom f g -> Forall (request_ok dom) l ->
  exists g', talk fresh host_lp64 g (array_answers f l).1 g' /\ serves dom (array_answers f l).2 g'.
Proof.
  intros Hs Hl. revert g f Hs. induction Hl as [|r l Hr Hl IH]; intros g f Hs.
  { exists g. split; [constructor|done]. }
  assert (Hstep : exists g1,
    let a := match r with Read addr n => hexes (slice f addr n) | Write _ _ => OK end in
    let f1 := match r with Read _ _ => f | Write addr l => overlay f addr l end in
    polite (request_text r) a /\ answers fresh host_lp64 g (request_text r) a g1 /\ serves dom f1 g1).
  { destruct r as [addr n|addr bytes]; cbn [request_ok request_text] in *.
    - destruct Hr as (Ha & Hr & Hn). destruct (answer_read g dom f addr n) as (g1 & H1 & H2); try done.
      exists g1. split; [by apply read_polite|done].
    - destruct Hr as (Ha & Hr & Hn & Hb). destruct (answer_write g dom f addr bytes) as (g1 & H1 & H2); try done.
      exists g1. split; [by apply write_polite|done]. }
  destruct Hstep as (g1 & Hp & Ha & Hs1). cbn [array_answers].
  destruct (IH g1 _ Hs1) as (g2 & Ht & Hs2). destruct (array_answers _ l) as [rest f2] eqn:E.
  cbn [fst snd] in *. exists g2. split; [|done]. destruct Hs1. econstructor; [exact Hp|exact Ha|tauto|tauto|done].
Qed.

Lemma asked_requests f l :
  asked (array_answers f l).1 = flat_map (fun r => [Some (frame (request_text r)); Some [43]]) l.
Proof.
  revert f. induction l as [|r l IH]; intros f; [done|]. cbn [array_answers flat_map].
  rewrite <- (IH (match r with Read _ _ => f | Write addr bytes => overlay f addr bytes end)).
  by destruct (array_answers _ l) as [rest f2].
Qed.
Lemma length_answers f l : length (array_answers f l).1 = length l.
Proof.
  revert f. induction l as [|r l IH]; intros f; [done|]. cbn [array_answers length].
  rewrite <- (IH (match r with Read _ _ => f | Write addr bytes => overlay f addr bytes end)).
  by destruct (array_answers _ l) as [rest f2].
Qed.
End answer.
