(* ===== verification/GdbTargets.v ===== *)
(** * The GDB stub: the SPARC and the MIPS under the debugger

    src/utils/debugger/sparc_regdefs.c and mips_regdefs.c, and the debugging entries of
    arch_sparc/common/sparc_arch_interface.c and arch_mips/common/mips_arch_interface.c;
    then the packets that write and read the registers of the SPARC. *)

From Stdlib Require Import ZArith Lia Bool.
From stdpp Require Import base numbers option list.
From S2P Require Import Prelude Words Bus SparcState Isa SparcIU Memory Leon2 MipsState.
From S2P Require Import MipsTlb MipsDecode MipsRun GdbNet GdbServer GdbPackets GdbSession.

(** ** SPARC *)

Definition NUMREGS : Z := 72.
Definition NUMREGBYTES : Z := NUMREGS * 4.
Definition F0 : Z := 32.
Definition Y : Z := 64.
Definition PSR : Z := 65.
Definition WIM : Z := 66.
Definition TBR : Z := 67.
Definition PC : Z := 68.
Definition NPC : Z := 69.
Definition FPSR : Z := 70.
Definition CPSR : Z := 71.

Definition sparc_register_raw_size (x : Z) : Z := 4.
Definition sparc_register_byte (x : Z) : Z := 4 * x.

(** The register of a number, and [-1] outside. *)
Definition sparc_register (s : sparc_state) (rn : Z) : option Z :=
  if (G0 <=? rn) && (rn <=? I7) then Some (REG s rn)
  else if (F0 <=? rn) && (rn <=? F0 + 31) then Some (FPREG s (rn - F0))
  else if rn =? Y then Some (YREG s)
  else if rn =? PSR then Some (PSRREG s)
  else if rn =? WIM then Some (WIMREG s)
  else if rn =? TBR then Some (TBRREG s)
  else if rn =? PC then Some (PCREG s)
  else if rn =? NPC then Some (NPCREG s)
  else if rn =? FPSR then Some (FPSRREG s)
  else if rn =? CPSR then Some (CPSRREG s)
  else None.

Definition sparc_set_register (s : sparc_state) (rn val : Z) : sparc_state :=
  if (G0 <=? rn) && (rn <=? I7) then set_REG s rn val
  else if (F0 <=? rn) && (rn <=? F0 + 31) then set_FPREG s (rn - F0) val
  else if rn =? Y then set_YREG s val
  else if rn =? PSR then set_PSRREG s val
  else if rn =? WIM then set_WIMREG s val
  else if rn =? TBR then set_TBRREG s val
  else if rn =? PC then set_PCREG s val
  else if rn =? NPC then set_NPCREG s val
  else if rn =? FPSR then set_FPSRREG s val
  else if rn =? CPSR then set_CPSRREG s val
  else s.

(** The reset of the board. *)
Class MachReset (B : Type) : Type := { mach_io_reset : B -> result B }.

#[export] Instance leon2_mach_reset : MachReset (memsys leon2) :=
  {| mach_io_reset := fun st => Val (set_mach st (leon2_io_reset (mach st))) |}.

Section sparc.
Context {B : Type} `{Bus B} `{MachIO B} `{MachReset B}.

Definition sparc_store_register (rn : Z) (memory : list Z) (i : Z) (m : machine B)
    : result (machine B) :=
  let! val := frommem true memory i in Val (set_cpu m (sparc_set_register (cpu m) rn val)).

Definition sparc_fetch_register (rn : Z) (memory : list Z) (i : Z) (m : machine B)
    : result (list Z) :=
  match sparc_register (cpu m) rn with
  | Some val => tomem true memory i val
  | None => Val memory
  end.

(** [bus_read] stores a word through the pointer to a byte; the byte is its low one, the
    three behind it are overwritten. *)
Definition sparc_ICE_read_byte (addr : Z) (m : machine B) : result (Z * option Z * machine B) :=
  let! (st, v, b) := bus_read 8 addr (bus m) in Val (st, u8 <$> v, set_bus m b).
Definition sparc_ICE_write_byte (addr v : Z) (m : machine B) : result (Z * machine B) :=
  let! (st, b) := bus_write 8 addr v (bus m) in Val (st, set_bus m b).

Definition sparc_get_pc (m : machine B) : Z := iu_get_pc (cpu m).
Definition sparc_reset_state (m : machine B) : result (machine B) :=
  let! b := mach_io_reset (bus m) in Val (set_bus m b).

(** [init_sparc_register_defs] leaves the numbers of the special registers at 0. *)
#[export] Instance sparc_reg_defs : Target (machine B) :=
  {| register_raw_size := sparc_register_raw_size; register_bytes := NUMREGBYTES;
     register_byte := sparc_register_byte; num_regs := NUMREGS;
     pc_regnum := 0; sp_regnum := 0; fp_regnum := 0;
     store_register := sparc_store_register; fetch_register := sparc_fetch_register;
     ICE_read_byte := sparc_ICE_read_byte; ICE_write_byte := sparc_ICE_write_byte;
     get_pc := sparc_get_pc; step_once := sparc_step_once; arch_reset := sparc_reset_state |}.
End sparc.

(** ** MIPS *)

Definition mips_register_raw_size (x : Z) : Z := 32.
Definition mips_register_byte (x : Z) : Z := 4 * x.

Definition mips_set_register (st : MIPS_State) (rn v : Z) : MIPS_State :=
  if (0 <=? rn) && (rn <? 32) then set_gpr st (updZ (gpr st) rn v)
  else if rn =? 32 then set_cp0 st (updZ (cp0 st) 12 v)
  else if rn =? 33 then set_lo st v
  else if rn =? 34 then set_hi st v
  else if rn =? 35 then set_cp0 st (updZ (cp0 st) 8 v)
  else if rn =? 36 then set_cp0 st (updZ (cp0 st) 13 v)
  else if rn =? 37 then MipsState.set_pc st v
  else if (38 <=? rn) && (rn <? 70) then set_fpr st (updZ (fpr st) (rn - 38) v)
  else st.

Section mips.
Context {B : Type} `{Bus B} (env : mips_env B) (host_lp64 big_endian : bool).

Definition mips_store_register (rn : Z) (memory : list Z) (i : Z) (m : mips B) : result (mips B) :=
  let! v := frommem big_endian memory i in
  Val (on_mst (fun st => mips_set_register st rn v) m).

(** The call of [tomem] is the body of the last [else if], so only the registers that have no
    value are written, as 0. *)
Definition mips_fetch_register (rn : Z) (memory : list Z) (i : Z) (m : mips B) : result (list Z) :=
  if (rn =? 70) || (rn =? 71) || (rn =? 72) then tomem big_endian memory i 0 else Val memory.

Definition mips_ICE_read_byte (addr : Z) (m : mips B) : result (Z * option Z * mips B) :=
  let! (v, m) := mips_mem_read m addr 1 in Val (0, u8 <$> v, m).
Definition mips_ICE_write_byte (addr v : Z) (m : mips B) : result (Z * mips B) :=
  let! m := mips_mem_write m addr v 1 in Val (0, m).

Definition mips_reg_defs : Target (mips B) :=
  {| register_raw_size := mips_register_raw_size; register_bytes := (32 + 6 + 32 + 3) * 4;
     register_byte := mips_register_byte; num_regs := 73;
     pc_regnum := 0; sp_regnum := 0; fp_regnum := 0;
     store_register := mips_store_register; fetch_register := mips_fetch_register;
     ICE_read_byte := mips_ICE_read_byte; ICE_write_byte := mips_ICE_write_byte;
     get_pc := fun m => mips_get_pc (mst m); step_once := mips_step_once env host_lp64;
     arch_reset := fun m => let! st := mips_reset_state (mst m) in Val (set_mst m st) |}.
End mips.

(** * The GDB stub: the registers of the SPARC

    Every register of the block has its own four bytes and its own place in the processor,
    so a block that is stored is the block that is fetched. *)

(** ** One register *)

(** The arrays of the processor, with the window inside. *)
Record regs_ok (s : sparc_state) : Prop := {
  ro_global : length (global s) = 8%nat;
  ro_regbase : length (regbase s) = 520%nat;
  ro_fp : length (fp_regs s) = 32%nat;
  ro_window : 0 <= regwptr1 s <= 496
}.

Lemma wf_regs_ok s : state_wf s -> regs_ok s.
Proof. intros []. pose proof (CWP_nonneg s). unfold N_WINDOWS in *. split; lia. Qed.

Lemma set_register_low s rn v : 0 <= rn < 32 -> sparc_set_register s rn v = set_REG s rn v.
Proof. intros Hr. unfold sparc_set_register, G0, I7. by rewrite !(proj2 (Z.leb_le _ _)) by lia. Qed.
Lemma register_low s rn : 0 <= rn < 32 -> sparc_register s rn = Some (REG s rn).
Proof. intros Hr. unfold sparc_register, G0, I7. by rewrite !(proj2 (Z.leb_le _ _)) by lia. Qed.
Lemma set_register_fp s rn v : 32 <= rn < 64 -> sparc_set_register s rn v = set_FPREG s (rn - 32) v.
Proof.
  intros Hr. unfold sparc_set_register, G0, I7, F0. rewrite (proj2 (Z.leb_gt rn 31)) by lia.
  rewrite andb_false_r, !(proj2 (Z.leb_le _ _)) by lia. done.
Qed.
Lemma register_fp s rn : 32 <= rn < 64 -> sparc_register s rn = Some (FPREG s (rn - 32)).
Proof.
  intros Hr. unfold sparc_register, G0, I7, F0. rewrite (proj2 (Z.leb_gt rn 31)) by lia.
  rewrite andb_false_r, !(proj2 (Z.leb_le _ _)) by lia. done.
Qed.

Lemma register_classes rn :
  0 <= rn < 72 ->
  0 <= rn < 32 \/ 32 <= rn < 64 \/ rn = 64 \/ rn = 65 \/ rn = 66 \/ rn = 67 \/ rn = 68 \/ rn = 69
  \/ rn = 70 \/ rn = 71.
Proof. lia. Qed.

Lemma REG_set s x y v :
  regs_ok s -> 0 <= x < 32 -> 0 <= y < 32 -> REG (set_REG s x v) y = if y =? x then u32 v else REG s y.
Proof.
  intros [] Hx Hy. unfold REG, set_REG. destruct (Z.gtb_spec x 7), (Z.gtb_spec y 7); cbn;
    rewrite ?nthZ_updZ by lia; case_tests; lia || done.
Qed.

Lemma set_register_ok s rn v : regs_ok s -> 0 <= rn < 72 -> regs_ok (sparc_set_register s rn v).
Proof.
  intros [] Hr. destruct (register_classes rn Hr) as [H|[H|Hs]].
  - rewrite set_register_low by done. unfold set_REG.
    destruct (_ >? _); split; cbn; rewrite ?length_updZ; done.
  - rewrite set_register_fp by done. split; cbn; rewrite ?length_updZ; done.
  - by repeat (destruct Hs as [->|Hs]); subst; split.
Qed.

Lemma FPREG_set s x y v :
  regs_ok s -> 0 <= x < 32 -> 0 <= y < 32 ->
  FPREG (set_FPREG s x v) y = if y =? x then u32 v else FPREG s y.
Proof. intros [] Hx Hy. unfold FPREG, set_FPREG; cbn. by rewrite nthZ_updZ by lia. Qed.

Lemma register_set s rn v r :
  regs_ok s -> is_u32 v -> 0 <= rn < 72 -> 0 <= r < 72 ->
  sparc_register (sparc_set_register s rn v) r = if r =? rn then Some v else sparc_register s r.
Proof.
  intros Ho Hv Hn Hr. destruct (register_classes rn Hn) as [H|[H|Hs]].
  - rewrite set_register_low by done. destruct (register_classes r Hr) as [H'|[H'|Hs']].
    + rewrite !register_low, REG_set, u32_id by done. by destruct (r =? rn).
    + rewrite !register_fp, (proj2 (Z.eqb_neq r rn)) by lia. unfold FPREG. by rewrite fp_regs_set_REG.
    + rewrite (proj2 (Z.eqb_neq r rn)) by lia.
      unfold set_REG; destruct (_ >? _); by repeat (destruct Hs' as [->|Hs']); subst.
  - rewrite set_register_fp by done. destruct (register_classes r Hr) as [H'|[H'|Hs']].
    + by rewrite !register_low, (proj2 (Z.eqb_neq r rn)) by lia.
    + rewrite !register_fp, FPREG_set, u32_id by (done || lia).
      destruct (Z.eqb_spec r rn) as [->|Hne]; [by rewrite Z.eqb_refl|].
      by rewrite (proj2 (Z.eqb_neq (r - 32) (rn - 32))) by lia.
    + rewrite (proj2 (Z.eqb_neq r rn)) by lia. by repeat (destruct Hs' as [->|Hs']); subst.
  - destruct (register_classes r Hr) as [H'|[H'|Hs']].
    + rewrite !register_low, (proj2 (Z.eqb_neq r rn)) by lia.
      by repeat (destruct Hs as [->|Hs]); subst.
    + rewrite !register_fp, (proj2 (Z.eqb_neq r rn)) by lia.
      by repeat (destruct Hs as [->|Hs]); subst.
    + repeat (destruct Hs as [->|Hs]); subst; repeat (destruct Hs' as [->|Hs']); subst; reflexivity.
Qed.

(** ** Words *)

Definition word_of (l : list Z) : Z :=
  Z.lor (Z.lor (Z.lor (Z.shiftl (nthZ l 0) 24) (Z.shiftl (nthZ l 1) 16)) (Z.shiftl (nthZ l 2) 8)) (nthZ l 3).
Definition bytes_of (v : Z) : list Z :=
  [u8 (Z.shiftr v 24); u8 (Z.shiftr v 16); u8 (Z.shiftr v 8); u8 (Z.shiftr v 0)].

Lemma word_sum b0 b1 b2 b3 :
  is_byte b0 -> is_byte b1 -> is_byte b2 -> is_byte b3 ->
  word_of [b0; b1; b2; b3] = 16777216 * b0 + 65536 * b1 + 256 * b2 + b3.
Proof.
  intros H0 H1 H2 H3. unfold is_byte in *. unfold word_of.
  change (nthZ [b0; b1; b2; b3] 0) with b0. change (nthZ [b0; b1; b2; b3] 1) with b1.
  change (nthZ [b0; b1; b2; b3] 2) with b2. change (nthZ [b0; b1; b2; b3] 3) with b3.
  rewrite !Z.shiftl_mul_pow2, (lor_low b0 24) by lia.
  replace (b0 * 2 ^ 24 + b1 * 2 ^ 16) with ((256 * b0 + b1) * 2 ^ 16) by lia.
  rewrite (lor_low _ 16) by lia.
  replace ((256 * b0 + b1) * 2 ^ 16 + b2 * 2 ^ 8) with ((65536 * b0 + 256 * b1 + b2) * 2 ^ 8) by lia.
  rewrite (lor_low _ 8) by lia. lia.
Qed.

Lemma bytes_word b0 b1 b2 b3 :
  is_byte b0 -> is_byte b1 -> is_byte b2 -> is_byte b3 ->
  is_u32 (word_of [b0; b1; b2; b3]) /\ bytes_of (word_of [b0; b1; b2; b3]) = [b0; b1; b2; b3].
Proof.
  intros. rewrite word_sum by done. unfold is_byte, is_u32, bytes_of, u8 in *.
  rewrite !Z.shiftr_div_pow2 by lia.
  change (2 ^ 24) with 16777216. change (2 ^ 16) with 65536. change (2 ^ 8) with 256. change (2 ^ 0) with 1.
  split; [lia|]. repeat f_equal; Z.div_mod_to_equations; lia.
Qed.

(** The four bytes of a register in a block. *)
Definition quad (l : list Z) (r : Z) : list Z :=
  [nthZ l (4 * r); nthZ l (4 * r + 1); nthZ l (4 * r + 2); nthZ l (4 * r + 3)].

Lemma quad_word l r :
  Forall is_byte l -> is_u32 (word_of (quad l r)) /\ bytes_of (word_of (quad l r)) = quad l r.
Proof. intros Hl. apply bytes_word; apply nthZ_Forall; done || (unfold is_byte; lia). Qed.

Lemma text_get buf l k : text_at buf 0 l -> 0 <= k < len l -> buf_get buf k = Val (nthZ l k).
Proof.
  intros (_ & Hl & Ht) Hk. specialize (Ht k Hk). rewrite Z.add_0_l in Ht. unfold buf_get.
  rewrite (proj2 (Z.leb_le _ _)), (proj2 (Z.ltb_lt _ _)) by lia. by rewrite Ht.
Qed.

(** ** The block of the registers *)

Section regs.
Context {B : Type} `{Bus B} `{MachIO B} `{MachReset B}.
Implicit Types m : machine B.

(** The registers have the values of a block of [NUMREGBYTES] bytes. *)
Definition block (l : list Z) m : Prop :=
  forall r, 0 <= r < NUMREGS -> sparc_register (cpu m) r = Some (word_of (quad l r)).

Lemma store_regs n regno memory l m :
  text_at memory 0 l -> len l = NUMREGBYTES -> Forall is_byte l -> regs_ok (cpu m) ->
  0 <= regno -> regno + Z.of_nat n <= NUMREGS ->
  exists m', store_all n regno memory m = Val m' /\ regs_ok (cpu m') /\ bus m' = bus m
    /\ forall r, 0 <= r < NUMREGS ->
         sparc_register (cpu m') r
         = if (regno <=? r) && (r <? regno + Z.of_nat n) then Some (word_of (quad l r))
           else sparc_register (cpu m) r.
Proof.
  intros Ht Hlen Hb. unfold NUMREGBYTES, NUMREGS in *. revert regno m.
  induction n as [|n IH]; intros regno m Ho Hr Hn.
  { exists m. split; [done|]. split; [done|]. split; [done|]. intros r Hr'. case_match; [|done].
    rewrite andb_true_iff, Z.leb_le, Z.ltb_lt in *. lia. }
  destruct (quad_word l regno Hb) as [Hu _].
  destruct (IH (regno + 1) (set_cpu m (sparc_set_register (cpu m) regno (word_of (quad l regno)))))
    as (m' & E & Ho' & Hbus & Hreg); [cbn [cpu set_cpu]; apply set_register_ok; (done || lia)|lia|lia|].
  exists m'. split; [|split; [done|split; [done|]]].
  - cbn [store_all store_register register_byte sparc_reg_defs].
    unfold sparc_store_register, sparc_register_byte, frommem.
    rewrite !(text_get memory l) by (done || lia). cbn [rbind]. exact E.
  - intros r Hr'. rewrite Hreg by lia. cbn [cpu set_cpu]. rewrite register_set by (done || lia).
    destruct (Z.eqb_spec r regno) as [->|Hne].
    + rewrite (proj2 (Z.leb_gt (regno + 1) regno)), (proj2 (Z.leb_le regno regno)) by lia.
      cbn [andb]. by rewrite (proj2 (Z.ltb_lt _ _)) by lia.
    + destruct (Z.leb_spec (regno + 1) r), (Z.leb_spec regno r), (Z.ltb_spec r (regno + 1 + Z.of_nat n)),
        (Z.ltb_spec r (regno + Z.of_nat (S n))); cbn [andb]; done || lia.
Qed.

Lemma fetch_regs n regno memory l m :
  block l m -> len l = NUMREGBYTES -> Forall is_byte l -> len memory = NUMREGBYTES ->
  0 <= regno -> regno + Z.of_nat n <= NUMREGS ->
  exists memory', fetch_all n regno memory m = Val memory' /\ len memory' = NUMREGBYTES
    /\ forall j, 0 <= j ->
         nthZ memory' j = if (4 * regno <=? j) && (j <? 4 * (regno + Z.of_nat n)) then nthZ l j
                          else nthZ memory j.
Proof.
  intros Hbl Hlen Hb. unfold NUMREGBYTES, NUMREGS in *. revert regno memory.
  induction n as [|n IH]; intros regno memory Hm Hr Hn.
  { exists memory. split; [done|]. split; [done|]. intros j Hj. case_match; [|done].
    rewrite andb_true_iff, Z.leb_le, Z.ltb_lt in *. lia. }
  destruct (quad_word l regno Hb) as [_ Hq].
  destruct (puts_stored memory (4 * regno) (quad l regno)) as (mem1 & E1 & Hs); [lia|cbn; lia|].
  pose proof (stored_length _ _ _ _ Hs) as Hl1. destruct Hs as [_ Hs].
  destruct (IH (regno + 1) mem1) as (mem2 & E2 & Hl2 & H2); [lia|lia|lia|].
  exists mem2. split; [|split; [done|]].
  - cbn [fetch_all fetch_register register_byte sparc_reg_defs].
    unfold sparc_fetch_register, sparc_register_byte. rewrite Hbl by (unfold NUMREGS; lia).
    unfold tomem. fold (bytes_of (word_of (quad l regno))). rewrite Hq, E1. exact E2.
  - intros j Hj. rewrite H2, Hs by done. change (len (quad l regno)) with 4.
    destruct (Z.leb_spec (4 * (regno + 1)) j); cbn [andb].
    + rewrite (proj2 (Z.leb_le (4 * regno) j)), (proj2 (Z.ltb_ge j (4 * regno + 4))) by lia. cbn [andb].
      by replace (regno + Z.of_nat (S n)) with (regno + 1 + Z.of_nat n) by lia.
    + rewrite (proj2 (Z.ltb_lt j (4 * (regno + Z.of_nat (S n))))) by lia.
      destruct (Z.leb_spec (4 * regno) j); cbn [andb]; [|done].
      rewrite (proj2 (Z.ltb_lt j (4 * regno + 4))) by lia.
      assert (Hk : j - 4 * regno = 0 \/ j - 4 * regno = 1 \/ j - 4 * regno = 2 \/ j - 4 * regno = 3) by lia.
      destruct Hk as [Hk|[Hk|[Hk|Hk]]]; rewrite Hk;
        [replace j with (4 * regno) by lia|replace j with (4 * regno + 1) by lia|
         replace j with (4 * regno + 2) by lia|replace j with (4 * regno + 3) by lia]; done.
Qed.

(** ** The packets *)

Context (fresh : Z -> list Z) (host_lp64 : bool).
Implicit Types g : gdb (machine B).

Definition G_text (l : list Z) : list Z := 71 :: hexes l.
Definition g_text : list Z := [103].

(** The stub serves the registers of the processor. *)
Record serves_regs g : Prop := {
  sr_ok : regs_ok (cpu (target g));
  sr_block : len (registers g) = NUMREGBYTES;
  sr_focus : is_focusing g = false;
  sr_running : last_status g <> 87 /\ last_status g <> 88
}.

Lemma answer_G g l :
  serves_regs g -> len l = NUMREGBYTES -> Forall is_byte l ->
  exists g', answers fresh host_lp64 g (G_text l) OK g' /\ serves_regs g'
    /\ block l (target g') /\ bus (target g') = bus (target g).
Proof.
  intros [Ho Hl Hf Hs] Hlen Hb. unfold NUMREGBYTES, NUMREGS in *.
  destruct (puts_stored (registers g) 0 l) as (regs & _ & Hst); [lia|lia|].
  assert (Htx : text_at regs 0 l) by (eapply stored_text; [exact Hst|lia|lia]).
  destruct (store_regs 72 0 regs l (target g) Htx Hlen Hb Ho) as (m' & E & Ho' & Hbus & Hreg);
    [lia|unfold NUMREGS; lia|].
  exists (set_target (set_registers g regs) m').
  split; [|split; [split|split]; try done].
  - intros buf s Hlb Ht.
    unfold G_text in Ht. cbn [app] in Ht. destruct (text_cons _ _ _ _ Ht) as [Hg0 Ht1].
    apply text_app in Ht1 as [Ht1 _]. rewrite Z.add_0_l in Ht1.
    destruct (ascii_to_int l buf 1 (registers g) 0 Ht1 Hb) as (regs' & Ed & Hst'); [lia|lia|].
    rewrite (stored_inj _ _ _ _ _ Hst' Hst) in Ed.
    unfold command_of, command. cbn [own_buf set_conn set_own_buf]. rewrite Hg0. cbn [rbind Z.eqb Pos.eqb].
    unfold write_registers. cbn [own_buf registers target set_conn set_own_buf register_bytes sparc_reg_defs].
    replace (Z.to_nat NUMREGBYTES) with (length l) by (unfold NUMREGBYTES, NUMREGS; lia).
    rewrite Ed. cbn [rbind]. unfold store_inferior_registers. cbn [Z.eqb Pos.eqb orb num_regs sparc_reg_defs].
    change (Z.to_nat NUMREGS) with 72%nat. rewrite E. cbn [rbind].
    unfold reply. cbn [own_buf set_conn set_own_buf set_target set_registers].
    destruct (OK_stored buf Hlb) as (buf' & -> & Hl' & Hc). cbn [rbind]. by exists buf'.
  - cbn [registers set_target set_registers]. rewrite (stored_length _ _ _ _ Hst). done.
  - intros r Hr. cbn [target set_target]. rewrite Hreg by done. unfold NUMREGS in Hr.
    by rewrite (proj2 (Z.leb_le 0 r)), (proj2 (Z.ltb_lt r _)) by lia.
Qed.

Lemma answer_g g l :
  serves_regs g -> block l (target g) -> len l = NUMREGBYTES -> Forall is_byte l ->
  exists g', answers fresh host_lp64 g g_text (hexes l) g' /\ serves_regs g' /\ target g' = target g.
Proof.
  intros [Ho Hl Hf Hs] Hbl Hlen Hb.
  destruct (fetch_regs 72 0 (registers g) l (target g) Hbl Hlen Hb Hl) as (regs & E & Hlr & Hreg);
    [lia|unfold NUMREGS; lia|].
  assert (Hr : regs = l).
  { apply nthZ_inj; [lia|]. intros k Hk. rewrite Hreg by lia. unfold NUMREGBYTES, NUMREGS in *.
    by rewrite (proj2 (Z.leb_le _ k)), (proj2 (Z.ltb_lt k _)) by lia. }
  subst regs. exists (set_registers g l). split; [|split; [by split|done]].
  intros buf s Hlb Ht. destruct (text_cons _ _ _ _ Ht) as [Hg0 _].
  unfold command_of, command. cbn [own_buf set_conn set_own_buf]. rewrite Hg0. cbn [rbind Z.eqb Pos.eqb].
  unfold read_registers. unfold is_focusing in *. cbn [ice set_conn set_own_buf].
  cbn [own_buf registers target set_conn set_own_buf register_bytes sparc_reg_defs]. rewrite Hf.
  unfold fetch_inferior_registers. cbn [Z.eqb Pos.eqb orb num_regs sparc_reg_defs].
  change (Z.to_nat NUMREGS) with 72%nat. rewrite E. cbn [rbind].
  unfold reply. cbn [own_buf set_conn set_own_buf set_registers].
  assert (Htx : text_at l 0 l) by (split; [lia|split; [lia|]]; intros k Hk; f_equal; lia).
  replace (Z.to_nat NUMREGBYTES) with (length l) by lia.
  unfold NUMREGBYTES, NUMREGS in *.
  destruct (int_to_ascii l l 0 buf 0 Htx Hb) as (buf' & -> & Hs'); [lia|lia|].
  cbn [rbind]. exists buf'. split; [done|]. pose proof (stored_length _ _ _ _ Hs'). split; [lia|].
  apply cstring_text.
  - eapply stored_text; [exact Hs'|lia|]. rewrite length_app, Nat2Z.inj_add, length_hexes. cbn [length]. lia.
  - by apply hex_nonzero, hexes_char.
Qed.

Lemma G_polite l : len l = NUMREGBYTES -> Forall is_byte l -> polite (G_text l) OK.
Proof.
  intros Hl Hb. unfold NUMREGBYTES, NUMREGS in *. split; [|done| |cbn; lia].
  - apply sendable_cons; [lia|]. by apply hex_sendable, hexes_char.
  - unfold G_text. cbn [length]. pose proof (length_hexes l). lia.
Qed.
Lemma g_polite l : len l = NUMREGBYTES -> polite g_text (hexes l).
Proof.
  intros Hl. unfold NUMREGBYTES, NUMREGS in *. split; [|done|cbn; lia|rewrite length_hexes; lia].
  apply sendable_cons; [lia|constructor].
Qed.
End regs.
