(* ===== verification/GdbExec.v ===== *)
(** * The GDB stub: break points and execution under the debugger

    The table of break points is a set of at most 64 addresses, and [c] runs the processor up
    to the first address of the set, or until the debugger sends something; then what a trace point keeps. *)

From Stdlib Require Import ZArith Lia Bool.
From stdpp Require Import base numbers option list sets gmap.
From S2P Require Import Prelude Words GdbNet GdbServer GdbPackets GdbSession.

(** ** The table *)

Definition bp_entries (t : breakpoints) : list Z := take (Z.to_nat (num_bps t)) (bps t).
Definition bp_set (t : breakpoints) : gset Z := list_to_set (bp_entries t).

Record bp_ok (t : breakpoints) : Prop := {
  bp_len : len (bps t) = MAX_BREAKPOINTS;
  bp_num : 0 <= num_bps t <= MAX_BREAKPOINTS;
  bp_nodup : NoDup (bp_entries t)
}.

Lemma get_lookup l i c : 0 <= i -> l !! Z.to_nat i = Some c -> buf_get l i = Val c.
Proof.
  intros Hi Hl. pose proof (lookup_lt_Some _ _ _ Hl). unfold buf_get, nthZ.
  rewrite (proj2 (Z.leb_le 0 i)), (proj2 (Z.ltb_lt _ _)) by lia. cbn [andb].
  by rewrite nth_lookup_Z, Hl.
Qed.

Lemma put_insert l i c : 0 <= i < len l -> buf_put l i c = Val (<[Z.to_nat i := c]> l).
Proof.
  intros Hi. rewrite put_in by done. f_equal. unfold updZ. by rewrite (proj2 (Z.leb_le 0 i)) by lia.
Qed.

Lemma bp_find_spec n i t addr :
  0 <= i -> i + Z.of_nat n <= len t ->
  exists r, bp_find n i t addr = Val r
    /\ match r with
       | Some j => i <= j < i + Z.of_nat n /\ t !! Z.to_nat j = Some addr
       | None => addr ∉ take n (drop (Z.to_nat i) t)
       end.
Proof.
  revert i. induction n as [|n IH]; intros i Hi Hl.
  { exists None. split; [done|]. cbn. apply not_elem_of_nil. }
  destruct (lookup_lt_is_Some_2 t (Z.to_nat i)) as [c Hc]; [lia|].
  cbn [bp_find]. rewrite (get_lookup t i c) by done. cbn [rbind].
  destruct (Z.eqb_spec c addr) as [->|Hne].
  - exists (Some i). split; [done|]. split; [lia|done].
  - destruct (IH (i + 1)) as (r & -> & Hr); [lia|lia|]. exists r. split; [done|].
    destruct r as [j|].
    + destruct Hr. split; [lia|done].
    + rewrite (drop_S t c) by done. rewrite firstn_cons, not_elem_of_cons. split; [congruence|].
      by replace (S (Z.to_nat i)) with (Z.to_nat (i + 1)) by lia.
Qed.

Lemma table_find t addr :
  bp_ok t ->
  exists r, bp_find (Z.to_nat (num_bps t)) 0 (bps t) addr = Val r
    /\ match r with
       | Some j => 0 <= j < num_bps t /\ bps t !! Z.to_nat j = Some addr /\ addr ∈ bp_set t
       | None => addr ∉ bp_set t
       end.
Proof.
  intros [Hl Hn Hd]. unfold MAX_BREAKPOINTS in *.
  destruct (bp_find_spec (Z.to_nat (num_bps t)) 0 (bps t) addr) as (r & -> & Hr); [lia|lia|].
  exists r. split; [done|]. unfold bp_set, bp_entries. destruct r as [j|].
  - destruct Hr as [Hj Hlk]. rewrite Z2Nat.id in Hj by lia. split; [lia|]. split; [done|].
    apply elem_of_list_to_set, list_elem_of_lookup. exists (Z.to_nat j).
    rewrite lookup_take_lt by lia. done.
  - rewrite elem_of_list_to_set. exact Hr.
Qed.

Lemma size_bp_set t : bp_ok t -> Z.of_nat (size (bp_set t)) = num_bps t.
Proof.
  intros [Hl Hn Hd]. unfold bp_set. rewrite size_list_to_set by done.
  unfold bp_entries. rewrite length_take. lia.
Qed.

(** The last entry in the place of one that goes. *)
Lemma swap_last (l : list Z) i a b :
  l !! i = Some a -> a :: <[i := b]> l ≡ₚ l ++ [b].
Proof.
  intros Hl. rewrite insert_take_drop by (by eapply lookup_lt_Some).
  rewrite <- (take_drop_middle l i a Hl) at 3. rewrite <- app_assoc. cbn [app].
  rewrite Permutation_middle. apply Permutation_app_head. constructor.
  apply Permutation_cons_append.
Qed.

Lemma bp_insert_ok a t :
  bp_ok t ->
  exists r t', sim_ice_breakpoint_insert a t = Val (r, t') /\ bp_ok t'
    /\ if decide (a ∈ bp_set t) then r = 1 /\ t' = t
       else if decide (num_bps t = MAX_BREAKPOINTS) then r = -1 /\ t' = t
       else r = 0 /\ bp_set t' = bp_set t ∪ {[a]}.
Proof.
  intros Ht. pose proof Ht as [Hl Hn Hd]. unfold sim_ice_breakpoint_insert.
  destruct (table_find t a Ht) as ([j|] & -> & Hr); cbn [rbind].
  { exists 1, t. rewrite decide_True by apply Hr. done. }
  destruct (decide (a ∈ bp_set t)); [done|]. destruct (Z.leb_spec MAX_BREAKPOINTS (num_bps t)).
  { exists (-1), t. rewrite decide_True by lia. done. }
  destruct (decide (num_bps t = MAX_BREAKPOINTS)); [lia|]. rewrite put_insert by lia. cbn [rbind].
  assert (He : bp_entries {| bps := <[Z.to_nat (num_bps t) := a]> (bps t); num_bps := num_bps t + 1 |}
               = bp_entries t ++ [a]).
  { unfold bp_entries. cbn [bps num_bps].
    replace (Z.to_nat (num_bps t + 1)) with (S (Z.to_nat (num_bps t))) by lia.
    rewrite (take_S_r _ _ a) by (apply list_lookup_insert_eq; lia). by rewrite take_insert_ge. }
  eexists _, _. split; [done|]. split; [|split; [done|]].
  - split; cbn [bps num_bps]; [by rewrite length_insert|lia|]. rewrite He. apply NoDup_app.
    split; [done|]. split; [|apply NoDup_singleton]. intros x Hx ->%list_elem_of_singleton.
    apply Hr. by apply elem_of_list_to_set.
  - unfold bp_set. rewrite He, list_to_set_app_L. cbn [list_to_set]. set_solver.
Qed.

Lemma bp_remove_ok a t :
  bp_ok t ->
  exists r t', sim_ice_breakpoint_remove a t = Val (r, t') /\ bp_ok t'
    /\ bp_set t' = bp_set t ∖ {[a]} /\ r = if decide (a ∈ bp_set t) then 1 else 0.
Proof.
  intros Ht. pose proof Ht as [Hl Hn Hd]. unfold sim_ice_breakpoint_remove.
  destruct (table_find t a Ht) as ([j|] & -> & Hr); cbn [rbind].
  2: { exists 0, t. rewrite decide_False by done. split; [done|]. split; [done|]. set_solver. }
  destruct Hr as (Hj & Ha & Hin).
  destruct (lookup_lt_is_Some_2 (bps t) (Z.to_nat (num_bps t - 1))) as [b Hb]; [lia|].
  assert (He : bp_entries t = take (Z.to_nat (num_bps t - 1)) (bps t) ++ [b]).
  { unfold bp_entries. replace (Z.to_nat (num_bps t)) with (S (Z.to_nat (num_bps t - 1))) by lia.
    by rewrite (take_S_r _ _ b). }
  assert (Hp : forall t', bps t' = (if j <? num_bps t - 1 then <[Z.to_nat j := b]> (bps t) else bps t) ->
    num_bps t' = num_bps t - 1 -> bp_ok t' /\ bp_set t' = bp_set t ∖ {[a]}).
  { intros t' Hb' Hn'. assert (Hperm : a :: bp_entries t' ≡ₚ bp_entries t).
    - rewrite He. unfold bp_entries. rewrite Hb', Hn'. destruct (Z.ltb_spec j (num_bps t - 1)).
      + rewrite take_insert_lt by lia. apply swap_last. rewrite lookup_take_lt by lia. done.
      + replace (num_bps t - 1) with j in * by lia. rewrite Ha in Hb. injection Hb as ->.
        apply Permutation_cons_append.
    - pose proof Hd as Hd'. rewrite <- Hperm in Hd'. apply NoDup_cons in Hd' as [Hna Hd'].
      split.
      + split; [|lia|done]. rewrite Hb'. destruct (_ <? _); by rewrite ?length_insert.
      + unfold bp_set. rewrite <- Hperm. cbn [list_to_set].
        rewrite <- (elem_of_list_to_set (C := gset Z)) in Hna. set_solver. }
  rewrite (get_lookup _ _ b) by (done || lia). cbn [rbind]. rewrite put_insert by lia. cbn [rbind].
  destruct (decide (a ∈ bp_set t)); [|done].
  destruct (j <? num_bps t - 1) eqn:Hlt; (eexists _, _; split; [done|]);
    refine ((fun H => conj (proj1 H) (conj (proj2 H) eq_refl)) (Hp _ _ _)); cbn; by rewrite ?Hlt.
Qed.

(** * The GDB stub: break points by packets, and execution

    The packets [Z] and [z] on the set of break points, and [c] up to the first of them or to
    the next byte of the debugger. *)

(** ** [strtoul] *)

Lemma skip_while_text fuel f buf i l c :
  text_at buf i (l ++ [c]) -> Forall (fun ch => f ch = true) l -> f c = false -> (length l < fuel)%nat ->
  skip_while fuel f buf i = Val (i + len l).
Proof.
  revert fuel i. induction l as [|ch l IH]; intros fuel i Ht Hl Hc Hf;
    (destruct fuel as [|fuel]; [cbn in Hf; lia|]); cbn [app] in Ht;
    destruct (text_cons _ _ _ _ Ht) as [Hg Ht']; cbn [skip_while]; rewrite Hg; cbn [rbind].
  - rewrite Hc. f_equal. cbn. lia.
  - apply Forall_cons in Hl as [-> Hl]. rewrite (IH fuel) by (done || (cbn in Hf; lia)).
    cbn [length]. f_equal. lia.
Qed.

Definition numval (l : list Z) (acc : Z) : Z := fold_left (fun acc c => acc * 16 + fromhex c) l acc.

Lemma hex_value_text buf i l acc : text_at buf i l -> hex_value (length l) buf i acc = numval l acc.
Proof.
  revert i acc. induction l as [|c l IH]; intros i acc Ht; [done|].
  assert (Hc : nthZ buf i = c).
  { destruct Ht as (Hi & Hl & Ht). specialize (Ht 0). cbn [length] in Ht, Hl. rewrite Z.add_0_r in Ht.
    rewrite Ht by lia. done. }
  destruct (text_cons _ _ _ _ Ht) as [_ Ht']. cbn [length hex_value]. rewrite Hc. by apply IH.
Qed.

Lemma hex_digits_num n v acc :
  0 <= v < 16 ^ Z.of_nat n -> numval (hex_digits n v acc) 0 = numval acc v.
Proof.
  revert v acc. induction n as [|n IH]; intros v acc Hv.
  { change (16 ^ Z.of_nat 0) with 1 in Hv. by replace v with 0 by lia. }
  rewrite Nat2Z.inj_succ, Z.pow_succ_r in Hv by lia. cbn [hex_digits].
  assert (Hm : 0 <= v mod 16 < 16) by (apply Z.mod_pos_bound; lia).
  destruct (Z.ltb_spec v 16).
  - cbn [numval fold_left]. rewrite fromhex_tohex by done. by rewrite Z.mod_small by lia.
  - rewrite IH by (split; [apply Z.div_pos|apply Z.div_lt_upper_bound]; lia).
    cbn [numval fold_left]. rewrite fromhex_tohex by done. unfold numval. f_equal.
    Z.div_mod_to_equations; lia.
Qed.

Lemma print_hex_some v : exists c l, print_hex v = c :: l.
Proof.
  assert (H : forall n v acc, acc <> [] -> hex_digits n v acc <> []).
  { induction n as [|n IH]; intros w acc Ha; [done|]. cbn [hex_digits]. destruct (_ <? _); [done|].
    by apply IH. }
  assert (Hs : forall n w, hex_digits (S n) w [] <> []).
  { intros n w. cbn [hex_digits]. destruct (_ <? _); [done|]. by apply H. }
  unfold print_hex. destruct (hex_digits 8 v []) as [|c l] eqn:E; [by apply Hs in E|by eexists _, _].
Qed.

Lemma is_hex_char c : hex_char c -> is_hex c = true.
Proof.
  unfold hex_char, is_hex. intros H. apply orb_true_iff. left. apply orb_true_iff.
  rewrite !andb_true_iff, !Z.leb_le. lia.
Qed.

Lemma hex_not_space c : hex_char c -> is_space c = false.
Proof.
  unfold hex_char, is_space. intros Hc. rewrite (proj2 (Z.eqb_neq _ _)) by lia.
  by rewrite (proj2 (Z.leb_gt c 13)), andb_false_r by lia.
Qed.

Lemma strtoul_text host_lp64 buf i v c :
  text_at buf i (print_hex v ++ [c]) -> is_u32 v -> is_hex c = false -> c <> 120 -> c <> 88 ->
  strtoul16 host_lp64 buf i = Val (v, i + len (print_hex v)).
Proof.
  intros Ht Hv Hc Hx HX. pose proof (print_hex_char v (proj1 Hv)) as Hh.
  pose proof (hex_digits_num 8 v [] Hv) as Hnum.
  assert (Hl : (length (print_hex v) < S (length buf))%nat).
  { destruct Ht as (Hi & Hl & _). rewrite length_app in Hl. cbn [length] in Hl. lia. }
  assert (Hall : Forall (fun ch => is_hex ch = true) (print_hex v))
    by (eapply Forall_impl; [exact Hh|apply is_hex_char]).
  pose proof (skip_while_text _ is_hex buf i _ c Ht Hall Hc Hl) as Hk.
  pose proof (proj1 (text_app _ _ _ _ Ht)) as Hp. apply (hex_value_text buf i _ 0) in Hp.
  change (numval (print_hex v) 0 = v) in Hnum. rewrite Hnum in Hp.
  unfold strtoul16. destruct (print_hex_some v) as (c0 & l & E). rewrite E in *. cbn [app] in Ht.
  destruct (text_cons _ _ _ _ Ht) as [Hg Ht1]. apply Forall_cons in Hh as [Hc0 Hh].
  assert (Hsp : skip_while (S (length buf)) is_space buf i = Val i)
    by (cbn [skip_while]; rewrite Hg; cbn [rbind]; by rewrite hex_not_space).
  rewrite Hsp. cbn [rbind]. rewrite Hg.
  cbn [rbind]. pose proof Hc0 as Hc0'. unfold hex_char in Hc0'.
  rewrite (proj2 (Z.eqb_neq c0 45)), (proj2 (Z.eqb_neq c0 43)) by lia. cbn [orb]. rewrite Hg. cbn [rbind].
  assert (Hpre : (if c0 =? 48 then
      let! c1 := buf_get buf (i + 1) in
      if (c1 =? 120) || (c1 =? 88) then let! c2 := buf_get buf (i + 2) in Val (is_hex c2) else Val false
    else Val false) = Val false).
  { destruct (_ =? _); [|done]. destruct l as [|c1 l]; cbn [app] in Ht1;
      destruct (text_cons _ _ _ _ Ht1) as [-> _]; cbn [rbind].
    - by rewrite (proj2 (Z.eqb_neq c 120)), (proj2 (Z.eqb_neq c 88)) by done.
    - apply Forall_cons in Hh as [H1 _]. unfold hex_char in H1.
      by rewrite (proj2 (Z.eqb_neq c1 120)), (proj2 (Z.eqb_neq c1 88)) by lia. }
  rewrite Hpre. cbn [rbind]. rewrite Hk. cbn [rbind].
  rewrite (proj2 (Z.eqb_neq _ i)) by (cbn [length]; lia).
  replace (Z.to_nat (i + len (c0 :: l) - i)) with (length (c0 :: l)) by lia. rewrite Hp.
  unfold ULONG_LIMIT. rewrite (proj2 (Z.leb_gt _ _)); [done|].
  unfold is_u32 in Hv. destruct host_lp64; lia.
Qed.

(** ** The packets *)

(** Set or clear, the type, the address and the length. *)
Record bp_request : Type := { insert : bool; type : Z; address : Z; kind : Z }.

Definition bp_text (r : bp_request) : list Z :=
  (if insert r then 90 else 122)
  :: print_hex (type r) ++ 44 :: print_hex (address r) ++ 44 :: print_hex (kind r).

Definition bp_request_ok (r : bp_request) : Prop :=
  is_u32 (type r) /\ is_u32 (address r) /\ is_u32 (kind r).

Lemma decode_z host_lp64 buf r :
  text_at buf 0 (bp_text r ++ [0]) -> bp_request_ok r ->
  decode_z_packet host_lp64 buf = Val (type r, address r).
Proof.
  intros Ht (H1 & H2 & H3). unfold bp_text in Ht. cbn [app] in Ht.
  destruct (text_cons _ _ _ _ Ht) as [_ Ht1]. rewrite Z.add_0_l in Ht1.
  rewrite <- app_assoc in Ht1. cbn [app] in Ht1. rewrite <- app_assoc in Ht1. cbn [app] in Ht1.
  assert (Hcomma : forall i v l, text_at buf i (print_hex v ++ 44 :: l) -> is_u32 v ->
    strtoul16 host_lp64 buf i = Val (v, i + len (print_hex v))
    /\ skip_comma buf (i + len (print_hex v)) = Val (i + len (print_hex v) + 1)
    /\ text_at buf (i + len (print_hex v) + 1) l).
  { intros i v l Htx Hv. destruct (text_app _ _ _ _ Htx) as [_ Hr].
    destruct (text_cons _ _ _ _ Hr) as [Hg Hr']. split; [|split; [|done]].
    - change (44 :: l) with ([44] ++ l) in Htx. rewrite app_assoc in Htx.
      by apply text_app in Htx as [Htx _]; eapply strtoul_text.
    - unfold skip_comma. by rewrite Hg. }
  destruct (Hcomma _ _ _ Ht1 H1) as (E1 & E2 & Ht2). destruct (Hcomma _ _ _ Ht2 H2) as (E3 & E4 & Ht3).
  unfold decode_z_packet. rewrite E1. cbn [rbind]. rewrite E2. cbn [rbind]. rewrite E3. cbn [rbind].
  rewrite E4. cbn [rbind]. rewrite (strtoul_text host_lp64 buf _ (kind r) 0) by done. cbn [rbind].
  by rewrite !u32_id.
Qed.

(** What a set of at most 64 addresses answers. *)
Definition ENN : list Z := [69; 48; 49].
Definition bp_answer (X : gset Z) (r : bp_request) : list Z * gset Z :=
  if (type r =? 0) || (type r =? 1) then
    if insert r then
      if decide (address r ∈ X) then (OK, X)
      else if decide (Z.of_nat (size X) = 64) then (ENN, X) else (OK, X ∪ {[address r]})
    else (OK, X ∖ {[address r]})
  else (ENN, X).

Fixpoint bp_answers (X : gset Z) (l : list bp_request) : list (list Z * list Z) * gset Z :=
  match l with
  | [] => ([], X)
  | r :: l =>
      let (a, X) := bp_answer X r in
      let (rest, X) := bp_answers X l in ((bp_text r, a) :: rest, X)
  end.

Lemma bp_polite X r : bp_request_ok r -> polite (bp_text r) (bp_answer X r).1.
Proof.
  intros (H1 & H2 & H3). unfold is_u32 in *.
  assert (Hd : forall v, 0 <= v < 4294967296 -> (length (print_hex v) <= 8)%nat)
    by (intros v Hv; apply print_hex_length; [change (16 ^ Z.of_nat 8) with 4294967296|]; lia).
  pose proof (Hd _ H1). pose proof (Hd _ H2). pose proof (Hd _ H3). split; [|done| |].
  - unfold bp_text. apply sendable_cons; [destruct (insert r); lia|].
    repeat (apply sendable_cons; [lia|] || apply sendable_app || apply hex_sendable, print_hex_char); lia.
  - unfold bp_text. cbn [length]. rewrite !length_app. cbn [length]. rewrite length_app. cbn [length]. lia.
  - unfold bp_answer. by repeat case_match.
Qed.

Section bp.
Context {S : Type} `{Target S} (fresh : Z -> list Z) (host_lp64 : bool).
Implicit Types g : gdb S.

(** The stub has the set of break points [X]. *)
Record serves_bps (X : gset Z) g : Prop := {
  sb_ok : bp_ok (bp_table (ice g));
  sb_set : bp_set (bp_table (ice g)) = X;
  sb_running : last_status g <> 87 /\ last_status g <> 88
}.

Lemma ENN_stored buf : len buf = 8000 ->
  exists buf', write_enn buf = Val buf' /\ len buf' = 8000 /\ cstring buf' = Some ENN.
Proof.
  intros Hl. destruct (put_string_stored buf ENN) as (buf' & E & Hl' & Ht); [cbn; lia|].
  exists buf'. split; [exact E|]. split; [lia|]. apply cstring_text; [exact Ht|].
  by repeat (constructor; [lia|]).
Qed.

(** The new table, and whether the answer is [OK]. *)
Lemma table_step X r t :
  bp_ok t -> bp_set t = X -> (type r = 0 \/ type r = 1) ->
  exists n t', (if insert r then sim_ice_breakpoint_insert (address r) t
                else sim_ice_breakpoint_remove (address r) t) = Val (n, t')
    /\ bp_ok t' /\ bp_answer X r = (if n <? 0 then ENN else OK, bp_set t').
Proof.
  intros Ht HX Hty. unfold bp_answer.
  replace ((type r =? 0) || (type r =? 1)) with true by (destruct Hty as [-> | ->]; done).
  destruct (insert r).
  - destruct (bp_insert_ok (address r) t Ht) as (n & t' & E & Ht' & Hc). exists n, t'.
    split; [done|]. split; [done|]. rewrite HX in Hc. subst X.
    rewrite (size_bp_set t Ht). unfold MAX_BREAKPOINTS in Hc.
    destruct (decide (address r ∈ bp_set t)); [by destruct Hc as [-> ->]|].
    destruct (decide (num_bps t = 64)); destruct Hc as [-> Hs]; [by subst|by rewrite Hs].
  - destruct (bp_remove_ok (address r) t Ht) as (n & t' & E & Ht' & Hs & Hn). exists n, t'.
    split; [done|]. split; [done|]. rewrite Hs, <- HX. subst n. by destruct (decide _).
Qed.

Lemma answer_bp X g r :
  serves_bps X g -> bp_request_ok r ->
  exists g', answers fresh host_lp64 g (bp_text r) (bp_answer X r).1 g'
    /\ serves_bps (bp_answer X r).2 g' /\ target g' = target g.
Proof.
  intros [Ho Hs Hrun] Hr. destruct ((type r =? 0) || (type r =? 1)) eqn:Ety.
  - assert (Hty : type r = 0 \/ type r = 1)
      by (apply orb_true_iff in Ety as [E%Z.eqb_eq|E%Z.eqb_eq]; auto).
    destruct (table_step X r _ Ho Hs Hty) as (n & t' & E & Ht' & ->). cbn [fst snd].
    exists (set_ice g (set_bp_table (ice g) t')). split; [|split; [by split|done]].
    intros buf s Hl Ht. pose proof (decode_z host_lp64 buf r Ht Hr) as Hd.
    destruct (text_cons _ _ _ _ Ht) as [Hg _].
    assert (Hcmd : command fresh host_lp64 (set_conn (set_own_buf g buf) s)
      = breakpoint_command host_lp64 (insert r) (set_conn (set_own_buf g buf) s)).
    { unfold command. cbn [own_buf set_conn set_own_buf]. rewrite Hg. by destruct (insert r). }
    unfold command_of. rewrite Hcmd. unfold breakpoint_command. cbn [own_buf set_conn set_own_buf].
    rewrite Hd. cbn [rbind]. rewrite Ety. cbn [ice set_conn set_own_buf]. rewrite E. cbn [rbind].
    unfold reply. cbn [own_buf set_ice set_conn set_own_buf].
    destruct (OK_stored buf Hl) as (b1 & E1 & Hl1 & Hc1), (ENN_stored buf Hl) as (b2 & E2 & Hl2 & Hc2).
    destruct (n <? 0); [rewrite E2; by exists b2|rewrite E1; by exists b1].
  - assert (Ha : bp_answer X r = (ENN, X)) by (unfold bp_answer; by rewrite Ety).
    rewrite Ha. cbn [fst snd]. exists g. split; [|split; [by split|done]].
    intros buf s Hl Ht. pose proof (decode_z host_lp64 buf r Ht Hr) as Hd.
    destruct (text_cons _ _ _ _ Ht) as [Hg _].
    assert (Hcmd : command fresh host_lp64 (set_conn (set_own_buf g buf) s)
      = breakpoint_command host_lp64 (insert r) (set_conn (set_own_buf g buf) s)).
    { unfold command. cbn [own_buf set_conn set_own_buf]. rewrite Hg. by destruct (insert r). }
    unfold command_of. rewrite Hcmd. unfold breakpoint_command. cbn [own_buf set_conn set_own_buf].
    rewrite Hd. cbn [rbind]. rewrite Ety. unfold reply. cbn [own_buf set_conn set_own_buf].
    destruct (ENN_stored buf Hl) as (b2 & E2 & Hl2 & Hc2). rewrite E2. by exists b2.
Qed.

Lemma bp_talk X g l :
  serves_bps X g -> Forall bp_request_ok l ->
  exists g', talk fresh host_lp64 g (bp_answers X l).1 g' /\ serves_bps (bp_answers X l).2 g'
    /\ target g' = target g.
Proof.
  intros Hs Hl. revert g X Hs. induction Hl as [|r l Hr Hl IH]; intros g X Hs.
  { exists g. split; [constructor|done]. }
  destruct (answer_bp X g r Hs Hr) as (g1 & Ha & Hs1 & Ht1). pose proof (bp_polite X r Hr) as Hp.
  cbn [bp_answers]. destruct (bp_answer X r) as [a X1]. cbn [fst snd] in *.
  destruct (IH g1 X1 Hs1) as (g2 & Ht & Hs2 & Ht2). destruct (bp_answers X1 l) as [rest X2].
  cbn [fst snd] in *. exists g2. split; [|split; [done|congruence]].
  destruct Hs1. econstructor; [exact Hp|exact Ha|tauto|tauto|done].
Qed.

Lemma asked_bps X l :
  asked (bp_answers X l).1 = flat_map (fun r => [Some (frame (bp_text r)); Some [43]]) l.
Proof.
  revert X. induction l as [|r l IH]; intros X; [done|]. cbn [bp_answers flat_map].
  destruct (bp_answer X r) as [a X1]. rewrite <- (IH X1). by destruct (bp_answers X1 l).
Qed.

(** ** Execution *)

Fixpoint steps (k : nat) (st : S) : result S :=
  match k with O => Val st | Datatypes.S k => let! st := step_once st in steps k st end.

(** The moments at which the debugger has sent nothing, up to its next byte or its end. *)
Fixpoint quiet (l : list (option (list Z))) : nat :=
  match l with None :: l => Datatypes.S (quiet l) | _ => O end.

Lemma quiet_length l : (quiet l < Datatypes.S (length l))%nat.
Proof. induction l as [|[seg|] l IH]; cbn [quiet length]; lia. Qed.

Lemma at_breakpoint_set X g :
  serves_bps X g -> at_breakpoint g = Val (bool_decide (get_pc (target g) ∈ X)).
Proof.
  intros [Ho <- _]. unfold at_breakpoint. destruct (table_find _ (get_pc (target g)) Ho) as (r & E & Hr).
  rewrite E. cbn [rbind]. f_equal. apply bool_decide_ext. destruct r as [j|].
  - split; [tauto|by eexists].
  - split; [by intros []|done].
Qed.

(** Nothing is traced. *)
Definition untraced g : Prop := tps_status (ice g) <> TRACE_STARTED \/ num_tps (ice g) <= 0.

Lemma untraced_hits g :
  untraced g ->
  match tps_status (ice g) with
  | TRACE_STARTED => trace_hits fresh (Z.to_nat (num_tps (ice g))) 0 (get_pc (target g)) g
  | _ => Val g
  end = Val g.
Proof.
  intros [Hs|Hn]; [by destruct (tps_status (ice g))|]. destruct (tps_status (ice g)); [|done..].
  by replace (Z.to_nat (num_tps (ice g))) with O by lia.
Qed.

Lemma cont_stops fuel n X g m :
  serves_bps X g -> untraced g -> quiet (incoming (conn g)) = n -> (n < fuel)%nat ->
  steps n (target g) = Val m ->
  exists k g', (k <= n)%nat /\ resume_loop fresh fuel g = Val g'
    /\ steps k (target g) = Val (target g') /\ ice g' = ice g
    /\ (forall j m, (j < k)%nat -> steps j (target g) = Val m -> get_pc m ∉ X)
    /\ ((k < n)%nat -> get_pc (target g') ∈ X).
Proof.
  revert fuel g. induction n as [|n IH]; intros fuel g Hs Hu Hq Hf Hm;
    (destruct fuel as [|fuel]; [lia|]); cbn [resume_loop]; unfold resume_once, remote_interrupt.
  - exists O. destruct (incoming (conn g)) as [|[seg|] l]; try done;
      (eexists; split; [lia|]; split; [reflexivity|]; split; [done|]; split; [done|]; split; lia).
  - destruct (incoming (conn g)) as [|[seg|] l] eqn:El; try done. cbn [quiet] in Hq. injection Hq as Hq.
    set (g1 := set_conn g (set_incoming (conn g) l)).
    assert (Hs1 : serves_bps X g1) by (destruct Hs; by split).
    rewrite (at_breakpoint_set X g1 Hs1). cbn [rbind]. change (target g1) with (target g).
    destruct (bool_decide (get_pc (target g) ∈ X)) eqn:Ehit.
    + apply bool_decide_eq_true in Ehit. exists O, g1. split; [lia|]. split; [done|].
      split; [done|]. split; [done|]. split; [lia|done].
    + apply bool_decide_eq_false in Ehit. change (get_pc (target g)) with (get_pc (target g1)).
      rewrite (untraced_hits g1 Hu). cbn [rbind].
      cbn [steps] in Hm. destruct (step_once (target g)) as [st| | |] eqn:Est; try done. cbn [rbind] in Hm.
      change (target g1) with (target g). rewrite Est. cbn [rbind].
      destruct (IH fuel (set_target g1 st)) as (k & g' & Hk & E & Hst & Hice & Hno & Hhit);
        [destruct Hs1; by split|done|done|lia|done|].
      exists (Datatypes.S k), g'. split; [lia|]. split; [exact E|].
      split; [cbn [steps]; by rewrite Est|]. split; [done|]. split; [|intros; apply Hhit; lia].
      intros [|j] mj Hj Hmj; [by injection Hmj as <-|]. cbn [steps] in Hmj. rewrite Est in Hmj.
      by apply (Hno j); [lia|].
Qed.
End bp.

(** * The GDB stub: what a trace point keeps

    A frame holds the bytes of the memory as they were when the trace point was hit, and
    frames are numbered by their place. *)

(** ** Parts of a slice *)

Lemma slice_drop f a n k : drop k (slice f a n) = slice f (a + Z.of_nat k) (n - k).
Proof.
  revert a n. induction k as [|k IH]; intros a n.
  - rewrite drop_0, Nat.sub_0_r. f_equal. lia.
  - destruct n as [|n]; [done|]. cbn [slice]. rewrite skipn_cons, IH.
    replace (a + 1 + Z.of_nat k) with (a + Z.of_nat (S k)) by lia. done.
Qed.

Lemma slice_take f a n k : (k <= n)%nat -> take k (slice f a n) = slice f a k.
Proof.
  revert a n. induction k as [|k IH]; intros a n Hk; [done|].
  destruct n as [|n]; [lia|]. cbn [slice]. rewrite firstn_cons, IH by lia. done.
Qed.

(** ** Frames *)

(** Frames are numbered by their position. *)
Record frames_ok (e : SkyEye_ICE) : Prop := {
  fo_num : num_fb e = len (fbs e);
  fo_numbers : forall i b, fbs e !! i = Some b -> frame_number b = Z.of_nat i
}.

Lemma fb_find_numbered l i j b :
  (forall k c, l !! k = Some c -> frame_number c = Z.of_nat (i + k)) -> l !! j = Some b ->
  fb_find (fun c => frame_number c =? Z.of_nat (i + j)) l i = Some ((i + j)%nat, b).
Proof.
  revert i j. induction l as [|c l IH]; intros i j Hn Hj; [done|]. cbn [fb_find].
  pose proof (Hn O c eq_refl) as Hc. destruct j as [|j].
  - injection Hj as ->. rewrite Hc, Z.eqb_refl. by rewrite Nat.add_0_r.
  - rewrite Hc, (proj2 (Z.eqb_neq _ _)) by lia.
    replace (i + S j)%nat with (S i + j)%nat by lia. apply IH; [|done].
    intros k d Hk. rewrite (Hn (S k) d Hk). lia.
Qed.

Lemma select_frame e i b :
  frames_ok e -> fbs e !! i = Some b ->
  select_frame_buffer_by_fn (Z.of_nat i) e = (Some (fb_tp_number b), set_selected_fb e (Some i)).
Proof.
  intros [Hn Hf] Hi. unfold select_frame_buffer_by_fn. pose proof (lookup_lt_Some _ _ _ Hi).
  rewrite (proj2 (Z.ltb_ge _ _)) by lia. cbn [fbs set_selected_fb].
  pose proof (fb_find_numbered (fbs e) 0 i b Hf Hi) as E. cbn [Nat.add] in E. rewrite E.
  by destruct e.
Qed.

(** ** Records of memory *)

Definition memory_action_of (r : Z * Z) : action := ACTION_COLLECT (COLLECT_MEMORY 0xffffffff r.1 r.2).

Section trace.
Context {S : Type} `{TargetMemory S} (fresh : Z -> list Z).

Definition fresh_ok : Prop := forall n, 0 <= n -> len (fresh n) = n.

Definition traceable (dom : Z -> Prop) (r : Z * Z) : Prop :=
  0 <= r.2 < 2147483648 /\ range dom r.1 r.2 /\ r.1 + r.2 < 4294967296.

(** The record of a range. *)
Definition record_of (f : Z -> Z) (r : Z * Z) : collect_record :=
  {| ca := COLLECT_MEMORY 0xffffffff r.1 r.2; collect_data := slice f r.1 (Z.to_nat r.2);
     collect_data_length := r.2 |}.

Lemma do_memory dom f r st :
  fresh_ok -> holds_bytes st dom f -> traceable dom r ->
  exists st', do_action fresh (COLLECT_MEMORY 0xffffffff r.1 r.2) st = Val (record_of f r, st')
    /\ holds_bytes st' dom f.
Proof.
  intros Hfr Hb (Hn & Hr & Hlt). pose proof Hr as (Hlo & _ & _). pose proof (Hfr r.2 ltac:(lia)) as Hl.
  cbn [do_action Z.eqb Pos.eqb rbind]. rewrite Z.add_0_l, u32_id by (unfold is_u32; lia).
  rewrite s32_id by lia. unfold sim_read.
  destruct (sim_read_ok (Z.to_nat r.2) r.1 0 None (fresh r.2) st dom f Hb) as (buf & st' & -> & Hs & Hb');
    [by rewrite Z.add_0_r, Z2Nat.id by lia|lia|lia|].
  cbn [rbind]. exists st'. split; [|done]. rewrite u32_id by (unfold is_u32; lia). unfold record_of.
  replace (slice f r.1 (Z.to_nat r.2)) with buf; [done|]. rewrite Z.add_0_r in Hs.
  apply nthZ_inj; [rewrite length_slice; apply stored_length in Hs; lia|].
  intros k Hk. destruct Hs as [Hls Hs]. rewrite Hs by lia. rewrite length_slice.
  rewrite (proj2 (Z.leb_le 0 k)), (proj2 (Z.ltb_lt k _)) by lia. cbn [andb]. f_equal. lia.
Qed.

Lemma do_memories dom f rs fuel ts st :
  fresh_ok -> holds_bytes st dom f -> Forall (traceable dom) rs -> (length rs < fuel)%nat ->
  exists st', do_action_list fresh fuel (map memory_action_of rs) ts st
      = Val (map (record_of f) rs, ts, map memory_action_of rs, st')
    /\ holds_bytes st' dom f.
Proof.
  intros Hfr Hb Hrs. revert fuel st Hb. induction Hrs as [|r rs Hr Hrs IH]; intros fuel st Hb Hf;
    (destruct fuel as [|fuel]; [lia|]); [by exists st|]. cbn [length] in Hf.
  destruct (do_memory dom f r st Hfr Hb Hr) as (st1 & E & Hb1).
  destruct (IH fuel st1 Hb1) as (st2 & E2 & Hb2); [lia|]. exists st2. split; [|done].
  cbn [map]. unfold memory_action_of at 1. cbn [do_action_list]. rewrite E. cbn [rbind].
  rewrite E2. done.
Qed.

Lemma trace_memory_found f rs r addr buf size :
  Forall (fun r => 0 <= r.1 /\ 0 <= r.2 /\ r.1 + r.2 < 4294967296) rs -> r ∈ rs ->
  0 <= size <= len buf -> r.1 <= addr -> addr + size <= r.1 + r.2 ->
  exists buf', trace_memory (map (record_of f) rs) addr buf size = Val (size, buf')
    /\ stored buf 0 (slice f addr (Z.to_nat size)) buf'.
Proof.
  intros Hrs Hin Hsz Hlo Hhi.
  assert (Hr : 0 <= r.1 /\ 0 <= r.2 /\ r.1 + r.2 < 4294967296) by (by eapply Forall_forall in Hrs).
  induction Hrs as [|c rs (Hc1 & Hc2 & Hc3) Hrs IH]; [by apply not_elem_of_nil in Hin|].
  cbn [map trace_memory ca record_of collect_data].
  rewrite (u32_id (addr + size)), (u32_id (c.1 + c.2)) by (unfold is_u32; lia).
  destruct (Z.leb_spec c.1 addr), (Z.leb_spec (addr + size) (c.1 + c.2)); cbn [andb];
    try (apply IH; apply elem_of_cons in Hin as [-> |Hin]; [lia|done]).
  rewrite length_slice, (proj2 (Z.leb_le _ _)) by lia.
  rewrite slice_drop, slice_take by lia. replace (c.1 + Z.of_nat (Z.to_nat (addr - c.1))) with addr by lia.
  destruct (puts_stored buf 0 (slice f addr (Z.to_nat size))) as (buf' & -> & Hs);
    [lia|rewrite length_slice; lia|]. cbn [rbind]. by exists buf'.
Qed.

(** A hit makes the next frame, which later hits leave as it is. *)
Lemma hit_memory dom f rs id t e st :
  fresh_ok -> holds_bytes st dom f -> Forall (traceable dom) rs -> frames_ok e ->
  tp_at e id = Val t -> status t = TRACEPOINT_ENABLED -> pass_count t = 0 ->
  actions t = map memory_action_of rs ->
  exists e' st', handle_tracepoint fresh id e st = Val (e', st') /\ holds_bytes st' dom f
    /\ frames_ok e'
    /\ fbs e' = fbs e ++ [{| fb_tp_number := number t; frame_number := num_fb e;
                             records := map (record_of f) rs |}].
Proof.
  intros Hfr Hb Hrs [Hn Hf] Ht Hst Hp Ha. unfold handle_tracepoint. rewrite Ht. cbn [rbind].
  rewrite Hst, Hp. cbn [Z.eqb]. unfold record_frame. rewrite Ht. cbn [rbind]. rewrite Ha.
  destruct (do_memories dom f rs (action_fuel (map memory_action_of rs)) (status t) st Hfr Hb Hrs)
    as (st' & -> & Hb').
  { unfold action_fuel. clear. induction rs; cbn in *; lia. }
  cbn [rbind app]. unfold tp_put. cbn [tps set_fbs].
  assert (Hid : (0 <=? id) && (id <? len (tps e)) = true).
  { unfold tp_at in Ht. destruct (Z.leb_spec 0 id); [|done].
    destruct (tps e !! Z.to_nat id) eqn:E; [|done]. apply lookup_lt_Some in E.
    cbn [andb]. apply Z.ltb_lt. lia. }
  rewrite Hid. cbn [rbind]. eexists _, st'. split; [done|]. split; [done|].
  split; [|done]. split; cbn [num_fb fbs set_tps set_fbs].
  - rewrite length_app. cbn [length]. lia.
  - intros i b Hi. apply lookup_app_Some in Hi as [Hi|[Hl Hi]]; [by apply Hf|].
    apply list_lookup_singleton_Some in Hi as [Hi <-]. cbn [frame_number]. lia.
Qed.
End trace.
