(* ===== verification/GdbProps.v ===== *)
(** * The GDB stub: properties

    Memory, registers, break points and execution as a debugger sees them over a
    connection, a SPARC with a RAM bank as an instance, and the theorems at concrete inputs. *)

From Stdlib Require Import ZArith Lia Bool.
From stdpp Require Import base numbers option list sets gmap.
From S2P Require Import Prelude Words Bus SparcState Isa SparcIU Memory MemProps Leon2.
From S2P Require Import Leon2Props BoardProps Witnesses GdbNet GdbServer GdbPackets.
From S2P Require Import GdbSession GdbTargets GdbExec.

Section memory.
Context {S : Type} `{TargetMemory S} (fresh : Z -> list Z) (host_lp64 : bool).

(** C22: over a connection, the stub answers any sequence of memory packets, reads of up to
    997 bytes and writes of up to 3000, with the replies of an array of bytes, and leaves the
    array in the memory of the processor. *)
Theorem memory_packets_refine (g : gdb S) st dom f l :
  arch_reset (target g) = Val st -> serves dom f (set_target g st) -> len (own_buf g) = 8000 ->
  rbuf (conn g) = [] -> broken (conn g) = false -> Forall (request_ok dom) l ->
  incoming (conn g) = flat_map (fun r => [Some (frame (request_text r)); Some [43]]) l ->
  exists g', connection fresh host_lp64 g = Val g'
    /\ sent (conn g') = sent (conn g) ++ said (array_answers f l).1
    /\ holds_bytes (target g') dom (array_answers f l).2.
Proof.
  intros Hr Hs Hl Hb Hbr Hok Hi. rewrite <- (asked_requests f) in Hi.
  destruct (array_talk fresh host_lp64 l _ dom f Hs Hok) as (g1 & Ht & Hs1).
  destruct (talk_connection fresh host_lp64 g st _ g1 Hr Ht Hl Hb Hbr Hi) as (g2 & E & Hsame & Hsent).
  exists g2. split; [done|]. split; [done|]. destruct Hsame as [-> _ _ _]. apply Hs1.
Qed.
End memory.

(** ** Trace points *)

Section trace.
Context {S : Type} `{TargetMemory S} (fresh : Z -> list Z).

End trace.

(** ** Break points *)

Section bp.
Context {S : Type} `{Target S} (fresh : Z -> list Z) (host_lp64 : bool).

(** C25: over a connection, the packets that set and clear break points are answered by a set
    of at most 64 addresses, whatever the order and the repetitions, and the table ends with
    that set. *)
Theorem break_points_refine (g : gdb S) st X l :
  arch_reset (target g) = Val st -> serves_bps X g -> Forall bp_request_ok l ->
  len (own_buf g) = 8000 -> rbuf (conn g) = [] -> broken (conn g) = false ->
  incoming (conn g) = flat_map (fun r => [Some (frame (bp_text r)); Some [43]]) l ->
  exists g', connection fresh host_lp64 g = Val g'
    /\ sent (conn g') = sent (conn g) ++ said (bp_answers X l).1
    /\ bp_ok (bp_table (ice g')) /\ bp_set (bp_table (ice g')) = (bp_answers X l).2
    /\ target g' = st.
Proof.
  intros Hr Hs Hok Hl Hb Hbr Hi. rewrite <- (asked_bps X) in Hi.
  assert (Hs' : serves_bps X (set_target g st)) by (destruct Hs; by split).
  destruct (bp_talk fresh host_lp64 X _ l Hs' Hok) as (g1 & Ht & [Ho1 Hs1 _] & Ht1).
  destruct (talk_connection fresh host_lp64 g st _ g1 Hr Ht Hl Hb Hbr Hi) as (g2 & E & Hsame & Hsent).
  exists g2. destruct Hsame as [-> -> _ _]. by rewrite Ht1.
Qed.

End bp.

(** ** The registers of the SPARC *)

Section regs.
Context {B : Type} `{Bus B} `{MachIO B} `{MachReset B} (fresh : Z -> list Z) (host_lp64 : bool).

(** C26: the block of registers that a debugger writes is in the registers of the processor,
    and is the block that it reads back; the memory of the machine is as after the reset. *)
Theorem registers_round_trip (g : gdb (machine B)) m l :
  arch_reset (target g) = Val m -> serves_regs (set_target g m) ->
  len l = NUMREGBYTES -> Forall is_byte l ->
  len (own_buf g) = 8000 -> rbuf (conn g) = [] -> broken (conn g) = false ->
  incoming (conn g) = [Some (frame (G_text l)); Some [43]; Some (frame g_text); Some [43]] ->
  exists g', connection fresh host_lp64 g = Val g'
    /\ sent (conn g') = sent (conn g) ++ 43 :: frame OK ++ 43 :: frame (hexes l)
    /\ block l (target g') /\ bus (target g') = bus m.
Proof.
  intros Hr Hs Hl Hby Hlen Hb Hbr Hi.
  destruct (answer_G fresh host_lp64 _ l Hs Hl Hby) as (g1 & Ha1 & Hs1 & Hbl & Hbus).
  destruct (answer_g fresh host_lp64 g1 l Hs1 Hbl Hl Hby) as (g2 & Ha2 & Hs2 & Ht2).
  assert (Ht : talk fresh host_lp64 (set_target g m) [(G_text l, OK); (g_text, hexes l)] g2).
  { destruct (sr_running _ Hs1), (sr_running _ Hs2).
    econstructor; [by apply G_polite|exact Ha1|done|done|].
    econstructor; [by apply g_polite|exact Ha2|done|done|]. constructor. }
  destruct (talk_connection fresh host_lp64 g m _ g2 Hr Ht Hlen Hb Hbr Hi) as (g3 & E & [Htg _ _ _] & Hsent).
  exists g3. split; [done|]. rewrite Htg, Ht2. split; [|done]. rewrite Hsent. unfold said. cbn [flat_map app].
  by rewrite app_nil_r.
Qed.
End regs.

(** ** The SPARC with a RAM bank *)

Section bank.
Context {W : Type} `{Mach W} `{MachIO (memsys W)} `{MachReset (memsys W)} (i : nat) (b : mem_bank).

Definition bank_mem_at (m : machine (memsys W)) (a : Z) : Prop :=
  ram_bank (bus m) i b /\ in_bank b a 1.
Definition bank_byte_at (m : machine (memsys W)) (a : Z) : Z := ram_byte (bus m) i b a.

Lemma bank_byte_read m a :
  bank_mem_at m a ->
  is_byte (bank_byte_at m a)
  /\ exists m', sparc_ICE_read_byte a m = Val (0, Some (bank_byte_at m a), m')
     /\ forall a', bank_mem_at m a' -> bank_mem_at m' a' /\ bank_byte_at m' a' = bank_byte_at m a'.
Proof.
  intros [Hr Ha]. destruct (ram_bus_read (bus m) i b a 1 Hr Ha ltac:(auto) (Z.mod_1_r a))
    as (v & st' & E & Hr' & _ & Hbe & Hrom & Hv & Hk).
  specialize (Hk 0 ltac:(lia)). rewrite Z.add_0_r in Hk.
  assert (Hvv : bank_byte_at m a = v).
  { unfold bank_byte_at. rewrite <- Hk. unfold value_byte.
    replace (8 * (if big_endian (bus m) =? 1 then 1 - 1 - 0 else 0)) with 0 by (by destruct (_ =? _)).
    rewrite Z.shiftr_0_r. change 255 with (Z.ones 8). rewrite Z.land_ones by lia. by apply Z.mod_small. }
  rewrite Hvv. split; [exact Hv|]. exists (set_bus m st'). split.
  - unfold sparc_ICE_read_byte. cbn [bus_read memsys_bus]. change (8 * 1) with 8 in E. rewrite E.
    cbn [rbind fmap option_fmap option_map]. unfold u8. rewrite Z.mod_small by exact Hv. done.
  - intros a' [_ Ha']. unfold bank_mem_at, bank_byte_at, ram_byte, ram_words. cbn [bus set_bus].
    by rewrite Hbe, Hrom.
Qed.

Lemma bank_byte_write m a v :
  bank_mem_at m a -> is_byte v ->
  exists m', sparc_ICE_write_byte a v m = Val (0, m')
     /\ forall a', bank_mem_at m a' ->
          bank_mem_at m' a' /\ bank_byte_at m' a' = if a' =? a then v else bank_byte_at m a'.
Proof.
  intros [Hr Ha] Hv. destruct (ram_bus_write (bus m) i b a 1 v Hr Ha ltac:(auto) (Z.mod_1_r a) ltac:(lia))
    as (st' & E & Hr' & _ & _ & Hbytes).
  exists (set_bus m st'). split.
  - unfold sparc_ICE_write_byte. cbn [bus_write memsys_bus]. change (8 * 1) with 8 in E. by rewrite E.
  - intros a' [_ Ha']. split; [done|]. unfold bank_byte_at. cbn [bus set_bus]. rewrite (Hbytes a' Ha').
    destruct (Z.eqb_spec a' a) as [->|Hne].
    + rewrite (proj2 (Z.leb_le a a)), (proj2 (Z.ltb_lt a _)) by lia. cbn [andb]. unfold value_byte.
      replace (8 * (if big_endian (bus m) =? 1 then 1 - 1 - (a - a) else a - a)) with 0
        by (destruct (_ =? _); lia).
      rewrite Z.shiftr_0_r. change 255 with (Z.ones 8). rewrite Z.land_ones by lia. by apply Z.mod_small.
    + destruct (Z.leb_spec a a'), (Z.ltb_spec a' (a + 1)); cbn [andb]; done || lia.
Qed.

Definition bank_memory : TargetMemory (machine (memsys W)) :=
  {| mem_at := bank_mem_at; byte_at := bank_byte_at;
     byte_read := bank_byte_read; byte_write := bank_byte_write |}.
End bank.

(** * The GDB stub: the theorems at concrete inputs

    A SPARC with sixteen bytes of RAM, or with a program that prints, under a debugger. *)

Definition zeros (n : Z) : list Z := replicate (Z.to_nat n) 0.

Lemma zeros_length n : 0 <= n -> len (zeros n) = n.
Proof. intros Hn. unfold zeros. rewrite length_replicate. lia. Qed.

Definition fresh_zeros : fresh_ok zeros := zeros_length.

(** ** Packets *)

Definition noisy : net :=
  {| rbuf := [43]; incoming := [Some [36; 103; 35]; None; Some [48; 48; 120; 36]; Some [103; 35; 54; 55; 36]];
     sent := []; broken := false |}.

Lemma getpkt_retransmission_witness :
  exists buf' s', getpkt (zeros 8) noisy = Val (1, buf', s') /\ cstring buf' = Some [103]
    /\ pending s' = [36] /\ sent s' = [45; 43].
Proof.
  destruct (getpkt_retransmission [{| noise := [43]; body := [103]; digit1 := 48; digit2 := 48 |}]
              [103] [120] [36] (zeros 8) noisy) as (buf' & s' & E & _ & Hc & Hp & Hs);
    [done| | | | |done|done|].
  - apply Forall_singleton. split; [|by vm_compute]. split; [| | |by vm_compute];
      repeat (apply Forall_cons; split; [unfold char7; cbn; lia|]); apply Forall_nil_2.
  - apply Forall_singleton. unfold char7. lia.
  - by apply Forall_singleton.
  - apply Forall_singleton. lia.
  - by exists buf', s'.
Defined.

(** ** The SPARC with a little memory *)

Definition small : machine (memsys leon2) := Machine s0 ram4.

(** The stub connected to a processor. *)
Definition stub_of (m : machine (memsys leon2)) (l : list (option (list Z))) (e : SkyEye_ICE)
    : gdb (machine (memsys leon2)) :=
  {| conn := {| rbuf := []; incoming := l; sent := []; broken := false |}; own_buf := zeros 8000;
     mem_buf := zeros 8000; registers := zeros NUMREGBYTES; last_status := 83; last_signal := 5;
     ice := e; remote_debug := false; target := m |}.

Definition after_reset : machine (memsys leon2) :=
  set_bus small (set_mach ram4 (leon2_io_reset l0)).

Lemma cpu_after_reset : cpu after_reset = s0.
Proof. unfold after_reset, small. cbn [cpu set_bus]. done. Qed.

Definition below16 (a : Z) : Prop := 0 <= a < 16.

Lemma small_memory :
  holds_bytes (H0 := bank_memory 0 (ram_at_0 16)) after_reset below16 (fun _ => 0).
Proof.
  intros a Ha. unfold below16 in Ha. split.
  - split; [|unfold in_bank; cbn; lia]. apply (board_ram_bank [0; 0; 0; 0] (leon2_io_reset l0));
      [unfold ram_size_ok; cbn; lia|]. repeat (apply Forall_cons_2; [unfold is_u32; lia|]).
    apply Forall_nil_2.
  - enum_Z a 0 16; by vm_compute.
Qed.

Lemma memory_packets_refine_witness :
  exists g', connection zeros true
      (stub_of small [Some (frame (M_text 5 [1; 2; 3])); Some [43]; Some (frame (m_text 4 6)); Some [43]]
         skyeye_ice) = Val g'
    /\ sent (conn g') = 43 :: frame OK ++ 43 :: frame (hexes [0; 1; 2; 3; 0; 0]).
Proof.
  destruct (memory_packets_refine (H0 := bank_memory 0 (ram_at_0 16)) zeros true
     (stub_of small [Some (frame (M_text 5 [1; 2; 3])); Some [43]; Some (frame (m_text 4 6)); Some [43]]
         skyeye_ice) after_reset below16 (fun _ => 0) [Write 5 [1; 2; 3]; Read 4 6]) as (g' & E & Hs & _);
    [done|split; [exact small_memory|by vm_compute|done|done]|by vm_compute|done|done| |done|].
  - repeat apply Forall_cons_2; [| |apply Forall_nil_2];
      (split; [unfold is_u32; lia|split; [split; [lia|split; [cbn; lia|intros b Hb; unfold below16; cbn in Hb; lia]]|]]).
    + split; [cbn; lia|]. repeat (apply Forall_cons_2; [unfold is_byte; lia|]). apply Forall_nil_2.
    + cbn. lia.
  - exists g'. split; [exact E|]. rewrite Hs. by vm_compute.
Defined.

Lemma registers_round_trip_witness :
  exists g', connection zeros true
      (stub_of small [Some (frame (G_text (replicate 288 7))); Some [43]; Some (frame g_text); Some [43]]
         skyeye_ice) = Val g'
    /\ sparc_register (cpu (target g')) 40 = Some 0x07070707.
Proof.
  destruct (registers_round_trip zeros true
     (stub_of small [Some (frame (G_text (replicate 288 7))); Some [43]; Some (frame g_text); Some [43]]
        skyeye_ice) after_reset (replicate 288 7)) as (g' & E & _ & Hb & _);
    [done|split; [cbn [target set_target]; rewrite cpu_after_reset; exact (wf_regs_ok _ s0_wf)|by vm_compute|done|done]|by vm_compute| |by vm_compute|done|done|done|].
  - apply Forall_replicate. unfold is_byte. lia.
  - exists g'. split; [exact E|]. rewrite (Hb 40 ltac:(unfold NUMREGS; lia)).
    by vm_compute.
Defined.

(** ** Break points and execution *)

Lemma no_bps_ok : bp_ok {| bps := replicate 64 0; num_bps := 0 |}.
Proof. split; [done|unfold MAX_BREAKPOINTS; cbn; lia|constructor]. Qed.

Definition three_requests : list bp_request :=
  [{| insert := true; type := 0; address := 8; kind := 4 |};
   {| insert := true; type := 0; address := 12; kind := 4 |};
   {| insert := false; type := 0; address := 8; kind := 4 |};
   {| insert := true; type := 2; address := 8; kind := 4 |}].

Lemma break_points_refine_witness :
  exists g', connection zeros true
      (stub_of small (flat_map (fun r => [Some (frame (bp_text r)); Some [43]]) three_requests) skyeye_ice)
      = Val g'
    /\ sent (conn g') = 43 :: frame OK ++ 43 :: frame OK ++ 43 :: frame OK ++ 43 :: frame ENN
    /\ bp_set (bp_table (ice g')) = {[12]}.
Proof.
  destruct (break_points_refine zeros true
     (stub_of small (flat_map (fun r => [Some (frame (bp_text r)); Some [43]]) three_requests) skyeye_ice)
     after_reset ∅ three_requests) as (g' & E & Hs & _ & Hb & _);
    [done|split; [exact no_bps_ok|done|done]| |by vm_compute|done|done|done|].
  - repeat (apply Forall_cons_2; [unfold bp_request_ok, is_u32; cbn; lia|]). apply Forall_nil_2.
  - exists g'. split; [exact E|]. split; [rewrite Hs; by vm_compute|]. rewrite Hb. by vm_compute.
Defined.

(** A break point at the second instruction of the program. *)
Definition stop_at_4 : SkyEye_ICE :=
  set_tps_status (set_bp_table skyeye_ice {| bps := 4 :: replicate 63 0; num_bps := 1 |}) TRACE_STOPPED.

Lemma stop_at_4_serves m l : serves_bps {[4]} (stub_of m l stop_at_4).
Proof.
  split; cbn [ice last_status stub_of]; [|by vm_compute|lia].
  split; [done|unfold MAX_BREAKPOINTS; cbn; lia|]. apply NoDup_singleton.
Qed.


(** ** A trace point that keeps eight bytes *)

Definition traced : SkyEye_ICE :=
  set_tps skyeye_ice
    [{| tp_address := 0; number := 1; actions := [memory_action_of (4, 8)]; status := TRACEPOINT_ENABLED;
        pass_count := 0; remaining_pass := 0; remaining_step := 0 |}] 1.

